(* ===== verification/_CoqProject ===== *)
-Q . S2P
Prelude.v
GoStrings.v
GoPath.v
GoRegexp.v
GoUtf8.v
Apperr.v
Util.v
Manifest.v
Discovery.v
Validation.v
Targets.v
Sha256.v
Filesets.v
Effects.v
Docker.v
DockerExec.v
Lru.v
Client.v
ClientResources.v
ComposeDoc.v
Compose.v
ClientHandler.v
FactoryLock.v
ServiceState.v
Resource.v
Plan.v
Validator.v
Prompt.v
PromptView.v
Orchestrate.v
Ownership.v
Apply.v
Converge.v
Prune.v
Destroy.v
EndToEnd.v
Session.v
ContextCheck.v
Commands.v
CliContext.v
CommandTree.v
Registry.v
Images.v
ImagesCmd.v
ImagesReport.v
HostOps.v
CommandOps.v
VolumeCmd.v
Secrets.v
Doctor.v
RenderCmd.v
SshMux.v
Logger.v
Root.v
RunContext.v
Terminal.v
DashboardData.v
DashboardView.v
Dashboard.v
DashboardFrame.v
DashboardCmd.v
Ui.v
