(* ===== verification/Prelude.v ===== *)
(** * dockform, verified

    dockform manages docker compose stacks, volumes and networks on several docker
    daemons ("contexts") from one manifest.  A run loads the manifest, discovers
    stacks and filesets by convention, validates the whole, narrows it to the
    targets of the command line, compares it with what the daemons have (the plan),
    and then applies, prunes or destroys.  This development models that core, from
    the Go sources under [internal/], and proves what makes it safe to point at a
    running host.

    ** Parts, in the order they build on each other

    - [Prelude] (this file): results, Go's map iteration order as a class
      ([MapRange]: any order), sorting, shared list lemmas, tactics, the hint
      database [dockform].
    - [GoStrings], [GoPath], [GoUtf8]: the functions of Go's [strings], [strconv],
      [fmt], [path], [path/filepath] and [unicode/utf8] that the sources use.
    - [GoRegexp]: regular expressions as data, a backtracking matcher that finds what
      Go's finds, and their language, which it decides.
    - [Apperr] ([internal/apperr]): the tree of errors, wrapping, aggregation.
    - [Util], [Sha256] ([internal/util]): shell quoting, archives as lists of
      entries, an executable SHA-256.
    - [Manifest], [Discovery], [Validation] ([internal/manifest]): configuration
      records and accessors, the directory convention, normalisation and checks.
      The file system is a record of functions ([Host]); YAML decoding is a
      parameter of [LoadWithWarnings].
    - [Targets] ([internal/cli/common/targets.go]): [ResolveTargets].
    - [Filesets] ([internal/filesets]): the local index, its hash, the diff.  The
      JSON codec (class [IndexCodec]) and the glob matcher (class [Glob], in
      [Plan]) are parameters; no theorem needs a law of theirs.
    - [Effects]: programs as trees over a signature of operations ([Effect]),
      their traces and results for every possible answer ([exec]), properties of
      all runs ([wp], [always]), handlers that run a program of one signature in
      another, and embeddings of a signature in a larger one.  A theorem over all
      runs covers failing, slow, cancelled and inconsistent daemons.
    - [Docker] ([internal/planner/interfaces.go]): the signature of the planner:
      every method of its [DockerClient] interface is a [call], beside local file
      reads and decryption.  Planner functions are programs over it.  [ComposeDoc]
      ([dockercli/types.go]): the two forms of a service's networks.
    - [DockerExec], [Lru], [Client], [ClientResources], [Compose]
      ([internal/dockercli]): the client of that interface: how a docker process is
      started and retried, the cache of compose configurations (entries in a heap,
      shared between the map and the list), the command lines of every method and
      the parsing of what docker prints.  JSON and YAML decoding are the classes
      [Decoders] and [ResourceDecoders].
    - [ClientHandler] ([interfaces.go], [dockercli/factory.go]): the methods behind
      the calls as a handler from planner programs to docker command lines, and
      the factory that shares one client per context.
    - [FactoryLock] ([dockercli/factory.go]): that factory line by line, with its lock,
      under every interleaving of the goroutines that use it.
    - [ServiceState], [Resource], [Plan] ([service_state.go], [resource.go],
      [types.go], [core.go], [build_plan*.go]): detection of drift, the plan and
      its rendering (terminal styles are the class [Styles]).
    - [Orchestrate] ([orchestrate.go], [cleanup_options.go]): one function on every
      context, in sequence or concurrently.  Goroutines are joined before their
      results are read; a run is some order of completion (class [Schedule]: any
      permutation), and the function is a closure over the caller's variables.
    - [Ownership], [Apply] ([apply*.go], [targets.go]): creating resources,
      synchronising filesets, bringing stacks up, restarting services.
    - [Converge]: the meaning of a synchronisation's calls for the files of a
      volume (extraction writes, removal is an [rm -rf] whose failure nobody hears of),
      and that a synchronisation implements the local index as far as [rm] obeyed.
    - [Prune], [Destroy] ([prune.go], [destroy.go]): removal of what is not wanted,
      and of everything, or of some stacks.
    - [EndToEnd]: planner programs through [ClientHandler], down to the command
      lines of docker.
    - [Validator], [ContextCheck] ([internal/validator]): the checks before a run, and
      that of a single context.
    - [Prompt], [PromptView] ([internal/ui/confirm.go], [select.go]): the prompts as
      machines over key events, and what they show; the text field (class
      [TextInput]) is a library.
    - [Session], [Commands] ([internal/cli/common], [plancmd], [applycmd],
      [destroycmd]): finding and loading the manifest, reachability, confirmation,
      and the commands as programs over the terminal and the planner.
    - [CliContext] ([internal/cli/common/context.go]): the object of a command with its
      methods, and the commands as they are written with it: every operation is
      issued under a Go context ([Under]), and spinners start and stop.  They refine
      the commands of [Commands].
    - [CommandTree] ([internal/cli]: the constructors of the commands): the commands,
      their arguments, the flags they register and the flags they read.
    - [Registry], [Images] ([internal/registry], [internal/images]): references,
      the registry protocol with its tokens and pages, newer tags, rewriting of
      compose files.  HTTP, semantic versions, regular expressions and
      [sort.Slice] are the classes [HttpLib], [Semver], [Regexp], [SortSlice].
    - [ImagesCmd], [ImagesReport] ([internal/cli/imagescmd]): check, pull and upgrade,
      and the lines they print.
    - [HostOps], [CommandOps]: files, processes and the clock of the machine as
      operations, and the signature of the commands that use them beside the
      terminal and docker.
    - [VolumeCmd] ([internal/cli/volumecmd]): snapshot and restore of volumes.
    - [Secrets] ([internal/secrets], [internal/cli/secretcmd]): dotenv files, the
      environment and command lines of sops, and the commands on secrets.  The age
      library is the class [AgeLib].
    - [Doctor] ([internal/cli/doctorcmd]): the health scan and its report.
    - [RenderCmd] ([composecmd], [manifestcmd], [initcmd], [validatecmd],
      [MaskSecretsSimple]): the small commands; the regular expression that finds
      secrets in a rendered document is an executable matcher.
    - [SshMux] ([internal/sshmux]): the directory, link and environment that put a
      shim in place of ssh, and the shim, on a model of a machine's environment and
      files ([machine]).
    - [Logger] ([internal/logger]): loggers with fields, fan-out, steps, redaction.
    - [Root] ([cmd/dockform], [internal/cli/root.go], [buildinfo], [versioncmd]): the
      program from its arguments to its exit status, and what it says of an error.
    - [RunContext] ([logger.go], [root.go], [sshmux.go], [main.go]): what a run carries
      in its contexts, and how signals cancel it.
    - [Terminal], [Ui] ([internal/ui], [common/spinner.go], [planner/ui_hooks.go]): the
      rolling block of log lines, spinner, progress, printer, sections and pager.
    - [DashboardData], [DashboardView], [Dashboard], [DashboardFrame], [DashboardCmd]
      ([internal/cli/dashboardcmd]): what the dashboard shows, its layout, its state
      with every message and the commands they start, the screen it draws, and the
      command itself.  List, viewport and help are the class [Bubbles], lipgloss the
      classes [Lipgloss] and [Layout], with what the screen needs of them as laws; log
      streams live in a [store] beside the state, as goroutines share it, and the
      headers that were drawn in a map that all copies of the state share.

    ** What the theorems show

    - The commands: apply and destroy change something only after the user has
      confirmed, or waived, what was shown; plan and the dry runs only read; every
      resource a cleanup removes was listed under the identifier's label, down to
      the arguments of the docker processes; a manifest is never guessed among
      several; a run starts only when its contexts answer.  Written with the object of
      a command they have the same runs, and at a terminal every change is issued under
      the context of the display.  What a command reads of its flags is what
      the command line says, or the default.
    - Safety of the operations, for all daemon behaviours: planning only reads;
      apply stays inside the configuration and removes nothing; prune removes only
      listed and unwanted resources and nothing when targeted; a targeted destroy
      removes no network and only containers of the selected stacks and volumes that
      carry the name of a selected fileset, on whatever targeted context; whatever a
      destroy would remove is announced in its plan.
    - Completeness: a strict prune or destroy that reports success has removed
      everything it had to (without the strict flag failures are dropped); parallel runs execute every context; concurrent planning and
      detection equal their sequential versions in every completion order; the
      report of a run does not depend on that order.
    - Filesets: the index is exactly the non-excluded regular files; the diff is
      sound, minimal and empty only when nothing changed; the archive is well
      formed and holds exactly the changed files; the index is written last; a successful
      synchronisation brings the volume to the local tree unless a removal failed
      unheard; cold mode always restarts what it stopped.
    - The manifest: keys round trip, discovery implements its convention in every
      iteration order, accepted configurations satisfy the rules, targeting selects
      exactly what the flags name, interpolation replaces exactly the placeholders.
    - Errors: aggregation loses none, wrapping hides no message, the first failure
      of a fail-fast run is never called aborted.
    - The client: commands are retried only when that is harmless, after one, two, four
      and eight seconds, and the slot of a context is given back; the cache refines an
      abstract recency list and serves only configurations of the same inputs, where
      these hold no separator; listings that
      ask for a label are exact; numbers parse exactly within 64 bits; goroutines that
      ask the factory at the same time share one client per context, and none waits
      for ever.
    - Images: references round trip; tokens go only to the registry whose challenge
      they answer; paging ends; newer tags are exactly those matching and newer;
      upgrades write exactly the reported files, with the text of the reference replaced;
      a pull recreates only what
      drifted.
    - Volumes and secrets: a restore changes nothing before all its checks passed
      (the digest is not among them for the program's own snapshots, whose description
      it does not find) and starts what it stopped; a snapshot is described by the
      digest of what was streamed; secrets are left encrypted in place for the
      recipients that are named unless the command fails, and read again as before
      exactly when each of their lines stands for itself.
    - Small commands: the health scan looks, cleans up after itself and is content
      only when the daemon was; in a document of simple lines exactly the values
      behind the known names are masked, whatever the stack has for secrets; [init] never overwrites a manifest.
    - The program: it always cleans up before it exits, and its status and report are
      those of the error, unless that wraps a cancellation; a failing run names the context that failed first and calls
      the others aborted; every record of every logger is redacted; the ssh wrapper
      leaves the machine as it was, but for an unset path and what cannot be removed, and
      runs the ssh that was there; what was opened for
      a run is found again when it ends.
    - The terminal: the block of log lines never grows over its bounds, nor does a line
      of it wrap; tables line up
      whatever the names contain; texts shortened on the right fit.
    - The dashboard: docker is changed only from the palette, by one command on the
      selected container; states, panes, buffers and channels keep their invariant
      under any order of messages and lines; one stream is followed at a time when
      its start is reported promptly; the state of a service is that of its last row;
      what is drawn depends on the state only and has the size of the terminal.

    Hypotheses are well-formedness of the input (paths without NUL, keys without a
    slash), what the libraries that are parameters document, that SHA-256 does not collide on the two trees compared
    ([no_collision]), and, where parallel and sequential runs are compared, that
    the daemon answers both alike.

    ** Fuel

    Recursion that is not structural takes fuel that its caller computes from the
    input, and is always enough: interpolation, replacement and the bind mount
    scan use the length of the text, the parents of a path its length, SHA-256 its
    number of blocks, the search for manifests its maximal depth plus two
    ([Session.walk_fuel]: more changes nothing), eviction the number of entries, runes
    and the loops of the regular expressions the length of the text; of a single wrapper
    two launches decide ([SshMux.launch]), while nested ones never end, for any fuel.
    The pages of a registry are the exception, as the code has no bound either:
    the fuel is a number of pages, and the listing returns for every registry that
    stops naming a next page within it.

    ** Not modelled

    How the library of commands parses a command line, the processes themselves
    (docker, sops, ssh), the terminal library's drawing, keyboard and timers, and the
    gradient of the dashboard, which is computed with floating point numbers.  The
    palettes of colours are names here.  [renderSlashBanner] and [ColorStyle] are
    called from tests only; the test helpers and the generator of the documentation
    are no part of the program.  Logs and progress labels inside modelled functions are
    left out; time is a value the walk returns. *)

From stdpp Require Export base strings gmap list sets fin_maps sorting.
From Stdlib Require Export ZArith.

(** ** Results

    A Go function that returns [(T, error)] and whose [T] is meaningless on an
    error is a function into [result E T]. *)

Inductive result (E A : Type) : Type :=
| Ok (a : A)
| Err (e : E).
Arguments Ok {E A} a.
Arguments Err {E A} e.

#[global] Instance result_ret {E} : MRet (result E) := fun A a => Ok a.
#[global] Instance result_bind {E} : MBind (result E) :=
  fun A B f m => match m with Ok a => f a | Err e => Err e end.
#[global] Instance result_fmap {E} : FMap (result E) :=
  fun A B f m => match m with Ok a => Ok (f a) | Err e => Err e end.

Definition is_ok {E A} (r : result E A) : bool :=
  match r with Ok _ => true | Err _ => false end.

(** A loop whose body may return early with an error. *)
Fixpoint result_foldl {E A S} (f : S -> A -> result E S) (s : S) (l : list A)
  : result E S :=
  match l with
  | [] => Ok s
  | x :: l => match f s x with Ok s' => result_foldl f s' l | Err e => Err e end
  end.

(** A validation loop: the first failing element decides. *)
Fixpoint result_all {E A} (f : A -> result E unit) (l : list A) : result E unit :=
  match l with
  | [] => Ok tt
  | x :: l => match f x with Ok _ => result_all f l | Err e => Err e end
  end.

(** ** The iteration order of Go maps

    [for k, v := range m] visits the entries of [m] in an order the runtime
    chooses anew for every loop.  A loop of the model enumerates its map with
    [map_range site m], where [site] names the loop, and every theorem holds for
    every instance of the class, hence for every order at every loop. *)

Class MapRange := {
  map_range : string -> forall {V : Type}, gmap string V -> list (string * V);
  map_range_perm : forall site V (m : gmap string V),
    map_range site m ≡ₚ map_to_list m;
}.

(** The order of [map_to_list], for evaluation on concrete inputs. *)
#[global] Program Instance canonical_range : MapRange | 100 := {|
  map_range _ _ m := map_to_list m
|}.
Solve Obligations with done.

Section MapRangeFacts.
Context `{MapRange} {V : Type}.
Implicit Types m : gmap string V.

Lemma elem_of_map_range site m k v : (k, v) ∈ map_range site m <-> m !! k = Some v.
Proof. by rewrite map_range_perm, elem_of_map_to_list. Qed.

Lemma NoDup_map_range site m : NoDup (map_range site m).*1.
Proof. rewrite map_range_perm. apply NoDup_fst_map_to_list. Qed.

Lemma map_range_nil_inv site m : map_range site m = [] -> m = ∅.
Proof.
  intros Hnil. apply map_to_list_empty_iff, Permutation_nil_r.
  by rewrite <- (map_range_perm site), Hnil.
Qed.
End MapRangeFacts.

(** A [map[string]struct{}] is a set; a loop over it likewise has no fixed order. *)
Definition set_range `{MapRange} (site : string) (X : gset string) : list string :=
  (map_range site (gset_to_gmap tt X)).*1.

Lemma elem_of_set_range `{MapRange} site X x : x ∈ set_range site X <-> x ∈ X.
Proof.
  unfold set_range. rewrite list_elem_of_fmap. split.
  - intros ([k []] & -> & Hin). apply elem_of_map_range, lookup_gset_to_gmap_Some in Hin as [? _].
    done.
  - intros Hx. exists (x, tt). split; [done|]. by apply elem_of_map_range, lookup_gset_to_gmap_Some.
Qed.

Lemma NoDup_set_range `{MapRange} site X : NoDup (set_range site X).
Proof. apply NoDup_map_range. Qed.

(** ** Sorting strings, sorted keys *)

(** [sort.Strings]: bytewise lexicographic order. *)
Definition sort_strings : list string -> list string := merge_sort String.le.

(** The sorted keys of a map, as the [sortedKeys] helper and its inlined copies
    compute them. *)
Definition keys {V} (m : gmap string V) : list string := (map_to_list m).*1.
Definition sorted_keys {V} (m : gmap string V) : list string := sort_strings (keys m).

Lemma sort_strings_perm l : sort_strings l ≡ₚ l.
Proof. apply merge_sort_Permutation. Qed.

Lemma sort_strings_sorted l : StronglySorted String.le (sort_strings l).
Proof. apply StronglySorted_merge_sort; apply _. Qed.

Lemma elem_of_sort_strings x l : x ∈ sort_strings l <-> x ∈ l.
Proof. by rewrite sort_strings_perm. Qed.

(** Sorting forgets the order of its input: what makes Go's randomised map
    iteration invisible wherever the keys are sorted afterwards. *)
Lemma sort_strings_unique l1 l2 : l1 ≡ₚ l2 -> sort_strings l1 = sort_strings l2.
Proof.
  intros Hp. apply (StronglySorted_unique String.le).
  - apply sort_strings_sorted.
  - apply sort_strings_sorted.
  - by rewrite !sort_strings_perm.
Qed.

Lemma sort_strings_sorted_id l : StronglySorted String.le l -> sort_strings l = l.
Proof.
  intros Hs. apply (StronglySorted_unique String.le);
    [apply sort_strings_sorted | done | apply sort_strings_perm].
Qed.

Lemma elem_of_keys {V} (m : gmap string V) k : k ∈ keys m <-> is_Some (m !! k).
Proof.
  unfold keys. rewrite list_elem_of_fmap. split.
  - intros ([k' v] & -> & Hin). apply elem_of_map_to_list in Hin. by eexists.
  - intros [v Hv]. exists (k, v). by rewrite elem_of_map_to_list.
Qed.

Lemma NoDup_keys {V} (m : gmap string V) : NoDup (keys m).
Proof. apply NoDup_fst_map_to_list. Qed.

Lemma elem_of_sorted_keys {V} (m : gmap string V) k :
  k ∈ sorted_keys m <-> is_Some (m !! k).
Proof. unfold sorted_keys. by rewrite elem_of_sort_strings, elem_of_keys. Qed.

Lemma NoDup_sorted_keys {V} (m : gmap string V) : NoDup (sorted_keys m).
Proof. unfold sorted_keys. rewrite sort_strings_perm. apply NoDup_keys. Qed.

Lemma sorted_keys_range `{MapRange} {V} site (m : gmap string V) :
  sort_strings (map_range site m).*1 = sorted_keys m.
Proof. apply sort_strings_unique. unfold keys. by rewrite map_range_perm. Qed.

(** A sorted set of names, the model of [map[string]struct{}] once its keys are
    listed and sorted. *)
Definition sorted_elements (X : gset string) : list string :=
  sort_strings (elements X).

Lemma elem_of_sorted_elements X x : x ∈ sorted_elements X <-> x ∈ X.
Proof.
  unfold sorted_elements. by rewrite elem_of_sort_strings, elem_of_elements.
Qed.

(** ** Order-preserving removal of duplicates

    The [seen := map[string]struct{}{}] idiom: keep the first occurrence. *)

Fixpoint dedup_from (seen : gset string) (l : list string) : list string :=
  match l with
  | [] => []
  | x :: l =>
      if decide (x ∈ seen) then dedup_from seen l
      else x :: dedup_from ({[x]} ∪ seen) l
  end.

Definition dedup : list string -> list string := dedup_from ∅.

Lemma elem_of_dedup_from seen l x : x ∈ dedup_from seen l <-> x ∈ l /\ x ∉ seen.
Proof.
  revert seen. induction l as [|y l IH]; intros seen; simpl; [set_solver|].
  destruct (decide (y ∈ seen)) as [Hy|Hy]; set_unfold; rewrite IH; [naive_solver|].
  set_unfold. destruct (decide (x = y)); naive_solver.
Qed.

Lemma elem_of_dedup l x : x ∈ dedup l <-> x ∈ l.
Proof. unfold dedup. rewrite elem_of_dedup_from. set_solver. Qed.

Lemma NoDup_dedup_from seen l : NoDup (dedup_from seen l).
Proof.
  revert seen. induction l as [|y l IH]; intros seen; simpl; [constructor|].
  destruct (decide (y ∈ seen)); [done|]. constructor; [|done].
  rewrite elem_of_dedup_from. set_solver.
Qed.

Lemma NoDup_dedup l : NoDup (dedup l).
Proof. apply NoDup_dedup_from. Qed.

Lemma dedup_from_sublist seen l : dedup_from seen l `sublist_of` l.
Proof.
  revert seen. induction l as [|y l IH]; intros seen; simpl; [constructor|].
  destruct (decide (y ∈ seen)); constructor; done.
Qed.

Lemma dedup_from_id seen l :
  NoDup l -> (forall x, x ∈ l -> x ∉ seen) -> dedup_from seen l = l.
Proof.
  revert seen. induction l as [|y l IH]; intros seen Hnd Hs; simpl; [done|].
  apply NoDup_cons in Hnd as [Hy Hnd].
  rewrite decide_False by set_solver. f_equal. apply IH; set_solver.
Qed.

Lemma dedup_idemp l : dedup (dedup l) = dedup l.
Proof. apply dedup_from_id; [apply NoDup_dedup | set_solver]. Qed.

(** ** Hints and tactics *)

Create HintDb dockform.
#[export] Hint Resolve NoDup_keys NoDup_sorted_keys NoDup_dedup
  sort_strings_sorted : dockform.
#[export] Hint Rewrite @elem_of_map_range @elem_of_sorted_keys @elem_of_keys
  @elem_of_set_range elem_of_sort_strings elem_of_dedup elem_of_sorted_elements : dockform.

(** Decide every condition of the goal, or of the whole context, and clean up. *)
Ltac cases :=
  repeat (case_match || case_decide); simplify_eq/=; try done.

(** Booleans of the model to propositions. *)
Ltac boolify :=
  repeat match goal with
  | H : bool_decide _ = true |- _ => apply bool_decide_eq_true in H
  | H : bool_decide _ = false |- _ => apply bool_decide_eq_false in H
  | H : String.eqb _ _ = true |- _ => apply String.eqb_eq in H
  | H : String.eqb _ _ = false |- _ => apply String.eqb_neq in H
  | H : negb _ = true |- _ => apply negb_true_iff in H
  | H : negb _ = false |- _ => apply negb_false_iff in H
  | H : _ && _ = true |- _ => apply andb_true_iff in H as [? ?]
  | H : _ || _ = false |- _ => apply orb_false_iff in H as [? ?]
  end; simplify_eq.

(** ** Early-return loops *)

Section ResultLoops.
Context {E A S : Type}.

Lemma result_all_ok (f : A -> result E unit) l :
  result_all f l = Ok tt <-> Forall (fun x => f x = Ok tt) l.
Proof.
  induction l as [|x l IH]; simpl; [by split; constructor|].
  rewrite Forall_cons, <- IH. destruct (f x) as [[]|]; naive_solver.
Qed.

Lemma result_all_err (f : A -> result E unit) l e :
  result_all f l = Err e -> exists x, x ∈ l /\ f x = Err e.
Proof.
  induction l as [|x l IH]; simpl; [done|].
  destruct (f x) eqn:Hx; [|set_solver]. intros H%IH. set_solver.
Qed.

(** An invariant of the loop body is an invariant of the loop. *)
Lemma result_foldl_inv (P : S -> Prop) (f : S -> A -> result E S) l s s' :
  (forall s x s', x ∈ l -> P s -> f s x = Ok s' -> P s') ->
  P s -> result_foldl f s l = Ok s' -> P s'.
Proof.
  revert s. induction l as [|x l IH]; intros s Hf Hs; simpl; [by intros [= <-]|].
  destruct (f s x) as [s1|e] eqn:Hx; [|done].
  apply IH; [intros; eapply Hf; [by apply list_elem_of_further | done..]|].
  eapply Hf; [apply list_elem_of_here | done..].
Qed.

(** Every iteration of a loop that succeeds succeeded. *)
Lemma result_foldl_each (Q : A -> Prop) (f : S -> A -> result E S) l s s' :
  (forall s x s', f s x = Ok s' -> Q x) ->
  result_foldl f s l = Ok s' -> Forall Q l.
Proof.
  revert s. induction l as [|x l IH]; intros s Hf; simpl; [constructor|].
  destruct (f s x) as [s1|e] eqn:Hx; [|done]. intros. constructor; eauto.
Qed.
End ResultLoops.

(** A loop that rewrites the entries of a map one key at a time: once it has
    visited every key, every entry has the property its body establishes. *)
Lemma result_foldl_entries {E S V W} (m : S -> gmap string V) (P : string -> V -> Prop)
    (f : S -> string * W -> result E S) (l : list (string * W)) s s' :
  (forall s e s', e ∈ l -> f s e = Ok s' ->
     (exists v, m s' = <[e.1 := v]> (m s) /\ P e.1 v)
     \/ (m s' = m s /\ forall v, P e.1 v)) ->
  (forall k v, m s !! k = Some v -> k ∈ l.*1 \/ P k v) ->
  result_foldl f s l = Ok s' ->
  forall k v, m s' !! k = Some v -> P k v.
Proof.
  revert s. induction l as [|e l IH]; intros s Hf Hs; simpl.
  { intros [= <-] k v Hk. destruct (Hs k v Hk) as [?%not_elem_of_nil|?]; done. }
  destruct (f s e) as [s1|err] eqn:He; [|done].
  apply IH; [intros; eapply Hf; [by apply list_elem_of_further|done]|].
  intros k v Hk.
  assert (k = e.1 /\ P k v \/ k <> e.1 /\ m s !! k = Some v) as [[-> ?]|[Hne Hk']].
  { destruct (Hf s e s1 ltac:(apply list_elem_of_here) He) as [(v1 & Hm & HP)|[Hm HP]];
      rewrite Hm in Hk; destruct (decide (k = e.1)) as [->|Hne]; auto.
    - rewrite lookup_insert_eq in Hk. naive_solver.
    - rewrite lookup_insert_ne in Hk by done. auto. }
  - by right.
  - destruct (Hs k v Hk') as [Hin|?]; [|by right]. simpl in Hin. set_solver.
Qed.

Lemma sublist_reverse {A} (l k : list A) : l `sublist_of` k -> reverse l `sublist_of` reverse k.
Proof.
  induction 1; rewrite ?reverse_cons; [done|by apply sublist_app|by apply sublist_inserts_r].
Qed.

Lemma sublist_fmap {A B} (f : A -> B) (l k : list A) :
  l `sublist_of` k -> f <$> l `sublist_of` f <$> k.
Proof. induction 1; simpl; by constructor. Qed.

Lemma list_eq_nil_elem {A} (l : list A) : (forall x, x ∈ l -> False) -> l = [].
Proof. destruct l as [|x l]; [done|]. intros H. destruct (H x). left. Qed.

(** A left fold whose steps on distinct elements commute does not depend on the
    order of a duplicate-free list. *)
Lemma foldl_foldr_reverse {A S} (f : S -> A -> S) s l :
  foldl f s l = foldr (fun x s => f s x) s (reverse l).
Proof.
  induction l as [|x l IH] using rev_ind; [done|].
  rewrite foldl_app, reverse_snoc. simpl. by rewrite IH.
Qed.

Lemma foldl_perm {A S} (f : S -> A -> S) s l l' :
  (forall s x y, x ∈ l -> y ∈ l -> x <> y -> f (f s y) x = f (f s x) y) ->
  NoDup l -> l' ≡ₚ l -> foldl f s l' = foldl f s l.
Proof.
  intros Hf Hnd Hp. rewrite !foldl_foldr_reverse.
  apply (foldr_permutation (=) (fun x s => f s x) s).
  - intros i a j b x Hij Hi Hj. apply Hf.
    + rewrite <- Hp, <- reverse_Permutation. by eapply list_elem_of_lookup_2.
    + rewrite <- Hp, <- reverse_Permutation. by eapply list_elem_of_lookup_2.
    + intros ->. apply Hij. eapply NoDup_lookup; [|exact Hi|exact Hj].
      by rewrite reverse_Permutation, Hp.
  - by rewrite !reverse_Permutation.
Qed.

(** ** Filters *)

Lemma filter_all {A} (P : A -> Prop) `{!forall x, Decision (P x)} (l : list A) :
  (forall x, x ∈ l -> P x) -> filter P l = l.
Proof.
  induction l as [|x l IH]; intros Hl; [done|]. rewrite filter_cons_True by (apply Hl; left).
  f_equal. apply IH. intros. apply Hl. by right.
Qed.

Lemma filter_none {A} (P : A -> Prop) `{!forall x, Decision (P x)} (l : list A) :
  (forall x, x ∈ l -> ~ P x) -> filter P l = [].
Proof.
  induction l as [|x l IH]; intros Hl; [done|]. rewrite filter_cons_False by (apply Hl; left).
  apply IH. intros. apply Hl. by right.
Qed.

Lemma omap_filter_iff {A B} (f : A -> option B) (P : A -> Prop) (Q : B -> Prop)
    `{!forall x, Decision (P x)} `{!forall y, Decision (Q y)} (l : list A) :
  (forall x y, x ∈ l -> f x = Some y -> P x <-> Q y) ->
  omap f (filter P l) = filter Q (omap f l).
Proof.
  induction l as [|x l IH]; intros Hl; [done|].
  assert (omap f (filter P l) = filter Q (omap f l)) as IH'.
  { apply IH. intros. apply Hl; [by right|done]. }
  rewrite filter_cons. cbn [omap list_omap]. destruct (f x) as [y|] eqn:Hx.
  - specialize (Hl x y (list_elem_of_here _ _) Hx). rewrite filter_cons.
    destruct (decide (P x)), (decide (Q y)); try tauto.
    cbn [omap list_omap]. rewrite Hx. by f_equal.
  - destruct (decide (P x)); [|done]. cbn [omap list_omap]. by rewrite Hx.
Qed.

(** ** Maps built by insertion *)

(** A loop that inserts pairs with distinct keys: every pair is found. *)
Lemma insert_all_lookup {V} (l : list (string * V)) (m : gmap string V) k v :
  NoDup l.*1 -> (k, v) ∈ l -> foldl (fun m e => <[e.1 := e.2]> m) m l !! k = Some v.
Proof.
  revert m. induction l as [|[k' v'] l IH]; intros m Hnd Hin; [by apply elem_of_nil in Hin|].
  simpl in Hnd. apply NoDup_cons in Hnd as [Hk Hnd]. simpl.
  apply elem_of_cons in Hin as [[= -> ->]|Hin]; [|by apply IH].
  clear IH. assert (<[k' := v']> m !! k' = Some v') as Hm by apply lookup_insert_eq.
  revert Hm. generalize (<[k' := v']> m). clear m.
  induction l as [|[a b] l IH]; intros m Hm; [done|]. simpl in *.
  apply NoDup_cons in Hnd as [_ Hnd]. apply IH; [set_solver|done|].
  rewrite lookup_insert_ne; [done|]. intros ->. apply Hk. left.
Qed.
