(* ===== verification/GoStrings.v ===== *)
(** * The parts of Go's [strings], [strconv] and [fmt] the sources use

    A Go string is a sequence of bytes; so is a [string] here, one [ascii] per
    byte, and the order of [String.le] is Go's [<=].  Nothing of this file is
    dockform's own code: it is the standard library the other files call. *)

From S2P Require Import Prelude.
From Stdlib Require Import Ascii.
From Stdlib Require DecimalString DecimalNat.

#[global] Open Scope stdpp_scope.

(** ** Characters *)

Definition code (c : ascii) : nat := nat_of_ascii c.
Definition byte_in (lo hi : nat) (c : ascii) : bool := (lo <=? code c) && (code c <=? hi).

Definition is_lower_letter : ascii -> bool := byte_in 97 122.
Definition is_upper_letter : ascii -> bool := byte_in 65 90.
Definition is_digit : ascii -> bool := byte_in 48 57.
Definition is_octal_digit : ascii -> bool := byte_in 48 55.

(** The double quote, which cannot be written inside a string literal here. *)
Definition dq_char : ascii := "034"%char.
Definition dq : string := String dq_char "".

Fixpoint string_forallb (f : ascii -> bool) (s : string) : bool :=
  match s with "" => true | String c s => f c && string_forallb f s end.

Definition string_rev (s : string) : string :=
  String.string_of_list_ascii (reverse (String.list_ascii_of_string s)).

(** ** [strings.HasPrefix], [HasSuffix], [TrimPrefix], [TrimSuffix] *)

Fixpoint strip_prefix (p s : string) : option string :=
  match p, s with
  | "", _ => Some s
  | String a p, String b s => if Ascii.eqb a b then strip_prefix p s else None
  | String _ _, "" => None
  end.

Definition HasPrefix (s p : string) : bool := bool_decide (is_Some (strip_prefix p s)).
Definition TrimPrefix (s p : string) : string := default s (strip_prefix p s).
Definition HasSuffix (s p : string) : bool := HasPrefix (string_rev s) (string_rev p).
Definition TrimSuffix (s p : string) : string :=
  match strip_prefix (string_rev p) (string_rev s) with
  | Some r => string_rev r
  | None => s
  end.

(** ** [strings.Split], [SplitN], [Cut], [Join] with a one-byte separator *)

Fixpoint Split (s : string) (sep : ascii) : list string :=
  match s with
  | "" => [""]
  | String c s =>
      if Ascii.eqb c sep then "" :: Split s sep
      else match Split s sep with
           | h :: t => String c h :: t
           | [] => [String c ""]
           end
  end.

Fixpoint Cut (s : string) (sep : ascii) : option (string * string) :=
  match s with
  | "" => None
  | String c s =>
      if Ascii.eqb c sep then Some ("", s)
      else match Cut s sep with
           | Some (a, b) => Some (String c a, b)
           | None => None
           end
  end.

(** [SplitN s sep n] for [n > 0]: at most [n] parts, the last one unsplit. *)
Fixpoint SplitN (s : string) (sep : ascii) (n : nat) : list string :=
  match n with
  | 0 => []
  | 1 => [s]
  | S n => match Cut s sep with
           | Some (a, b) => a :: SplitN b sep n
           | None => [s]
           end
  end.

Fixpoint Join (l : list string) (sep : string) : string :=
  match l with
  | [] => ""
  | [x] => x
  | x :: l => x +:+ sep +:+ Join l sep
  end.

(** ** White space: [unicode.IsSpace] on UTF-8

    The white space runes are the ASCII ones (tab, LF, VT, FF, CR, space) and
    U+0085, U+00A0, U+1680, U+2000 to U+200A, U+2028, U+2029, U+202F, U+205F and
    U+3000, given by their two- and three-byte encodings.  UTF-8 being
    self-synchronising, a rune of the string is one of these exactly when its
    encoding occurs at that place. *)

Definition space1 (c : ascii) : bool := byte_in 9 13 c || (code c =? 32).
Definition space2 (a b : ascii) : bool :=
  (code a =? 0xC2) && ((code b =? 0x85) || (code b =? 0xA0)).
Definition space3 (a b c : ascii) : bool :=
  ((code a =? 0xE1) && (code b =? 0x9A) && (code c =? 0x80))
  || ((code a =? 0xE2) && (code b =? 0x80)
      && (byte_in 0x80 0x8A c || (code c =? 0xA8) || (code c =? 0xA9) || (code c =? 0xAF)))
  || ((code a =? 0xE2) && (code b =? 0x81) && (code c =? 0x9F))
  || ((code a =? 0xE3) && (code b =? 0x80) && (code c =? 0x80)).

Section Trim.
Variables (sp1 : ascii -> bool) (sp2 : ascii -> ascii -> bool)
  (sp3 : ascii -> ascii -> ascii -> bool).

Fixpoint trim_with (s : string) : string :=
  match s with
  | "" => ""
  | String a s1 =>
      if sp1 a then trim_with s1 else
      match s1 with
      | "" => s
      | String b s2 =>
          if sp2 a b then trim_with s2 else
          match s2 with
          | "" => s
          | String c s3 => if sp3 a b c then trim_with s3 else s
          end
      end
  end.

(** [s] begins with none of the recognised sequences. *)
Definition no_lead (s : string) : bool :=
  match s with
  | "" => true
  | String a s1 => negb (sp1 a) &&
      match s1 with
      | "" => true
      | String b s2 => negb (sp2 a b) &&
          match s2 with "" => true | String c _ => negb (sp3 a b c) end
      end
  end.
End Trim.

Definition trim_left : string -> string := trim_with space1 space2 space3.
Definition trim_right (s : string) : string :=
  string_rev (trim_with space1 (fun a b => space2 b a)
                (fun a b c => space3 c b a) (string_rev s)).

(** [strings.TrimSpace] *)
Definition TrimSpace (s : string) : string := trim_right (trim_left s).

(** [strings.Fields]: the maximal runs of non-space, through a scan that
    accumulates the current field in reverse. *)
Fixpoint fields_from (acc s : string) : list string :=
  let emit l := match acc with "" => l | _ => string_rev acc :: l end in
  match s with
  | "" => emit []
  | String a s1 =>
      if space1 a then emit (fields_from "" s1) else
      match s1 with
      | "" => fields_from (String a acc) s1
      | String b s2 =>
          if space2 a b then emit (fields_from "" s2) else
          match s2 with
          | "" => fields_from (String a acc) s1
          | String c s3 =>
              if space3 a b c then emit (fields_from "" s3)
              else fields_from (String a acc) s1
          end
      end
  end.
Definition Fields (s : string) : list string := fields_from "" s.

(** ** [strings.ToLower]

    Observed by the sources only through comparisons with ASCII text, so runes
    whose lower case is not ASCII are left as they are; the two that are
    (U+212A, the Kelvin sign, and U+0130) are mapped. *)
Definition lower_byte (c : ascii) : ascii :=
  if is_upper_letter c then ascii_of_nat (code c + 32) else c.

Fixpoint ToLower (s : string) : string :=
  match s with
  | "" => ""
  | String a s1 =>
      match s1 with
      | String b s2 =>
          if (code a =? 0xC4) && (code b =? 0xB0) then String "i"%char (ToLower s2)
          else match s2 with
               | String c s3 =>
                   if (code a =? 0xE2) && (code b =? 0x84) && (code c =? 0xAA)
                   then String "k"%char (ToLower s3)
                   else String (lower_byte a) (ToLower s1)
               | "" => String (lower_byte a) (ToLower s1)
               end
      | "" => String (lower_byte a) ""
      end
  end.

(** ** Searching and replacing *)

(** [strings.Contains] *)
Fixpoint Contains (s sub : string) : bool :=
  HasPrefix s sub || match s with "" => false | String _ s => Contains s sub end.

(** [strings.ReplaceAll] for a non-empty [old]: leftmost, non-overlapping. *)
Fixpoint replace_fuel (n : nat) (s old new : string) : string :=
  match n with
  | 0 => s
  | S n =>
      match s with
      | "" => ""
      | String c s' =>
          match strip_prefix old s with
          | Some rest => new +:+ replace_fuel n rest old new
          | None => String c (replace_fuel n s' old new)
          end
      end
  end.
Definition ReplaceAll (s old new : string) : string :=
  replace_fuel (String.length s) s old new.

(** The prefix of [s] before, and the suffix of [s] after, the last [c]. *)
Definition CutLast (s : string) (c : ascii) : option (string * string) :=
  match Cut (string_rev s) c with
  | Some (a, b) => Some (string_rev b, string_rev a)
  | None => None
  end.

(** Drop from the end every byte of a set ([strings.TrimRight]). *)
Fixpoint drop_while (f : ascii -> bool) (s : string) : string :=
  match s with
  | "" => ""
  | String c s' => if f c then drop_while f s' else s
  end.
Definition TrimRightBytes (s : string) (f : ascii -> bool) : string :=
  string_rev (drop_while f (string_rev s)).

(** ** Numbers *)

(** [strconv.Itoa], [strconv.FormatInt(_, 10)] and the verb [%d]. *)
Definition Itoa_nat (n : nat) : string :=
  DecimalString.NilZero.string_of_uint (Nat.to_uint n).
Definition FormatInt (z : Z) : string :=
  DecimalString.NilZero.string_of_int (Z.to_int z).

(** ** [fmt.Sprintf] with the verbs [%s], [%v], [%d] (arguments already printed)
    and [%q]. *)

Definition hex_digit (n : nat) : ascii :=
  ascii_of_nat (if n <? 10 then 48 + n else 87 + n).

(** [strconv.Quote], bytes of non-ASCII runes kept as they are. *)
Fixpoint quote_body (s : string) : string :=
  match s with
  | "" => ""
  | String c s =>
      let n := code c in
      (if n =? 34 then String "\" dq
       else if n =? 92 then "\\"
       else if n =? 7 then "\a"
       else if n =? 8 then "\b"
       else if n =? 12 then "\f"
       else if n =? 10 then "\n"
       else if n =? 13 then "\r"
       else if n =? 9 then "\t"
       else if n =? 11 then "\v"
       else if (n <? 32) || (n =? 127) then
         "\x" +:+ String (hex_digit (n / 16)) (String (hex_digit (n mod 16)) "")
       else String c "") +:+ quote_body s
  end.
Definition Quote (s : string) : string := dq +:+ quote_body s +:+ dq.

Fixpoint Sprintf (fmt : string) (args : list string) : string :=
  match fmt with
  | "" => ""
  | String c rest =>
      if Ascii.eqb c "%" then
        match rest, args with
        | String v rest', a :: args' =>
            (if Ascii.eqb v "q" then Quote a else a) +:+ Sprintf rest' args'
        | _, _ => String c (Sprintf rest args)
        end
      else String c (Sprintf rest args)
  end.

(** ** Facts *)

Lemma string_app_cons c s t : String c s +:+ t = String c (s +:+ t).
Proof. done. Qed.

Lemma string_app_nil_l (s : string) : "" +:+ s = s.
Proof. done. Qed.

Lemma string_app_nil_r s : s +:+ "" = s.
Proof. induction s as [|c s IH]; [done|]. by rewrite string_app_cons, IH. Qed.

Lemma string_app_assoc s t u : (s +:+ t) +:+ u = s +:+ (t +:+ u).
Proof. induction s as [|c s IH]; [done|]. by rewrite !string_app_cons, IH. Qed.

Lemma string_length_app s t :
  String.length (s +:+ t) = String.length s + String.length t.
Proof. induction s as [|c s IH]; [done|]. rewrite string_app_cons; simpl; by rewrite IH. Qed.

#[export] Hint Rewrite string_app_nil_l string_app_nil_r string_app_assoc : dockform.

(** The characters of a string. *)
Definition chars : string -> list ascii := String.list_ascii_of_string.

Lemma chars_app s t : chars (s +:+ t) = chars s ++ chars t.
Proof.
  induction s as [|c s IH]; [done|]. rewrite string_app_cons. unfold chars in *; simpl.
  by rewrite IH.
Qed.

Lemma chars_rev s : chars (string_rev s) = reverse (chars s).
Proof. apply String.list_ascii_of_string_of_list_ascii. Qed.

#[global] Instance chars_inj : Inj (=) (=) chars.
Proof.
  intros s t H. rewrite <- (String.string_of_list_ascii_of_string s).
  rewrite <- (String.string_of_list_ascii_of_string t). by f_equal.
Qed.

Lemma string_rev_involutive s : string_rev (string_rev s) = s.
Proof. apply (inj chars). by rewrite !chars_rev, reverse_involutive. Qed.

Lemma string_rev_app s t : string_rev (s +:+ t) = string_rev t +:+ string_rev s.
Proof. apply (inj chars). by rewrite chars_app, !chars_rev, chars_app, reverse_app. Qed.

Lemma string_rev_nil_inv s : string_rev s = "" -> s = "".
Proof. intros H. by rewrite <- (string_rev_involutive s), H. Qed.

Lemma string_forallb_forall f s :
  string_forallb f s = true <-> forall c, c ∈ chars s -> f c = true.
Proof.
  induction s as [|c s IH]; simpl; [split; [set_solver|done]|].
  rewrite andb_true_iff, IH. unfold chars; simpl. set_solver.
Qed.

(** *** Prefixes and suffixes *)

Lemma strip_prefix_app p s : strip_prefix p (p +:+ s) = Some s.
Proof.
  induction p as [|c p IH]; [done|]. rewrite string_app_cons; simpl.
  by rewrite Ascii.eqb_refl.
Qed.

Lemma strip_prefix_Some p s r : strip_prefix p s = Some r <-> s = p +:+ r.
Proof.
  split; [|intros ->; apply strip_prefix_app].
  revert s. induction p as [|c p IH]; intros [|d s]; simpl; try naive_solver.
  destruct (Ascii.eqb c d) eqn:Hcd; [|done].
  apply Ascii.eqb_eq in Hcd as ->. intros ->%IH. done.
Qed.

Lemma HasPrefix_true s p : HasPrefix s p = true <-> exists r, s = p +:+ r.
Proof.
  unfold HasPrefix. rewrite bool_decide_eq_true. split.
  - intros [r Hr]. exists r. by apply strip_prefix_Some.
  - intros [r ->]. exists r. apply strip_prefix_app.
Qed.

Lemma HasPrefix_app p s : HasPrefix (p +:+ s) p = true.
Proof. apply HasPrefix_true. by eexists. Qed.

Lemma HasSuffix_true s p : HasSuffix s p = true <-> exists r, s = r +:+ p.
Proof.
  unfold HasSuffix. rewrite HasPrefix_true. split.
  - intros [r Hr]. exists (string_rev r).
    rewrite <- (string_rev_involutive s), Hr, string_rev_app.
    by rewrite string_rev_involutive.
  - intros [r ->]. exists (string_rev r). by rewrite string_rev_app.
Qed.

Lemma TrimPrefix_app p s : TrimPrefix (p +:+ s) p = s.
Proof. unfold TrimPrefix. by rewrite strip_prefix_app. Qed.

Lemma TrimPrefix_no s p : HasPrefix s p = false -> TrimPrefix s p = s.
Proof.
  unfold HasPrefix, TrimPrefix. rewrite bool_decide_eq_false.
  destruct (strip_prefix p s); [|done]. intros []. by eexists.
Qed.

(** *** Splitting and joining *)

(** [c] does not occur in [s]. *)
Definition free (c : ascii) (s : string) : Prop := c ∉ chars s.

Lemma free_nil c : free c "".
Proof. unfold free, chars; simpl. set_solver. Qed.

Lemma free_cons c d s : free c (String d s) <-> c <> d /\ free c s.
Proof. unfold free, chars; simpl. set_solver. Qed.

Lemma free_app c s t : free c (s +:+ t) <-> free c s /\ free c t.
Proof. unfold free. rewrite chars_app. set_solver. Qed.

#[export] Hint Resolve free_nil : dockform.

#[global] Instance free_dec c s : Decision (free c s).
Proof. unfold free. apply _. Defined.

Lemma Cut_Some s c a b : Cut s c = Some (a, b) <-> free c a /\ s = a +:+ String c b.
Proof.
  split.
  - revert a. induction s as [|d s IH]; intros a; simpl; [done|].
    destruct (Ascii.eqb d c) eqn:Hd.
    + apply Ascii.eqb_eq in Hd as ->. intros [= <- ->]. auto with dockform.
    + apply Ascii.eqb_neq in Hd. destruct (Cut s c) as [[a' b']|] eqn:Hc; [|done].
      intros [= <- <-]. destruct (IH a' eq_refl) as [Hf ->].
      rewrite free_cons. split; [by split|done].
  - intros [Hf ->]. induction a as [|d a IH].
    + rewrite string_app_nil_l. simpl. by rewrite Ascii.eqb_refl.
    + apply free_cons in Hf as [Hd Hf]. rewrite string_app_cons; simpl.
      rewrite (proj2 (Ascii.eqb_neq d c)) by done. by rewrite IH.
Qed.

Lemma Cut_None s c : Cut s c = None <-> free c s.
Proof.
  induction s as [|d s IH]; simpl; [split; [auto with dockform|done]|].
  rewrite free_cons. destruct (Ascii.eqb d c) eqn:Hd.
  - apply Ascii.eqb_eq in Hd as ->. naive_solver.
  - apply Ascii.eqb_neq in Hd. destruct (Cut s c) as [[]|]; naive_solver.
Qed.

Lemma Split_not_nil s c : Split s c <> [].
Proof. destruct s; simpl; cases. Qed.

Lemma Split_free s c x : x ∈ Split s c -> free c x.
Proof.
  revert x. induction s as [|d s IH]; intros x; simpl.
  - rewrite list_elem_of_singleton. intros ->. auto with dockform.
  - destruct (Ascii.eqb d c) eqn:Hd; [|apply Ascii.eqb_neq in Hd].
    + rewrite elem_of_cons. intros [->|?]; auto with dockform.
    + destruct (Split s c) as [|h t] eqn:Hs; [by apply Split_not_nil in Hs|].
      rewrite elem_of_cons. intros [->|?]; [|apply IH; set_solver].
      apply free_cons. split; [done|]. apply IH. set_solver.
Qed.

Lemma Join_cons x l sep : l <> [] -> Join (x :: l) sep = x +:+ sep +:+ Join l sep.
Proof. by destruct l. Qed.

Lemma Join_Split s c : Join (Split s c) (String c "") = s.
Proof.
  induction s as [|d s IH]; [done|]. simpl.
  destruct (Ascii.eqb d c) eqn:Hd.
  - apply Ascii.eqb_eq in Hd as ->. rewrite Join_cons by apply Split_not_nil.
    by rewrite IH.
  - destruct (Split s c) as [|h [|h' t]] eqn:Hs; [by apply Split_not_nil in Hs|..].
    + simpl in IH |- *. by rewrite IH.
    + rewrite Join_cons in IH |- * by done. by rewrite string_app_cons, IH.
Qed.

Lemma Split_free_id s c : free c s -> Split s c = [s].
Proof.
  induction s as [|d s IH]; [done|]. intros [Hd Hf]%free_cons. simpl.
  rewrite (proj2 (Ascii.eqb_neq d c)) by done. by rewrite IH.
Qed.

Lemma Split_app s t c : free c s -> Split (s +:+ String c t) c = s :: Split t c.
Proof.
  induction s as [|d s IH]; intros Hf.
  - rewrite string_app_nil_l. simpl. by rewrite Ascii.eqb_refl.
  - apply free_cons in Hf as [Hd Hf]. rewrite string_app_cons; simpl.
    rewrite (proj2 (Ascii.eqb_neq d c)) by done. by rewrite IH.
Qed.

Lemma Split_Join l c : l <> [] -> Forall (free c) l -> Split (Join l (String c "")) c = l.
Proof.
  induction l as [|x l IH]; [done|]. intros _ [Hx Hl]%Forall_cons.
  destruct l as [|y l]; [by apply Split_free_id|].
  rewrite Join_cons by done. rewrite string_app_cons, string_app_nil_l, Split_app by done.
  by rewrite IH.
Qed.

(** *** Trimming *)

Section TrimFacts.
Context (sp1 : ascii -> bool) (sp2 : ascii -> ascii -> bool)
  (sp3 : ascii -> ascii -> ascii -> bool).
Notation trim := (trim_with sp1 sp2 sp3).
Notation clear := (no_lead sp1 sp2 sp3).

Lemma trim_with_id s : clear s = true -> trim s = s.
Proof.
  destruct s as [|a [|b [|c s]]]; simpl; try done; destruct (sp1 a); simpl; try done;
    destruct (sp2 a b); simpl; try done; by destruct (sp3 a b c).
Qed.

(** The trimmed string is clear, and it is a suffix of the input. *)
Lemma trim_with_spec s :
  clear (trim s) = true /\ exists p, s = p +:+ trim s.
Proof.
  induction s as [s IH] using (induction_ltof1 _ String.length); unfold ltof in IH.
  destruct s as [|a s1]; [by split; [|exists ""]|]; simpl.
  destruct (sp1 a) eqn:H1.
  { destruct (IH s1) as [? [p Hp]]; [simpl; lia|]. split; [done|].
    exists (String a p). rewrite string_app_cons. by f_equal. }
  destruct s1 as [|b s2]; [simpl; rewrite H1; split; [done|by exists ""]|].
  destruct (sp2 a b) eqn:H2.
  { destruct (IH s2) as [? [p Hp]]; [simpl; lia|]. split; [done|].
    exists (String a (String b p)). rewrite !string_app_cons. by repeat f_equal. }
  destruct s2 as [|c s3]; [simpl; rewrite H1, H2; split; [done|by exists ""]|].
  destruct (sp3 a b c) eqn:H3.
  { destruct (IH s3) as [? [p Hp]]; [simpl; lia|]. split; [done|].
    exists (String a (String b (String c p))). rewrite !string_app_cons. by repeat f_equal. }
  simpl. rewrite H1, H2, H3. split; [done|by exists ""].
Qed.

(** A prefix of a clear string is clear. *)
Lemma no_lead_prefix s t : clear (s +:+ t) = true -> clear s = true.
Proof.
  destruct s as [|a [|b [|c s]]]; try done; rewrite ?string_app_cons, ?string_app_nil_l; simpl;
    destruct (sp1 a); try done; simpl; destruct (sp2 a b); done.
Qed.
End TrimFacts.

Lemma trim_left_id s : no_lead space1 space2 space3 s = true -> trim_left s = s.
Proof. apply trim_with_id. Qed.

Lemma trim_right_prefix s : exists r, s = trim_right s +:+ r.
Proof.
  unfold trim_right.
  destruct (trim_with_spec space1 (fun a b => space2 b a)
              (fun a b c => space3 c b a) (string_rev s)) as [_ [p Hp]].
  exists (string_rev p). rewrite <- string_rev_app, <- Hp.
  by rewrite string_rev_involutive.
Qed.

Lemma trim_right_idemp s : trim_right (trim_right s) = trim_right s.
Proof.
  unfold trim_right. rewrite string_rev_involutive. f_equal.
  apply trim_with_id, trim_with_spec.
Qed.

(** [TrimSpace] is idempotent: trimming the right end uncovers no leading space. *)
Lemma TrimSpace_idemp s : TrimSpace (TrimSpace s) = TrimSpace s.
Proof.
  unfold TrimSpace. rewrite (trim_left_id (trim_right _)).
  - apply trim_right_idemp.
  - destruct (trim_right_prefix (trim_left s)) as [r Hr].
    apply (no_lead_prefix _ _ _ _ r). rewrite <- Hr.
    unfold trim_left. apply trim_with_spec.
Qed.

#[export] Hint Rewrite TrimSpace_idemp : dockform.
