(* ===== verification/GoPath.v ===== *)
(** * Go's [path] and [path/filepath] on Unix

    Lexical path processing, on [/]-separated paths.  Like [GoStrings], this is
    the standard library the sources call, with the facts the other files use. *)

From S2P Require Import Prelude GoStrings.
From Stdlib Require Import Ascii.

Definition slash : ascii := "/"%char.

Definition IsAbs (p : string) : bool := HasPrefix p "/".

(** ** [Clean] *)

(** One step of [Clean]: [acc] is the reversed output so far. *)
Definition clean_step (rooted : bool) (acc : list string) (c : string) : list string :=
  if bool_decide (c = "") || bool_decide (c = ".") then acc
  else if bool_decide (c = "..") then
    match acc with
    | [] => if rooted then [] else [".."]
    | top :: rest => if bool_decide (top = "..") then ".." :: acc else rest
    end
  else c :: acc.

Definition clean_comps (rooted : bool) (cs : list string) : list string :=
  reverse (foldl (clean_step rooted) [] cs).

Definition unsplit (rooted : bool) (cs : list string) : string :=
  if rooted then "/" +:+ Join cs "/"
  else match cs with [] => "." | _ => Join cs "/" end.

Definition Clean (p : string) : string :=
  let rooted := IsAbs p in
  unsplit rooted (clean_comps rooted (Split p slash)).

(** ** [Join], [Dir], [Base] *)

(** [filepath.Join]: leading empty elements are dropped, the rest is joined with
    [/] and cleaned; all empty gives the empty string. *)
Fixpoint PathJoin (elems : list string) : string :=
  match elems with
  | [] => ""
  | e :: rest => if bool_decide (e = "") then PathJoin rest
                 else Clean (Join elems "/")
  end.

Lemma clean_comps_ne rooted cs : Forall (fun c => c <> "") (clean_comps rooted cs).
Proof.
  unfold clean_comps. apply Forall_reverse.
  assert (forall acc, Forall (fun c => c <> "") acc -> Forall (fun c => c <> "") (foldl (clean_step rooted) acc cs)) as Hf; [|by apply Hf].
  induction cs as [|c cs IH]; intros acc Hacc; [done|]. apply IH. unfold clean_step.
  repeat case_bool_decide; try done; [|by constructor].
  destruct acc as [|top acc]; [destruct rooted; by repeat constructor|]. case_bool_decide; [by constructor|by apply Forall_cons in Hacc as [_ ?]].
Qed.
Lemma Clean_ne p : Clean p <> "".
Proof.
  unfold Clean, unsplit. destruct (IsAbs p); [done|]. pose proof (clean_comps_ne false (Split p slash)) as Hc.
  destruct (clean_comps _ _) as [|c [|c' cs]]; [done|by apply Forall_cons in Hc as [? _]|].
  apply Forall_cons in Hc as [Hc _]. rewrite Join_cons by done. by destruct c.
Qed.
Lemma PathJoin_ne a b : a <> "" \/ b <> "" -> PathJoin [a; b] <> "".
Proof. intros Hab. cbn [PathJoin]. repeat case_bool_decide; try apply Clean_ne. by destruct Hab. Qed.

(** Everything up to and including the last slash. *)
Definition dir_part (p : string) : string :=
  match CutLast p slash with Some (a, _) => a +:+ "/" | None => "" end.

Definition Dir (p : string) : string := Clean (dir_part p).

Definition Base (p : string) : string :=
  if bool_decide (p = "") then "." else
  let p := TrimRightBytes p (Ascii.eqb slash) in
  let b := match CutLast p slash with Some (_, b) => b | None => p end in
  if bool_decide (b = "") then "/" else b.

(** [filepath.Ext]: from the last dot of the last element on. *)
Definition Ext (p : string) : string :=
  let base := match CutLast p slash with Some (_, b) => b | None => p end in
  match CutLast base "."%char with Some (_, e) => String "." e | None => "" end.

(** ** [filepath.Rel] *)

(** The elements of a cleaned path. *)
Definition path_elems (p : string) : list string :=
  match strip_prefix "/" p with
  | Some r => if bool_decide (r = "") then [] else Split r slash
  | None => Split p slash
  end.

Fixpoint drop_common (b t : list string) : list string * list string :=
  match b, t with
  | x :: b', y :: t' => if bool_decide (x = y) then drop_common b' t' else (b, t)
  | _, _ => (b, t)
  end.

Definition Rel (basepath targpath : string) : option string :=
  let base := Clean basepath in
  let targ := Clean targpath in
  if bool_decide (targ = base) then Some "." else
  let belems := if bool_decide (base = ".") then [] else path_elems base in
  if negb (Bool.eqb (IsAbs base) (IsAbs targ)) then None else
  match drop_common belems (path_elems targ) with
  | (b :: _, _ :: _) as r =>
      if bool_decide (b = "..") then None
      else Some (Join ((fun _ => "..") <$> r.1 ++ []) "/" +:+ "/" +:+ Join r.2 "/")
  | ([], t) => Some (Join t "/")
  | (b, []) => Some (Join ((fun _ => "..") <$> b) "/")
  end.

(** ** Facts *)

(** A component that [Clean] keeps. *)
Definition normal_comp (c : string) : Prop := c <> "" /\ c <> "." /\ c <> "..".

Lemma clean_step_normal rooted acc c :
  normal_comp c -> clean_step rooted acc c = c :: acc.
Proof.
  intros (H1 & H2 & H3). unfold clean_step.
  by rewrite !bool_decide_false by done.
Qed.

Lemma clean_comps_normal_app rooted cs ds :
  Forall normal_comp cs ->
  foldl (clean_step rooted) ds cs = reverse cs ++ ds.
Proof.
  revert ds. induction cs as [|c cs IH]; intros ds; [done|].
  intros [Hc Hcs]%Forall_cons. simpl. rewrite clean_step_normal by done.
  rewrite IH by done. by rewrite reverse_cons, <- app_assoc.
Qed.

Lemma clean_comps_normal rooted cs :
  Forall normal_comp cs -> clean_comps rooted cs = cs.
Proof.
  intros H. unfold clean_comps. rewrite clean_comps_normal_app by done.
  by rewrite app_nil_r, reverse_involutive.
Qed.

(** A cleaned rooted path has only normal components: no climb remains. *)
Lemma clean_step_rooted_normal acc c :
  Forall normal_comp acc -> Forall normal_comp (clean_step true acc c).
Proof.
  intros Hacc. unfold clean_step.
  destruct (bool_decide (c = "")) eqn:?; simpl; [done|].
  destruct (bool_decide (c = ".")) eqn:?; simpl; [done|].
  destruct (bool_decide (c = "..")) eqn:?.
  - destruct acc as [|t acc]; [done|]. apply Forall_cons in Hacc as [[? [? ?]] ?].
    by rewrite bool_decide_false by done.
  - boolify. constructor; [by split_and!|done].
Qed.

Lemma clean_comps_rooted_normal cs : Forall normal_comp (clean_comps true cs).
Proof.
  unfold clean_comps. apply Forall_reverse.
  assert (forall acc, Forall normal_comp acc ->
    Forall normal_comp (foldl (clean_step true) acc cs)) as H; [|by apply H].
  induction cs as [|c cs IH]; intros acc Hacc; [done|]. simpl.
  apply IH, clean_step_rooted_normal, Hacc.
Qed.

(** Relative paths: the cleaned components are climbs followed by normal ones. *)
Definition climb_form (acc : list string) : Prop :=
  exists ns k, acc = ns ++ replicate k ".." /\ Forall normal_comp ns.

Lemma clean_step_climb acc c : climb_form acc -> climb_form (clean_step false acc c).
Proof.
  intros (ns & k & -> & Hns). unfold clean_step.
  destruct (bool_decide (c = "")) eqn:?; simpl; [by exists ns, k|].
  destruct (bool_decide (c = ".")) eqn:?; simpl; [by exists ns, k|].
  destruct (bool_decide (c = "..")) eqn:?; boolify.
  - destruct ns as [|n ns].
    + exists [], (S k). destruct k; simpl; done.
    + apply Forall_cons in Hns as [(? & ? & ?) Hns]. simpl.
      rewrite bool_decide_false by done. by exists ns, k.
  - exists (c :: ns), k. split; [done|]. constructor; [by split_and!|done].
Qed.

Lemma clean_comps_climb cs : climb_form (foldl (clean_step false) [] cs).
Proof.
  assert (forall acc, climb_form acc -> climb_form (foldl (clean_step false) acc cs))
    as H; [|by apply H; exists [], 0].
  induction cs as [|c cs IH]; intros acc Hacc; [done|]. simpl.
  apply IH, clean_step_climb, Hacc.
Qed.

Lemma clean_climbs k acc :
  Forall (.= "..") acc ->
  foldl (clean_step false) acc (replicate k "..") = replicate k ".." ++ acc.
Proof.
  revert acc. induction k as [|k IH]; intros acc Hacc; [done|]. simpl.
  assert (clean_step false acc ".." = ".." :: acc) as ->.
  { destruct acc as [|t acc]; [done|]. apply Forall_cons in Hacc as [-> _]. done. }
  rewrite IH by (by constructor).
  change (".." :: acc) with ([".."] ++ acc). rewrite app_assoc.
  by rewrite <- replicate_S_end.
Qed.

Lemma clean_comps_idemp rooted cs :
  clean_comps rooted (clean_comps rooted cs) = clean_comps rooted cs.
Proof.
  destruct rooted.
  { apply clean_comps_normal, clean_comps_rooted_normal. }
  unfold clean_comps at 2 3. destruct (clean_comps_climb cs) as (ns & k & -> & Hns).
  unfold clean_comps. rewrite reverse_app, reverse_replicate, foldl_app.
  rewrite clean_climbs by constructor. rewrite app_nil_r.
  rewrite clean_comps_normal_app by (by apply Forall_reverse).
  by rewrite reverse_involutive, reverse_app, reverse_replicate.
Qed.

(** *** Paths and their components *)

Lemma Split_app_sep s t c : Split (s +:+ String c t) c = Split s c ++ Split t c.
Proof.
  induction s as [|d s IH].
  - rewrite string_app_nil_l. simpl. by rewrite Ascii.eqb_refl.
  - rewrite string_app_cons. simpl. destruct (Ascii.eqb d c); [by rewrite IH|].
    rewrite IH. destruct (Split s c) eqn:Hs; [by apply Split_not_nil in Hs|done].
Qed.

(** The components of a file name or of a relative path without climbs. *)
Definition path_comps (cs : list string) : Prop :=
  Forall (fun c => normal_comp c /\ free slash c) cs.

(** The absolute path with the given components. *)
Definition abs_path (cs : list string) : string := "/" +:+ Join cs "/".

#[global] Instance normal_comp_dec c : Decision (normal_comp c).
Proof. unfold normal_comp. apply _. Defined.

#[global] Instance path_comps_dec cs : Decision (path_comps cs).
Proof. unfold path_comps. apply _. Defined.

Lemma path_comps_normal cs : path_comps cs -> Forall normal_comp cs.
Proof. intros H. eapply Forall_impl; [exact H|]. by intros ? []. Qed.

Lemma path_comps_free cs : path_comps cs -> Forall (free slash) cs.
Proof. intros H. eapply Forall_impl; [exact H|]. by intros ? []. Qed.

Lemma path_comps_app cs ds : path_comps (cs ++ ds) <-> path_comps cs /\ path_comps ds.
Proof. apply Forall_app. Qed.

#[export] Hint Resolve path_comps_normal path_comps_free : dockform.

Lemma Split_join_path cs :
  path_comps cs -> Split (Join cs "/") slash = match cs with [] => [""] | _ => cs end.
Proof.
  intros H. destruct cs as [|c cs]; [done|].
  apply (Split_Join _ slash); [done|]. by apply path_comps_free.
Qed.

Lemma foldl_clean_join rooted acc cs :
  path_comps cs ->
  foldl (clean_step rooted) acc (Split (Join cs "/") slash) = reverse cs ++ acc.
Proof.
  intros H. rewrite Split_join_path by done.
  destruct cs as [|c cs]; [done|].
  apply clean_comps_normal_app. by apply path_comps_normal.
Qed.

Lemma foldl_clean_abs acc cs :
  path_comps cs ->
  foldl (clean_step true) acc (Split (abs_path cs) slash) = reverse cs ++ acc.
Proof.
  intros H. change (abs_path cs) with ("" +:+ String slash (Join cs "/")).
  rewrite Split_app_sep, foldl_app. simpl. by apply foldl_clean_join.
Qed.

Lemma IsAbs_abs_path cs : IsAbs (abs_path cs) = true.
Proof. apply (HasPrefix_app "/"). Qed.

Lemma IsAbs_app s t : s <> "" -> IsAbs (s +:+ t) = IsAbs s.
Proof.
  destruct s as [|c s]; [done|]. intros _. unfold IsAbs, HasPrefix.
  rewrite string_app_cons. cbn [strip_prefix]. by destruct (Ascii.eqb "/" c).
Qed.

Lemma Clean_abs_path cs : path_comps cs -> Clean (abs_path cs) = abs_path cs.
Proof.
  intros H. unfold Clean. rewrite IsAbs_abs_path. unfold clean_comps.
  rewrite foldl_clean_abs by done. by rewrite app_nil_r, reverse_involutive.
Qed.

(** Joining below an absolute directory appends components. *)
Lemma PathJoin_abs cs ds :
  path_comps cs -> path_comps ds ->
  PathJoin [abs_path cs; Join ds "/"] = abs_path (cs ++ ds).
Proof.
  intros Hc Hd. cbn [PathJoin Join]. rewrite bool_decide_false by done.
  unfold Clean. rewrite IsAbs_app by done. rewrite IsAbs_abs_path. unfold clean_comps.
  change ("/" +:+ Join ds "/") with (String slash (Join ds "/")).
  rewrite Split_app_sep, foldl_app, foldl_clean_abs by done.
  rewrite foldl_clean_join by done.
  by rewrite app_nil_r, <- reverse_app, reverse_involutive.
Qed.

Lemma PathJoin_abs1 cs d :
  path_comps cs -> path_comps [d] -> PathJoin [abs_path cs; d] = abs_path (cs ++ [d]).
Proof. intros. by apply (PathJoin_abs cs [d]). Qed.

(** [..] cancels the last component. *)
Lemma PathJoin_up cs s f :
  path_comps (cs ++ [s]) -> path_comps [f] ->
  PathJoin [abs_path (cs ++ [s]); "../" +:+ f] = abs_path (cs ++ [f]).
Proof.
  intros Hcs Hf. cbn [PathJoin Join]. rewrite bool_decide_false by done.
  unfold Clean. rewrite IsAbs_app by done. rewrite IsAbs_abs_path. unfold clean_comps.
  change ("/" +:+ "../" +:+ f) with (String slash (".." +:+ String slash f)).
  rewrite Split_app_sep, foldl_app, foldl_clean_abs by done.
  rewrite Split_app_sep, foldl_app, app_nil_r, reverse_app. simpl.
  apply path_comps_app in Hcs as [_ Hs]. apply Forall_cons in Hs as [[(? & ? & ?) _] _].
  unfold clean_step at 2. simpl.
  rewrite bool_decide_false by done.
  apply Forall_cons in Hf as [[Hn Hfr] _].
  rewrite (Split_free_id f) by done. simpl.
  rewrite clean_step_normal by done.
  by rewrite reverse_cons, reverse_involutive.
Qed.

Lemma path_elems_abs cs : path_comps cs -> path_elems (abs_path cs) = cs.
Proof.
  intros H. unfold path_elems, abs_path. rewrite (strip_prefix_app "/").
  destruct cs as [|c cs]; [done|].
  assert (c <> "") by (by apply Forall_cons in H as [[[? _] _] _]).
  rewrite bool_decide_false.
  - by rewrite Split_join_path.
  - destruct c; [done|]. by destruct cs.
Qed.

Lemma abs_path_inj cs ds :
  path_comps cs -> path_comps ds -> abs_path cs = abs_path ds -> cs = ds.
Proof. intros Hc Hd H. by rewrite <- (path_elems_abs cs), H, path_elems_abs. Qed.

Lemma drop_common_app cs b t :
  drop_common (cs ++ b) (cs ++ t) = drop_common b t.
Proof. induction cs as [|c cs IH]; [done|]. simpl. by rewrite bool_decide_true. Qed.

(** The relative path between two entries of the same directory. *)
Lemma Rel_sibling cs s f :
  path_comps (cs ++ [s]) -> path_comps (cs ++ [f]) -> s <> f ->
  Rel (abs_path (cs ++ [s])) (abs_path (cs ++ [f])) = Some ("../" +:+ f).
Proof.
  intros Hs Hf Hne. unfold Rel. rewrite !Clean_abs_path by done.
  rewrite bool_decide_false.
  2:{ intros H%abs_path_inj; [|done..]. by apply app_inj_2 in H as [_ [= ->]]. }
  rewrite (bool_decide_false (_ = ".")) by done.
  rewrite !IsAbs_abs_path, !path_elems_abs by done. simpl.
  rewrite drop_common_app. simpl. rewrite bool_decide_false by done.
  apply path_comps_app in Hs as [_ [[(? & ? & ?) _] _]%Forall_cons].
  by rewrite bool_decide_false.
Qed.

(** *** [Clean] is idempotent *)

Lemma clean_comps_free rooted s c :
  c ∈ clean_comps rooted (Split s slash) -> free slash c.
Proof.
  assert (Hinv : forall l acc, Forall (free slash) l -> Forall (free slash) acc ->
    Forall (free slash) (foldl (clean_step rooted) acc l)).
  { induction l as [|x l IH]; intros acc Hl Hacc; [done|].
    apply Forall_cons in Hl as [Hx Hl]. simpl. apply IH; [done|].
    assert (free slash "..") by (by apply (bool_decide_unpack _)).
    unfold clean_step. repeat case_match; try done; boolify;
      rewrite ?Forall_cons in *; naive_solver. }
  unfold clean_comps. rewrite elem_of_reverse. revert c.
  apply Forall_forall, Hinv; [|constructor].
  apply Forall_forall. intros x. apply Split_free.
Qed.

Lemma clean_comps_nonempty rooted cs c : c ∈ clean_comps rooted cs -> c <> "".
Proof.
  unfold clean_comps. rewrite elem_of_reverse. destruct rooted.
  - pose proof (clean_comps_rooted_normal cs) as H. unfold clean_comps in H.
    rewrite Forall_reverse, Forall_forall in H. intros Hc. by apply (H c).
  - destruct (clean_comps_climb cs) as (ns & k & -> & Hns).
    rewrite elem_of_app, elem_of_replicate.
    intros [Hc|[-> _]]; [|done]. by rewrite Forall_forall in Hns; apply Hns in Hc as [].
Qed.

Lemma foldl_clean_nil rooted acc cs :
  foldl (clean_step rooted) acc ("" :: cs) = foldl (clean_step rooted) acc cs.
Proof. done. Qed.

(** [Clean] is idempotent: a path handed on by one component is not changed by
    the next one that cleans it. *)
Lemma Clean_idemp p : Clean (Clean p) = Clean p.
Proof.
  set (rooted := IsAbs p). set (cs := clean_comps rooted (Split p slash)).
  assert (Hcl : Clean p = unsplit rooted cs) by done.
  assert (Hfr : Forall (free slash) cs) by (apply Forall_forall, clean_comps_free).
  assert (Hne : forall c, c ∈ cs -> c <> "") by apply clean_comps_nonempty.
  assert (Hid : clean_comps rooted cs = cs) by apply clean_comps_idemp.
  rewrite Hcl. unfold Clean. cbv zeta. destruct rooted.
  - change (IsAbs (unsplit true cs)) with true.
    change (unsplit true cs) with ("" +:+ String slash (Join cs "/")) at 1.
    rewrite Split_app_sep. destruct (decide (cs = [])) as [->|Hcs]; [done|].
    rewrite (Split_Join _ slash) by done. f_equal. exact Hid.
  - assert (IsAbs (unsplit false cs) = false) as ->.
    { destruct cs as [|c cs']; [done|]. assert (c <> "") by (apply Hne; set_solver).
      apply Forall_cons in Hfr as [Hc _]. destruct c as [|a c]; [done|].
      apply free_cons in Hc as [Ha _].
      assert (exists t, unsplit false (String a c :: cs') = String a t) as [t ->].
      { destruct cs'; [by eexists|]. unfold unsplit. rewrite Join_cons by done.
        by eexists. }
      unfold IsAbs, HasPrefix. cbn [strip_prefix].
      by rewrite (proj2 (Ascii.eqb_neq _ _)) by done. }
    destruct (decide (cs = [])) as [->|Hcs]; [done|].
    assert (unsplit false cs = Join cs "/") as -> by (by destruct cs).
    rewrite (Split_Join _ slash) by done. rewrite Hid. by destruct cs.
Qed.

(** *** The last element of a path *)

Lemma string_free_rev c s : free c (string_rev s) <-> free c s.
Proof. unfold free. by rewrite chars_rev, elem_of_reverse. Qed.

Lemma CutLast_app a b c : free c b -> CutLast (a +:+ String c b) c = Some (a, b).
Proof.
  intros Hb. unfold CutLast. change (String c b) with (String c "" +:+ b).
  rewrite !string_rev_app, string_app_assoc.
  rewrite (proj2 (Cut_Some _ c (string_rev b) (string_rev a))).
  - by rewrite !string_rev_involutive.
  - split; [by apply string_free_rev|done].
Qed.

Lemma CutLast_free s c : free c s -> CutLast s c = None.
Proof.
  intros. unfold CutLast. by rewrite (proj2 (Cut_None _ _)) by (by apply string_free_rev).
Qed.

Lemma CutLast_Some s c a b : CutLast s c = Some (a, b) <-> free c b /\ s = a +:+ String c b.
Proof.
  split; [|intros [Hf ->]; by apply CutLast_app]. unfold CutLast.
  destruct (Cut (string_rev s) c) as [[x y]|] eqn:Hc; [|done]. intros [= <- <-].
  apply Cut_Some in Hc as [Hf Heq]. split; [by apply string_free_rev|].
  apply (f_equal string_rev) in Heq. rewrite string_rev_involutive, string_rev_app in Heq.
  rewrite Heq. change (String c y) with (String c "" +:+ y). by rewrite string_rev_app, string_app_assoc.
Qed.

Lemma CutLast_None s c : CutLast s c = None <-> free c s.
Proof.
  split; [|apply CutLast_free]. unfold CutLast. destruct (Cut (string_rev s) c) as [[x y]|] eqn:Hc; [done|].
  intros _. apply Cut_None in Hc. by apply string_free_rev.
Qed.

#[global] Instance free_dec c s : Decision (free c s).
Proof. unfold free. apply _. Defined.

(** The extension of a name that ends with one. *)
Lemma Ext_app x e : free slash e -> free "."%char e -> Ext (x +:+ String "." e) = String "." e.
Proof.
  intros Hs Hd. unfold Ext. destruct (CutLast x slash) as [[a b]|] eqn:Hx.
  - apply CutLast_Some in Hx as [Hb ->]. rewrite string_app_assoc, string_app_cons.
    rewrite CutLast_app; [cbv beta iota zeta; by rewrite CutLast_app|]. by rewrite free_app, free_cons.
  - apply CutLast_None in Hx. rewrite (CutLast_free _ slash) by (by rewrite free_app, free_cons).
    cbv beta iota zeta. by rewrite CutLast_app.
Qed.

Lemma TrimRightBytes_free c a b :
  b <> "" -> free c b -> TrimRightBytes (a +:+ b) (Ascii.eqb c) = a +:+ b.
Proof.
  intros Hne Hf. unfold TrimRightBytes. rewrite string_rev_app.
  apply string_free_rev in Hf. destruct (string_rev b) as [|x r] eqn:Hr.
  - by apply string_rev_nil_inv in Hr.
  - apply free_cons in Hf as [Hx _]. rewrite string_app_cons. cbn [drop_while].
    rewrite (proj2 (Ascii.eqb_neq _ _)) by done.
    by rewrite <- string_app_cons, <- Hr, <- string_rev_app, string_rev_involutive.
Qed.

Lemma abs_path_snoc cs f : exists a, abs_path (cs ++ [f]) = a +:+ String slash f.
Proof.
  unfold abs_path. induction cs as [|c cs [a Ha]]; [by exists ""|].
  exists ("/" +:+ c +:+ a). simpl app. rewrite Join_cons by (by destruct cs).
  by rewrite Ha, !string_app_assoc.
Qed.

Lemma Base_abs_path cs f : path_comps [f] -> Base (abs_path (cs ++ [f])) = f.
Proof.
  intros [[(Hne & _ & _) Hf] _]%Forall_cons. destruct (abs_path_snoc cs f) as [a Ha].
  unfold Base. rewrite bool_decide_false by done. cbv zeta. rewrite Ha.
  change (String slash f) with ("/" +:+ f). rewrite <- string_app_assoc.
  rewrite TrimRightBytes_free by done. rewrite string_app_assoc.
  change ("/" +:+ f) with (String slash f). rewrite CutLast_app by done.
  by rewrite bool_decide_false.
Qed.
