(* ===== verification/GoRegexp.v ===== *)
(** * Go's regular expressions

    The expressions the sources compile, as data, and the matcher of Go's [regexp]:
    leftmost, and first in the order of the alternatives, repetitions being greedy.
    It works on bytes: the classes that occur contain no part of a longer encoding,
    or all of them.  [lang] is the language of an expression, and the matcher finds a
    match exactly when the language has one. *)

From S2P Require Import Prelude GoStrings.
From Stdlib Require Import Ascii.

Inductive re :=
| Eps
| Chr (f : ascii -> bool)
| Cat (a b : re)
| Alt (a b : re)
| Star (a : re)
| Cap (n : nat) (a : re).

Definition Plus (a : re) : re := Cat a (Star a).

(** A literal. *)
Fixpoint lit (s : string) : re :=
  match s with "" => Eps | String c s => Cat (Chr (Ascii.eqb c)) (lit s) end.

(** Under [(?i)] a letter stands for both cases; [k] also folds to the Kelvin sign and
    [s] to the long s. *)
Definition kelvin : string := String "226" (String "132" (String "170" "")).
Definition long_s : string := String "197" (String "191" "").
Definition fold_letter (c : ascii) : re :=
  let both := Chr (fun d => Ascii.eqb (lower_byte d) c) in
  if Ascii.eqb c "k" then Alt both (lit kelvin)
  else if Ascii.eqb c "s" then Alt both (lit long_s) else both.
Fixpoint fold_lit (s : string) : re :=
  match s with "" => Eps | String c s => Cat (fold_letter c) (fold_lit s) end.

Fixpoint alts (a : re) (l : list re) : re :=
  match l with [] => a | b :: l => Alt a (alts b l) end.

(** The class [\s]. *)
Definition is_space (c : ascii) : bool :=
  (code c =? 9) || (code c =? 10) || (code c =? 12) || (code c =? 13) || (code c =? 32).

(** ** The matcher

    [rmatch r s cs k]: [r] at the start of [s] with the groups so far, and then [k] on
    the rest.  A repetition that consumes nothing is not repeated. *)

Abbreviation groups := (list (nat * string)).

(** What was read between a text and a rest of it. *)
Definition before (s rest : string) : string :=
  String.substring 0 (String.length s - String.length rest) s.

Fixpoint star_loop {B} (step : string -> groups -> (string -> groups -> option B) -> option B)
    (k : string -> groups -> option B) (n : nat) (s : string) (cs : groups) : option B :=
  match n with
  | 0 => k s cs
  | S n =>
      match step s cs (fun s' cs' =>
              if String.length s' <? String.length s then star_loop step k n s' cs' else None) with
      | Some x => Some x
      | None => k s cs
      end
  end.

Fixpoint rmatch {B} (r : re) (s : string) (cs : groups) (k : string -> groups -> option B) : option B :=
  match r with
  | Eps => k s cs
  | Chr f => match s with "" => None | String c s => if f c then k s cs else None end
  | Cat a b => rmatch a s cs (fun s cs => rmatch b s cs k)
  | Alt a b => match rmatch a s cs k with Some x => Some x | None => rmatch b s cs k end
  | Star a => star_loop (fun s cs k => rmatch a s cs k) k (String.length s) s cs
  | Cap n a => rmatch a s cs (fun s' cs' => k s' ((n, before s s') :: cs'))
  end.

Definition match_at (r : re) (s : string) : option (string * groups) :=
  rmatch r s [] (fun rest cs => Some (rest, cs)).

Definition group (cs : groups) (n : nat) : string :=
  default "" (snd <$> list_find (fun g => fst g = n) cs ≫= fun p => Some (snd p)).

(** [FindStringSubmatch]: the groups of the leftmost match. *)
Fixpoint FindStringSubmatch (r : re) (s : string) : option groups :=
  match match_at r s with
  | Some (_, cs) => Some cs
  | None => match s with "" => None | String _ s => FindStringSubmatch r s end
  end.

Definition MatchString (r : re) (s : string) : bool := bool_decide (is_Some (FindStringSubmatch r s)).

(** [ReplaceAllString] with a template given as a function of the groups, for an
    expression that does not match the empty text. *)
Fixpoint replace_all (fuel : nat) (r : re) (expand : groups -> string) (s : string) : string :=
  match fuel with
  | 0 => s
  | S fuel =>
      match match_at r s with
      | Some (rest, cs) => expand cs +:+ replace_all fuel r expand rest
      | None => match s with "" => "" | String c s => String c (replace_all fuel r expand s) end
      end
  end.
Definition ReplaceAllString (r : re) (expand : groups -> string) (s : string) : string :=
  replace_all (S (String.length s)) r expand s.

(** ** The language of an expression *)

Inductive lang : re -> string -> Prop :=
| lang_eps : lang Eps ""
| lang_chr f c : f c = true -> lang (Chr f) (String c "")
| lang_cat a b s t : lang a s -> lang b t -> lang (Cat a b) (s +:+ t)
| lang_left a b s : lang a s -> lang (Alt a b) s
| lang_right a b s : lang b s -> lang (Alt a b) s
| lang_stop a : lang (Star a) ""
| lang_more a s t : s <> "" -> lang a s -> lang (Star a) t -> lang (Star a) (s +:+ t)
| lang_cap n a s : lang a s -> lang (Cap n a) s.
#[export] Hint Constructors lang : dockform.

(** *** The matcher reads a text of the language *)

(** The groups of an expression. *)
Fixpoint caps (r : re) : list nat :=
  match r with
  | Eps | Chr _ => []
  | Cat a b | Alt a b => caps a ++ caps b
  | Star a => caps a
  | Cap n a => n :: caps a
  end.
Definition grown (l : list nat) (cs cs' : groups) : Prop :=
  exists more, cs' = more ++ cs /\ Forall (fun g => g.1 ∈ l) more.

Lemma grown_refl l cs : grown l cs cs.
Proof. by exists []. Qed.
Lemma grown_trans l l1 l2 cs cs1 cs2 : l1 ⊆ l -> l2 ⊆ l -> grown l1 cs cs1 -> grown l2 cs1 cs2 -> grown l cs cs2.
Proof.
  intros H1 H2 (m1 & -> & Hm1) (m2 & -> & Hm2). exists (m2 ++ m1). rewrite app_assoc. split; [done|].
  apply Forall_app. split; (eapply Forall_impl; [eassumption|]); naive_solver.
Qed.
Lemma grown_mono l l' cs cs' : l ⊆ l' -> grown l cs cs' -> grown l' cs cs'.
Proof. intros Hl Hg. eapply (grown_trans _ l l); eauto using grown_refl. Qed.
#[export] Hint Resolve grown_refl : dockform.

Lemma rmatch_sound {B} r s cs (k : string -> groups -> option B) x :
  rmatch r s cs k = Some x ->
  exists m rest cs', s = m +:+ rest /\ lang r m /\ grown (caps r) cs cs' /\ k rest cs' = Some x.
Proof.
  revert s cs k. induction r as [|f|a IHa b IHb|a IHa b IHb|a IHa|n a IHa]; intros s cs k; simpl.
  - intros Hk. exists "", s, cs. by split_and!; [|constructor|apply grown_refl|].
  - destruct s as [|c s]; [done|]. destruct (f c) eqn:Hf; [|done]. intros Hk.
    exists (String c ""), s, cs. by split_and!; [|constructor|apply grown_refl|].
  - intros (m & rest & cs' & -> & Hm & Hg & (m' & rest' & cs'' & -> & Hm' & Hg' & Hk)%IHb)%IHa.
    exists (m +:+ m'), rest', cs''. rewrite string_app_assoc. split_and!; [done|by constructor| |done].
    eapply (grown_trans _ (caps a) (caps b)); [set_solver..|done|done].
  - destruct (rmatch a s cs k) eqn:Hl; [intros [= ->]; apply IHa in Hl as Hm|intros Hm%IHb];
      destruct Hm as (m & rest & cs' & -> & Hm & Hg & Hk); exists m, rest, cs'; split_and!; eauto with dockform;
      (eapply grown_mono; [|exact Hg]; set_solver).
  - generalize (String.length s) as n. intros n. revert s cs.
    induction n as [|n IHn]; intros s cs; simpl.
    { intros Hk. exists "", s, cs. by split_and!; [|constructor|apply grown_refl|]. }
    destruct (rmatch a s cs _) as [y|] eqn:Ha.
    + intros [= ->]. apply IHa in Ha as (m & rest & cs' & -> & Hm & Hg & Hk).
      destruct (_ <? _) eqn:Hlt in Hk; [|done]. apply IHn in Hk as (m' & rest' & cs'' & -> & Hm' & Hg' & Hk).
      exists (m +:+ m'), rest', cs''. split_and!; [by rewrite string_app_assoc| |by eapply grown_trans|done].
      apply lang_more; [|done..]. intros ->. apply Nat.ltb_lt in Hlt. rewrite string_app_nil_l in Hlt. lia.
    + intros Hk. exists "", s, cs. by split_and!; [|constructor|apply grown_refl|].
  - intros (m & rest & cs' & -> & Hm & Hg & Hk)%IHa. eexists m, rest, _. split_and!; [done|by constructor| |exact Hk].
    eapply (grown_trans _ (caps a) [n]); [set_solver..|exact Hg|]. exists [(n, before (m +:+ rest) rest)].
    split; [done|]. apply Forall_singleton. set_solver.
Qed.

(** *** And finds one if there is one *)

Lemma star_complete {B} a m rest n cs (step : string -> groups -> (string -> groups -> option B) -> option B) k :
  (forall s rest cs k, lang a s -> (forall cs', is_Some (k rest cs')) -> is_Some (step (s +:+ rest) cs k)) ->
  lang (Star a) m -> (forall cs', is_Some (k rest cs')) -> String.length (m +:+ rest) <= n ->
  is_Some (star_loop step k n (m +:+ rest) cs).
Proof.
  intros Hstep Hm Hk. remember (Star a) as r eqn:Hr. revert n cs.
  induction Hm as [| | | | | a'|a' s t Hs Ha _ Hstar IH| ]; try discriminate Hr; injection Hr as ->; intros n cs Hn.
  - rewrite string_app_nil_l in *. destruct n; simpl; [apply Hk|]. destruct (step _ _ _); [by eexists|apply Hk].
  - rewrite string_app_assoc in *. assert (0 < String.length s) by (destruct s; [done|simpl; lia]).
    rewrite (string_length_app s) in Hn. destruct n as [|n]; [lia|]. simpl.
    assert (is_Some (step (s +:+ (t +:+ rest)) cs (fun s' cs' =>
      if String.length s' <? String.length (s +:+ (t +:+ rest)) then star_loop step k n s' cs' else None)))
      as [x ->]; [|by eexists].
    apply Hstep; [done|]. intros cs'. rewrite (proj2 (Nat.ltb_lt _ _)) by (rewrite (string_length_app s); lia).
    apply IH; [done|lia].
Qed.

Lemma rmatch_complete {B} r m rest cs (k : string -> groups -> option B) :
  lang r m -> (forall cs', is_Some (k rest cs')) -> is_Some (rmatch r (m +:+ rest) cs k).
Proof.
  revert m rest cs k. induction r as [|f|a IHa b IHb|a IHa b IHb|a IHa|n a IHa]; intros m rest cs k Hm Hk; simpl.
  - inversion Hm; subst. rewrite string_app_nil_l. apply Hk.
  - inversion Hm as [|? c Hf| | | | | |]; subst. simpl. by rewrite Hf.
  - inversion Hm as [| |? ? s t Hs Ht| | | | |]; subst. rewrite string_app_assoc. apply IHa; [done|].
    intros cs'. by apply IHb.
  - destruct (rmatch a (m +:+ rest) cs k) as [x|] eqn:Ha; [by eexists|].
    inversion Hm; subst; [|by apply IHb]. destruct (IHa m rest cs k) as [x Hx]; [done..|congruence].
  - by eapply star_complete.
  - inversion Hm; subst. apply IHa; [done|]. intros cs'. apply Hk.
Qed.

(** *** Searching and replacing *)

Lemma match_at_Some r s rest cs : match_at r s = Some (rest, cs) -> exists m, s = m +:+ rest /\ lang r m.
Proof. intros (m & rest' & cs' & -> & Hm & _ & [= -> ->])%rmatch_sound. eauto. Qed.

Lemma match_at_None r s : match_at r s = None <-> forall m rest, s = m +:+ rest -> ~ lang r m.
Proof.
  split.
  - intros Hn m rest -> Hm. destruct (rmatch_complete r m rest [] (fun rest cs => Some (rest, cs)) Hm) as [x Hx];
      [by eexists|]. unfold match_at in Hn. congruence.
  - intros Hno. destruct (match_at r s) as [[rest cs]|] eqn:Hm; [|done].
    apply match_at_Some in Hm as (m & Hs & Hl). by destruct (Hno m rest Hs).
Qed.

(** A text matches when a part of it is in the language. *)
Lemma MatchString_true r s : MatchString r s = true <-> exists p m q, s = p +:+ m +:+ q /\ lang r m.
Proof.
  unfold MatchString. rewrite bool_decide_eq_true. induction s as [|c s IH]; simpl;
    destruct (match_at r _) as [[rest cs]|] eqn:Hm.
  1,3: split; [intros _|by eexists]; apply match_at_Some in Hm as (m & Hs & Hl); by exists "", m, rest.
  - split; [by intros []|]. intros (p & m & q & Hs & Hl). destruct p; [|done].
    rewrite match_at_None in Hm; by destruct (Hm m q Hs).
  - rewrite IH. split; intros (p & m & q & Hs & Hl); [exists (String c p), m, q; split; [by rewrite Hs|done]|].
    destruct p as [|d p]; [rewrite match_at_None in Hm; by destruct (Hm m q Hs)|].
    rewrite string_app_cons in Hs. injection Hs as -> Hs. eauto.
Qed.

(** What replacing means: gaps where nothing starts, and matches. *)
Inductive replaced (r : re) (expand : groups -> string) : string -> string -> Prop :=
| replaced_end : replaced r expand "" ""
| replaced_gap c s t : match_at r (String c s) = None -> replaced r expand s t ->
    replaced r expand (String c s) (String c t)
| replaced_match s rest cs t : match_at r s = Some (rest, cs) -> replaced r expand rest t ->
    replaced r expand s (expand cs +:+ t).

Lemma ReplaceAllString_spec r expand s : ~ lang r "" -> replaced r expand s (ReplaceAllString r expand s).
Proof.
  intros He. unfold ReplaceAllString.
  assert (Hf : String.length s < S (String.length s)) by lia. revert Hf. generalize (S (String.length s)) as fuel.
  intros fuel. revert s. induction fuel as [|fuel IH]; intros s Hf; [lia|]. simpl.
  destruct (match_at r s) as [[rest cs]|] eqn:Hm.
  - eapply replaced_match; [exact Hm|]. apply IH. apply match_at_Some in Hm as (m & -> & Hl).
    destruct m as [|c m]; [done|]. rewrite string_app_cons in Hf. simpl in Hf. rewrite string_length_app in Hf. lia.
  - destruct s as [|c s]; [constructor|]. constructor; [done|]. apply IH. simpl in Hf. lia.
Qed.

(** *** Literals and classes *)

Lemma lang_lit l s : lang (lit l) s -> s = l.
Proof.
  revert s. induction l as [|c l IH]; intros s; simpl; intros Hl; inversion Hl as [| |? ? a b Ha Hb| | | | |]; subst; [done|].
  inversion Ha as [|? d Hd| | | | | |]; subst. apply Ascii.eqb_eq in Hd as <-. by rewrite (IH b Hb).
Qed.

(** The longest prefix of bytes of a class, and the rest. *)
Fixpoint span (f : ascii -> bool) (s : string) : string * string :=
  match s with
  | "" => ("", "")
  | String c s' => if f c then let '(a, b) := span f s' in (String c a, b) else ("", s)
  end.

Lemma span_all f s r : Forall (fun c => f c = true) (chars s) ->
  (match r with "" => True | String c _ => f c = false end) -> span f (s +:+ r) = (s, r).
Proof.
  intros Hs Hr. induction s as [|c s IH].
  - rewrite string_app_nil_l. destruct r as [|c r]; [done|]. simpl. by rewrite Hr.
  - simpl in Hs. apply Forall_cons in Hs as [Hc Hs]. rewrite string_app_cons. simpl. by rewrite Hc, IH.
Qed.

(** *** Groups *)

Lemma before_app m rest : before (m +:+ rest) rest = m.
Proof.
  unfold before. rewrite string_length_app.
  replace (String.length m + String.length rest - String.length rest) with (String.length m) by lia.
  induction m as [|c m IH]; [by destruct rest|]. rewrite string_app_cons. simpl. by rewrite IH.
Qed.

Lemma group_skip more cs n : Forall (fun g => g.1 <> n) more -> group (more ++ cs) n = group cs n.
Proof.
  intros Hm. induction Hm as [|g more Hg _ IH]; [done|]. unfold group in *. simpl.
  rewrite decide_False by done. rewrite <- IH. by destruct (list_find _ (more ++ cs)) as [[]|].
Qed.

(** The group before the rest of an expression. *)
Lemma match_at_first n a b s rest cs : n ∉ caps b -> match_at (Cat (Cap n a) b) s = Some (rest, cs) ->
  exists t m, s = group cs n +:+ t /\ lang a (group cs n) /\ t = m +:+ rest /\ lang b m.
Proof.
  intros Hn. unfold match_at. cbn [rmatch].
  intros (w & t & cs1 & -> & Hw & _ & (m & rest' & cs2 & -> & Hm & (more & -> & Hmore) & [= -> <-])%rmatch_sound)%rmatch_sound.
  exists (m +:+ rest), m. assert (group (more ++ (n, before (w +:+ m +:+ rest) (m +:+ rest)) :: cs1) n = w) as ->.
  { rewrite group_skip.
    - unfold group. simpl. rewrite decide_True by done. simpl. apply before_app.
    - eapply Forall_impl; [exact Hmore|]. intros g Hg <-. done. }
  done.
Qed.
