(* ===== verification/GoUtf8.v ===== *)
(** * Runes ([unicode/utf8], [fmt])

    The encodings of the runes of a text, as [for _, r := range] finds them, and
    padding, which counts runes. *)

From S2P Require Import Prelude GoStrings.
From Stdlib Require Import Ascii.

(** A byte that begins no encoding is U+FFFD. *)
Definition RuneError : string := "�".

(** The bounds of the second byte, and how many bytes follow it. *)
Definition utf8_lead (b : ascii) : option (nat * nat * nat) :=
  let c := code b in
  if (194 <=? c) && (c <=? 223) then Some (128, 191, 0)
  else if c =? 224 then Some (160, 191, 1)
  else if c =? 237 then Some (128, 159, 1)
  else if (225 <=? c) && (c <=? 239) then Some (128, 191, 1)
  else if c =? 240 then Some (144, 191, 2)
  else if c =? 244 then Some (128, 143, 2)
  else if (241 <=? c) && (c <=? 243) then Some (128, 191, 2)
  else None.

(** One rune and the rest of the text. *)
Definition DecodeRune (b : ascii) (s : string) : string * string :=
  if code b <? 128 then (String b "", s) else
  match utf8_lead b, s with
  | Some (lo, hi, n), String b1 s1 =>
      if byte_in lo hi b1 then
        match n, s1 with
        | 0, _ => (String b (String b1 ""), s1)
        | 1, String b2 s2 =>
            if byte_in 128 191 b2 then (String b (String b1 (String b2 "")), s2) else (RuneError, s)
        | 2, String b2 (String b3 s3) =>
            if byte_in 128 191 b2 && byte_in 128 191 b3
            then (String b (String b1 (String b2 (String b3 ""))), s3) else (RuneError, s)
        | _, _ => (RuneError, s)
        end
      else (RuneError, s)
  | _, _ => (RuneError, s)
  end.

Fixpoint runes_fuel (fuel : nat) (s : string) : list string :=
  match fuel, s with
  | S fuel, String b s => let '(r, rest) := DecodeRune b s in r :: runes_fuel fuel rest
  | _, _ => []
  end.
Definition runes (s : string) : list string := runes_fuel (String.length s) s.
Definition rune_text (l : list string) : string := foldr String.append "" l.

Lemma DecodeRune_shorter b s : String.length (DecodeRune b s).2 <= String.length s.
Proof.
  unfold DecodeRune. case_match; [done|]. destruct (utf8_lead b) as [[[lo hi] n]|]; [|done].
  destruct s as [|b1 s1]; [done|]. case_match; [|done].
  destruct n as [|[|[|n]]]; destruct s1 as [|b2 [|b3 s3]]; cbn; try lia; case_match; cbn; lia.
Qed.

(** The fuel is enough: every step takes a byte at least. *)
Lemma runes_fuel_enough n m s : String.length s <= n -> String.length s <= m -> runes_fuel n s = runes_fuel m s.
Proof.
  revert m s. induction n as [|n IH]; intros [|m] [|b s] Hn Hm; cbn in Hn, Hm; try lia; try done.
  cbn. pose proof (DecodeRune_shorter b s). destruct (DecodeRune b s) as [r rest]. cbn in *.
  f_equal. apply IH; lia.
Qed.

Lemma runes_cons b s : runes (String b s) = (DecodeRune b s).1 :: runes (DecodeRune b s).2.
Proof.
  unfold runes at 1. cbn. pose proof (DecodeRune_shorter b s). destruct (DecodeRune b s) as [r rest]. cbn in *.
  f_equal. by apply runes_fuel_enough.
Qed.

(** ** Padding ([%-*s], [%*d]) *)

Definition rune_count (s : string) : nat := length (runes s).
Definition spaces (n : nat) : string := String.string_of_list_ascii (replicate n " "%char).
Definition pad_right (width : nat) (s : string) : string := s +:+ spaces (width - rune_count s).
Definition pad_left (width : nat) (s : string) : string := spaces (width - rune_count s) +:+ s.

(** Text of one byte a rune ends whatever encoding comes before it. *)
Definition ascii_text (s : string) : Prop := string_forallb (fun b => code b <? 128) s = true.

Lemma ascii_head b t lo hi : 128 <= lo -> ascii_text (String b t) -> byte_in lo hi b = false.
Proof.
  unfold ascii_text, byte_in. cbn [string_forallb]. intros Hlo [Hb%Nat.ltb_lt _]%andb_true_iff.
  apply andb_false_iff. left. apply Nat.leb_gt. lia.
Qed.

Lemma utf8_lead_bounds b lo hi n : utf8_lead b = Some (lo, hi, n) -> 128 <= lo /\ n <= 2.
Proof.
  unfold utf8_lead.
  repeat match goal with |- context [if ?c then _ else _] => destruct c end; intros Hl; simplify_eq; lia.
Qed.

Lemma DecodeRune_app b s t : ascii_text t ->
  DecodeRune b (s +:+ t) = ((DecodeRune b s).1, (DecodeRune b s).2 +:+ t).
Proof.
  intros Ht. unfold DecodeRune. case_match; [done|]. destruct (utf8_lead b) as [[[lo hi] n]|] eqn:Hl; [|done].
  apply utf8_lead_bounds in Hl as [Hlo Hn].
  destruct s as [|b1 s1].
  { destruct t as [|bt t]; [done|]. change ("" +:+ String bt t) with (String bt t). cbv iota beta.
    by rewrite (ascii_head bt t). }
  rewrite string_app_cons. case_match; [|done].
  destruct n as [|[|[|n]]]; [done| | |lia].
  - destruct s1 as [|b2 s2].
    + destruct t as [|bt t]; [done|]. change ("" +:+ String bt t) with (String bt t). cbv iota beta.
      rewrite (ascii_head bt t); done || lia.
    + rewrite string_app_cons. by case_match.
  - destruct s1 as [|b2 [|b3 s3]].
    + destruct t as [|bt [|bt' t]]; [done..|]. change ("" +:+ String bt (String bt' t)) with (String bt (String bt' t)). cbv iota beta.
      rewrite (ascii_head bt (String bt' t)); done || lia.
    + destruct t as [|bt t]; [done|]. rewrite string_app_cons. change ("" +:+ String bt t) with (String bt t). cbv iota beta.
      rewrite (ascii_head bt t), andb_false_r; done || lia.
    + rewrite !string_app_cons. by case_match.
Qed.

Lemma runes_app s t : ascii_text t -> runes (s +:+ t) = runes s ++ runes t.
Proof.
  intros Ht. remember (String.length s) as n eqn:Hn. revert s Hn.
  induction n as [n IH] using lt_wf_ind. intros [|b s] ->; [done|].
  rewrite string_app_cons, !runes_cons, DecodeRune_app by done. cbn [fst snd app]. f_equal.
  eapply IH; [|reflexivity]. pose proof (DecodeRune_shorter b s). cbn. lia.
Qed.

Lemma spaces_ascii n : ascii_text (spaces n).
Proof. induction n; [done|]. exact IHn. Qed.

Lemma rune_count_spaces n : rune_count (spaces n) = n.
Proof.
  induction n as [|n IH]; [done|]. unfold rune_count in *. change (spaces (S n)) with (String " " (spaces n)).
  rewrite runes_cons. cbn. by f_equal.
Qed.

Lemma rune_count_le s : rune_count s <= String.length s.
Proof.
  unfold rune_count, runes. generalize (String.length s). intros fuel. revert s.
  induction fuel as [|fuel IH]; intros [|b s]; cbn; [lia..|].
  destruct (DecodeRune b s) as [r rest]. cbn. specialize (IH rest). lia.
Qed.

(** A padded text has the width it was padded to. *)
Lemma rune_count_pad width s : rune_count s <= width -> rune_count (pad_right width s) = width.
Proof.
  intros Hs. unfold pad_right. unfold rune_count at 1. rewrite runes_app by apply spaces_ascii.
  rewrite length_app. fold (rune_count s) (rune_count (spaces (width - rune_count s))). rewrite rune_count_spaces. lia.
Qed.
