(* ===== verification/Apperr.v ===== *)
(** * Application errors ([internal/apperr])

    The error values every component returns: [E] with its operation, kind,
    cause and message, the per-context and aborted wrappers of the
    orchestration, and groups of errors.  The operations are the constructors
    [New], [Wrap] and [Aggregate] and the observers callers branch on. *)

From S2P Require Import Prelude GoStrings.

(** ** Data *)

Inductive Kind :=
| InvalidInput | NotFound | Conflict | Unauthorized | Forbidden
| Precondition | Timeout | Unavailable | External | Internal.

#[global] Instance Kind_eq_dec : EqDecision Kind.
Proof. solve_decision. Defined.

(** An error value.  [Plain] stands for every error that does not come from this
    package (the operating system's, the docker CLI's, ...), [Wrapf] for one
    made with [fmt.Errorf] and [%w].  The entries of a [MultiError] are non-nil:
    its two construction sites, [Aggregate] and [executeParallel], store no nil. *)
Inductive error :=
| E (Op : string) (kind : Kind) (cause : option error) (Msg : string)
| ContextError (ContextName : string) (cause : option error)
| AbortedError (ContextName : string) (cause : option error)
| MultiError (Errors : list error)
| Plain (text : string)
| Wrapf (text : string) (cause : error).

Abbreviation res := (result error).

(** ** Constructors *)

Definition New (op : string) (k : Kind) (msg : string) (args : list string) : error :=
  E op k None (Sprintf msg args).

(** [Wrap] of a nil error is nil. *)
Definition Wrap (op : string) (k : Kind) (err : option error) (msg : string)
    (args : list string) : option error :=
  match err with
  | None => None
  | Some e => Some (E op k (Some e) (Sprintf msg args))
  end.

(** [Wrap] where the code has already tested that the error is not nil. *)
Definition wrap (op : string) (k : Kind) (err : error) (msg : string)
    (args : list string) : error :=
  E op k (Some err) (Sprintf msg args).

Definition Aggregate (op : string) (k : Kind) (msg : string)
    (errs : list (option error)) : option error :=
  match omap id errs with
  | [] => None
  | [e] => Some (E op k (Some e) msg)
  | es => Some (E op k (Some (MultiError es)) msg)
  end.

(** ** Observers *)

(** The [Error] methods. *)
Fixpoint Error (e : error) : string :=
  match e with
  | E op _ cause msg =>
      let base := if bool_decide (msg = "")
                  then match cause with Some c => Error c | None => "" end
                  else msg in
      if bool_decide (op <> "") && bool_decide (base <> "") then op +:+ ": " +:+ base
      else if bool_decide (op <> "") then op
      else base
  | ContextError name None => "context " +:+ name
  | ContextError name (Some c) => "context " +:+ name +:+ ": " +:+ Error c
  | AbortedError name _ =>
      if bool_decide (name <> "")
      then "context " +:+ name +:+ ": aborted: another context failed"
      else "aborted: another context failed"
  | MultiError [] => ""
  | MultiError [c] => Error c
  | MultiError cs => Join (List.map Error cs) "; "
  | Plain text => text
  | Wrapf text _ => text
  end.

(** The [Unwrap] methods: the immediate causes. *)
Definition Unwrap (e : error) : list error :=
  match e with
  | E _ _ cause _ | ContextError _ cause | AbortedError _ cause => option_list cause
  | MultiError es => es
  | Plain _ => []
  | Wrapf _ c => [c]
  end.

(** [errors.As]: the first error of the tree, in pre-order, that [f] accepts. *)
Fixpoint errors_As {T} (f : error -> option T) (e : error) : option T :=
  match f e with
  | Some t => Some t
  | None =>
      match e with
      | E _ _ (Some c) _ | ContextError _ (Some c) | AbortedError _ (Some c)
      | Wrapf _ c => errors_As f c
      | MultiError es =>
          (fix first (l : list error) : option T :=
             match l with
             | [] => None
             | c :: l => match errors_As f c with Some t => Some t | None => first l end
             end) es
      | _ => None
      end
  end.

Definition match_E (e : error) : option (Kind * string) :=
  match e with E _ k _ msg => Some (k, msg) | _ => None end.
Definition match_Aborted (e : error) : option unit :=
  match e with AbortedError _ _ => Some tt | _ => None end.

Definition IsKind (err : option error) (k : Kind) : bool :=
  match err with
  | None => false
  | Some e => match errors_As match_E e with
              | Some (k', _) => bool_decide (k' = k)
              | None => false
              end
  end.

Definition IsAborted (err : option error) : bool :=
  match err with
  | None => false
  | Some e => bool_decide (is_Some (errors_As match_Aborted e))
  end.

(** The loop of [DeepestMessage] from the current error, with the last message
    seen: [errors.As] to the next [E], then on to its cause. *)
Fixpoint deepest_from (last : string) (cur : error) : string :=
  match cur with
  | E _ _ cause msg =>
      let last := if bool_decide (msg <> "") then msg else last in
      match cause with Some c => deepest_from last c | None => last end
  | ContextError _ (Some c) | AbortedError _ (Some c) | Wrapf _ c => deepest_from last c
  | MultiError es =>
      (fix first (l : list error) : string :=
         match l with
         | [] => last
         | c :: l => if bool_decide (is_Some (errors_As match_E c))
                     then deepest_from last c else first l
         end) es
  | _ => last
  end.

Definition DeepestMessage (err : option error) : string :=
  match err with
  | None => ""
  | Some e => let last := deepest_from "" e in
              if bool_decide (last <> "") then last else Error e
  end.

(** ** Properties *)

(** The chain below an error: every error reachable through [Unwrap]. *)
Inductive in_chain : error -> error -> Prop :=
| chain_here e : in_chain e e
| chain_below e c d : c ∈ Unwrap e -> in_chain c d -> in_chain e d.

(** Induction over the error tree. *)
Lemma error_tree_ind (P : error -> Prop) :
  (forall e, (forall c, c ∈ Unwrap e -> P c) -> P e) -> forall e, P e.
Proof.
  intros H. fix IH 1. intros e. apply H.
  destruct e as [? ? [c|] ? | ? [c|] | ? [c|] | es | | ? c]; simpl;
    try (intros ? Hin; apply list_elem_of_singleton in Hin as ->; apply IH);
    try (intros ? Hin; destruct (not_elem_of_nil _ Hin)).
  induction es as [|c es IHes]; intros d Hd.
  - destruct (not_elem_of_nil _ Hd).
  - apply elem_of_cons in Hd as [->|Hd]; [apply IH|exact (IHes d Hd)].
Qed.

Lemma errors_As_multi {T} (f : error -> option T) es :
  f (MultiError es) = None ->
  errors_As f (MultiError es) = head (omap (errors_As f) es).
Proof.
  intros Hf. simpl. rewrite Hf. clear Hf. induction es as [|c es IH]; [done|]. simpl.
  destruct (errors_As f c) eqn:Hc; [done|]. exact IH.
Qed.

(** [errors.As] finds a match exactly when the chain has one. *)
Lemma errors_As_is_Some {T} (f : error -> option T) e :
  is_Some (errors_As f e) <-> exists d, in_chain e d /\ is_Some (f d).
Proof.
  induction e as [e IH] using error_tree_ind.
  destruct (f e) as [t|] eqn:Hf.
  { split; [intros _; exists e; split; [constructor|by rewrite Hf]|].
    intros _. destruct e; simpl; rewrite Hf; eauto. }
  assert (is_Some (errors_As f e) <-> exists c, c ∈ Unwrap e /\ is_Some (errors_As f c))
    as ->.
  { destruct e as [? ? [c|] ? | ? [c|] | ? [c|] | es | | ? c];
      try (simpl; rewrite Hf; setoid_rewrite list_elem_of_singleton; naive_solver);
      try (simpl; rewrite Hf; setoid_rewrite elem_of_nil; split;
           [by intros [] | naive_solver]).
    rewrite errors_As_multi by done. simpl. clear.
    induction es as [|c es IH]; simpl.
    - split; [by intros []|]. intros (c & Hc & _). by apply not_elem_of_nil in Hc.
    - destruct (errors_As f c) as [t|] eqn:Hc; simpl.
      + split; [|eauto]. intros _. exists c. rewrite Hc. split; [left|eauto].
      + rewrite IH. setoid_rewrite elem_of_cons.
        split; [naive_solver|]. intros (d & [->|Hd] & Hs); [|eauto].
        rewrite Hc in Hs. by destruct Hs. }
  split.
  - intros (c & Hc & Hs). apply IH in Hs as (d & Hd & Hfd); [|done].
    exists d. split; [by eapply chain_below|done].
  - intros (d & Hd & Hfd). inversion Hd as [|? c ? Hc Hcd]; simplify_eq.
    + rewrite Hf in Hfd. by destruct Hfd.
    + exists c. split; [done|]. apply IH; [done|]. by exists d.
Qed.

(** The first error of the tree with a property: the error itself, or else the first
    below the first of its causes that has one. *)
Inductive first (P : error -> Prop) : error -> error -> Prop :=
| first_here e : P e -> first P e e
| first_below e es1 c es2 d : ~ P e -> Unwrap e = es1 ++ c :: es2 ->
    Forall (fun c' => forall d', in_chain c' d' -> ~ P d') es1 -> first P c d -> first P e d.

Lemma errors_As_unfold {T} (f : error -> option T) e :
  errors_As f e = match f e with Some t => Some t | None => head (omap (errors_As f) (Unwrap e)) end.
Proof.
  destruct e as [? ? [c|] ? | ? [c|] | ? [c|] | es | | ? c]; simpl; destruct (f _) eqn:Hf; try done;
    try (by destruct (errors_As f c)). by rewrite <- errors_As_multi by done; simpl; rewrite Hf.
Qed.

Lemma errors_As_None {T} (f : error -> option T) e :
  errors_As f e = None <-> forall d, in_chain e d -> ~ is_Some (f d).
Proof. rewrite eq_None_not_Some, errors_As_is_Some. naive_solver. Qed.

(** [errors.As] answers for the first error that matches. *)
Lemma errors_As_first {T} (f : error -> option T) e t :
  errors_As f e = Some t -> exists d, first (fun d => is_Some (f d)) e d /\ f d = Some t.
Proof.
  induction e as [e IH] using error_tree_ind. rewrite errors_As_unfold.
  destruct (f e) as [t'|] eqn:Hf; [intros [= ->]; exists e; split; [by constructor|done]|]. intros Hh.
  assert (exists es1 c es2, Unwrap e = es1 ++ c :: es2 /\ Forall (fun c' => errors_As f c' = None) es1
    /\ errors_As f c = Some t) as (es1 & c & es2 & Hu & Hn & Hc).
  { clear IH. revert Hh. generalize (Unwrap e) as es. intros es. induction es as [|c es IH]; [done|]. simpl.
    destruct (errors_As f c) as [t'|] eqn:Hc; [intros [= ->]; by exists [], c, es|].
    intros (es1 & c' & es2 & -> & Hn & Hc')%IH. exists (c :: es1), c', es2. by repeat constructor. }
  destruct (IH c) as (d & Hd & Hfd); [rewrite Hu; set_solver|done|]. exists d. split; [|done].
  eapply first_below; [cbn; rewrite Hf; by intros [? [=]]|exact Hu| |exact Hd].
  eapply Forall_impl; [exact Hn|]. intros c' Hc'. by apply errors_As_None.
Qed.

Lemma first_unique P e d d' : first P e d -> first P e d' -> d = d'.
Proof.
  assert (forall c d, first P c d -> in_chain c d /\ P d) as Hin.
  { intros c0 d0. induction 1 as [|e0 es1 c0 es2 d0 _ Hu _ _ [Hc Hp]]; [by split; [constructor|]|].
    split; [|done]. eapply chain_below; [|exact Hc]. rewrite Hu. set_solver. }
  intros H. revert d'. induction H as [e He|e es1 c es2 d He Hu Hn Hc IH]; intros d' H'.
  - by inversion H'; subst.
  - inversion H' as [|? es1' c' es2' ? _ Hu' Hn' Hc']; subst; [done|]. rewrite Hu in Hu'. apply IH.
    enough (c = c') as -> by done.
    clear Hu IH He H'. revert es1' Hu' Hn'. induction es1 as [|x es1 IH]; intros [|x' es1'] Hu' Hn'; simplify_eq/=.
    + done.
    + apply Forall_inv in Hn'. destruct (Hin _ _ Hc) as [Hi Hp]. by destruct (Hn' _ Hi).
    + apply Forall_inv in Hn. destruct (Hin _ _ Hc') as [Hi Hp]. by destruct (Hn _ Hi).
    + apply Forall_cons in Hn as [_ Hn], Hn' as [_ Hn']. by eapply IH.
Qed.

Lemma in_chain_trans a b c : in_chain a b -> in_chain b c -> in_chain a c.
Proof. induction 1; [done|]. intros. eapply chain_below; eauto. Qed.

Lemma in_chain_cause op k c msg : in_chain (E op k (Some c) msg) c.
Proof. eapply chain_below; [apply list_elem_of_here|constructor]. Qed.

Lemma in_chain_multi es e : e ∈ es -> in_chain (MultiError es) e.
Proof. intros. by eapply chain_below; [|constructor]. Qed.

#[export] Hint Resolve chain_here in_chain_cause in_chain_multi : dockform.

(** What [Aggregate] returns: nothing when nothing failed, and otherwise an [E]
    of the given kind below which every failure can still be reached. *)
Lemma Aggregate_None op k msg errs :
  Aggregate op k msg errs = None <-> Forall (.= None) errs.
Proof.
  unfold Aggregate. split.
  - intros H. apply Forall_forall. intros [e|] He; [|done]. exfalso.
    assert (e ∈ omap id errs) as Hin by (apply list_elem_of_omap; by exists (Some e)).
    destruct (omap id errs) as [|e1 [|e2 es]]; [by apply not_elem_of_nil in Hin|done..].
  - intros H. assert (omap id errs = []) as ->; [|done].
    induction H as [|e errs -> _ IH]; [done|]. exact IH.
Qed.

Lemma Aggregate_Some op k msg errs e :
  Some e ∈ errs ->
  exists c, Aggregate op k msg errs = Some (E op k (Some c) msg)
            /\ in_chain c e.
Proof.
  intros He. unfold Aggregate.
  assert (e ∈ omap id errs) as Hin by (apply list_elem_of_omap; by exists (Some e)).
  destruct (omap id errs) as [|e1 [|e2 es]]; [by apply not_elem_of_nil in Hin|..].
  - apply list_elem_of_singleton in Hin as ->. eexists; split; [done|constructor].
  - eexists; split; [done|]. by apply in_chain_multi.
Qed.

(** [Aggregate] loses no failure.  It returns nil exactly when every given
    error is nil; otherwise its result has the given kind and every non-nil error
    it was given is reachable from the result through [Unwrap], so [errors.As]
    and [DeepestMessage] still see them all. *)
Theorem Aggregate_keeps_failures op k msg errs :
  (Aggregate op k msg errs = None <-> Forall (.= None) errs)
  /\ forall e, Some e ∈ errs ->
       exists a, Aggregate op k msg errs = Some a
                 /\ IsKind (Some a) k = true /\ in_chain a e.
Proof.
  split; [apply Aggregate_None|]. intros e He.
  destruct (Aggregate_Some op k msg errs e He) as (c & Ha & Hc).
  eexists; split_and!; [exact Ha| |].
  - simpl. by rewrite bool_decide_true.
  - eapply in_chain_trans; [apply in_chain_cause|exact Hc].
Qed.

(** [IsKind] looks at the outermost [E] only.  Wrapping decides the kind:
    whatever kinds the cause carries, [IsKind] of a wrapped error answers for the
    wrapper alone.  In particular a wrapped [NotFound] is in the chain and is not
    reported, although the comment on [IsKind] promises any error in the chain. *)
Theorem IsKind_outermost_only :
  (forall op k c msg args k',
     IsKind (Wrap op k (Some c) msg args) k' = bool_decide (k = k'))
  /\ exists e d, in_chain e d /\ IsKind (Some d) NotFound = true
                 /\ IsKind (Some e) NotFound = false.
Proof.
  split; [done|].
  exists (wrap "op" External (New "inner" NotFound "gone" []) "outer" []),
    (New "inner" NotFound "gone" []).
  split_and!; [|done..]. apply in_chain_cause.
Qed.

Lemma deepest_from_last last e :
  deepest_from last e =
    if bool_decide (deepest_from "" e = "") then last else deepest_from "" e.
Proof.
  revert last. induction e as [e IH] using error_tree_ind; intros last.
  destruct e as [op k [c|] msg | ? [c|] | ? [c|] | es | | ? c]; simpl in *;
    try done; try (apply IH; left).
  - destruct (decide (msg = "")) as [->|Hmsg].
    + rewrite (bool_decide_false (_ <> _)) by naive_solver. apply IH. left.
    + rewrite !(bool_decide_true (_ <> _)) by done.
      rewrite (IH c ltac:(left) msg). by cases.
  - destruct (decide (msg = "")) as [->|Hmsg]; [done|].
    rewrite !(bool_decide_true (_ <> _)), (bool_decide_false (msg = "")) by done. done.
  - induction es as [|c es IHes]; [done|].
    destruct (bool_decide (is_Some (errors_As match_E c))); [apply IH; left|].
    apply IHes. intros d Hd. apply IH. by right.
Qed.

(** [DeepestMessage] surfaces the innermost detail.  Wrapping an error that
    carries a message somewhere never hides that message behind the wrapper's
    own, however many wrappers are added. *)
Theorem DeepestMessage_wrap op k e msg args :
  deepest_from "" e <> "" ->
  DeepestMessage (Wrap op k (Some e) msg args) = DeepestMessage (Some e).
Proof.
  intros He. unfold DeepestMessage, Wrap. cbn [deepest_from].
  rewrite deepest_from_last.
  by rewrite (bool_decide_false (_ = "")), !(bool_decide_true (_ <> "")) by done.
Qed.

Lemma DeepestMessage_wrap_witness :
  DeepestMessage (Wrap "planner.Apply" External
    (Some (New "dockercli.Run" External "port is already allocated" [])) "compose up" [])
  = "port is already allocated".
Proof. rewrite DeepestMessage_wrap; [reflexivity|discriminate]. Defined.

(** [IsAborted] is not affected by wrapping. *)
Lemma IsAborted_wrap op k e msg args :
  IsAborted (Some (wrap op k e msg args)) = IsAborted (Some e).
Proof. done. Qed.
