(* ===== verification/Util.v ===== *)
(** * Shared helpers ([internal/util])

    Line splitting, truncation, shell quoting, and the two tar writers.  The
    local file system appears as what [filepath.WalkDir] presents (a tree) and as
    the answers of [os.Lstat] and [os.Open] (parameters). *)

From S2P Require Import Prelude GoStrings GoPath Apperr.
From Stdlib Require Import Ascii.

(** ** strings.go *)

Definition newline : ascii := "010"%char.
Definition nl : string := String newline "".

Definition SplitNonEmptyLines (s : string) : list string :=
  filter (fun l => l <> "") (TrimSpace <$> Split s newline).

Fixpoint string_take (n : nat) (s : string) : string :=
  match n, s with
  | S n, String c s => String c (string_take n s)
  | _, _ => ""
  end.

(** [max] is a non-negative constant at every call site. *)
Definition Truncate (s : string) (max : nat) : string :=
  if String.length s <=? max then s else string_take max s +:+ "...".

Definition DirPath (p : string) : string :=
  if bool_decide (p = "") || bool_decide (p = ".") || bool_decide (p = "/") then ""
  else let dir := Dir p in if bool_decide (dir = ".") then "" else dir.

Definition ShellEscape (s : string) : string := ReplaceAll s "'" "'\''".

(** A single-quoted shell word: the idiom ['...'] around [ShellEscape]. *)
Definition sh_quote (s : string) : string := "'" +:+ ShellEscape s +:+ "'".

(** *** The POSIX shell's reading of quotes

    Tokenising a word in a script: inside single quotes every byte up to the
    next single quote is literal; outside, a backslash makes the next byte
    literal; any other unquoted byte ends the word. *)
Fixpoint sh_word (quoted : bool) (s : string) : option (string * string) :=
  match s with
  | "" => if quoted then None else Some ("", "")
  | String c r =>
      if quoted then
        if Ascii.eqb c "'" then sh_word false r
        else '(w, rest) ← sh_word true r; Some (String c w, rest)
      else
        if Ascii.eqb c "'" then sh_word true r
        else if Ascii.eqb c "\" then
          match r with
          | "" => None
          | String d r' => '(w, rest) ← sh_word false r'; Some (String d w, rest)
          end
        else Some ("", s)
  end.

(** ** The directory tree under a path

    Entries in the order of [os.ReadDir], which sorts them by name. *)
Inductive node :=
| NFile (perm : Z) (content : string)
| NDir (perm : Z) (entries : list (string * node))
| NSymlink (perm : Z) (target : string)
| NSpecial (perm : Z).

(** Pre-order enumeration of [WalkDir] below a root, with the slash-separated
    path relative to the root of each entry. *)
Definition rel_join (prefix name : string) : string :=
  if bool_decide (prefix = "") then name else prefix +:+ "/" +:+ name.

Fixpoint walk (prefix : string) (n : node) : list (string * node) :=
  match n with
  | NDir _ entries =>
      (fix go (l : list (string * node)) : list (string * node) :=
         match l with
         | [] => []
         | (name, c) :: l =>
             let rel := rel_join prefix name in
             ((rel, c) :: walk rel c) ++ go l
         end) entries
  | _ => []
  end.

(** ** tar.go *)

Inductive Typeflag := TypeReg | TypeDir | TypeSymlink.

#[global] Instance Typeflag_eq_dec : EqDecision Typeflag.
Proof. solve_decision. Defined.

(** A header with the data that follows it (times left out). *)
Record TarEntry := mkTar {
  tar_Name : string;
  tar_Mode : Z;
  tar_Typeflag : Typeflag;
  tar_Linkname : string;
  tar_Data : string;
}.

Definition with_slash (name : string) : string :=
  if HasSuffix name "/" then name else name +:+ "/".

(** The mode [0o755]. *)
Definition mode_0755 : Z := 493.

(** The entry [TarDirectoryToWriter] writes for one walked path, if any. *)
Definition tar_dir_entry (targetPrefix : string) (p : string * node) : option TarEntry :=
  let '(rel, n) := p in
  let usePrefix := bool_decide (targetPrefix <> "") && bool_decide (targetPrefix <> ".") in
  let name := if usePrefix then PathJoin [targetPrefix; rel] else rel in
  match n with
  | NDir perm _ =>
      let name := if bool_decide (name <> "/") && bool_decide (name <> "")
                  then with_slash name else name in
      Some (mkTar name perm TypeDir "" "")
  | NSymlink perm target => Some (mkTar name perm TypeSymlink target "")
  | NSpecial _ => None
  | NFile perm content => Some (mkTar name perm TypeReg "" content)
  end.

Definition TarDirectoryToWriter (localDir : node) (targetPrefix : string) : list TarEntry :=
  omap (tar_dir_entry targetPrefix) (walk "" localDir).

(** What [os.Lstat] reports. *)
Inductive FileType := Regular | Directory | Symlink | OtherType.
Record FileInfo := mkInfo { fi_type : FileType; fi_perm : Z }.

Section TarFiles.
(** [os.Lstat], and [os.Open] followed by reading the file. *)
Context (Lstat : string -> res FileInfo) (Open : string -> res string).

(** State of the writer: the emitted directories and the entries, in order. *)
Record TarState := mkTarState { emittedDirs : gset string; tw : list TarEntry }.

Definition write_entry (h : TarEntry) (st : TarState) : TarState :=
  mkTarState (emittedDirs st) (tw st ++ [h]).

(** [emitDir], recursing to the parent; the fuel bounds the number of parents,
    and the length of the path is always enough. *)
Fixpoint emitDir (fuel : nat) (dir : string) (mode : Z) (st : TarState) : TarState :=
  match fuel with
  | 0 => st
  | S fuel =>
      if bool_decide (dir = ".") || bool_decide (dir = "") || bool_decide (dir = "/")
      then st
      else
        let name := with_slash dir in
        let parent := Dir dir in
        let st :=
          if bool_decide (parent <> ".") && bool_decide (parent <> dir)
             && bool_decide (parent ∉ emittedDirs st)
          then emitDir fuel parent mode_0755 st else st in
        if bool_decide (name ∈ emittedDirs st) then st
        else mkTarState ({[name]} ∪ emittedDirs st)
               (tw st ++ [mkTar name mode TypeDir "" ""])
  end.

(** One iteration of the loop over the requested files. *)
Definition tar_file (localRoot : string) (st : TarState) (rel : string) : res TarState :=
  if bool_decide (rel = "") then Ok st else
  let cleanRel := Clean rel in
  if HasPrefix cleanRel ".." then Ok st else
  let abs := PathJoin [localRoot; cleanRel] in
  match Lstat abs with
  | Err e => Err e
  | Ok info =>
      let parent := Dir cleanRel in
      let st := emitDir (S (String.length parent)) parent mode_0755 st in
      match fi_type info with
      | Directory =>
          let name := if bool_decide (cleanRel = "") || bool_decide (cleanRel = "/")
                         || negb (HasSuffix cleanRel "/")
                      then cleanRel +:+ "/" else cleanRel in
          Ok (write_entry (mkTar name (fi_perm info) TypeDir "" "") st)
      | Symlink => Ok st
      | OtherType => Ok st
      | Regular =>
          match Open abs with
          | Err e => Err e
          | Ok data => Ok (write_entry (mkTar cleanRel (fi_perm info) TypeReg "" data) st)
          end
      end
  end.

Definition TarFilesToWriter (localRoot : string) (files : list string)
  : res (list TarEntry) :=
  match result_foldl (tar_file (Clean localRoot)) (mkTarState ∅ []) files with
  | Ok st => Ok (tw st)
  | Err e => Err e
  end.
End TarFiles.

(** ** Properties of the string helpers *)

Lemma replace_single_fuel q new n s :
  String.length s <= n ->
  replace_fuel n s (String q "") new =
    match s with
    | "" => ""
    | String c r => (if Ascii.eqb q c then new else String c "")
                    +:+ replace_fuel (String.length r) r (String q "") new
    end.
Proof.
  assert (Hind : forall n m s, String.length s <= n -> String.length s <= m ->
    replace_fuel n s (String q "") new = replace_fuel m s (String q "") new).
  { clear. intros n. induction n as [|n IH]; intros [|m] [|c s] Hn Hm; simpl in *;
      try done; try lia.
    destruct (Ascii.eqb q c); rewrite (IH m) by lia; done. }
  intros Hn. destruct s as [|c r]; [by destruct n|]. simpl in Hn.
  destruct n as [|n]; [lia|]. simpl.
  destruct (Ascii.eqb q c); rewrite (Hind n (String.length r)) by lia; done.
Qed.

Lemma ShellEscape_cons c s :
  ShellEscape (String c s) =
    (if Ascii.eqb "'" c then "'\''" else String c "") +:+ ShellEscape s.
Proof. unfold ShellEscape, ReplaceAll. by rewrite replace_single_fuel. Qed.

Lemma sh_word_escaped s rest :
  sh_word false rest = Some ("", rest) ->
  sh_word true (ShellEscape s +:+ "'" +:+ rest) = Some (s, rest).
Proof.
  intros Hrest. induction s as [|c s IH]; [exact Hrest|].
  rewrite ShellEscape_cons, string_app_assoc.
  destruct (Ascii.eqb "'" c) eqn:Hc.
  - apply Ascii.eqb_eq in Hc as <-.
    revert IH. generalize (ShellEscape s +:+ "'" +:+ rest) as t. intros t IH.
    rewrite !string_app_cons, string_app_nil_l. simpl. by rewrite IH.
  - rewrite string_app_cons, string_app_nil_l. cbn [sh_word].
    rewrite Ascii.eqb_sym in Hc. rewrite Hc, IH. done.
Qed.

(** [ShellEscape] is safe in single quotes.  Whatever the string is, quotes
    and backslashes included, the shell reads [ShellEscape s] in single quotes
    as one word whose value is [s] and continues with the rest of the script:
    a path, a mode or a user name can neither end its quotes nor inject a command.
    The hypothesis says that the rest of the script does not continue the word. *)
Theorem ShellEscape_roundtrip s rest :
  sh_word false rest = Some ("", rest) ->
  sh_word false (sh_quote s +:+ rest) = Some (s, rest).
Proof.
  intros Hrest. unfold sh_quote. rewrite !string_app_assoc.
  by apply (sh_word_escaped s rest).
Qed.

Lemma ShellEscape_roundtrip_witness :
  sh_word false (sh_quote "it's; rm -rf /" +:+ " 2>/dev/null")
  = Some ("it's; rm -rf /", " 2>/dev/null").
Proof. apply ShellEscape_roundtrip. reflexivity. Defined.

Lemma SplitNonEmptyLines_clean s l :
  l ∈ SplitNonEmptyLines s -> l <> "" /\ TrimSpace l = l.
Proof.
  unfold SplitNonEmptyLines. rewrite list_elem_of_filter, list_elem_of_fmap.
  intros (Hl & x & -> & _). split; [done|]. apply TrimSpace_idemp.
Qed.

(** ** Properties of [TarFilesToWriter] *)

(** The name of the directory header of a path. *)
Definition dir_name (cs : list string) : string := Join cs "/" +:+ "/".

Lemma Join_app_last cs c :
  cs <> [] -> Join (cs ++ [c]) "/" = Join cs "/" +:+ "/" +:+ c.
Proof.
  induction cs as [|x cs IH]; [done|]. intros _.
  destruct cs as [|y cs]; [done|].
  change ((x :: y :: cs) ++ [c]) with (x :: (y :: cs) ++ [c]).
  rewrite Join_cons by (by destruct cs). rewrite IH by done.
  by rewrite (Join_cons x (y :: cs)), !string_app_assoc by done.
Qed.

Lemma Clean_rel_path cs : path_comps cs -> cs <> [] -> Clean (Join cs "/") = Join cs "/".
Proof.
  intros Hcs Hne. unfold Clean. cbv zeta.
  assert (IsAbs (Join cs "/") = false) as ->.
  { destruct cs as [|c cs]; [done|].
    apply Forall_cons in Hcs as [[[Hc _] Hf] _]. destruct c as [|a c]; [done|].
    apply free_cons in Hf as [Ha _].
    assert (exists t, Join (String a c :: cs) "/" = String a t) as [t ->].
    { destruct cs; [by eexists|]. rewrite Join_cons by done. by eexists. }
    unfold IsAbs, HasPrefix. cbn [strip_prefix].
    by rewrite (proj2 (Ascii.eqb_neq _ _)) by done. }
  unfold clean_comps. rewrite foldl_clean_join by done.
  rewrite app_nil_r, reverse_involutive. by destruct cs.
Qed.

Lemma Clean_dir_name cs : path_comps cs -> cs <> [] -> Clean (dir_name cs) = Join cs "/".
Proof.
  intros Hcs Hne. trans (Clean (Join cs "/")); [|by apply Clean_rel_path].
  unfold Clean, dir_name. cbv zeta.
  assert (Join cs "/" <> "") as Hj.
  { intros He. pose proof (Split_join_path cs Hcs) as Hs. rewrite He in Hs.
    destruct cs as [|c cs]; [done|]. injection Hs as Hc _.
    by apply Forall_cons in Hcs as [[[? _] _] _]. }
  rewrite IsAbs_app by done. f_equal.
  change (Join cs "/" +:+ "/") with (Join cs "/" +:+ String slash "").
  rewrite Split_app_sep. unfold clean_comps. by rewrite foldl_app.
Qed.

(** The parent of a relative path. *)
Lemma Dir_rel_path cs c :
  path_comps (cs ++ [c]) ->
  Dir (Join (cs ++ [c]) "/") = match cs with [] => "." | _ => Join cs "/" end.
Proof.
  intros Hp. pose proof Hp as [Hcs [[_ Hf] _]%Forall_cons]%path_comps_app.
  unfold Dir, dir_part. destruct cs as [|x cs].
  - simpl. by rewrite CutLast_free.
  - rewrite Join_app_last by done.
    change ("/" +:+ c) with (String slash c). rewrite CutLast_app by done.
    by apply Clean_dir_name.
Qed.

Lemma dir_name_not_path cs ds : path_comps cs -> path_comps ds -> cs <> [] ->
  Join cs "/" <> dir_name ds.
Proof.
  intros Hcs Hds Hne H. apply (f_equal (fun s => Split s slash)) in H.
  rewrite Split_join_path in H by done. unfold dir_name in H.
  change (Join ds "/" +:+ "/") with (Join ds "/" +:+ String slash "") in H.
  rewrite Split_app_sep in H.
  assert ("" ∈ cs) as Hin by (destruct cs; [done|]; rewrite H; set_solver).
  unfold path_comps in Hcs. rewrite Forall_forall in Hcs.
  by destruct (Hcs _ Hin) as [[? _] _].
Qed.

Lemma with_slash_rel cs : path_comps cs -> cs <> [] ->
  with_slash (Join cs "/") = dir_name cs.
Proof.
  intros Hcs Hne. unfold with_slash. destruct (HasSuffix _ _) eqn:Hs; [|done].
  apply HasSuffix_true in Hs as [r Hr]. exfalso.
  pose proof (Split_join_path cs Hcs) as Hsp. rewrite Hr in Hsp.
  change (r +:+ "/") with (r +:+ String slash "") in Hsp. rewrite Split_app_sep in Hsp.
  assert ("" ∈ cs) as Hin by (destruct cs; [done|]; rewrite <- Hsp; set_solver).
  unfold path_comps in Hcs. rewrite Forall_forall in Hcs.
  by destruct (Hcs _ Hin) as [[? _] _].
Qed.

Definition dirs_of (out : list TarEntry) : list string :=
  omap (fun h => if bool_decide (tar_Typeflag h = TypeDir) then Some (tar_Name h) else None)
       out.

(** [h] is the entry of the relative path with components [cs]. *)
Definition entry_path (h : TarEntry) (cs : list string) : Prop :=
  path_comps cs /\ cs <> []
  /\ tar_Name h = if bool_decide (tar_Typeflag h = TypeDir) then dir_name cs
                  else Join cs "/".

(** Every entry comes after the headers of all its parent directories. *)
Definition parents_first (out : list TarEntry) : Prop :=
  forall i h cs ds, out !! i = Some h -> entry_path h cs ->
    ds <> [] -> ds `prefix_of` cs -> ds <> cs -> dir_name ds ∈ dirs_of (take i out).

Lemma dirs_of_app l k : dirs_of (l ++ k) = dirs_of l ++ dirs_of k.
Proof. apply omap_app. Qed.

Lemma parents_first_snoc out h :
  parents_first out ->
  (forall cs ds, entry_path h cs -> ds <> [] -> ds `prefix_of` cs -> ds <> cs ->
     dir_name ds ∈ dirs_of out) ->
  parents_first (out ++ [h]).
Proof.
  intros Hpf Hh i h' cs ds Hi He Hne Hpre Hneq.
  apply lookup_app_Some in Hi as [Hi|[Hlen Hi]].
  - rewrite take_app_le by (apply lookup_lt_Some in Hi; lia). eauto.
  - apply list_lookup_singleton_Some in Hi as [Hz <-].
    rewrite take_app_length' by lia. eauto.
Qed.

Record tar_inv (st : TarState) : Prop := {
  inv_emitted : emittedDirs st = list_to_set (dirs_of (tw st));
  inv_once : NoDup (dirs_of (tw st));
  inv_parents : parents_first (tw st);
  inv_paths : forall h, h ∈ tw st -> exists cs, entry_path h cs;
}.

Lemma inv_names st : tar_inv st -> forall d, d ∈ dirs_of (tw st) ->
  exists cs, path_comps cs /\ cs <> [] /\ d = dir_name cs.
Proof.
  intros Hinv d (h & Hh & Hd)%list_elem_of_omap. case_bool_decide as Ht; [|done].
  injection Hd as <-. destruct (inv_paths _ Hinv h Hh) as (cs & ? & ? & Hn).
  rewrite Ht in Hn. by exists cs.
Qed.

Lemma rel_path_inj cs ds : path_comps cs -> path_comps ds -> cs <> [] -> ds <> [] ->
  Join cs "/" = Join ds "/" -> cs = ds.
Proof.
  intros Hcs Hds ?? H. apply (f_equal (fun s => Split s slash)) in H.
  rewrite !Split_join_path in H by done. by destruct cs, ds.
Qed.

Lemma dir_name_inj cs ds : path_comps cs -> path_comps ds -> cs <> [] -> ds <> [] ->
  dir_name cs = dir_name ds -> cs = ds.
Proof.
  intros ???? H. apply rel_path_inj; [done..|].
  rewrite <- (Clean_dir_name cs), H by done. by apply Clean_dir_name.
Qed.

(** The path of a directory, as [filepath.Dir] spells it. *)
Definition rel_dir (cs : list string) : string :=
  match cs with [] => "." | _ => Join cs "/" end.

Lemma rel_dir_ne cs : path_comps cs -> cs <> [] ->
  Join cs "/" <> "." /\ Join cs "/" <> "" /\ Join cs "/" <> "/".
Proof.
  intros Hcs Hne. pose proof (Split_join_path cs Hcs) as Hs.
  unfold path_comps in Hcs. rewrite Forall_forall in Hcs.
  split_and!; intros He; rewrite He in Hs; simpl in Hs;
    (destruct cs as [|c cs]; [done|]); injection Hs as <- ?; subst;
    destruct (Hcs _ (list_elem_of_here _ _)) as [(? & ? & ?) _]; done.
Qed.

Lemma emitDir_dot fuel m st : emitDir fuel "." m st = st.
Proof. by destruct fuel. Qed.

(** One unfolding of [emitDir] on a relative path: parents, then itself once. *)
Lemma emitDir_step fuel ds c m st :
  path_comps (ds ++ [c]) -> tar_inv st ->
  emitDir (S fuel) (Join (ds ++ [c]) "/") m st =
    let st1 := emitDir fuel (rel_dir ds) mode_0755 st in
    if bool_decide (dir_name (ds ++ [c]) ∈ emittedDirs st1) then st1
    else mkTarState ({[dir_name (ds ++ [c])]} ∪ emittedDirs st1)
           (tw st1 ++ [mkTar (dir_name (ds ++ [c])) m TypeDir "" ""]).
Proof.
  intros Hp Hinv. assert (ds ++ [c] <> []) as Hne by (by destruct ds).
  destruct (rel_dir_ne _ Hp Hne) as (H1 & H2 & H3).
  cbn [emitDir]. rewrite !bool_decide_false by done. cbn [orb].
  rewrite with_slash_rel, Dir_rel_path by done. fold (rel_dir ds).
  destruct (decide (ds = [])) as [->|Hds].
  { rewrite (bool_decide_false (rel_dir [] <> ".")) by (by intros []). cbn [andb].
    change (rel_dir []) with ".". by rewrite emitDir_dot. }
  assert (path_comps ds) as Hpd by (by apply path_comps_app in Hp as [? _]).
  assert (rel_dir ds = Join ds "/") as -> by (by destruct ds).
  destruct (rel_dir_ne _ Hpd Hds) as (? & ? & ?).
  assert (Join ds "/" <> Join (ds ++ [c]) "/").
  { intros He. apply rel_path_inj in He; [|done..].
    apply (f_equal length) in He. rewrite length_app in He. simpl in He. lia. }
  assert (Join ds "/" ∉ emittedDirs st).
  { rewrite (inv_emitted _ Hinv), elem_of_list_to_set.
    intros (cs & ? & ? & He)%(inv_names _ Hinv). by eapply dir_name_not_path in He. }
  rewrite (bool_decide_true (Join ds "/" <> ".")) by done.
  rewrite (bool_decide_true (Join ds "/" <> _)) by done.
  by rewrite (bool_decide_true (Join ds "/" ∉ _)) by done.
Qed.

Lemma prefix_snoc {A} (l k : list A) x :
  l `prefix_of` k ++ [x] -> l `prefix_of` k \/ l = k ++ [x].
Proof.
  intros [m Hm]. induction m as [|y m _] using rev_ind.
  - right. by rewrite app_nil_r in Hm.
  - left. rewrite app_assoc in Hm. apply app_inj_2 in Hm as [-> _]; [|done].
    by exists m.
Qed.

Lemma emitDir_spec cs fuel m st :
  path_comps cs -> length cs <= fuel -> tar_inv st ->
  let st' := emitDir fuel (rel_dir cs) m st in
  tar_inv st' /\ (forall ds, ds <> [] -> ds `prefix_of` cs -> dir_name ds ∈ emittedDirs st').
Proof.
  revert fuel m st. induction cs as [|c ds IH] using rev_ind; intros fuel m st Hp Hf Hinv.
  { change (rel_dir []) with ".". cbv zeta. rewrite emitDir_dot.
    split; [done|]. intros ds Hds Hpre. by apply prefix_nil_inv in Hpre. }
  rewrite length_app in Hf. simpl in Hf. destruct fuel as [|fuel]; [lia|].
  assert (path_comps ds) as Hpd by (by apply path_comps_app in Hp as [? _]).
  assert (rel_dir (ds ++ [c]) = Join (ds ++ [c]) "/") as -> by (by destruct ds).
  cbv zeta. rewrite emitDir_step by done. cbv zeta.
  destruct (IH fuel mode_0755 st Hpd ltac:(lia) Hinv) as (Hinv1 & Hpre).
  set (st1 := emitDir fuel (rel_dir ds) mode_0755 st) in *.
  assert (ds ++ [c] <> []) as Hne by (by destruct ds).
  case_bool_decide as Hin.
  { split; [done|]. intros es Hes [?| ->]%prefix_snoc; [by apply Hpre|done]. }
  split.
  - destruct Hinv1 as [Hem Hnd Hpf Hnm]. rewrite Hem, elem_of_list_to_set in Hin.
    constructor; cbn [emittedDirs tw].
    + rewrite dirs_of_app, list_to_set_app_L, Hem. simpl. set_solver.
    + rewrite dirs_of_app. simpl. apply NoDup_app. split_and!; [done| |apply NoDup_singleton].
      intros x Hx ->%list_elem_of_singleton. done.
    + apply parents_first_snoc; [done|]. intros cs es (Hcs & Hcne & Hname) Hes Hpes Hneq.
      cbn in Hname. apply dir_name_inj in Hname as <-; [|done..].
      apply prefix_snoc in Hpes as [Hpes| ->]; [|done].
      apply (elem_of_list_to_set (C := gset string)). rewrite <- Hem. by apply Hpre.
    + intros h. rewrite elem_of_app. intros [?|Hd]; [by apply Hnm|].
      apply list_elem_of_singleton in Hd as ->. by exists (ds ++ [c]).
  - cbn [emittedDirs]. intros es Hes [?| ->]%prefix_snoc; [|set_solver].
    apply elem_of_union_r. by apply Hpre.
Qed.

Lemma length_rel_path cs : path_comps cs -> length cs <= S (String.length (rel_dir cs)).
Proof.
  induction cs as [|c cs IH]; [simpl; lia|]. intros [[[Hc _] _] Hcs]%Forall_cons.
  specialize (IH Hcs). destruct c as [|a c]; [done|].
  destruct cs as [|d cs]; [simpl; lia|].
  cbn [rel_dir] in *. rewrite Join_cons by done.
  rewrite !string_length_app. simpl in *. lia.
Qed.

Section TarFilesFacts.
Context (Lstat : string -> res FileInfo) (Open : string -> res string).
Notation tar_file := (tar_file Lstat Open).

(** [f] is a file name below the root, as [BuildLocalIndex] lists them. *)
Definition rel_file (f : string) : Prop :=
  exists cs, path_comps cs /\ cs <> [] /\ f = Join cs "/".

Lemma write_file_inv st ds c perm data :
  path_comps (ds ++ [c]) -> tar_inv st ->
  (forall es, es <> [] -> es `prefix_of` ds -> dir_name es ∈ emittedDirs st) ->
  tar_inv (write_entry (mkTar (Join (ds ++ [c]) "/") perm TypeReg "" data) st).
Proof.
  intros Hp [Hem Hnd Hpf Hnm] Hpre. assert (ds ++ [c] <> []) by (by destruct ds).
  constructor; cbn [emittedDirs tw write_entry]; rewrite ?dirs_of_app, ?app_nil_r; try done.
  - apply parents_first_snoc; [done|]. intros cs es (Hcs & Hcne & Hname) Hes Hpes Hneq.
    cbn in Hname. apply rel_path_inj in Hname as <-; [|done..].
    apply prefix_snoc in Hpes as [Hpes| ->]; [|done].
    apply (elem_of_list_to_set (C := gset string)). rewrite <- Hem. by apply Hpre.
  - intros h. rewrite elem_of_app. intros [?|Hd]; [by apply Hnm|].
    apply list_elem_of_singleton in Hd as ->. by exists (ds ++ [c]).
Qed.

Lemma tar_file_inv root st f st' :
  rel_file f ->
  (forall info, Lstat (PathJoin [root; f]) = Ok info -> fi_type info <> Directory) ->
  tar_inv st -> tar_file root st f = Ok st' -> tar_inv st'.
Proof.
  intros (cs & Hcs & Hne & ->) Hdir Hinv. unfold Util.tar_file.
  destruct (rel_dir_ne _ Hcs Hne) as (_ & He & _).
  rewrite bool_decide_false by done. cbv zeta. rewrite Clean_rel_path by done.
  destruct (HasPrefix _ _); [by intros [= <-]|].
  destruct (Lstat _) as [info|] eqn:Hst; [|done]. specialize (Hdir _ eq_refl).
  destruct cs as [|c ds _] using rev_ind; [done|].
  rewrite Dir_rel_path by done. fold (rel_dir ds).
  assert (path_comps ds) as Hpd by (by apply path_comps_app in Hcs as [? _]).
  destruct (emitDir_spec ds (S (String.length (rel_dir ds))) mode_0755 st)
    as [Hinv1 Hpre]; [done|by apply length_rel_path|done|].
  destruct (fi_type info); [|done|by intros [= <-]..].
  destruct (Open _); [|done]. intros [= <-]. by apply write_file_inv.
Qed.

(** The archive a fileset sync sends is well formed.  For the files of a
    local index (relative, without climbing components, none a directory),
    every entry of the archive names a path below the root, every directory
    header is written once, and every entry comes after the headers of all its
    parent directories, so extraction never creates a parent implicitly. *)
Theorem TarFilesToWriter_well_formed root files out :
  Forall rel_file files ->
  (forall f info, f ∈ files -> Lstat (PathJoin [Clean root; f]) = Ok info ->
     fi_type info <> Directory) ->
  TarFilesToWriter Lstat Open root files = Ok out ->
  (forall h, h ∈ out -> exists cs, entry_path h cs)
  /\ NoDup (dirs_of out) /\ parents_first out.
Proof.
  intros Hf Hdir. unfold TarFilesToWriter.
  destruct (result_foldl _ _ _) as [st|] eqn:Hfold; [|done]. intros [= <-].
  assert (tar_inv st) as [_ Hnd Hpf Hpaths]; [|done].
  eapply (result_foldl_inv tar_inv); [| |exact Hfold].
  - intros s x s' Hx Hs. rewrite Forall_forall in Hf. apply tar_file_inv; auto.
    intros info. by apply Hdir.
  - constructor; [done|constructor| |]; simpl; [by intros i h cs ds|].
    intros h Hh. by apply not_elem_of_nil in Hh.
Qed.
End TarFilesFacts.

(** *** The files of an archive *)

(** The regular entries: names and contents. *)
Definition regular_files (tar : list TarEntry) : list (string * string) :=
  omap (fun h => match tar_Typeflag h with TypeReg => Some (tar_Name h, tar_Data h) | _ => None end) tar.

Lemma regular_files_app a b : regular_files (a ++ b) = regular_files a ++ regular_files b.
Proof. apply omap_app. Qed.

(** Parent directories are headers only. *)
Lemma emitDir_regular fuel dir mode st :
  regular_files (tw (emitDir fuel dir mode st)) = regular_files (tw st).
Proof.
  revert dir mode st. induction fuel as [|fuel IH]; intros dir mode st; [done|].
  cbn [emitDir]. destruct (_ || _); [done|]. cbv zeta.
  match goal with |- context [if ?b then emitDir fuel ?d ?mo st else st] =>
    set (st1 := if b then emitDir fuel d mo st else st) end.
  assert (regular_files (tw st1) = regular_files (tw st)) as H1.
  { unfold st1. by destruct (_ && _). }
  case_bool_decide; [done|]. cbn [tw]. by rewrite regular_files_app, H1, app_nil_r.
Qed.

Section ArchivedFiles.
Context (Lstat : string -> res FileInfo) (Open : string -> res string).

(** On the host, [path] is a regular file with content [c]. *)
Definition regular_at (path c : string) : Prop :=
  exists perm, Lstat path = Ok (mkInfo Regular perm) /\ Open path = Ok c.

(** The entry an asked path stands for: nothing is packed for an empty path or one
    that climbs out of the root, and nothing that is not a regular file. *)
Definition packed_for (root rel : string) (e : string * string) : Prop :=
  rel <> "" /\ HasPrefix (Clean rel) ".." = false /\ e.1 = Clean rel
  /\ regular_at (PathJoin [root; Clean rel]) e.2.

Lemma tar_file_packs root st rel st' : tar_file Lstat Open root st rel = Ok st' ->
  exists l, regular_files (tw st') = regular_files (tw st) ++ l /\ forall e, e ∈ l <-> packed_for root rel e.
Proof.
  unfold tar_file, packed_for, regular_at. case_bool_decide as Hrel.
  { intros [= <-]. exists []. rewrite app_nil_r. split; [done|]. set_solver. }
  destruct (HasPrefix _ _) eqn:Hup.
  { intros [= <-]. exists []. rewrite app_nil_r. split; [done|]. set_solver. }
  destruct (Lstat _) as [[ty perm]|] eqn:Hst; [|done]. cbn [fi_type]. cbv zeta.
  assert (ty <> Regular -> forall e : string * string,
    e ∈ [] <-> rel <> "" /\ false = false /\ e.1 = Clean rel
      /\ exists perm0, (Ok (mkInfo ty perm) : res FileInfo) = Ok (mkInfo Regular perm0) /\ Open (PathJoin [root; Clean rel]) = Ok e.2) as Hno.
  { intros Hty e. split; [set_solver|]. by intros (_ & _ & _ & perm0 & [= -> _] & _). }
  match goal with |- context [emitDir ?n ?d ?m st] => pose proof (emitDir_regular n d m st) as Hdirs;
    revert Hdirs; generalize (emitDir n d m st) end. intros st1 Hdirs.
  destruct ty.
  - destruct (Open _) as [data|] eqn:Hop; [|done]. intros [= <-]. exists [(Clean rel, data)].
    cbn [tw write_entry]. rewrite regular_files_app, Hdirs. split; [done|].
    intros [p c]. rewrite list_elem_of_singleton. cbn [fst snd]. split; [intros [= -> ->]; split_and!; [done|done|done|by exists perm]|].
    by intros (_ & _ & -> & _ & _ & [= ->]).
  - intros [= <-]. exists []. cbn [tw write_entry]. rewrite regular_files_app, Hdirs.
    split; [done|by apply Hno].
  - intros [= <-]. exists []. rewrite Hdirs, app_nil_r. split; [done|by apply Hno].
  - intros [= <-]. exists []. rewrite Hdirs, app_nil_r. split; [done|by apply Hno].
Qed.

(** The archive holds exactly the asked files that are regular files below the root,
    with the content they have. *)
Lemma TarFilesToWriter_packs root files tar : TarFilesToWriter Lstat Open root files = Ok tar ->
  forall e, e ∈ regular_files tar <-> exists rel, rel ∈ files /\ packed_for (Clean root) rel e.
Proof.
  unfold TarFilesToWriter. destruct (result_foldl _ _ _) as [st|] eqn:Hf; [|done]. intros [= <-] e.
  assert (forall st0, result_foldl (tar_file Lstat Open (Clean root)) st0 files = Ok st ->
    e ∈ regular_files (tw st) <-> e ∈ regular_files (tw st0) \/ exists rel, rel ∈ files /\ packed_for (Clean root) rel e) as Hgen.
  { clear Hf. induction files as [|rel files IH]; intros st0; cbn.
    - intros [= ->]. set_solver.
    - destruct (tar_file _ _ _ _ _) as [st1|] eqn:Ht; [|done]. intros Hf. rewrite (IH st1 Hf).
      destruct (tar_file_packs _ _ _ _ Ht) as (l & -> & Hl). rewrite elem_of_app, Hl. set_solver. }
  rewrite (Hgen _ Hf). set_solver.
Qed.
End ArchivedFiles.

(** A path of a local index: relative, and neither skipped nor cleaned away by the
    archive writer. *)
Definition sync_path (p : string) : Prop := rel_file p /\ HasPrefix p ".." = false.

Lemma sync_path_clean p : sync_path p -> p <> "" /\ Clean p = p /\ HasPrefix p ".." = false.
Proof.
  intros [(cs & Hcs & Hne & ->) Hup]. destruct (rel_dir_ne _ Hcs Hne) as (_ & He & _).
  by rewrite Clean_rel_path.
Qed.

(** Two files of one directory on a host where every path is a regular file. *)
Lemma TarFilesToWriter_well_formed_witness :
  let lstat := fun _ => Ok (mkInfo Regular 420) in
  let open := fun p => Ok p in
  let out := [mkTar "conf/" 493 TypeDir "" ""; mkTar "conf/a" 420 TypeReg "" "/src/conf/a";
              mkTar "conf/b" 420 TypeReg "" "/src/conf/b"] in
  TarFilesToWriter lstat open "/src" ["conf/a"; "conf/b"] = Ok out
  /\ NoDup (dirs_of out) /\ parents_first out.
Proof.
  intros lstat open out. split; [vm_compute; reflexivity|].
  apply (TarFilesToWriter_well_formed lstat open "/src" ["conf/a"; "conf/b"] out).
  - apply Forall_cons; split; [exists ["conf"; "a"] | apply Forall_singleton; exists ["conf"; "b"]];
      split_and!; try done; by apply (bool_decide_unpack _).
  - intros f info _ [= <-]. done.
  - vm_compute. reflexivity.
Defined.
