(* ===== verification/Manifest.v ===== *)
(** * The manifest data model ([internal/manifest/types.go], [loader.go])

    The configuration records, the [context/stack] keys, the merged views of
    discovered and explicit stacks, and the reading of the manifest file:
    locating it and interpolating [${VAR}] placeholders. *)

From S2P Require Import Prelude GoStrings GoPath Apperr.
From Stdlib Require Import Ascii.

(** ** Data *)

Record Project := mkProject { proj_Name : string }.
Record Environment := mkEnvironment { env_Files : list string; env_Inline : list string }.
Record Secrets := mkSecrets { sec_Sops : list string }.

Record SopsAgeConfig := mkAge { age_KeyFile : string; age_Recipients : list string }.
Record SopsPgpConfig := mkPgp {
  pgp_KeyringDir : string; pgp_UseAgent : bool; pgp_PinentryMode : string;
  pgp_Recipients : list string; pgp_Passphrase : string }.
Record SopsConfig := mkSops {
  sops_Age : option SopsAgeConfig; sops_Recipients : list string;
  sops_Pgp : option SopsPgpConfig }.

Record NetworkSpec := mkNetwork {
  net_Driver : string; net_Options : gmap string string; net_Internal : bool;
  net_Attachable : bool; net_IPv6 : bool; net_Subnet : string; net_Gateway : string;
  net_IPRange : string; net_AuxAddresses : gmap string string }.

Record ContextConfig := mkContext {
  ctx_Host : string;
  ctx_Volumes : gmap string unit;
  ctx_Networks : gmap string NetworkSpec }.

Record DeploymentConfig := mkDeployment {
  dep_Description : string; dep_Contexts : list string; dep_Stacks : list string }.

Record DiscoveryConfig := mkDiscovery {
  disc_ComposeFiles : list string; disc_SecretsFile : string;
  disc_EnvironmentFile : string; disc_VolumesDir : string }.

Record Ownership := mkOwnership {
  own_User : string; own_Group : string; own_FileMode : string; own_DirMode : string;
  own_PreserveExisting : bool }.

Record RestartTargets := mkRestart { rt_Attached : bool; rt_Services : list string }.

Record FilesetSpec := mkFileset {
  fs_Source : string; fs_TargetVolume : string; fs_TargetPath : string;
  fs_RestartServices : RestartTargets; fs_ApplyMode : string; fs_Exclude : list string;
  fs_Ownership : option Ownership;
  fs_SourceAbs : string; fs_Context : string; fs_Stack : string }.

Record Stack := mkStack {
  st_Root : string; st_Files : list string; st_EnvFile : list string;
  st_Profiles : list string; st_Environment : option Environment;
  st_Secrets : option Secrets; st_Project : option Project;
  st_Filesets : gmap string FilesetSpec;
  st_Context : string; st_EnvInline : list string; st_SopsSecrets : list string;
  st_RootAbs : string }.

Record Config := mkConfig {
  cfg_Identifier : string;
  cfg_Sops : option SopsConfig;
  cfg_Discovery : DiscoveryConfig;
  cfg_Contexts : gmap string ContextConfig;
  cfg_Deployments : gmap string DeploymentConfig;
  cfg_Stacks : gmap string Stack;
  cfg_BaseDir : string;
  cfg_Targeted : bool;
  cfg_DiscoveredStacks : gmap string Stack;
  cfg_DiscoveredFilesets : gmap string FilesetSpec }.

(** Field updates of [Config] and [Stack]. *)
Definition with_Stacks (s : gmap string Stack) (c : Config) : Config :=
  mkConfig (cfg_Identifier c) (cfg_Sops c) (cfg_Discovery c) (cfg_Contexts c)
    (cfg_Deployments c) s (cfg_BaseDir c) (cfg_Targeted c) (cfg_DiscoveredStacks c)
    (cfg_DiscoveredFilesets c).
Definition with_DiscoveredStacks (s : gmap string Stack) (c : Config) : Config :=
  mkConfig (cfg_Identifier c) (cfg_Sops c) (cfg_Discovery c) (cfg_Contexts c)
    (cfg_Deployments c) (cfg_Stacks c) (cfg_BaseDir c) (cfg_Targeted c) s
    (cfg_DiscoveredFilesets c).
Definition with_DiscoveredFilesets (f : gmap string FilesetSpec) (c : Config) : Config :=
  mkConfig (cfg_Identifier c) (cfg_Sops c) (cfg_Discovery c) (cfg_Contexts c)
    (cfg_Deployments c) (cfg_Stacks c) (cfg_BaseDir c) (cfg_Targeted c)
    (cfg_DiscoveredStacks c) f.
Definition with_Sops (s : option SopsConfig) (c : Config) : Config :=
  mkConfig (cfg_Identifier c) s (cfg_Discovery c) (cfg_Contexts c)
    (cfg_Deployments c) (cfg_Stacks c) (cfg_BaseDir c) (cfg_Targeted c)
    (cfg_DiscoveredStacks c) (cfg_DiscoveredFilesets c).
Definition with_BaseDir (b : string) (c : Config) : Config :=
  mkConfig (cfg_Identifier c) (cfg_Sops c) (cfg_Discovery c) (cfg_Contexts c)
    (cfg_Deployments c) (cfg_Stacks c) b (cfg_Targeted c) (cfg_DiscoveredStacks c)
    (cfg_DiscoveredFilesets c).

(** ** Discovery defaults *)

Definition GetComposeFiles (d : DiscoveryConfig) : list string :=
  match disc_ComposeFiles d with
  | [] => ["compose.yaml"; "compose.yml"; "docker-compose.yaml"; "docker-compose.yml"]
  | fs => fs
  end.
Definition GetSecretsFile (d : DiscoveryConfig) : string :=
  if bool_decide (disc_SecretsFile d = "") then "secrets.env" else disc_SecretsFile d.
Definition GetEnvironmentFile (d : DiscoveryConfig) : string :=
  if bool_decide (disc_EnvironmentFile d = "") then "environment.env"
  else disc_EnvironmentFile d.
Definition GetVolumesDir (d : DiscoveryConfig) : string :=
  if bool_decide (disc_VolumesDir d = "") then "volumes" else disc_VolumesDir d.

(** ** [RestartTargets.UnmarshalYAML]

    The YAML library decodes the node into the requested Go value or fails:
    [as_string], [as_list] and [as_null] are its three answers ([as_null] is
    [Some true] when the node decodes to nil). *)
Definition RestartTargets_UnmarshalYAML (as_string : option string)
    (as_list : option (list string)) (as_null : option bool) : res RestartTargets :=
  let op := "manifest.RestartTargets.UnmarshalYAML" in
  match as_string with
  | Some s =>
      let s2 := TrimSpace (ToLower s) in
      if bool_decide (s2 = "") then Ok (mkRestart false [])
      else if bool_decide (s2 <> "attached") then
        Err (New op InvalidInput
          "restart_services: string value must be 'attached' or a list" [])
      else Ok (mkRestart true [])
  | None =>
      match as_list with
      | Some l => Ok (mkRestart false (dedup (filter (fun v => v <> "") (TrimSpace <$> l))))
      | None =>
          match as_null with
          | Some true => Ok (mkRestart false [])
          | _ => Err (New op InvalidInput
              "restart_services: must be 'attached' or list of service names" [])
          end
      end
  end.

(** ** Keys *)

(** [^[a-z0-9_.-]+$] and [^[a-z0-9_-]+$] *)
Definition key_char (c : ascii) : bool :=
  is_lower_letter c || is_digit c || Ascii.eqb c "_" || Ascii.eqb c "-".
Definition appKeyRegex (s : string) : bool :=
  bool_decide (s <> "") && string_forallb (fun c => key_char c || Ascii.eqb c ".") s.
Definition contextKeyRegex (s : string) : bool :=
  bool_decide (s <> "") && string_forallb key_char s.

Definition ParseStackKey (key : string) : res (string * string) :=
  let op := "manifest.ParseStackKey" in
  match SplitN key slash 2 with
  | [ctx; stack] =>
      if bool_decide (ctx = "") then
        Err (New op InvalidInput "stack key has empty context name: %s" [key])
      else if bool_decide (stack = "") then
        Err (New op InvalidInput "stack key has empty stack name: %s" [key])
      else Ok (ctx, stack)
  | _ => Err (New op InvalidInput
           "stack key must be in 'context/stack' format: %s" [key])
  end.

Definition MakeStackKey (ctx stack : string) : string := ctx +:+ "/" +:+ stack.

(** ** Views of the configuration *)

(** A discovered stack augmented by the explicit one of the same key: discovery
    wins for the root, the files and the env files. *)
Definition merge_stack (existing v : Stack) : Stack :=
  mkStack (st_Root existing) (st_Files existing) (st_EnvFile existing)
    (match st_Profiles v with [] => st_Profiles existing | ps => ps end)
    (match st_Environment v with None => st_Environment existing | e => e end)
    (match st_Secrets v with None => st_Secrets existing | s => s end)
    (match st_Project v with None => st_Project existing | p => p end)
    (st_Filesets existing) (st_Context existing) (st_EnvInline existing)
    (st_SopsSecrets existing) (st_RootAbs existing).

Definition GetAllStacks (c : Config) : gmap string Stack :=
  union_with (fun existing v => Some (merge_stack existing v))
    (cfg_DiscoveredStacks c) (cfg_Stacks c).

Definition GetAllFilesets (c : Config) : gmap string FilesetSpec :=
  cfg_DiscoveredFilesets c.

(** One iteration of the loop of [GetStacksForContext]. *)
Definition stack_of_context (contextName : string) (e : string * Stack)
    (result : gmap string Stack) : gmap string Stack :=
  match ParseStackKey e.1 with
  | Err _ => result
  | Ok (ctx, stackName) =>
      if bool_decide (ctx = contextName) then <[stackName := e.2]> result else result
  end.

Section Ranges.
Context `{MapRange}.

Definition GetStacksForContext (c : Config) (contextName : string) : gmap string Stack :=
  foldr (stack_of_context contextName) ∅
    (map_range ("GetStacksForContext " +:+ contextName) (GetAllStacks c)).

Definition GetFirstContext (c : Config) : string :=
  match map_range "GetFirstContext" (cfg_Contexts c) with
  | (name, _) :: _ => name
  | [] => "default"
  end.

Definition GetAllSopsSecrets (c : Config) : list string :=
  dedup (concat ((fun e => st_SopsSecrets e.2) <$>
    map_range "GetAllSopsSecrets" (GetAllStacks c))).
End Ranges.

Definition GetFilesetsForContext (c : Config) (contextName : string)
  : gmap string FilesetSpec :=
  filter (fun e => fs_Context e.2 = contextName) (GetAllFilesets c).

(** ** Interpolation of [${VAR}] placeholders *)

Definition name_start (c : ascii) : bool :=
  is_upper_letter c || is_lower_letter c || Ascii.eqb c "_".
Definition name_char (c : ascii) : bool := name_start c || is_digit c.

(** The longest prefix of accepted bytes, and the rest. *)
Fixpoint span (f : ascii -> bool) (s : string) : string * string :=
  match s with
  | "" => ("", "")
  | String c r => if f c then let '(a, b) := span f r in (String c a, b) else ("", s)
  end.

(** A match of [envVarPattern] at the start of [s]: the name and what follows. *)
Definition match_placeholder (s : string) : option (string * string) :=
  match strip_prefix "${" s with
  | Some (String c _ as r) =>
      if name_start c then
        let '(name, rest) := span name_char r in
        match strip_prefix "}" rest with
        | Some rest => Some (name, rest)
        | None => None
        end
      else None
  | _ => None
  end.

(** [ReplaceAllStringFunc]: leftmost matches, substituted text not rescanned;
    also the names that were missing, in order of occurrence.  Every step consumes
    a byte, so the length of the input is enough fuel. *)
Fixpoint interpolate_fuel (env : string -> option string) (n : nat) (s : string)
  : string * list string :=
  match n with
  | 0 => (s, [])
  | S n =>
      match s with
      | "" => ("", [])
      | String c r =>
          match match_placeholder s with
          | Some (name, rest) =>
              let '(out, miss) := interpolate_fuel env n rest in
              match env name with
              | Some val => (val +:+ out, miss)
              | None => (out, name :: miss)
              end
          | None => let '(out, miss) := interpolate_fuel env n r in (String c out, miss)
          end
      end
  end.

(** The interpolated text and the sorted names of the unset variables. *)
Definition interpolateEnvPlaceholders (env : string -> option string) (s : string)
  : string * list string :=
  let '(out, miss) := interpolate_fuel env (String.length s) s in
  (out, sort_strings (dedup miss)).

(** ** Locating the manifest *)

(** [os.Stat]: found (a directory or not), not found, or another error. *)
Inductive StatResult := StatOk (isDir : bool) | StatNotExist | StatErr (e : error).

Definition config_names : list string :=
  ["dockform.yml"; "dockform.yaml"; "Dockform.yml"; "Dockform.yaml"].

(** The file system and the environment of the process. *)
Record Host := mkHost {
  os_Stat : string -> StatResult;
  os_ReadDir : string -> res (list (string * bool));  (* name, is a directory *)
  os_ReadFile : string -> res string;
  os_Getwd : res string;
  os_LookupEnv : string -> option string;
}.

(** The loop over the candidate names in a directory. *)
Fixpoint first_config (h : Host) (dir : string) (names : list string)
  : res (option string) :=
  match names with
  | [] => Ok None
  | name :: names =>
      let candidate := PathJoin [dir; name] in
      match os_Stat h candidate with
      | StatOk _ => Ok (Some candidate)
      | StatNotExist => first_config h dir names
      | StatErr e =>
          Err (wrap "manifest.resolveConfigPath" Internal e "stat %s" [candidate])
      end
  end.

Definition resolveConfigPath (h : Host) (path : string) : res string :=
  let op := "manifest.resolveConfigPath" in
  if bool_decide (path <> "") then
    match os_Stat h path with
    | StatOk true =>
        match first_config h path config_names with
        | Err e => Err e
        | Ok (Some candidate) => Ok candidate
        | Ok None => Err (New op NotFound
            "no config file found in %s (looked for dockform.yml, dockform.yaml, Dockform.yml, Dockform.yaml)" [path])
        end
    | _ => Ok path
    end
  else
    match os_Getwd h with
    | Err e => Err (wrap op Internal e "getwd" [])
    | Ok cwd =>
        match first_config h cwd config_names with
        | Err e => Err e
        | Ok (Some candidate) => Ok candidate
        | Ok None => Err (New op NotFound
            "no config file found (looked for dockform.yml, dockform.yaml, Dockform.yml, Dockform.yaml)" [])
        end
    end.

(** [filepath.Abs] *)
Definition Abs (h : Host) (p : string) : res string :=
  if IsAbs p then Ok (Clean p)
  else match os_Getwd h with Ok cwd => Ok (PathJoin [cwd; p]) | Err e => Err e end.

Definition RenderWithWarnings (h : Host) (path : string) : res (string * list string) :=
  match resolveConfigPath h path with
  | Err e => Err e
  | Ok guessed =>
      match Abs h guessed with
      | Err e => Err (wrap "manifest.Render" InvalidInput e "abs path" [])
      | Ok guessedAbs =>
          match os_ReadFile h guessedAbs with
          | Err e => Err (wrap "manifest.Render" NotFound e "read config" [])
          | Ok b => Ok (interpolateEnvPlaceholders (os_LookupEnv h) b)
          end
      end
  end.

Definition RenderWithWarningsAndPath (h : Host) (path : string)
  : res (string * string * list string) :=
  match resolveConfigPath h path with
  | Err e => Err e
  | Ok guessed =>
      match Abs h guessed with
      | Err e => Err (wrap "manifest.Render" InvalidInput e "abs path" [])
      | Ok guessedAbs =>
          match os_ReadFile h guessedAbs with
          | Err e => Err (wrap "manifest.Render" NotFound e "read config" [])
          | Ok b =>
              let '(interpolated, missing) :=
                interpolateEnvPlaceholders (os_LookupEnv h) b in
              let relPath :=
                match os_Getwd h with
                | Err _ => Base guessedAbs
                | Ok cwd => default (Base guessedAbs) (Rel cwd guessedAbs)
                end in
              Ok (interpolated, relPath, missing)
          end
      end
  end.

(** [Render]: the text, and the warnings printed to stderr. *)
Definition missing_warning (name : string) : string :=
  Sprintf "warning: environment variable %s is not set; replacing with empty string" [name].

Definition Render (h : Host) (path : string) : res (string * list string) :=
  match RenderWithWarnings h path with
  | Err e => Err e
  | Ok (interpolated, missing) => Ok (interpolated, missing_warning <$> missing)
  end.

(** ** Properties of keys *)

Lemma contextKeyRegex_free s : contextKeyRegex s = true -> s <> "" /\ free slash s.
Proof.
  unfold contextKeyRegex. intros [H1 H2]%andb_true_iff. boolify. split; [done|].
  rewrite string_forallb_forall in H2. intros Hs. by apply H2 in Hs.
Qed.

Lemma appKeyRegex_free s : appKeyRegex s = true -> s <> "" /\ free slash s.
Proof.
  unfold appKeyRegex. intros [H1 H2]%andb_true_iff. boolify. split; [done|].
  rewrite string_forallb_forall in H2. intros Hs. by apply H2 in Hs.
Qed.

Lemma ParseStackKey_Ok key c s :
  ParseStackKey key = Ok (c, s) <->
  key = MakeStackKey c s /\ c <> "" /\ free slash c /\ s <> "".
Proof.
  unfold ParseStackKey, MakeStackKey. cbn [SplitN]. split.
  - destruct (Cut key slash) as [[a b]|] eqn:Hc; [|done].
    apply Cut_Some in Hc as [Hf ->]. do 2 (case_bool_decide; [done|]).
    intros [= <- <-]. done.
  - intros (-> & Hc & Hf & Hs).
    rewrite (proj2 (Cut_Some _ slash c s)) by done.
    by rewrite !bool_decide_false by done.
Qed.

(** Stack keys round trip.  A key is accepted exactly when it is the key
    [MakeStackKey] makes of the two non-empty components returned, the first of
    them without a slash: parsing undoes making, and making undoes parsing. *)
Theorem ParseStackKey_MakeStackKey key c s :
  ParseStackKey key = Ok (c, s) <->
  key = MakeStackKey c s /\ c <> "" /\ free slash c /\ s <> "".
Proof. apply ParseStackKey_Ok. Qed.

Lemma MakeStackKey_inj c s c' s' :
  free slash c -> free slash c' -> MakeStackKey c s = MakeStackKey c' s' ->
  c = c' /\ s = s'.
Proof.
  intros Hc Hc' H.
  assert (Cut (MakeStackKey c s) slash = Some (c, s)) as H1 by (by apply Cut_Some).
  assert (Cut (MakeStackKey c' s') slash = Some (c', s')) as H2 by (by apply Cut_Some).
  rewrite H in H1. naive_solver.
Qed.

(** ** Properties of the views *)

Lemma lookup_GetAllStacks c k :
  GetAllStacks c !! k =
    match cfg_DiscoveredStacks c !! k, cfg_Stacks c !! k with
    | Some d, Some v => Some (merge_stack d v)
    | Some d, None => Some d
    | None, o => o
    end.
Proof.
  unfold GetAllStacks. rewrite lookup_union_with.
  by destruct (cfg_DiscoveredStacks c !! k), (cfg_Stacks c !! k).
Qed.

Lemma foldr_stack_of_context ctx l name v :
  ctx <> "" -> free slash ctx -> name <> "" ->
  NoDup l.*1 ->
  foldr (stack_of_context ctx) ∅ l !! name = Some v <->
  (MakeStackKey ctx name, v) ∈ l.
Proof.
  intros Hctx Hf Hname. induction l as [|[k st] l IH]; intros Hnd; simpl.
  { rewrite lookup_empty. split; [done|]. by intros ?%not_elem_of_nil. }
  apply NoDup_cons in Hnd as [Hk Hnd]. rewrite elem_of_cons. specialize (IH Hnd).
  assert (ParseStackKey (MakeStackKey ctx name) = Ok (ctx, name)) as Hp
    by (by apply ParseStackKey_Ok).
  unfold stack_of_context at 1. cbn [fst snd].
  destruct (ParseStackKey k) as [[c s]|] eqn:Hpk.
  - apply ParseStackKey_Ok in Hpk as (-> & Hc & Hcf & Hs).
    case_bool_decide as Hcc; [subst c|].
    + destruct (decide (s = name)) as [->|Hne].
      * rewrite lookup_insert_eq. split; [intros [= ->]; by left|].
        intros [[= ->]|Hin]; [done|]. exfalso. apply Hk.
        apply list_elem_of_fmap. by exists (MakeStackKey ctx name, v).
      * rewrite lookup_insert_ne by done. rewrite IH. split; [by right|].
        intros [[= He _]|?]; [|done]. apply MakeStackKey_inj in He as [_ ?]; naive_solver.
    + rewrite IH. split; [by right|]. intros [[= He _]|?]; [|done].
      apply MakeStackKey_inj in He as [? _]; naive_solver.
  - rewrite IH. split; [by right|]. intros [[= He _]|?]; [|done].
    rewrite <- He in Hpk. by rewrite Hp in Hpk.
Qed.

(** The stacks of a context.  For every iteration order of the Go map, the
    stack [name] of a context is the merged stack under the key [context/name];
    no stack is lost, duplicated or attributed to another context. *)
Theorem GetStacksForContext_lookup `{MapRange} c ctx name :
  contextKeyRegex ctx = true -> name <> "" ->
  GetStacksForContext c ctx !! name = GetAllStacks c !! MakeStackKey ctx name.
Proof.
  intros [Hne Hf]%contextKeyRegex_free Hname. apply option_eq. intros v.
  unfold GetStacksForContext. rewrite foldr_stack_of_context; try done.
  - apply elem_of_map_range.
  - apply NoDup_map_range.
Qed.

(** A stack with nothing set, and an empty configuration. *)
Definition empty_stack : Stack :=
  mkStack "" [] [] [] None None None ∅ "" [] [] "".
Definition empty_config : Config :=
  mkConfig "id" None (mkDiscovery [] "" "" "") ∅ ∅ ∅ "/base" false ∅ ∅.

Lemma GetStacksForContext_lookup_witness :
  let c := with_Stacks {["prod/web" := empty_stack]} empty_config in
  GetStacksForContext c "prod" !! "web" = Some empty_stack.
Proof.
  intros c. rewrite GetStacksForContext_lookup; [|reflexivity|discriminate].
  vm_compute. reflexivity.
Defined.

(** The merge drops what it does not list: the filesets declared for a stack that
    discovery also found. *)
Lemma merge_stack_filesets d v : st_Filesets (merge_stack d v) = st_Filesets d.
Proof. done. Qed.

Lemma elem_of_GetFilesetsForContext c ctx k f :
  GetFilesetsForContext c ctx !! k = Some f <->
  cfg_DiscoveredFilesets c !! k = Some f /\ fs_Context f = ctx.
Proof. unfold GetFilesetsForContext. by rewrite map_lookup_filter_Some. Qed.

(** ** Properties of interpolation *)

(** A manifest text as literals and placeholders. *)
Inductive token := Lit (s : string) | Var (name : string).

Definition var_name (n : string) : Prop :=
  match n with "" => False | String c r => name_start c = true /\ string_forallb name_char r = true end.

Definition valid_token (t : token) : Prop :=
  match t with Lit s => free "$" s | Var n => var_name n end.

Definition render_token (t : token) : string :=
  match t with Lit s => s | Var n => "${" +:+ n +:+ "}" end.
Definition render_tokens (ts : list token) : string := foldr (fun t s => render_token t +:+ s) "" ts.

Definition subst_token (env : string -> option string) (t : token) : string :=
  match t with Lit s => s | Var n => default "" (env n) end.
Definition subst_tokens (env : string -> option string) (ts : list token) : string :=
  foldr (fun t s => subst_token env t +:+ s) "" ts.

Definition unset_vars (env : string -> option string) (ts : list token) : list string :=
  omap (fun t => match t with
                 | Lit _ => None
                 | Var n => match env n with Some _ => None | None => Some n end
                 end) ts.

Lemma span_app f a b :
  string_forallb f a = true -> match b with "" => True | String c _ => f c = false end ->
  span f (a +:+ b) = (a, b).
Proof.
  intros Ha Hb. induction a as [|c a IH].
  - rewrite string_app_nil_l. destruct b as [|c b]; [done|]. simpl. by rewrite Hb.
  - simpl in Ha. apply andb_true_iff in Ha as [Hc Ha]. rewrite string_app_cons. simpl.
    by rewrite Hc, IH.
Qed.

Lemma match_placeholder_var n s : var_name n ->
  match_placeholder ("${" +:+ n +:+ "}" +:+ s) = Some (n, s).
Proof.
  intros Hn. unfold match_placeholder. rewrite strip_prefix_app.
  destruct n as [|c r]; [done|]. destruct Hn as [Hc Hr]. rewrite string_app_cons.
  rewrite Hc. rewrite <- string_app_cons, (span_app name_char).
  - by rewrite (strip_prefix_app "}").
  - simpl. rewrite Hr, andb_true_r. unfold name_char. by rewrite Hc.
  - done.
Qed.

Lemma match_placeholder_lit c s : c <> "$"%char -> match_placeholder (String c s) = None.
Proof.
  intros Hc. unfold match_placeholder. cbn [strip_prefix].
  by rewrite (proj2 (Ascii.eqb_neq _ _)) by done.
Qed.

Lemma interpolate_fuel_tokens env ts n :
  Forall valid_token ts -> String.length (render_tokens ts) <= n ->
  interpolate_fuel env n (render_tokens ts) = (subst_tokens env ts, unset_vars env ts).
Proof.
  intros Hts. revert n. induction Hts as [|t ts Ht Hts IH]; intros n Hn; [by destruct n|].
  cbn [render_tokens foldr] in *. fold (render_tokens ts) in *. fold (subst_tokens env ts) in *.
  destruct t as [s|v]; cbn [render_token] in *.
  - (* a literal, byte by byte *)
    cbn [subst_tokens foldr subst_token unset_vars omap list_omap].
    fold (subst_tokens env ts). cbn [valid_token] in Ht.
    revert n Hn. induction s as [|c s IHs]; intros n Hn.
    { rewrite string_app_nil_l in *. by apply IH. }
    apply free_cons in Ht as [Hc Hs]. rewrite string_app_cons in *. simpl in Hn.
    destruct n as [|n]; [lia|]. cbn [interpolate_fuel].
    rewrite match_placeholder_lit by done.
    rewrite IHs by (done || lia). by rewrite string_app_cons.
  - (* a placeholder *)
    assert (String.length (render_tokens ts) + 3 <= n) as Hl
      by (rewrite !string_length_app in Hn; simpl in Hn; lia).
    destruct n as [|n]; [lia|].
    rewrite !string_app_assoc.
    change ("${" +:+ v +:+ "}" +:+ render_tokens ts)
      with (String "$" ("{" +:+ v +:+ "}" +:+ render_tokens ts)).
    cbn [interpolate_fuel].
    change (String "$" ("{" +:+ v +:+ "}" +:+ render_tokens ts))
      with ("${" +:+ v +:+ "}" +:+ render_tokens ts).
    rewrite match_placeholder_var by done. rewrite IH by lia.
    cbn [subst_tokens foldr subst_token unset_vars omap list_omap].
    by destruct (env v).
Qed.

(** Interpolation substitutes exactly the placeholders.  On a manifest made of
    literal text and [${VAR}] placeholders, the result is the text with every
    placeholder replaced by the value of its variable, by nothing when it is
    unset; substituted values are not scanned again; and the reported missing
    names are exactly the unset variables, sorted and without duplicates. *)
Theorem interpolate_tokens env ts :
  Forall valid_token ts ->
  interpolateEnvPlaceholders env (render_tokens ts)
  = (subst_tokens env ts, sort_strings (dedup (unset_vars env ts))).
Proof.
  intros Hts. unfold interpolateEnvPlaceholders.
  by rewrite interpolate_fuel_tokens.
Qed.

Lemma interpolate_tokens_witness :
  let env := fun n => if bool_decide (n = "KEY") then Some "${HOME}" else None in
  interpolateEnvPlaceholders env "a: ${KEY} ${B} ${A} ${B}"
  = ("a: ${HOME}   ", ["A"; "B"]).
Proof.
  intros env.
  set (ts := [Lit "a: "; Var "KEY"; Lit " "; Var "B"; Lit " "; Var "A"; Lit " "; Var "B"]).
  trans (subst_tokens env ts, sort_strings (dedup (unset_vars env ts))).
  - apply (interpolate_tokens env ts).
    repeat apply Forall_cons_2; try apply Forall_nil_2;
      solve [ by apply (bool_decide_unpack _) | split; reflexivity ].
  - vm_compute. reflexivity.
Defined.
