(* ===== verification/Discovery.v ===== *)
(** * Convention discovery ([internal/manifest/loader.go])

    Stacks and filesets found from the directory layout: a directory per context
    under the manifest's, a directory per stack under it, and a directory per
    fileset under the stack's volumes directory. *)

From S2P Require Import Prelude GoStrings GoPath Apperr Manifest.

(** ** Looking for files *)

Definition stat_ok (h : Host) (p : string) : bool :=
  match os_Stat h p with StatOk _ => true | _ => false end.

Fixpoint findComposeFile (h : Host) (dir : string) (candidates : list string) : string :=
  match candidates with
  | [] => ""
  | name :: rest =>
      let path := PathJoin [dir; name] in
      if stat_ok h path then path else findComposeFile h dir rest
  end.

Definition findSecretsFile (h : Host) (dir filename : string) : string :=
  let path := PathJoin [dir; filename] in if stat_ok h path then path else "".

Definition findEnvFile (h : Host) (dir filename : string) : string :=
  let path := PathJoin [dir; filename] in if stat_ok h path then path else "".

(** ** Filesets of a stack *)

(** The fileset of one entry of the volumes directory, with its key. *)
Definition discovered_fileset (contextName stackName volumesDir volumeName : string)
  : string * FilesetSpec :=
  let sourceDir := PathJoin [volumesDir; volumeName] in
  (Sprintf "%s/%s/%s" [contextName; stackName; volumeName],
   mkFileset sourceDir (stackName +:+ "_" +:+ volumeName) "/" (mkRestart true []) "hot" []
     None sourceDir contextName stackName).

Definition add_fileset (contextName stackName volumesDir : string) (c : Config)
    (entry : string * bool) : Config :=
  if entry.2 then
    let '(k, f) := discovered_fileset contextName stackName volumesDir entry.1 in
    with_DiscoveredFilesets (<[k := f]> (cfg_DiscoveredFilesets c)) c
  else c.

Definition discoverFilesets (h : Host) (c : Config)
    (contextName stackName stackDir : string) : res Config :=
  let volumesDir := PathJoin [stackDir; GetVolumesDir (cfg_Discovery c)] in
  match os_Stat h volumesDir with
  | StatNotExist => Ok c
  | StatErr e =>
      Err (wrap "manifest.discoverFilesets" Internal e "stat volumes dir %s" [volumesDir])
  | StatOk false => Ok c
  | StatOk true =>
      match os_ReadDir h volumesDir with
      | Err e =>
          Err (wrap "manifest.discoverFilesets" Internal e "read volumes dir %s" [volumesDir])
      | Ok entries => Ok (foldl (add_fileset contextName stackName volumesDir) c entries)
      end
  end.

(** ** Stacks of a context *)

(** The secrets of a stack: the context's, rebased on the stack directory, then
    the stack's own. *)
Definition sops_secrets (stackDir contextSecrets stackSecrets : string) : list string :=
  (if bool_decide (contextSecrets <> "")
   then [default contextSecrets (Rel stackDir contextSecrets)] else [])
  ++ (if bool_decide (stackSecrets <> "") then [Base stackSecrets] else []).

(** The stack of a directory, when it has a compose file. *)
Definition discovered_stack (h : Host) (d : DiscoveryConfig)
    (contextName stackDir contextSecrets : string) : option Stack :=
  let composeFile := findComposeFile h stackDir (GetComposeFiles d) in
  if bool_decide (composeFile = "") then None else
  let stackSecrets := findSecretsFile h stackDir (GetSecretsFile d) in
  let envFile := findEnvFile h stackDir (GetEnvironmentFile d) in
  Some (mkStack stackDir [composeFile]
    (if bool_decide (envFile <> "") then [Base envFile] else [])
    [] None None None ∅ contextName []
    (sops_secrets stackDir contextSecrets stackSecrets) "").

(** One entry of a context directory. *)
Definition discover_entry (h : Host) (contextName contextDir contextSecrets : string)
    (c : Config) (entry : string * bool) : res Config :=
  let '(stackName, isDir) := entry in
  if negb isDir then Ok c else
  let stackDir := PathJoin [contextDir; stackName] in
  match discovered_stack h (cfg_Discovery c) contextName stackDir contextSecrets with
  | None => Ok c
  | Some stack =>
      let c := with_DiscoveredStacks
                 (<[MakeStackKey contextName stackName := stack]> (cfg_DiscoveredStacks c)) c in
      discoverFilesets h c contextName stackName stackDir
  end.

(** One declared context. *)
Definition discover_context (h : Host) (baseDir : string) (c : Config)
    (ctx : string * ContextConfig) : res Config :=
  let contextName := ctx.1 in
  let contextDir := PathJoin [baseDir; contextName] in
  match os_Stat h contextDir with
  | StatNotExist => Ok c
  | StatErr e =>
      Err (wrap "manifest.discoverResources" Internal e "stat context dir %s" [contextDir])
  | StatOk false => Ok c
  | StatOk true =>
      let contextSecrets := findSecretsFile h contextDir (GetSecretsFile (cfg_Discovery c)) in
      match os_ReadDir h contextDir with
      | Err e =>
          Err (wrap "manifest.discoverResources" Internal e "read context dir %s" [contextDir])
      | Ok entries =>
          result_foldl (discover_entry h contextName contextDir contextSecrets) c entries
      end
  end.

Definition discoverResources `{MapRange} (h : Host) (c : Config) (baseDir : string)
  : res Config :=
  result_foldl (discover_context h baseDir) c
    (map_range "discoverResources" (cfg_Contexts c)).

(** ** What discovery leaves alone *)

(** Everything but the discovered maps. *)
Definition same_declared (c c' : Config) : Prop :=
  cfg_Identifier c = cfg_Identifier c' /\ cfg_Sops c = cfg_Sops c'
  /\ cfg_Discovery c = cfg_Discovery c' /\ cfg_Contexts c = cfg_Contexts c'
  /\ cfg_Deployments c = cfg_Deployments c' /\ cfg_Stacks c = cfg_Stacks c'
  /\ cfg_BaseDir c = cfg_BaseDir c' /\ cfg_Targeted c = cfg_Targeted c'.

#[global] Instance same_declared_equiv : Equivalence same_declared.
Proof.
  split; unfold same_declared.
  - by intros ?.
  - intros ?? (?&?&?&?&?&?&?&?). by split_and!.
  - intros ??? (?&?&?&?&?&?&?&?) (?&?&?&?&?&?&?&?). split_and!; congruence.
Qed.

Lemma foldl_add_fileset_declared ctx s vd c l :
  same_declared c (foldl (add_fileset ctx s vd) c l)
  /\ cfg_DiscoveredStacks (foldl (add_fileset ctx s vd) c l) = cfg_DiscoveredStacks c.
Proof.
  revert c. induction l as [|[n []] l IH]; intros c; [done| |apply IH].
  destruct (IH (add_fileset ctx s vd c (n, true))) as [H1 H2].
  simpl in *. split; [etrans; [|exact H1]; done|by rewrite H2].
Qed.

Lemma discoverFilesets_declared h c ctx s d c' :
  discoverFilesets h c ctx s d = Ok c' ->
  same_declared c c' /\ cfg_DiscoveredStacks c' = cfg_DiscoveredStacks c.
Proof.
  unfold discoverFilesets. destruct (os_Stat _ _) as [[]| |]; try naive_solver.
  destruct (os_ReadDir _ _) as [l|]; [|done]. intros [= <-].
  apply foldl_add_fileset_declared.
Qed.

Lemma discover_entry_declared h ctx cd cs c e c' :
  discover_entry h ctx cd cs c e = Ok c' -> same_declared c c'.
Proof.
  destruct e as [n isDir]. unfold discover_entry. destruct isDir; [|by intros [= <-]].
  destruct (discovered_stack _ _ _ _ _); [|by intros [= <-]].
  intros [H _]%discoverFilesets_declared. exact H.
Qed.

Lemma result_foldl_declared {A} (f : Config -> A -> res Config) c l c' :
  (forall c x c', f c x = Ok c' -> same_declared c c') ->
  result_foldl f c l = Ok c' -> same_declared c c'.
Proof.
  intros Hf. eapply (result_foldl_inv (same_declared c)); [|reflexivity].
  intros s x s' _ Hs Hx. etrans; [exact Hs|eauto].
Qed.

Lemma discover_context_declared h b c x c' :
  discover_context h b c x = Ok c' -> same_declared c c'.
Proof.
  unfold discover_context. destruct (os_Stat _ _) as [[]| |]; try (by intros [= <-]).
  destruct (os_ReadDir _ _); [|done].
  apply result_foldl_declared. apply discover_entry_declared.
Qed.

(** ** Which stack, if any, is found for a context and a name *)

Definition found_stack (h : Host) (d : DiscoveryConfig) (baseDir ctx name : string)
  : option Stack :=
  let contextDir := PathJoin [baseDir; ctx] in
  match os_Stat h contextDir, os_ReadDir h contextDir with
  | StatOk true, Ok entries =>
      if bool_decide ((name, true) ∈ entries) then
        discovered_stack h d ctx (PathJoin [contextDir; name])
          (findSecretsFile h contextDir (GetSecretsFile d))
      else None
  | _, _ => None
  end.

(** What [os.ReadDir] documents: the names of a directory are distinct. *)
Definition readdir_ok (h : Host) : Prop :=
  forall p es, os_ReadDir h p = Ok es -> NoDup es.*1.

Section DiscoveryFacts.
Context (h : Host) (Hrd : readdir_ok h).

Lemma discover_entry_lookup ctx cd cs c n isDir c' ctx' name :
  free slash ctx -> free slash ctx' ->
  discover_entry h ctx cd cs c (n, isDir) = Ok c' ->
  cfg_DiscoveredStacks c' !! MakeStackKey ctx' name =
    (if bool_decide (ctx = ctx' /\ n = name /\ isDir = true)
     then discovered_stack h (cfg_Discovery c) ctx (PathJoin [cd; n]) cs else None)
    ∪ cfg_DiscoveredStacks c !! MakeStackKey ctx' name.
Proof.
  intros Hf Hf'. unfold discover_entry. destruct isDir; cbn [negb].
  2:{ intros [= <-]. rewrite bool_decide_false by naive_solver. by rewrite (left_id_L None _). }
  destruct (discovered_stack _ _ _ _ _) as [st|] eqn:Hd.
  - intros [_ ->]%discoverFilesets_declared. cbn [cfg_DiscoveredStacks with_DiscoveredStacks].
    case_bool_decide as Hb.
    + destruct Hb as (-> & -> & _). by rewrite lookup_insert_eq, union_Some_l.
    + rewrite lookup_insert_ne, (left_id_L None _); [done|].
      intros [-> ->]%MakeStackKey_inj; naive_solver.
  - intros [= <-]. by case_bool_decide; rewrite (left_id_L None _).
Qed.

Lemma discover_entries_lookup ctx cd cs es c c' ctx' name :
  free slash ctx -> free slash ctx' -> NoDup es.*1 ->
  result_foldl (discover_entry h ctx cd cs) c es = Ok c' ->
  cfg_DiscoveredStacks c' !! MakeStackKey ctx' name =
    (if bool_decide (ctx = ctx' /\ (name, true) ∈ es)
     then discovered_stack h (cfg_Discovery c) ctx (PathJoin [cd; name]) cs else None)
    ∪ cfg_DiscoveredStacks c !! MakeStackKey ctx' name.
Proof.
  intros Hf Hf'. revert c. induction es as [|[n d] es IH]; intros c Hnd; cbn [result_foldl].
  { intros [= <-]. rewrite bool_decide_false; [by rewrite (left_id_L None _)|].
    intros [_ Hin]. by apply not_elem_of_nil in Hin. }
  apply NoDup_cons in Hnd as [Hn Hnd].
  destruct (discover_entry _ _ _ _ _ _) as [c1|] eqn:He; [|done]. intros Hr.
  pose proof (discover_entry_declared _ _ _ _ _ _ _ He) as (_ & _ & Hdisc & _).
  rewrite (IH _ Hnd Hr), <- Hdisc.
  rewrite (discover_entry_lookup _ _ _ _ _ _ _ _ _ Hf Hf' He).
  destruct (decide (ctx = ctx' /\ (name, true) ∈ es)) as [[-> Hin]|Hno].
  - rewrite !(bool_decide_true (_ /\ (name, true) ∈ _)) by (split; [done|set_solver]).
    rewrite (bool_decide_false (_ /\ _ /\ _)); [by rewrite (left_id_L None _)|].
    intros (_ & -> & _). apply Hn. apply list_elem_of_fmap. by exists (name, true).
  - rewrite (bool_decide_false (ctx = ctx' /\ (name, true) ∈ es)) by done.
    rewrite (left_id_L None _). f_equal.
    destruct (decide (ctx = ctx' /\ n = name /\ d = true)) as [(-> & -> & ->)|Hno'].
    + rewrite (bool_decide_true (_ /\ _ /\ _)) by done.
      rewrite (bool_decide_true (_ /\ (name, true) ∈ _)); [done|].
      split; [done|apply list_elem_of_here].
    + rewrite (bool_decide_false (_ /\ _ /\ _)) by done.
      rewrite (bool_decide_false (_ /\ (name, true) ∈ _)); [done|].
      intros [-> [[= -> <-]|?]%elem_of_cons]; naive_solver.
Qed.

Lemma discover_context_lookup b c x c' ctx name :
  free slash x.1 -> free slash ctx ->
  discover_context h b c x = Ok c' ->
  cfg_DiscoveredStacks c' !! MakeStackKey ctx name =
    (if bool_decide (x.1 = ctx) then found_stack h (cfg_Discovery c) b ctx name else None)
    ∪ cfg_DiscoveredStacks c !! MakeStackKey ctx name.
Proof.
  intros Hx Hf. unfold discover_context, found_stack. destruct x as [x cc]. cbn [fst] in *.
  destruct (decide (x = ctx)) as [->|Hne].
  - rewrite bool_decide_true by done. cbv zeta.
    destruct (os_Stat h (PathJoin [b; ctx])) as [[]| |];
      try (intros [= <-]; by rewrite (left_id_L None _)).
    destruct (os_ReadDir h _) as [es|] eqn:Hes; [|done].
    intros H. rewrite (discover_entries_lookup _ _ _ _ _ _ _ _ Hx Hf (Hrd _ _ Hes) H).
    destruct (decide ((name, true) ∈ es)); by rewrite ?bool_decide_true, ?bool_decide_false by naive_solver.
  - rewrite bool_decide_false by done. rewrite (left_id_L None _).
    destruct (os_Stat h _) as [[]| |]; try (by intros [= <-]).
    destruct (os_ReadDir h _) as [es|] eqn:Hes; [|done].
    intros H. rewrite (discover_entries_lookup _ _ _ _ _ _ _ _ Hx Hf (Hrd _ _ Hes) H).
    rewrite bool_decide_false by naive_solver. by rewrite (left_id_L None _).
Qed.

Lemma discover_contexts_lookup b l c c' ctx name :
  Forall (fun x => free slash x.1) l -> free slash ctx ->
  NoDup l.*1 ->
  result_foldl (discover_context h b) c l = Ok c' ->
  cfg_DiscoveredStacks c' !! MakeStackKey ctx name =
    (if bool_decide (ctx ∈ l.*1) then found_stack h (cfg_Discovery c) b ctx name else None)
    ∪ cfg_DiscoveredStacks c !! MakeStackKey ctx name.
Proof.
  intros Hl Hf. revert c. induction Hl as [|x l Hx Hl IH]; intros c Hnd; cbn [result_foldl].
  { intros [= <-]. rewrite bool_decide_false by set_solver. by rewrite (left_id_L None _). }
  apply NoDup_cons in Hnd as [Hn Hnd].
  destruct (discover_context _ _ _ _) as [c1|] eqn:He; [|done]. intros Hr.
  pose proof (discover_context_declared _ _ _ _ _ He) as (_ & _ & Hdisc & _).
  rewrite (IH _ Hnd Hr), <- Hdisc, (discover_context_lookup _ _ _ _ _ _ Hx Hf He).
  rewrite fmap_cons. destruct (decide (ctx ∈ l.*1)) as [Hin|Hin].
  - rewrite !(bool_decide_true (ctx ∈ _)) by set_solver.
    rewrite bool_decide_false by naive_solver. by rewrite (left_id_L None _).
  - rewrite (bool_decide_false (ctx ∈ l.*1)) by done. rewrite (left_id_L None _).
    f_equal. destruct (decide (x.1 = ctx)) as [<-|?].
    + by rewrite !bool_decide_true by (done || set_solver).
    + by rewrite !bool_decide_false by (done || set_solver).
Qed.
End DiscoveryFacts.

(** What is discovered is what is found. *)
Lemma discoverResources_lookup `{MapRange} h c b c' :
  readdir_ok h ->
  (forall ctx, is_Some (cfg_Contexts c !! ctx) -> contextKeyRegex ctx = true) ->
  cfg_DiscoveredStacks c = ∅ ->
  discoverResources h c b = Ok c' ->
  forall ctx name, contextKeyRegex ctx = true ->
       cfg_DiscoveredStacks c' !! MakeStackKey ctx name =
         if bool_decide (is_Some (cfg_Contexts c !! ctx))
         then found_stack h (cfg_Discovery c) b ctx name else None.
Proof.
  intros Hrd Hctx Hempty Hd. unfold discoverResources in Hd.
  intros ctx name [_ Hf]%contextKeyRegex_free.
  assert (Hk : forall k, k ∈ (map_range "discoverResources" (cfg_Contexts c)).*1 <->
    is_Some (cfg_Contexts c !! k)).
  { intros k. rewrite list_elem_of_fmap. split.
    - intros ([k' v] & -> & Hin). apply elem_of_map_range in Hin. by eexists.
    - intros [v Hv]. exists (k, v). by rewrite elem_of_map_range. }
  rewrite (discover_contexts_lookup h Hrd b _ _ _ ctx name) with (4 := Hd);
    [|..|done|apply NoDup_map_range].
  - rewrite Hempty, lookup_empty, (right_id_L None _).
    by rewrite (bool_decide_ext _ _ (Hk ctx)).
  - apply Forall_forall. intros x Hx.
    apply contextKeyRegex_free, Hctx, Hk, list_elem_of_fmap. by exists x.
Qed.

(** ** The convention *)

Definition present (h : Host) (p : string) : Prop := exists isDir, os_Stat h p = StatOk isDir.
(** One entry when something is so, and none otherwise. *)
Definition listed_if {A} (P : Prop) (x : A) (l : list A) : Prop := (P -> l = [x]) /\ (~ P -> l = []).
(** What the manifest names, or the usual name. *)
Definition named (given usual : string) : string := if decide (given = "") then usual else given.
Definition compose_names (d : DiscoveryConfig) : list string :=
  if decide (disc_ComposeFiles d = [])
  then ["compose.yaml"; "compose.yml"; "docker-compose.yaml"; "docker-compose.yml"] else disc_ComposeFiles d.

(** The layout says that [st] is the stack [name] of the context [ctx]: it is the
    sub-directory of that name in the directory of the context; of the possible names the
    first one present there is its compose file; its environment file and its own secrets
    file are named when they are present, after the secrets file of the context, seen
    from the directory of the stack; nothing else is set. *)
Record layout (h : Host) (d : DiscoveryConfig) (baseDir ctx name : string) (st : Stack) : Prop := {
  la_context : os_Stat h (PathJoin [baseDir; ctx]) = StatOk true;
  la_entry : exists entries, os_ReadDir h (PathJoin [baseDir; ctx]) = Ok entries /\ (name, true) ∈ entries;
  la_root : st_Root st = PathJoin [PathJoin [baseDir; ctx]; name];
  la_compose : exists before file after, compose_names d = before ++ file :: after
    /\ Forall (fun f => ~ present h (PathJoin [st_Root st; f])) before
    /\ present h (PathJoin [st_Root st; file]) /\ st_Files st = [PathJoin [st_Root st; file]];
  la_env : let p := PathJoin [st_Root st; named (disc_EnvironmentFile d) "environment.env"] in
    listed_if (present h p) (Base p) (st_EnvFile st);
  la_secrets : let ofContext := PathJoin [PathJoin [baseDir; ctx]; named (disc_SecretsFile d) "secrets.env"] in
    let own := PathJoin [st_Root st; named (disc_SecretsFile d) "secrets.env"] in
    exists l1 l2, st_SopsSecrets st = l1 ++ l2
      /\ listed_if (present h ofContext) (default ofContext (Rel (st_Root st) ofContext)) l1
      /\ listed_if (present h own) (Base own) l2;
  la_name : st_Context st = ctx;
  la_rest : st_Profiles st = [] /\ st_Environment st = None /\ st_Secrets st = None /\ st_Project st = None
    /\ st_Filesets st = ∅ /\ st_EnvInline st = [] /\ st_RootAbs st = "" }.

Lemma stat_ok_present h p : stat_ok h p = true <-> present h p.
Proof. unfold stat_ok, present. destruct (os_Stat h p); naive_solver. Qed.

(** The compose file found is the first one present. *)
Lemma findComposeFile_first h dir names path : dir <> "" -> path <> "" ->
  findComposeFile h dir names = path <-> exists before file after, names = before ++ file :: after
      /\ Forall (fun f => ~ present h (PathJoin [dir; f])) before
      /\ present h (PathJoin [dir; file]) /\ path = PathJoin [dir; file].
Proof.
  intros Hdir Hpath. induction names as [|f names IH]; cbn [findComposeFile]; cbv zeta.
  { split; [by intros <-|]. by intros ([] & ? & ? & ? & _). }
  destruct (stat_ok h (PathJoin [dir; f])) eqn:Hf.
  - apply stat_ok_present in Hf. split; [intros <-; by exists [], f, names|].
    intros ([|f' before] & file & after & [= <- Hx] & HF & _ & ->); [done|]. by apply Forall_cons in HF as [[] _].
  - apply not_true_iff_false in Hf. rewrite stat_ok_present in Hf. rewrite IH. split.
    + intros (before & file & after & -> & HF & Hp). exists (f :: before), file, after.
      split_and!; [done|by constructor|apply Hp|apply Hp].
    + intros ([|f' before] & file & after & [= <- Hx] & HF & Hp & ->); [done|].
      apply Forall_cons in HF as [_ HF]. by exists before, file, after.
Qed.

Lemma findSecretsFile_listed h dir name (x : string -> string) l : dir <> "" ->
  l = (if bool_decide (findSecretsFile h dir name <> "") then [x (findSecretsFile h dir name)] else [])
  <-> listed_if (present h (PathJoin [dir; name])) (x (PathJoin [dir; name])) l.
Proof.
  intros Hdir. unfold findSecretsFile, listed_if. cbv zeta. rewrite <- stat_ok_present.
  destruct (stat_ok h (PathJoin [dir; name])).
  - rewrite bool_decide_true by (apply PathJoin_ne; by left). naive_solver.
  - rewrite bool_decide_false by (intros Hx; by apply Hx). naive_solver.
Qed.

Lemma found_stack_layout h d b ctx name st : ctx <> "" ->
  found_stack h d b ctx name = Some st <-> layout h d b ctx name st.
Proof.
  intros Hctx. unfold found_stack. cbv zeta.
  assert (PathJoin [b; ctx] <> "") as Hcd by (apply PathJoin_ne; by right). set (cd := PathJoin [b; ctx]) in *.
  assert (PathJoin [cd; name] <> "") as Hsd by (apply PathJoin_ne; by left). set (sd := PathJoin [cd; name]) in *.
  assert (compose_names d = GetComposeFiles d) as Hnames
    by (unfold compose_names, GetComposeFiles; by destruct (disc_ComposeFiles d)).
  assert (forall g u, named g u = if bool_decide (g = "") then u else g) as Hnamed
    by (intros; unfold named; by case_bool_decide; case_decide).
  split.
  - destruct (os_Stat h cd) as [[]| |] eqn:Hst; try done. destruct (os_ReadDir h cd) as [es|] eqn:Hes; [|done].
    case_bool_decide as Hin; [|done]. unfold discovered_stack. cbv zeta.
    case_bool_decide as Hcf; [done|]. intros [= <-].
    split; cbn [st_Root st_Files st_EnvFile st_SopsSecrets st_Context st_Profiles st_Environment st_Secrets
      st_Project st_Filesets st_EnvInline st_RootAbs]; fold cd; fold sd; try done.
    + by exists es.
    + rewrite Hnames. destruct (proj1 (findComposeFile_first h sd (GetComposeFiles d) _ Hsd Hcf) eq_refl)
        as (before & file & after & ? & ? & ? & ->). by exists before, file, after.
    + rewrite Hnamed. by apply (findSecretsFile_listed h sd (GetEnvironmentFile d) Base).
    + rewrite Hnamed. eexists _, _. split; [reflexivity|]. split.
      * by apply (findSecretsFile_listed h cd (GetSecretsFile d) (fun p => default p (Rel sd p))).
      * by apply (findSecretsFile_listed h sd (GetSecretsFile d) Base).
  - intros [Hst (es & Hes & Hin) Hroot Hcf Henv (l1 & l2 & Hl & Hl1 & Hl2) Hn Hrest]. fold cd in Hst, Hes, Hroot, Hl1.
    fold sd in Hroot. rewrite Hst, Hes, bool_decide_true by done. unfold discovered_stack. cbv zeta.
    rewrite Hnames, Hroot in Hcf. destruct Hcf as (before & file & after & Hc1 & Hc2 & Hc3 & Hfiles).
    assert (PathJoin [sd; file] <> "") as Hfne by (apply PathJoin_ne; by left).
    rewrite (proj2 (findComposeFile_first h sd (GetComposeFiles d) (PathJoin [sd; file]) Hsd Hfne)) by by exists before, file, after.
    rewrite bool_decide_false by done. rewrite Hnamed, Hroot in *.
    apply (findSecretsFile_listed h sd (GetEnvironmentFile d) Base _ Hsd) in Henv.
    apply (findSecretsFile_listed h sd (GetSecretsFile d) Base _ Hsd) in Hl2.
    apply (findSecretsFile_listed h cd (GetSecretsFile d) (fun p => default p (Rel sd p)) _ Hcd) in Hl1.
    destruct st. cbn in *. destruct Hrest as (-> & -> & -> & -> & -> & -> & ->). subst. done.
Qed.


(** ** Secrets of a discovered stack *)

(** Discovered secrets resolve to the files that were found.  Resolving the
    discovered secret paths against the stack's root, as validation does, gives
    back the context's secrets file and then the stack's own, each exactly when
    it exists: rebasing the context's file on the stack directory loses nothing. *)
Theorem discovered_secrets_resolve h d bs ctx name st :
  path_comps bs -> path_comps [ctx; name; GetSecretsFile d] ->
  name <> GetSecretsFile d ->
  let contextDir := abs_path (bs ++ [ctx]) in
  let stackDir := abs_path ((bs ++ [ctx]) ++ [name]) in
  let inContext := abs_path ((bs ++ [ctx]) ++ [GetSecretsFile d]) in
  let inStack := abs_path (((bs ++ [ctx]) ++ [name]) ++ [GetSecretsFile d]) in
  discovered_stack h d ctx stackDir (findSecretsFile h contextDir (GetSecretsFile d)) = Some st ->
  (fun p => PathJoin [st_Root st; p]) <$> st_SopsSecrets st =
    (if stat_ok h inContext then [inContext] else [])
    ++ (if stat_ok h inStack then [inStack] else []).
Proof.
  intros Hbs Hp Hne cd sd ic ins.
  assert (path_comps [ctx] /\ path_comps [name] /\ path_comps [GetSecretsFile d])
    as (Hc & Hn & Hs) by (unfold path_comps in *; rewrite !Forall_cons in *; naive_solver).
  assert (path_comps (bs ++ [ctx])) as Hbc by (by apply path_comps_app).
  assert (path_comps ((bs ++ [ctx]) ++ [name])) as Hbn by (by apply path_comps_app).
  assert (path_comps ((bs ++ [ctx]) ++ [GetSecretsFile d])) as Hbf by (by apply path_comps_app).
  unfold discovered_stack. cbv zeta. case_bool_decide; [done|]. intros [= <-].
  cbn [st_Root st_SopsSecrets]. unfold sops_secrets, findSecretsFile. cbv zeta.
  unfold cd, sd. rewrite !PathJoin_abs1 by done. fold ic. fold ins.
  rewrite fmap_app. f_equal.
  - destruct (stat_ok h ic); [|done]. rewrite bool_decide_true by done. cbn [fmap list_fmap].
    unfold ic. rewrite Rel_sibling by done. unfold default, id; cbn [from_option]. by rewrite PathJoin_up.
  - destruct (stat_ok h ins); [|done]. rewrite bool_decide_true by done. cbn [fmap list_fmap].
    unfold ins. rewrite Base_abs_path by done. by rewrite PathJoin_abs1.
Qed.

(** ** A concrete host *)

(** The host with the given directories (and their entries) and files. *)
Definition host_of (dirs : list (string * list (string * bool)))
    (files : list (string * string)) (cwd : string) : Host :=
  let d := list_to_map dirs : gmap string (list (string * bool)) in
  let f := list_to_map files : gmap string string in
  mkHost
    (fun p => match d !! p with
              | Some _ => StatOk true
              | None => match f !! p with Some _ => StatOk false | None => StatNotExist end
              end)
    (fun p => match d !! p with Some es => Ok es | None => Err (Plain "not a directory") end)
    (fun p => match f !! p with Some t => Ok t | None => Err (Plain "no such file") end)
    (Ok cwd) (fun _ => None).

(** One context with one stack, secrets at both levels and one fileset. *)
Definition example_host : Host :=
  host_of
    [("/base/prod", [("README", false); ("secrets.env", false); ("web", true)]);
     ("/base/prod/web", [("compose.yaml", false); ("secrets.env", false); ("volumes", true)]);
     ("/base/prod/web/volumes", [("html", true)]);
     ("/base/prod/web/volumes/html", [("index.html", false)])]
    [("/base/prod/secrets.env", ""); ("/base/prod/web/compose.yaml", "services: {}");
     ("/base/prod/web/secrets.env", "")] "/base".

Definition example_config : Config :=
  mkConfig "id" None (mkDiscovery [] "" "" "") {["prod" := mkContext "" ∅ ∅]} ∅ ∅
    "/base" false ∅ ∅.

Definition example_stack : Stack :=
  mkStack "/base/prod/web" ["/base/prod/web/compose.yaml"] [] [] None None None ∅ "prod" []
    ["../secrets.env"; "secrets.env"] "".

Lemma example_readdir_ok : readdir_ok example_host.
Proof.
  intros p es. unfold example_host, host_of. simpl os_ReadDir.
  case_match eqn:Hp; [|done]. intros [= <-]. revert Hp.
  rewrite !lookup_insert, lookup_empty.
  repeat case_decide; intros [= <-]; by apply (bool_decide_unpack _).
Qed.


(** A secrets file configured with a directory is found, but then named by its last
    element only, which is another file. *)
Example nested_secrets_misnamed :
  st_SopsSecrets <$> found_stack
    (host_of [("/base/prod", [("web", true)]); ("/base/prod/web", [("compose.yaml", false); ("conf", true)])]
       [("/base/prod/web/compose.yaml", ""); ("/base/prod/web/conf/secrets.env", "")] "/base")
    (mkDiscovery [] "conf/secrets.env" "" "") "/base" "prod" "web"
  = Some ["secrets.env"].
Proof. vm_compute. reflexivity. Qed.

Lemma discovered_secrets_resolve_witness :
  (fun p => PathJoin [st_Root example_stack; p]) <$> st_SopsSecrets example_stack
  = ["/base/prod/secrets.env"; "/base/prod/web/secrets.env"].
Proof.
  apply (discovered_secrets_resolve example_host (mkDiscovery [] "" "" "") ["base"] "prod" "web");
    [by apply (bool_decide_unpack _)..|discriminate|reflexivity].
Defined.
