(* ===== verification/Validation.v ===== *)
(** * Normalisation and validation ([internal/manifest/validation.go],
    [bind_mount_validator.go])

    [normalizeAndValidate] turns a decoded configuration into the one every
    command works on, or rejects it.  Its phases are separate definitions here,
    composed in the order of the code; the loops over maps use [map_range], so
    which of several errors is reported may depend on the order, and the theorems
    hold for all of them. *)

From S2P Require Import Prelude GoStrings GoPath Apperr Util Manifest Discovery.
From Stdlib Require Import Ascii.

Definition op_nv : string := "manifest.normalizeAndValidate".

(** ** Ownership *)

(** [^\d+$] *)
Definition numericIDRegex (s : string) : bool :=
  bool_decide (s <> "") && string_forallb is_digit s.

(** [^[a-z_][a-z0-9_-]*\$?$] *)
Definition posixNameRegex (s : string) : bool :=
  match s with
  | "" => false
  | String c r =>
      (is_lower_letter c || Ascii.eqb c "_")
      && let rest := (span (fun c => is_lower_letter c || is_digit c
                                     || Ascii.eqb c "_" || Ascii.eqb c "-") r).2 in
         bool_decide (rest = "") || bool_decide (rest = "$")
  end.

Definition validateUserOrGroup (s : string) : res bool :=
  let op := "manifest.validateUserOrGroup" in
  let s := TrimSpace s in
  if bool_decide (s = "") then Err (New op InvalidInput "user or group cannot be empty" [])
  else if numericIDRegex s then Ok true
  else if posixNameRegex (ToLower s) then Ok false
  else Err (New op InvalidInput "must be numeric or valid POSIX name: %s" [s]).

(** [strconv.ParseUint(_, 8, 32)] *)
Fixpoint octal_value (acc : Z) (s : string) : option Z :=
  match s with
  | "" => Some acc
  | String c s => if is_octal_digit c
                  then octal_value (acc * 8 + (Z.of_nat (code c) - 48)) s else None
  end.
Definition ParseUint8_32 (s : string) : res Z :=
  match s with
  | "" => Err (Plain "strconv.ParseUint: invalid syntax")
  | _ => match octal_value 0 s with
         | Some v => if (v <? 2 ^ 32)%Z then Ok v
                     else Err (Plain "strconv.ParseUint: value out of range")
         | None => Err (Plain "strconv.ParseUint: invalid syntax")
         end
  end.

Definition parseOctalMode (s : string) : res Z :=
  let op := "manifest.parseOctalMode" in
  let s := TrimSpace s in
  if bool_decide (s = "") then Err (New op InvalidInput "mode cannot be empty" [])
  else if (String.length s <? 3) || (4 <? String.length s) then
    Err (New op InvalidInput "mode must be 3-4 octal digits: %s" [s])
  else if negb (string_forallb is_octal_digit s) then
    Err (New op InvalidInput "mode must contain only octal digits (0-7): %s" [s])
  else
    match ParseUint8_32 (TrimPrefix s "0") with
    | Err e => Err (wrap op InvalidInput e "invalid octal mode: %s" [s])
    | Ok v => Ok v
    end.

(** One optional field of an ownership block: the trimmed value, persisted. *)
Definition validate_field (filesetName field : string) (check : string -> res unit)
    (v : string) : res string :=
  let op := "manifest.validateOwnership" in
  if bool_decide (v = "") then Ok v else
  let trimmed := TrimSpace v in
  if bool_decide (trimmed = "") then
    Err (New op InvalidInput ("fileset %s: " +:+ field +:+ " cannot be empty or whitespace only")
           [filesetName])
  else match check trimmed with
       | Err e => Err (wrap op InvalidInput e ("fileset %s: invalid " +:+ field) [filesetName])
       | Ok _ => Ok trimmed
       end.

Definition check_id (s : string) : res unit := _ ← validateUserOrGroup s; Ok tt.
Definition check_mode (s : string) : res unit := _ ← parseOctalMode s; Ok tt.

Definition validateOwnership (filesetName : string) (f : FilesetSpec) : res FilesetSpec :=
  match fs_Ownership f with
  | None => Ok f
  | Some o =>
      user ← validate_field filesetName "user" check_id (own_User o);
      group ← validate_field filesetName "group" check_id (own_Group o);
      fmode ← validate_field filesetName "file_mode" check_mode (own_FileMode o);
      dmode ← validate_field filesetName "dir_mode" check_mode (own_DirMode o);
      Ok (mkFileset (fs_Source f) (fs_TargetVolume f) (fs_TargetPath f)
            (fs_RestartServices f) (fs_ApplyMode f) (fs_Exclude f)
            (Some (mkOwnership user group fmode dmode (own_PreserveExisting o)))
            (fs_SourceAbs f) (fs_Context f) (fs_Stack f))
  end.

(** ** Bind mounts *)

(** The regular expression class [\s]. *)
Definition re_space (c : ascii) : bool :=
  (code c =? 9) || (code c =? 10) || (code c =? 12) || (code c =? 13) || (code c =? 32).

(** [(\.{1,2}/[^:\s]+|~/[^:\s]+):] at the start of [s]. *)
Definition match_mount (s : string) : option (string * string) :=
  let body (p : string) :=
    match strip_prefix p s with
    | Some r =>
        let '(b, rest) := span (fun c => negb (Ascii.eqb c ":") && negb (re_space c)) r in
        match b, strip_prefix ":" rest with
        | "", _ | _, None => None
        | _, Some rest => Some (p +:+ b, rest)
        end
    | None => None
    end in
  match body "../" with
  | Some r => Some r
  | None => match body "./" with Some r => Some r | None => body "~/" end
  end.

(** [^\s*-\s+(...):] at the start of a line: the group and the rest of the text. *)
Definition match_bind (s : string) : option (string * string) :=
  match strip_prefix "-" (span re_space s).2 with
  | Some r => match span re_space r with
              | ("", _) => None
              | (_, r) => match_mount r
              end
  | None => None
  end.

(** [FindAllStringSubmatch]: the groups of the successive leftmost matches. *)
Fixpoint find_binds (fuel : nat) (line_start : bool) (s : string) : list string :=
  match fuel with
  | 0 => []
  | S fuel =>
      match (if line_start then match_bind s else None) with
      | Some (m, rest) => m :: find_binds fuel false rest
      | None =>
          match s with
          | "" => []
          | String c r => find_binds fuel (Ascii.eqb c "010") r
          end
      end
  end.

Definition detectBindMounts (content : string) : list string :=
  dedup (TrimSpace <$> find_binds (S (String.length content)) true content).

(** The mounts found in the readable compose files of a stack, each once. *)
Definition bind_mounts_of_stack (h : Host) (stack : Stack) : list string :=
  dedup (concat ((fun file =>
    let composeFile := if IsAbs file then file else PathJoin [st_Root stack; file] in
    match os_ReadFile h composeFile with
    | Err _ => []
    | Ok content => detectBindMounts content
    end) <$> st_Files stack)).

(** The help text of the error. *)
Definition bind_mount_message (stackKey context stackName : string) (mounts : list string)
  : string :=
  Join ([Sprintf "stack %s contains bind mounts with relative paths which will not work correctly with remote Docker contexts." [stackKey];
         ""; "Bind mounts found:"]
    ++ ((fun bm => Sprintf "  - %s" [bm]) <$> mounts)
    ++ [""; "Bind mounts reference paths on the Docker daemon's filesystem, not your local machine.";
        "When using remote Docker contexts, these paths would be resolved on the remote server."; "";
        "Solution: Use Dockform filesets for syncing local files to remote volumes."; "";
        "Migration steps:";
        Sprintf "  1. Create a 'volumes/' directory in your stack: %s/%s/volumes/" [context; stackName];
        "  2. Move your bind mount directories into volumes/";
        Sprintf "     Example: ./config → %s/%s/volumes/config/" [context; stackName];
        "  3. Change compose volumes to use named volumes:";
        "     - Old: ./config:/app/config";
        Sprintf "     - New: %s_config:/app/config" [stackName];
        "  4. Declare the volume in dockform.yaml:";
        "     contexts:";
        Sprintf "       %s:" [context];
        "         volumes:";
        Sprintf "           %s_config: {}" [stackName]; "";
        "Dockform will auto-discover the fileset and sync files correctly to the remote server.";
        "See: https://github.com/gcstr/dockform#filesets for more information."]) nl.

Definition validateBindMountsInComposeFile (h : Host) (stackKey : string) (stack : Stack)
  : res unit :=
  match bind_mounts_of_stack h stack with
  | [] => Ok tt
  | mounts =>
      let '(context, stackName) :=
        match ParseStackKey stackKey with Ok p => p | Err _ => ("", "") end in
      Err (New "manifest.validateBindMounts" InvalidInput "%s"
             [bind_mount_message stackKey context stackName mounts])
  end.

(** ** Contexts, deployments, explicit stacks *)

Definition validate_context (e : string * ContextConfig) : res unit :=
  let '(contextName, ctxCfg) := e in
  if negb (contextKeyRegex contextName) then
    Err (New op_nv InvalidInput "invalid context key %q: must match ^[a-z0-9_-]+$" [contextName])
  else if bool_decide (ctx_Host ctxCfg <> "") && bool_decide (TrimSpace (ctx_Host ctxCfg) = "")
  then Err (New op_nv InvalidInput "context %q: host cannot be whitespace-only" [contextName])
  else Ok tt.

Definition validate_deployment (c : Config) (e : string * DeploymentConfig) : res unit :=
  let '(deployName, deploy) := e in
  _ ← result_all (fun ctxName =>
        match cfg_Contexts c !! ctxName with
        | Some _ => Ok tt
        | None => Err (New op_nv InvalidInput "deployment %s: references unknown context %q"
                         [deployName; ctxName])
        end) (dep_Contexts deploy);
  result_all (fun stackKey =>
    match ParseStackKey stackKey with
    | Err e => Err (wrap op_nv InvalidInput e "deployment %s: invalid stack reference" [deployName])
    | Ok (context, _) =>
        match cfg_Contexts c !! context with
        | Some _ => Ok tt
        | None => Err (New op_nv InvalidInput
                    "deployment %s: stack %q references unknown context %q"
                    [deployName; stackKey; context])
        end
    end) (dep_Stacks deploy).

Definition set_context (context : string) (s : Stack) : Stack :=
  mkStack (st_Root s) (st_Files s) (st_EnvFile s) (st_Profiles s) (st_Environment s)
    (st_Secrets s) (st_Project s) (st_Filesets s) context (st_EnvInline s)
    (st_SopsSecrets s) (st_RootAbs s).

(** One explicit stack: its key is checked and its context recorded. *)
Definition validate_explicit_stack (c : Config) (e : string * Stack) : res Config :=
  let '(stackKey, stack) := e in
  match ParseStackKey stackKey with
  | Err e => Err (wrap op_nv InvalidInput e "invalid stack key" [])
  | Ok (context, stackName) =>
      match cfg_Contexts c !! context with
      | None => Err (New op_nv InvalidInput "stack %s: references unknown context %q"
                       [stackKey; context])
      | Some _ =>
          if negb (appKeyRegex stackName) then
            Err (New op_nv InvalidInput
              "invalid stack name %q in key %q: must match ^[a-z0-9_.-]+$" [stackName; stackKey])
          else Ok (with_Stacks (<[stackKey := set_context context stack]> (cfg_Stacks c)) c)
      end
  end.

(** ** Normalisation of the merged stacks *)

Definition default_compose_files : list string :=
  ["compose.yaml"; "compose.yml"; "docker-compose.yaml"; "docker-compose.yml"].

Definition findDefaultComposeFile (h : Host) (dir : string) : string :=
  let found := findComposeFile h dir default_compose_files in
  if bool_decide (found = "") then PathJoin [dir; "compose.yaml"] else found.

(** The key of an inline [KEY=VALUE] entry. *)
Definition env_key (kv : string) : string :=
  match Cut kv "=" with Some (k, _) => k | None => kv end.

(** The loop over the reversed entries: the first occurrence of a key wins. *)
Fixpoint dedup_reversed (seen : gset string) (l : list string) : list string :=
  match l with
  | [] => []
  | kv :: l =>
      if bool_decide (kv = "") || bool_decide (env_key kv = "") then dedup_reversed seen l
      else if bool_decide (env_key kv ∈ seen) then dedup_reversed seen l
      else kv :: dedup_reversed ({[env_key kv]} ∪ seen) l
  end.

Definition merge_inline (inline : list string) : list string :=
  if 1 <? length inline then reverse (dedup_reversed ∅ (reverse inline)) else inline.

(** A secret path resolved against the stack's root, or the manifest's directory. *)
Definition resolve_secret (baseDir root sp : string) : string :=
  if bool_decide (sp <> "") && negb (IsAbs sp) then
    Clean (PathJoin [if bool_decide (root <> "") then root else baseDir; sp])
  else sp.

Definition resolve_root (baseDir root : string) : string :=
  if bool_decide (root <> "") && negb (IsAbs root)
  then Clean (PathJoin [baseDir; root]) else root.

(** The normalised form of a stack. *)
Definition normalize_stack (h : Host) (baseDir context : string) (s : Stack) : Stack :=
  let root := resolve_root baseDir (st_Root s) in
  let files := match st_Files s with
               | [] => if bool_decide (root <> "") then [findDefaultComposeFile h root] else []
               | fs => fs
               end in
  let inline := match st_Environment s with Some e => merge_inline (env_Inline e) | None => [] end in
  let sops := st_SopsSecrets s ++ match st_Secrets s with Some x => sec_Sops x | None => [] end in
  mkStack root files (st_EnvFile s) (st_Profiles s) (st_Environment s) (st_Secrets s)
    (st_Project s) (st_Filesets s)
    (if bool_decide (st_Context s = "") then context else st_Context s)
    inline (resolve_secret baseDir root <$> sops) root.

Definition env_extension (sp : string) : bool := HasSuffix (ToLower sp) ".env".

(** One iteration of the loop: normalise, check, and write back where the stack
    comes from. *)
Definition normalize_one (h : Host) (baseDir : string) (c : Config) (e : string * Stack)
  : res Config :=
  let '(stackKey, stack) := e in
  match ParseStackKey stackKey with
  | Err _ => Ok c
  | Ok (context, _) =>
      let stack := normalize_stack h baseDir context stack in
      _ ← result_all (fun sp =>
            if env_extension sp then Ok tt
            else Err (New op_nv InvalidInput "stack %s: secrets file %s must have .env extension"
                        [stackKey; sp])) (st_SopsSecrets stack);
      _ ← validateBindMountsInComposeFile h stackKey stack;
      match cfg_DiscoveredStacks c !! stackKey with
      | Some _ => Ok (with_DiscoveredStacks (<[stackKey := stack]> (cfg_DiscoveredStacks c)) c)
      | None => Ok (with_Stacks (<[stackKey := stack]> (cfg_Stacks c)) c)
      end
  end.

(** ** Explicit filesets *)

Definition or_else (v d : string) : string := if bool_decide (v <> "") then v else d.

(** An explicit fileset over the discovered one of the same key. *)
Definition merge_fileset (existing f : FilesetSpec) : FilesetSpec :=
  mkFileset (or_else (fs_Source f) (fs_Source existing))
    (or_else (fs_TargetVolume f) (fs_TargetVolume existing))
    (or_else (fs_TargetPath f) (fs_TargetPath existing))
    (let r := fs_RestartServices f in
     if rt_Attached r || bool_decide (rt_Services r <> []) then r
     else fs_RestartServices existing)
    (or_else (fs_ApplyMode f) (fs_ApplyMode existing))
    (match fs_Exclude f with [] => fs_Exclude existing | ex => ex end)
    (match fs_Ownership f with None => fs_Ownership existing | o => o end)
    (fs_SourceAbs existing) (fs_Context existing) (fs_Stack existing).

Definition set_owner (context stack : string) (f : FilesetSpec) : FilesetSpec :=
  mkFileset (fs_Source f) (fs_TargetVolume f) (fs_TargetPath f) (fs_RestartServices f)
    (fs_ApplyMode f) (fs_Exclude f) (fs_Ownership f) (fs_SourceAbs f) context stack.

Definition merge_one_fileset (stackKey context : string) (e : string * FilesetSpec)
    (fss : gmap string FilesetSpec) : gmap string FilesetSpec :=
  let fsKey := stackKey +:+ "/" +:+ e.1 in
  match fss !! fsKey with
  | Some existing => <[fsKey := merge_fileset existing e.2]> fss
  | None => <[fsKey := set_owner context stackKey e.2]> fss
  end.

(** ** Global secrets settings *)

Definition validate_age (a : SopsAgeConfig) : res unit :=
  result_all (fun r =>
    let v := TrimSpace r in
    if bool_decide (v = "") then Ok tt
    else if negb (HasPrefix v "age1") then
      Err (New op_nv InvalidInput "sops.age.recipients: invalid age recipient format: %s" [r])
    else Ok tt) (age_Recipients a).

Definition validate_pgp (p : SopsPgpConfig) : res SopsPgpConfig :=
  let mode := TrimSpace (ToLower (pgp_PinentryMode p)) in
  let mode := if bool_decide (mode = "") then "default" else mode in
  if bool_decide (mode <> "default") && bool_decide (mode <> "loopback") then
    Err (New op_nv InvalidInput "sops.pgp.pinentry_mode must be 'default' or 'loopback'" [])
  else Ok (mkPgp (pgp_KeyringDir p) (pgp_UseAgent p) mode (pgp_Recipients p) (pgp_Passphrase p)).

Definition validate_sops (s : SopsConfig) : res SopsConfig :=
  match sops_Recipients s with
  | _ :: _ => Err (New op_nv InvalidInput
      "sops.recipients is no longer supported; move entries under sops.age.recipients or sops.pgp.recipients" [])
  | [] =>
      _ ← match sops_Age s with Some a => validate_age a | None => Ok tt end;
      pgp ← match sops_Pgp s with
            | Some p => p' ← validate_pgp p; Ok (Some p')
            | None => Ok None
            end;
      Ok (mkSops (sops_Age s) (sops_Recipients s) pgp)
  end.

(** ** Filesets *)

(** One discovered or merged fileset, checked and normalised. *)
Definition normalize_fileset (baseDir filesetKey : string) (f : FilesetSpec) : res FilesetSpec :=
  if bool_decide (TrimSpace (fs_Source f) = "") then
    Err (New op_nv InvalidInput "fileset %s: source path is required" [filesetKey])
  else if bool_decide (fs_TargetVolume f = "") then
    Err (New op_nv InvalidInput "fileset %s: target_volume is required" [filesetKey])
  else
  let targetPath := or_else (fs_TargetPath f) "/" in
  if negb (HasPrefix targetPath "/") then
    Err (New op_nv InvalidInput "fileset %s: target_path must be an absolute path" [filesetKey])
  else
  let mode := or_else (ToLower (TrimSpace (fs_ApplyMode f))) "hot" in
  if bool_decide (mode <> "hot") && bool_decide (mode <> "cold") then
    Err (New op_nv InvalidInput "fileset %s: apply_mode must be 'hot' or 'cold'" [filesetKey])
  else
  let f1 := mkFileset (fs_Source f) (fs_TargetVolume f) targetPath (fs_RestartServices f)
              mode (fs_Exclude f) (fs_Ownership f) (fs_SourceAbs f) (fs_Context f) (fs_Stack f) in
  f2 ← validateOwnership filesetKey f1;
  let sourceAbs := if negb (IsAbs (fs_Source f2)) then Clean (PathJoin [baseDir; fs_Source f2])
                   else fs_Source f2 in
  Ok (mkFileset (fs_Source f2) (fs_TargetVolume f2) (fs_TargetPath f2) (fs_RestartServices f2)
        (fs_ApplyMode f2) (fs_Exclude f2) (fs_Ownership f2) sourceAbs (fs_Context f2) (fs_Stack f2)).

Definition normalize_one_fileset (baseDir : string) (c : Config) (e : string * FilesetSpec)
  : res Config :=
  f ← normalize_fileset baseDir e.1 e.2;
  Ok (with_DiscoveredFilesets (<[e.1 := f]> (cfg_DiscoveredFilesets c)) c).

(** ** [normalizeAndValidate] and [Load] *)

Section Normalize.
Context `{MapRange}.

(** The explicit filesets of one stack, merged under its key. *)
Definition merge_stack_explicit_filesets (c : Config) (e : string * Stack) : Config :=
  let '(stackKey, stack) := e in
  match ParseStackKey stackKey with
  | Err _ => c
  | Ok (context, _) =>
      with_DiscoveredFilesets
        (foldr (merge_one_fileset stackKey context) (cfg_DiscoveredFilesets c)
           (map_range ("filesets of " +:+ stackKey) (st_Filesets stack))) c
  end.

(** The phases before the stacks are normalised. *)
Definition validate_declarations (c : Config) : res Config :=
  if bool_decide (TrimSpace (cfg_Identifier c) = "") then
    Err (New op_nv InvalidInput "identifier is required at the top level of the manifest" [])
  else if bool_decide (cfg_Contexts c = ∅) then
    Err (New op_nv InvalidInput "at least one context must be defined under 'contexts:'" [])
  else
    _ ← result_all validate_context (map_range "contexts" (cfg_Contexts c));
    _ ← result_all (validate_deployment c) (map_range "deployments" (cfg_Deployments c));
    result_foldl validate_explicit_stack c (map_range "explicit stacks" (cfg_Stacks c)).

Definition normalizeAndValidate (h : Host) (c : Config) (baseDir : string) : res Config :=
  c ← validate_declarations c;
  c ← result_foldl (normalize_one h baseDir) c (map_range "all stacks" (GetAllStacks c));
  let c := foldl merge_stack_explicit_filesets c (map_range "merge filesets" (GetAllStacks c)) in
  c ← match cfg_Sops c with
      | None => Ok c
      | Some s => s' ← validate_sops s; Ok (with_Sops (Some s') c)
      end;
  result_foldl (normalize_one_fileset baseDir) c
    (map_range "all filesets" (cfg_DiscoveredFilesets c)).

(** [LoadWithWarnings], over the YAML decoder (a library): the missing variables
    are returned with the outcome, also when it is an error. *)
Definition LoadWithWarnings (decode : string -> res Config) (h : Host) (path : string)
  : res Config * list string :=
  match resolveConfigPath h path with
  | Err e => (Err e, [])
  | Ok guessed =>
      match Abs h guessed with
      | Err e => (Err (wrap "manifest.Load" InvalidInput e "abs path" []), [])
      | Ok guessedAbs =>
          match os_ReadFile h guessedAbs with
          | Err e => (Err (wrap "manifest.Load" NotFound e "read config" []), [])
          | Ok b =>
              let '(interpolated, missing) :=
                interpolateEnvPlaceholders (os_LookupEnv h) b in
              match decode interpolated with
              | Err e => (Err (New "manifest.Load" InvalidInput "parse yaml: %s" [Error e]), missing)
              | Ok c =>
                  let baseDir := Dir guessedAbs in
                  (c ← discoverResources h (with_BaseDir baseDir c) baseDir;
                   normalizeAndValidate h c baseDir, missing)
              end
          end
      end
  end.
End Normalize.

(** ** Modes and ownership *)

Lemma octal_value_bound s acc v : (0 <= acc)%Z -> octal_value acc s = Some v ->
  (0 <= v < (acc + 1) * 8 ^ Z.of_nat (String.length s))%Z.
Proof.
  revert acc. induction s as [|c s IH]; intros acc Hacc.
  { intros [= <-]. simpl. lia. }
  simpl octal_value. destruct (is_octal_digit c) eqn:Hc; [|done].
  unfold is_octal_digit, byte_in in Hc. boolify.
  match goal with H : (48 <=? _) = true |- _ => apply Nat.leb_le in H end.
  match goal with H : (_ <=? 55) = true |- _ => apply Nat.leb_le in H end.
  intros Hv%IH; [|lia].
  replace (Z.of_nat (String.length (String c s))) with (Z.of_nat (String.length s) + 1)%Z
    by (simpl; lia).
  rewrite Z.pow_add_r by lia. nia.
Qed.

Lemma octal_value_total s acc : string_forallb is_octal_digit s = true ->
  is_Some (octal_value acc s).
Proof.
  revert acc. induction s as [|c s IH]; intros acc; simpl; [by eexists|].
  intros [Hc Hs]%andb_true_iff. rewrite Hc. by apply IH.
Qed.

(** Stripping a leading zero does not change the value. *)
Lemma octal_value_TrimPrefix s : octal_value 0 (TrimPrefix s "0") = octal_value 0 s.
Proof.
  unfold TrimPrefix. destruct (strip_prefix "0" s) as [r|] eqn:Hs; [|done].
  apply strip_prefix_Some in Hs as ->. done.
Qed.

(** The syntax of a mode: three or four octal digits. *)
Definition mode_syntax (t : string) : Prop :=
  3 <= String.length t <= 4 /\ string_forallb is_octal_digit t = true.

(** File modes.  [parseOctalMode] accepts exactly the strings of three or four
    octal digits (after trimming), returns their octal value, and that value fits
    the twelve permission bits; everything else is an error. *)
Theorem parseOctalMode_spec s :
  match parseOctalMode s with
  | Ok v => mode_syntax (TrimSpace s) /\ octal_value 0 (TrimSpace s) = Some v
            /\ (0 <= v <= 4095)%Z
  | Err _ => ~ mode_syntax (TrimSpace s)
  end.
Proof.
  unfold parseOctalMode, mode_syntax. set (t := TrimSpace s).
  case_bool_decide as Ht; [rewrite Ht; simpl; lia|].
  destruct (_ || _) eqn:Hlen.
  { apply orb_true_iff in Hlen as [?%Nat.ltb_lt|?%Nat.ltb_lt]; lia. }
  boolify. apply Nat.ltb_ge in H, H0.
  destruct (string_forallb is_octal_digit t) eqn:Hoct; simpl; [|naive_solver].
  destruct (octal_value_total t 0 Hoct) as [v Hv].
  assert (0 <= v <= 4095)%Z as Hb.
  { apply octal_value_bound in Hv as [? Hv]; [|lia].
    assert (8 ^ Z.of_nat (String.length t) <= 8 ^ 4)%Z by (apply Z.pow_le_mono_r; lia). lia. }
  unfold ParseUint8_32. rewrite octal_value_TrimPrefix, Hv.
  rewrite (proj2 (Z.ltb_lt _ _)) by lia.
  destruct (TrimPrefix t "0") as [|c r] eqn:Hr; [|naive_solver].
  unfold TrimPrefix in Hr. destruct (strip_prefix "0" t) as [r|] eqn:Hs.
  - apply strip_prefix_Some in Hs. simpl in Hr. rewrite Hr in Hs. rewrite Hs in H.
    simpl in H. lia.
  - simpl in Hr. congruence.
Qed.

(** What [validateOwnership] promises of a block it accepts. *)
Definition field_ok (check : string -> res unit) (v : string) : Prop :=
  v = "" \/ (TrimSpace v = v /\ check v = Ok tt).
Definition ownership_ok (o : Ownership) : Prop :=
  field_ok check_id (own_User o) /\ field_ok check_id (own_Group o)
  /\ field_ok check_mode (own_FileMode o) /\ field_ok check_mode (own_DirMode o).

Lemma validate_field_ok name field check v v' :
  validate_field name field check v = Ok v' -> field_ok check v'.
Proof.
  unfold validate_field, field_ok. case_bool_decide; [naive_solver|].
  case_bool_decide; [done|]. destruct (check (TrimSpace v)) as [[]|] eqn:Hc; [|done].
  intros [= <-]. rewrite TrimSpace_idemp. auto.
Qed.

Lemma validate_field_id name field check v :
  field_ok check v -> validate_field name field check v = Ok v.
Proof.
  unfold validate_field. intros [->|[Ht Hc]]; [done|].
  case_bool_decide; [done|]. rewrite Ht, bool_decide_false, Hc by done. done.
Qed.

Lemma validateOwnership_ok name f f' : validateOwnership name f = Ok f' ->
  f' = mkFileset (fs_Source f) (fs_TargetVolume f) (fs_TargetPath f) (fs_RestartServices f)
         (fs_ApplyMode f) (fs_Exclude f) (fs_Ownership f') (fs_SourceAbs f) (fs_Context f)
         (fs_Stack f)
  /\ forall o, fs_Ownership f' = Some o -> ownership_ok o.
Proof.
  unfold validateOwnership. destruct (fs_Ownership f) as [o|] eqn:Ho.
  - unfold mbind, result_bind. repeat (case_match; [|done]). intros [= <-]. simpl.
    split; [done|]. intros o' [= <-]. split_and!; by eapply validate_field_ok.
  - intros [= <-]. split; [by destruct f|]. congruence.
Qed.

Lemma validateOwnership_id name f :
  (forall o, fs_Ownership f = Some o -> ownership_ok o) -> validateOwnership name f = Ok f.
Proof.
  unfold validateOwnership. destruct f as [? ? ? ? ? ? [o|] ? ? ?]; simpl; [|done].
  intros Ho. destruct (Ho o eq_refl) as (Hu & Hg & Hf & Hd).
  rewrite (validate_field_id _ _ _ _ Hu), (validate_field_id _ _ _ _ Hg),
    (validate_field_id _ _ _ _ Hf), (validate_field_id _ _ _ _ Hd). by destruct o.
Qed.

(** ** Normalised filesets *)

(** The invariant of the filesets every command works on. *)
Record fileset_ok (baseDir : string) (f : FilesetSpec) : Prop := {
  fso_source : TrimSpace (fs_Source f) <> "";
  fso_volume : fs_TargetVolume f <> "";
  fso_target : IsAbs (fs_TargetPath f) = true;
  fso_mode : fs_ApplyMode f = "hot" \/ fs_ApplyMode f = "cold";
  fso_owner : forall o, fs_Ownership f = Some o -> ownership_ok o;
  fso_abs : fs_SourceAbs f = if IsAbs (fs_Source f) then fs_Source f
                             else Clean (PathJoin [baseDir; fs_Source f]);
}.

Lemma normalize_fileset_ok b k f f' : normalize_fileset b k f = Ok f' -> fileset_ok b f'.
Proof.
  unfold normalize_fileset. case_bool_decide as Hs; [done|]. case_bool_decide as Hv; [done|].
  destruct (HasPrefix _ "/") eqn:Hp; simpl; [|done].
  destruct (bool_decide _ && _) eqn:Hm; [done|].
  unfold mbind, result_bind. destruct (validateOwnership _ _) as [f2|] eqn:Ho; [|done].
  apply validateOwnership_ok in Ho as [Hf2 Ho]. simpl in Hf2. intros [= <-].
  rewrite Hf2. split; simpl; try done.
  - apply andb_false_iff in Hm as [Hm|Hm]; apply bool_decide_eq_false in Hm;
      apply dec_stable in Hm; auto.
  - by destruct (IsAbs _).
Qed.

Lemma TrimSpace_mode m : m = "hot" \/ m = "cold" -> ToLower (TrimSpace m) = m /\ m <> "".
Proof. by intros [-> | ->]. Qed.

Lemma normalize_fileset_id b k f : fileset_ok b f -> normalize_fileset b k f = Ok f.
Proof.
  intros [Hs Hv Ht Hm Ho Ha]. unfold normalize_fileset.
  rewrite (bool_decide_false (TrimSpace (fs_Source f) = "")),
    (bool_decide_false (fs_TargetVolume f = "")) by done.
  assert (fs_TargetPath f <> "") as Hne by (intros Hc; by rewrite Hc in Ht).
  assert (or_else (fs_TargetPath f) "/" = fs_TargetPath f) as ->
    by (unfold or_else; by rewrite bool_decide_true).
  unfold IsAbs in Ht. rewrite Ht. cbn [negb].
  destruct (TrimSpace_mode _ Hm) as [-> Hmne].
  assert (or_else (fs_ApplyMode f) "hot" = fs_ApplyMode f) as ->
    by (unfold or_else; by rewrite bool_decide_true).
  replace (_ && _) with false.
  2: { symmetry. apply andb_false_iff. destruct Hm as [-> | ->]; [by left|by right]. }
  rewrite validateOwnership_id by done. unfold mbind, result_bind; simpl.
  replace (if negb _ then _ else _) with (fs_SourceAbs f); [by destruct f|].
  rewrite Ha. by destruct (IsAbs _).
Qed.

(** ** What a successful load establishes *)

Definition stack_key_ok (c : Config) (k : string) : Prop :=
  exists ctx name, k = MakeStackKey ctx name /\ is_Some (cfg_Contexts c !! ctx)
                   /\ appKeyRegex name = true.

Definition deployment_ok (c : Config) (d : DeploymentConfig) : Prop :=
  (forall x, x ∈ dep_Contexts d -> is_Some (cfg_Contexts c !! x))
  /\ (forall k, k ∈ dep_Stacks d -> exists ctx name,
        ParseStackKey k = Ok (ctx, name) /\ is_Some (cfg_Contexts c !! ctx)).

(** The declarations of a manifest: what the first phase checks. *)
Record declarations_ok (c : Config) : Prop := {
  dok_identifier : TrimSpace (cfg_Identifier c) <> "";
  dok_nonempty : cfg_Contexts c <> ∅;
  dok_contexts : forall k v, cfg_Contexts c !! k = Some v -> contextKeyRegex k = true;
  dok_deployments : forall k d, cfg_Deployments c !! k = Some d -> deployment_ok c d;
  dok_stacks : forall k, is_Some (cfg_Stacks c !! k) -> stack_key_ok c k;
}.

(** The relation between the configuration before and after a phase: the
    declarations are untouched, only stacks and filesets are rewritten in place. *)
Record same_declarations (c c' : Config) : Prop := {
  sd_identifier : cfg_Identifier c' = cfg_Identifier c;
  sd_contexts : cfg_Contexts c' = cfg_Contexts c;
  sd_deployments : cfg_Deployments c' = cfg_Deployments c;
  sd_stacks : dom (cfg_Stacks c') = dom (cfg_Stacks c);
  sd_discovered : dom (cfg_DiscoveredStacks c') = dom (cfg_DiscoveredStacks c);
}.

#[global] Instance same_declarations_preorder : PreOrder same_declarations.
Proof.
  split; [by constructor|].
  intros a b c [] []. constructor; congruence.
Qed.

Lemma declarations_ok_same c c' :
  same_declarations c c' -> declarations_ok c -> declarations_ok c'.
Proof.
  intros [Hi Hc Hd Hs _] [? ? Hctx Hdep Hst].
  constructor; rewrite ?Hi, ?Hc, ?Hd; try done.
  - intros k d Hk. specialize (Hdep k d Hk). unfold deployment_ok in *. by rewrite Hc.
  - intros k Hk. unfold stack_key_ok. rewrite Hc. apply Hst.
    apply elem_of_dom. rewrite <- Hs. by apply elem_of_dom.
Qed.

Lemma validate_context_ok k v : validate_context (k, v) = Ok tt -> contextKeyRegex k = true.
Proof. simpl. destruct (contextKeyRegex k); [done|]. simpl. done. Qed.

Lemma validate_deployment_ok c k d : validate_deployment c (k, d) = Ok tt -> deployment_ok c d.
Proof.
  simpl. unfold mbind, result_bind. destruct (result_all _ (dep_Contexts d)) as [[]|] eqn:H1; [|done].
  intros H2. apply result_all_ok in H1, H2. rewrite Forall_forall in H1. rewrite Forall_forall in H2.
  split; intros x Hx.
  - specialize (H1 x Hx). by destruct (cfg_Contexts c !! x) eqn:Hc.
  - specialize (H2 x Hx). simpl in H2. destruct (ParseStackKey x) as [[ctx name]|]; [|done].
    exists ctx, name. split; [done|]. by destruct (cfg_Contexts c !! ctx).
Qed.

Lemma dom_insert_present {V} (m : gmap string V) k v :
  k ∈ dom m -> dom (<[k := v]> m) = dom m.
Proof. intros. rewrite dom_insert_L. set_solver. Qed.

Lemma validate_explicit_stack_ok c e c' : validate_explicit_stack c e = Ok c' ->
  stack_key_ok c e.1 /\ (e.1 ∈ dom (cfg_Stacks c) -> same_declarations c c').
Proof.
  destruct e as [k st]. simpl. destruct (ParseStackKey k) as [[ctx name]|] eqn:Hk; [|done].
  apply ParseStackKey_Ok in Hk as (-> & _).
  destruct (cfg_Contexts c !! ctx) eqn:Hc; [|done].
  destruct (appKeyRegex name) eqn:Ha; simpl; [|done]. intros [= <-]. split.
  - exists ctx, name. by rewrite Hc.
  - intros Hin. constructor; simpl; try done. by apply dom_insert_present.
Qed.

Lemma validate_declarations_ok `{MapRange} c c' :
  validate_declarations c = Ok c' -> declarations_ok c /\ same_declarations c c'.
Proof.
  unfold validate_declarations. case_bool_decide as Hid; [done|].
  case_bool_decide as Hne; [done|]. unfold mbind, result_bind.
  destruct (result_all validate_context _) as [[]|] eqn:H1; [|done].
  destruct (result_all (validate_deployment c) _) as [[]|] eqn:H2; [|done].
  intros H3. apply result_all_ok in H1, H2. rewrite Forall_forall in H1.
  rewrite Forall_forall in H2.
  assert (forall x, x ∈ map_range "explicit stacks" (cfg_Stacks c) ->
            x.1 ∈ dom (cfg_Stacks c)) as Hdom.
  { intros [k v] Hx. apply elem_of_map_range in Hx. by apply elem_of_dom. }
  assert (same_declarations c c' /\ Forall (fun e => stack_key_ok c e.1)
            (map_range "explicit stacks" (cfg_Stacks c))) as [Hsame Hkeys].
  { revert Hdom H3. generalize (map_range "explicit stacks" (cfg_Stacks c)). intros l.
    assert (same_declarations c c) as Hc by done. revert Hc.
    generalize c at 2 4. intros c1. revert c1.
    induction l as [|e l IH]; intros c1 Hc1 Hdom; simpl.
    { intros [= <-]. split; [done|constructor]. }
    destruct (validate_explicit_stack c1 e) as [c2|] eqn:He; [|done]. intros Hl.
    apply validate_explicit_stack_ok in He as [Hk Hs].
    assert (same_declarations c c2) as Hc2.
    { etrans; [done|]. apply Hs. rewrite (sd_stacks _ _ Hc1). apply Hdom. left. }
    destruct (IH c2 Hc2) as [? ?]; [set_solver|done|]. split; [done|]. constructor; [|done].
    unfold stack_key_ok in *. by rewrite <- (sd_contexts _ _ Hc1). }
  split; [|done]. constructor; try done.
  - intros k v Hk. eapply validate_context_ok, H1. by apply elem_of_map_range.
  - intros k d Hk. eapply validate_deployment_ok, H2. by apply elem_of_map_range.
  - intros k [v Hk]. rewrite Forall_forall in Hkeys.
    apply (Hkeys (k, v)). by apply elem_of_map_range.
Qed.

Lemma normalize_one_inv h b c k st c' : normalize_one h b c (k, st) = Ok c' ->
  c' = c /\ is_ok (ParseStackKey k) = false
  \/ exists st', Forall (fun sp => env_extension sp = true) (st_SopsSecrets st')
     /\ c' = if decide (k ∈ dom (cfg_DiscoveredStacks c))
             then with_DiscoveredStacks (<[k := st']> (cfg_DiscoveredStacks c)) c
             else with_Stacks (<[k := st']> (cfg_Stacks c)) c.
Proof.
  simpl. destruct (ParseStackKey k) as [[ctx name]|]; [|intros [= <-]; by left].
  unfold mbind, result_bind. destruct (result_all _ _) as [[]|] eqn:Hall; [|done].
  destruct (validateBindMountsInComposeFile _ _ _); [|done]. intros Hc'. right.
  exists (normalize_stack h b ctx st). split.
  - apply result_all_ok in Hall. eapply Forall_impl; [done|]. intros sp. simpl.
    by destruct (env_extension sp).
  - destruct (decide (k ∈ _)) as [[? Hk]%elem_of_dom|Hk%not_elem_of_dom];
      rewrite Hk in Hc'; congruence.
Qed.

Lemma normalize_one_same h b c0 c k st c' :
  same_declarations c0 c -> is_Some (GetAllStacks c0 !! k) ->
  normalize_one h b c (k, st) = Ok c' -> same_declarations c0 c'.
Proof.
  intros Hsame Hk [[-> _]|(st' & _ & ->)]%normalize_one_inv; [done|].
  etrans; [done|]. case_decide as Hd; constructor; simpl; try done.
  - by apply dom_insert_present.
  - apply dom_insert_present. rewrite (sd_stacks _ _ Hsame).
    rewrite lookup_GetAllStacks in Hk. rewrite (sd_discovered _ _ Hsame) in Hd.
    apply not_elem_of_dom in Hd. rewrite Hd in Hk. by apply elem_of_dom.
Qed.

Lemma sops_GetAllStacks_insert c k st :
  st_SopsSecrets <$> GetAllStacks
    (if decide (k ∈ dom (cfg_DiscoveredStacks c))
     then with_DiscoveredStacks (<[k := st]> (cfg_DiscoveredStacks c)) c
     else with_Stacks (<[k := st]> (cfg_Stacks c)) c)
  = <[k := st_SopsSecrets st]> (st_SopsSecrets <$> GetAllStacks c).
Proof.
  apply map_eq. intros i. rewrite lookup_fmap, lookup_GetAllStacks.
  destruct (decide (i = k)) as [->|Hne].
  - rewrite lookup_insert_eq. case_decide as Hd; simpl; rewrite lookup_insert_eq.
    + by destruct (cfg_Stacks c !! k).
    + apply not_elem_of_dom in Hd. by rewrite Hd.
  - rewrite lookup_insert_ne, lookup_fmap, lookup_GetAllStacks by done.
    case_decide; simpl; by rewrite lookup_insert_ne.
Qed.

Definition secrets_ok (k : string) (secrets : list string) : Prop :=
  is_ok (ParseStackKey k) = true -> Forall (fun sp => env_extension sp = true) secrets.

Lemma normalize_stacks_ok `{MapRange} h b c c' :
  result_foldl (normalize_one h b) c (map_range "all stacks" (GetAllStacks c)) = Ok c' ->
  same_declarations c c'
  /\ forall k s, GetAllStacks c' !! k = Some s -> secrets_ok k (st_SopsSecrets s).
Proof.
  intros Hl. split.
  - eapply (result_foldl_inv (same_declarations c)); [|done..].
    intros c1 [k st] c2 Hin Hc1. apply elem_of_map_range in Hin.
    by apply normalize_one_same.
  - intros k s Hs.
    eapply (result_foldl_entries (fun c => st_SopsSecrets <$> GetAllStacks c) secrets_ok);
      [| |exact Hl|by rewrite lookup_fmap, Hs].
    + intros c1 [k1 st] c2 _ [[-> Hp]|(st' & Hst' & ->)]%normalize_one_inv.
      * right. split; [done|]. intros v. unfold secrets_ok. simpl. congruence.
      * left. eexists. split; [apply sops_GetAllStacks_insert|]. by intros _.
    + intros k1 v. rewrite lookup_fmap. intros (st & Hst & _)%fmap_Some. left.
      apply list_elem_of_fmap. exists (k1, st). by rewrite elem_of_map_range.
Qed.

Lemma merge_explicit_filesets_stacks `{MapRange} c l :
  let c' := foldl merge_stack_explicit_filesets c l in
  cfg_Stacks c' = cfg_Stacks c /\ cfg_DiscoveredStacks c' = cfg_DiscoveredStacks c
  /\ same_declarations c c'.
Proof.
  cbv zeta. revert c. induction l as [|[k st] l IH]; intros c; cbn [foldl]; [done|].
  assert (let c1 := merge_stack_explicit_filesets c (k, st) in
    cfg_Stacks c1 = cfg_Stacks c /\ cfg_DiscoveredStacks c1 = cfg_DiscoveredStacks c
    /\ same_declarations c c1) as (E1 & E2 & E3).
  { simpl. by destruct (ParseStackKey k) as [[ctx name]|]. }
  destruct (IH (merge_stack_explicit_filesets c (k, st))) as (-> & -> & H3).
  split_and!; [done..|]. by etrans.
Qed.

Lemma normalize_one_fileset_inv b c e c' : normalize_one_fileset b c e = Ok c' ->
  exists f, fileset_ok b f
    /\ c' = with_DiscoveredFilesets (<[e.1 := f]> (cfg_DiscoveredFilesets c)) c.
Proof.
  unfold normalize_one_fileset, mbind, result_bind.
  destruct (normalize_fileset _ _ _) as [f|] eqn:Hf; [|done].
  intros [= <-]. exists f. split; [by eapply normalize_fileset_ok|done].
Qed.

Lemma normalize_filesets_ok `{MapRange} b c c' :
  result_foldl (normalize_one_fileset b) c
    (map_range "all filesets" (cfg_DiscoveredFilesets c)) = Ok c' ->
  same_declarations c c' /\ GetAllStacks c' = GetAllStacks c
  /\ forall k f, cfg_DiscoveredFilesets c' !! k = Some f -> fileset_ok b f.
Proof.
  intros Hl. split_and!.
  - eapply (result_foldl_inv (same_declarations c)); [|done..].
    intros c1 e c2 _ Hc1 (f & _ & ->)%normalize_one_fileset_inv. by etrans.
  - eapply (result_foldl_inv (fun c' => GetAllStacks c' = GetAllStacks c)); [|done..].
    intros c1 e c2 _ Hc1 (f & _ & ->)%normalize_one_fileset_inv. exact Hc1.
  - eapply (result_foldl_entries cfg_DiscoveredFilesets (fun _ => fileset_ok b)); [| |exact Hl].
    + intros c1 e c2 _ (f & Hf & ->)%normalize_one_fileset_inv. left. by exists f.
    + intros k f Hk. left. apply list_elem_of_fmap. exists (k, f).
      by rewrite elem_of_map_range.
Qed.

Lemma normalizeAndValidate_checked `{MapRange} h c b c' :
  normalizeAndValidate h c b = Ok c' ->
  declarations_ok c'
  /\ (forall k s, GetAllStacks c' !! k = Some s -> secrets_ok k (st_SopsSecrets s))
  /\ (forall k f, cfg_DiscoveredFilesets c' !! k = Some f -> fileset_ok b f).
Proof.
  unfold normalizeAndValidate, mbind, result_bind.
  destruct (validate_declarations c) as [c1|] eqn:H1; [|done].
  apply validate_declarations_ok in H1 as [Hok Hs1].
  destruct (result_foldl (normalize_one h b) _ _) as [c2|] eqn:H2; [|done].
  apply normalize_stacks_ok in H2 as [Hs2 Hsec].
  pose proof (merge_explicit_filesets_stacks c2
    (map_range "merge filesets" (GetAllStacks c2))) as (H3 & H3' & Hs3).
  set (c3 := foldl _ _ _) in *.
  destruct (match cfg_Sops c3 with Some _ => _ | None => _ end) as [c4|] eqn:H4; [|done].
  assert (same_declarations c3 c4 /\ GetAllStacks c4 = GetAllStacks c3) as [Hs4 HG].
  { destruct (cfg_Sops c3) as [s|]; [|naive_solver].
    destruct (validate_sops s); [|done]. by injection H4 as <-. }
  intros (Hs5 & HG' & Hfs)%normalize_filesets_ok. split_and!; [|..|done].
  - eapply declarations_ok_same; [|exact Hok]. by do 4 (etrans; [done|]).
  - rewrite HG', HG. unfold GetAllStacks. by rewrite H3, H3'.
Qed.

Lemma LoadWithWarnings_declarations `{MapRange} decode h path c missing :
  LoadWithWarnings decode h path = (Ok c, missing) -> declarations_ok c.
Proof.
  unfold LoadWithWarnings. destruct (resolveConfigPath h path) as [g|]; [|done].
  destruct (Abs h g) as [a|]; [|done]. destruct (os_ReadFile h a) as [b|]; [|done].
  destruct (interpolateEnvPlaceholders _ b) as [txt miss]. destruct (decode txt) as [c0|]; [|done].
  unfold mbind, result_bind. destruct (discoverResources h _ _) as [c1|]; [|done].
  intros [= Hn _]. by apply normalizeAndValidate_checked in Hn as [? _].
Qed.

(** C38: a manifest that loads is well formed.  When [normalizeAndValidate]
    succeeds, for whatever order Go's maps are visited in: the identifier is set;
    there is a context and every context key is well formed; deployments and
    explicit stacks name only declared contexts; every secrets file of every stack
    is an [.env] file; and every fileset has a source, a volume, an absolute target
    path, mode hot or cold, valid trimmed ownership, and its source resolved
    against the manifest's directory. *)
Theorem normalizeAndValidate_ok `{MapRange} h c b c' :
  normalizeAndValidate h c b = Ok c' ->
  declarations_ok c'
  /\ (forall k s, GetAllStacks c' !! k = Some s -> secrets_ok k (st_SopsSecrets s))
  /\ (forall k f, cfg_DiscoveredFilesets c' !! k = Some f -> fileset_ok b f).
Proof. apply normalizeAndValidate_checked. Qed.

(** The discovered example, as it comes out of validation. *)
Lemma normalizeAndValidate_ok_witness :
  exists c1 c2, discoverResources example_host example_config "/base" = Ok c1
    /\ normalizeAndValidate example_host c1 "/base" = Ok c2
    /\ declarations_ok c2
    /\ (fs_ApplyMode <$> cfg_DiscoveredFilesets c2 !! "prod/web/html") = Some "hot".
Proof.
  eexists. eexists. split; [vm_compute; reflexivity|].
  match goal with |- ?A /\ _ => assert A as Hn by (vm_compute; reflexivity) end.
  split; [exact Hn|]. split; [|vm_compute; reflexivity].
  apply (normalizeAndValidate_ok _ _ _ _ Hn).
Defined.

(** ** Inline environment variables *)

(** The value an inline environment gives a variable: its last assignment. *)
Definition last_assignment (k : string) (l : list string) : option string :=
  last (filter (fun kv => env_key kv = k) l).

Lemma env_key_empty : env_key "" = "".
Proof. done. Qed.

Lemma dedup_reversed_keys seen l :
  NoDup (env_key <$> dedup_reversed seen l)
  /\ Forall (fun kv => env_key kv ∉ seen) (dedup_reversed seen l).
Proof.
  revert seen. induction l as [|kv l IH]; intros seen; simpl; [by split; constructor|].
  destruct (_ || _); [apply IH|]. case_bool_decide as Hs; [apply IH|].
  destruct (IH ({[env_key kv]} ∪ seen)) as [Hnd Hf]. rewrite Forall_forall in Hf.
  split; simpl; constructor; try done.
  - intros (y & Hy & Hin)%list_elem_of_fmap. apply (Hf y Hin). set_solver.
  - apply Forall_forall. intros y Hin. specialize (Hf y Hin). set_solver.
Qed.

Lemma dedup_reversed_sublist seen l : dedup_reversed seen l `sublist_of` l.
Proof.
  revert seen. induction l as [|kv l IH]; intros seen; simpl; [constructor|].
  repeat case_match; by constructor.
Qed.

(** Scanning the reversed list keeps the first entry of every fresh key. *)
Lemma dedup_reversed_head seen l k : k <> "" -> k ∉ seen ->
  head (filter (fun kv => env_key kv = k) (dedup_reversed seen l))
  = head (filter (fun kv => env_key kv = k) l).
Proof.
  intros Hk. revert seen. induction l as [|kv l IH]; intros seen Hs; simpl; [done|].
  destruct (_ || _) eqn:He.
  - rewrite filter_cons_False, IH; [done..|].
    apply orb_true_iff in He as [?%bool_decide_eq_true|?%bool_decide_eq_true];
      [subst kv; rewrite env_key_empty|]; congruence.
  - clear He. case_bool_decide as Hin.
    + rewrite filter_cons_False, IH; [done..|]. set_solver.
    + rewrite !filter_cons. case_decide as Hkv; [done|].
      apply IH. set_solver.
Qed.

(** Inline variables, last assignment wins.  The merged inline environment of a
    stack binds each variable once, to the value of its last assignment in the
    manifest, and keeps the order of those assignments. *)
Theorem merge_inline_last_wins l :
  NoDup (env_key <$> merge_inline l)
  /\ merge_inline l `sublist_of` l
  /\ Forall (fun k => k <> "" -> last_assignment k (merge_inline l) = last_assignment k l)
       (env_key <$> l).
Proof.
  unfold merge_inline. destruct (1 <? length l) eqn:Hlen.
  - split_and!.
    + rewrite fmap_reverse, reverse_Permutation. apply dedup_reversed_keys.
    + rewrite <- (reverse_involutive l) at 2. apply sublist_reverse, dedup_reversed_sublist.
    + apply Forall_forall. intros k _ Hk. unfold last_assignment.
      rewrite filter_reverse, last_reverse, dedup_reversed_head by set_solver.
      by rewrite filter_reverse, head_reverse.
  - apply Nat.ltb_ge in Hlen. split_and!; [|done|by apply Forall_forall].
    destruct l as [|x [|y l]]; simpl in *; [constructor|apply NoDup_singleton|lia].
Qed.

(** ** Overrides of discovered filesets *)

(** Filesets declared for discovered stacks are ignored.  The block that merges
    explicit filesets into the discovered ones reads them from [GetAllStacks],
    whose merge drops them: when every explicit stack overrides a discovered one,
    the block changes nothing, whatever filesets the manifest declares. *)
Theorem explicit_filesets_of_discovered_ignored `{MapRange} c :
  (forall k, is_Some (cfg_Stacks c !! k) -> is_Some (cfg_DiscoveredStacks c !! k)) ->
  (forall k s, cfg_DiscoveredStacks c !! k = Some s -> st_Filesets s = ∅) ->
  foldl merge_stack_explicit_filesets c (map_range "merge filesets" (GetAllStacks c)) = c.
Proof.
  intros Hover Hempty.
  assert (forall k s, (k, s) ∈ map_range "merge filesets" (GetAllStacks c) ->
            st_Filesets s = ∅) as Hall.
  { intros k s Hin%elem_of_map_range. rewrite lookup_GetAllStacks in Hin.
    destruct (cfg_DiscoveredStacks c !! k) as [d|] eqn:Hd.
    - destruct (cfg_Stacks c !! k); simplify_eq/=; by eapply Hempty.
    - destruct (Hover k ltac:(by rewrite Hin)) as [? Hd']. congruence. }
  revert Hall. generalize (map_range "merge filesets" (GetAllStacks c)).
  induction l as [|[k st] l IH]; intros Hall; cbn [foldl]; [done|].
  assert (merge_stack_explicit_filesets c (k, st) = c) as ->; [|set_solver].
  simpl. rewrite (Hall k st) by set_solver. destruct (ParseStackKey k) as [[]|]; [|done].
  assert (map_range ("filesets of " +:+ k) (∅ : gmap string FilesetSpec) = []) as ->.
  { apply Permutation_nil_r. by rewrite map_range_perm, map_to_list_empty. }
  by destruct c.
Qed.

(** A manifest that asks for cold mode on a discovered fileset: the block leaves
    the configuration as it is. *)
Lemma explicit_filesets_of_discovered_ignored_witness :
  let cold := mkFileset "" "" "" (mkRestart false []) "cold" [] None "" "" "" in
  let explicit := mkStack "" [] [] [] None None None {["html" := cold]} "" [] [] "" in
  let c := with_Stacks {["prod/web" := explicit]}
             (with_DiscoveredStacks {["prod/web" := example_stack]} example_config) in
  foldl merge_stack_explicit_filesets c (map_range "merge filesets" (GetAllStacks c)) = c.
Proof.
  intros cold explicit c. apply explicit_filesets_of_discovered_ignored; simpl.
  - intros k [s [<- _]%lookup_singleton_Some]. by rewrite lookup_singleton_eq.
  - by intros k s [_ <-]%lookup_singleton_Some.
Defined.
