(* ===== verification/Targets.v ===== *)
(** * Targeting flags ([internal/cli/common/targets.go])

    The [--context], [--stack] and [--deployment] flags restrict a configuration
    to a part of it. *)

From S2P Require Import Prelude GoStrings GoPath Apperr Util Manifest Discovery Validation.

Record TargetOptions := mkTargets {
  t_Contexts : list string; t_Stacks : list string; t_Deployment : string }.

Definition IsEmpty (t : TargetOptions) : bool :=
  bool_decide (t_Contexts t = []) && bool_decide (t_Stacks t = [])
  && bool_decide (t_Deployment t = "").

Definition op_rt : string := "ResolveTargets".

(** A deployment adds its contexts and stacks to the flags. *)
Definition expand_deployment (cfg : Config) (opts : TargetOptions) : res TargetOptions :=
  if bool_decide (t_Deployment opts <> "") then
    match cfg_Deployments cfg !! t_Deployment opts with
    | None => Err (New op_rt InvalidInput "unknown deployment %q" [t_Deployment opts])
    | Some deploy => Ok (mkTargets (t_Contexts opts ++ dep_Contexts deploy)
                           (t_Stacks opts ++ dep_Stacks deploy) "")
    end
  else Ok opts.

Definition allow_context (cfg : Config) (allowed : gset string) (c : string) : res (gset string) :=
  match cfg_Contexts cfg !! c with
  | None => Err (New op_rt InvalidInput "unknown context %q" [c])
  | Some _ => Ok ({[c]} ∪ allowed)
  end.

(** A stack target also allows its context. *)
Definition allow_stack (cfg : Config) (st : gset string * gset string) (s : string)
  : res (gset string * gset string) :=
  match ParseStackKey s with
  | Err e => Err (wrap op_rt InvalidInput e "invalid stack target" [])
  | Ok (context, _) =>
      match cfg_Contexts cfg !! context with
      | None => Err (New op_rt InvalidInput "stack %q references unknown context %q" [s; context])
      | Some _ => Ok ({[context]} ∪ st.1, {[s]} ∪ st.2)
      end
  end.

Definition stackAllowed (contextOnly : bool) (allowedContexts allowedStacks : gset string)
    (key : string) : bool :=
  bool_decide (key ∈ allowedStacks)
  || contextOnly && match ParseStackKey key with
                    | Err _ => false
                    | Ok (context, _) => bool_decide (context ∈ allowedContexts)
                    end.

Definition filesetAllowed (contextOnly : bool) (allowedContexts allowedStacks : gset string)
    (f : FilesetSpec) : bool :=
  bool_decide (fs_Context f ∈ allowedContexts)
  && (contextOnly || stackAllowed contextOnly allowedContexts allowedStacks
                       (MakeStackKey (fs_Context f) (fs_Stack f))).

Definition ResolveTargets (cfg : Config) (opts : TargetOptions) : res Config :=
  if IsEmpty opts then Ok cfg else
  opts ← expand_deployment cfg opts;
  allowedContexts ← result_foldl (allow_context cfg) ∅ (t_Contexts opts);
  allowed ← result_foldl (allow_stack cfg) (allowedContexts, ∅) (t_Stacks opts);
  let '(allowedContexts, allowedStacks) := allowed in
  let contextOnly := bool_decide (t_Stacks opts = []) in
  let ok := stackAllowed contextOnly allowedContexts allowedStacks in
  Ok (mkConfig (cfg_Identifier cfg) (cfg_Sops cfg) (cfg_Discovery cfg)
        (filter (fun e => e.1 ∈ allowedContexts) (cfg_Contexts cfg))
        (cfg_Deployments cfg)
        (filter (fun e => ok e.1 = true) (cfg_Stacks cfg))
        (cfg_BaseDir cfg) true
        (filter (fun e => ok e.1 = true) (cfg_DiscoveredStacks cfg))
        (filter (fun e => filesetAllowed contextOnly allowedContexts allowedStacks e.2 = true)
           (cfg_DiscoveredFilesets cfg))).

(** ** What a target selects *)

(** The flags once the deployment is expanded, and the selection they mean. *)
Definition selected_context (t : TargetOptions) (ctx : string) : Prop :=
  ctx ∈ t_Contexts t \/ exists s name, s ∈ t_Stacks t /\ ParseStackKey s = Ok (ctx, name).
Definition selected_stack (t : TargetOptions) (key : string) : Prop :=
  key ∈ t_Stacks t
  \/ t_Stacks t = [] /\ exists ctx name, ParseStackKey key = Ok (ctx, name) /\ ctx ∈ t_Contexts t.

Lemma allow_contexts_ok cfg l acc acc' :
  result_foldl (allow_context cfg) acc l = Ok acc' ->
  acc' = acc ∪ list_to_set l /\ Forall (fun c => is_Some (cfg_Contexts cfg !! c)) l.
Proof.
  revert acc. induction l as [|c l IH]; intros acc; simpl.
  { intros [= <-]. split; [set_solver|constructor]. }
  unfold allow_context at 1. destruct (cfg_Contexts cfg !! c) eqn:Hc; [|done].
  intros [-> HF]%IH. split; [set_solver|]. constructor; [by rewrite Hc|done].
Qed.

Lemma allow_stacks_ok cfg l acc acc' :
  result_foldl (allow_stack cfg) acc l = Ok acc' ->
  acc'.2 = acc.2 ∪ list_to_set l
  /\ (forall x, x ∈ acc'.1 <-> x ∈ acc.1 \/ exists s name, s ∈ l /\ ParseStackKey s = Ok (x, name))
  /\ Forall (fun s => exists ctx name, ParseStackKey s = Ok (ctx, name)
                      /\ is_Some (cfg_Contexts cfg !! ctx)) l.
Proof.
  revert acc. induction l as [|s l IH]; intros acc; simpl.
  { intros [= <-]. split_and!; [set_solver|set_solver|constructor]. }
  unfold allow_stack at 1. destruct (ParseStackKey s) as [[ctx name]|] eqn:Hs; [|done].
  destruct (cfg_Contexts cfg !! ctx) eqn:Hc; [|done]. intros (H2 & H1 & HF)%IH. simpl in *.
  split_and!.
  - rewrite H2. set_solver.
  - intros x. rewrite H1, elem_of_union, elem_of_singleton. setoid_rewrite elem_of_cons.
    split; [intros [[-> |?]|?]; naive_solver|].
    intros [?|(s' & n' & [-> |?] & Hp)]; [auto| |eauto 6].
    rewrite Hs in Hp. injection Hp as ->. auto.
  - constructor; [|done]. exists ctx, name. by rewrite Hc.
Qed.

Lemma stackAllowed_iff t ctxs stacks key :
  (forall x, x ∈ ctxs <-> selected_context t x) -> stacks = list_to_set (t_Stacks t) ->
  stackAllowed (bool_decide (t_Stacks t = [])) ctxs stacks key = true <-> selected_stack t key.
Proof.
  intros Hctx ->. unfold stackAllowed, selected_stack.
  rewrite orb_true_iff, andb_true_iff, !bool_decide_eq_true, elem_of_list_to_set.
  apply or_iff_compat_l. split.
  - intros [Hnil Hk]. split; [done|]. destruct (ParseStackKey key) as [[ctx name]|]; [|done].
    apply bool_decide_eq_true, Hctx in Hk as [?|(s & n & Hs & _)]; [by eauto|].
    rewrite Hnil in Hs. by apply elem_of_nil in Hs.
  - intros (Hnil & ctx & name & -> & Hin). split; [done|]. apply bool_decide_eq_true, Hctx.
    by left.
Qed.

Lemma ResolveTargets_unfold cfg opts cfg' :
  ResolveTargets cfg opts = Ok cfg' -> IsEmpty opts = false ->
  exists t ctxs, expand_deployment cfg opts = Ok t
    /\ (forall x, x ∈ ctxs <-> selected_context t x)
    /\ (forall x, x ∈ ctxs -> is_Some (cfg_Contexts cfg !! x))
    /\ cfg' = mkConfig (cfg_Identifier cfg) (cfg_Sops cfg) (cfg_Discovery cfg)
        (filter (fun e => e.1 ∈ ctxs) (cfg_Contexts cfg)) (cfg_Deployments cfg)
        (filter (fun e => stackAllowed (bool_decide (t_Stacks t = [])) ctxs
                            (list_to_set (t_Stacks t)) e.1 = true) (cfg_Stacks cfg))
        (cfg_BaseDir cfg) true
        (filter (fun e => stackAllowed (bool_decide (t_Stacks t = [])) ctxs
                            (list_to_set (t_Stacks t)) e.1 = true) (cfg_DiscoveredStacks cfg))
        (filter (fun e => filesetAllowed (bool_decide (t_Stacks t = [])) ctxs
                            (list_to_set (t_Stacks t)) e.2 = true) (cfg_DiscoveredFilesets cfg)).
Proof.
  intros H He. unfold ResolveTargets in H. rewrite He in H. unfold mbind, result_bind in H.
  destruct (expand_deployment cfg opts) as [t|] eqn:Ht; [|done].
  destruct (result_foldl (allow_context cfg) _ _) as [c1|] eqn:H1; [|done].
  destruct (result_foldl (allow_stack cfg) _ _) as [[ctxs stacks]|] eqn:H2; [|done].
  apply allow_contexts_ok in H1 as [-> HF1]. apply allow_stacks_ok in H2 as (Hs & Hc & HF2).
  simpl in Hs, Hc. injection H as <-. exists t, ctxs.
  assert (stacks = list_to_set (t_Stacks t)) as -> by set_solver.
  rewrite Forall_forall in HF1. rewrite Forall_forall in HF2.
  assert (forall x, x ∈ ctxs <-> selected_context t x) as Hsel.
  { intros x. rewrite Hc. unfold selected_context. set_solver. }
  split_and!; [done..| |done].
  intros x [Hx|(s & name & Hs' & Hp)]%Hsel; [by apply HF1|].
  destruct (HF2 s Hs') as (ctx & n & Hp' & ?). congruence.
Qed.

Lemma GetAllStacks_filter (P : string -> Prop) `{forall k, Decision (P k)} cfg cfg' :
  cfg_Stacks cfg' = filter (fun e => P e.1) (cfg_Stacks cfg) ->
  cfg_DiscoveredStacks cfg' = filter (fun e => P e.1) (cfg_DiscoveredStacks cfg) ->
  forall k s, GetAllStacks cfg' !! k = Some s <-> GetAllStacks cfg !! k = Some s /\ P k.
Proof.
  intros HS HD k s. rewrite !lookup_GetAllStacks, HS, HD.
  destruct (decide (P k)) as [Hk|Hk].
  - assert (forall m : gmap string Stack, filter (fun e => P e.1) m !! k = m !! k) as Hf.
    { intros m. destruct (m !! k) eqn:Hm; [by apply map_lookup_filter_Some|].
      apply map_lookup_filter_None. by left. }
    rewrite !Hf. tauto.
  - assert (forall m : gmap string Stack, filter (fun e => P e.1) m !! k = None) as Hf.
    { intros m. apply map_lookup_filter_None. auto. }
    rewrite !Hf. naive_solver.
Qed.

(** The stack [name] of a context is targeted: it is named, or only contexts are and
    its own is among them. *)
Definition targeted_stack (t : TargetOptions) (ctx name : string) : Prop :=
  MakeStackKey ctx name ∈ t_Stacks t \/ (t_Stacks t = [] /\ ctx ∈ t_Contexts t).

(** What [filesetAllowed] lets through, for each way a fileset records its stack. *)
Lemma filesetAllowed_iff t ctxs f : (forall x, x ∈ ctxs <-> selected_context t x) ->
  fs_Context f <> "" -> free slash (fs_Context f) -> fs_Stack f <> "" ->
  filesetAllowed (bool_decide (t_Stacks t = [])) ctxs (list_to_set (t_Stacks t)) f = true
  <-> targeted_stack t (fs_Context f) (fs_Stack f).
Proof.
  intros Hsel Hc Hf Hs. unfold filesetAllowed, targeted_stack.
  rewrite andb_true_iff, orb_true_iff, !bool_decide_eq_true, Hsel.
  rewrite (stackAllowed_iff t ctxs _ _ Hsel eq_refl).
  pose proof (proj2 (ParseStackKey_Ok (MakeStackKey (fs_Context f) (fs_Stack f)) (fs_Context f) (fs_Stack f))) as Hp.
  unfold selected_context, selected_stack. split.
  - intros [Hctx [Hnil|[?|[Hnil _]]]]; [|by left|];
      (right; split; [done|]; destruct Hctx as [?|(s & n & Hin & _)]; [done|];
       rewrite Hnil in Hin; by apply elem_of_nil in Hin).
  - intros [Hin|[Hnil Hctx]]; [|by auto]. split; [right|by auto].
    eexists _, (fs_Stack f). split; [exact Hin|by apply Hp].
Qed.

(** C14: targeting selects what the flags name.  When the flags resolve, the
    configuration is marked as targeted; its contexts are the selected ones, all of
    them declared; its stacks are those named by [--stack], or all those of the
    selected contexts when there is no [--stack], each as in the full configuration.
    Its filesets are among those of the full configuration; a discovered one, which
    records the name of its stack, is kept exactly when that stack is targeted; but
    one declared in the manifest, which records the full key of its stack, is kept
    only when there is no [--stack]: with [--stack] it is dropped, even if its stack is
    the one named (unless the target is the key with the context written twice). *)
Theorem ResolveTargets_exact cfg opts cfg' :
  ResolveTargets cfg opts = Ok cfg' -> IsEmpty opts = false ->
  exists t, expand_deployment cfg opts = Ok t /\ cfg_Targeted cfg' = true
    /\ (forall ctx, selected_context t ctx -> is_Some (cfg_Contexts cfg !! ctx))
    /\ (forall ctx v, cfg_Contexts cfg' !! ctx = Some v <->
          cfg_Contexts cfg !! ctx = Some v /\ selected_context t ctx)
    /\ (forall k s, GetAllStacks cfg' !! k = Some s <->
          GetAllStacks cfg !! k = Some s /\ selected_stack t k)
    /\ cfg_DiscoveredFilesets cfg' ⊆ cfg_DiscoveredFilesets cfg
    /\ (forall k f ctx name, cfg_DiscoveredFilesets cfg !! k = Some f -> fs_Context f = ctx ->
          ctx <> "" -> free slash ctx -> name <> "" ->
          (fs_Stack f = name ->
             cfg_DiscoveredFilesets cfg' !! k = Some f <-> targeted_stack t ctx name)
          /\ (fs_Stack f = MakeStackKey ctx name -> MakeStackKey ctx (MakeStackKey ctx name) ∉ t_Stacks t ->
             cfg_DiscoveredFilesets cfg' !! k = Some f <-> t_Stacks t = [] /\ ctx ∈ t_Contexts t)).
Proof.
  intros H He. destruct (ResolveTargets_unfold _ _ _ H He) as (t & ctxs & Ht & Hsel & Hdecl & ->).
  exists t. split_and!; simpl; [done..| | | | |].
  - intros ctx Hc. by apply Hdecl, Hsel.
  - intros ctx v. rewrite map_lookup_filter_Some. simpl. by rewrite Hsel.
  - intros k s. rewrite <- (stackAllowed_iff t ctxs _ k Hsel eq_refl).
    by apply (GetAllStacks_filter (fun k => stackAllowed (bool_decide (t_Stacks t = [])) ctxs
      (list_to_set (t_Stacks t)) k = true)).
  - apply map_filter_subseteq.
  - intros k f ctx name Hk <- Hne Hfree Hname. rewrite map_lookup_filter_Some. cbn [snd].
    split; intros Hst; [|intros Hno].
    + rewrite (filesetAllowed_iff t ctxs f Hsel), Hst; [tauto|done|done|by rewrite Hst].
    + rewrite (filesetAllowed_iff t ctxs f Hsel), Hst; [unfold targeted_stack; tauto|done|done|].
      rewrite Hst. unfold MakeStackKey. by destruct (fs_Context f).
Qed.

(** [--stack] loses explicit filesets.  Normalisation records the full stack key
    as the stack of a fileset declared in the manifest; the filter prefixes the
    context again, so the doubled key matches no target and the fileset of a
    targeted stack is silently left out. *)
Theorem ResolveTargets_drops_explicit_filesets cfg opts cfg' t ctx name k f :
  ResolveTargets cfg opts = Ok cfg' -> IsEmpty opts = false ->
  expand_deployment cfg opts = Ok t -> t_Stacks t <> [] ->
  MakeStackKey ctx (MakeStackKey ctx name) ∉ t_Stacks t ->
  cfg_DiscoveredFilesets cfg' !! k <> Some (set_owner ctx (MakeStackKey ctx name) f).
Proof.
  intros H He Ht Hne Hno Hk.
  destruct (ResolveTargets_unfold _ _ _ H He) as (t' & ctxs & Ht' & Hsel & _ & ->).
  rewrite Ht' in Ht. injection Ht as ->. simpl in Hk.
  apply map_lookup_filter_Some in Hk as [_ Hk]. simpl in Hk.
  unfold filesetAllowed in Hk. rewrite (bool_decide_false (t_Stacks t = [])) in Hk by done.
  apply andb_true_iff in Hk as [_ Hk]. unfold stackAllowed in Hk. simpl in Hk.
  rewrite orb_false_r in Hk. apply bool_decide_eq_true, elem_of_list_to_set in Hk. done.
Qed.

(** Two contexts; the stack [prod/web] has a discovered and an explicit fileset. *)
Definition target_config : Config :=
  let fsd := mkFileset "html" "web_html" "/" (mkRestart false []) "hot" [] None "/html" "prod" "web" in
  mkConfig "id" None (mkDiscovery [] "" "" "")
    {["prod" := mkContext "" ∅ ∅; "dev" := mkContext "" ∅ ∅]}
    {["all" := mkDeployment "" ["prod"] []]} ∅ "/base" false
    {["prod/web" := empty_stack; "prod/db" := empty_stack; "dev/web" := empty_stack]}
    {["prod/web/html" := fsd; "prod/web/conf" := set_owner "prod" "prod/web" fsd]}.
Definition target_web : TargetOptions := mkTargets [] ["prod/web"] "".

Lemma ResolveTargets_exact_witness :
  exists cfg', ResolveTargets target_config target_web = Ok cfg'
    /\ GetAllStacks cfg' !! "prod/web" = Some empty_stack
    /\ GetAllStacks cfg' !! "dev/web" = None.
Proof.
  eexists. match goal with |- ?A /\ _ => assert A as H by (vm_compute; reflexivity) end.
  split; [exact H|].
  destruct (ResolveTargets_exact _ _ _ H) as (t & Ht & _ & _ & _ & Hst & _); [reflexivity|].
  injection Ht as <-. split.
  - apply Hst. split; [reflexivity|]. left. left.
  - apply eq_None_not_Some. intros [s [_ [Hin|[? _]]]%Hst]; [|done].
    by apply list_elem_of_singleton in Hin.
Defined.

Lemma ResolveTargets_drops_explicit_filesets_witness :
  exists cfg' f, ResolveTargets target_config target_web = Ok cfg'
    /\ cfg_DiscoveredFilesets target_config !! "prod/web/conf"
       = Some (set_owner "prod" (MakeStackKey "prod" "web") f)
    /\ cfg_DiscoveredFilesets cfg' !! "prod/web/conf"
       <> Some (set_owner "prod" (MakeStackKey "prod" "web") f).
Proof.
  eexists. eexists (mkFileset _ _ _ _ _ _ _ _ "" "").
  match goal with |- ?A /\ _ => assert A as H by (vm_compute; reflexivity) end.
  split; [exact H|]. split; [reflexivity|].
  eapply (ResolveTargets_drops_explicit_filesets _ _ _ target_web "prod" "web" _ _ H);
    [reflexivity..|discriminate|].
  by intros ?%list_elem_of_singleton.
Defined.
