(* ===== verification/Sha256.v ===== *)
(** * SHA-256 ([internal/util/hash.go])

    The digest of the Go standard library, on 32-bit words kept in [Z]: the
    content hashes of filesets are evaluated, not assumed. *)

From S2P Require Import Prelude GoStrings.
From Stdlib Require Import Ascii.
Local Open Scope Z_scope.

Definition w32 (x : Z) : Z := x mod 2 ^ 32.
Definition rotr (n x : Z) : Z :=
  Z.lor (Z.shiftr x n) (w32 (Z.shiftl x (32 - n))).

Definition Ch (x y z : Z) : Z := Z.lxor (Z.land x y) (Z.land (Z.lxor x 0xffffffff) z).
Definition Maj (x y z : Z) : Z :=
  Z.lxor (Z.lxor (Z.land x y) (Z.land x z)) (Z.land y z).
Definition Sigma0 (x : Z) : Z := Z.lxor (Z.lxor (rotr 2 x) (rotr 13 x)) (rotr 22 x).
Definition Sigma1 (x : Z) : Z := Z.lxor (Z.lxor (rotr 6 x) (rotr 11 x)) (rotr 25 x).
Definition sigma0 (x : Z) : Z := Z.lxor (Z.lxor (rotr 7 x) (rotr 18 x)) (Z.shiftr x 3).
Definition sigma1 (x : Z) : Z := Z.lxor (Z.lxor (rotr 17 x) (rotr 19 x)) (Z.shiftr x 10).

(** The constants, as FIPS 180-4 defines them: the first 32 bits of the fractional
    parts of the roots of the first primes (cube roots for the rounds, square
    roots for the initial digest), by integer root extraction, one bit a step. *)
Fixpoint iroot (k : Z) (bits : nat) (r n : Z) : Z :=
  match bits with
  | 0%nat => r
  | S b => let c := r + 2 ^ Z.of_nat b in iroot k b (if c ^ k <=? n then c else r) n
  end.

Definition root_fraction (k p : Z) : Z := w32 (iroot k 40 0 (p * 2 ^ (32 * k))).

Definition is_prime (n : Z) : bool :=
  (2 <=? n) && forallb (fun d => negb (n mod d =? 0)) (seqZ 2 (n - 2)).

Definition primes : list Z := Eval vm_compute in filter (fun n => is_prime n = true) (seqZ 0 312).

Definition round_constants : list Z := Eval vm_compute in root_fraction 3 <$> primes.

Record digest := mkDigest { d0 : Z; d1 : Z; d2 : Z; d3 : Z; d4 : Z; d5 : Z; d6 : Z; d7 : Z }.

Definition initial_digest : digest := Eval vm_compute in
  match root_fraction 2 <$> take 8 primes with
  | [a; b; c; d; e; f; g; h] => mkDigest a b c d e f g h
  | _ => mkDigest 0 0 0 0 0 0 0 0
  end.

(** The next word of the message schedule from the last sixteen, newest first. *)
Definition schedule_next (w : list Z) : Z :=
  let at_ i := nth i w 0 in
  w32 (sigma1 (at_ 1%nat) + at_ 6%nat + sigma0 (at_ 14%nat) + at_ 15%nat).

Fixpoint schedule (n : nat) (w : list Z) : list Z :=
  match n with 0%nat => w | S n => schedule n (schedule_next w :: w) end.

Definition round (d : digest) (kw : Z * Z) : digest :=
  let t1 := d7 d + Sigma1 (d4 d) + Ch (d4 d) (d5 d) (d6 d) + kw.1 + kw.2 in
  let t2 := Sigma0 (d0 d) + Maj (d0 d) (d1 d) (d2 d) in
  mkDigest (w32 (t1 + t2)) (d0 d) (d1 d) (d2 d) (w32 (d3 d + t1)) (d4 d) (d5 d) (d6 d).

Definition add_digest (a b : digest) : digest :=
  mkDigest (w32 (d0 a + d0 b)) (w32 (d1 a + d1 b)) (w32 (d2 a + d2 b)) (w32 (d3 a + d3 b))
    (w32 (d4 a + d4 b)) (w32 (d5 a + d5 b)) (w32 (d6 a + d6 b)) (w32 (d7 a + d7 b)).

(** One block of sixteen big-endian words. *)
Definition block (d : digest) (words : list Z) : digest :=
  add_digest d (foldl round d (zip round_constants (reverse (schedule 48 (reverse words))))).

(** Padding to a multiple of 64 bytes, the bit length in the last eight. *)
Fixpoint be_bytes (n : nat) (v : Z) : list Z :=
  match n with 0%nat => [] | S n => be_bytes n (v / 256) ++ [v mod 256] end.

Definition pad (bytes : list Z) : list Z :=
  let n := Z.of_nat (length bytes) in
  bytes ++ [0x80] ++ repeat 0 (Z.to_nat ((55 - n) mod 64)) ++ be_bytes 8 (n * 8).

Fixpoint words (bytes : list Z) : list Z :=
  match bytes with
  | a :: b :: c :: d :: rest => (((a * 256 + b) * 256 + c) * 256 + d) :: words rest
  | _ => []
  end.

(** Blocks of sixteen words; the number of words bounds the number of blocks. *)
Fixpoint blocks (fuel : nat) (d : digest) (ws : list Z) : digest :=
  match fuel, ws with
  | S fuel, _ :: _ => blocks fuel (block d (firstn 16 ws)) (skipn 16 ws)
  | _, _ => d
  end.

Definition Sum256 (s : string) : digest :=
  let ws := words (pad ((fun c => Z.of_nat (code c)) <$> String.list_ascii_of_string s)) in
  blocks (length ws) initial_digest ws.

(** [hex.EncodeToString] *)
Definition hex_nibble (n : Z) : ascii := ascii_of_nat (Z.to_nat (if n <? 10 then 48 + n else 87 + n)).
Definition hex_byte (b : Z) : string := String (hex_nibble (b / 16)) (String (hex_nibble (b mod 16)) "").
Definition hex (bytes : list Z) : string := foldr (fun b s => hex_byte b +:+ s) "" bytes.

Definition Sha256Hex (s : string) : string :=
  let d := Sum256 s in
  hex (concat (be_bytes 4 <$> [d0 d; d1 d; d2 d; d3 d; d4 d; d5 d; d6 d; d7 d])).

Definition Sha256StringHex (s : string) : string := Sha256Hex s.

(** The published test vectors of one and of two blocks. *)
Example Sha256_abc : Sha256StringHex "abc" =
  "ba7816bf8f01cfea414140de5dae2223b00361a396177a9cb410ff61f20015ad".
Proof. vm_compute. reflexivity. Qed.

Example Sha256_two_blocks :
  Sha256StringHex "abcdbcdecdefdefgefghfghighijhijkijkljklmklmnlmnomnopnopq" =
  "248d6a61d20638b8e5c026930c3e6039a33ce45964ff2167f6ecedd419db06c1".
Proof. vm_compute. reflexivity. Qed.

(** ** The shape of a digest: lowercase hexadecimal *)

Definition hex_char (c : ascii) : Prop := is_digit c = true \/ byte_in 97 102 c = true.

Lemma hex_nibble_char n : 0 <= n < 16 -> hex_char (hex_nibble n).
Proof.
  intros Hn. assert (n ∈ seqZ 0 16) as Hin by (apply elem_of_seqZ; lia).
  revert Hin. vm_compute seqZ. unfold hex_char.
  rewrite !elem_of_cons, elem_of_nil. intros; repeat (destruct_or?; subst; try done);
    try (left; reflexivity); right; reflexivity.
Qed.

Lemma be_bytes_byte n v : Forall (fun b => 0 <= b < 256) (be_bytes n v).
Proof.
  revert v. induction n as [|n IH]; intros v; simpl; [constructor|].
  apply Forall_app. split; [apply IH|]. constructor; [apply Z.mod_pos_bound; lia|constructor].
Qed.

Lemma hex_chars bytes : Forall (fun b => 0 <= b < 256) bytes ->
  Forall hex_char (chars (hex bytes)).
Proof.
  induction 1 as [|b bs Hb _ IH]; [constructor|]. simpl.
  constructor; [|constructor; [|exact IH]].
  - apply hex_nibble_char. split; [apply Z.div_pos; lia|apply Z.div_lt_upper_bound; lia].
  - apply hex_nibble_char, Z.mod_pos_bound. lia.
Qed.

Lemma Sha256Hex_chars s : Forall hex_char (chars (Sha256Hex s)).
Proof.
  unfold Sha256Hex. apply hex_chars, Forall_concat, Forall_fmap, Forall_true.
  intros x. apply be_bytes_byte.
Qed.
