(* ===== verification/Filesets.v ===== *)
(** * Fileset indexes ([internal/filesets/index.go])

    The index of a local directory, its tree hash, and the diff between a local
    and a remote index.  The glob matcher ([doublestar.PathMatch]) is a library:
    it is a parameter of the exclude rules. *)

From S2P Require Import Prelude GoStrings GoPath Apperr Util Sha256.
From Stdlib Require Import Ascii DecimalPos DecimalZ.

Definition IndexFileName : string := ".dockform-index.json".

Record FileEntry := mkFile { fe_Path : string; fe_Size : Z; fe_Sha256 : string }.

#[global] Instance FileEntry_eq_dec : EqDecision FileEntry.
Proof. solve_decision. Defined.

Record Index := mkIndex {
  ix_Version : string; ix_Target : string; ix_CreatedAt : string; ix_Exclude : list string;
  ix_UID : Z; ix_GID : Z; ix_Files : list FileEntry; ix_TreeHash : string }.

(** Entries ordered by path, as [sort.Slice] is used on them. *)
Definition path_le (a b : FileEntry) : Prop := String.le (fe_Path a) (fe_Path b).
#[global] Instance path_le_dec : RelDecision path_le.
Proof. intros a b. unfold path_le. apply _. Defined.
Definition sort_files : list FileEntry -> list FileEntry := merge_sort path_le.

(** ** Exclude patterns *)

Definition normalize_pattern (raw : string) : string :=
  let p := TrimSpace raw in
  if HasSuffix p "/" then p +:+ "**" else p.

(** Blank patterns are dropped, directory patterns expanded, duplicates removed;
    [filepath.ToSlash] is the identity on Unix. *)
Definition normalizeExcludePatterns (patterns : list string) : list string :=
  let out := dedup (normalize_pattern <$> filter (fun raw => TrimSpace raw <> "") patterns) in
  if 1 <? length out then sort_strings out else out.

(** ** The local index *)

Definition ErrInvalid : error := Plain "invalid argument".

Section BuildIndex.
(** The glob matcher; a pattern it rejects matches nothing. *)
Context (PathMatch : string -> string -> bool).

Definition isExcluded (normEx : list string) (relSlash : string) : bool :=
  existsb (fun pat => PathMatch pat relSlash) normEx.

(** Failures of the file system: listing a directory or reading a file, and
    [DirEntry.Info]. *)
Context (read_err info_err : string -> option error).

(** The callback on one entry below the root; [below] walks its children. *)
Definition index_entry (normEx : list string) (below : res (list FileEntry))
    (rel : string) (n : node) : res (list FileEntry) :=
  if HasPrefix rel ".." then Err ErrInvalid else
  match n with
  | NDir _ _ => if isExcluded normEx rel then Ok [] else below
  | NSymlink _ _ => Ok []
  | NSpecial _ => match info_err rel with Some e => Err e | None => Ok [] end
  | NFile _ content =>
      match info_err rel with
      | Some e => Err e
      | None =>
          if isExcluded normEx rel then Ok [] else
          match read_err rel with
          | Some e => Err e
          | None => Ok [mkFile rel (Z.of_nat (String.length content))
                          (Sha256StringHex content)]
          end
      end
  end.

(** [WalkDir] below a directory, entries in order; the first error ends it. *)
Fixpoint index_walk (normEx : list string) (prefix : string) (n : node)
  : res (list FileEntry) :=
  match n with
  | NDir _ entries =>
      match read_err prefix with
      | Some e => Err e
      | None =>
          (fix go (l : list (string * node)) : res (list FileEntry) :=
             match l with
             | [] => Ok []
             | (name, c) :: l =>
                 let rel := rel_join prefix name in
                 fs ← index_entry normEx (index_walk normEx rel c) rel c;
                 rest ← go l;
                 Ok (fs ++ rest)
             end) entries
      end
  | _ => Ok []
  end.

Definition entry_bytes (f : FileEntry) : string :=
  fe_Path f +:+ String "000" (FormatInt (fe_Size f)
    +:+ String "000" (fe_Sha256 f +:+ String "010" "")).
Definition tree_string (files : list FileEntry) : string :=
  foldr (fun f s => entry_bytes f +:+ s) "" files.

(** The tree under the source directory, or why it cannot be walked, and the
    formatted current time. *)
Definition BuildLocalIndex (tree : res node) (now targetPath : string)
    (excludes : list string) : res Index :=
  let normEx := normalizeExcludePatterns excludes in
  root ← tree;
  files ← index_walk normEx "" root;
  let files := sort_files files in
  Ok (mkIndex "v1" targetPath now normEx 0 0 files (Sha256StringHex (tree_string files))).
End BuildIndex.

(** ** The index as JSON

    The encoder and the decoder are Go's [encoding/json] on the struct. *)
Class IndexCodec := {
  json_Marshal : Index -> res string;
  json_Unmarshal : string -> res Index;
}.

(** The zero index with version [v1]. *)
Definition empty_index : Index := mkIndex "v1" "" "" [] 0 0 [] "".

Definition ParseIndexJSON `{IndexCodec} (s : string) : res Index :=
  if bool_decide (TrimSpace s = "") then Ok empty_index else json_Unmarshal s.

Definition ToJSON `{IndexCodec} (i : Index) : res string := json_Marshal i.

(** ** The diff *)

Record Diff := mkDiff {
  ToCreate : list FileEntry; ToUpdate : list FileEntry; ToDelete : list string }.

(** The map a loop over the entries builds: the last entry of a path wins. *)
Definition files_map (l : list FileEntry) : gmap string FileEntry :=
  foldl (fun m f => <[fe_Path f := f]> m) ∅ l.

Definition changed (rf lf : FileEntry) : bool :=
  bool_decide (fe_Sha256 rf <> fe_Sha256 lf) || bool_decide (fe_Size rf <> fe_Size lf).

(** A local file the remote has with other content. *)
Definition needs_update (rIndex : gmap string FileEntry) (lf : FileEntry) : bool :=
  match rIndex !! fe_Path lf with Some rf => changed rf lf | None => false end.

Definition DiffIndexes (local remote : Index) : Diff :=
  if bool_decide (ix_TreeHash local <> "")
     && bool_decide (ix_TreeHash local = ix_TreeHash remote)
  then mkDiff [] [] []
  else
    let rIndex := files_map (ix_Files remote) in
    let lIndex := files_map (ix_Files local) in
    mkDiff
      (sort_files (filter (fun lf => rIndex !! fe_Path lf = None) (ix_Files local)))
      (sort_files (filter (fun lf => needs_update rIndex lf = true) (ix_Files local)))
      (sort_strings (filter (fun p => lIndex !! p = None) (fe_Path <$> ix_Files remote))).

(** ** The map of an index *)

Lemma files_map_snoc l f : files_map (l ++ [f]) = <[fe_Path f := f]> (files_map l).
Proof. unfold files_map. by rewrite foldl_app. Qed.

Lemma files_map_path l p f : files_map l !! p = Some f -> fe_Path f = p /\ f ∈ l.
Proof.
  induction l as [|g l IH] using rev_ind; [done|]. rewrite files_map_snoc.
  rewrite lookup_insert_Some, elem_of_app, list_elem_of_singleton. naive_solver.
Qed.

Lemma files_map_is_Some l p : is_Some (files_map l !! p) <-> p ∈ fe_Path <$> l.
Proof.
  induction l as [|g l IH] using rev_ind.
  { split; [by intros [? ?]|by intros ?%elem_of_nil]. }
  rewrite files_map_snoc, lookup_insert_is_Some', fmap_app, elem_of_app, IH.
  simpl. rewrite list_elem_of_singleton. naive_solver.
Qed.

Lemma files_map_elem l f : NoDup (fe_Path <$> l) -> f ∈ l -> files_map l !! fe_Path f = Some f.
Proof.
  induction l as [|g l IH] using rev_ind; [by intros _ ?%elem_of_nil|].
  rewrite fmap_app, NoDup_app. intros (Hnd & Hdis & _).
  rewrite files_map_snoc, elem_of_app, list_elem_of_singleton. intros [Hin| ->].
  - rewrite lookup_insert_ne; [by apply IH|]. intros Heq.
    apply (Hdis (fe_Path f)); [by apply list_elem_of_fmap_2|]. simpl. set_solver.
  - by rewrite lookup_insert_eq.
Qed.

Lemma sort_files_perm l : sort_files l ≡ₚ l.
Proof. apply merge_sort_Permutation. Qed.

Lemma sort_files_sorted l : StronglySorted path_le (sort_files l).
Proof.
  apply Sorted_StronglySorted.
  - intros a b c. unfold path_le. apply (transitivity (R := String.le)).
  - apply Sorted_merge_sort. intros a b. unfold path_le. apply (total String.le).
Qed.

Lemma changed_false rf lf : fe_Path rf = fe_Path lf -> changed rf lf = false -> rf = lf.
Proof.
  destruct rf, lf. unfold changed. simpl. intros -> [H1 H2]%orb_false_iff.
  apply bool_decide_eq_false, dec_stable in H1, H2. congruence.
Qed.

(** ** Applying a diff *)

(** What a diff does to the files of a volume: write, then remove. *)
Definition apply_diff (d : Diff) (m : gmap string FileEntry) : gmap string FileEntry :=
  foldr delete (foldr (fun f m => <[fe_Path f := f]> m) m (ToCreate d ++ ToUpdate d))
    (ToDelete d).

Lemma lookup_foldr_delete (l : list string) (m : gmap string FileEntry) p :
  foldr delete m l !! p = if decide (p ∈ l) then None else m !! p.
Proof.
  induction l as [|q l IH]; simpl; [done|].
  destruct (decide (p = q)) as [->|Hne].
  - rewrite lookup_delete_eq, decide_True by set_solver. done.
  - rewrite lookup_delete_ne, IH by done. repeat case_decide; set_solver.
Qed.

Lemma lookup_foldr_insert l (m : gmap string FileEntry) p :
  NoDup (fe_Path <$> l) ->
  (forall f, f ∈ l -> fe_Path f = p -> foldr (fun f m => <[fe_Path f := f]> m) m l !! p = Some f)
  /\ (p ∉ fe_Path <$> l -> foldr (fun f m => <[fe_Path f := f]> m) m l !! p = m !! p).
Proof.
  induction l as [|g l IH]; intros Hnd; simpl.
  { split; [by intros ? ?%elem_of_nil|done]. }
  apply NoDup_cons in Hnd as [Hg Hnd]. destruct (IH Hnd) as [IH1 IH2]. split.
  - intros f [-> |Hf]%elem_of_cons <-; [by rewrite lookup_insert_eq|].
    rewrite lookup_insert_ne; [by apply IH1|]. intros Heq. apply Hg. rewrite Heq.
    by apply list_elem_of_fmap_2.
  - rewrite not_elem_of_cons. intros [Hne Hp]. rewrite lookup_insert_ne by done. auto.
Qed.

(** The full comparison, below the shortcut on equal hashes. *)
Definition compare_files (local remote : Index) : Diff :=
  DiffIndexes (mkIndex (ix_Version local) (ix_Target local) (ix_CreatedAt local)
    (ix_Exclude local) (ix_UID local) (ix_GID local) (ix_Files local) "") remote.

Section DiffFacts.
Context (local remote : Index).
Context (Hnd : NoDup (fe_Path <$> ix_Files local)).
Let d := compare_files local remote.
Let R := files_map (ix_Files remote).
Let L := files_map (ix_Files local).

Lemma elem_of_ToCreate f : f ∈ ToCreate d <-> f ∈ ix_Files local /\ R !! fe_Path f = None.
Proof. unfold d, compare_files. simpl. rewrite sort_files_perm, list_elem_of_filter. naive_solver. Qed.

Lemma elem_of_ToUpdate f : f ∈ ToUpdate d <->
  f ∈ ix_Files local /\ exists g, R !! fe_Path f = Some g /\ g <> f.
Proof.
  unfold d, compare_files. simpl. rewrite sort_files_perm, list_elem_of_filter. fold R.
  unfold needs_update. destruct (R !! fe_Path f) as [g|] eqn:Hg; [|naive_solver].
  apply files_map_path in Hg as [Hp _]. destruct (changed g f) eqn:Hc.
  - split; [|naive_solver]. intros [_ ?]. split; [done|]. exists g. split; [done|].
    intros ->. unfold changed in Hc. rewrite !bool_decide_false in Hc by auto. done.
  - apply changed_false in Hc; [|done]. naive_solver.
Qed.

Lemma elem_of_ToDelete p : p ∈ ToDelete d <-> is_Some (R !! p) /\ L !! p = None.
Proof.
  unfold d, compare_files. simpl. rewrite elem_of_sort_strings, list_elem_of_filter.
  unfold R, L. rewrite files_map_is_Some. naive_solver.
Qed.

Lemma NoDup_writes : NoDup (fe_Path <$> (ToCreate d ++ ToUpdate d)).
Proof.
  assert (forall (P : FileEntry -> Prop) `{forall x, Decision (P x)},
            NoDup (fe_Path <$> sort_files (filter P (ix_Files local)))) as Hf.
  { intros P ?. rewrite sort_files_perm.
    eapply sublist_NoDup; [exact Hnd|]. apply sublist_fmap, sublist_filter. }
  rewrite fmap_app. apply NoDup_app. split_and!; [apply Hf| |apply Hf].
  intros p (f & -> & Hf1)%list_elem_of_fmap (g & Hfg & Hg)%list_elem_of_fmap.
  apply elem_of_ToCreate in Hf1 as [_ Hf1]. apply elem_of_ToUpdate in Hg as (_ & h & Hh & _).
  congruence.
Qed.

Lemma apply_compare_files : apply_diff d R = L.
Proof.
  apply map_eq. intros p. unfold apply_diff. rewrite lookup_foldr_delete.
  destruct (lookup_foldr_insert (ToCreate d ++ ToUpdate d) R p NoDup_writes) as [Hin Hout].
  destruct (decide (p ∈ ToDelete d)) as [[_ ->]%elem_of_ToDelete|Hdel]; [done|].
  destruct (L !! p) as [f|] eqn:HL.
  - apply files_map_path in HL as [Hp Hf].
    destruct (R !! p) as [g|] eqn:HR; [destruct (decide (g = f)) as [->|Hne]|].
    + rewrite Hout; [done|]. intros (h & Hph & Hh)%list_elem_of_fmap.
      assert (h = f) as ->.
      { assert (h ∈ ix_Files local) as Hh' by
          (apply elem_of_app in Hh as [?%elem_of_ToCreate|?%elem_of_ToUpdate]; naive_solver).
        apply (files_map_elem _ _ Hnd) in Hh', Hf. congruence. }
      apply elem_of_app in Hh as [[_ ?]%elem_of_ToCreate|(_ & g & ? & ?)%elem_of_ToUpdate];
        congruence.
    + apply Hin; [|done]. apply elem_of_app. right. apply elem_of_ToUpdate.
      rewrite Hp. eauto.
    + apply Hin; [|done]. apply elem_of_app. left. apply elem_of_ToCreate. by rewrite Hp.
  - rewrite Hout.
    + destruct (R !! p) eqn:HR; [|done]. exfalso. apply Hdel, elem_of_ToDelete. by rewrite HR.
    + intros (h & -> & Hh)%list_elem_of_fmap.
      assert (h ∈ ix_Files local) as Hh' by
        (apply elem_of_app in Hh as [?%elem_of_ToCreate|?%elem_of_ToUpdate]; naive_solver).
      apply (files_map_elem _ _ Hnd) in Hh'. unfold L in HL. congruence.
Qed.
End DiffFacts.

(** ** The tree hash *)

(** What the encoding needs of an entry: a path without NUL byte, no newline in
    the digest. *)
Definition entry_plain (f : FileEntry) : Prop :=
  free "000"%char (fe_Path f) /\ free "010"%char (fe_Sha256 f) /\ fe_Path f <> "".

Lemma FormatInt_chars z : forall c, c ∈ chars (FormatInt z) -> is_digit c = true \/ c = "-"%char.
Proof.
  assert (forall u c, c ∈ chars (DecimalString.NilEmpty.string_of_uint u) -> is_digit c = true) as Hu.
  { induction u; simpl; intros c; [by intros ?%elem_of_nil|..];
      (intros [-> |?]%elem_of_cons; [done|auto]). }
  assert (forall u c, c ∈ chars (DecimalString.NilZero.string_of_uint u) -> is_digit c = true) as Hz.
  { intros u c. unfold DecimalString.NilZero.string_of_uint.
    destruct u; [by intros ->%list_elem_of_singleton|apply Hu..]. }
  unfold FormatInt, DecimalString.NilZero.string_of_int. intros c. destruct (Z.to_int z).
  - left. by eapply Hz.
  - intros [-> |?]%elem_of_cons; [by right|left; by eapply Hz].
Qed.

Lemma FormatInt_free z : free "000"%char (FormatInt z).
Proof. intros [?| ?]%FormatInt_chars; done. Qed.

Lemma FormatInt_inj z1 z2 : FormatInt z1 = FormatInt z2 -> z1 = z2.
Proof.
  unfold FormatInt. intros H.
  apply (f_equal DecimalString.NilZero.int_of_string) in H.
  assert (forall z, Z.to_int z <> Decimal.Pos Decimal.Nil /\ Z.to_int z <> Decimal.Neg Decimal.Nil) as Hne.
  { intros [|p|p]; simpl; [done|..]; split; try discriminate; intros [= Hp];
      by apply (DecimalPos.Unsigned.to_uint_nonnil p). }
  rewrite !DecimalString.NilZero.isi in H by apply Hne.
  apply (f_equal (fun o => match o with Some i => Z.of_int i | None => 0%Z end)) in H.
  by rewrite !DecimalZ.of_to in H.
Qed.

Lemma Cut_app a b c : free c a -> Cut (a +:+ String c b) c = Some (a, b).
Proof. intros. by apply Cut_Some. Qed.

Lemma entry_bytes_inj f g s t : entry_plain f -> entry_plain g ->
  entry_bytes f +:+ s = entry_bytes g +:+ t -> f = g /\ s = t.
Proof.
  destruct f as [p z h], g as [p' z' h']. intros (Hp & Hh & _) (Hp' & Hh' & _). unfold entry_bytes. simpl in *.
  rewrite !string_app_assoc, !string_app_cons, !string_app_assoc, !string_app_cons,
    !string_app_assoc, !string_app_cons, !string_app_nil_l.
  intros H. apply (f_equal (fun s => Cut s "000"%char)) in H.
  rewrite !Cut_app in H by done. injection H as -> H.
  apply (f_equal (fun s => Cut s "000"%char)) in H.
  rewrite !Cut_app in H by apply FormatInt_free. injection H as Hz H.
  apply (f_equal (fun s => Cut s "010"%char)) in H.
  rewrite !Cut_app in H by done. injection H as -> ->.
  by apply FormatInt_inj in Hz as ->.
Qed.

Lemma tree_string_inj fs gs : Forall entry_plain fs -> Forall entry_plain gs ->
  tree_string fs = tree_string gs -> fs = gs.
Proof.
  intros Hf. revert gs. induction Hf as [|f fs Hf _ IH]; intros gs Hg.
  - destruct gs as [|g gs]; [done|]. unfold tree_string, entry_bytes; simpl.
    by destruct (fe_Path g).
  - destruct Hg as [|g gs Hg Hgs]; simpl.
    { unfold tree_string, entry_bytes; simpl. by destruct (fe_Path f). }
    intros [-> H]%entry_bytes_inj; [|done..]. f_equal. by apply IH.
Qed.

(** An index as [BuildLocalIndex] produces it: distinct paths without NUL, hex
    digests, and the hash of its files. *)
Record index_ok (i : Index) : Prop := {
  iok_paths : NoDup (fe_Path <$> ix_Files i);
  iok_plain : Forall entry_plain (ix_Files i);
  iok_hash : ix_TreeHash i = Sha256StringHex (tree_string (ix_Files i));
}.

(** A remote index is one this program wrote, or the empty one of a volume that has
    none. *)
Definition remote_ok (i : Index) : Prop :=
  index_ok i \/ (ix_TreeHash i = "" /\ ix_Files i = []).

(** The digest does not collide on the two trees compared. *)
Definition no_collision (l r : Index) : Prop :=
  Sha256StringHex (tree_string (ix_Files l)) = Sha256StringHex (tree_string (ix_Files r)) ->
  tree_string (ix_Files l) = tree_string (ix_Files r).

Lemma DiffIndexes_cases local remote :
  (ix_TreeHash local <> "" /\ ix_TreeHash local = ix_TreeHash remote
     /\ DiffIndexes local remote = mkDiff [] [] [])
  \/ DiffIndexes local remote = compare_files local remote.
Proof.
  unfold DiffIndexes at 1 2. destruct (bool_decide _ && _) eqn:H; [|by right].
  boolify. by left.
Qed.

Lemma Sha256Hex_nonempty s : Sha256StringHex s <> "".
Proof. unfold Sha256StringHex, Sha256Hex. simpl. done. Qed.

Lemma equal_hash_equal_files l r : index_ok l -> remote_ok r -> no_collision l r ->
  ix_TreeHash l = ix_TreeHash r -> ix_Files l = ix_Files r.
Proof.
  intros [_ Hl El] [[_ Hr Er]|[Er _]] Hc H; rewrite El, Er in H.
  - apply tree_string_inj; auto.
  - by apply Sha256Hex_nonempty in H.
Qed.

Lemma diff_empty_iff local remote :
  index_ok local -> remote_ok remote -> no_collision local remote ->
  DiffIndexes local remote = mkDiff [] [] []
  <-> files_map (ix_Files local) = files_map (ix_Files remote).
Proof.
  intros Hl Hr Hc. split.
  - intros Hd. destruct (DiffIndexes_cases local remote) as [(_ & He & _)|Hcmp].
    + by rewrite (equal_hash_equal_files local remote).
    + rewrite <- (apply_compare_files local remote) by apply Hl. by rewrite <- Hcmp, Hd.
  - intros Heq. destruct (DiffIndexes_cases local remote) as [(_ & _ & ->)| ->]; [done|].
    destruct (compare_files local remote) as [cr up de] eqn:Hd. f_equal;
      apply list_eq_nil_elem; intros x Hx.
    + assert (x ∈ ToCreate (compare_files local remote)) as [Hin Hn]%elem_of_ToCreate by (by rewrite Hd).
      apply (files_map_elem _ _ (iok_paths _ Hl)) in Hin. congruence.
    + assert (x ∈ ToUpdate (compare_files local remote)) as (Hin & g & Hg & Hne)%elem_of_ToUpdate
        by (by rewrite Hd).
      apply (files_map_elem _ _ (iok_paths _ Hl)) in Hin. congruence.
    + assert (x ∈ ToDelete (compare_files local remote)) as [[? ?] ?]%elem_of_ToDelete
        by (by rewrite Hd). congruence.
Qed.

(** C10: a diff brings a volume to the local tree.  Writing the created and updated
    entries and removing the deleted ones turns the files of the remote index into
    exactly those of the local one; also when the equal tree hashes made the
    comparison stop early, as long as SHA-256 does not collide on the two trees. *)
Theorem DiffIndexes_apply local remote :
  index_ok local -> remote_ok remote -> no_collision local remote ->
  apply_diff (DiffIndexes local remote) (files_map (ix_Files remote))
  = files_map (ix_Files local).
Proof.
  intros Hl Hr Hc. destruct (DiffIndexes_cases local remote) as [(_ & He & ->)| ->].
  - by rewrite (equal_hash_equal_files local remote).
  - apply apply_compare_files, Hl.
Qed.

(** A diff does no needless work.  It creates only files the remote lacks,
    rewrites only files whose content differs, removes only remote files the local
    tree no longer has, so no local file is ever deleted, and never lists a path
    in two places. *)
Theorem DiffIndexes_minimal local remote :
  index_ok local ->
  let d := DiffIndexes local remote in
  let R := files_map (ix_Files remote) in
  (forall f, f ∈ ToCreate d -> f ∈ ix_Files local /\ R !! fe_Path f = None)
  /\ (forall f, f ∈ ToUpdate d -> f ∈ ix_Files local /\ exists g, R !! fe_Path f = Some g /\ g <> f)
  /\ (forall p, p ∈ ToDelete d -> is_Some (R !! p) /\ p ∉ fe_Path <$> ix_Files local)
  /\ NoDup (fe_Path <$> (ToCreate d ++ ToUpdate d)).
Proof.
  intros Hl d R. subst d R.
  destruct (DiffIndexes_cases local remote) as [(_ & _ & ->)| ->].
  { simpl. split_and!; try (by intros ? ?%elem_of_nil). constructor. }
  split_and!.
  - intros f. by rewrite elem_of_ToCreate.
  - intros f. by rewrite elem_of_ToUpdate.
  - intros p [? Hp]%elem_of_ToDelete. split; [done|]. rewrite <- files_map_is_Some, Hp.
    by intros [? ?].
  - apply NoDup_writes, Hl.
Qed.

(** Nothing to do exactly when nothing changed.  The diff is empty if and only
    if the two indexes describe the same files. *)
Theorem DiffIndexes_empty_iff local remote :
  index_ok local -> remote_ok remote -> no_collision local remote ->
  DiffIndexes local remote = mkDiff [] [] []
  <-> files_map (ix_Files local) = files_map (ix_Files remote).
Proof. apply diff_empty_iff. Qed.

(** ** What the local index holds *)

Lemma node_tree_ind (P : node -> Prop) :
  (forall perm s, P (NFile perm s)) ->
  (forall perm es, Forall (fun e => P e.2) es -> P (NDir perm es)) ->
  (forall perm s, P (NSymlink perm s)) ->
  (forall perm, P (NSpecial perm)) ->
  forall n, P n.
Proof.
  intros Hf Hd Hs Hx. fix IH 1. intros [perm s|perm es|perm s|perm];
    [apply Hf| |apply Hs|apply Hx].
  apply Hd. induction es as [|e es IHes]; constructor; [apply IH|exact IHes].
Qed.

(** [reaches ex prefix n rel c]: the walk that skips the directories [ex] excludes
    visits [c] at [rel]. *)
Inductive reaches (ex : string -> bool) : string -> node -> string -> node -> Prop :=
| reach_child prefix perm es name c :
    (name, c) ∈ es -> reaches ex prefix (NDir perm es) (rel_join prefix name) c
| reach_below prefix perm es name perm' es' rel c :
    (name, NDir perm' es') ∈ es -> ex (rel_join prefix name) = false ->
    reaches ex (rel_join prefix name) (NDir perm' es') rel c ->
    reaches ex prefix (NDir perm es) rel c.

(** The entry of a regular file that is not excluded. *)
Definition file_entry (rel content : string) : FileEntry :=
  mkFile rel (Z.of_nat (String.length content)) (Sha256StringHex content).

(** File names: not empty, no slash, no NUL; a directory lists each once. *)
Definition name_ok (name : string) : Prop :=
  name <> "" /\ free slash name /\ free "000"%char name.
Inductive tree_ok : node -> Prop :=
| tok_file perm s : tree_ok (NFile perm s)
| tok_link perm s : tree_ok (NSymlink perm s)
| tok_special perm : tree_ok (NSpecial perm)
| tok_dir perm es :
    NoDup es.*1 -> Forall name_ok es.*1 -> Forall (fun e => tree_ok e.2) es ->
    tree_ok (NDir perm es).

Section IndexFacts.
Context (PathMatch : string -> string -> bool) (read_err info_err : string -> option error).
Context (normEx : list string).
Let ex := isExcluded PathMatch normEx.
Let walk_of := index_walk PathMatch read_err info_err normEx.
Let entry_of := index_entry PathMatch read_err info_err normEx.

Fixpoint index_children (prefix : string) (es : list (string * node)) : res (list FileEntry) :=
  match es with
  | [] => Ok []
  | (name, c) :: es =>
      let rel := rel_join prefix name in
      fs ← entry_of (walk_of rel c) rel c;
      rest ← index_children prefix es;
      Ok (fs ++ rest)
  end.

Lemma index_walk_dir prefix perm es :
  walk_of prefix (NDir perm es) =
    match read_err prefix with Some e => Err e | None => index_children prefix es end.
Proof.
  unfold walk_of at 1. simpl. destruct (read_err prefix); [done|].
  induction es as [|[name c] es IH]; [done|]. simpl.
  by rewrite IH.
Qed.

Lemma index_children_ok prefix es fs : index_children prefix es = Ok fs ->
  exists parts, fs = mjoin parts
    /\ Forall2 (fun e part => let rel := rel_join prefix e.1 in
                  entry_of (walk_of rel e.2) rel e.2 = Ok part) es parts.
Proof.
  revert fs. induction es as [|[name c] es IH]; intros fs; simpl.
  { intros [= <-]. exists []. split; [done|constructor]. }
  unfold mbind, result_bind.
  destruct (entry_of _ _ _) as [part|] eqn:He; [|done].
  destruct (index_children prefix es) as [rest|]; [|done]. intros [= <-].
  destruct (IH rest eq_refl) as (parts & -> & HF). exists (part :: parts).
  split; [done|by constructor].
Qed.

Lemma index_entry_ok below rel n part : entry_of below rel n = Ok part ->
  HasPrefix rel ".." = false
  /\ match n with
     | NDir _ _ => if ex rel then part = [] else below = Ok part
     | NFile _ s => part = if ex rel then [] else [file_entry rel s]
     | _ => part = []
     end.
Proof.
  unfold entry_of, index_entry. destruct (HasPrefix rel ".."); [done|].
  destruct n as [perm s|perm es|perm s|perm]; unfold ex, file_entry.
  - destruct (info_err rel); [done|]. destruct (isExcluded _ _ rel); [naive_solver|].
    destruct (read_err rel); naive_solver.
  - destruct (isExcluded _ _ rel); naive_solver.
  - naive_solver.
  - destruct (info_err rel); naive_solver.
Qed.

Lemma reaches_dir prefix perm es rel c : reaches ex prefix (NDir perm es) rel c <->
  exists name c', (name, c') ∈ es
    /\ (rel = rel_join prefix name /\ c = c'
        \/ ex (rel_join prefix name) = false /\ reaches ex (rel_join prefix name) c' rel c).
Proof.
  split.
  - inversion 1; subst; eauto 10.
  - intros (name & c' & Hin & [[-> ->]|[Hex Hr]]); [by constructor|].
    assert (exists p' es', c' = NDir p' es') as (p' & es' & ->) by (inversion Hr; eauto).
    by eapply reach_below.
Qed.

(** Every entry is a visited regular file, and every such file has its entry. *)
Definition entry_spec (prefix : string) (n : node) (e : FileEntry) : Prop :=
  exists rel perm s, reaches ex prefix n rel (NFile perm s) /\ ex rel = false
                     /\ e = file_entry rel s.

Lemma entry_spec_leaf prefix n e :
  (forall perm es, n <> NDir perm es) -> ~ entry_spec prefix n e.
Proof. intros Hn (rel & perm & s & Hr & _). inversion Hr; subst; by eapply Hn. Qed.

(** The contribution of one child: its own entry, or those below it. *)
Definition child_spec (rel : string) (c : node) (e : FileEntry) : Prop :=
  (exists perm s, c = NFile perm s /\ ex rel = false /\ e = file_entry rel s)
  \/ (ex rel = false /\ entry_spec rel c e).

Lemma entry_spec_dir prefix perm es e : entry_spec prefix (NDir perm es) e <->
  exists name c, (name, c) ∈ es /\ child_spec (rel_join prefix name) c e.
Proof.
  unfold entry_spec at 1, child_spec. setoid_rewrite reaches_dir. split.
  - intros (rel & pm & s & (name & c & Hin & [[-> <-]|[Hx Hr]]) & Hex & ->);
      exists name; eexists; (split; [done|]); [left; eauto|right].
    split; [done|]. by exists rel, pm, s.
  - intros (name & c & Hin & [(pm & s & -> & Hex & ->)|[Hx (rel & pm & s & Hr & Hex & ->)]]);
      [exists (rel_join prefix name), pm, s|exists rel, pm, s];
      (split; [exists name; eexists; split; [done|]|done]); auto.
Qed.

Lemma index_entry_elem rel c part e :
  (forall fs, walk_of rel c = Ok fs -> forall e, e ∈ fs <-> entry_spec rel c e) ->
  entry_of (walk_of rel c) rel c = Ok part -> e ∈ part <-> child_spec rel c e.
Proof.
  intros Hw [_ Hp]%index_entry_ok. unfold child_spec.
  assert (part = [] -> ~ child_spec rel c e -> e ∈ part <-> child_spec rel c e) as Hnone.
  { intros -> Hn. split; [by intros ?%elem_of_nil|done]. }
  unfold child_spec in *. destruct c as [pm s|pm es|pm s|pm]; [| |apply Hnone; [done|]..].
  - destruct (ex rel) eqn:Hx; [apply Hnone; [done|]; intros [(?&?&_&?&_)|[? _]]; done|].
    subst part. rewrite list_elem_of_singleton. split; [intros ->; left; eauto|].
    intros [(? & ? & [= <- <-] & _ & ->)|[_ []%entry_spec_leaf]]; done.
  - destruct (ex rel) eqn:Hx; [apply Hnone; [done|]; intros [(?&?&_&?&_)|[? _]]; done|].
    rewrite (Hw part Hp). split; [by right|]. intros [(?&?&?&_)|[_ ?]]; done.
  - intros [(?&?&?&_)|[_ []%entry_spec_leaf]]; done.
  - intros [(?&?&?&_)|[_ []%entry_spec_leaf]]; done.
Qed.

Lemma index_walk_spec n : forall prefix fs, walk_of prefix n = Ok fs ->
  forall e, e ∈ fs <-> entry_spec prefix n e.
Proof.
  assert (forall prefix n e, (forall perm es, n <> NDir perm es) ->
            e ∈ [] <-> entry_spec prefix n e) as Hleaf.
  { intros prefix n' e Hn. rewrite elem_of_nil. split; [done|]. by apply entry_spec_leaf. }
  induction n as [perm s|perm es IH|perm s|perm] using node_tree_ind; intros prefix fs;
    [intros [= <-] e; by apply Hleaf| |intros [= <-] e; by apply Hleaf..].
  rewrite index_walk_dir. destruct (read_err prefix); [done|].
  intros (parts & -> & HF)%index_children_ok e. rewrite list_elem_of_join, entry_spec_dir.
  rewrite Forall_forall in IH. split.
  - intros (part & He & Hp). apply list_elem_of_lookup in Hp as [i Hi].
    destruct (Forall2_lookup_r _ _ _ _ _ HF Hi) as ([name c] & Hes & Hc). simpl in Hc.
    apply list_elem_of_lookup_2 in Hes. exists name, c. split; [done|].
    eapply index_entry_elem; [apply (IH _ Hes)|done|done].
  - intros (name & c & Hin & Hc). pose proof Hin as [i Hi]%list_elem_of_lookup.
    destruct (Forall2_lookup_l _ _ _ _ _ HF Hi) as (part & Hp & Hpart). simpl in Hpart.
    exists part. split; [|by eapply list_elem_of_lookup_2].
    eapply index_entry_elem; [apply (IH _ Hin)|done|done].
Qed.

(** Relative paths as lists of names. *)
Lemma rel_join_comps cs name : Forall name_ok cs ->
  rel_join (Join cs "/") name = Join (cs ++ [name]) "/".
Proof.
  intros Hcs. unfold rel_join. destruct cs as [|c cs]; [done|].
  rewrite bool_decide_false; [by rewrite Join_app_last|].
  apply Forall_cons in Hcs as [[Hc _] _]. destruct cs; simpl; [done|]. by destruct c.
Qed.

Lemma comps_inj cs ds : Forall name_ok cs -> Forall name_ok ds -> cs <> [] -> ds <> [] ->
  Join cs "/" = Join ds "/" -> cs = ds.
Proof.
  intros Hc Hd Hcn Hdn H. apply (f_equal (fun s => Split s slash)) in H.
  rewrite !Split_Join in H; [done|..]; try done;
    eapply Forall_impl; try done; by intros x (? & ? & _).
Qed.

Definition below (cs : list string) (names : list string) (rel : string) : Prop :=
  exists name ds, name ∈ names /\ Forall name_ok (name :: ds)
                  /\ rel = Join (cs ++ name :: ds) "/".

Lemma reaches_below cs n rel c : reaches ex (Join cs "/") n rel c -> tree_ok n ->
  Forall name_ok cs -> exists perm es, n = NDir perm es /\ below cs es.*1 rel.
Proof.
  remember (Join cs "/") as prefix eqn:Hp. intros Hr. revert cs Hp.
  induction Hr as [prefix perm es name c Hin|prefix perm es name perm' es' rel c Hin Hx Hr IH];
    intros cs -> Hok Hcs; inversion Hok as [| | |? ? Hnd Hn Hsub]; subst;
    exists perm, es; (split; [done|]); rewrite Forall_forall in Hn;
    assert (name ∈ es.*1) as Hname by (apply list_elem_of_fmap; by eexists (_, _));
    pose proof (Hn name Hname) as Hnok.
  - exists name, []. rewrite rel_join_comps by done. split; [done|]. split; [|done].
    by constructor.
  - rewrite rel_join_comps in IH by done. rewrite Forall_forall in Hsub.
    destruct (IH _ eq_refl) as (? & ? & _ & name' & ds & _ & Hds & ->).
    + by apply (Hsub (name, NDir perm' es')).
    + apply Forall_app. split; [done|by constructor].
    + exists name, (name' :: ds). rewrite <- (assoc_L (++)). split; [done|].
      split; [by constructor|done].
Qed.

Lemma walk_paths_below cs n fs : walk_of (Join cs "/") n = Ok fs -> tree_ok n ->
  Forall name_ok cs -> forall p, p ∈ fe_Path <$> fs ->
  exists perm es, n = NDir perm es /\ below cs es.*1 p.
Proof.
  intros Hw Hok Hcs p (e & -> & He)%list_elem_of_fmap.
  eapply index_walk_spec in He as (rel & pm & s & Hr & _ & ->); [|done].
  by eapply reaches_below.
Qed.

(** What one child contributes lies at or below its own path. *)
Lemma child_paths cs name c part :
  entry_of (walk_of (rel_join (Join cs "/") name) c) (rel_join (Join cs "/") name) c = Ok part ->
  tree_ok c -> Forall name_ok cs -> name_ok name ->
  forall p, p ∈ fe_Path <$> part -> below cs [name] p.
Proof.
  intros He Hok Hcs Hname p (e & -> & Hin)%list_elem_of_fmap. revert He.
  rewrite rel_join_comps by done. intros He.
  apply (index_entry_elem _ c part e (index_walk_spec c _) He) in Hin
    as [(pm & s & -> & _ & ->)|[_ (rel & pm & s & Hr & _ & ->)]].
  - exists name, []. split; [left|]. split; [by constructor|done].
  - eapply reaches_below in Hr as (? & ? & _ & name' & ds & _ & Hds & Hp);
      [|done|apply Forall_app; split; [done|by constructor]].
    exists name, (name' :: ds). split; [left|]. split; [by constructor|].
    simpl. rewrite Hp. by rewrite <- (assoc_L (++)).
Qed.

Lemma below_disjoint cs name name' p : Forall name_ok cs ->
  below cs [name] p -> below cs [name'] p -> name = name'.
Proof.
  intros Hcs (n1 & d1 & ->%list_elem_of_singleton & H1 & ->)
    (n2 & d2 & ->%list_elem_of_singleton & H2 & H).
  apply comps_inj in H; [|by apply Forall_app|by apply Forall_app|by destruct cs|by destruct cs].
  apply app_inv_head in H. congruence.
Qed.

Lemma NoDup_walk_paths n : tree_ok n -> forall cs fs, Forall name_ok cs ->
  walk_of (Join cs "/") n = Ok fs -> NoDup (fe_Path <$> fs).
Proof.
  induction n as [perm s|perm es IH|perm s|perm] using node_tree_ind; intros Hok cs fs Hcs;
    [intros [= <-]; constructor| |intros [= <-]; constructor..].
  rewrite index_walk_dir. destruct (read_err _); [done|].
  intros (parts & -> & HF)%index_children_ok. inversion Hok as [| | |? ? Hnd Hn Hsub]; subst.
  clear Hok. induction HF as [|[name c] part es parts Hp HF IHF]; [constructor|].
  apply Forall_cons in IH as [IHc IH]. apply Forall_cons in Hsub as [Hc Hsub].
  apply NoDup_cons in Hnd as [Hnotin Hnd]. apply Forall_cons in Hn as [Hname Hn].
  simpl in *. rewrite fmap_app. apply NoDup_app. split_and!; [| |by apply IHF].
  - pose proof Hp as [_ Hcase]%index_entry_ok.
    destruct c; [destruct (ex _); subst; simpl; [constructor|apply NoDup_singleton]| |
      subst; constructor..].
    destruct (ex _); [subst; constructor|]. rewrite rel_join_comps in Hcase by done.
    eapply IHc; [done| |exact Hcase]. apply Forall_app. split; [done|by constructor].
  - intros p Hp1 (e & -> & (part' & He & Hin)%list_elem_of_join)%list_elem_of_fmap.
    apply list_elem_of_lookup in Hin as [i Hi].
    destruct (Forall2_lookup_r _ _ _ _ _ HF Hi) as ([name' c'] & Hes & Hc').
    apply list_elem_of_lookup_2 in Hes. simpl in Hc'.
    assert (name' ∈ es.*1) as Hin' by (apply list_elem_of_fmap; by eexists (_, _)).
    rewrite Forall_forall in Hn. rewrite Forall_forall in Hsub.
    assert (name = name') as ->; [|done].
    eapply below_disjoint; [exact Hcs|by eapply child_paths|].
    eapply child_paths; [exact Hc'|by apply (Hsub _ Hes)|done|by apply Hn|].
    by apply list_elem_of_fmap_2.
Qed.
End IndexFacts.

Lemma Forall_free_Join cs c : c <> slash -> Forall (free c) cs -> free c (Join cs "/").
Proof.
  intros Hc. induction cs as [|x cs IH]; intros Hcs; [apply free_nil|].
  apply Forall_cons in Hcs as [Hx Hcs]. destruct cs as [|y cs]; [done|].
  rewrite Join_cons by done. rewrite free_app, free_app. split; [done|]. split; [|by apply IH].
  rewrite free_cons. split; [by intros ->|apply free_nil].
Qed.

Section BuildFacts.
Context (PathMatch : string -> string -> bool) (read_err info_err : string -> option error).
Context (root : node) (now target : string) (excludes : list string) (i : Index).
Context (Hbuild : BuildLocalIndex PathMatch read_err info_err (Ok root) now target excludes = Ok i).
Let ex := isExcluded PathMatch (normalizeExcludePatterns excludes).

Lemma build_walk : exists fs,
  index_walk PathMatch read_err info_err (normalizeExcludePatterns excludes) "" root = Ok fs
  /\ ix_Files i = sort_files fs
  /\ ix_TreeHash i = Sha256StringHex (tree_string (ix_Files i)).
Proof.
  unfold BuildLocalIndex in Hbuild. simpl in Hbuild.
  destruct (index_walk _ _ _ _ _ _) as [fs|]; [|done]. injection Hbuild as <-. by exists fs.
Qed.

Lemma build_entry_plain e : tree_ok root -> e ∈ ix_Files i -> entry_plain e.
Proof.
  intros Hok. destruct build_walk as (fs & Hw & -> & _). rewrite sort_files_perm.
  intros (rel & pm & s & Hr & _ & ->)%(index_walk_spec _ _ _ _ _ _ _ Hw).
  apply (reaches_below _ _ [] root rel (NFile pm s)) in Hr as (? & ? & _ & name & ds & _ & Hds & ->);
    [|done|constructor].
  apply Forall_cons in Hds as [[Hne Hname] Hds]. split_and!; simpl.
  - apply (Forall_free_Join (name :: ds)); [done|]. constructor; [by destruct Hname|].
    eapply Forall_impl; [exact Hds|]. by intros ? (_ & _ & ?).
  - intros Hin. pose proof (Sha256Hex_chars s) as Hhex. rewrite Forall_forall in Hhex.
    destruct (Hhex _ Hin); done.
  - destruct ds; simpl; [done|]. by destruct name.
Qed.
End BuildFacts.

(** C15: the local index is exact.  A successful [BuildLocalIndex] lists, sorted by
    path and without duplicates, exactly the regular files the walk reaches that no
    pattern excludes, themselves or through an excluded directory above them, each
    with its size and the SHA-256 of its content; symbolic links and special files
    are left out; and it carries the hash of that list. *)
Theorem BuildLocalIndex_spec PathMatch read_err info_err root now target excludes i :
  tree_ok root ->
  BuildLocalIndex PathMatch read_err info_err (Ok root) now target excludes = Ok i ->
  let ex := isExcluded PathMatch (normalizeExcludePatterns excludes) in
  (forall e, e ∈ ix_Files i <->
     exists rel perm content, reaches ex "" root rel (NFile perm content)
       /\ ex rel = false /\ e = file_entry rel content)
  /\ StronglySorted path_le (ix_Files i)
  /\ index_ok i.
Proof.
  intros Hok Hb ex.
  pose proof (build_entry_plain PathMatch read_err info_err root now target excludes i Hb) as Hplain.
  destruct (build_walk PathMatch read_err info_err root now target excludes i Hb)
    as (fs & Hw & Hfiles & Hhash).
  split_and!.
  - intros e. rewrite Hfiles, sort_files_perm. apply (index_walk_spec _ _ _ _ _ _ _ Hw).
  - rewrite Hfiles. apply sort_files_sorted.
  - constructor; [|apply Forall_forall; eauto|done].
    rewrite Hfiles, sort_files_perm. by eapply (NoDup_walk_paths _ _ _ _ root Hok []).
Qed.

(** A name starting with two dots stops the index.  The guard against path
    traversal tests the prefix [..] of the relative path, so a source directory
    that holds an ordinary entry such as [..data] cannot be indexed at all. *)
Theorem BuildLocalIndex_rejects_dotdot_names PathMatch read_err info_err perm es now target
    excludes name c :
  (name, c) ∈ es -> HasPrefix name ".." = true ->
  is_ok (BuildLocalIndex PathMatch read_err info_err (Ok (NDir perm es)) now target excludes)
  = false.
Proof.
  intros Hin Hp. destruct (BuildLocalIndex _ _ _ _ _ _ _) as [i|] eqn:Hb; [|done].
  destruct (build_walk _ _ _ _ _ _ _ _ Hb) as (fs & Hw & _).
  rewrite index_walk_dir in Hw. destruct (read_err ""); [done|].
  apply index_children_ok in Hw as (parts & _ & HF).
  apply list_elem_of_lookup in Hin as [k Hk].
  destruct (Forall2_lookup_l _ _ _ _ _ HF Hk) as (part & _ & Hpart).
  apply index_entry_ok in Hpart as [Hno _]. unfold rel_join in Hno. simpl in Hno. congruence.
Qed.

(** ** Examples and witnesses *)

Definition example_tree (content : string) : node :=
  NDir 493 [("a.txt", NFile 420 content); ("cache", NDir 493 [("x", NFile 420 "x")]);
            ("link", NSymlink 511 "a.txt"); ("sub", NDir 493 [("b", NFile 420 "b")])].
(** A matcher for the patterns of the examples: equality. *)
Definition match_eq (pat name : string) : bool := String.eqb pat name.
Definition no_err (_ : string) : option error := None.
Definition example_index (content : string) : res Index :=
  BuildLocalIndex match_eq no_err no_err (Ok (example_tree content)) "now" "/" [" cache "].
Definition index_of (r : res Index) : Index :=
  match r with Ok i => i | Err _ => mkIndex "" "" "" [] 0 0 [] "" end.

Lemma example_tree_ok content : tree_ok (example_tree content).
Proof.
  repeat (constructor || (apply (bool_decide_unpack _); vm_compute; reflexivity)).
Qed.

Lemma BuildLocalIndex_spec_witness :
  exists i, example_index "a" = Ok i /\ index_ok i
    /\ (fe_Path <$> ix_Files i) = ["a.txt"; "sub/b"].
Proof.
  eexists. match goal with |- ?A /\ _ => assert A as Hb by (vm_compute; reflexivity) end.
  split; [exact Hb|]. split; [|reflexivity].
  apply (BuildLocalIndex_spec _ _ _ _ _ _ _ _ (example_tree_ok "a") Hb).
Defined.

Lemma example_index_ok content : is_ok (example_index content) = true ->
  index_ok (index_of (example_index content)).
Proof.
  destruct (example_index content) as [i|] eqn:H; [|done]. intros _. simpl.
  unfold example_index in H.
  destruct (build_walk _ _ _ _ _ _ _ _ H) as (fs & Hw & Hfiles & Hhash). constructor; [| |done].
  - rewrite Hfiles, sort_files_perm. by eapply (NoDup_walk_paths _ _ _ _ _ (example_tree_ok content) []).
  - apply Forall_forall. intros e. apply (build_entry_plain _ _ _ _ _ _ _ _ H), example_tree_ok.
Qed.

Lemma example_no_collision :
  no_collision (index_of (example_index "a")) (index_of (example_index "b")).
Proof. unfold no_collision. vm_compute. discriminate. Qed.

Lemma DiffIndexes_apply_witness :
  let l := index_of (example_index "a") in let r := index_of (example_index "b") in
  (fe_Path <$> ToUpdate (DiffIndexes l r)) = ["a.txt"]
  /\ apply_diff (DiffIndexes l r) (files_map (ix_Files r)) = files_map (ix_Files l).
Proof.
  intros l r. split; [vm_compute; reflexivity|].
  apply DiffIndexes_apply; [|left|]; [apply example_index_ok; vm_compute; reflexivity..|].
  apply example_no_collision.
Defined.

Lemma DiffIndexes_minimal_witness :
  let l := index_of (example_index "a") in let r := index_of (example_index "b") in
  NoDup (fe_Path <$> (ToCreate (DiffIndexes l r) ++ ToUpdate (DiffIndexes l r))).
Proof.
  intros l r. apply DiffIndexes_minimal. apply example_index_ok. vm_compute. reflexivity.
Defined.

Lemma DiffIndexes_empty_iff_witness :
  let l := index_of (example_index "a") in let r := index_of (example_index "b") in
  files_map (ix_Files l) <> files_map (ix_Files r).
Proof.
  intros l r Heq. assert (DiffIndexes l r = mkDiff [] [] []) as H.
  { apply DiffIndexes_empty_iff; [|left| |exact Heq];
      [apply example_index_ok; vm_compute; reflexivity..|].
    apply example_no_collision. }
  vm_compute in H. discriminate.
Defined.

Lemma BuildLocalIndex_rejects_dotdot_names_witness :
  is_ok (BuildLocalIndex match_eq no_err no_err
    (Ok (NDir 493 [("..data", NFile 420 "x"); ("a", NFile 420 "y")])) "now" "/" []) = false.
Proof.
  apply (BuildLocalIndex_rejects_dotdot_names _ _ _ _ _ _ _ _ "..data" (NFile 420 "x"));
    [left|reflexivity].
Defined.
