(* ===== verification/Effects.v ===== *)
(** * Programs with effects

    Code that talks to the outside is a program: a tree whose inner nodes issue an
    operation of an effect signature and continue with its answer, whatever that
    is.  [exec] relates a program to what it issued (its trace) and its result, so
    that a theorem about every trace holds for every behaviour of the outside,
    failures and cancellation included.  [interp] runs a program of one signature
    by programs of another: it is how a component that calls an interface is
    composed with what implements it. *)

From S2P Require Import Prelude GoStrings Apperr.

(** A signature: its operations, and the type of the answer to each. *)
Record Effect := mkEffect { op :> Type; answer : op -> Type }.
Arguments answer {_} _.

Inductive tree (E : Effect) (A : Type) : Type :=
| Ret (a : A)
| Vis (e : E) (k : answer e -> tree E A).
Arguments Ret {E A} a.
Arguments Vis {E A} e k.

(** What a program issued, and the answer it got. *)
Inductive obs (E : Effect) : Type := Obs (e : E) (r : answer e).
Arguments Obs {E} e r.

(** ** Programs *)

Fixpoint tree_bind {E : Effect} {A B} (p : tree E A) (f : A -> tree E B) : tree E B :=
  match p with
  | Ret a => f a
  | Vis e k => Vis e (fun x => tree_bind (k x) f)
  end.

#[global] Instance tree_MRet {E : Effect} : MRet (tree E) := fun A a => Ret a.
#[global] Instance tree_MBind {E : Effect} : MBind (tree E) := fun A B f p => tree_bind p f.

#[global] Instance tree_FMap {E : Effect} : FMap (tree E) := fun A B f p => tree_bind p (fun a => Ret (f a)).

Section Programs.
Context {E : Effect}.

(** Issue one operation. *)
Definition do_op (e : E) : tree E (answer e) := Vis e Ret.

(** A loop over a list, in order. *)
Fixpoint for_each {A S} (f : S -> A -> tree E S) (s : S) (l : list A) : tree E S :=
  match l with
  | [] => Ret s
  | x :: l => s' ← f s x; for_each f s' l
  end.

(** A loop whose body may return early with an error. *)
Fixpoint for_each_res {A S} (f : S -> A -> tree E (res S)) (s : S) (l : list A) : tree E (res S) :=
  match l with
  | [] => Ret (Ok s)
  | x :: l => r ← f s x; match r with Ok s' => for_each_res f s' l | Err e => Ret (Err e) end
  end.

(** [r] or return its error, wrapped. *)
Definition try {A B} (r : res A) (on_err : error -> error) (k : A -> tree E (res B)) : tree E (res B) :=
  match r with Ok a => k a | Err e => Ret (Err (on_err e)) end.

(** ** Traces *)

Fixpoint exec {A} (p : tree E A) (t : list (obs E)) (a : A) : Prop :=
  match p with
  | Ret a' => t = [] /\ a = a'
  | Vis e k => exists r t', t = Obs e r :: t' /\ exec (k r) t' a
  end.

(** Run a program against an answering function, for evaluation on examples. *)
Fixpoint run_tree {A} (ans : forall e, answer e) (p : tree E A) : list (obs E) * A :=
  match p with
  | Ret a => ([], a)
  | Vis e k => let '(t, a) := run_tree ans (k (ans e)) in (Obs e (ans e) :: t, a)
  end.

Lemma run_tree_exec {A} ans (p : tree E A) : exec p (run_tree ans p).1 (run_tree ans p).2.
Proof.
  induction p as [a|e k IH]; simpl; [done|].
  exists (ans e), (run_tree ans (k (ans e))).1.
  specialize (IH (ans e)). by destruct (run_tree ans (k (ans e))).
Qed.

Lemma exec_bind {A B} (p : tree E A) (f : A -> tree E B) t b :
  exec (p ≫= f) t b <-> exists t1 t2 a, t = t1 ++ t2 /\ exec p t1 a /\ exec (f a) t2 b.
Proof.
  revert t. induction p as [a|e k IH]; intros t; simpl.
  - split; [intros H; by exists [], t, a|]. by intros (t1 & t2 & a' & -> & [-> ->] & ?).
  - split.
    + intros (r & t' & -> & H). apply IH in H as (t1 & t2 & a & -> & H1 & H2).
      exists (Obs e r :: t1), t2, a. split; [done|]. split; [by exists r, t1|done].
    + intros (t1 & t2 & a & -> & (r & t' & -> & H1) & H2).
      exists r, (t' ++ t2). split; [done|]. apply IH. by exists t', t2, a.
Qed.

(** ** Hoare-style reasoning about traces *)

(** Every execution of [p] satisfies [Q], on its trace and result. *)
Definition wp {A} (p : tree E A) (Q : list (obs E) -> A -> Prop) : Prop :=
  forall t a, exec p t a -> Q t a.

Lemma wp_ret {A} (a : A) (Q : list (obs E) -> A -> Prop) : Q [] a -> wp (Ret a) Q.
Proof. by intros H t a' [-> ->]. Qed.

Lemma wp_vis {A} e (k : answer e -> tree E A) Q :
  (forall r, wp (k r) (fun t a => Q (Obs e r :: t) a)) -> wp (Vis e k) Q.
Proof. intros H t a (r & t' & -> & He). by apply H. Qed.

Lemma wp_op e (Q : list (obs E) -> answer e -> Prop) :
  (forall r, Q [Obs e r] r) -> wp (do_op e) Q.
Proof. intros H. apply wp_vis. intros r. by apply wp_ret. Qed.

Lemma wp_bind {A B} (p : tree E A) (f : A -> tree E B) Q :
  wp p (fun t a => wp (f a) (fun t' b => Q (t ++ t') b)) -> wp (p ≫= f) Q.
Proof. intros H t b (t1 & t2 & a & -> & H1 & H2)%exec_bind. by apply (H t1 a H1). Qed.

Lemma wp_mono {A} (p : tree E A) (Q Q' : list (obs E) -> A -> Prop) :
  wp p Q -> (forall t a, Q t a -> Q' t a) -> wp p Q'.
Proof. intros H HQ t a He. apply HQ, H, He. Qed.

Lemma wp_and {A} (p : tree E A) (Q Q' : list (obs E) -> A -> Prop) :
  wp p Q -> wp p Q' -> wp p (fun t a => Q t a /\ Q' t a).
Proof. intros H H' t a He. auto. Qed.

(** Every call of every execution satisfies [P]: a safety property. *)
Definition always {A} (P : obs E -> Prop) (p : tree E A) : Prop :=
  wp p (fun t _ => Forall P t).

Lemma always_ret {A} P (a : A) : always P (Ret a).
Proof. by apply wp_ret. Qed.

Lemma always_bind {A B} P (p : tree E A) (f : A -> tree E B) :
  always P p -> (forall a, always P (f a)) -> always P (p ≫= f).
Proof.
  intros Hp Hf. apply wp_bind. intros t a He t' b He'. apply Forall_app. split.
  - by apply (Hp t a).
  - by apply (Hf a t' b).
Qed.

Lemma always_op (P : obs E -> Prop) e : (forall r, P (Obs e r)) -> always P (do_op e).
Proof. intros Hr. apply wp_op. intros r. by repeat constructor. Qed.

Lemma always_mono {A} (P P' : obs E -> Prop) (p : tree E A) :
  always P p -> (forall o, P o -> P' o) -> always P' p.
Proof. intros H HP. eapply wp_mono; [exact H|]. simpl. intros t _ Ht. by eapply Forall_impl. Qed.

Lemma always_for_each {A S} P (f : S -> A -> tree E S) l s :
  (forall s x, x ∈ l -> always P (f s x)) -> always P (for_each f s l).
Proof.
  revert s. induction l as [|x l IH]; intros s H; simpl; [apply always_ret|].
  apply always_bind; [apply H; left|]. intros s'. apply IH. intros. apply H. by right.
Qed.

Lemma always_for_each_res {A S} P (f : S -> A -> tree E (res S)) l s :
  (forall s x, x ∈ l -> always P (f s x)) -> always P (for_each_res f s l).
Proof.
  revert s. induction l as [|x l IH]; intros s H; simpl; [apply always_ret|].
  apply always_bind; [apply H; left|]. intros [s'|e]; [|apply always_ret].
  apply IH. intros. apply H. by right.
Qed.

Lemma always_try {A B} P (r : res A) w (k : A -> tree E (res B)) :
  (forall a, r = Ok a -> always P (k a)) -> always P (try r w k).
Proof. intros H. destruct r; [by apply H|apply always_ret]. Qed.

(** Invariants of loops: [I] on what was processed, what was traced so far and the
    loop's state. *)
Lemma wp_for_each_done {A S} (I : list A -> list (obs E) -> S -> Prop) (f : S -> A -> tree E S) l s :
  I [] [] s ->
  (forall xs t s x, x ∈ l -> I xs t s -> wp (f s x) (fun t' s' => I (xs ++ [x]) (t ++ t') s')) ->
  wp (for_each f s l) (I l).
Proof.
  intros Hs Hf.
  assert (forall xs t s, I xs t s -> wp (for_each f s l) (fun t' s' => I (xs ++ l) (t ++ t') s'))
    as Hgen.
  { clear s Hs. revert Hf. induction l as [|x l IH]; intros Hf xs t s Ht; simpl.
    - apply wp_ret. by rewrite !app_nil_r.
    - apply wp_bind. eapply wp_mono; [apply (Hf xs t s x); [left|done]|]. intros t1 s1 Ht1.
      eapply wp_mono; [apply IH; [|exact Ht1]|].
      + intros. apply Hf; [by right|done].
      + intros t2 s2. by rewrite (assoc_L (++) t), <- (assoc_L (++) xs). }
  apply (Hgen [] [] s Hs).
Qed.

Lemma wp_for_each {A S} (I : list (obs E) -> S -> Prop) (f : S -> A -> tree E S) l s :
  I [] s ->
  (forall t s x, x ∈ l -> I t s -> wp (f s x) (fun t' s' => I (t ++ t') s')) ->
  wp (for_each f s l) I.
Proof.
  intros Hs Hf. apply (wp_for_each_done (fun _ => I)); [done|]. intros. by apply Hf.
Qed.

(** The same for a loop that may return early: [I] while it goes on, [Q] when it
    stops. *)
Lemma wp_for_each_res {A S} (I : list (obs E) -> S -> Prop) (Q : list (obs E) -> error -> Prop)
    (f : S -> A -> tree E (res S)) l s :
  I [] s ->
  (forall t s x, x ∈ l -> I t s ->
     wp (f s x) (fun t' r => match r with Ok s' => I (t ++ t') s' | Err e => Q (t ++ t') e end)) ->
  wp (for_each_res f s l) (fun t r => match r with Ok s' => I t s' | Err e => Q t e end).
Proof.
  intros Hs Hf.
  assert (forall t s, I t s -> wp (for_each_res f s l)
            (fun t' r => match r with Ok s' => I (t ++ t') s' | Err e => Q (t ++ t') e end)) as Hgen.
  { clear s Hs. revert Hf. induction l as [|x l IH]; intros Hf t s Ht; simpl.
    - apply wp_ret. by rewrite app_nil_r.
    - apply wp_bind. eapply wp_mono; [apply (Hf t s x); [left|done]|].
      intros t1 [s1|e] Ht1; [|apply wp_ret; by rewrite app_nil_r].
      eapply wp_mono; [apply IH; [|exact Ht1]|].
      + intros. apply Hf; [by right|done].
      + intros t2 [s2|e]; by rewrite (assoc_L (++)). }
  apply (Hgen [] s Hs).
Qed.

Lemma wp_true {A} (p : tree E A) (Q : list (obs E) -> A -> Prop) : (forall t a, Q t a) -> wp p Q.
Proof. intros H t a _. apply H. Qed.

Lemma wp_try {A B} (r : res A) w (k : A -> tree E (res B)) Q :
  match r with Ok a => wp (k a) Q | Err e => Q [] (Err (w e)) end -> wp (try r w k) Q.
Proof. destruct r; [done|]. intros. by apply wp_ret. Qed.

(** *** Trace properties closed under sequencing *)

Definition monoidal (T : list (obs E) -> Prop) : Prop :=
  T [] /\ forall t1 t2, T t1 -> T t2 -> T (t1 ++ t2).

(** Every trace of [p] has the property [T]. *)
Definition traces {A} (T : list (obs E) -> Prop) (p : tree E A) : Prop := wp p (fun t _ => T t).

Lemma monoidal_Forall (P : obs E -> Prop) : monoidal (Forall P).
Proof. split; [done|]. intros. by apply Forall_app. Qed.

Lemma traces_ret {A} T (a : A) : monoidal T -> traces T (Ret a).
Proof. intros [H0 _]. by apply wp_ret. Qed.

Lemma traces_bind {A B} T (p : tree E A) (f : A -> tree E B) :
  monoidal T -> traces T p -> (forall a, traces T (f a)) -> traces T (p ≫= f).
Proof.
  intros [_ Happ] Hp Hf. apply wp_bind. intros t a He t' b He'. apply Happ.
  - by apply (Hp t a).
  - by apply (Hf a t' b).
Qed.

Lemma traces_for_each {A S} T (f : S -> A -> tree E S) l s : monoidal T ->
  (forall s x, x ∈ l -> traces T (f s x)) -> traces T (for_each f s l).
Proof.
  intros HT. revert s. induction l as [|x l IH]; intros s Hl; simpl; [by apply traces_ret|].
  apply traces_bind; [done|apply Hl; left|]. intros s'. apply IH. intros. apply Hl. by right.
Qed.
End Programs.


#[export] Hint Resolve always_ret : dockform.

(** Proof search for [always]: the structure of the program decides. *)
Ltac always_tree_step :=
  match goal with
  | |- always _ (Ret _) => apply always_ret
  | |- always _ (mret _) => apply always_ret
  | |- always _ (_ ≫= _) => apply always_bind; [|intros ?; cbv beta]
  | |- @always ?E _ ?P (do_op ?e) => refine (always_op (E := E) P e _); intros ?; try exact I
  | |- always _ (for_each _ _ _) => apply always_for_each; intros ? ? ?; cbv beta
  | |- always _ (for_each_res _ _ _) => apply always_for_each_res; intros ? ? ?; cbv beta
  | |- always _ (try _ _ _) => apply always_try; intros ? ?; cbv beta
  | |- always _ (if ?b then _ else _) => destruct b eqn:?
  | |- always _ (match ?x with _ => _ end) => destruct x eqn:?
  | |- always _ ((match ?x with _ => _ end) _) => destruct x eqn:?; cbv beta
  | |- always _ _ => solve [eauto 3 with dockform]
  end.

(** Step over an operation in a [wp] goal. *)
Ltac wp_doop :=
  match goal with
  | |- @wp ?E _ (do_op ?e) ?Q => refine (wp_op (E := E) e Q _)
  end.

(** ** Implementing a signature by another

    A handler answers an operation of [E] by a program over [F], keeping a state
    of its own. *)
Section Interp.
Context {E F : Effect} {S : Type}.
Context (h : S -> forall e : E, tree F (S * answer e)).

Fixpoint interp {A} (p : tree E A) (s : S) : tree F (S * A) :=
  match p with
  | Ret a => Ret (s, a)
  | Vis e k => tree_bind (h s e) (fun r => interp (k r.2) r.1)
  end.

(** A trace of operations and what the handler issued for them, in order. *)
Fixpoint handled (s : S) (u : list (obs E)) (t : list (obs F)) (s' : S) : Prop :=
  match u with
  | [] => t = [] /\ s' = s
  | Obs e r :: u =>
      exists t1 s1 t2, t = t1 ++ t2 /\ exec (h s e) t1 (s1, r) /\ handled s1 u t2 s'
  end.

(** Every run of the composition is a run of the program whose operations the
    handler answered. *)
Lemma exec_interp {A} (p : tree E A) s t s' a :
  exec (interp p s) t (s', a) <-> exists u, exec p u a /\ handled s u t s'.
Proof.
  revert s t. induction p as [a0|e k IH]; intros s t; cbn [interp exec].
  - split; [intros [-> [= -> ->]]; by exists []|]. by intros (u & [-> ->] & -> & ->).
  - split.
    + intros (t1 & t2 & [s1 r] & -> & H1 & (u & Hu & Hh)%IH)%exec_bind.
      exists (Obs e r :: u). split; [by exists r, u|by exists t1, s1, t2].
    + intros (u & (r & u' & -> & Hk) & t1 & s1 & t2 & -> & H1 & Hh).
      apply exec_bind. exists t1, t2, (s1, r). split; [done|]. split; [done|]. apply IH. eauto.
Qed.

(** A safety property of the program, carried through the handler. *)
Lemma always_handled (P : obs E -> Prop) (P' : obs F -> Prop) s u t s' :
  (forall s e, wp (h s e) (fun t r => P (Obs e r.2) -> Forall P' t)) ->
  handled s u t s' -> Forall P u -> Forall P' t.
Proof.
  intros Hh. revert s t. induction u as [|[e r] u IH]; intros s t; [by intros [-> _]|].
  intros (t1 & s1 & t2 & -> & H1 & H2) Hu. inversion Hu; subst.
  apply Forall_app. split; [by apply (Hh s e _ _ H1)|by eapply IH].
Qed.

(** What was issued, in terms of the operation it was issued for; and back. *)
Lemma handled_issued s u t s' o : handled s u t s' -> o ∈ t ->
  exists s1 e t1 s2 r, Obs e r ∈ u /\ exec (h s1 e) t1 (s2, r) /\ o ∈ t1.
Proof.
  revert s t. induction u as [|[e r] u IH]; intros s t.
  { intros [-> _] Ho. by apply elem_of_nil in Ho. }
  intros (t1 & s1 & t2 & -> & H1 & H2) [Ho|Ho]%elem_of_app.
  - exists s, e, t1, s1, r. split; [left|exact (conj H1 Ho)].
  - destruct (IH _ _ H2 Ho) as (s3 & e' & t3 & s4 & r' & Hin & Hrest). exists s3, e', t3, s4, r'.
    split; [right; exact Hin|exact Hrest].
Qed.

Lemma handled_answered s u t s' e r : handled s u t s' -> Obs e r ∈ u ->
  exists s1 t1 s2, exec (h s1 e) t1 (s2, r) /\ t1 ⊆ t.
Proof.
  revert s t. induction u as [|[e' r'] u IH]; intros s t; [by intros _ Hin%elem_of_nil|].
  intros (t1 & s1 & t2 & -> & H1 & H2) Hin. apply elem_of_cons in Hin as [Heq|Hin].
  - exists s, t1, s1. split; [|intros o Ho; apply elem_of_app; left; exact Ho].
    change (match Obs e r with Obs e r => exec (h s e) t1 (s1, r) end). by rewrite Heq.
  - destruct (IH _ _ H2 Hin) as (s3 & t3 & s4 & H3 & Hsub). exists s3, t3, s4.
    split; [exact H3|]. intros o Ho. apply elem_of_app. right. exact (Hsub o Ho).
Qed.

Lemma always_interp {A} (P : obs E -> Prop) (P' : obs F -> Prop) (p : tree E A) s :
  always P p -> (forall s e, wp (h s e) (fun t r => P (Obs e r.2) -> Forall P' t)) ->
  always P' (interp p s).
Proof.
  intros Hp Hh t [s' a] (u & Hu & Hr)%exec_interp. eapply always_handled; eauto.
Qed.
End Interp.

(** ** Including a signature in another

    The operations of [E] are operations of [F], with the same answers up to [conv]. *)
Section Embedding.
Context {E F : Effect} (inj : E -> F) (conv : forall e, answer (inj e) -> answer e).

Fixpoint embed {A} (p : tree E A) : tree F A :=
  match p with
  | Ret a => Ret a
  | Vis e k => Vis (inj e) (fun x => embed (k (conv e x)))
  end.

(** What was issued of the one, as issued of the other. *)
Definition embedded (o : obs E) (o' : obs F) : Prop :=
  exists e r, o = Obs e (conv e r) /\ o' = Obs (inj e) r.

Lemma exec_embed {A} (p : tree E A) t a : exec (embed p) t a ->
  exists u, exec p u a /\ Forall2 embedded u t.
Proof.
  revert t. induction p as [b|e k IH]; intros t; simpl.
  - intros [-> ->]. by exists [].
  - intros (r & t' & -> & (u & Hu & HF)%IH). exists (Obs e (conv e r) :: u). split; [by exists (conv e r), u|].
    constructor; [by exists e, r|done].
Qed.

Lemma always_embed {A} (P : obs E -> Prop) (Q : obs F -> Prop) (p : tree E A) :
  always P p -> (forall e r, P (Obs e (conv e r)) -> Q (Obs (inj e) r)) -> always Q (embed p).
Proof.
  intros Hp HQ t a (u & Hu & HF)%exec_embed. specialize (Hp u a Hu). simpl in Hp. clear Hu.
  induction HF as [|o o' u t (e & r & -> & ->) HF IH]; [done|].
  apply Forall_cons in Hp as [Ho Hp]. constructor; [by apply HQ|by apply IH].
Qed.

Lemma wp_embed {A} (p : tree E A) (Q : A -> Prop) : wp p (fun _ a => Q a) -> wp (embed p) (fun _ a => Q a).
Proof. intros Hp t a (u & Hu & _)%exec_embed. by eapply Hp. Qed.
End Embedding.
