(* ===== verification/Docker.v ===== *)
(** * The docker daemon and the host, as effects ([internal/planner/interfaces.go],
    the types of [internal/dockercli])

    The planner talks to docker through the [DockerClient] interface, and to the
    local machine through file walks and secret decryption.  A method of the
    interface is a [call]; a planner function is a program [prog A] that issues
    calls and continues with their responses, whatever these are.  [exec] relates
    a program to the calls it makes (its trace) and its result: a theorem about
    every trace holds for every behaviour of the daemons, failures and
    cancellation included. *)

From S2P Require Import Prelude GoStrings GoPath Apperr Util Manifest Filesets Effects.

(** ** Values *)

Record PsBrief := mkPs { ps_Project : string; ps_Service : string; ps_Name : string }.

(** A decoded value of no fixed type ([any]). *)
Inductive any :=
| ANull
| ABool (b : bool)
| ANumber (text : string)
| AString (s : string)
| AList (l : list any)
| AMap (m : gmap string any).

Record ComposePort := mkPort { cpt_Target : Z; cpt_Published : any; cpt_Protocol : string }.
Record ComposeServiceVolume := mkServiceVolume {
  csv_Type : string; csv_Source : string; csv_Target : string }.
Record ComposeService := mkService {
  cs_Image : string; cs_ContainerName : string; cs_Ports : list ComposePort;
  cs_Networks : list string; cs_Volumes : list ComposeServiceVolume;
  cs_Labels : gmap string string }.

(** A rendered compose document, by its services. *)
Notation ComposeConfigDoc := (gmap string ComposeService).

Record ComposePublisher := mkPublisher {
  pub_URL : string; pub_TargetPort : Z; pub_PublishedPort : Z; pub_Protocol : string }.
Record ComposePsItem := mkPsItem {
  psi_Name : string; psi_Service : string; psi_Image : string; psi_State : string;
  psi_Project : string; psi_Publishers : list ComposePublisher }.

Record VolumeScriptResult := mkScriptResult { vsr_Stdout : string; vsr_Stderr : string }.

Record NetworkCreateOpts := mkNetOpts {
  nco_Driver : string; nco_Options : gmap string string; nco_Internal : bool;
  nco_Attachable : bool; nco_IPv6 : bool; nco_Subnet : string; nco_Gateway : string;
  nco_IPRange : string; nco_AuxAddresses : gmap string string }.

(** The arguments every compose command shares. *)
Record ComposeArgs := mkComposeArgs {
  ca_root : string; ca_files : list string; ca_profiles : list string;
  ca_envFiles : list string; ca_inline : list string }.

Record SopsOptions := mkSopsOptions {
  so_AgeKeyFile : string; so_PgpKeyringDir : string; so_PgpUseAgent : bool;
  so_PgpPinentryMode : string; so_PgpPassphrase : string }.

(** What a walk of a local directory meets: the tree, failures, the time. *)
Record LocalWalk := mkWalk {
  lw_tree : res node; lw_read_err : string -> option error;
  lw_info_err : string -> option error; lw_now : string }.

(** The local files as [os.Lstat] and [os.Open] give them. *)
Record LocalFiles := mkLocalFiles {
  lf_Lstat : string -> res FileInfo; lf_Open : string -> res string }.

(** ** Calls and their responses *)

Inductive call : Type :=
(* volumes *)
| ListVolumes
| CreateVolume (name : string) (labels : gmap string string)
| RemoveVolume (name : string)
| ReadFileFromVolume (volume target rel : string)
| ReadIndexFilesFromVolumes (volumes : list string) (rel : string)
| WriteFileToVolume (volume target rel content : string)
| ExtractTarToVolume (volume target : string) (tar : list TarEntry)
| RemovePathsFromVolume (volume target : string) (rels : list string)
| RunVolumeScript (volume target script : string) (env : list string)
(* networks *)
| ListNetworks
| ListComposeNetworks
| CreateNetwork (name : string) (labels : gmap string string) (opts : list NetworkCreateOpts)
| RemoveNetwork (name : string)
(* containers *)
| ListComposeContainersAll
| ListContainersUsingVolume (volume : string)
| RestartContainer (name : string)
| StopContainers (names : list string)
| StartContainers (names : list string)
| RemoveContainer (name : string) (force : bool)
| UpdateContainerLabels (name : string) (labels : gmap string string)
| InspectContainerLabels (name : string) (keys : list string)
| InspectMultipleContainerLabels (names keys : list string)
(* compose *)
| ComposeConfigFull (a : ComposeArgs)
| ComposeConfigServices (a : ComposeArgs)
| ComposeConfigHash (a : ComposeArgs) (project service identifier : string)
| ComposeConfigHashes (a : ComposeArgs) (project : string) (services : list string)
    (identifier : string)
| ComposePs (a : ComposeArgs) (project : string)
| ComposeUp (a : ComposeArgs) (project : string)
(* the host *)
| DecryptAndParse (path : string) (opts : SopsOptions)
| WalkLocal (dir : string)
| ReadLocal (dir : string)
| CtxErr.

(** A response.  A map the client may return as nil is an [option]. *)
Definition resp (c : call) : Type :=
  match c with
  | ListVolumes | ListNetworks | ListComposeNetworks | ListContainersUsingVolume _ =>
      res (list string)
  | CreateVolume _ _ | RemoveVolume _ | WriteFileToVolume _ _ _ _
  | ExtractTarToVolume _ _ _ | RemovePathsFromVolume _ _ _ | CreateNetwork _ _ _
  | RemoveNetwork _ | RestartContainer _ | StopContainers _ | StartContainers _
  | RemoveContainer _ _ | UpdateContainerLabels _ _ => res unit
  | ReadFileFromVolume _ _ _ => res string
  | ReadIndexFilesFromVolumes _ _ => res (gmap string string)
  | RunVolumeScript _ _ _ _ => res VolumeScriptResult
  | ListComposeContainersAll => res (list PsBrief)
  | InspectContainerLabels _ _ => res (gmap string string)
  | InspectMultipleContainerLabels _ _ => res (option (gmap string (gmap string string)))
  | ComposeConfigFull _ => res ComposeConfigDoc
  | ComposeConfigServices _ => res (list string)
  | ComposeConfigHash _ _ _ _ => res string
  | ComposeConfigHashes _ _ _ _ => res (gmap string string)
  | ComposePs _ _ => res (list ComposePsItem)
  | ComposeUp _ _ => res string
  | DecryptAndParse _ _ => res (list string)
  | WalkLocal _ => LocalWalk
  | ReadLocal _ => LocalFiles
  | CtxErr => option error
  end.

(** A client is known by the context whose daemon it talks to. *)
Definition DockerClient : Type := string.

(** ** Programs *)

(** A call on the daemon of a client. *)
Inductive daemon_call : Type := On (client : DockerClient) (c : call).
Canonical Structure daemon : Effect := mkEffect daemon_call (fun e => let '(On _ c) := e in resp c).

Notation prog := (tree daemon).
Notation event := (obs daemon).
Notation Ev d c r := (Obs (On d c) r).

Definition ev_call (e : event) : call := let '(Ev _ c _) := e in c.
Definition ev_client (e : event) : DockerClient := let '(Ev d _ _) := e in d.

(** Issue one call. *)
Definition do_call (client : DockerClient) (c : call) : prog (resp c) := do_op (On client c).

Lemma wp_call d c (Q : list event -> resp c -> Prop) :
  (forall r, Q [Ev d c r] r) -> wp (do_call d c) Q.
Proof. exact (wp_op (On d c) Q). Qed.

Lemma always_call (P : event -> Prop) d c : (forall r, P (Ev d c r)) -> always P (do_call d c).
Proof. exact (always_op P (On d c)). Qed.

(** Run a program against an answering function, for evaluation on examples. *)
Definition run {A} (docker : DockerClient -> forall c, resp c) (p : prog A) : list event * A :=
  run_tree (fun e : daemon => match e return answer e with On d c => docker d c end) p.

Lemma run_exec {A} docker (p : prog A) : exec p (run docker p).1 (run docker p).2.
Proof. apply run_tree_exec. Qed.

(** ** Scheduling

    Goroutines that are joined before their results are read: their results arrive
    in an order the runtime chooses.  [schedule site l] is that order for the
    goroutines of [site]; theorems hold for every instance. *)
Class Schedule := {
  schedule : string -> forall {A : Type}, list A -> list A;
  schedule_perm : forall site A (l : list A), schedule site l ≡ₚ l;
}.

#[global] Program Instance spawn_order : Schedule | 100 := {| schedule _ _ l := l |}.
Solve Obligations with done.

(** ** Which calls change a daemon *)

Definition removes (c : call) : Prop :=
  match c with
  | RemoveVolume _ | RemoveNetwork _ | RemoveContainer _ _ => True
  | _ => False
  end.

(** Calls that only look: the daemon and the volumes are as before. *)
Definition read_only (c : call) : Prop :=
  match c with
  | ListVolumes | ReadFileFromVolume _ _ _ | ReadIndexFilesFromVolumes _ _
  | ListNetworks | ListComposeNetworks | ListComposeContainersAll
  | ListContainersUsingVolume _ | InspectContainerLabels _ _
  | InspectMultipleContainerLabels _ _ | ComposeConfigFull _ | ComposeConfigServices _
  | ComposeConfigHash _ _ _ _ | ComposeConfigHashes _ _ _ _ | ComposePs _ _
  | DecryptAndParse _ _ | WalkLocal _ | ReadLocal _ | CtxErr => True
  | _ => False
  end.

(** Proof search for [always]: the structure of the program decides. *)
Ltac always_step :=
  match goal with
  | |- @always _ _ ?P ?p =>
      match p with do_call ?d ?c => refine (always_call P d c _); intros ?; try exact I end
  | _ => always_tree_step
  end.
Ltac always_auto := repeat (always_step; try done).

(** Step over a call in a [wp] goal. *)
Ltac wp_docall :=
  match goal with
  | |- @wp _ _ ?p ?Q => match p with do_call ?d ?c => refine (wp_call d c Q _) end
  end.

(** ** Removing what a listing shows *)

(** Remove what a listing shows, one by one, gathering the failures. *)
Definition remove_each {A} (rm : A -> prog (res unit)) (failed : error -> A -> error)
    (errs : list (option error)) (xs : list A) : prog (list (option error)) :=
  for_each (fun errs x =>
    r ← rm x;
    mret match r with Ok _ => errs | Err e => errs ++ [Some (failed e x)] end) errs xs.

(** Each of [xs] is tried once, in order, by the call [ev]; without failures in
    [bad] all of them are gone. *)
Definition removed_each {A} (ev : A -> res unit -> event) (xs : list A) (bad : list error)
    (t : list event) : Prop :=
  Forall2 (fun x e => exists r, e = ev x r /\ (bad = [] -> r = Ok tt)) xs t.

(** Each listed thing is tried exactly once, in order; no new error means that
    every removal succeeded. *)
Lemma remove_each_spec {A} (rm : A -> prog (res unit)) (ev : A -> res unit -> event) failed errs xs :
  (forall x, wp (rm x) (fun t r => t = [ev x r])) ->
  wp (remove_each rm failed errs xs) (fun t errs' =>
    exists bad, errs' = errs ++ (Some <$> bad) /\ removed_each ev xs bad t).
Proof.
  intros Hrm. unfold remove_each. apply (wp_for_each_done (fun xs t errs' =>
    exists bad, errs' = errs ++ (Some <$> bad) /\ removed_each ev xs bad t)).
  - exists []. rewrite app_nil_r. split; [done|constructor].
  - intros ys t errs' x _ (bad & -> & HF). apply wp_bind. eapply wp_mono; [apply Hrm|].
    intros t1 r ->. apply wp_ret. rewrite app_nil_r. destruct r as [[]|e].
    + exists bad. split; [done|]. apply Forall2_app; [done|]. repeat constructor. eauto.
    + exists (bad ++ [failed e x]). rewrite fmap_app, (assoc_L (++)). split; [done|].
      apply Forall2_app.
      * eapply Forall2_impl; [exact HF|]. intros y e' (r & -> & Hr). exists r. split; [done|].
        by destruct bad.
      * repeat constructor. exists (Err e). split; [done|]. by destruct bad.
Qed.

(** Removals of a trace by [removed_each]. *)
Lemma removed_each_elem {A} ev (xs : list A) bad t e :
  removed_each ev xs bad t -> e ∈ t -> exists x r, x ∈ xs /\ e = ev x r.
Proof.
  intros HF Hin. apply list_elem_of_lookup in Hin as [i Hi].
  eapply Forall2_lookup_r in HF as (x & Hx & r & -> & _); [|exact Hi].
  exists x, r. split; [by eapply list_elem_of_lookup_2|done].
Qed.

Lemma removed_each_all {A} ev (xs : list A) bad t x :
  removed_each ev xs bad t -> x ∈ xs -> exists r, ev x r ∈ t /\ (bad = [] -> r = Ok tt).
Proof.
  intros HF Hin. apply list_elem_of_lookup in Hin as [i Hi].
  eapply Forall2_lookup_l in HF as (e & He & r & -> & Hr); [|exact Hi].
  exists r. split; [by eapply list_elem_of_lookup_2|done].
Qed.

Lemma Aggregate_nil op k m errs : Aggregate op k m errs = None -> omap id errs = [].
Proof. unfold Aggregate. by destruct (omap id errs) as [|? [|]]. Qed.

Lemma omap_id_Some (bad : list error) : omap id (Some <$> bad) = bad.
Proof. induction bad as [|e bad IH]; [done|]. exact (f_equal (cons e) IH). Qed.

(** ** Daemons for examples *)

(** Every call fails. *)
Definition offline (_ : DockerClient) (c : call) : resp c :=
  let e := Plain "cannot connect to the docker daemon" in
  match c as c return resp c with
  | ListVolumes | ListNetworks | ListComposeNetworks | ListContainersUsingVolume _ => Err e
  | CreateVolume _ _ | RemoveVolume _ | WriteFileToVolume _ _ _ _
  | ExtractTarToVolume _ _ _ | RemovePathsFromVolume _ _ _ | CreateNetwork _ _ _
  | RemoveNetwork _ | RestartContainer _ | StopContainers _ | StartContainers _
  | RemoveContainer _ _ | UpdateContainerLabels _ _ => Err e
  | ReadFileFromVolume _ _ _ => Err e
  | ReadIndexFilesFromVolumes _ _ => Err e
  | RunVolumeScript _ _ _ _ => Err e
  | ListComposeContainersAll => Err e
  | InspectContainerLabels _ _ => Err e
  | InspectMultipleContainerLabels _ _ => Err e
  | ComposeConfigFull _ => Err e
  | ComposeConfigServices _ => Err e
  | ComposeConfigHash _ _ _ _ => Err e
  | ComposeConfigHashes _ _ _ _ => Err e
  | ComposePs _ _ => Err e
  | ComposeUp _ _ => Err e
  | DecryptAndParse _ _ => Err e
  | WalkLocal _ => mkWalk (Err e) (fun _ => None) (fun _ => None) "now"
  | ReadLocal _ => mkLocalFiles (fun _ => Err e) (fun _ => Err e)
  | CtxErr => None
  end.

(** A daemon where every change succeeds, with the given volumes, networks,
    containers and services. *)
Definition healthy (vols nets : list string) (cs : list PsBrief) (services : list string)
    (tree : node) (_ : DockerClient) (c : call) : resp c :=
  match c as c return resp c with
  | ListVolumes => Ok vols
  | ListNetworks => Ok nets
  | ListComposeNetworks => Ok []
  | ListContainersUsingVolume _ => Ok (ps_Name <$> cs)
  | CreateVolume _ _ | RemoveVolume _ | WriteFileToVolume _ _ _ _
  | ExtractTarToVolume _ _ _ | RemovePathsFromVolume _ _ _ | CreateNetwork _ _ _
  | RemoveNetwork _ | RestartContainer _ | StopContainers _ | StartContainers _
  | RemoveContainer _ _ | UpdateContainerLabels _ _ => Ok tt
  | ReadFileFromVolume _ _ _ => Ok ""
  | ReadIndexFilesFromVolumes _ _ => Ok ∅
  | RunVolumeScript _ _ _ _ => Ok (mkScriptResult "" "")
  | ListComposeContainersAll => Ok cs
  | InspectContainerLabels _ _ => Ok ∅
  | InspectMultipleContainerLabels _ _ => Ok None
  | ComposeConfigFull _ => Ok ∅
  | ComposeConfigServices _ => Ok services
  | ComposeConfigHash _ _ s _ => Ok ("hash of " +:+ s)
  | ComposeConfigHashes _ _ _ _ => Ok ∅
  | ComposePs _ _ => Ok ((fun p => mkPsItem (ps_Name p) (ps_Service p) "" "running" (ps_Project p) []) <$> cs)
  | ComposeUp _ _ => Ok ""
  | DecryptAndParse _ _ => Ok []
  | WalkLocal _ => mkWalk (Ok tree) (fun _ => None) (fun _ => None) "now"
  | ReadLocal _ => mkLocalFiles (fun _ => Ok (mkInfo Regular 420)) (fun _ => Ok "content")
  | CtxErr => None
  end.

(** ** Evaluating programs compositionally *)

Section Run.
Context (docker : DockerClient -> forall c, resp c).

Definition result_of {A} (p : prog A) : A := (run docker p).2.

Lemma result_of_bind {A B} (p : prog A) (f : A -> prog B) :
  result_of (p ≫= f) = result_of (f (result_of p)).
Proof.
  unfold result_of, run. induction p as [a|[d c] k IH]; [done|].
  specialize (IH (docker d c)). unfold mbind, tree_MBind in *. cbn [tree_bind run_tree].
  destruct (run_tree _ (k (docker d c))) as [t a], (run_tree _ (tree_bind _ f)) as [t' b].
  exact IH.
Qed.

Lemma result_of_call d c : result_of (do_call d c) = docker d c.
Proof. done. Qed.

Lemma result_of_for_each {A S} (f : S -> A -> prog S) (g : S -> A -> S) s l :
  (forall s x, result_of (f s x) = g s x) -> result_of (for_each f s l) = foldl g s l.
Proof.
  intros Hf. revert s. induction l as [|x l IH]; intros s; [done|].
  cbn [for_each foldl]. by rewrite result_of_bind, Hf.
Qed.

Lemma result_of_wp {A} (p : prog A) (Q : A -> Prop) : wp p (fun _ => Q) -> Q (result_of p).
Proof. intros H. eapply H, run_exec. Qed.
End Run.
