(* ===== verification/DockerExec.v ===== *)
(** * Running the docker command ([internal/dockercli/exec.go])

    [SystemExec.RunDetailed] starts [docker] as a process.  Against a remote
    context at most [MaxConcurrentSSH] commands run at a time, and one that could
    not connect is tried again, with a growing delay, unless it reads a stream or
    writes one; a probe takes no slot and is not repeated.  The process, the semaphore and the clock are operations of the
    signature [process]; logging is left out. *)

From S2P Require Import Prelude GoStrings GoPath Apperr Util Effects.

(** ** Commands *)

(** What is piped into a command. *)
Inductive stdin := StdinText (s : string) | StdinTar (entries : list TarEntry).

Record Options := mkOptions {
  o_Dir : string; o_Env : list string; o_Stdin : option stdin; o_Timeout : Z; o_Probe : bool }.
Definition no_options : Options := mkOptions "" [] None 0 false.

Record Result := mkResult { r_Stdout : string; r_Stderr : string; r_ExitCode : Z }.

(** Times are in nanoseconds, as [time.Duration] counts them. *)
Definition second : Z := 1000000000.
Definition MaxConcurrentSSH : nat := 2.
Definition sshMaxRetries : nat := 4.
Definition sshRetryBaseDelay : Z := 1 * second.

(** The semaphore is there for remote contexts only. *)
Record SystemExec := mkSystemExec {
  sx_ContextName : string; sx_HostOverride : string; sx_DefaultTimeout : Z; sx_sem : bool }.

Definition isRemoteContext (contextName hostOverride : string) : bool :=
  if HasPrefix hostOverride "ssh://" then true
  else bool_decide (contextName <> "") && bool_decide (contextName <> "default").

Definition newSystemExec (contextName hostOverride : string) : SystemExec :=
  mkSystemExec contextName hostOverride 0 (isRemoteContext contextName hostOverride).

Definition isSSHConnectionError (stderr : string) : bool :=
  Contains stderr "kex_exchange_identification"
  || Contains stderr "Connection reset by peer"
  || Contains stderr "Connection closed by"
  || Contains stderr "ssh_exchange_identification"
  || Contains stderr "banner exchange".

(** ** The outside of a command *)

(** A process: arguments, environment, directory, standard input, and whether its
    output goes to a writer of the caller. *)
Record docker_process := mkProcess {
  pr_args : list string; pr_env : list string; pr_dir : string; pr_stdin : option stdin;
  pr_streaming : bool }.

Inductive process_op : Type :=
| Environ
| SetTimeout (d : Z)
| Acquire
| Release
| Sleep (d : Z)
| Spawn (p : docker_process).

(** [Acquire] and [Sleep] end with an error when the context is done first. *)
Canonical Structure process : Effect := mkEffect process_op (fun o => match o with
  | Environ => list string
  | SetTimeout _ | Release => unit
  | Acquire | Sleep _ => option error
  | Spawn _ => (Result * option error)%type
  end).

Section RunDetailed.
Context (s : SystemExec) (streaming : bool) (opts : Options) (args : list string).

(** The inherited environment, the daemon, then the extra variables: of several
    assignments to a name the last one counts. *)
Definition command_env (environ : list string) : list string :=
  environ
  ++ (if bool_decide (sx_HostOverride s <> "") then ["DOCKER_HOST=" +:+ sx_HostOverride s]
      else if bool_decide (sx_ContextName s <> "") then ["DOCKER_CONTEXT=" +:+ sx_ContextName s]
      else [])
  ++ o_Env opts.

Definition canRetry : bool :=
  sx_sem s && bool_decide (o_Stdin opts = None) && negb streaming && negb (o_Probe opts).
Definition maxAttempts : nat := if canRetry then sshMaxRetries + 1 else 1.

(** One start of the process; output that was streamed away is not in the result. *)
Definition spawn (env : list string) : tree process (Result * option error) :=
  r ← do_op (Spawn (mkProcess args env (o_Dir opts) (o_Stdin opts) streaming));
  mret (mkResult (if streaming then "" else r_Stdout r.1) (r_Stderr r.1) (r_ExitCode r.1), r.2).

(** The delay before attempt [attempt], counted from zero. *)
Definition retry_delay (attempt : nat) : Z := sshRetryBaseDelay * 2 ^ Z.of_nat (attempt - 1).

(** Whether another attempt may help: the run failed and could not connect. *)
Definition ssh_failed (r : Result * option error) : bool :=
  match r.2 with None => false | Some _ => isSSHConnectionError (r_Stderr r.1) end.

(** The outcome reported for the last run. *)
Definition finished (r : Result * option error) : Result * option error :=
  match r.2 with
  | None => r
  | Some e => (r.1, Some (wrap "dockercli.Exec" External e "%s" [r_Stderr r.1]))
  end.

(** The attempts from number [attempt] on, at most [n] of them, after the run
    [last]. *)
Fixpoint attempt_loop (n attempt : nat) (env : list string) (last : Result * option error)
  : tree process (Result * option error) :=
  match n with
  | 0 => mret (finished last)
  | S n =>
      cancelled ← (if 0 <? attempt then do_op (Sleep (retry_delay attempt)) else mret None);
      match cancelled with
      | Some e => mret (last.1, Some e)
      | None =>
          r ← spawn env;
          if ssh_failed r then attempt_loop n (S attempt) env r else mret (finished r)
      end
  end.

Definition no_result : Result := mkResult "" "" 0.

Definition run_command : tree process (Result * option error) :=
  environ ← do_op Environ;
  attempt_loop maxAttempts 0 (command_env environ) (no_result, None).

Definition RunDetailed : tree process (Result * option error) :=
  let timeout := if (o_Timeout opts <=? 0)%Z && (0 <? sx_DefaultTimeout s)%Z
                 then sx_DefaultTimeout s else o_Timeout opts in
  _ ← (if (0 <? timeout)%Z then do_op (SetTimeout timeout) else mret tt);
  if sx_sem s && negb (o_Probe opts) then
    cancelled ← do_op Acquire;
    match cancelled with
    | Some e => mret (no_result, Some e)
    | None =>
        r ← run_command;
        _ ← do_op Release;
        mret r
    end
  else run_command.
End RunDetailed.

(** ** The [Exec] interface

    What a client asks for; [SystemExec] answers by [RunDetailed]. *)

Inductive exec_op : Type :=
| Run (args : list string)
| RunInDir (dir : string) (args : list string)
| RunInDirWithEnv (dir : string) (env args : list string)
| RunWithStdin (input : stdin) (args : list string)
| RunWithStdout (args : list string)
| RunWithOptions (opts : Options) (args : list string).

Definition exec_args (o : exec_op) : list string :=
  match o with
  | Run args | RunInDir _ args | RunInDirWithEnv _ _ args | RunWithStdin _ args
  | RunWithStdout args | RunWithOptions _ args => args
  end.

(** Commands give their output, or an error; the output of a failed command is
    not looked at except by [RunWithOptions]. *)
Definition exec_answer (o : exec_op) : Type :=
  match o with
  | Run _ | RunInDir _ _ | RunInDirWithEnv _ _ _ | RunWithStdin _ _ => res string
  | RunWithStdout _ => res unit
  | RunWithOptions _ _ => (Result * option error)%type
  end.

Definition stdout_of (r : Result * option error) : res string :=
  match r.2 with None => Ok (r_Stdout r.1) | Some e => Err e end.

Definition system_exec (s : SystemExec) (o : exec_op) : tree process (exec_answer o) :=
  match o return tree process (exec_answer o) with
  | Run args => stdout_of <$> RunDetailed s false no_options args
  | RunInDir dir args => stdout_of <$> RunDetailed s false (mkOptions dir [] None 0 false) args
  | RunInDirWithEnv dir env args =>
      stdout_of <$> RunDetailed s false (mkOptions dir env None 0 false) args
  | RunWithStdin input args =>
      stdout_of <$> RunDetailed s false (mkOptions "" [] (Some input) 0 false) args
  | RunWithStdout args =>
      r ← RunDetailed s true no_options args;
      mret match r.2 with None => Ok tt | Some e => Err e end
  | RunWithOptions opts args => RunDetailed s false opts args
  end.

(** ** What a command does to the outside *)

Section Attempts.
Context (s : SystemExec) (streaming : bool) (opts : Options) (args : list string).

(** The process started for an environment, and its result as the caller sees it. *)
Definition the_process (environ : list string) : docker_process :=
  mkProcess args (command_env s opts environ) (o_Dir opts) (o_Stdin opts) streaming.
Definition as_seen (r : Result * option error) : Result * option error :=
  (mkResult (if streaming then "" else r_Stdout r.1) (r_Stderr r.1) (r_ExitCode r.1), r.2).

(** Runs from attempt [k] on, every one but the very first after its delay. *)
Fixpoint attempts_trace (p : docker_process) (k : nat) (rs : list (Result * option error))
  : list (obs process) :=
  match rs with
  | [] => []
  | r :: rs => (if 0 <? k then [Obs (Sleep (retry_delay k)) None] else [])
                 ++ Obs (Spawn p) r :: attempts_trace p (S k) rs
  end.

(** How the runs [rs] end: with the outcome of the last one, which is not worth a
    retry or used up the attempts, or cancelled while waiting to retry. *)
Definition attempts_end (n k : nat) (rs : list (Result * option error))
    (final : Result * option error) (t : list (obs process)) (r : Result * option error) : Prop :=
  (t = [] /\ r = finished final /\ (length rs < n -> ssh_failed final = false))
  \/ (exists e, t = [Obs (Sleep (retry_delay (k + length rs))) (Some e)] /\ r = (final.1, Some e)
                /\ ssh_failed final = true /\ length rs < n).

(** The run whose outcome is reported. *)
Definition final_run (before : Result * option error) (rs : list (Result * option error))
  : Result * option error :=
  match last rs with Some x => as_seen x | None => before end.

Lemma final_run_cons before x rs : final_run before (x :: rs) = final_run (as_seen x) rs.
Proof.
  unfold final_run. destruct rs as [|y rs]; [done|]. rewrite last_cons_cons.
  destruct (last (y :: rs)) eqn:Hl; [done|]. by apply last_None in Hl.
Qed.

Lemma ssh_failed_seen r : ssh_failed (as_seen r) = ssh_failed r.
Proof. by destruct r as [? []]. Qed.

Lemma attempt_loop_spec environ n k last_run :
  (k = 0 -> 0 < n) -> (0 < k -> ssh_failed last_run = true) ->
  wp (attempt_loop streaming opts args n k (command_env s opts environ) last_run) (fun t r =>
    exists rs t', t = attempts_trace (the_process environ) k rs ++ t' /\ length rs <= n
      /\ (k = 0 -> rs <> [])
      /\ Forall (fun x => ssh_failed x = true) (removelast rs)
      /\ attempts_end n k rs (final_run last_run rs) t' r).
Proof.
  revert k last_run. induction n as [|n IH]; intros k last_run Hn Hlast; cbn [attempt_loop].
  { apply wp_ret. exists [], []. split_and!; [done|done|lia|done|]. left. split_and!; [done..|lia]. }
  apply wp_bind.
  assert (wp (if 0 <? k then do_op (Sleep (retry_delay k)) else mret None : tree process (option error))
    (fun t c => (exists e, c = Some e /\ 0 < k /\ t = [Obs (Sleep (retry_delay k)) (Some e)])
       \/ (c = None /\ t = if 0 <? k then [Obs (Sleep (retry_delay k)) None] else []))) as Hsleep.
  { destruct (Nat.ltb_spec 0 k); [|apply wp_ret; by right].
    apply (wp_op (E := process)). intros [e|]; [left; eauto|by right]. }
  eapply wp_mono; [exact Hsleep|]. intros t0 c [(e & -> & Hk & ->)|[-> ->]].
  { apply wp_ret. exists [], [Obs (Sleep (retry_delay k)) (Some e)].
    split_and!; [done|simpl; lia|lia|done|]. right. exists e. rewrite Nat.add_0_r.
    split_and!; [done|done|by apply Hlast|simpl; lia]. }
  apply wp_bind. unfold spawn at 1. apply wp_bind. refine (wp_op (E := process) (Spawn _) _ _). intros x.
  apply wp_ret. fold (as_seen x). rewrite ssh_failed_seen. destruct (ssh_failed x) eqn:Hx.
  - eapply wp_mono; [apply (IH (S k)); [lia|by rewrite ssh_failed_seen]|].
    intros t1 r (rs & t' & -> & Hlen & _ & HF & Hend). exists (x :: rs), t'. split_and!.
    + cbn [attempts_trace]. rewrite app_nil_r, <- !(assoc_L (++)). done.
    + simpl. lia.
    + done.
    + destruct rs as [|y rs]; [by constructor|]. constructor; [done|exact HF].
    + change (attempts_end (S n) k (x :: rs) (final_run last_run (x :: rs)) t' r).
      rewrite final_run_cons. destruct Hend as [(-> & -> & He)|(e & -> & -> & He & Hlt)]; [left|right].
      * split_and!; [done|done|]. simpl. intros. apply He. lia.
      * exists e. simpl. rewrite Nat.add_succ_r. split_and!; [done..|lia].
  - apply wp_ret. exists [x], []. split_and!; [|simpl; lia|done|by constructor|].
    + cbn [attempts_trace]. by rewrite !app_nil_r.
    + left. split_and!; [done|done|]. intros _. change (ssh_failed (as_seen x) = false).
      by rewrite ssh_failed_seen.
Qed.

(** The trace of a command: the slot is taken before and given back after
    everything else. *)
Definition in_slot (body : list (obs process)) : list (obs process) :=
  if sx_sem s && negb (o_Probe opts) then Obs Acquire None :: body ++ [Obs Release tt] else body.

Lemma run_command_spec :
  wp (run_command s streaming opts args) (fun t r => exists environ rs t',
    t = Obs Environ environ :: attempts_trace (the_process environ) 0 rs ++ t'
    /\ 1 <= length rs <= maxAttempts s streaming opts
    /\ Forall (fun x => ssh_failed x = true) (removelast rs)
    /\ attempts_end (maxAttempts s streaming opts) 0 rs (final_run (no_result, None) rs) t' r).
Proof.
  unfold run_command. apply wp_bind. refine (wp_op (E := process) Environ _ _). intros environ.
  eapply wp_mono.
  { apply (attempt_loop_spec environ); [|lia]. intros _. unfold maxAttempts.
    destruct (canRetry s streaming opts); lia. }
  intros t r (rs & t' & -> & Hlen & Hne & HF & Hend). exists environ, rs, t'.
  split_and!; [done| |done|done|done]. destruct rs; [by destruct (Hne eq_refl)|simpl; lia].
Qed.

(** The trace of any command. *)
Lemma RunDetailed_trace :
  wp (RunDetailed s streaming opts args) (fun t r =>
    (sx_sem s && negb (o_Probe opts) = true /\ exists e, r = (no_result, Some e) /\ Obs Acquire (Some e) ∈ t
               /\ forall p x, Obs (Spawn p) x ∉ t)
    \/ exists pre environ rs t',
      t = pre ++ in_slot (Obs Environ environ :: attempts_trace (the_process environ) 0 rs ++ t')
      /\ (pre = [] \/ exists d, (0 < d)%Z /\ pre = [Obs (SetTimeout d) tt])
      /\ 1 <= length rs <= maxAttempts s streaming opts
      /\ Forall (fun x => ssh_failed x = true) (removelast rs)
      /\ attempts_end (maxAttempts s streaming opts) 0 rs (final_run (no_result, None) rs) t' r).
Proof.
  unfold RunDetailed. cbv zeta.
  set (timeout := if (o_Timeout opts <=? 0)%Z && (0 <? sx_DefaultTimeout s)%Z
                  then sx_DefaultTimeout s else o_Timeout opts). apply wp_bind.
  assert (wp (if (0 <? timeout)%Z then do_op (SetTimeout timeout) else mret tt : tree process unit)
    (fun t _ => t = [] \/ exists d, (0 < d)%Z /\ t = [Obs (SetTimeout d) tt])) as Htime.
  { destruct (Z.ltb_spec 0 timeout); [|apply wp_ret; by left].
    apply (wp_op (E := process)). intros []. right. eauto. }
  eapply wp_mono; [exact Htime|]. intros pre [] Hpre. clear Htime.
  unfold in_slot. destruct (sx_sem s && negb (o_Probe opts)) eqn:Hslot.
  - apply wp_bind. refine (wp_op (E := process) Acquire _ _). intros [e|].
    + apply wp_ret. left. split; [done|]. exists e. split; [done|]. split; [set_solver|].
      intros p x [Hin|Hin]%elem_of_app; [|set_solver].
      destruct Hpre as [->|(d & _ & ->)]; set_solver.
    + apply wp_bind. eapply wp_mono; [apply run_command_spec|].
      intros t r (environ & rs & t' & -> & Hrs). apply wp_bind.
      refine (wp_op (E := process) Release _ _). intros []. apply wp_ret. right.
      exists pre, environ, rs, t'. rewrite app_nil_r. simpl. split; [|by split].
      by rewrite <- (assoc_L (++)).
  - eapply wp_mono; [apply run_command_spec|]. intros t r (environ & rs & t' & -> & Hrs).
    right. exists pre, environ, rs, t'. split; [done|by split].
Qed.

(** *** What a command may do *)

(** The environment of the process: the inherited one, the daemon to talk to, and the
    variables of the call. *)
Definition environment_for (environ env : list string) : Prop :=
  exists daemon, env = environ ++ daemon ++ o_Env opts
    /\ (sx_HostOverride s <> "" -> daemon = ["DOCKER_HOST=" +:+ sx_HostOverride s])
    /\ (sx_HostOverride s = "" -> sx_ContextName s <> "" -> daemon = ["DOCKER_CONTEXT=" +:+ sx_ContextName s])
    /\ (sx_HostOverride s = "" -> sx_ContextName s = "" -> daemon = []).

(** The run failed with a message of ssh. *)
Definition could_not_connect (r : Result * option error) : Prop :=
  is_Some r.2 /\ Exists (fun phrase => Contains (r_Stderr r.1) phrase = true)
    ["kex_exchange_identification"; "Connection reset by peer"; "Connection closed by";
     "ssh_exchange_identification"; "banner exchange"].

(** It may be run again: on a remote daemon, not a probe, and no stream is used up. *)
Definition repeatable : Prop :=
  sx_sem s = true /\ o_Probe opts = false /\ o_Stdin opts = None /\ streaming = false.

(** The waits before the second run, the third, and so on, in nanoseconds. *)
Definition waits : list Z := [1000000000; 2000000000; 4000000000; 8000000000]%Z.
Fixpoint runs_again (p : docker_process) (ds : list Z) (rs : list (Result * option error)) : list (obs process) :=
  match ds, rs with
  | d :: ds, r :: rs => Obs (Sleep d) None :: Obs (Spawn p) r :: runs_again p ds rs
  | _, _ => []
  end.

(** What the caller gets for a run. *)
Definition reported (x r : Result * option error) : Prop :=
  r_Stderr r.1 = r_Stderr x.1 /\ r_ExitCode r.1 = r_ExitCode x.1
  /\ r_Stdout r.1 = (if streaming then "" else r_Stdout x.1)
  /\ r.2 = (e ← x.2; Some (E "dockercli.Exec" External (Some e) (r_Stderr x.1))).

(** How it ends after the runs: nothing more to try, or cancelled while waiting. *)
Definition outcome_of (first : Result * option error) (again : list (Result * option error))
    (t : list (obs process)) (r : Result * option error) : Prop :=
  let final := default first (last again) in
  (t = [] /\ reported final r /\ (could_not_connect final -> repeatable -> length again = 4))
  \/ (exists e d, waits !! length again = Some d /\ t = [Obs (Sleep d) (Some e)] /\ r.2 = Some e
        /\ could_not_connect final /\ repeatable).

Lemma ssh_failed_iff x : ssh_failed x = true <-> could_not_connect x.
Proof.
  unfold ssh_failed, could_not_connect, isSSHConnectionError. destruct x as [res [e|]]; cbn.
  - rewrite !orb_true_iff, !Exists_cons, Exists_nil. split; [split; [done|tauto]|tauto].
  - split; [done|]. by intros [[? ?] _].
Qed.
Lemma canRetry_iff : canRetry s streaming opts = true <-> repeatable.
Proof. unfold canRetry, repeatable. rewrite !andb_true_iff, bool_decide_eq_true, !negb_true_iff. tauto. Qed.

Lemma command_env_for environ : environment_for environ (command_env s opts environ).
Proof.
  eexists. split; [reflexivity|]. split_and!; intros; repeat case_bool_decide; naive_solver.
Qed.

Lemma attempts_runs p x rs : length rs <= 4 ->
  attempts_trace p 0 (x :: rs) = Obs (Spawn p) x :: runs_again p waits rs.
Proof. intros Hl. do 4 (destruct rs as [|? rs]; [done|]). destruct rs; [done|]. simpl in Hl. lia. Qed.

Lemma finished_reported x : reported x (finished (as_seen x)).
Proof.
  destruct x as [res [e|]]; split_and!; try done. unfold finished, wrap. cbn [snd as_seen fst r_Stderr].
  change (Sprintf "%s" [r_Stderr res]) with (r_Stderr res +:+ ""). by rewrite string_app_nil_r.
Qed.

Lemma outcome_ends first again t r : length again <= 4 ->
  attempts_end (maxAttempts s streaming opts) 0 (first :: again) (final_run (no_result, None) (first :: again)) t r ->
  outcome_of first again t r.
Proof.
  intros Hlen. assert (final_run (no_result, None) (first :: again) = as_seen (default first (last again))) as ->.
  { unfold final_run. rewrite last_cons. by destruct (last again). }
  unfold attempts_end, outcome_of, maxAttempts. cbv zeta. set (final := default first (last again)).
  rewrite ssh_failed_seen. change sshMaxRetries with 4. destruct (canRetry s streaming opts) eqn:Hc.
  - apply canRetry_iff in Hc. intros [(-> & -> & Hn)|(e & -> & -> & Hf & Hlt)]; [left|right].
    + split_and!; [done|apply finished_reported|]. intros Hf%ssh_failed_iff _. simpl in Hn.
      destruct (decide (length again = 4)); [done|]. rewrite Hn in Hf by lia. done.
    + exists e. simpl in Hlt. cbn [length Nat.add]. apply ssh_failed_iff in Hf.
      destruct (length again) as [|[|[|[|n]]]] eqn:Hl; [..|lia]; eexists; split_and!; done.
  - apply not_true_iff_false in Hc. rewrite canRetry_iff in Hc.
    intros [(-> & -> & Hn)|(e & -> & -> & Hf & Hlt)]; [left|simpl in Hlt; lia].
    split_and!; [done|apply finished_reported|]. by intros _ ?%Hc.
Qed.

(** C35: How a docker command is run.  Where connections are limited (on remote
    contexts) the slot is taken before everything else and always given back, but for
    a probe, which takes none.  The process, with the arguments, input and directory of
    the call and the daemon set in its environment, is started at least once and, only
    when it could not connect over ssh, again after one, two, four and eight seconds,
    at most five times in all; never again on a local context, for a probe, or when it
    reads an input or streams its output.  It is given up only when these are used up
    or something else went wrong; the caller gets the outcome of the last run, or the
    cancellation that ended a wait. *)
Theorem RunDetailed_attempts :
  wp (RunDetailed s streaming opts args) (fun t r =>
    (sx_sem s = true /\ o_Probe opts = false
     /\ exists e, r.2 = Some e /\ Obs Acquire (Some e) ∈ t /\ forall p x, Obs (Spawn p) x ∉ t)
    \/ exists pre environ env first again t',
      let p := mkProcess args env (o_Dir opts) (o_Stdin opts) streaming in
      let body := Obs Environ environ :: Obs (Spawn p) first :: runs_again p waits again ++ t' in
      (sx_sem s = true -> o_Probe opts = false -> t = pre ++ Obs Acquire None :: body ++ [Obs Release tt])
      /\ (sx_sem s = false \/ o_Probe opts = true -> t = pre ++ body)
      /\ (pre = [] \/ exists d, (0 < d)%Z /\ pre = [Obs (SetTimeout d) tt])
      /\ environment_for environ env
      /\ length again <= 4 /\ (again <> [] -> repeatable)
      /\ Forall could_not_connect (removelast (first :: again))
      /\ outcome_of first again t' r).
Proof.
  eapply wp_mono; [apply RunDetailed_trace|].
  intros t r [([Hs Hp%negb_true_iff]%andb_true_iff & e & -> & Ha & Hn)|Hrun]; [left; by eauto 6|right].
  destruct Hrun as (pre & environ & rs & t' & -> & Hpre & Hlen & HF & Hend).
  destruct rs as [|first again]; [simpl in Hlen; lia|].
  assert (length again <= 4 /\ (again <> [] -> repeatable)) as [Hle Hrep].
  { unfold maxAttempts in Hlen. change sshMaxRetries with 4 in Hlen. rewrite <- canRetry_iff.
    destruct (canRetry s streaming opts); simpl in Hlen; [split; [lia|done]|].
    destruct again; simpl in Hlen; [split; [simpl; lia|done]|lia]. }
  exists pre, environ, (command_env s opts environ), first, again, t'. cbv zeta.
  rewrite attempts_runs by done. unfold in_slot, the_process. split_and!; try done.
  - intros -> ->. done.
  - by intros [->| ->]; rewrite ?andb_false_r.
  - apply command_env_for.
  - eapply Forall_impl; [exact HF|]. intros x. apply ssh_failed_iff.
  - by apply outcome_ends.
Qed.
End Attempts.
