(* ===== verification/Lru.v ===== *)
(** * The least-recently-used cache ([internal/dockercli/lru_cache.go])

    A map from keys to elements of a doubly linked list ([container/list]), most
    recent first.  Elements are pointers: the map and the list share them, and an
    update writes through the pointer.  Every method holds the mutex from start to
    end, so a history of a shared cache is a sequence of operations.

    The reference is an association list kept in order of use, cut at the
    capacity. *)

From S2P Require Import Prelude.

Section LRU.
Context `{Countable K} {V : Type}.

Record lruEntry := mkEntry { le_key : K; le_value : V }.

(** [lru_heap] is what the list elements point to; an element's address is never
    reused. *)
Record LRUCache := mkLRU {
  lru_maxSize : Z;
  lru_items : gmap K positive;
  lru_order : list positive;
  lru_heap : gmap positive lruEntry;
}.

(** The address of a new element. *)
Definition lru_new (c : LRUCache) : positive := fresh (dom (lru_heap c)).

Definition NewLRUCache (maxSize : Z) : LRUCache :=
  mkLRU (if (maxSize <=? 0)%Z then 100 else maxSize) ∅ [] ∅.

(** [list.MoveToFront], [list.Remove], [list.Back]. *)
Definition MoveToFront (e : positive) (order : list positive) : list positive :=
  e :: filter (fun x => x <> e) order.
Definition Remove (e : positive) (order : list positive) : list positive :=
  filter (fun x => x <> e) order.

Definition Get (c : LRUCache) (key : K) : LRUCache * option V :=
  match lru_items c !! key with
  | Some elem =>
      (mkLRU (lru_maxSize c) (lru_items c) (MoveToFront elem (lru_order c)) (lru_heap c),
       le_value <$> lru_heap c !! elem)
  | None => (c, None)
  end.

(** The eviction loop; each turn removes an element, so the length of the list
    bounds the turns. *)
Fixpoint evict (fuel : nat) (c : LRUCache) : LRUCache :=
  match fuel with
  | 0 => c
  | S fuel =>
      if (lru_maxSize c <=? Z.of_nat (length (lru_order c)))%Z then
        match last (lru_order c) with
        | None => c
        | Some oldest =>
            let items := match lru_heap c !! oldest with
                         | Some ent => delete (le_key ent) (lru_items c)
                         | None => lru_items c
                         end in
            evict fuel (mkLRU (lru_maxSize c) items (Remove oldest (lru_order c)) (lru_heap c))
        end
      else c
  end.

Definition Set_ (c : LRUCache) (key : K) (value : V) : LRUCache :=
  match lru_items c !! key with
  | Some elem =>
      mkLRU (lru_maxSize c) (lru_items c) (MoveToFront elem (lru_order c))
        (alter (fun ent => mkEntry (le_key ent) value) elem (lru_heap c))
  | None =>
      let c := evict (length (lru_order c)) c in
      let elem := lru_new c in
      mkLRU (lru_maxSize c) (<[key := elem]> (lru_items c)) (elem :: lru_order c)
        (<[elem := mkEntry key value]> (lru_heap c))
  end.

Definition Len (c : LRUCache) : nat := length (lru_order c).
Definition Clear (c : LRUCache) : LRUCache := mkLRU (lru_maxSize c) ∅ [] (lru_heap c).

(** ** The reference: entries in order of use *)

Local Notation recency := (list (K * V)).
Definition without (key : K) (l : recency) : recency := filter (fun e => e.1 <> key) l.
Definition find_key (key : K) (l : recency) : option V := snd <$> head (filter (fun e => e.1 = key) l).

Definition ref_get (l : recency) (key : K) : recency * option V :=
  match find_key key l with
  | Some v => ((key, v) :: without key l, Some v)
  | None => (l, None)
  end.
Definition ref_set (cap : nat) (l : recency) (key : K) (value : V) : recency :=
  match find_key key l with
  | Some _ => (key, value) :: without key l
  | None => (key, value) :: take (cap - 1) l
  end.

(** ** The invariant *)

Definition capacity (c : LRUCache) : nat := Z.to_nat (lru_maxSize c).
Definition entry_at (c : LRUCache) (e : positive) : option (K * V) :=
  (fun ent => (le_key ent, le_value ent)) <$> lru_heap c !! e.
Definition abs (c : LRUCache) : recency := omap (entry_at c) (lru_order c).

(** The map and the list hold the same elements, each under its key. *)
Record wf (c : LRUCache) : Prop := mkWf {
  wf_cap : (0 < lru_maxSize c)%Z;
  wf_bound : (Z.of_nat (length (lru_order c)) <= lru_maxSize c)%Z;
  wf_nodup : NoDup (lru_order c);
  wf_items : forall key e, lru_items c !! key = Some e <->
    e ∈ lru_order c /\ exists v, lru_heap c !! e = Some (mkEntry key v);
  wf_heap : forall e, e ∈ lru_order c -> is_Some (lru_heap c !! e);
}.


Lemma wf_entry c e : wf c -> e ∈ lru_order c ->
  exists key v, lru_heap c !! e = Some (mkEntry key v) /\ lru_items c !! key = Some e.
Proof.
  intros Hc He. destruct (wf_heap c Hc e He) as [[key v] Hv]. exists key, v.
  split; [done|]. apply (wf_items c Hc). eauto.
Qed.

(** An element of the list other than [e] has another key. *)
Lemma abs_without c key e : wf c -> lru_items c !! key = Some e ->
  omap (entry_at c) (filter (fun x => x <> e) (lru_order c)) = without key (abs c).
Proof.
  intros Hc Hk. apply omap_filter_iff. intros x [k v] Hx Hv. simpl.
  destruct (wf_entry c x Hc Hx) as (key' & v' & Hh & Hi).
  unfold entry_at in Hv. rewrite Hh in Hv. injection Hv as <- <-.
  apply (wf_items c Hc) in Hk as Hk'. destruct Hk' as [_ [w Hw]].
  split; intros Hne Heq; subst; congruence.
Qed.

Lemma elem_of_abs c k v : wf c ->
  (k, v) ∈ abs c <-> exists e, lru_items c !! k = Some e /\ lru_heap c !! e = Some (mkEntry k v).
Proof.
  intros Hc. unfold abs. rewrite list_elem_of_omap. split.
  - intros (e & He & Hv). destruct (wf_entry c e Hc He) as (key & v' & Hh & Hi).
    unfold entry_at in Hv. rewrite Hh in Hv. injection Hv as <- <-. eauto.
  - intros (e & Hi & Hh). exists e. split; [by apply (wf_items c Hc) in Hi as [? _]|].
    unfold entry_at. by rewrite Hh.
Qed.

Lemma find_key_abs c key : wf c ->
  find_key key (abs c) = e ← lru_items c !! key; le_value <$> lru_heap c !! e.
Proof.
  intros Hc. unfold find_key.
  destruct (filter (fun e => e.1 = key) (abs c)) as [|[k v] l] eqn:Hf; simpl.
  - destruct (lru_items c !! key) as [e|] eqn:Hi; simpl; [|done].
    assert (exists v, lru_heap c !! e = Some (mkEntry key v)) as [v Hv]
      by by apply (wf_items c Hc) in Hi as [_ ?].
    exfalso. assert ((key, v) ∈ filter (fun e => e.1 = key) (abs c)) as Hin.
    { apply list_elem_of_filter. split; [done|]. apply elem_of_abs; eauto. }
    rewrite Hf in Hin. by apply elem_of_nil in Hin.
  - assert ((k, v) ∈ filter (fun e => e.1 = key) (abs c)) as Hin by (rewrite Hf; left).
    apply list_elem_of_filter in Hin as [Hk Hin]. simpl in Hk. subst k.
    apply elem_of_abs in Hin as (e & Hi & Hh); [|done]. rewrite Hi. simpl. by rewrite Hh.
Qed.

(** ** The operations keep the invariant and follow the reference *)

Lemma NewLRUCache_wf n : wf (NewLRUCache n) /\ abs (NewLRUCache n) = [].
Proof.
  split; [|done]. unfold NewLRUCache. split; simpl.
  - destruct (Z.leb_spec n 0); lia.
  - destruct (Z.leb_spec n 0); lia.
  - constructor.
  - intros key e. rewrite lookup_empty, elem_of_nil. naive_solver.
  - intros e He. by apply elem_of_nil in He.
Qed.

Lemma MoveToFront_perm c key e : wf c -> lru_items c !! key = Some e ->
  MoveToFront e (lru_order c) ≡ₚ lru_order c.
Proof.
  intros Hc [He _]%(wf_items c Hc). unfold MoveToFront. pose proof (wf_nodup c Hc) as Hnd.
  apply NoDup_Permutation; [|done|].
  - apply NoDup_cons. split; [rewrite list_elem_of_filter; tauto|by apply NoDup_filter].
  - intros x. rewrite elem_of_cons, list_elem_of_filter. destruct (decide (x = e)); naive_solver.
Qed.

Lemma wf_reorder c order : wf c -> order ≡ₚ lru_order c ->
  wf (mkLRU (lru_maxSize c) (lru_items c) order (lru_heap c)).
Proof.
  intros Hc Hp. destruct Hc as [H1 H2 H3 H4 H5]. split; simpl; [done| | | |].
  - by rewrite Hp.
  - by rewrite Hp.
  - intros. by rewrite Hp.
  - intros e. rewrite Hp. auto.
Qed.

(** [Get] reports what the reference reports and moves the entry to the front. *)
Lemma Get_spec c key : wf c ->
  let r := Get c key in let r' := ref_get (abs c) key in
  wf r.1 /\ abs r.1 = r'.1 /\ r.2 = r'.2 /\ lru_maxSize r.1 = lru_maxSize c.
Proof.
  intros Hc. unfold Get, ref_get. rewrite find_key_abs by done.
  destruct (lru_items c !! key) as [e|] eqn:Hi; simpl; [|done].
  assert (exists v, lru_heap c !! e = Some (mkEntry key v)) as [v Hv]
    by by apply (wf_items c Hc) in Hi as [_ ?].
  rewrite Hv. simpl. split_and!; [|  |done|done].
  - apply wf_reorder; [done|]. by eapply MoveToFront_perm.
  - unfold abs at 1. simpl. unfold entry_at at 1. simpl. rewrite Hv. simpl. f_equal.
    exact (abs_without c key e Hc Hi).
Qed.

Lemma abs_length c : wf c -> length (abs c) = length (lru_order c).
Proof.
  intros Hc. unfold abs.
  assert (Forall (fun e => is_Some (entry_at c e)) (lru_order c)) as HF.
  { apply Forall_forall. intros e He. destruct (wf_heap c Hc e He) as [ent Hent].
    unfold entry_at. rewrite Hent. by eexists. }
  induction HF as [|e l [y Hy] _ IH]; [done|]. cbn [omap list_omap]. rewrite Hy. simpl. by f_equal.
Qed.

Lemma evict_below fuel c : (Z.of_nat (length (lru_order c)) < lru_maxSize c)%Z -> evict fuel c = c.
Proof.
  intros Hlt. destruct fuel; simpl; [done|].
  by destruct (Z.leb_spec (lru_maxSize c) (Z.of_nat (length (lru_order c)))); [lia|].
Qed.

Lemma Remove_last l (x : positive) : NoDup (l ++ [x]) -> Remove x (l ++ [x]) = l.
Proof.
  intros (_ & Hx & _)%NoDup_app. unfold Remove. rewrite filter_app, filter_cons_False, filter_nil.
  - rewrite app_nil_r. apply filter_all. intros y Hy ->. apply (Hx x); set_solver.
  - naive_solver.
Qed.

(** Dropping the last element of the list and its key keeps the invariant. *)
Lemma wf_drop c l x key v : wf c -> lru_order c = l ++ [x] -> lru_heap c !! x = Some (mkEntry key v) ->
  wf (mkLRU (lru_maxSize c) (delete key (lru_items c)) l (lru_heap c)).
Proof.
  intros Hc Ho Hx. pose proof (wf_nodup c Hc) as Hnd. pose proof (wf_bound c Hc) as Hb.
  rewrite Ho in Hnd, Hb. rewrite length_app in Hb. simpl in Hb.
  apply NoDup_app in Hnd as (Hl & Hlx & _).
  assert (x ∉ l) as Hxl by (intros Hin; apply (Hlx x Hin); left).
  assert (lru_items c !! key = Some x) as Hi.
  { apply (wf_items c Hc). rewrite Ho. split; [set_solver|eauto]. }
  split; simpl; [apply (wf_cap c Hc)|lia|done| |].
  - intros k e. rewrite lookup_delete_Some, (wf_items c Hc), Ho, elem_of_app, list_elem_of_singleton.
    split.
    + intros (Hk & [He| ->] & w & Hw); [eauto|]. congruence.
    + intros (He & w & Hw). split_and!; [|by left|eauto]. intros ->.
      assert (lru_items c !! k = Some e) as Hi'.
      { apply (wf_items c Hc). rewrite Ho. split; [set_solver|eauto]. }
      congruence.
  - intros e He. apply (wf_heap c Hc). rewrite Ho. set_solver.
Qed.

(** Below the capacity nothing is evicted; at the capacity, the oldest entry. *)
Lemma evict_spec c : wf c ->
  let c' := evict (length (lru_order c)) c in
  wf c' /\ abs c' = take (capacity c - 1) (abs c) /\ lru_maxSize c' = lru_maxSize c
  /\ (Z.of_nat (length (lru_order c')) < lru_maxSize c)%Z
  /\ (forall key, lru_items c !! key = None -> lru_items c' !! key = None).
Proof.
  intros Hc. pose proof (abs_length c Hc) as Hlen. pose proof (wf_bound c Hc) as Hb.
  pose proof (wf_cap c Hc) as Hcap. unfold capacity.
  destruct (decide (Z.of_nat (length (lru_order c)) < lru_maxSize c)%Z) as [Hlt|Hge].
  { rewrite evict_below by done. split_and!; [done| |done|done|done]. rewrite take_ge; [done|lia]. }
  destruct (lru_order c) as [|x l _] eqn:Ho using rev_ind; [simpl in *; lia|].
  rewrite length_app in *. simpl in *. rewrite Nat.add_1_r in *. cbn [evict].
  rewrite Ho, length_app, last_snoc. simpl. rewrite Nat.add_1_r.
  destruct (Z.leb_spec (lru_maxSize c) (Z.of_nat (S (length l)))); [|lia].
  destruct (wf_entry c x Hc) as (key & v & Hx & Hi); [rewrite Ho; set_solver|].
  rewrite Hx, Remove_last by (rewrite <- Ho; apply (wf_nodup c Hc)). cbn [le_key].
  rewrite evict_below by (simpl; lia).
  assert (length (omap (entry_at c) l) = length l) as Hl.
  { unfold abs in Hlen. rewrite Ho, omap_app, length_app in Hlen. cbn [omap list_omap] in Hlen.
    unfold entry_at at 2 in Hlen. rewrite Hx in Hlen. simpl in Hlen. lia. }
  split_and!; simpl; [by eapply wf_drop| |done|lia|].
  - unfold abs at 2. rewrite Ho, omap_app. rewrite take_app_le by lia. by rewrite take_ge by lia.
  - intros k Hk. rewrite lookup_delete_None. by right.
Qed.

Lemma abs_ext order heap heap' m m' i i' :
  (forall e, e ∈ order -> heap !! e = heap' !! e) ->
  abs (mkLRU m i order heap) = abs (mkLRU m' i' order heap').
Proof.
  intros Hh. unfold abs, entry_at. simpl. induction order as [|e l IH]; [done|].
  cbn [omap list_omap]. rewrite (Hh e) by left. rewrite IH; [done|]. intros. apply Hh. by right.
Qed.

(** [Set] on a key that is there: the value changes through the shared element. *)
Lemma Set_update_spec c key v e : wf c -> lru_items c !! key = Some e ->
  let c' := Set_ c key v in wf c' /\ abs c' = (key, v) :: without key (abs c).
Proof.
  intros Hc Hi. unfold Set_. rewrite Hi.
  apply (wf_items c Hc) in Hi as Hi'. destruct Hi' as [He [w Hw]].
  set (heap := alter _ e (lru_heap c)).
  assert (forall x, x <> e -> heap !! x = lru_heap c !! x) as Hother
    by (intros; by apply lookup_alter_ne).
  assert (heap !! e = Some (mkEntry key v)) as Hnew
    by (unfold heap; by rewrite lookup_alter_eq, Hw).
  split.
  - pose proof (MoveToFront_perm c key e Hc Hi) as Hp. destruct Hc as [H1 H2 H3 H4 H5].
    split; cbn [lru_maxSize lru_order lru_items lru_heap];
      [done|by rewrite Hp|by rewrite Hp| |].
    + intros k x. rewrite H4, Hp. apply and_iff_compat_l. destruct (decide (x = e)) as [->|Hne].
      * rewrite Hnew, Hw. naive_solver.
      * by rewrite Hother.
    + intros x. rewrite Hp. intros Hx. destruct (decide (x = e)) as [->|Hne]; [by rewrite Hnew|].
      rewrite Hother by done. auto.
  - unfold MoveToFront, abs at 1. simpl. unfold entry_at at 1. simpl. rewrite Hnew. simpl. f_equal.
    rewrite <- (abs_without c key e Hc Hi).
    apply (abs_ext _ heap (lru_heap c) 0 (lru_maxSize c) ∅ (lru_items c)).
    intros x [Hx _]%list_elem_of_filter. by apply Hother.
Qed.

(** A new element in front, below the capacity. *)
Lemma push_spec c key v : wf c -> (Z.of_nat (length (lru_order c)) < lru_maxSize c)%Z ->
  lru_items c !! key = None ->
  let e := lru_new c in
  let c' := mkLRU (lru_maxSize c) (<[key := e]> (lru_items c)) (e :: lru_order c)
              (<[e := mkEntry key v]> (lru_heap c)) in
  wf c' /\ abs c' = (key, v) :: abs c.
Proof.
  intros Hc Hlt Hno e.
  assert (lru_heap c !! e = None) as Hfresh
    by (apply (not_elem_of_dom (D := gset positive)); exact (is_fresh (dom (lru_heap c)))).
  assert (e ∉ lru_order c) as Heo.
  { intros [ent Hent]%(wf_heap c Hc). congruence. }
  split.
  - destruct Hc as [H1 H2 H3 H4 H5]. split; simpl; [done|lia|by apply NoDup_cons| |].
    + intros k x. rewrite elem_of_cons. destruct (decide (x = e)) as [->|Hne].
      * rewrite lookup_insert_eq. split.
        -- intros [[-> _]|[Hk Hx]]%lookup_insert_Some; [eauto|].
           apply H4 in Hx as [? _]. done.
        -- intros [_ [w [= -> ->]]]. by rewrite lookup_insert_eq.
      * rewrite (lookup_insert_ne (lru_heap c)) by done. destruct (decide (k = key)) as [->|Hk].
        -- rewrite lookup_insert_eq. split; [congruence|]. intros [[?|Hx] [w Hw]]; [done|].
           assert (lru_items c !! key = Some x) by (apply H4; eauto). congruence.
        -- rewrite lookup_insert_ne by done. rewrite H4. naive_solver.
    + intros x [->|Hx]%elem_of_cons; [by rewrite lookup_insert_eq|].
      rewrite lookup_insert_ne; [auto|]. intros ->. done.
  - unfold abs at 1. simpl. unfold entry_at at 1. simpl. rewrite lookup_insert_eq. simpl. f_equal.
    refine (abs_ext (lru_order c) (<[e:=mkEntry key v]> (lru_heap c)) (lru_heap c)
              0 (lru_maxSize c) ∅ (lru_items c) _).
    intros x Hx. apply lookup_insert_ne. intros ->. done.
Qed.

Lemma Set_maxSize c key v : wf c -> lru_maxSize (Set_ c key v) = lru_maxSize c.
Proof.
  intros Hc. unfold Set_. destruct (lru_items c !! key); [done|]. simpl. by apply evict_spec.
Qed.

(** [Set] leaves what the reference leaves. *)
Lemma Set_spec c key v : wf c ->
  wf (Set_ c key v) /\ abs (Set_ c key v) = ref_set (capacity c) (abs c) key v.
Proof.
  intros Hc. unfold ref_set. rewrite find_key_abs by done.
  destruct (lru_items c !! key) as [e|] eqn:Hi.
  - destruct (wf_items c Hc key e) as [Hw _]. destruct (Hw Hi) as [_ [w Hh]].
    simpl. rewrite Hh. simpl. by eapply Set_update_spec.
  - destruct (evict_spec c Hc) as (Hc' & Habs & Hm & Hlt & Hno).
    unfold Set_. rewrite Hi. simpl. rewrite <- Habs. apply push_spec; [done|lia|auto].
Qed.

Lemma Clear_spec c : wf c -> wf (Clear c) /\ abs (Clear c) = [].
Proof.
  intros [H1 H2 H3 H4 H5]. split; [|done]. split; simpl; [done|lia|constructor| |].
  - intros. rewrite lookup_empty, elem_of_nil. naive_solver.
  - by intros e He%elem_of_nil.
Qed.

(** ** Histories *)

Inductive lru_op := OpGet (key : K) | OpSet (key : K) (value : V) | OpLen | OpClear.
Inductive lru_out := OutValue (v : option V) | OutLen (n : nat) | OutDone.

Definition lru_step (c : LRUCache) (o : lru_op) : LRUCache * lru_out :=
  match o with
  | OpGet key => let r := Get c key in (r.1, OutValue r.2)
  | OpSet key value => (Set_ c key value, OutDone)
  | OpLen => (c, OutLen (Len c))
  | OpClear => (Clear c, OutDone)
  end.

Definition ref_step (cap : nat) (l : recency) (o : lru_op) : recency * lru_out :=
  match o with
  | OpGet key => let r := ref_get l key in (r.1, OutValue r.2)
  | OpSet key value => (ref_set cap l key value, OutDone)
  | OpLen => (l, OutLen (length l))
  | OpClear => ([], OutDone)
  end.

(** The outputs of a history, and the state it ends in. *)
Definition history {S} (step : S -> lru_op -> S * lru_out) (s : S) (ops : list lru_op)
  : S * list lru_out :=
  foldl (fun st o => let r := step st.1 o in (r.1, st.2 ++ [r.2])) (s, []) ops.

Lemma history_snoc {S} (step : S -> lru_op -> S * lru_out) s ops o :
  history step s (ops ++ [o])
  = (let r := step (history step s ops).1 o in (r.1, (history step s ops).2 ++ [r.2])).
Proof. unfold history. by rewrite foldl_app. Qed.

Lemma lru_step_refines c o : wf c ->
  wf (lru_step c o).1 /\ lru_maxSize (lru_step c o).1 = lru_maxSize c
  /\ ref_step (capacity c) (abs c) o = (abs (lru_step c o).1, (lru_step c o).2).
Proof.
  intros Hc. destruct o as [key|key v| |]; simpl.
  - destruct (Get_spec c key Hc) as (H1 & H2 & H3 & H4). by rewrite H2, H3.
  - destruct (Set_spec c key v Hc) as [H1 H2]. by rewrite H2, Set_maxSize.
  - split; [done|]. unfold Len. by rewrite abs_length.
  - destruct (Clear_spec c Hc) as [H1 H2]. done.
Qed.

Lemma history_refines n ops :
  let r := history lru_step (NewLRUCache n) ops in
  wf r.1 /\ lru_maxSize r.1 = lru_maxSize (NewLRUCache n)
  /\ history (ref_step (capacity (NewLRUCache n))) [] ops = (abs r.1, r.2).
Proof.
  induction ops as [|o ops IH] using rev_ind; [by destruct (NewLRUCache_wf n)|].
  cbv zeta in *. destruct IH as (Hw & Hm & Hh). rewrite !history_snoc, Hh. simpl.
  destruct (lru_step_refines _ o Hw) as (H1 & H2 & H3).
  unfold capacity in H3 at 1. rewrite Hm in H3. unfold capacity in *. rewrite H3. simpl.
  by rewrite H2.
Qed.

(** C34: A cache behaves as a list of entries in order of use, cut at the capacity.
    Every history of gets, sets, length queries and clears on a new cache gives
    the answers of that reference, the map and the list agree throughout, and the
    number of entries never exceeds the capacity, which is 100 when none is
    asked for. *)
Theorem LRU_refines n (ops : list lru_op) :
  let cap := if (n <=? 0)%Z then 100 else Z.to_nat n in
  let r := history lru_step (NewLRUCache n) ops in
  r.2 = (history (ref_step cap) [] ops).2 /\ wf r.1 /\ Len r.1 <= cap.
Proof.
  intros cap r. destruct (history_refines n ops) as (Hw & Hm & Hh).
  assert (capacity (NewLRUCache n) = cap) as Hcap.
  { unfold capacity, NewLRUCache, cap. simpl. by destruct (n <=? 0)%Z. }
  rewrite <- Hcap, Hh. split_and!; [done|done|].
  unfold Len. pose proof (wf_bound _ Hw). unfold r, capacity. rewrite <- Hm. lia.
Qed.

(** ** What a capacity guarantees *)

(** The keys an operation uses. *)
Definition op_keys (o : lru_op) : gset K :=
  match o with OpGet key | OpSet key _ => {[key]} | _ => ∅ end.
Definition used (ops : list lru_op) : gset K := ⋃ (op_keys <$> ops).

(** Neither overwritten nor cleared. *)
Definition leaves (key : K) (o : lru_op) : Prop :=
  match o with OpSet key' _ => key' <> key | OpClear => False | _ => True end.

(** The entry is behind entries of the keys used since. *)
Definition behind (key : K) (v : V) (since : gset K) (l : recency) : Prop :=
  NoDup l.*1 /\ exists l1 l2, l = l1 ++ (key, v) :: l2 /\ forall k, k ∈ l1.*1 -> k ∈ since.

Lemma without_keys key l : (without key l).*1 = filter (fun k => k <> key) l.*1.
Proof.
  induction l as [|[k v] l IH]; [done|]. unfold without in *. rewrite fmap_cons, !filter_cons.
  change ((k, v).1) with k. destruct (decide (k <> key)); [exact (f_equal (cons k) IH)|exact IH].
Qed.

Lemma find_key_Some key v l : find_key key l = Some v -> (key, v) ∈ l.
Proof.
  unfold find_key. destruct (filter _ l) as [|[k w] l'] eqn:Hf; [done|]. intros [= <-].
  assert ((k, w) ∈ filter (fun e => e.1 = key) l) as Hin by (rewrite Hf; left).
  apply list_elem_of_filter in Hin as [Hk Hin]. simpl in Hk. by subst k.
Qed.

Lemma find_key_None key l : find_key key l = None -> key ∉ l.*1.
Proof.
  unfold find_key. destruct (filter _ l) eqn:Hf; [|done]. intros _ ([k v] & Hk & Hin)%list_elem_of_fmap.
  simpl in Hk. subst k. assert ((key, v) ∈ filter (fun e => e.1 = key) l) as Hx
    by by apply list_elem_of_filter.
  rewrite Hf in Hx. by apply elem_of_nil in Hx.
Qed.

(** Moving another key to the front leaves the entry behind one more key. *)
Lemma behind_front key v since k w l : k <> key -> behind key v since l ->
  behind key v ({[k]} ∪ since) ((k, w) :: without k l).
Proof.
  intros Hne (Hnd & l1 & l2 & -> & Hl1). split.
  - simpl. rewrite without_keys. apply NoDup_cons.
    split; [rewrite list_elem_of_filter; tauto|by apply NoDup_filter].
  - exists ((k, w) :: without k l1), (without k l2). split.
    + unfold without. by rewrite filter_app, filter_cons_True.
    + simpl. intros k'. rewrite elem_of_cons, without_keys, list_elem_of_filter. set_solver.
Qed.

(** Its own use brings it to the front, with its value. *)
Lemma behind_hit key v since w l : behind key v since l -> find_key key l = Some w ->
  behind key v since ((key, w) :: without key l).
Proof.
  intros (Hnd & l1 & l2 & -> & Hl1) Hin%find_key_Some. split.
  - simpl. rewrite without_keys. apply NoDup_cons.
    split; [rewrite list_elem_of_filter; tauto|by apply NoDup_filter].
  - exists [], (without key (l1 ++ (key, v) :: l2)). split; [|by intros ? ?%elem_of_nil].
    rewrite fmap_app, NoDup_app in Hnd. destruct Hnd as (_ & Hd & [Hk _]%NoDup_cons).
    apply elem_of_app in Hin as [Hin|[[= ->]|Hin]%elem_of_cons]; [|done|].
    + exfalso. apply (Hd key); [|left]. apply list_elem_of_fmap. by exists (key, w).
    + exfalso. apply Hk, list_elem_of_fmap. by exists (key, w).
Qed.

(** A new key pushes it back by one; the cut at the capacity does not reach it. *)
Lemma behind_push cap key v since k w l : k ∉ l.*1 -> behind key v since l ->
  size ({[key]} ∪ since ∪ {[k]} : gset K) <= cap ->
  behind key v ({[k]} ∪ since) ((k, w) :: take (cap - 1) l).
Proof.
  intros Hf (Hnd & l1 & l2 & -> & Hl1) Hsz. split.
  { rewrite fmap_cons, fmap_take. apply NoDup_cons.
    split; [by intros (i & Hi%list_elem_of_lookup_2 & _)%elem_of_take|].
    eapply sublist_NoDup; [exact Hnd|apply sublist_take]. }
  rewrite fmap_app in Hnd, Hf. apply NoDup_app in Hnd as (H1 & H2 & _).
  assert (NoDup (k :: key :: l1.*1)) as HN.
  { apply NoDup_cons. split; [set_solver|].
    apply NoDup_cons. split; [|done]. intros Hin. apply (H2 key Hin). left. }
  pose proof (size_list_to_set (C := gset K) _ HN) as Hsize.
  assert (size (list_to_set (k :: key :: l1.*1) : gset K) <= cap) as Hle.
  { etrans; [|exact Hsz]. apply subseteq_size. simpl. set_solver. }
  rewrite Hsize in Hle. simpl in Hle. rewrite length_fmap in Hle.
  assert (exists m, cap - 1 = length l1 + S m) as [m ->] by (exists (cap - 1 - length l1 - 1); lia).
  rewrite take_app_add. exists ((k, w) :: l1), (take m l2). split; [done|]. simpl. set_solver.
Qed.

(** One step of the reference: the entry stays as long as fewer keys than the
    capacity were used since. *)
Lemma ref_step_keeps cap key v since l o : leaves key o -> behind key v since l ->
  size ({[key]} ∪ since ∪ op_keys o : gset K) <= cap ->
  behind key v (since ∪ op_keys o ∖ {[key]}) (ref_step cap l o).1.
Proof.
  intros Hlv Hb Hsz.
  assert (behind key v (since ∪ op_keys o ∖ {[key]}) l) as Hl.
  { destruct Hb as (Hnd & l1 & l2 & -> & Hl1). split; [done|]. exists l1, l2. set_solver. }
  destruct o as [k|k w| |]; simpl in *; [| |done|done].
  - unfold ref_get. destruct (find_key k l) as [w|] eqn:Hf; [|done]. simpl.
    destruct (decide (k = key)) as [->|Hne]; [by apply behind_hit|].
    assert (since ∪ {[k]} ∖ {[key]} = {[k]} ∪ since) as -> by set_solver. by apply behind_front.
  - unfold ref_set. assert (since ∪ {[k]} ∖ {[key]} = {[k]} ∪ since) as -> by set_solver.
    destruct (find_key k l) as [w'|] eqn:Hf; simpl; [by apply behind_front|].
    apply behind_push; [by apply find_key_None|done|done].
Qed.

Lemma ref_history_keeps cap key v ops l since :
  Forall (leaves key) ops -> behind key v since l ->
  size ({[key]} ∪ since ∪ used ops : gset K) <= cap ->
  find_key key (history (ref_step cap) l ops).1 = Some v.
Proof.
  intros Hops Hb Hsz.
  assert (behind key v (since ∪ used ops ∖ {[key]}) (history (ref_step cap) l ops).1) as Hend.
  { induction ops as [|o ops IH] using rev_ind.
    - destruct Hb as (Hnd & l1 & l2 & -> & Hl1). split; [done|]. exists l1, l2. set_solver.
    - apply Forall_app in Hops as [Hops [Ho _]%Forall_cons].
      assert (used (ops ++ [o]) = used ops ∪ op_keys o) as Hu.
      { unfold used. rewrite fmap_app, union_list_app_L. simpl. set_solver. }
      rewrite Hu in *. rewrite history_snoc. simpl.
      assert (size ({[key]} ∪ since ∪ used ops : gset K) <= cap) as Hle.
      { etrans; [|exact Hsz]. apply subseteq_size. set_solver. }
      specialize (IH Hops Hle).
      pose proof (ref_step_keeps cap key v _ _ o Ho IH) as Hk.
      assert (since ∪ used ops ∖ {[key]} ∪ op_keys o ∖ {[key]}
              = since ∪ (used ops ∪ op_keys o) ∖ {[key]}) as Heq by set_solver.
      rewrite Heq in Hk. apply Hk. etrans; [|exact Hsz]. apply subseteq_size. set_solver. }
  destruct Hend as (Hnd & l1 & l2 & Heq & _). rewrite Heq in *. unfold find_key.
  rewrite fmap_app, NoDup_app in Hnd. destruct Hnd as (_ & Hd & _).
  rewrite filter_app, (filter_none _ l1); [by rewrite filter_cons_True|].
  intros [k w] Hin Hk. simpl in Hk. subst k. apply (Hd key); [|left].
  apply list_elem_of_fmap. by exists (key, w).
Qed.

Lemma history_app {S} (step : S -> lru_op -> S * lru_out) s a b :
  (history step s (a ++ b)).1 = (history step (history step s a).1 b).1.
Proof.
  induction b as [|o b IH] using rev_ind; [by rewrite app_nil_r|].
  rewrite (assoc_L (++)), !history_snoc. simpl. by rewrite IH.
Qed.

Lemma abs_nodup c : wf c -> NoDup (abs c).*1.
Proof.
  intros Hc. unfold abs. pose proof (wf_nodup c Hc) as Hnd.
  assert (forall e, e ∈ lru_order c -> exists key v,
            lru_heap c !! e = Some (mkEntry key v) /\ lru_items c !! key = Some e) as Hall
    by (intros; by apply wf_entry).
  induction (lru_order c) as [|e l IH]; [constructor|]. apply NoDup_cons in Hnd as [He Hnd].
  destruct (Hall e) as (key & v & Hh & Hi); [left|]. cbn [omap list_omap].
  unfold entry_at at 1. rewrite Hh. simpl. apply NoDup_cons. split.
  - intros ([k w] & Hk & (e' & He' & Hw)%list_elem_of_omap)%list_elem_of_fmap. simpl in Hk. subst k.
    destruct (Hall e') as (key' & v' & Hh' & Hi'); [by right|].
    unfold entry_at in Hw. rewrite Hh' in Hw. injection Hw as <- <-. congruence.
  - apply IH; [done|]. intros. apply Hall. by right.
Qed.

Lemma set_in_front cap l key v : exists l', ref_set cap l key v = (key, v) :: l'.
Proof. unfold ref_set. destruct (find_key key l); eauto. Qed.

(** The capacity is a guarantee.  An entry that is set is still found, with its
    value, after any operations that neither overwrite nor clear it, as long as
    they use, together with it, at most as many distinct keys as the capacity. *)
Theorem LRU_keeps_recent n before key v after :
  let cap := if (n <=? 0)%Z then 100 else Z.to_nat n in
  Forall (leaves key) after -> size ({[key]} ∪ used after : gset K) <= cap ->
  (Get (history lru_step (NewLRUCache n) (before ++ OpSet key v :: after)).1 key).2 = Some v.
Proof.
  intros cap Hops Hsz. rewrite cons_middle, (assoc_L (++)).
  destruct (history_refines n ((before ++ [OpSet key v]) ++ after)) as (Hw & _ & Hh).
  set (c := (history lru_step _ _).1) in *.
  destruct (Get_spec c key Hw) as (_ & _ & -> & _).
  assert (capacity (NewLRUCache n) = cap) as Hcap.
  { unfold capacity, NewLRUCache, cap. simpl. by destruct (n <=? 0)%Z. }
  unfold ref_get. enough (find_key key (abs c) = Some v) as -> by done.
  apply (f_equal fst) in Hh. cbn [fst] in Hh. rewrite <- Hh, Hcap, history_app.
  apply (ref_history_keeps cap key v after _ ∅); [done| |by rewrite union_empty_r_L].
  destruct (history_refines n (before ++ [OpSet key v])) as (Hw1 & _ & Hh1).
  rewrite Hcap in Hh1. rewrite Hh1. split; [by apply abs_nodup|].
  rewrite history_snoc in Hh1. simpl in Hh1.
  destruct (set_in_front cap (history (ref_step cap) [] before).1 key v) as [l' Hl'].
  exists [], l'. split; [|by intros ? ?%elem_of_nil]. cbn [fst app].
  rewrite <- Hl'. symmetry. by apply (f_equal fst) in Hh1.
Qed.
End LRU.

Arguments lruEntry : clear implicits.
Arguments LRUCache K {_ _} V.
Arguments lru_op : clear implicits.

(** A cache of two entries: reading "a" saves it from eviction. *)
Definition example_ops : list (lru_op string Z) :=
  [OpSet "a" 1; OpSet "b" 2; OpGet "a"; OpSet "c" 3; OpGet "b"; OpGet "a"; OpLen]%Z.

Example LRU_example :
  (history lru_step (NewLRUCache 2) example_ops).2
  = [OutDone; OutDone; OutValue (Some 1); OutDone; OutValue None; OutValue (Some 1); OutLen 2]%Z.
Proof. vm_compute. reflexivity. Qed.

Lemma LRU_keeps_recent_witness :
  (Get (history lru_step (NewLRUCache 2)
          ([OpSet "b" 2] ++ OpSet "a" 1 :: [OpGet "b"; OpSet "b" 7; OpGet "b"])%Z).1 "a").2 = Some 1%Z.
Proof.
  apply (LRU_keeps_recent 2 [OpSet "b" 2%Z] "a" 1%Z).
  - repeat constructor. discriminate.
  - vm_compute. lia.
Defined.
