(* ===== verification/Client.v ===== *)
(** * The docker client ([internal/dockercli/dockercli.go], [compose_args.go],
    [validate.go], [ps.go])

    Each operation is a docker command and a reading of its output.  Decoding JSON
    and YAML is the libraries': the decoders are the parameters of the class
    [Decoders]. *)

From S2P Require Import Prelude GoStrings GoPath Apperr Util Manifest Filesets Effects Docker DockerExec Lru.
From Stdlib Require Import Ascii.

(** ** The signature of a client's effects *)

(** A docker command on a context, a temporary file, the state of the context. *)
Inductive client_op : Type :=
| Exec (o : exec_op)
| WriteTemp (pattern content : string)
| RemoveFile (path : string)
| ContextErr.

(** Creating and filling a temporary file may fail at either step. *)
Inductive temp_failure := CreateFailed (e : error) | WriteFailed (e : error).

Canonical Structure client_effect : Effect := mkEffect client_op (fun o => match o with
  | Exec o => exec_answer o
  | WriteTemp _ _ => result temp_failure string
  | RemoveFile _ => unit
  | ContextErr => option error
  end).
Notation cli := (tree client_effect).

Definition docker_run (args : list string) : cli (res string) := do_op (Exec (Run args)).
Definition docker_stdin (input : stdin) (args : list string) : cli (res string) :=
  do_op (Exec (RunWithStdin input args)).
Definition docker_stream (args : list string) : cli (res unit) := do_op (Exec (RunWithStdout args)).
Definition docker_options (opts : Options) (args : list string) : cli (Result * option error) :=
  do_op (Exec (RunWithOptions opts args)).

(** Only the error of a command. *)
Definition run_unit (args : list string) : cli (res unit) :=
  out ← docker_run args; mret (out ≫= fun _ => Ok tt).

Class Decoders := {
  json_labels : string -> res (gmap string string);
  json_strings : string -> res (list string);
  json_compose : string -> res ComposeConfigDoc;
  yaml_compose : string -> res ComposeConfigDoc;
  json_ps_items : string -> res (list ComposePsItem);
  json_ps_item : string -> res ComposePsItem;
  json_ps_stream : string -> list ComposePsItem;
  yaml_document : string -> res (option (gmap string any));
  yaml_marshal : gmap string any -> res string;
}.

(** ** The client *)

Definition ComposeCacheMaxSize : Z := 100.
Definition HelperImage : string := "alpine:3.22".
Definition LabelPrefix : string := "io.dockform.".
Definition LabelIdentifier : string := LabelPrefix +:+ "identifier".

(** The cache is shared by all users of the client; it is passed along by the
    operations that use it. *)
Record Client := mkClient {
  cl_exec : SystemExec; cl_identifier : string; cl_contextName : string; cl_hostOverride : string }.
Notation compose_cache := (LRUCache string ComposeConfigDoc).

Definition new_cache : compose_cache := NewLRUCache ComposeCacheMaxSize.
Definition NewClient (contextName : string) : Client :=
  mkClient (newSystemExec contextName "") "" contextName "".
Definition NewWithHost (contextName host : string) : Client :=
  mkClient (newSystemExec contextName host) "" contextName host.
Definition WithIdentifier (c : Client) (id : string) : Client :=
  mkClient (cl_exec c) id (cl_contextName c) (cl_hostOverride c).

(** [requireNonEmpty] *)
Definition requireNonEmpty (s op msg : string) : option error :=
  if bool_decide (TrimSpace s = "") then Some (New op InvalidInput "%s" [msg]) else None.

(** Go on unless a check failed. *)
Definition guard {A} (check : option error) (k : cli (res A)) : cli (res A) :=
  match check with Some e => mret (Err e) | None => k end.

(** The filter every listing uses. *)
Definition identifier_filter (c : Client) : list string :=
  if bool_decide (cl_identifier c <> "")
  then ["--filter"; "label=" +:+ LabelIdentifier +:+ "=" +:+ cl_identifier c] else [].

Definition label_flags `{MapRange} (site flag : string) (labels : gmap string string) : list string :=
  concat ((fun e => [flag; e.1 +:+ "=" +:+ e.2]) <$> map_range site labels).

Section Operations.
Context `{MapRange} `{Decoders}.
Context (c : Client).

Definition CheckDaemon : cli (res unit) :=
  r ← docker_options (mkOptions "" [] None 0 true) ["version"; "--format"; "{{.Server.Version}}"];
  match r.2 with
  | None => mret (Ok tt)
  | Some e =>
      cancelled ← do_op ContextErr;
      mret match cancelled with
           | Some ce => Err ce
           | None =>
               if bool_decide (cl_contextName c <> "") && bool_decide (cl_contextName c <> "default")
               then Err (wrap "dockercli.CheckDaemon" Unavailable e
                           "docker daemon not reachable (context=%s)" [cl_contextName c])
               else Err (wrap "dockercli.CheckDaemon" Unavailable e "docker daemon not reachable" [])
           end
  end.

(** *** Containers *)

Definition cli_RemoveContainer (name : string) (force : bool) : cli (res unit) :=
  run_unit (["container"; "rm"] ++ (if force then ["-f"] else []) ++ [name]).

Definition cli_RestartContainer (name : string) : cli (res unit) :=
  guard (requireNonEmpty name "dockercli.RestartContainer" "container name required")
    (run_unit ["container"; "restart"; name]).

Definition PauseContainer (name : string) : cli (res unit) :=
  guard (requireNonEmpty name "dockercli.PauseContainer" "container name required")
    (run_unit ["container"; "pause"; name]).

(** The labels asked for; all of them when no key is given. *)
Definition select_labels (keys : list string) (labels : gmap string string) : gmap string string :=
  match keys with
  | [] => labels
  | _ => list_to_map (omap (fun k => (fun v => (k, v)) <$> labels !! k) keys)
  end.

Definition cli_InspectContainerLabels (containerName : string) (keys : list string)
  : cli (res (gmap string string)) :=
  let op := "dockercli.InspectContainerLabels" in
  if bool_decide (containerName = "") then mret (Err (New op InvalidInput "container name required" []))
  else
  out ← docker_run ["inspect"; "-f"; "{{json .Config.Labels}}"; containerName];
  try out id (fun out =>
  mret match json_labels out with
       | Err e => Err (wrap op Internal e "parse labels json" [])
       | Ok labels => Ok (select_labels keys labels)
       end).

Definition tab : ascii := "009"%char.

(** One line of the batched output: the name and its labels. *)
Definition labels_line (keys : list string) (line : string)
  : option (string * gmap string string) :=
  if bool_decide (line = "") then None else
  match SplitN line tab 2 with
  | [name; json] =>
      match json_labels json with
      | Ok labels => Some (TrimPrefix name "/", select_labels keys labels)
      | Err _ => None
      end
  | _ => None
  end.

Definition cli_InspectMultipleContainerLabels (containerNames keys : list string)
  : cli (res (option (gmap string (gmap string string)))) :=
  match containerNames with
  | [] => mret (Ok None)
  | _ =>
      out ← docker_run (["inspect"; "-f"; "{{.Name}}" +:+ String tab "{{json .Config.Labels}}"]
                          ++ containerNames);
      try out id (fun out =>
      mret (Ok (Some (foldl (fun m e => <[e.1 := e.2]> m) ∅
                        (omap (labels_line keys) (Split (TrimSpace out) newline))))))
  end.

Definition cli_UpdateContainerLabels (containerName : string) (labels : gmap string string)
  : cli (res unit) :=
  if bool_decide (labels = ∅) then mret (Ok tt) else
  run_unit (["container"; "update"] ++ label_flags "update labels" "--label-add" labels
              ++ [containerName]).

Definition ps_format : string :=
  "{{.Label " +:+ dq +:+ "com.docker.compose.project" +:+ dq +:+ "}};{{.Label "
  +:+ dq +:+ "com.docker.compose.service" +:+ dq +:+ "}};{{.Names}}".

(** One line of the listing; containers of no project or service are left out. *)
Definition ps_line (line : string) : option PsBrief :=
  match SplitN line ";" 3 with
  | [p; s; n] =>
      let proj := TrimSpace p in
      let svc := TrimSpace s in
      if bool_decide (proj = "") || bool_decide (svc = "") then None
      else Some (mkPs proj svc (TrimSpace n))
  | _ => None
  end.

Definition cli_ListComposeContainersAll : cli (res (list PsBrief)) :=
  out ← docker_run (["ps"; "-a"; "--format"; ps_format] ++ identifier_filter c);
  try out id (fun out => mret (Ok (omap ps_line (SplitNonEmptyLines out)))).

(** *** Files of volumes

    A helper container mounts the volume. *)

Definition dst : string := "/.dst".

(** The tar of a local directory replaces the contents of the volume. *)
Definition SyncDirToVolume (volumeName targetPath : string) (localDir : node) : cli (res unit) :=
  let op := "dockercli.SyncDirToVolume" in
  if bool_decide (volumeName = "") then mret (Err (New op InvalidInput "volume name required" []))
  else if negb (HasPrefix targetPath "/")
  then mret (Err (New op InvalidInput "targetPath must be absolute" []))
  else if bool_decide (targetPath = "/")
  then mret (Err (New op InvalidInput "targetPath cannot be '/'" []))
  else
  out ← docker_stdin (StdinTar (TarDirectoryToWriter localDir ""))
    ["run"; "--rm"; "-i"; "-v"; volumeName +:+ ":" +:+ dst; HelperImage; "sh"; "-c";
     "mkdir -p '" +:+ dst +:+ "' && rm -rf '" +:+ dst +:+ "'/* '" +:+ dst +:+ "'/.[!.]* '" +:+ dst
     +:+ "'/..?* 2>/dev/null || true; tar -xpf - -C '" +:+ dst +:+ "'"];
  mret (out ≫= fun _ => Ok tt).

Definition normalizeVolumeMountPath (targetPath : string) : string :=
  if bool_decide (targetPath = "/") then "/data" else targetPath.

(** The check of all operations on the files of a volume. *)
Definition invalid_volume (op volumeName targetPath : string) : option error :=
  if bool_decide (volumeName = "") || negb (HasPrefix targetPath "/")
  then Some (New op InvalidInput "invalid volume or target path" []) else None.

Definition is_crlf (ch : ascii) : bool := (code ch =? 13) || (code ch =? 10).

Definition cli_ReadFileFromVolume (volumeName targetPath relFile : string) : cli (res string) :=
  guard (invalid_volume "dockercli.ReadFileFromVolume" volumeName targetPath)
 (let mountPath := normalizeVolumeMountPath targetPath in
  let full := PathJoin [mountPath; relFile] in
  out ← docker_run ["run"; "--rm"; "-v"; volumeName +:+ ":" +:+ mountPath; HelperImage; "sh"; "-c";
                    "cat '" +:+ ShellEscape full +:+ "' 2>/dev/null || true"];
  try out id (fun out => mret (Ok (TrimRightBytes out is_crlf)))).

Definition index_marker (i : nat) : string := "===DFIDX:" +:+ Itoa_nat i +:+ "===".
Definition index_mount (i : nat) : string := "/dfidx/" +:+ Itoa_nat i.

Definition index_script (relFile : string) (i : nat) : string :=
  "echo '" +:+ index_marker i +:+ "'; cat '" +:+ ShellEscape (PathJoin [index_mount i; relFile])
  +:+ "' 2>/dev/null || true; echo; ".

(** [strconv.Atoi]: an optional sign and decimal digits, in the range of [int]. *)
Fixpoint digits_value (acc : Z) (s : string) : option Z :=
  match s with
  | "" => Some acc
  | String ch s => if is_digit ch then digits_value (acc * 10 + Z.of_nat (code ch - 48)) s else None
  end.
Definition signed_digits (sign : Z) (s : string) : option Z :=
  if bool_decide (s = "") then None else
  v ← digits_value 0 s;
  let n := (sign * v)%Z in
  if ((- 2 ^ 63 <=? n) && (n <? 2 ^ 63))%Z then Some n else None.
Definition Atoi (s : string) : option Z :=
  match s with
  | "" => None
  | String ch rest =>
      if Ascii.eqb ch "-" then signed_digits (-1) rest
      else if Ascii.eqb ch "+" then signed_digits 1 rest
      else signed_digits 1 s
  end.

(** The index a marker line carries; [-1] when it is no number. *)
Definition marker_index (line : string) : option Z :=
  if HasPrefix line "===DFIDX:" && HasSuffix line "==="
  then Some (default (-1)%Z (Atoi (TrimSuffix (TrimPrefix line "===DFIDX:") "===")))
  else None.

(** The state of the loop: the map so far, the current block and its lines. *)
Record index_parse := mkParse {
  ip_res : gmap string string; ip_cur : Z; ip_buf : list string }.

Definition flush_index (volumeNames : list string) (st : index_parse) : gmap string string :=
  if (0 <=? ip_cur st)%Z && (ip_cur st <? Z.of_nat (length volumeNames))%Z then
    match volumeNames !! Z.to_nat (ip_cur st) with
    | Some vol => <[vol := TrimRightBytes (Join (ip_buf st) nl) is_crlf]> (ip_res st)
    | None => ip_res st
    end
  else ip_res st.

Definition index_line (volumeNames : list string) (st : index_parse) (line : string) : index_parse :=
  match marker_index line with
  | Some i => mkParse (flush_index volumeNames st) i []
  | None => mkParse (ip_res st) (ip_cur st) (ip_buf st ++ [line])
  end.

Definition parseBatchedIndexOutput (out : string) (volumeNames : list string) : gmap string string :=
  flush_index volumeNames
    (foldl (index_line volumeNames) (mkParse ∅ (-1)%Z []) (Split out newline)).

Definition cli_ReadIndexFilesFromVolumes (volumeNames : list string) (relFile : string)
  : cli (res (gmap string string)) :=
  match volumeNames with
  | [] => mret (Ok ∅)
  | _ =>
      if bool_decide ("" ∈ volumeNames) then
        mret (Err (New "dockercli.ReadIndexFilesFromVolumes" InvalidInput "empty volume name" []))
      else
      let mounts := concat (imap (fun i vol => ["-v"; vol +:+ ":" +:+ index_mount i +:+ ":ro"])
                              volumeNames) in
      let script := foldr String.app "" (imap (fun i _ => index_script relFile i) volumeNames) in
      out ← docker_run (["run"; "--rm"] ++ mounts ++ [HelperImage; "sh"; "-c"; script]);
      try out id (fun out => mret (Ok (parseBatchedIndexOutput out volumeNames)))
  end.

Definition cli_WriteFileToVolume (volumeName targetPath relFile content : string) : cli (res unit) :=
  guard (invalid_volume "dockercli.WriteFileToVolume" volumeName targetPath)
 (let mountPath := normalizeVolumeMountPath targetPath in
  let full := PathJoin [mountPath; relFile] in
  let dir := Dir full in
  out ← docker_stdin (StdinText content)
    ["run"; "--rm"; "-i"; "-v"; volumeName +:+ ":" +:+ mountPath; HelperImage; "sh"; "-c";
     "mkdir -p '" +:+ ShellEscape dir +:+ "' && cat > '" +:+ ShellEscape full +:+ "'"];
  mret (out ≫= fun _ => Ok tt)).

Definition extract_stream (volumeName targetPath : string) (tar : stdin) : cli (res unit) :=
  guard (invalid_volume "dockercli.ExtractTarToVolume" volumeName targetPath)
 (let mountPath := normalizeVolumeMountPath targetPath in
  let escapedPath := ShellEscape mountPath in
  out ← docker_stdin tar
    ["run"; "--rm"; "-i"; "-v"; volumeName +:+ ":" +:+ mountPath; HelperImage; "sh"; "-c";
     "mkdir -p '" +:+ escapedPath +:+ "' && tar -xpf - -C '" +:+ escapedPath +:+ "'"];
  mret (out ≫= fun _ => Ok tt)).
(** The archive is a stream; the planner's is one it builds. *)
Definition cli_ExtractTarToVolume (volumeName targetPath : string) (tar : list TarEntry)
  : cli (res unit) := extract_stream volumeName targetPath (StdinTar tar).

(** The paths to remove, each ended by a NUL; blank ones are skipped. *)
Definition nul_paths (mountPath : string) (relPaths : list string) : string :=
  foldr (fun p s => PathJoin [mountPath; p] +:+ String "000" s) ""
    (filter (fun p => TrimSpace p <> "") relPaths).

Definition cli_RemovePathsFromVolume (volumeName targetPath : string) (relPaths : list string)
  : cli (res unit) :=
  guard (invalid_volume "dockercli.RemovePathsFromVolume" volumeName targetPath)
 (match relPaths with
  | [] => mret (Ok tt)
  | _ =>
      let mountPath := normalizeVolumeMountPath targetPath in
      out ← docker_stdin (StdinText (nul_paths mountPath relPaths))
        ["run"; "--rm"; "-i"; "-v"; volumeName +:+ ":" +:+ mountPath; HelperImage; "sh"; "-eu"; "-c";
         "xargs -0 rm -rf -- 2>/dev/null || true"];
      mret (out ≫= fun _ => Ok tt)
  end).

(** What the script printed is returned with its error; the planner looks at it
    only on success. *)
Definition cli_RunVolumeScript (volumeName targetPath script : string) (env : list string)
  : cli (res VolumeScriptResult) :=
  let op := "dockercli.RunVolumeScript" in
  guard (requireNonEmpty volumeName op "volume name required")
 (if negb (HasPrefix targetPath "/")
  then mret (Err (New op InvalidInput "target path must be absolute" []))
  else
  guard (requireNonEmpty script op "script cannot be empty")
 (let mountPath := normalizeVolumeMountPath targetPath in
  r ← docker_options no_options
        (["run"; "--rm"]
         ++ concat ((fun e => ["-e"; e]) <$> filter (fun e => TrimSpace e <> "") env)
         ++ ["-v"; volumeName +:+ ":" +:+ mountPath; HelperImage; "sh"; "-c"; script]);
  mret match r.2 with
       | Some e => Err e
       | None => Ok (mkScriptResult (r_Stdout r.1) (r_Stderr r.1))
       end)).

Definition RunInHelperImage (script : string) : cli (res string) :=
  guard (requireNonEmpty script "dockercli.RunInHelperImage" "script cannot be empty")
    (docker_run ["run"; "--rm"; HelperImage; "sh"; "-c"; script]).
End Operations.

(** Decoders for examples: every output decodes to the same values. *)
Definition example_decoders : Decoders := {|
  json_labels _ := Ok {["io.dockform.identifier" := "demo"]};
  json_strings _ := Ok ["nginx@sha256:aa"];
  json_compose _ := Ok {["web" := mkService "nginx" "" [] [] [] ∅]};
  yaml_compose _ := Ok ∅;
  json_ps_items _ := Ok [];
  json_ps_item _ := Ok (mkPsItem "" "" "" "" "" []);
  json_ps_stream _ := [];
  yaml_document _ := Ok None;
  yaml_marshal _ := Ok "services: {}";
|}.

(** A docker that prints [out] and succeeds, for examples. *)
Definition prints (out : string) (o : client_effect) : answer o :=
  match o return answer o with
  | Exec x => match x return exec_answer x with
              | Run _ | RunInDir _ _ | RunInDirWithEnv _ _ _ | RunWithStdin _ _ => Ok out
              | RunWithStdout _ => Ok tt
              | RunWithOptions _ _ => (mkResult out "" 0, None)
              end
  | WriteTemp _ _ => Ok "/tmp/dockform-labeled-project-1.yml"
  | RemoveFile _ => tt
  | ContextErr => None
  end.

(** ** The batched read gives what single reads would *)

Lemma uint_digits u ch : ch ∈ chars (DecimalString.NilEmpty.string_of_uint u) -> is_digit ch = true.
Proof.
  induction u; simpl; [by intros ?%elem_of_nil|..]; by intros [->|?]%elem_of_cons; [|auto].
Qed.

Lemma digits_value_uint u acc :
  digits_value (Z.of_nat acc) (DecimalString.NilEmpty.string_of_uint u)
  = Some (Z.of_nat (Nat.of_uint_acc u acc)).
Proof.
  revert acc. induction u; intros acc; cbn [DecimalString.NilEmpty.string_of_uint digits_value Nat.of_uint_acc];
    [done|..]; rewrite <- IHu, Nat.tail_mul_spec; simpl is_digit; cbv iota; f_equal;
    vm_compute (code _ - 48); lia.
Qed.

Lemma Itoa_nat_uint n :
  exists u, Itoa_nat n = DecimalString.NilEmpty.string_of_uint u /\ Nat.of_uint u = n
            /\ Itoa_nat n <> "".
Proof.
  unfold Itoa_nat, DecimalString.NilZero.string_of_uint.
  pose proof (DecimalNat.Unsigned.of_to n) as Hn.
  destruct (Nat.to_uint n) eqn:Hu; [exists (Decimal.D0 Decimal.Nil)|eexists; split; [reflexivity|]..];
    split_and?; done.
Qed.

Lemma Itoa_nat_digits n ch : ch ∈ chars (Itoa_nat n) -> is_digit ch = true.
Proof. destruct (Itoa_nat_uint n) as (u & -> & _). apply uint_digits. Qed.

(** What [Itoa] prints [Atoi] reads. *)
Lemma Atoi_Itoa n : (Z.of_nat n < 2 ^ 63)%Z -> Atoi (Itoa_nat n) = Some (Z.of_nat n).
Proof.
  intros Hn. pose proof (Itoa_nat_digits n) as Hd.
  destruct (Itoa_nat_uint n) as (u & Hu & Hv & Hne).
  pose proof (digits_value_uint u 0) as Hval. rewrite <- Hu in Hval.
  change (Nat.of_uint_acc u 0) with (Nat.of_uint u) in Hval. rewrite Hv in Hval.
  destruct (Itoa_nat n) as [|ch s]; [done|]. specialize (Hd ch (list_elem_of_here _ _)).
  cbn [Atoi]. rewrite (proj2 (Ascii.eqb_neq ch "-")) by (intros ->; discriminate Hd).
  rewrite (proj2 (Ascii.eqb_neq ch "+")) by (intros ->; discriminate Hd).
  unfold signed_digits. rewrite bool_decide_false by done. change 0%Z with (Z.of_nat 0). rewrite Hval.
  cbn [mbind option_bind]. rewrite Z.mul_1_l.
  rewrite (proj2 (Z.leb_le _ _)) by lia. by rewrite (proj2 (Z.ltb_lt _ _)) by lia.
Qed.

Lemma TrimSuffix_app s p : TrimSuffix (s +:+ p) p = s.
Proof. unfold TrimSuffix. by rewrite string_rev_app, strip_prefix_app, string_rev_involutive. Qed.

Lemma marker_index_marker i : (Z.of_nat i < 2 ^ 63)%Z ->
  marker_index (index_marker i) = Some (Z.of_nat i).
Proof.
  intros Hi. unfold marker_index, index_marker. rewrite HasPrefix_app.
  rewrite (proj2 (HasSuffix_true _ _)) by (by exists ("===DFIDX:" +:+ Itoa_nat i)).
  by rewrite TrimPrefix_app, TrimSuffix_app, Atoi_Itoa.
Qed.

Lemma marker_free i : free newline (index_marker i).
Proof.
  unfold index_marker. apply free_app. split; [|apply free_app; split].
  - apply (bool_decide_unpack _). vm_compute. exact I.
  - intros Hin%Itoa_nat_digits. discriminate Hin.
  - apply (bool_decide_unpack _). vm_compute. exact I.
Qed.

Section Batch.
Context (volumes : list string).

(** What the helper prints for blocks numbered from [k]: a marker line, the file,
    an end of line. *)
Fixpoint batched_output (k : nat) (contents : list string) : string :=
  match contents with
  | [] => ""
  | s :: rest => index_marker k +:+ nl +:+ s +:+ nl +:+ batched_output (S k) rest
  end.

(** No line of a file looks like a marker. *)
Definition no_marker (s : string) : Prop :=
  Forall (fun l => marker_index l = None) (Split s newline).

Lemma Split_batched k s rest : Split (batched_output k (s :: rest)) newline
  = index_marker k :: Split s newline ++ Split (batched_output (S k) rest) newline.
Proof.
  cbn [batched_output]. assert (forall x, nl +:+ x = String newline x) as Hnl by done. rewrite !Hnl.
  rewrite Split_app by apply marker_free. by rewrite Split_app_sep.
Qed.

Lemma foldl_plain st ls : Forall (fun l => marker_index l = None) ls ->
  foldl (index_line volumes) st ls = mkParse (ip_res st) (ip_cur st) (ip_buf st ++ ls).
Proof.
  intros HF. revert st. induction HF as [|l ls Hl _ IH]; intros st; simpl.
  - destruct st. by rewrite app_nil_r.
  - rewrite IH. unfold index_line. rewrite Hl. simpl. by rewrite <- (assoc_L (++)).
Qed.

(** An empty last line changes nothing. *)
Lemma flush_blank r cur buf : flush_index volumes (mkParse r cur (buf ++ [""]))
  = flush_index volumes (mkParse r cur buf).
Proof.
  assert (TrimRightBytes (Join (buf ++ [""]) nl) is_crlf = TrimRightBytes (Join buf nl) is_crlf) as Heq.
  { destruct (decide (buf = [])) as [->|Hne]; [done|].
    assert (Join (buf ++ [""]) nl = Join buf nl +:+ nl) as ->.
    { induction buf as [|x buf IH]; [done|]. destruct buf as [|y buf]; [done|].
      change ((x :: y :: buf) ++ [""]) with (x :: ((y :: buf) ++ [""])).
      rewrite !Join_cons by done. rewrite IH by done. by rewrite !string_app_assoc. }
    unfold TrimRightBytes. by rewrite string_rev_app. }
  unfold flush_index. simpl. by rewrite Heq.
Qed.

(** Blocks from [k] on, after the state [st]. *)
Lemma parse_blocks contents k st :
  k + length contents = length volumes -> (Z.of_nat (length volumes) < 2 ^ 63)%Z ->
  Forall no_marker contents ->
  flush_index volumes (foldl (index_line volumes) st (Split (batched_output k contents) newline))
  = foldl (fun m e => <[e.1 := e.2]> m) (flush_index volumes st)
      (zip (drop k volumes) ((fun s => TrimRightBytes s is_crlf) <$> contents)).
Proof.
  revert k st. induction contents as [|s contents IH]; intros k st Hk Hb HF.
  { rewrite fmap_nil, zip_with_nil_r. simpl. destruct st as [r cur buf].
    unfold index_line. simpl. apply flush_blank. }
  apply Forall_cons in HF as [Hs HF]. simpl in Hk. rewrite Split_batched. cbn [foldl].
  rewrite foldl_app. unfold index_line at 3. rewrite marker_index_marker by lia.
  rewrite (foldl_plain _ (Split s newline)) by exact Hs. rewrite IH by (done || lia).
  destruct (volumes !! k) as [v|] eqn:Hv; [|apply lookup_ge_None in Hv; lia].
  rewrite (drop_S _ _ _ Hv). simpl. f_equal.
  unfold flush_index at 1. simpl. rewrite Nat2Z.id, Hv.
  rewrite (proj2 (Z.leb_le _ _)) by lia. rewrite (proj2 (Z.ltb_lt _ _)) by lia. simpl.
  unfold nl. by rewrite Join_Split.
Qed.
End Batch.

(** One helper container reads the indexes of all volumes.  When no line of an
    index looks like a marker line, the batched read returns for every volume the
    contents, without trailing line ends, that reading it alone would return. *)
Theorem batched_read_exact volumes contents :
  length contents = length volumes -> (Z.of_nat (length volumes) < 2 ^ 63)%Z ->
  NoDup volumes -> Forall no_marker contents ->
  forall v s, (v, s) ∈ zip volumes contents ->
    parseBatchedIndexOutput (batched_output 0 contents) volumes !! v = Some (TrimRightBytes s is_crlf).
Proof.
  intros Hlen Hb Hnd HF v s Hin. unfold parseBatchedIndexOutput.
  rewrite (parse_blocks volumes contents 0) by done. rewrite drop_0.
  change (flush_index volumes _) with (∅ : gmap string string).
  apply insert_all_lookup.
  - by rewrite fst_zip by (rewrite length_fmap; lia).
  - rewrite zip_with_fmap_r. apply list_elem_of_lookup in Hin as [i Hi].
    apply list_elem_of_lookup. exists i. rewrite lookup_zip_with in Hi |- *.
    destruct (volumes !! i); [|done]. destruct (contents !! i); [|done]. by injection Hi as -> ->.
Qed.

Lemma batched_read_exact_witness :
  parseBatchedIndexOutput (batched_output 0 ["{}" +:+ nl; ""; "[1]"]) ["a"; "b"; "c"] !! "a"
  = Some (TrimRightBytes ("{}" +:+ nl) is_crlf) /\ TrimRightBytes ("{}" +:+ nl) is_crlf = "{}".
Proof.
  split; [|reflexivity].
  apply (batched_read_exact ["a"; "b"; "c"] ["{}" +:+ nl; ""; "[1]"]).
  - reflexivity.
  - reflexivity.
  - apply (bool_decide_unpack _). vm_compute. exact I.
  - repeat constructor.
  - set_solver.
Defined.

(** A file whose name is only white space is not removed. *)
Example nul_paths_skips_blank : nul_paths "/data" [" "; "a"] = "/data/a" +:+ String "000" "".
Proof. vm_compute. reflexivity. Qed.
