(* ===== verification/ClientResources.v ===== *)
(** * Volumes, networks and images of a client ([internal/dockercli/volumes.go],
    [networks.go], [info.go], [ps.go], [logs.go]) *)

From S2P Require Import Prelude GoStrings GoPath Apperr Util Manifest Filesets Effects Docker DockerExec Lru Client.
From Stdlib Require Import Ascii.

(** ** Decoded shapes *)

Record VolumeSummary := mkVolumeSummary {
  vs_Name : string; vs_Driver : string; vs_Mountpoint : string }.
Record VolumeDetails := mkVolumeDetails {
  vd_Name : string; vd_Driver : string; vd_Mountpoint : string;
  vd_Options : gmap string string; vd_Labels : gmap string string }.
Record NetworkSummary := mkNetworkSummary { ns_Name : string; ns_Driver : string }.

Record NetworkInspectIPAMConfig := mkIPAMConfig {
  ic_Subnet : string; ic_Gateway : string; ic_IPRange : string;
  ic_AuxAddresses : gmap string string }.
Record NetworkInspectIPAM := mkIPAM {
  ipam_Driver : string; ipam_Config : list NetworkInspectIPAMConfig }.
Record NetworkInspect := mkNetworkInspect {
  ni_Name : string; ni_Driver : string; ni_Options : gmap string string; ni_Internal : bool;
  ni_Attachable : bool; ni_EnableIPv6 : bool; ni_IPAM : NetworkInspectIPAM;
  ni_Containers : gmap string string }.
Definition no_network : NetworkInspect :=
  mkNetworkInspect "" "" ∅ false false false (mkIPAM "" []) ∅.

Record PsJSONRow := mkPsRow {
  psr_ID : string; psr_Names : string; psr_Image : string; psr_Status : string;
  psr_State : string; psr_Labels : string }.

(** Nil maps of a decoded volume are decoded as empty ones. *)
Class ResourceDecoders := {
  json_volume : string -> res VolumeDetails;
  json_volumes : string -> res (list VolumeDetails);
  json_network : string -> res NetworkInspect;
  json_ps_row : string -> res PsJSONRow;
}.

Section Resources.
Context `{MapRange} `{Decoders} `{ResourceDecoders}.
Context (c : Client).

(** ** Volumes *)

Definition cli_ListVolumes : cli (res (list string)) :=
  out ← docker_run (["volume"; "ls"; "--format"; "{{.Name}}"] ++ identifier_filter c);
  try out id (fun out => mret (Ok (SplitNonEmptyLines out))).

Definition cli_CreateVolume (name : string) (labels : gmap string string) : cli (res unit) :=
  run_unit (["volume"; "create"] ++ label_flags "volume labels" "--label" labels ++ [name]).

Definition cli_RemoveVolume (name : string) : cli (res unit) := run_unit ["volume"; "rm"; name].

(** Whether the daemon has the volume, whatever its labels. *)
Definition VolumeExists (name : string) : cli (res bool) :=
  if bool_decide (name = "") then mret (Ok false) else
  out ← docker_run ["volume"; "ls"; "--format"; "{{.Name}}"];
  try out id (fun out => mret (Ok (bool_decide (name ∈ SplitNonEmptyLines out)))).

Definition InspectVolume (name : string) : cli (res VolumeDetails) :=
  guard (requireNonEmpty name "dockercli.InspectVolume" "volume name required")
 (out ← docker_run ["volume"; "inspect"; "-f"; "{{json .}}"; name];
  try out id (fun out =>
  mret match json_volume out with
       | Err e => Err (wrap "dockercli.InspectVolume" Internal e "parse inspect json" [])
       | Ok d => Ok d
       end)).

(** A "name, tab, driver" line; lines without a name are skipped. *)
Definition driver_line (line : string) : option (string * option string) :=
  match SplitN line tab 2 with
  | name :: rest =>
      let name := TrimSpace name in
      if bool_decide (name = "") then None
      else Some (name, TrimSpace <$> head rest)
  | [] => None
  end.

Definition volume_summary (driverByName : gmap string string) (d : VolumeDetails)
  : option VolumeSummary :=
  let name := TrimSpace (vd_Name d) in
  if bool_decide (name = "") then None else
  let driver := TrimSpace (default "" (driverByName !! name)) in
  let driver := if bool_decide (driver = "") then TrimSpace (vd_Driver d) else driver in
  Some (mkVolumeSummary name driver (TrimSpace (vd_Mountpoint d))).

(** [sort.Slice] by name: any order of equal names is possible, so the sort is a
    merge sort here and the names of a daemon's volumes are distinct. *)
Definition vs_le (a b : VolumeSummary) : Prop := String.le (vs_Name a) (vs_Name b).
#[global] Instance vs_le_dec : RelDecision vs_le.
Proof. intros a b. unfold vs_le. apply _. Defined.

Definition VolumeSummaries : cli (res (list VolumeSummary)) :=
  out ← docker_run (["volume"; "ls"; "--format"; "{{.Name}}" +:+ String tab "{{.Driver}}"]
                      ++ identifier_filter c);
  try out id (fun out =>
  let rows := omap driver_line (SplitNonEmptyLines out) in
  match rows.*1 with
  | [] => mret (Ok [])
  | names =>
      let driverByName : gmap string string :=
        foldl (fun m r => match r.2 with Some d => <[r.1 := d]> m | None => m end) ∅ rows in
      inspectOut ← docker_run (["volume"; "inspect"] ++ names);
      try inspectOut id (fun inspectOut =>
      mret match json_volumes inspectOut with
           | Err e => Err (wrap "dockercli.VolumeSummaries" Internal e "parse inspect output" [])
           | Ok details => Ok (merge_sort vs_le (omap (volume_summary driverByName) details))
           end)
  end).

(** *** Snapshots *)

Definition tarFeatureDetect : string :=
  "if tar --version 2>/dev/null | grep -qi gnu; then TF='--numeric-owner --xattrs --acls'; else TF='--numeric-owner'; fi".

Definition StreamTarFromVolume (volumeName : string) : cli (res unit) :=
  guard (requireNonEmpty volumeName "dockercli.StreamTarFromVolume" "volume name required")
    (docker_stream ["run"; "--rm"; "-v"; volumeName +:+ ":/src:ro"; HelperImage; "sh"; "-c";
       "set -eo pipefail; " +:+ tarFeatureDetect +:+ "; tar $TF -C '/src' -cf - ."]).

Definition StreamTarZstdFromVolume (volumeName : string) : cli (res unit) :=
  guard (requireNonEmpty volumeName "dockercli.StreamTarZstdFromVolume" "volume name required")
    (docker_stream ["run"; "--rm"; "-v"; volumeName +:+ ":/src:ro"; HelperImage; "sh"; "-c";
       "set -eo pipefail; apk add --no-cache zstd >/dev/null 2>&1 || true; " +:+ tarFeatureDetect
       +:+ "; tar $TF -C '/src' -cf - . | zstd -q -z -T0 -19"]).

Definition IsVolumeEmpty (volumeName : string) : cli (res bool) :=
  guard (requireNonEmpty volumeName "dockercli.IsVolumeEmpty" "volume name required")
 (out ← docker_run ["run"; "--rm"; "-v"; volumeName +:+ ":/dst"; HelperImage; "sh"; "-c";
                    "test -z " +:+ dq +:+ "$(ls -A '/dst' 2>/dev/null)" +:+ dq
                    +:+ " && echo empty || echo notempty"];
  try out id (fun out => mret (Ok (bool_decide (TrimSpace out = "empty"))))).

Definition ClearVolume (volumeName : string) : cli (res unit) :=
  guard (requireNonEmpty volumeName "dockercli.ClearVolume" "volume name required")
    (run_unit ["run"; "--rm"; "-v"; volumeName +:+ ":/dst"; HelperImage; "sh"; "-c";
               "rm -rf '/dst'/* '/dst'/.[!.]* '/dst'/..?* 2>/dev/null || true"]).

Definition cli_ListContainersUsingVolume (volumeName : string) : cli (res (list string)) :=
  guard (requireNonEmpty volumeName "dockercli.ListContainersUsingVolume" "volume name required")
 (out ← docker_run ["ps"; "-a"; "--filter"; "volume=" +:+ volumeName; "--format"; "{{.Names}}"];
  try out id (fun out => mret (Ok (SplitNonEmptyLines out)))).

Definition ListRunningContainersUsingVolume (volumeName : string) : cli (res (list string)) :=
  guard (requireNonEmpty volumeName "dockercli.ListRunningContainersUsingVolume" "volume name required")
 (out ← docker_run ["ps"; "--filter"; "volume=" +:+ volumeName; "--format"; "{{.Names}}"];
  try out id (fun out => mret (Ok (SplitNonEmptyLines out)))).

(** One container at a time; the first failure ends it.  Blank names are skipped. *)
Definition each_container (verb : string) (names : list string) : cli (res unit) :=
  for_each_res (fun (_ : unit) n =>
    if bool_decide (TrimSpace n = "") then mret (Ok tt)
    else run_unit ["container"; verb; n]) tt names.
Definition cli_StopContainers (names : list string) : cli (res unit) := each_container "stop" names.
Definition cli_StartContainers (names : list string) : cli (res unit) := each_container "start" names.

(** [parseInt64] on 64-bit integers: there is no check for overflow. *)
Definition int64 (z : Z) : Z := ((z + 2 ^ 63) mod 2 ^ 64 - 2 ^ 63)%Z.
Fixpoint parse_digits (n : Z) (s : string) : res Z :=
  match s with
  | "" => Ok n
  | String ch s =>
      if is_digit ch then parse_digits (int64 (int64 (n * 10) + Z.of_nat (code ch - 48))) s
      else Err (New "dockercli.parseInt64" InvalidInput "invalid digit" [])
  end.
Definition parseInt64 (s : string) : res Z := parse_digits 0 (TrimSpace s).

Definition stats_script : string :=
  "set -eo pipefail; fc=$(find '/src' -xdev -type f 2>/dev/null | wc -l | tr -d '"
  +:+ String "013" (String "010" "'); ") +:+ tarFeatureDetect
  +:+ "; bytes=$(tar $TF -C '/src' -cf - . | wc -c | tr -d '"
  +:+ String "013" (String "010" "'); echo $fc $bytes").

(** The size of the tar and the number of files. *)
Definition TarStatsFromVolume (volumeName : string) : cli (res (Z * Z)) :=
  let op := "dockercli.TarStatsFromVolume" in
  guard (requireNonEmpty volumeName op "volume name required")
 (out ← docker_run ["run"; "--rm"; "-v"; volumeName +:+ ":/src:ro"; HelperImage; "sh"; "-c"; stats_script];
  try out id (fun out =>
  mret match Fields (TrimSpace out) with
       | [fc; bytes] =>
           match parseInt64 fc with
           | Err e => Err (wrap op Internal e "parse file count" [])
           | Ok fc64 =>
               match parseInt64 bytes with
               | Err e => Err (wrap op Internal e "parse bytes" [])
               | Ok bytes64 => Ok (bytes64, fc64)
               end
           end
       | _ => Err (New op External "unexpected stats output: %s" [Truncate out 200])
       end)).

Definition ExtractZstdTarToVolume (volumeName : string) (input : stdin) : cli (res unit) :=
  guard (requireNonEmpty volumeName "dockercli.ExtractZstdTarToVolume" "volume name required")
 (out ← docker_stdin input
    ["run"; "--rm"; "-i"; "-v"; volumeName +:+ ":/dst"; HelperImage; "sh"; "-c";
     "apk add --no-cache zstd >/dev/null 2>&1 || true; mkdir -p '/dst'; zstd -q -d -c | tar -xpf - -C '/dst'"];
  mret (out ≫= fun _ => Ok tt)).

(** ** Networks *)

Definition cli_ListNetworks : cli (res (list string)) :=
  out ← docker_run (["network"; "ls"; "--format"; "{{.Name}}"] ++ identifier_filter c);
  try out id (fun out => mret (Ok (SplitNonEmptyLines out))).

Definition cli_ListComposeNetworks : cli (res (list string)) :=
  out ← docker_run (["network"; "ls"; "--format"; "{{.Name}}"] ++ identifier_filter c
                      ++ ["--filter"; "label=com.docker.compose.project"]);
  try out id (fun out => mret (Ok (SplitNonEmptyLines out))).

Definition flag_if (s flag : string) : list string :=
  if bool_decide (s <> "") then [flag; s] else [].

(** The flags of the first options, if there are any. *)
Definition network_flags (opts : list NetworkCreateOpts) : list string :=
  match opts with
  | [] => []
  | o :: _ =>
      flag_if (nco_Driver o) "--driver"
      ++ label_flags "network options" "--opt" (nco_Options o)
      ++ (if nco_Internal o then ["--internal"] else [])
      ++ (if nco_Attachable o then ["--attachable"] else [])
      ++ (if nco_IPv6 o then ["--ipv6"] else [])
      ++ flag_if (nco_Subnet o) "--subnet"
      ++ flag_if (nco_Gateway o) "--gateway"
      ++ flag_if (nco_IPRange o) "--ip-range"
      ++ label_flags "aux addresses" "--aux-address" (nco_AuxAddresses o)
  end.

Definition cli_CreateNetwork (name : string) (labels : gmap string string)
    (opts : list NetworkCreateOpts) : cli (res unit) :=
  run_unit (["network"; "create"] ++ label_flags "network labels" "--label" labels
              ++ network_flags opts ++ [name]).

Definition cli_RemoveNetwork (name : string) : cli (res unit) := run_unit ["network"; "rm"; name].

Definition ns_le (a b : NetworkSummary) : Prop := String.le (ns_Name a) (ns_Name b).
#[global] Instance ns_le_dec : RelDecision ns_le.
Proof. intros a b. unfold ns_le. apply _. Defined.

Definition NetworkSummaries : cli (res (list NetworkSummary)) :=
  out ← docker_run (["network"; "ls"; "--format"; "{{.Name}}" +:+ String tab "{{.Driver}}"]
                      ++ identifier_filter c);
  try out id (fun out =>
  mret (Ok (merge_sort ns_le ((fun r => mkNetworkSummary r.1 (default "" r.2))
                                <$> omap driver_line (SplitNonEmptyLines out))))).

Definition InspectNetwork (name : string) : cli (res NetworkInspect) :=
  if bool_decide (name = "") then mret (Ok no_network) else
  out ← docker_run ["network"; "inspect"; "-f"; "{{json .}}"; name];
  try out id (fun out => mret (json_network out)).

(** ** The engine, images and containers *)

Definition ServerVersion : cli (res string) :=
  out ← docker_run ["version"; "--format"; "{{.Server.Version}}"];
  try out id (fun out => mret (Ok (TrimSpace out))).

Definition ContextHost : cli (res string) :=
  if bool_decide (cl_hostOverride c <> "") then mret (Ok (cl_hostOverride c)) else
  let name := if bool_decide (TrimSpace (cl_contextName c) = "") then "default"
              else cl_contextName c in
  out ← docker_run ["context"; "inspect"; name; "--format"; "{{json .Endpoints.docker.Host}}"];
  try out id (fun out => mret (Ok (TrimSuffix (TrimPrefix (TrimSpace out) dq) dq))).

Definition ComposeVersion : cli (res string) :=
  out ← docker_run ["compose"; "version"; "--short"];
  match out with
  | Ok out => mret (Ok (TrimSpace out))
  | Err _ =>
      out2 ← docker_run ["compose"; "version"];
      try out2 id (fun out2 => mret (Ok (TrimSpace out2)))
  end.

Definition ImageInspectRepoDigests (imageRef : string) : cli (res (list string)) :=
  if bool_decide (TrimSpace imageRef = "") then mret (Ok []) else
  out ← docker_run ["image"; "inspect"; "--format"; "{{json .RepoDigests}}"; imageRef];
  try out id (fun out => mret (json_strings (TrimSpace out))).

Definition image_map_format : string :=
  "{{.Label " +:+ dq +:+ "com.docker.compose.project" +:+ dq +:+ "}}|{{.Label "
  +:+ dq +:+ "com.docker.compose.service" +:+ dq +:+ "}}|{{.ImageID}}".

(** The lines of an output, trimmed, without the blank ones. *)
Definition trimmed_lines (out : string) : list string :=
  filter (fun l => l <> "") (TrimSpace <$> Split (TrimSpace out) newline).

Definition image_line (line : string) : option (string * string) :=
  match SplitN line "|" 3 with
  | [p; s; i] => if bool_decide (p = "") || bool_decide (s = "") then None
                 else Some (p +:+ "|" +:+ s, i)
  | _ => None
  end.

Definition ComposeContainerImageMap : cli (res (gmap string string)) :=
  out ← docker_run ["ps"; "--no-trunc"; "--filter"; "label=com.docker.compose.service"; "--format";
                    image_map_format];
  try out id (fun out =>
  mret (Ok (foldl (fun m e => <[e.1 := e.2]> m) ∅ (omap image_line (trimmed_lines out))))).

(** The digest of the first reference that has one. *)
Definition repo_digest (digests : list string) : option string :=
  head (omap (fun rd => snd <$> CutLast rd "@") digests).

Definition digest_line (line : string) : option (string * string) :=
  match Cut line "|" with
  | None => None
  | Some (id, json) =>
      match json_strings json with
      | Err _ => None
      | Ok digests => (fun d => (id, d)) <$> repo_digest digests
      end
  end.

Definition ImageRepoDigestMap (imageIDs : list string) : cli (res (gmap string string)) :=
  match imageIDs with
  | [] => mret (Ok ∅)
  | _ =>
      out ← docker_run (["image"; "inspect"; "--format"; "{{.Id}}|{{json .RepoDigests}}"] ++ imageIDs);
      try out id (fun out =>
      mret (Ok (foldl (fun m e => <[e.1 := e.2]> m) ∅ (omap digest_line (trimmed_lines out)))))
  end.

(** A failing inspect counts as absence. *)
Definition ImageExists (imageRef : string) : cli (res bool) :=
  if bool_decide (TrimSpace imageRef = "") then mret (Ok false) else
  out ← docker_run ["image"; "inspect"; imageRef];
  mret (Ok match out with Ok _ => true | Err _ => false end).

(** [bufio.Scanner] stops without a word at a line that does not fit its buffer of
    64 KiB. *)
Fixpoint scan_lines (lines : list string) : list string :=
  match lines with
  | [] => []
  | l :: lines => if (Z.of_nat (String.length l) <? 65536)%Z then l :: scan_lines lines else []
  end.

Definition PsJSON (all : bool) (filters : list string) : cli (res (list PsJSONRow)) :=
  out ← docker_run (["ps"; "--format"; "{{json .}}"] ++ (if all then ["-a"] else [])
          ++ concat ((fun f => ["--filter"; f]) <$> filter (fun f => f <> "") (TrimSpace <$> filters)));
  try out id (fun out =>
  mret (Ok (omap (fun line => match json_ps_row line with Ok r => Some r | Err _ => None end)
              (filter (fun l => l <> "") (TrimSpace <$> scan_lines (Split out newline)))))).

(** One "key=value" of a label string. *)
Definition label_pair (kv : string) : option (string * string) :=
  match Cut (TrimSpace kv) "=" with
  | Some (k, v) => Some (TrimSpace k, TrimSpace v)
  | None => None
  end.
Definition LabelValue (r : PsJSONRow) (key : string) : string :=
  default "" (snd <$> head (filter (fun e => e.1 = key) (omap label_pair (Split (psr_Labels r) ",")))).

Definition StreamContainerLogs (name : string) (tail : Z) (since : string) : cli (res unit) :=
  let name := TrimSpace name in
  if bool_decide (name = "") then mret (Ok tt) else
  docker_stream (["logs"; "--follow"]
    ++ (if (0 <? tail)%Z then ["--tail"; FormatInt tail] else [])
    ++ (if bool_decide (TrimSpace since <> "") then ["--since"; since] else [])
    ++ [name]).
End Resources.

(** ** Numbers of the volume statistics *)

Local Open Scope Z_scope.

(** The value of a string of decimal digits. *)
Fixpoint decimal (n : Z) (s : string) : Z :=
  match s with
  | "" => n
  | String ch s => decimal (n * 10 + Z.of_nat (code ch - 48)) s
  end.

Lemma digit_range ch : is_digit ch = true -> 0 <= Z.of_nat (code ch - 48) < 10.
Proof. unfold is_digit, byte_in. intros [H1%Nat.leb_le H2%Nat.leb_le]%andb_true_iff. lia. Qed.

Lemma decimal_mono n s : 0 <= n -> string_forallb is_digit s = true -> n <= decimal n s.
Proof.
  revert n. induction s as [|ch s IH]; intros n Hn Hs; simpl; [lia|].
  simpl in Hs. apply andb_true_iff in Hs as [Hc Hs]. pose proof (digit_range ch Hc).
  etrans; [|apply IH; [lia|done]]. lia.
Qed.

Lemma int64_id z : 0 <= z < 2 ^ 63 -> int64 z = z.
Proof. intros Hz. unfold int64. rewrite Z.mod_small; lia. Qed.

(** Sizes below 2^63 are read exactly.  A field of digits whose value fits in
    64 bits is read as its value; a field with anything else in it is refused. *)
Theorem parseInt64_exact s :
  (string_forallb is_digit (TrimSpace s) = true -> decimal 0 (TrimSpace s) < 2 ^ 63 ->
     parseInt64 s = Ok (decimal 0 (TrimSpace s)))
  /\ (string_forallb is_digit (TrimSpace s) = false -> exists e, parseInt64 s = Err e).
Proof.
  unfold parseInt64. generalize (TrimSpace s). clear s. intros s. split.
  - assert (forall n, 0 <= n -> string_forallb is_digit s = true -> decimal n s < 2 ^ 63 ->
              parse_digits n s = Ok (decimal n s)) as Hgen; [|by apply Hgen].
    induction s as [|ch s IH]; intros n Hn Hs Hb; simpl in *; [done|].
    apply andb_true_iff in Hs as [Hc Hs]. rewrite Hc. pose proof (digit_range ch Hc) as Hd.
    pose proof (decimal_mono (n * 10 + Z.of_nat (code ch - 48)) s ltac:(lia) Hs) as Hle.
    rewrite (int64_id (n * 10)) by lia. rewrite int64_id by lia. apply IH; [lia|done|done].
  - generalize 0. induction s as [|ch s IH]; intros n Hs; simpl in *; [done|].
    destruct (is_digit ch); [by apply IH|by eexists].
Qed.

Lemma parseInt64_exact_witness : parseInt64 " 1024 " = Ok 1024.
Proof. apply (proj1 (parseInt64_exact " 1024 ")); reflexivity. Defined.

(** Larger ones wrap around, and no digits at all count as zero. *)
Example parseInt64_wraps : parseInt64 "9223372036854775808" = Ok (- 2 ^ 63) /\ parseInt64 "" = Ok 0.
Proof. split; vm_compute; reflexivity. Qed.

(** ** Listings *)

(** Containers of no compose project are never listed. *)
Lemma ps_line_project line it : ps_line line = Some it -> ps_Project it <> "" /\ ps_Service it <> "".
Proof.
  unfold ps_line. destruct (SplitN line ";" 3) as [|a [|b [|c' [|]]]]; try done.
  destruct (_ || _) eqn:Hb; [done|]. intros [= <-]. simpl.
  apply orb_false_iff in Hb as [H1%bool_decide_eq_false H2%bool_decide_eq_false]. done.
Qed.
