(* ===== verification/ComposeDoc.v ===== *)
(** * The networks of a rendered service ([internal/dockercli/types.go])

    Compose renders the networks of a service as a list of names or as a mapping from
    names to options; both are read as the sorted names. *)

From S2P Require Import Prelude GoStrings Apperr Effects Docker.

(** [json.Unmarshal] into a string: null leaves it empty. *)
Definition as_string (v : any) : option string :=
  match v with AString s => Some s | ANull => Some "" | _ => None end.

(** [data]: the text the value was read from, for the error. *)
Definition networks_UnmarshalJSON (data : string) (v : any) : res (list string) :=
  let unexpected := Err (Plain ("compose service networks: unexpected format: " +:+ data)) in
  match v with
  | ANull => Ok []
  | AList l => match mapM as_string l with Some arr => Ok (sort_strings arr) | None => unexpected end
  | AMap m => Ok (sorted_keys m)
  | _ => unexpected
  end.

(** The two forms of the same networks are read alike, in the order of the names
    whatever the order in the document. *)
Lemma networks_forms data names (m : gmap string any) :
  NoDup names -> dom m = list_to_set names ->
  networks_UnmarshalJSON data (AList (AString <$> names)) = networks_UnmarshalJSON data (AMap m)
  /\ networks_UnmarshalJSON data (AMap m) = Ok (sort_strings names).
Proof.
  intros Hnd Hdom. cbn.
  assert (mapM as_string (AString <$> names) = Some names) as ->.
  { clear. induction names as [|n l IH]; [done|]. cbn. by rewrite IH. }
  assert (sorted_keys m = sort_strings names) as ->; [|done].
  apply sort_strings_unique, NoDup_Permutation; [apply NoDup_keys|done|].
  intros x. rewrite elem_of_keys, <- elem_of_dom, Hdom. set_solver.
Qed.

(** Anything else is an error, never an empty list. *)
Lemma networks_error data v e : networks_UnmarshalJSON data v = Err e ->
  e = Plain ("compose service networks: unexpected format: " +:+ data) /\ v <> ANull /\ forall m, v <> AMap m.
Proof. intros He. destruct v; cbn in He; repeat case_match; by simplify_eq. Qed.

Example networks_read :
  networks_UnmarshalJSON "" (AList [AString "front"; AString "back"]) = Ok ["back"; "front"]
  /\ networks_UnmarshalJSON "" (AMap (<["front" := ANull]> (<["back" := ANull]> ∅))) = Ok ["back"; "front"]
  /\ networks_UnmarshalJSON "[1]" (AList [ANumber "1"]) = Err (Plain "compose service networks: unexpected format: [1]").
Proof. split_and!; by vm_compute. Qed.
