(* ===== verification/Compose.v ===== *)
(** * Compose commands of a client ([internal/dockercli/compose.go],
    [compose_args.go])

    Before services are brought up or hashed, the effective configuration is
    rendered, the identifier label is put on every service and network, and the
    result is used in place of the user's files. *)

From S2P Require Import Prelude GoStrings GoPath Apperr Util Manifest Filesets Effects Docker DockerExec Lru Client.
From Stdlib Require Import Ascii.

Definition composeBaseArgs (files profiles envFiles : list string) (projectName : string)
  : list string :=
  ["compose"]
  ++ concat ((fun f => ["-f"; Clean f]) <$> files)
  ++ (if bool_decide (projectName <> "") then ["-p"; projectName] else [])
  ++ concat ((fun e => ["--env-file"; Clean e]) <$> envFiles)
  ++ concat ((fun p => ["--profile"; p]) <$> profiles).

Definition base_args (a : ComposeArgs) (projectName : string) : list string :=
  composeBaseArgs (ca_files a) (ca_profiles a) (ca_envFiles a) projectName.

Definition runInDirOptionalEnv (workingDir : string) (inlineEnv args : list string)
  : cli (res string) :=
  match inlineEnv with
  | [] => do_op (Exec (RunInDir workingDir args))
  | _ => do_op (Exec (RunInDirWithEnv workingDir inlineEnv args))
  end.

(** ** The labelled project *)

(** The entry as a map; anything else becomes an empty one. *)
Definition as_map (v : option any) : gmap string any :=
  match v with Some (AMap m) => m | _ => ∅ end.

Definition identifier_label : string := "io.dockform.identifier".

(** A service or network with the identifier among its labels. *)
Definition with_label (identifier : string) (v : any) : any :=
  let entry := as_map (Some v) in
  let labels := as_map (entry !! "labels") in
  AMap (<["labels" := AMap (<[identifier_label := AString identifier]> labels)]> entry).

Definition label_project (identifier : string) (doc : gmap string any) : gmap string any :=
  let services := as_map (doc !! "services") in
  let doc := <["services" := AMap (with_label identifier <$> services)]> doc in
  match doc !! "networks" with
  | Some (AMap networks) => <["networks" := AMap (with_label identifier <$> networks)]> doc
  | _ => doc
  end.

Section Compose.
Context `{MapRange} `{Decoders}.
Context (c : Client).

Definition buildLabeledProjectTemp (a : ComposeArgs) (projectName identifier : string)
  : cli (res string) :=
  let op := "dockercli.buildLabeledProjectTemp" in
  if bool_decide (identifier = "") then mret (Ok "") else
  out ← runInDirOptionalEnv (ca_root a) (ca_inline a) (base_args a projectName ++ ["config"]);
  try out id (fun out =>
  try (yaml_document out) (fun e => wrap op Internal e "parse compose yaml" []) (fun doc =>
  try (yaml_marshal (label_project identifier (default ∅ doc)))
    (fun e => wrap op Internal e "marshal labeled yaml" []) (fun b =>
  f ← do_op (WriteTemp "dockform-labeled-project-*.yml" b);
  mret match f with
       | Ok path => Ok path
       | Err (CreateFailed e) => Err (wrap op Internal e "create temp project" [])
       | Err (WriteFailed e) => Err (wrap op Internal e "write temp project" [])
       end))).

(** Run [k] on the labelled project, removed afterwards, or on the user's files
    when there is none; [on_error] decides when it could not be built. *)
Definition with_labelled {A} (a : ComposeArgs) (projectName identifier : string)
    (on_error : error -> option error) (k : list string -> cli (res A)) : cli (res A) :=
  if bool_decide (identifier = "") then k (ca_files a) else
  overlay ← buildLabeledProjectTemp a projectName identifier;
  match overlay with
  | Ok path =>
      if bool_decide (path = "") then k (ca_files a) else
      r ← k [path];
      _ ← do_op (RemoveFile path);
      mret r
  | Err e => match on_error e with Some e => mret (Err e) | None => k (ca_files a) end
  end.

(** The arguments of a command on the chosen files. *)
Definition chosen_args (a : ComposeArgs) (files : list string) (projectName : string) : list string :=
  composeBaseArgs files (ca_profiles a) (ca_envFiles a) projectName.

(** ** Operations *)

(** When the labelled project cannot be built, the user's files are used as they
    are. *)
Definition cli_ComposeUp (a : ComposeArgs) (projectName : string) : cli (res string) :=
  with_labelled a projectName (cl_identifier c) (fun _ => None) (fun files =>
    runInDirOptionalEnv (ca_root a) (ca_inline a) (chosen_args a files projectName ++ ["up"; "-d"])).

Definition ComposePull (a : ComposeArgs) (projectName : string) (services : list string)
  : cli (res string) :=
  runInDirOptionalEnv (ca_root a) (ca_inline a) (base_args a projectName ++ ["pull"] ++ services).

Definition cli_ComposeConfigServices (a : ComposeArgs) : cli (res (list string)) :=
  out ← runInDirOptionalEnv (ca_root a) (ca_inline a) (base_args a "" ++ ["config"; "--services"]);
  try out id (fun out => mret (Ok (SplitNonEmptyLines out))).

Definition cache_part (label : string) (vals : list string) : string :=
  label +:+ "=" +:+ Join vals "," +:+ ";".

Definition composeCacheKey (a : ComposeArgs) : string :=
  "dir=" +:+ Clean (ca_root a) +:+ ";" +:+ cache_part "files" (ca_files a)
  +:+ cache_part "profiles" (ca_profiles a) +:+ cache_part "envfiles" (ca_envFiles a)
  +:+ cache_part "inline" (ca_inline a).

(** The rendered configuration: from the cache, as JSON, or as YAML when the JSON
    command fails or its output does not parse. *)
Definition cli_ComposeConfigFull (cache : compose_cache) (a : ComposeArgs)
  : cli (compose_cache * res ComposeConfigDoc) :=
  let op := "dockercli.ComposeConfigFull" in
  let cacheKey := composeCacheKey a in
  let '(cache, hit) := Get cache cacheKey in
  match hit with
  | Some doc => mret (cache, Ok doc)
  | None =>
      out ← runInDirOptionalEnv (ca_root a) (ca_inline a)
              (base_args a "" ++ ["config"; "--format"; "json"]);
      match out ≫= json_compose with
      | Ok doc => mret (Set_ cache cacheKey doc, Ok doc)
      | Err _ =>
          out ← runInDirOptionalEnv (ca_root a) (ca_inline a) (base_args a "" ++ ["config"]);
          mret match out with
               | Err e => (cache, Err (wrap op Internal e "parse compose yaml" []))
               | Ok out =>
                   match yaml_compose out with
                   | Err e => (cache, Err (wrap op Internal e "parse compose yaml" []))
                   | Ok doc => (Set_ cache cacheKey doc, Ok doc)
                   end
               end
      end
  end.

Definition ComposeConfigRaw (a : ComposeArgs) : cli (res string) :=
  runInDirOptionalEnv (ca_root a) (ca_inline a) (base_args a "" ++ ["config"]).

(** An array, a single object with a name, or a stream of objects up to the first
    that does not decode. *)
Definition parse_ps (out : string) : res (list ComposePsItem) :=
  match json_ps_items out with
  | Ok items => Ok items
  | Err _ =>
      let stream :=
        match json_ps_stream out with
        | [] => Err (New "dockercli.ComposePs" External "unexpected compose ps json: %s"
                       [Truncate out 256])
        | results => Ok results
        end in
      match json_ps_item out with
      | Ok single => if bool_decide (psi_Name single <> "") then Ok [single] else stream
      | Err _ => stream
      end
  end.

Definition cli_ComposePs (a : ComposeArgs) (projectName : string) : cli (res (list ComposePsItem)) :=
  out ← runInDirOptionalEnv (ca_root a) (ca_inline a)
          (base_args a projectName ++ ["ps"; "--format"; "json"]);
  try out id (fun out => mret (parse_ps out)).

(** ** Hashes *)

Definition hash_line (line : string) : option (string * string) :=
  match Fields line with
  | service :: rest => (fun h => (service, h)) <$> last rest
  | [] => None
  end.
Definition parseComposeHashLines (out : string) : gmap string string :=
  foldl (fun m e => <[e.1 := e.2]> m) ∅ (omap hash_line (Split out newline)).

(** Everything before the first carriage return or newline. *)
Fixpoint first_line (s : string) : string :=
  match s with
  | "" => ""
  | String ch s => if is_crlf ch then "" else String ch (first_line s)
  end.

Definition cli_ComposeConfigHash (a : ComposeArgs) (projectName service identifier : string)
  : cli (res string) :=
  with_labelled a projectName identifier (fun _ => None) (fun files =>
    out ← runInDirOptionalEnv (ca_root a) (ca_inline a)
            (chosen_args a files projectName ++ ["config"; "--hash"; service]);
    try out id (fun out =>
    let trimmed := TrimSpace out in
    mret match last (Fields (first_line trimmed)) with
         | Some h => Ok h
         | None => Err (New "dockercli.ComposeConfigHash" External
                          "unexpected compose hash output: %s" [Truncate trimmed 200])
         end)).

(** The hashes of the services asked for; one that is missing is an error. *)
Definition pick_hashes (out : string) (services : list string) : res (gmap string string) :=
  let all := parseComposeHashLines out in
  result_foldl (fun m svc =>
    match all !! svc with
    | Some h => Ok (<[svc := h]> m)
    | None => Err (New "dockercli.ComposeConfigHashes" External
                     "compose config --hash '*' missing service %q in output: %s"
                     [svc; Truncate out 200])
    end) ∅ services.

(** Here a labelled project that cannot be built is an error. *)
Definition cli_ComposeConfigHashes (a : ComposeArgs) (projectName : string) (services : list string)
    (identifier : string) : cli (res (gmap string string)) :=
  with_labelled a projectName identifier Some (fun files =>
    out ← runInDirOptionalEnv (ca_root a) (ca_inline a)
            (chosen_args a files projectName ++ ["config"; "--hash"; "*"]);
    try out id (fun out => mret (pick_hashes out services))).
End Compose.

(** ** The labelled project *)

(** The value at a path of nested maps. *)
Fixpoint at_path (path : list string) (v : any) : option any :=
  match path with
  | [] => Some v
  | k :: path => match v with
                 | AMap m => m !! k ≫= at_path path
                 | _ => None
                 end
  end.

(** The places the label is put at. *)
Definition label_place (section name : string) : list string :=
  [section; name; "labels"; identifier_label].

Lemma at_path_cons k path m : at_path (k :: path) (AMap m) = m !! k ≫= at_path path.
Proof. done. Qed.

Lemma with_label_place id v : at_path ["labels"; identifier_label] (with_label id v) = Some (AString id).
Proof. unfold with_label. rewrite !at_path_cons, lookup_insert_eq. simpl. by rewrite lookup_insert_eq. Qed.

(** A path into an entry that does not lead through its identifier label. *)
Definition beside (rest : list string) : Prop :=
  rest <> [] /\ rest <> ["labels"] /\ take 2 rest <> ["labels"; identifier_label].

(** The labels of an entry are a map, as compose prints them. *)
Definition labels_are_map (v : any) : Prop :=
  forall l, at_path ["labels"] v = Some l -> exists m, l = AMap m.

Lemma with_label_keeps id v rest w : beside rest -> labels_are_map v ->
  at_path rest v = Some w -> at_path rest (with_label id v) = Some w.
Proof.
  intros (Hp0 & Hp1 & Hp2) Hl Hw. destruct rest as [|k rest]; [done|].
  destruct v as [| | | | |m]; try done.
  unfold with_label. rewrite at_path_cons in Hw |- *. cbn [as_map].
  destruct (decide (k = "labels")) as [->|Hk]; [|by rewrite lookup_insert_ne].
  destruct (m !! "labels") as [l|] eqn:Hm; [|done].
  destruct (Hl l) as [lm ->]; [by rewrite at_path_cons, Hm|].
  rewrite lookup_insert_eq. simpl in Hw. cbn [mbind option_bind as_map].
  destruct rest as [|k2 rest]; [done|]. rewrite at_path_cons.
  rewrite lookup_insert_ne; [done|]. intros <-. by apply Hp2.
Qed.

Definition labelled_section (section : string) : Prop := section = "services" \/ section = "networks".

(** The sections of the result. *)
Lemma label_project_section id doc section m : labelled_section section ->
  doc !! section = Some (AMap m) ->
  label_project id doc !! section = Some (AMap (with_label id <$> m)).
Proof.
  intros [->| ->] Hm; unfold label_project; cbv zeta.
  - rewrite Hm. simpl. destruct (_ !! "networks") as [[| | | | |n]|];
      rewrite ?(lookup_insert_ne _ "networks") by done; by rewrite lookup_insert_eq.
  - rewrite (lookup_insert_ne _ "services" "networks") by done. rewrite Hm. by rewrite lookup_insert_eq.
Qed.

Lemma label_project_other id doc k : ~ labelled_section k -> label_project id doc !! k = doc !! k.
Proof.
  unfold labelled_section. intros Hk. unfold label_project. cbv zeta.
  destruct (_ !! "networks") as [[| | | | |n]|]; rewrite ?lookup_insert_ne by naive_solver; done.
Qed.

(** The project brought up is the user's, labelled.  Every service and every
    network of the rendered document carries the identifier in the document that
    is brought up, under the same names; and everything else of it, down to the
    other labels, is as it was rendered. *)
Theorem label_project_exact id doc section m :
  labelled_section section -> doc !! section = Some (AMap m) ->
  (forall name v, m !! name = Some v -> labels_are_map v) ->
  let doc' := AMap (label_project id doc) in
  (forall name v, m !! name = Some v ->
     at_path (label_place section name) doc' = Some (AString id)
     /\ forall rest w, beside rest -> at_path rest v = Some w ->
          at_path (section :: name :: rest) doc' = Some w)
  /\ (forall name, is_Some (at_path [section; name] doc') <-> is_Some (m !! name))
  /\ (forall k, ~ labelled_section k -> label_project id doc !! k = doc !! k).
Proof.
  intros Hs Hm Hmaps doc'. pose proof (label_project_section id doc section m Hs Hm) as Hsec.
  split_and!.
  - intros name v Hv. unfold doc', label_place.
    assert (forall rest, at_path (section :: name :: rest) (AMap (label_project id doc))
              = at_path rest (with_label id v)) as Hat.
    { intros rest. rewrite at_path_cons, Hsec. simpl. by rewrite lookup_fmap, Hv. }
    split; [rewrite Hat; apply with_label_place|]. intros rest w Hb Hw. rewrite Hat.
    apply with_label_keeps; eauto.
  - intros name. unfold doc'. rewrite at_path_cons, Hsec. simpl. rewrite lookup_fmap.
    destruct (m !! name); simpl; [|done]. split; intros _; by eexists.
  - apply label_project_other.
Qed.

(** A project with a labelled service. *)
Definition example_services : gmap string any :=
  {["web" := AMap {["image" := AString "nginx"; "labels" := AMap {["tier" := AString "front"]}]}]}.

Lemma label_project_exact_witness :
  at_path ["services"; "web"; "labels"; "tier"]
    (AMap (label_project "id" {["services" := AMap example_services]})) = Some (AString "front").
Proof.
  refine (proj2 (proj1 (label_project_exact "id" {["services" := AMap example_services]} "services"
            example_services (or_introl eq_refl) _ _) "web" _ _) ["labels"; "tier"] _ _ _).
  - reflexivity.
  - intros name v Hv. unfold example_services in Hv. apply lookup_singleton_Some in Hv as [_ <-]. intros l [= <-]. by eexists.
  - reflexivity.
  - split_and!; discriminate.
  - reflexivity.
Defined.

(** ** Temporary files *)

(** Neither creates nor removes a file. *)
Definition no_temp (o : obs client_effect) : Prop :=
  match o with Obs (WriteTemp _ _) _ | Obs (RemoveFile _) _ => False | _ => True end.

(** A file that was created is removed, as the last thing, and nothing else is. *)
Definition cleans_up (t : list (obs client_effect)) : Prop :=
  Forall no_temp t
  \/ (exists t1 pattern content path t2,
       t = t1 ++ Obs (WriteTemp pattern content) (Ok path) :: t2 ++ [Obs (RemoveFile path) tt]
       /\ Forall no_temp t1 /\ Forall no_temp t2)
  \/ (exists t1 pattern content r t2,
       t = t1 ++ Obs (WriteTemp pattern content) r :: t2
       /\ (forall path, r = Ok path -> path = "") /\ Forall no_temp t1 /\ Forall no_temp t2).

Section Temp.
Context `{Decoders}.

Lemma runInDir_no_temp dir env args : always no_temp (runInDirOptionalEnv dir env args).
Proof. unfold runInDirOptionalEnv. destruct env; by always_tree_step. Qed.
#[local] Hint Resolve runInDir_no_temp : dockform.

Lemma buildLabeled_temp a project id :
  wp (buildLabeledProjectTemp a project id) (fun t r =>
    (Forall no_temp t /\ forall path, r = Ok path -> path = "")
    \/ exists t1 pattern content w, t = t1 ++ [Obs (WriteTemp pattern content) w] /\ Forall no_temp t1
         /\ match w with Ok path => r = Ok path | Err _ => exists e, r = Err e end).
Proof.
  unfold buildLabeledProjectTemp. case_bool_decide; [apply wp_ret; left; naive_solver|].
  apply wp_bind. eapply wp_mono; [apply runInDir_no_temp|]. intros t1 out Ht1. apply wp_try.
  destruct out as [out|e]; [|left; by rewrite app_nil_r]. apply wp_try.
  destruct (yaml_document out) as [doc|e]; [|left; by rewrite app_nil_r]. apply wp_try.
  destruct (yaml_marshal _) as [b|e]; [|left; by rewrite app_nil_r]. apply wp_bind.
  refine (wp_op (E := client_effect) (WriteTemp _ _) _ _). intros w. apply wp_ret. right.
  eexists t1, _, _, w. rewrite app_nil_r. split_and!; [done|done|].
  destruct w as [path|[e|e]]; eauto.
Qed.

Lemma with_labelled_cleans {A} a project id on_error (k : list string -> cli (res A)) :
  (forall files, always no_temp (k files)) ->
  traces cleans_up (with_labelled a project id on_error k).
Proof.
  intros Hk. unfold with_labelled.
  assert (forall files, traces cleans_up (k files)) as Hplain.
  { intros files. eapply wp_mono; [apply Hk|]. by left. }
  case_bool_decide; [apply Hplain|]. apply wp_bind.
  eapply wp_mono; [apply buildLabeled_temp|].
  intros t overlay [[Ht Hp]|(t1 & pat & content & w & -> & Ht1 & Hw)].
  - assert (forall A' (q : cli A'), always no_temp q -> wp q (fun t' _ => cleans_up (t ++ t'))) as Happ.
    { intros A' q Hq. eapply wp_mono; [exact Hq|]. intros t' a' Ht'. left. by apply Forall_app. }
    destruct overlay as [path|e].
    + rewrite (Hp path eq_refl). rewrite bool_decide_true by done. by apply Happ.
    + destruct (on_error e); [by apply Happ, always_ret|by apply Happ].
  - destruct overlay as [path|e].
    + destruct w as [path'|?]; [injection Hw as ->|by destruct Hw]. case_bool_decide as Hpath.
      * eapply wp_mono; [apply Hk|]. intros t2 a2 Ht2. right; right.
        exists t1, pat, content, (Ok path'), t2. rewrite <- (assoc_L (++)).
        split_and!; [done| |done|done]. by intros ? [= <-].
      * apply wp_bind. eapply wp_mono; [apply Hk|]. intros t2 r Ht2. apply wp_bind.
        refine (wp_op (E := client_effect) (RemoveFile path') _ _). intros []. apply wp_ret.
        right; left. exists t1, pat, content, path', t2. rewrite app_nil_r, <- (assoc_L (++)). done.
    + assert (forall A' (q : cli A'), always no_temp q ->
        wp q (fun t' _ => cleans_up ((t1 ++ [Obs (WriteTemp pat content) w]) ++ t'))) as Happ.
      { intros A' q Hq. eapply wp_mono; [exact Hq|]. intros t' a' Ht'. right; right.
        exists t1, pat, content, w, t'. rewrite <- (assoc_L (++)). split_and!; [done| |done|done].
        destruct w; [discriminate Hw|done]. }
      destruct (on_error e); [by apply Happ, always_ret|by apply Happ].
Qed.

(** No labelled project is left behind.  Whatever docker answers, a temporary
    file made for [compose up] or for a hash is removed when the operation ends,
    on every path, and the operation removes no other file. *)
Theorem labelled_project_removed c a project service services id :
  traces cleans_up (cli_ComposeUp c a project)
  /\ traces cleans_up (cli_ComposeConfigHash a project service id)
  /\ traces cleans_up (cli_ComposeConfigHashes a project services id).
Proof.
  split_and!; apply with_labelled_cleans; intros files; repeat (always_tree_step; try done).
Qed.
End Temp.

(** ** The key of the cache *)

Definition comma : ascii := ",".
Definition semicolon : ascii := ";".

(** What can be told apart inside a key. *)
Definition key_item (s : string) : Prop := s <> "" /\ free comma s /\ free semicolon s.
Definition key_args (a : ComposeArgs) : Prop :=
  free semicolon (Clean (ca_root a)) /\ Forall key_item (ca_files a) /\ Forall key_item (ca_profiles a)
  /\ Forall key_item (ca_envFiles a) /\ Forall key_item (ca_inline a).

Lemma Join_key_inj l l' : Forall key_item l -> Forall key_item l' -> Join l "," = Join l' "," -> l = l'.
Proof.
  intros Hl Hl' Heq.
  assert (forall k, Forall key_item k -> Forall (free comma) k) as Hfree
    by (intros k Hk; eapply Forall_impl; [exact Hk|]; by intros x (_ & ? & _)).
  assert (forall k, Forall key_item k -> Join k "," = "" -> k = []) as Hnil.
  { intros [|x [|y k]] Hk Hj; [done|..]; apply Forall_cons in Hk as [(Hx & _) _]; [by destruct Hx|].
    rewrite Join_cons in Hj by done. by destruct x. }
  destruct (decide (l = [])) as [->|Hne]; [symmetry; by apply Hnil|].
  destruct (decide (l' = [])) as [->|Hne']; [by apply Hnil|].
  rewrite <- (Split_Join l comma), <- (Split_Join l' comma) by auto. exact (f_equal (fun s => Split s comma) Heq).
Qed.

Lemma Join_free l : Forall key_item l -> free semicolon (Join l ",").
Proof.
  induction 1 as [|x l (_ & _ & Hx) Hl IH]; [apply free_nil|]. destruct l as [|y l]; [done|].
  rewrite Join_cons by done. apply free_app. split; [done|]. apply free_app. split; [|done].
  apply (bool_decide_unpack _). vm_compute. exact I.
Qed.

Lemma cache_part_split label vals rest : free semicolon label -> Forall key_item vals ->
  Split (cache_part label vals +:+ rest) semicolon
  = (label +:+ "=" +:+ Join vals ",") :: Split rest semicolon.
Proof.
  intros Hlabel Hv. unfold cache_part. rewrite !string_app_assoc.
  change (";" +:+ rest) with (String semicolon rest). rewrite <- !string_app_assoc.
  rewrite Split_app; [done|]. rewrite !free_app. split_and!; [done| |by apply Join_free].
  apply (bool_decide_unpack _). vm_compute. exact I.
Qed.

Ltac free_literal := apply (bool_decide_unpack _); vm_compute; exact I.

Lemma composeCacheKey_split a : key_args a ->
  Split (composeCacheKey a) semicolon
  = ["dir=" +:+ Clean (ca_root a); "files" +:+ "=" +:+ Join (ca_files a) ",";
     "profiles" +:+ "=" +:+ Join (ca_profiles a) ","; "envfiles" +:+ "=" +:+ Join (ca_envFiles a) ",";
     "inline" +:+ "=" +:+ Join (ca_inline a) ","; ""].
Proof.
  intros (Hd & Hf & Hp & He & Hi). unfold composeCacheKey.
  rewrite <- (string_app_nil_r (cache_part "inline" _)).
  rewrite <- (string_app_assoc "dir="). change (";" +:+ ?x) with (String semicolon x).
  rewrite Split_app by (apply free_app; split; [free_literal|done]).
  rewrite !cache_part_split by (done || free_literal). done.
Qed.

(** Equal keys mean equal arguments, when nothing contains a separator. *)
Lemma composeCacheKey_inj a b : key_args a -> key_args b -> composeCacheKey a = composeCacheKey b ->
  Clean (ca_root a) = Clean (ca_root b) /\ ca_files a = ca_files b
  /\ ca_profiles a = ca_profiles b /\ ca_envFiles a = ca_envFiles b /\ ca_inline a = ca_inline b.
Proof.
  intros Ha Hb Heq. apply (f_equal (fun s => Split s semicolon)) in Heq.
  rewrite !composeCacheKey_split in Heq by done.
  destruct Ha as (_ & Hf & Hp & He & Hi), Hb as (_ & Hf' & Hp' & He' & Hi').
  injection Heq as H1 H2 H3 H4 H5. split_and!; [exact H1|..]; apply Join_key_inj; assumption.
Qed.

(** Two stacks can share an entry: a comma inside a value reads like two values. *)
Example composeCacheKey_ambiguous :
  composeCacheKey (mkComposeArgs "/srv" ["compose.yaml"] [] [] ["A=1,B=2"])
  = composeCacheKey (mkComposeArgs "/srv" ["compose.yaml"] [] [] ["A=1"; "B=2"]).
Proof. vm_compute. reflexivity. Qed.

(** ** The cache *)

Section Cache.
Context `{Decoders}.

(** The arguments docker is given to render a project: its files, its environment files
    and its profiles, each with its option. *)
Definition render_argv (a : ComposeArgs) (format : list string) : list string :=
  "compose" :: concat ((fun f => ["-f"; Clean f]) <$> ca_files a)
  ++ concat ((fun f => ["--env-file"; Clean f]) <$> ca_envFiles a)
  ++ concat ((fun p => ["--profile"; p]) <$> ca_profiles a) ++ "config" :: format.

(** Docker rendered [doc] for the arguments [a], as JSON or as YAML. *)
Definition rendered (a : ComposeArgs) (doc : ComposeConfigDoc) (t : list (obs client_effect)) : Prop :=
  exists argv out,
    (ca_inline a = [] /\ Obs (Exec (RunInDir (ca_root a) argv)) (Ok out) ∈ t
     \/ ca_inline a <> [] /\ Obs (Exec (RunInDirWithEnv (ca_root a) (ca_inline a) argv)) (Ok out) ∈ t)
    /\ (argv = render_argv a ["--format"; "json"] /\ json_compose out = Ok doc
        \/ argv = render_argv a [] /\ yaml_compose out = Ok doc).

Lemma base_argv a : base_args a "" ++ ["config"; "--format"; "json"] = render_argv a ["--format"; "json"]
  /\ base_args a "" ++ ["config"] = render_argv a [].
Proof.
  unfold base_args, composeBaseArgs, render_argv. rewrite (bool_decide_false ("" <> "")) by (intros Hx; by apply Hx).
  rewrite <- !(assoc_L (++)). done.
Qed.

Lemma rendered_app a doc t t' : rendered a doc t \/ rendered a doc t' -> rendered a doc (t ++ t').
Proof. intros [(argv & out & Hr & Hx)|(argv & out & Hr & Hx)]; exists argv, out; (split; [set_solver|done]). Qed.

(** Every entry was rendered before, for arguments with its key. *)
Definition cache_ok (seen : list (ComposeArgs * ComposeConfigDoc)) (cache : compose_cache) : Prop :=
  wf cache /\ forall key doc, (key, doc) ∈ abs cache ->
    exists a, (a, doc) ∈ seen /\ composeCacheKey a = key.

Lemma runInDir_answer dir env args :
  wp (runInDirOptionalEnv dir env args) (fun t r => forall out, r = Ok out ->
    env = [] /\ Obs (Exec (RunInDir dir args)) (Ok out) ∈ t
    \/ env <> [] /\ Obs (Exec (RunInDirWithEnv dir env args)) (Ok out) ∈ t).
Proof.
  unfold runInDirOptionalEnv. destruct env as [|e env].
  - refine (wp_op (E := client_effect) (Exec (RunInDir dir args)) _ _).
    intros r out ->. left. split; [done|left].
  - refine (wp_op (E := client_effect) (Exec (RunInDirWithEnv dir (e :: env) args)) _ _).
    intros r out ->. right. split; [done|left].
Qed.

Lemma cache_ok_get seen cache key : cache_ok seen cache ->
  cache_ok seen (Get cache key).1
  /\ forall doc, (Get cache key).2 = Some doc -> exists a, (a, doc) ∈ seen /\ composeCacheKey a = key.
Proof.
  intros [Hw Hin]. destruct (Get_spec cache key Hw) as (Hw' & Habs & Hres & _). unfold ref_get in *.
  destruct (find_key key (abs cache)) as [v|] eqn:Hf; simpl in *.
  - apply find_key_Some in Hf. split.
    + split; [done|]. rewrite Habs. intros k d [[= -> ->]|[_ Hd]%list_elem_of_filter]%elem_of_cons; auto.
    + rewrite Hres. intros doc [= ->]. auto.
  - split; [|by rewrite Hres]. split; [done|]. by rewrite Habs.
Qed.

Lemma cache_ok_set seen cache a doc : cache_ok seen cache ->
  cache_ok ((a, doc) :: seen) (Set_ cache (composeCacheKey a) doc).
Proof.
  intros [Hw Hin]. destruct (Set_spec cache (composeCacheKey a) doc Hw) as [Hw' Habs].
  split; [done|]. rewrite Habs. unfold ref_set. intros k d Hd.
  assert ((k, d) = (composeCacheKey a, doc) \/ (k, d) ∈ abs cache) as [[= -> ->]|Hold].
  { destruct (find_key _ _); apply elem_of_cons in Hd as [Hd|Hd]; [by left| |by left|].
    - apply list_elem_of_filter in Hd as [_ ?]. by right.
    - right. apply elem_of_take in Hd as (i & Hi & _). by eapply list_elem_of_lookup_2. }
  - exists a. split; [left|done].
  - destruct (Hin k d Hold) as (a' & Ha' & Hk). exists a'. split; [by right|done].
Qed.

Lemma Get_front (cache : compose_cache) key doc rest : wf cache -> abs cache = (key, doc) :: rest -> (Get cache key).2 = Some doc.
Proof.
  intros Hw Habs. destruct (Get_spec cache key Hw) as (_ & _ & -> & _). unfold ref_get, find_key.
  rewrite Habs, filter_cons_True by done. done.
Qed.

(** One call: an entry of the cache and nothing run, or rendered now and stored; either
    way the answer is then in the cache. *)
Lemma ComposeConfigFull_step cache seen a :
  cache_ok seen cache ->
  wp (cli_ComposeConfigFull cache a) (fun t r =>
    match r.2 with
    | Ok doc =>
        (Get r.1 (composeCacheKey a)).2 = Some doc
        /\ (rendered a doc t /\ cache_ok ((a, doc) :: seen) r.1
            \/ cache_ok seen r.1 /\ exists a', (a', doc) ∈ seen /\ composeCacheKey a' = composeCacheKey a)
    | Err _ => cache_ok seen r.1
    end).
Proof.
  intros Hc. unfold cli_ComposeConfigFull. cbv zeta. destruct (base_argv a) as [-> ->].
  assert (forall c doc, cache_ok seen c -> (Get (Set_ c (composeCacheKey a) doc) (composeCacheKey a)).2 = Some doc) as Hset.
  { intros c doc [Hw _]. destruct (Set_spec c (composeCacheKey a) doc Hw) as [Hw' Habs].
    revert Habs. unfold ref_set. destruct (find_key _ _); intros Habs; by eapply Get_front. }
  destruct (cache_ok_get seen cache (composeCacheKey a) Hc) as [Hc' Hhit].
  destruct (Get_spec cache (composeCacheKey a) (proj1 Hc)) as (Hw' & Habs & Hres & _).
  destruct (Get cache (composeCacheKey a)) as [cache' [doc|]]; simpl in *.
  { apply wp_ret. split; [|right; split; [done|by apply Hhit]].
    revert Habs Hres. unfold ref_get. destruct (find_key _ _); simpl; [intros Habs [= <-]|done]. by eapply Get_front. }
  apply wp_bind. eapply wp_mono; [apply runInDir_answer|]. intros t1 out Hout. cbv beta in Hout.
  destruct (out ≫= json_compose) as [doc|e] eqn:Hjson.
  - destruct out as [out|]; [|done]. apply wp_ret. simpl. split; [by apply Hset|]. left. split; [|by apply cache_ok_set].
    eexists _, out. rewrite app_nil_r. split; [by apply Hout|by left].
  - clear Hjson. apply wp_bind. eapply wp_mono; [apply runInDir_answer|]. intros t2 out2 Hout2.
    cbv beta in Hout2. apply wp_ret. rewrite app_nil_r. destruct out2 as [out2|e2]; [|done].
    destruct (yaml_compose out2) as [doc|e2] eqn:Hy; [|done]. simpl. split; [by apply Hset|]. left.
    split; [|by apply cache_ok_set]. apply rendered_app. right. eexists _, out2. split; [by apply Hout2|by right].
Qed.

(** The calls of a run, one after the other, with their answers. *)
Fixpoint config_calls (cache : compose_cache) (as_ : list ComposeArgs)
  : cli (compose_cache * list (ComposeArgs * res ComposeConfigDoc)) :=
  match as_ with
  | [] => mret (cache, [])
  | a :: as_ =>
      '(cache, r) ← cli_ComposeConfigFull cache a;
      '(cache, rs) ← config_calls cache as_;
      mret (cache, (a, r) :: rs)
  end.

(** Every answer is what docker rendered for arguments with the same key. *)
Lemma config_calls_spec as_ cache seen : cache_ok seen cache ->
  wp (config_calls cache as_) (fun t x =>
    x.2.*1 = as_ /\ (as_ = [] -> x.1 = cache)
    /\ (forall a doc, last x.2 = Some (a, Ok doc) -> (Get x.1 (composeCacheKey a)).2 = Some doc)
    /\ exists new, cache_ok (new ++ seen) x.1 /\ (forall a doc, (a, doc) ∈ new -> a ∈ as_ /\ rendered a doc t)
       /\ forall a doc, (a, Ok doc) ∈ x.2 -> exists a', (a', doc) ∈ new ++ seen /\ composeCacheKey a' = composeCacheKey a).
Proof.
  revert cache seen. induction as_ as [|a as_ IH]; intros cache seen Hc; cbn [config_calls].
  { apply wp_ret. split_and!; [done|done|done|]. exists []. split_and!; [done|by intros ? ? ?%elem_of_nil..]. }
  apply wp_bind. eapply wp_mono; [by apply ComposeConfigFull_step|]. intros t1 [cache1 r] Hr.
  assert (exists new1, cache_ok (new1 ++ seen) cache1 /\ (forall a' doc, (a', doc) ∈ new1 -> a' = a /\ rendered a' doc t1)
    /\ (forall doc, r = Ok doc -> (Get cache1 (composeCacheKey a)).2 = Some doc
         /\ exists a', (a', doc) ∈ new1 ++ seen /\ composeCacheKey a' = composeCacheKey a)) as (new1 & Hc1 & Hn1 & Hr1).
  { destruct r as [doc|e]; cbn in Hr; [destruct Hr as [Hg [[Hren Hc1]|(Hc1 & a' & Ha')]]|].
    - exists [(a, doc)]. split_and!; [done|by intros ? ? [= -> ->]%list_elem_of_singleton|].
      intros ? [= <-]. split; [done|]. exists a. split; [left|done].
    - exists []. split_and!; [done|by intros ? ? ?%elem_of_nil|]. intros ? [= <-]. eauto.
    - exists []. split_and!; [done|by intros ? ? ?%elem_of_nil|done]. }
  clear Hr. apply wp_bind. eapply wp_mono; [by apply (IH cache1 (new1 ++ seen))|].
  intros t2 [cache2 rs] (Hfst & Hsame & Hlast & new & Hc2 & Hn & Hrs). apply wp_ret. rewrite app_nil_r. cbn in *.
  split_and!; [by rewrite Hfst|done| |].
  - intros a2 doc. destruct rs as [|x rs]; [|by rewrite last_cons_cons; apply Hlast].
    intros [= -> ->]. destruct as_; [|done].
    rewrite (Hsame eq_refl). by apply Hr1.
  - exists (new ++ new1). rewrite <- (assoc_L (++)). split_and!; [done|..].
    + intros a2 doc [[? ?]%Hn|[-> ?]%Hn1]%elem_of_app.
      * split; [by right|apply rendered_app; by right].
      * split; [left|apply rendered_app; by left].
    + intros a2 doc [[= -> <-]|Hin]%elem_of_cons; [|by apply Hrs].
      destruct (Hr1 doc eq_refl) as (_ & a' & Ha' & Hk). exists a'. split; [|done].
      apply elem_of_app. by right.
Qed.

Lemma cache_ok_new : cache_ok [] new_cache.
Proof.
  destruct (NewLRUCache_wf (K := string) (V := ComposeConfigDoc) ComposeCacheMaxSize) as [Hw Habs].
  split; [exact Hw|]. unfold new_cache. rewrite Habs. by intros k d ?%elem_of_nil.
Qed.

(** The same project asked for: the same directory, files, profiles, environment files
    and inline variables. *)
Definition same_request (a b : ComposeArgs) : Prop :=
  Clean (ca_root a) = Clean (ca_root b) /\ ca_files a = ca_files b
  /\ ca_profiles a = ca_profiles b /\ ca_envFiles a = ca_envFiles b /\ ca_inline a = ca_inline b.

(** C36: The cache of rendered configurations does not mix projects up, as long as no
    directory, file, profile, environment file or inline variable is empty or contains a
    comma or a semicolon.  In any sequence of calls on a new client, a configuration that
    is returned was rendered by docker in that sequence, as JSON or as YAML, for the same
    directory, files, profiles, environment files and inline variables; and asking at once
    for the last one again runs nothing and gives the same.  With a comma or semicolon in
    a part this fails: different projects can share an entry
    ([composeCacheKey_ambiguous], compose.go:215). *)
Theorem ComposeConfigFull_cached as_ :
  Forall key_args as_ ->
  wp (config_calls new_cache as_) (fun t x =>
    x.2.*1 = as_
    /\ (forall a doc, (a, Ok doc) ∈ x.2 -> exists a', a' ∈ as_ /\ same_request a' a /\ rendered a' doc t)
    /\ (forall a doc, last x.2 = Some (a, Ok doc) ->
         exists cache', cli_ComposeConfigFull x.1 a = mret (cache', Ok doc))).
Proof.
  intros Has. eapply wp_mono; [apply (config_calls_spec as_), cache_ok_new|].
  intros t [cache rs] (Hfst & _ & Hlast & new & _ & Hn & Hrs). cbn in *. rewrite app_nil_r in Hrs.
  rewrite Forall_forall in Has. split_and!; [done|..].
  - intros a doc Hin. destruct (Hrs a doc Hin) as (a' & [Ha' Hren]%Hn & Hk). exists a'. split_and!; [done| |done].
    apply composeCacheKey_inj; [by apply Has| |done]. apply Has. rewrite <- Hfst. by apply (list_elem_of_fmap_2 fst) in Hin.
  - intros a doc Hl. specialize (Hlast a doc Hl). unfold cli_ComposeConfigFull. cbv zeta.
    destruct (Get cache (composeCacheKey a)) as [cache' hit]. cbn in Hlast. subst hit. by exists cache'.
Qed.
End Cache.

Definition example_args : ComposeArgs := mkComposeArgs "/srv/web" ["compose.yaml"] [] [] [].

Definition web_dev : ComposeArgs := mkComposeArgs "/srv/web" ["compose.yaml"] ["dev"] [] ["TAG=2"].

#[global] Instance key_item_dec x : Decision (key_item x).
Proof. unfold key_item. apply _. Defined.
#[global] Instance key_args_dec a : Decision (key_args a).
Proof. unfold key_args. apply _. Defined.

(** Three calls, two of them for the same: docker runs twice. *)
Lemma ComposeConfigFull_cached_witness :
  let run := run_tree (prints "{}") (@config_calls example_decoders new_cache [example_args; web_dev; example_args]) in
  length run.1 = 2 /\ length run.2.2 = 3
  /\ forall a doc, (a, Ok doc) ∈ run.2.2 ->
       exists a', a' ∈ [example_args; web_dev; example_args] /\ same_request a' a /\ @rendered example_decoders a' doc run.1.
Proof.
  split; [by vm_compute|]. split; [by vm_compute|].
  refine (proj1 (proj2 (@ComposeConfigFull_cached example_decoders [example_args; web_dev; example_args] _ _ _
    (run_tree_exec (prints "{}") _)))).
  apply (bool_decide_unpack _). vm_compute. exact I.
Defined.
