(* ===== verification/ClientHandler.v ===== *)
(** * The client as the planner's docker ([internal/planner/interfaces.go] implemented
    by [dockercli.Client], [internal/dockercli/factory.go])

    The planner is written against the [DockerClient] interface; here each of its
    calls is answered by the client, so that what the planner does can be said in
    docker commands. *)

From S2P Require Import Prelude GoStrings GoPath Apperr Util Manifest Filesets Effects Docker DockerExec Lru Client ClientResources Compose.

(** ** The factory *)

(** [DefaultClientFactory]: clients by context and identifier.  [GetClient] looks
    twice, with the read and with the write lock; both looks see the same map
    unless another goroutine added the client, which it then returns. *)
Definition cacheKey (contextName identifier : string) : string := contextName +:+ ":" +:+ identifier.

Definition factory_get (clients : gmap string Client) (key : string) (fresh : Client)
  : gmap string Client * Client :=
  match clients !! key with
  | Some client => (clients, client)
  | None => (<[key := fresh]> clients, fresh)
  end.

Definition GetClient (clients : gmap string Client) (contextName identifier : string)
  : gmap string Client * Client :=
  factory_get clients (cacheKey contextName identifier)
    (WithIdentifier (NewClient contextName) identifier).

Definition getOrCreateClientWithHost (clients : gmap string Client)
    (contextName identifier host : string) : gmap string Client * Client :=
  factory_get clients (cacheKey contextName identifier)
    (WithIdentifier (NewWithHost contextName host) identifier).

Definition GetClientForContext (clients : gmap string Client) (contextName : string) (cfg : Config)
  : gmap string Client * Client :=
  match cfg_Contexts cfg !! contextName with
  | None => GetClient clients contextName (cfg_Identifier cfg)
  | Some ctxCfg =>
      if bool_decide (ctx_Host ctxCfg <> "")
      then getOrCreateClientWithHost clients contextName (cfg_Identifier cfg) (ctx_Host ctxCfg)
      else GetClient clients contextName (cfg_Identifier cfg)
  end.

(** The client of a context as a new factory makes it. *)
Definition client_of (cfg : Config) (contextName : string) : Client :=
  (GetClientForContext ∅ contextName cfg).2.

Lemma client_of_identifier cfg contextName : cl_identifier (client_of cfg contextName) = cfg_Identifier cfg.
Proof.
  unfold client_of, GetClientForContext. destruct (cfg_Contexts cfg !! contextName); [|done].
  by case_bool_decide.
Qed.

Lemma client_of_context cfg contextName cc : cfg_Contexts cfg !! contextName = Some cc ->
  client_of cfg contextName
  = WithIdentifier (if bool_decide (ctx_Host cc <> "") then NewWithHost contextName (ctx_Host cc)
                    else NewClient contextName) (cfg_Identifier cfg).
Proof. intros Hcc. unfold client_of, GetClientForContext. rewrite Hcc. by case_bool_decide. Qed.

(** The environment variable that names the daemon of a client. *)
Definition daemon_variable (c : Client) : list string :=
  if bool_decide (cl_hostOverride c <> "") then ["DOCKER_HOST=" +:+ cl_hostOverride c]
  else if bool_decide (cl_contextName c <> "") then ["DOCKER_CONTEXT=" +:+ cl_contextName c] else [].

(** A factory only ever used with [cfg]. *)
Definition factory_of (cfg : Config) (clients : gmap string Client) : Prop :=
  forall contextName client, clients !! cacheKey contextName (cfg_Identifier cfg) = Some client ->
    client = client_of cfg contextName.

Lemma cacheKey_inj a b id : cacheKey a id = cacheKey b id -> a = b.
Proof.
  unfold cacheKey. intros Heq. apply (f_equal chars) in Heq. rewrite !chars_app in Heq.
  apply app_inv_tail in Heq. apply (f_equal String.string_of_list_ascii) in Heq.
  unfold chars in Heq. by rewrite !String.string_of_list_ascii_of_string in Heq.
Qed.

Lemma GetClientForContext_fresh cfg clients contextName :
  GetClientForContext clients contextName cfg
  = factory_get clients (cacheKey contextName (cfg_Identifier cfg)) (client_of cfg contextName).
Proof.
  unfold client_of, GetClientForContext, GetClient, getOrCreateClientWithHost.
  destruct (cfg_Contexts cfg !! contextName); [case_bool_decide|]; done.
Qed.

Lemma requests_factory_of cfg requests :
  factory_of cfg (foldl (fun m ctx => (GetClientForContext m ctx cfg).1) ∅ requests).
Proof.
  induction requests as [|ctx l IH] using rev_ind;
    [by intros n c Hc; simpl in Hc; rewrite lookup_empty in Hc|].
  rewrite foldl_app. cbn [foldl]. set (m := foldl _ _ l) in *.
  rewrite GetClientForContext_fresh. unfold factory_get.
  destruct (m !! cacheKey ctx (cfg_Identifier cfg)) as [c|]; [exact IH|]. cbn [fst].
  intros n c [[Hk <-]|[_ Hc]]%lookup_insert_Some; [|by apply IH].
  by apply cacheKey_inj in Hk as ->.
Qed.

(** One client per context.  A factory used with one configuration returns for
    a context, however often and in whatever order contexts are asked for, the
    same client: the one with the configuration's identifier whose commands go to
    the host the configuration gives the context, and otherwise to the docker
    context of that name. *)
Theorem factory_one_client cfg requests contextName :
  let clients := foldl (fun m ctx => (GetClientForContext m ctx cfg).1) ∅ requests in
  let c := (GetClientForContext clients contextName cfg).2 in
  c = client_of cfg contextName
  /\ cl_identifier c = cfg_Identifier cfg
  /\ (forall cc, cfg_Contexts cfg !! contextName = Some cc -> ctx_Host cc <> "" ->
        daemon_variable c = ["DOCKER_HOST=" +:+ ctx_Host cc])
  /\ (forall cc, cfg_Contexts cfg !! contextName = Some cc -> ctx_Host cc = "" -> contextName <> "" ->
        daemon_variable c = ["DOCKER_CONTEXT=" +:+ contextName]).
Proof.
  intros clients. pose proof (requests_factory_of cfg requests) as Hf. fold clients in Hf.
  assert ((GetClientForContext clients contextName cfg).2 = client_of cfg contextName) as Heq.
  { rewrite GetClientForContext_fresh. unfold factory_get.
    destruct (clients !! _) as [c|] eqn:Hc; [by apply Hf|done]. }
  rewrite Heq. split; [done|]. split; [apply client_of_identifier|].
  unfold daemon_variable. split; intros cc Hcc Hh; [|intros Hn]; rewrite (client_of_context _ _ _ Hcc).
  - rewrite (bool_decide_true (ctx_Host cc <> "")) by done. simpl. by rewrite bool_decide_true.
  - rewrite (bool_decide_false (ctx_Host cc <> "")) by naive_solver. simpl. by rewrite bool_decide_true.
Qed.

Definition two_contexts : Config :=
  mkConfig "id" None (mkDiscovery [] "" "" "")
    (<["far" := mkContext "ssh://far" ∅ ∅]> {["near" := mkContext "" ∅ ∅]}) ∅ ∅ "/base" false ∅ ∅.

Lemma factory_one_client_witness :
  let client n := (GetClientForContext
    (foldl (fun m ctx => (GetClientForContext m ctx two_contexts).1) ∅ ["near"; "far"; "near"])
    n two_contexts).2 in
  daemon_variable (client "far") = ["DOCKER_HOST=ssh://far"]
  /\ daemon_variable (client "near") = ["DOCKER_CONTEXT=near"].
Proof.
  split.
  - by apply (factory_one_client two_contexts ["near"; "far"; "near"] "far")
      with (cc := mkContext "ssh://far" ∅ ∅).
  - by apply (factory_one_client two_contexts ["near"; "far"; "near"] "near")
      with (cc := mkContext "" ∅ ∅).
Defined.

(** ** Calls answered by commands *)

(** An operation of the client of a context, or of the host. *)
Inductive system_op : Type :=
| OnContext (d : DockerClient) (o : client_op)
| Host (c : call).
Canonical Structure system : Effect := mkEffect system_op (fun o => match o with
  | OnContext _ o => answer o
  | Host c => resp c
  end).

(** The operations of a client, on its context. *)
Fixpoint on_context {A} (d : DockerClient) (p : cli A) : tree system A :=
  match p with
  | Ret a => Ret a
  | Vis o k => Vis (OnContext d o) (fun x => on_context d (k x))
  end.

Section Handler.
Context `{MapRange} `{Decoders}.

(** Pair the result with the cache, which most operations leave alone. *)
Definition keeping {A} (cache : compose_cache) (p : cli A) : cli (compose_cache * A) :=
  a ← p; mret (cache, a).

(** The method of [Client] behind each call; the host's calls are not docker's. *)
Definition client_call (c : Client) (cache : compose_cache) (q : call)
  : option (cli (compose_cache * resp q)) :=
  match q return option (cli (compose_cache * resp q)) with
  | ListVolumes => Some (keeping cache (cli_ListVolumes c))
  | CreateVolume name labels => Some (keeping cache (cli_CreateVolume name labels))
  | RemoveVolume name => Some (keeping cache (cli_RemoveVolume name))
  | ReadFileFromVolume v p r => Some (keeping cache (cli_ReadFileFromVolume v p r))
  | ReadIndexFilesFromVolumes vs r => Some (keeping cache (cli_ReadIndexFilesFromVolumes vs r))
  | WriteFileToVolume v p r s => Some (keeping cache (cli_WriteFileToVolume v p r s))
  | ExtractTarToVolume v p tar => Some (keeping cache (cli_ExtractTarToVolume v p tar))
  | RemovePathsFromVolume v p rs => Some (keeping cache (cli_RemovePathsFromVolume v p rs))
  | RunVolumeScript v p s env => Some (keeping cache (cli_RunVolumeScript v p s env))
  | ListNetworks => Some (keeping cache (cli_ListNetworks c))
  | ListComposeNetworks => Some (keeping cache (cli_ListComposeNetworks c))
  | CreateNetwork name labels opts => Some (keeping cache (cli_CreateNetwork name labels opts))
  | RemoveNetwork name => Some (keeping cache (cli_RemoveNetwork name))
  | ListComposeContainersAll => Some (keeping cache (cli_ListComposeContainersAll c))
  | ListContainersUsingVolume v => Some (keeping cache (cli_ListContainersUsingVolume v))
  | RestartContainer name => Some (keeping cache (cli_RestartContainer name))
  | StopContainers names => Some (keeping cache (cli_StopContainers names))
  | StartContainers names => Some (keeping cache (cli_StartContainers names))
  | RemoveContainer name force => Some (keeping cache (cli_RemoveContainer name force))
  | UpdateContainerLabels name labels => Some (keeping cache (cli_UpdateContainerLabels name labels))
  | InspectContainerLabels name keys => Some (keeping cache (cli_InspectContainerLabels name keys))
  | InspectMultipleContainerLabels names keys =>
      Some (keeping cache (cli_InspectMultipleContainerLabels names keys))
  | ComposeConfigFull a => Some (cli_ComposeConfigFull cache a)
  | ComposeConfigServices a => Some (keeping cache (cli_ComposeConfigServices a))
  | ComposeConfigHash a project service identifier =>
      Some (keeping cache (cli_ComposeConfigHash a project service identifier))
  | ComposeConfigHashes a project services identifier =>
      Some (keeping cache (cli_ComposeConfigHashes a project services identifier))
  | ComposePs a project => Some (keeping cache (cli_ComposePs a project))
  | ComposeUp a project => Some (keeping cache (cli_ComposeUp c a project))
  | DecryptAndParse _ _ | WalkLocal _ | ReadLocal _ | CtxErr => None
  end.

(** The caches of the clients in use. *)
Notation caches := (gmap DockerClient compose_cache).
Context (clients : DockerClient -> Client).

Definition cache_of (st : caches) (d : DockerClient) : compose_cache := default new_cache (st !! d).

Definition handle (st : caches) (e : daemon) : tree system (caches * answer e) :=
  match e return tree system (caches * answer e) with
  | On d q =>
      match client_call (clients d) (cache_of st d) q with
      | Some p => r ← on_context d p; mret (<[d := r.1]> st, r.2)
      | None => r ← do_op (Host q); mret (st, r)
      end
  end.

(** A planner function, run against the clients. *)
Definition in_commands {A} (p : prog A) : tree system (caches * A) := interp handle p ∅.
End Handler.

(** ** What the commands are *)

Definition op_args (o : client_op) : list string :=
  match o with Exec x => exec_args x | _ => [] end.

(** What a command removes from the daemon. *)
Inductive removed := RVolume (name : string) | RNetwork (name : string) | RContainer (name : string).

Definition removal (args : list string) : option removed :=
  let name := default "" (last args) in
  if bool_decide (take 2 args = ["volume"; "rm"]) then Some (RVolume name)
  else if bool_decide (take 2 args = ["network"; "rm"]) then Some (RNetwork name)
  else if bool_decide (take 2 args = ["container"; "rm"]) then Some (RContainer name)
  else None.

Definition call_removal (q : call) : option removed :=
  match q with
  | RemoveVolume name => Some (RVolume name)
  | RemoveNetwork name => Some (RNetwork name)
  | RemoveContainer name _ => Some (RContainer name)
  | _ => None
  end.

(** A compose command line for any files, profiles, environment files and project. *)
Definition compose_line (tail args : list string) : Prop :=
  exists files profiles envFiles project,
    args = composeBaseArgs files profiles envFiles project ++ tail.

(** Commands that leave the daemon and the volumes as they are: listings,
    inspections, renderings of the configuration, and [cat] in a helper
    container. *)
Inductive reading : list string -> Prop :=
| reading_volumes rest : reading ("volume" :: "ls" :: rest)
| reading_networks rest : reading ("network" :: "ls" :: rest)
| reading_containers rest : reading ("ps" :: rest)
| reading_inspect rest : reading ("inspect" :: rest)
| reading_config tail args :
    (tail = [] \/ tail = ["--services"] \/ tail = ["--format"; "json"] \/ exists s, tail = ["--hash"; s]) ->
    compose_line ("config" :: tail) args -> reading args
| reading_ps args : compose_line ["ps"; "--format"; "json"] args -> reading args
| reading_file mount path :
    reading ["run"; "--rm"; "-v"; mount; HelperImage; "sh"; "-c";
             "cat '" +:+ ShellEscape path +:+ "' 2>/dev/null || true"]
| reading_indexes volumes rel :
    reading (["run"; "--rm"]
      ++ concat (imap (fun i vol => ["-v"; vol +:+ ":" +:+ index_mount i +:+ ":ro"]) volumes)
      ++ [HelperImage; "sh"; "-c"; foldr String.app "" (imap (fun i _ => index_script rel i) volumes)]).

(** An operation of a client that reads: a reading command, or a temporary file. *)
Definition reading_op (o : client_op) : Prop :=
  match o with Exec x => reading (exec_args x) | _ => True end.

Section Commands.
Context `{MapRange} `{Decoders}.

Ltac unfold_calls :=
  unfold keeping, cli_ListVolumes, cli_CreateVolume, cli_RemoveVolume, cli_ReadFileFromVolume,
    cli_ReadIndexFilesFromVolumes, cli_WriteFileToVolume, cli_ExtractTarToVolume, extract_stream,
    cli_RemovePathsFromVolume, cli_RunVolumeScript, cli_ListNetworks, cli_ListComposeNetworks,
    cli_CreateNetwork, cli_RemoveNetwork, cli_ListComposeContainersAll,
    cli_ListContainersUsingVolume, cli_RestartContainer, cli_StopContainers, cli_StartContainers,
    each_container, cli_RemoveContainer, cli_UpdateContainerLabels, cli_InspectContainerLabels,
    cli_InspectMultipleContainerLabels, cli_ComposeConfigFull, cli_ComposeConfigServices,
    cli_ComposeConfigHash, cli_ComposeConfigHashes, cli_ComposePs, cli_ComposeUp, with_labelled,
    buildLabeledProjectTemp, runInDirOptionalEnv, guard, run_unit, docker_run, docker_stdin,
    docker_options.

Ltac reading_compose :=
  solve [ eapply reading_ps; repeat eexists; reflexivity
        | eapply (reading_config []); [by left|repeat eexists; reflexivity]
        | eapply (reading_config ["--services"]); [by right; left|repeat eexists; reflexivity]
        | eapply (reading_config ["--format"; "json"]);
            [by right; right; left|repeat eexists; reflexivity]
        | eapply (reading_config ["--hash"; _]);
            [right; right; right; by eexists|repeat eexists; reflexivity] ].

(** A call removes what it says and nothing else. *)
Lemma client_call_removes c cache q p : client_call c cache q = Some p ->
  always (fun o => let '(Obs e _) := o in
            removal (op_args e) = None \/ removal (op_args e) = call_removal q) p.
Proof.
  intros Hq. destruct q; try discriminate Hq; injection Hq as <-; unfold_calls;
    repeat (always_tree_step; try (left; reflexivity); try (right; reflexivity)).
  right. by destruct force.
Qed.

(** A call that only looks is answered by commands that only read. *)
Lemma client_call_reads c cache q p : read_only q -> client_call c cache q = Some p ->
  always (fun o => let '(Obs e _) := o in reading_op e) p.
Proof.
  intros Hr Hq. destruct q; try done; injection Hq as <-; clear Hr; unfold_calls;
    repeat (always_tree_step; try exact I; try (by constructor)); reading_compose.
Qed.

(** What a client with an identifier asks for when it lists. *)
Definition labelled (id : string) : list string :=
  ["--filter"; "label=io.dockform.identifier=" +:+ id].
Definition volume_listing (id : string) : client_op :=
  Exec (Run (["volume"; "ls"; "--format"; "{{.Name}}"] ++ labelled id)).
Definition network_listing (id : string) : client_op :=
  Exec (Run (["network"; "ls"; "--format"; "{{.Name}}"] ++ labelled id)).
Definition container_listing (id : string) : client_op :=
  Exec (Run (["ps"; "-a"; "--format"; ps_format] ++ labelled id)).

Lemma identifier_filter_labelled c : cl_identifier c <> "" ->
  identifier_filter c = labelled (cl_identifier c).
Proof. intros Hid. unfold identifier_filter. by rewrite bool_decide_true. Qed.

Lemma listing_answer {A} (args : list string) (f : string -> A) cache :
  wp (keeping cache (out ← docker_run args; try out id (fun out => mret (Ok (f out)))))
    (fun t r => forall l, r.2 = Ok l -> exists out, Obs (Exec (Run args)) (Ok out) ∈ t /\ l = f out).
Proof.
  unfold keeping, docker_run. apply wp_bind, wp_bind.
  refine (wp_op (E := client_effect) (Exec (Run args)) _ _). intros [out|e].
  - apply wp_ret, wp_ret. intros l [= <-]. exists out. split; [left|done].
  - by apply wp_ret, wp_ret.
Qed.
End Commands.

(** ** From the calls of a program to the commands *)

Definition lift_obs (d : DockerClient) (o : obs client_effect) : obs system :=
  let '(Obs e r) := o in Obs (OnContext d e) r.

Lemma exec_on_context {A} d (p : cli A) t a :
  exec (on_context d p) t a <-> exists u, exec p u a /\ t = lift_obs d <$> u.
Proof.
  revert t. induction p as [a0|o k IH]; intros t; simpl.
  - split; [intros [-> ->]; by exists []|]. by intros (u & [-> ->] & ->).
  - split.
    + intros (r & t' & -> & (u & Hu & ->)%IH). exists (Obs o r :: u). split; [by exists r, u|done].
    + intros (u & (r & u' & -> & Hk) & ->). exists r, (lift_obs d <$> u'). split; [done|].
      apply IH. eauto.
Qed.

Section Lift.
Context `{MapRange} `{Decoders} (clients : DockerClient -> Client).

(** What the handler issues for a call. *)
Lemma handle_exec st d q t st' (r : resp q) :
  exec (handle clients st (On d q)) t (st', r) ->
  (exists p u cache, client_call (clients d) (cache_of st d) q = Some p
     /\ exec p u (cache, r) /\ t = lift_obs d <$> u)
  \/ client_call (clients d) (cache_of st d) q = None /\ t = [Obs (Host q) r].
Proof.
  cbn [handle]. destruct (client_call (clients d) (cache_of st d) q) as [p|] eqn:Hc.
  - intros (t1 & t2 & [cache r'] & -> & (u & Hu & ->)%exec_on_context & [-> Heq])%exec_bind.
    injection Heq as _ ->. left. exists p, u, cache. split; [done|].
    split; [exact Hu|]. apply app_nil_r.
  - intros (t1 & t2 & r' & -> & (r0 & t0 & -> & [-> ->]) & [-> Heq])%exec_bind.
    injection Heq as _ ->. by right.
Qed.

(** A removal among the commands was asked for by a call, on the same context. *)
Lemma handled_removal st u t st' d o r x :
  handled (handle clients) st u t st' -> Obs (OnContext d o) r ∈ t ->
  removal (op_args o) = Some x ->
  exists q (rq : resp q), Ev d q rq ∈ u /\ call_removal q = Some x.
Proof.
  intros Hh Hin Hx.
  destruct (handled_issued _ _ _ _ _ _ Hh Hin) as (s1 & [d' q] & t1 & s2 & rq & Hu & He & Ho).
  apply handle_exec in He as [(p & v & cache & Hc & Hp & ->)|[_ ->]]; [|set_solver].
  apply list_elem_of_fmap in Ho as ([o' r'] & Heq & Ho).
  assert (d' = d /\ o' = o) as [-> ->].
  { pose proof (f_equal (fun z : obs system => match z with
      | Obs (OnContext a b) _ => Some (a, b) | _ => None end) Heq) as Hz. simpl in Hz. by injection Hz. }
  exists q, rq. split; [exact Hu|].
  pose proof (client_call_removes _ _ _ _ Hc _ _ Hp) as HF. rewrite Forall_forall in HF.
  destruct (HF _ Ho); congruence.
Qed.

(** The answer to a listing was read from the output of its command. *)
Lemma handled_listing {A} st u t st' d q args (f : string -> A) (r : resp q) (l : A)
    (as_list : resp q -> res A) :
  handled (handle clients) st u t st' -> Ev d q r ∈ u -> as_list r = Ok l ->
  (forall cache, exists p, client_call (clients d) cache q = Some p
     /\ wp p (fun t r => forall l, as_list r.2 = Ok l ->
          exists out, Obs (Exec (Run args)) (Ok out) ∈ t /\ l = f out)) ->
  exists out, Obs (OnContext d (Exec (Run args))) (Ok out) ∈ t /\ l = f out.
Proof.
  intros Hh Hin Hl Hq.
  destruct (handled_answered _ _ _ _ _ _ _ Hh Hin) as (s1 & t1 & s2 & He & Hsub).
  destruct (Hq (cache_of s1 d)) as (p & Hp & Hwp).
  apply handle_exec in He as [(p' & v & cache & Hc & Hp' & ->)|[Hc _]]; [|congruence].
  assert (p' = p) as -> by congruence.
  destruct (Hwp _ _ Hp' l Hl) as (out & Hout & ->). exists out. split; [|done].
  apply Hsub, list_elem_of_fmap. by exists (Obs (Exec (Run args)) (Ok out)).
Qed.
End Lift.
