(* ===== verification/FactoryLock.v ===== *)
(** * The client factory and its lock ([internal/dockercli/factory.go])

    [ClientHandler] treats a look into the factory as one step.  Here the goroutines of
    a run ask for their clients at the same time, line by line: the map and the clients
    are shared, the map is read under the read lock, and looked at again under the write
    lock before a client is added.  However the goroutines are interleaved, each gets
    the client of its context, the same object as every other that asks for that
    context, and all of them get one. *)

From S2P Require Import Prelude GoStrings GoPath Apperr Util Manifest Filesets Effects Docker DockerExec Lru Client ClientResources Compose ClientHandler.

(** ** Goroutines *)

(** What a goroutine asks for: the key, and the client it would make. *)
Record request := mkRequest { rq_key : string; rq_new : Client }.

(** Where it is; a client is known by its place in the heap. *)
Inductive line :=
| Enter                    (* before [f.mu.RLock()] *)
| ReadLocked               (* before the first look *)
| ReadFound (c : nat)      (* before [f.mu.RUnlock()], with the client *)
| ReadMissed               (* before [f.mu.RUnlock()], without *)
| BeforeLock               (* before [f.mu.Lock()] *)
| WriteLocked              (* before the second look *)
| WriteMissed              (* before the client is made and stored *)
| WriteDone (c : nat)      (* before the deferred [f.mu.Unlock()] *)
| Returned (c : nat).

(** The fields of the factory, its lock, and the clients that were made. *)
Record shared := mkShared {
  sh_clients : gmap string nat; sh_heap : list Client; sh_readers : nat; sh_writer : bool }.

(** The next line of a goroutine; [None] when it waits for the lock, or has returned. *)
Definition line_step (rq : request) (pc : line) (sh : shared) : option (shared * line) :=
  let '(mkShared clients heap readers writer) := sh in
  match pc with
  | Enter => if writer then None else Some (mkShared clients heap (S readers) writer, ReadLocked)
  | ReadLocked => Some (sh, match clients !! rq_key rq with Some c => ReadFound c | None => ReadMissed end)
  | ReadFound c => Some (mkShared clients heap (readers - 1) writer, Returned c)
  | ReadMissed => Some (mkShared clients heap (readers - 1) writer, BeforeLock)
  | BeforeLock => if writer || (0 <? readers) then None else Some (mkShared clients heap readers true, WriteLocked)
  | WriteLocked => Some (sh, match clients !! rq_key rq with Some c => WriteDone c | None => WriteMissed end)
  | WriteMissed =>
      let client := length heap in
      Some (mkShared (<[rq_key rq := client]> clients) (heap ++ [rq_new rq]) readers writer, WriteDone client)
  | WriteDone c => Some (mkShared clients heap readers false, Returned c)
  | Returned _ => None
  end.

Notation goroutine := (request * line)%type.
Notation config := (shared * list goroutine)%type.

Inductive interleaved : config -> config -> Prop :=
| goroutine_runs sh ts i rq pc sh' pc' :
    ts !! i = Some (rq, pc) -> line_step rq pc sh = Some (sh', pc') ->
    interleaved (sh, ts) (sh', <[i := (rq, pc')]> ts).

(** A new factory, and the goroutines that ask. *)
Definition started (requests : list request) : config :=
  (mkShared ∅ [] 0 false, (fun rq => (rq, Enter)) <$> requests).

(** ** The lock *)

Definition holds_read (t : goroutine) : bool :=
  match t.2 with ReadLocked | ReadFound _ | ReadMissed => true | _ => false end.
Definition holds_write (t : goroutine) : bool :=
  match t.2 with WriteLocked | WriteMissed | WriteDone _ => true | _ => false end.
Definition count (f : goroutine -> bool) (ts : list goroutine) : nat :=
  foldr (fun t n => (if f t then 1 else 0) + n) 0 ts.

Lemma count_insert f ts i t t' : ts !! i = Some t ->
  count f (<[i := t']> ts) + (if f t then 1 else 0) = count f ts + (if f t' then 1 else 0).
Proof.
  revert i. induction ts as [|x ts IH]; intros [|i]; simpl; intros Hi; try done.
  - injection Hi as ->. lia.
  - specialize (IH i Hi). lia.
Qed.

Lemma count_zero f ts : count f ts = 0 <-> forall i t, ts !! i = Some t -> f t = false.
Proof.
  induction ts as [|x ts IH]; [split; [done|done]|]. simpl. split.
  - intros Hc [|i] t Hi; simpl in Hi; [injection Hi as <-; by destruct (f x)|]. apply (proj1 IH) with (i := i); [lia|done].
  - intros Ht. rewrite (Ht 0 x eq_refl). apply IH. intros i t Hi. by apply (Ht (S i)).
Qed.

Lemma count_elem f ts i t : ts !! i = Some t -> f t = true -> 1 <= count f ts.
Proof.
  intros Hi Ht. destruct (count f ts) eqn:Hc; [|lia]. by rewrite (proj1 (count_zero f ts) Hc i t Hi) in Ht.
Qed.

Lemma count_one f ts i j t t' : count f ts <= 1 -> ts !! i = Some t -> ts !! j = Some t' ->
  f t = true -> f t' = true -> i = j.
Proof.
  revert i j. induction ts as [|x ts IH]; intros [|i] [|j]; simpl; intros Hc Hi Hj Ht Ht'; try done.
  - injection Hi as ->. rewrite Ht in Hc. pose proof (count_elem f ts j t' Hj Ht'). lia.
  - injection Hj as ->. rewrite Ht' in Hc. pose proof (count_elem f ts i t Hi Ht). lia.
  - f_equal. by apply IH; [destruct (f x); lia|..].
Qed.

#[local] Arguments count : simpl never.

(** ** The invariant *)

(** The client a goroutine has in hand. *)
Definition in_hand (pc : line) : option nat :=
  match pc with ReadFound c | WriteDone c | Returned c => Some c | _ => None end.

Section Invariant.
Context (requests : list request).

Record factory_ok (st : config) : Prop := {
  fo_requests : fst <$> st.2 = requests;
  fo_readers : sh_readers st.1 = count holds_read st.2;
  fo_writer : count holds_write st.2 = if sh_writer st.1 then 1 else 0;
  fo_exclusive : sh_writer st.1 = true -> sh_readers st.1 = 0;
  fo_made : forall k c, sh_clients st.1 !! k = Some c ->
    exists rq, rq ∈ requests /\ rq_key rq = k /\ sh_heap st.1 !! c = Some (rq_new rq);
  fo_distinct : forall k k' c, sh_clients st.1 !! k = Some c -> sh_clients st.1 !! k' = Some c -> k = k';
  fo_all : length (sh_heap st.1) = size (sh_clients st.1);
  fo_in_hand : forall i rq pc c, st.2 !! i = Some (rq, pc) -> in_hand pc = Some c -> sh_clients st.1 !! rq_key rq = Some c;
  fo_missed : forall i rq, st.2 !! i = Some (rq, WriteMissed) -> sh_clients st.1 !! rq_key rq = None;
}.

Lemma started_ok : factory_ok (started requests).
Proof.
  split; cbn; try done.
  - rewrite <- list_fmap_compose. apply list_fmap_id.
  - symmetry. apply count_zero. intros i t Hi. apply list_lookup_fmap_Some in Hi as (rq & -> & _). done.
  - apply count_zero. intros i t Hi. apply list_lookup_fmap_Some in Hi as (rq & -> & _). done.
  - intros i rq pc c Hi. apply list_lookup_fmap_Some in Hi as (rq' & [= <- ->] & _). done.
Qed.

Lemma requests_kept (ts : list goroutine) i rq pc pc' : fst <$> ts = requests -> ts !! i = Some (rq, pc) ->
  fst <$> <[i := (rq, pc')]> ts = requests.
Proof.
  intros Hr Hi. rewrite list_fmap_insert. cbn. rewrite list_insert_id; [done|]. by rewrite list_lookup_fmap, Hi.
Qed.

(** A goroutine moves on and leaves the map alone. *)
Lemma moves_on cl hp r w r' (w' : bool) (ts : list goroutine) i rq (pc pc' : line) :
  factory_ok (mkShared cl hp r w, ts) -> ts !! i = Some (rq, pc) ->
  r' = count holds_read (<[i := (rq, pc')]> ts) ->
  count holds_write (<[i := (rq, pc')]> ts) = (if w' then 1 else 0) -> (w' = true -> r' = 0) ->
  (forall c, in_hand pc' = Some c -> cl !! rq_key rq = Some c) -> (pc' = WriteMissed -> cl !! rq_key rq = None) ->
  factory_ok (mkShared cl hp r' w', <[i := (rq, pc')]> ts).
Proof.
  intros [Hreq _ _ _ Hmade Hdist Hall Hin Hmiss] Hi Hr Hw Hex Hc Hm. cbn in *.
  split; cbn; try done; [by eapply requests_kept|..].
  - intros j rq' pc'' c [(-> & [= <- <-] & _)|[_ Hj]]%list_lookup_insert_Some; [apply Hc|by eapply Hin].
  - intros j rq' [(-> & [= <- ->] & _)|[_ Hj]]%list_lookup_insert_Some; [by apply Hm|by eapply Hmiss].
Qed.

(** A goroutine stores the client it made; it is the only one at that line. *)
Lemma stores_client cl hp r w (ts : list goroutine) i rq :
  factory_ok (mkShared cl hp r w, ts) -> ts !! i = Some (rq, WriteMissed) ->
  factory_ok (mkShared (<[rq_key rq := length hp]> cl) (hp ++ [rq_new rq]) r w, <[i := (rq, WriteDone (length hp))]> ts).
Proof.
  intros [Hreq Hrd Hwr Hex Hmade Hdist Hall Hin Hmiss] Hi. cbn in *. pose proof (Hmiss _ _ Hi) as Hnone.
  pose proof (count_insert holds_read ts i _ (rq, WriteDone (length hp)) Hi) as Hcr.
  pose proof (count_insert holds_write ts i _ (rq, WriteDone (length hp)) Hi) as Hcw. cbn in Hcr, Hcw.
  assert (forall k c, cl !! k = Some c -> c < length hp) as Hold.
  { intros k c Hk. destruct (Hmade k c Hk) as (rq' & _ & _ & Hc). by apply lookup_lt_Some in Hc. }
  split; cbn; try done; [by eapply requests_kept|lia|lia|..].
  - intros k c [[<- <-]|[Hne Hk]]%lookup_insert_Some.
    + exists rq. split; [rewrite <- Hreq; apply list_elem_of_fmap; exists (rq, WriteMissed); split; [done|by eapply list_elem_of_lookup_2]|].
      split; [done|]. by rewrite lookup_app_r, Nat.sub_diag.
    + destruct (Hmade k c Hk) as (rq' & Hrq & Hkey & Hc). exists rq'. split_and!; [done..|]. by apply lookup_app_l_Some.
  - intros k k' c [[<- <-]|[Hne Hk]]%lookup_insert_Some [[<- Hc]|[Hne' Hk']]%lookup_insert_Some; try done.
    + by apply Hold in Hk'; lia.
    + apply Hold in Hk. lia.
    + by eapply Hdist.
  - rewrite length_app, map_size_insert_None by done. cbn. lia.
  - intros j rq' pc c [(-> & [= <- <-] & _)|[Hne Hj]]%list_lookup_insert_Some Hc.
    + injection Hc as <-. apply lookup_insert_eq.
    + rewrite lookup_insert_ne; [by eapply Hin|]. intros Heq. pose proof (Hin _ _ _ _ Hj Hc) as Hk.
      rewrite <- Heq, Hnone in Hk. done.
  - intros j rq' [(-> & [=] & _)|[Hne Hj]]%list_lookup_insert_Some. exfalso. apply Hne.
    eapply (count_one holds_write ts); [destruct w; lia|exact Hi|exact Hj|done|done].
Qed.

Lemma interleaved_ok st st' : interleaved st st' -> factory_ok st -> factory_ok st'.
Proof.
  intros Hs Hok. destruct Hs as [[cl hp r w] ts i rq pc sh' pc' Hi Hl].
  pose proof (fo_readers _ Hok) as Hrd. pose proof (fo_writer _ Hok) as Hwr. pose proof (fo_exclusive _ Hok) as Hex.
  pose proof (fo_in_hand _ Hok i rq pc) as Hin. cbn in Hrd, Hwr, Hex, Hin.
  pose proof (count_insert holds_read ts i _ (rq, pc') Hi) as Hcr.
  pose proof (count_insert holds_write ts i _ (rq, pc') Hi) as Hcw.
  destruct pc; cbn in Hl; repeat case_match; simplify_eq; try (by apply stores_client);
    eapply moves_on; try exact Hok; try exact Hi; cbn in Hcr, Hcw |- *; try done; try lia; try (intros ? [= <-]; auto).
Qed.

Lemma reachable_ok st : rtc interleaved (started requests) st -> factory_ok st.
Proof.
  intros Hr. apply rtc_ind_r with (P := fun st => factory_ok st) in Hr; [done|apply started_ok|].
  intros y z _ Hs Hy. by eapply interleaved_ok.
Qed.

(** ** Progress *)

Definition done_with (t : goroutine) : bool := match t.2 with Returned _ => true | _ => false end.

(** Who holds the lock can go on, and with the lock free so can the others. *)
Lemma can_go_on st : factory_ok st -> (forall i t, st.2 !! i = Some t -> done_with t = true) \/ exists st', interleaved st st'.
Proof.
  intros Hok. destruct st as [[cl hp r w] ts]. pose proof (fo_readers _ Hok) as Hrd. pose proof (fo_writer _ Hok) as Hwr.
  cbn in Hrd, Hwr.
  assert (forall i rq pc, ts !! i = Some (rq, pc) -> is_Some (line_step rq pc (mkShared cl hp r w)) ->
            exists st', interleaved (mkShared cl hp r w, ts) st') as Hgo.
  { intros i rq pc Hi [[sh' pc'] Hs]. eexists. by econstructor. }
  destruct (decide (Exists (fun t => holds_write t = true \/ holds_read t = true) ts)) as [Hex|Hno].
  - right. apply Exists_exists in Hex as ([rq pc] & (i & Hi)%list_elem_of_lookup & Hh). apply (Hgo i rq pc Hi).
    destruct pc; cbn in *; naive_solver.
  - assert (w = false /\ r = 0) as [-> ->].
    { assert (forall f, (forall t, f t = true -> holds_write t = true \/ holds_read t = true) -> count f ts = 0) as Hz.
      { intros f Hf. apply count_zero. intros i t Hi. destruct (f t) eqn:Ht; [|done]. exfalso. apply Hno, Exists_exists.
        exists t. split; [by eapply list_elem_of_lookup_2|by apply Hf]. }
      rewrite Hz in Hrd, Hwr by tauto. by destruct w. }
    destruct (decide (Exists (fun t => done_with t = false) ts)) as [Hex|Hall].
    + right. apply Exists_exists in Hex as ([rq pc] & (i & Hi)%list_elem_of_lookup & Hd). apply (Hgo i rq pc Hi).
      destruct pc; cbn in *; naive_solver.
    + left. intros i t Hi. destruct (done_with t) eqn:Ht; [done|]. exfalso. apply Hall, Exists_exists.
      exists t. split; [by eapply list_elem_of_lookup_2|done].
Qed.

(** The lines a goroutine has at most before it. *)
Definition lines_left (pc : line) : nat :=
  match pc with
  | Enter => 7 | ReadLocked => 6 | ReadMissed => 5 | BeforeLock => 4 | WriteLocked => 3 | WriteMissed => 2
  | ReadFound _ | WriteDone _ => 1 | Returned _ => 0
  end.
Definition work_left (st : config) : nat := foldr (fun t n => lines_left t.2 + n) 0 st.2.

Lemma work_insert (ts : list goroutine) i rq pc pc' sh sh' : ts !! i = Some (rq, pc) ->
  work_left (sh, <[i := (rq, pc')]> ts) + lines_left pc = work_left (sh', ts) + lines_left pc'.
Proof.
  unfold work_left. cbn. revert i. induction ts as [|x ts IH]; intros [|i]; simpl; intros Hi; try done.
  - injection Hi as ->. simpl. lia.
  - specialize (IH i Hi). lia.
Qed.

Lemma interleaved_less st st' : interleaved st st' -> work_left st' < work_left st.
Proof.
  intros [sh ts i rq pc sh' pc' Hi Hl]. pose proof (work_insert ts i rq pc pc' sh' sh Hi) as Hw.
  assert (lines_left pc' < lines_left pc); [|lia].
  destruct sh, pc; cbn in Hl; repeat case_match; simplify_eq; simpl; lia.
Qed.

Lemma runs_end n st : nsteps interleaved n (started requests) st -> n + work_left st <= 7 * length requests.
Proof.
  assert (work_left (started requests) = 7 * length requests) as <-.
  { unfold work_left, started. cbn [snd]. induction requests as [|rq l IH]; [done|].
    rewrite fmap_cons. cbn [foldr snd lines_left]. rewrite IH. cbn [length]. lia. }
  generalize (started requests). intros st0 Hn. induction Hn as [|n x y z Hxy Hyz IH]; [lia|].
  apply interleaved_less in Hxy. lia.
Qed.
End Invariant.

(** ** Clients of a configuration *)

Definition request_of (cfg : Config) (contextName : string) : request :=
  mkRequest (cacheKey contextName (cfg_Identifier cfg)) (client_of cfg contextName).

(** C33: Under any interleaving of the goroutines, however many ask for whichever contexts: a
    goroutine that has returned has the client of its context, and two have the same
    object exactly when they asked for the same context; no client is made that is not
    kept; the map is never written while another goroutine may look at it; as long as
    one has not returned some goroutine can go on, and after seven lines of each all
    have returned. *)
Theorem clients_shared cfg names n st :
  nsteps interleaved n (started (request_of cfg <$> names)) st ->
  (forall i name rq c, names !! i = Some name -> st.2 !! i = Some (rq, Returned c) ->
     sh_heap st.1 !! c = Some (client_of cfg name))
  /\ (forall i j name name' rq rq' c c', names !! i = Some name -> names !! j = Some name' ->
        st.2 !! i = Some (rq, Returned c) -> st.2 !! j = Some (rq', Returned c') -> c = c' <-> name = name')
  /\ length (sh_heap st.1) = size (sh_clients st.1)
  /\ (forall i j rq t, st.2 !! i = Some (rq, WriteMissed) -> st.2 !! j = Some t -> i <> j ->
        holds_read t = false /\ holds_write t = false)
  /\ ((exists st', interleaved st st') \/ forall i t, st.2 !! i = Some t -> done_with t = true)
  /\ n <= 7 * length names.
Proof.
  intros Hn. pose proof (runs_end _ _ _ Hn) as Hend. rewrite length_fmap in Hend.
  assert (factory_ok (request_of cfg <$> names) st) as Hok by (apply reachable_ok, rtc_nsteps; by exists n).
  assert (forall i name rq c, names !! i = Some name -> st.2 !! i = Some (rq, Returned c) ->
            rq = request_of cfg name /\ sh_clients st.1 !! cacheKey name (cfg_Identifier cfg) = Some c) as Hret.
  { intros i name rq c Hname Hi. assert (rq = request_of cfg name) as ->.
    { pose proof (fo_requests _ _ Hok) as Hreq. apply (f_equal (fun l => l !! i)) in Hreq.
      rewrite !list_lookup_fmap, Hi, Hname in Hreq. by injection Hreq. }
    split; [done|]. by apply (fo_in_hand _ _ Hok i (request_of cfg name) (Returned c) c Hi). }
  split_and!.
  - intros i name rq c Hname Hi. destruct (Hret _ _ _ _ Hname Hi) as [_ Hc].
    destruct (fo_made _ _ Hok _ _ Hc) as (rq' & Hrq & Hkey & Hheap). rewrite Hheap.
    apply list_elem_of_fmap in Hrq as (name' & -> & _). cbn in Hkey. by apply cacheKey_inj in Hkey as ->.
  - intros i j name name' rq rq' c c' Hname Hname' Hi Hj. destruct (Hret _ _ _ _ Hname Hi) as [_ Hc].
    destruct (Hret _ _ _ _ Hname' Hj) as [_ Hc']. split; [intros ->|intros ->; congruence].
    eapply cacheKey_inj, (fo_distinct _ _ Hok); eauto.
  - exact (fo_all _ _ Hok).
  - intros i j rq t Hi Hj Hne. pose proof (fo_writer _ _ Hok) as Hw.
    pose proof (count_elem holds_write _ _ _ Hi eq_refl) as H1. destruct (sh_writer st.1) eqn:Hwr; [|lia]. split.
    + pose proof (fo_readers _ _ Hok) as Hr. rewrite (fo_exclusive _ _ Hok Hwr) in Hr.
      by apply (proj1 (count_zero holds_read st.2) (eq_sym Hr) j).
    + destruct (holds_write t) eqn:Ht; [|done]. exfalso. apply Hne.
      eapply (count_one holds_write st.2); [lia|exact Hi|exact Hj|done|done].
  - destruct (can_go_on _ _ Hok); [by right|by left].
  - lia.
Qed.

(** ** A run *)

(** The goroutines in the order of a schedule. *)
Definition turn (st : config) (i : nat) : option config :=
  '(rq, pc) ← st.2 !! i; '(sh', pc') ← line_step rq pc st.1; Some (sh', <[i := (rq, pc')]> st.2).
Fixpoint turns (st : config) (schedule : list nat) : option config :=
  match schedule with [] => Some st | i :: schedule => st' ← turn st i; turns st' schedule end.

Lemma turns_steps schedule st st' : turns st schedule = Some st' -> nsteps interleaved (length schedule) st st'.
Proof.
  revert st. induction schedule as [|i l IH]; intros st Ht; simpl in *; [injection Ht as ->; constructor|].
  apply bind_Some in Ht as (st1 & H1 & H2). econstructor; [|by apply IH]. destruct st as [sh ts]. unfold turn in H1.
  apply bind_Some in H1 as ([rq pc] & Hi & H1). apply bind_Some in H1 as ([sh' pc'] & Hl & [= <-]). by econstructor.
Qed.

(** Two goroutines ask for the same context and both find nothing at first; the second
    to get the write lock looks again and takes the client of the first. *)
Definition crowd : list string := ["near"; "far"; "near"].
Definition race : list nat := [0; 2; 0; 2; 1; 0; 1; 2; 1] ++ [0; 0; 0; 0] ++ [2; 2; 2] ++ [1; 1; 1; 1].

Definition race_end : config := default (started []) (turns (started (request_of two_contexts <$> crowd)) race).

Lemma clients_shared_witness :
  (snd <$> race_end.2 = [Returned 0; Returned 1; Returned 0])
  /\ sh_heap race_end.1 = [client_of two_contexts "near"; client_of two_contexts "far"]
  /\ length (sh_heap race_end.1) = size (sh_clients race_end.1).
Proof.
  split; [vm_compute; reflexivity|]. split; [vm_compute; reflexivity|].
  apply (clients_shared two_contexts crowd (length race)). apply turns_steps. vm_compute. reflexivity.
Defined.
