(* ===== verification/ServiceState.v ===== *)
(** * Service state detection ([internal/planner/service_state.go])

    Which services of a stack are missing, up to date, drifted, or labelled for
    someone else.  The detector's [docker] is [None] when no client is set. *)

From S2P Require Import Prelude GoStrings GoPath Apperr Util Manifest Filesets Effects Docker.

Inductive ServiceState :=
| ServiceMissing | ServiceRunning | ServiceDrifted | ServiceIdentifierMismatch.

#[global] Instance ServiceState_eq_dec : EqDecision ServiceState.
Proof. solve_decision. Defined.

Record ServiceInfo := mkInfo' {
  si_Name : string; si_AppName : string; si_State : ServiceState;
  si_DesiredHash : string; si_RunningHash : string;
  si_Container : option ComposePsItem }.

(** The zero value of the struct. *)
Definition zero_info : ServiceInfo := mkInfo' "" "" ServiceMissing "" "" None.

Record ServiceStateDetector := mkDetector {
  det_docker : option DockerClient; det_parallel : bool }.

Definition NewServiceStateDetector (docker : option DockerClient) : ServiceStateDetector :=
  mkDetector docker true.
Definition WithParallel (d : ServiceStateDetector) (enabled : bool) : ServiceStateDetector :=
  mkDetector (det_docker d) enabled.

(** The compose arguments of a stack, and its project name. *)
Definition stack_args (stack : Stack) (inline : list string) : ComposeArgs :=
  mkComposeArgs (st_Root stack) (st_Files stack) (st_Profiles stack) (st_EnvFile stack) inline.
Definition project_of (stack : Stack) : string :=
  match st_Project stack with Some p => proj_Name p | None => "" end.

Definition label_identifier : string := "io.dockform.identifier".
Definition label_hash : string := "com.docker.compose.config-hash".

(** ** Operations *)

Definition GetPlannedServices (d : ServiceStateDetector) (stack : Stack) (inline : list string)
  : prog (res (list string)) :=
  match det_docker d with
  | None => mret (Ok [])
  | Some docker =>
      services ← do_call docker (ComposeConfigServices (stack_args stack inline));
      match services with
      | Ok ((_ :: _) as services) => mret (Ok (sort_strings services))
      | _ =>
          doc ← do_call docker (ComposeConfigFull (stack_args stack inline));
          match doc with
          | Err e => mret (Err e)
          | Ok doc => mret (Ok (sorted_keys doc))
          end
      end
  end.

(** The decryption options of the [sops] block. *)
Definition sops_options (sopsConfig : option SopsConfig) : SopsOptions :=
  let age := sopsConfig ≫= sops_Age in
  let pgp := sopsConfig ≫= sops_Pgp in
  mkSopsOptions (match age with Some a => age_KeyFile a | None => "" end)
    (match pgp with Some p => pgp_KeyringDir p | None => "" end)
    (match pgp with Some p => pgp_UseAgent p | None => false end)
    (match pgp with Some p => pgp_PinentryMode p | None => "" end)
    (match pgp with Some p => pgp_Passphrase p | None => "" end).

Definition secret_path (stack : Stack) (pth0 : string) : string :=
  if bool_decide (pth0 <> "") && negb (IsAbs pth0) then PathJoin [st_Root stack; pth0] else pth0.

(** Decryption is a local effect; it is traced under the detector's client. *)
Definition host_of_detector (d : ServiceStateDetector) : DockerClient :=
  match det_docker d with Some c => c | None => "" end.

Definition BuildInlineEnv (d : ServiceStateDetector) (stack : Stack)
    (sopsConfig : option SopsConfig) : prog (res (list string)) :=
  for_each_res (fun inline pth0 =>
    let pth := secret_path stack pth0 in
    pairs ← do_call (host_of_detector d) (DecryptAndParse pth (sops_options sopsConfig));
    match pairs with
    | Err e => mret (Err (wrap "servicestate.BuildInlineEnv" External e
                            "decrypt sops secret %s" [pth]))
    | Ok pairs => mret (Ok (inline ++ pairs))
    end) (st_EnvInline stack) (st_SopsSecrets stack).

(** The containers by service; the last one listed wins. *)
Definition by_service (items : list ComposePsItem) : gmap string ComposePsItem :=
  foldl (fun m it => <[psi_Service it := it]> m) ∅ items.

(** A failing [compose ps] counts as no running services. *)
Definition GetRunningServices (d : ServiceStateDetector) (stack : Stack) (inline : list string)
  : prog (res (gmap string ComposePsItem)) :=
  match det_docker d with
  | None => mret (Ok ∅)
  | Some docker =>
      items ← do_call docker (ComposePs (stack_args stack inline) (project_of stack));
      match items with
      | Err _ => mret (Ok ∅)
      | Ok items => mret (Ok (by_service items))
      end
  end.

Definition label_keys (identifier : string) : list string :=
  label_hash :: (if bool_decide (identifier <> "") then [label_identifier] else []).

(** The verdict on a running container, from its labels. *)
Definition judge_labels (identifier desiredHash : string) (labels : gmap string string)
    (info : ServiceInfo) : ServiceInfo :=
  let with_state s h := mkInfo' (si_Name info) (si_AppName info) s (si_DesiredHash info) h
                          (si_Container info) in
  if bool_decide (identifier <> "") && negb (bool_decide (labels !! label_identifier = Some identifier))
  then with_state ServiceIdentifierMismatch (si_RunningHash info)
  else if bool_decide (desiredHash <> "") then
    let runningHash := default "" (labels !! label_hash) in
    if bool_decide (runningHash = "") || bool_decide (runningHash <> desiredHash)
    then with_state ServiceDrifted runningHash
    else with_state (si_State info) runningHash
  else info.

Definition detectServiceStateFast (d : ServiceStateDetector) (serviceName stackName : string)
    (stack : Stack) (identifier : string) (inline : list string)
    (running : gmap string ComposePsItem) (desiredHashes : gmap string string)
    (labelsByContainer : gmap string (gmap string string)) : prog (res ServiceInfo) :=
  let container := running !! serviceName in
  let info h s := mkInfo' serviceName stackName s h "" container in
  let state := match container with Some _ => ServiceRunning | None => ServiceMissing end in
  match det_docker d with
  | None => mret (Ok (info "" state))
  | Some docker =>
      let known := default "" (desiredHashes !! serviceName) in
      desiredHash ←
        (if bool_decide (known = "") then
           dh ← do_call docker (ComposeConfigHash (stack_args stack inline) (project_of stack)
                                  serviceName identifier);
           mret match dh with Ok dh => dh | Err _ => known end
         else mret known);
      match container with
      | None => mret (Ok (info desiredHash ServiceMissing))
      | Some c =>
          labels ← match labelsByContainer !! psi_Name c with
                   | Some labels => mret (Ok labels)
                   | None => do_call docker (InspectContainerLabels (psi_Name c) (label_keys identifier))
                   end;
          match labels with
          | Err _ => mret (Ok (info desiredHash ServiceDrifted))
          | Ok labels => mret (Ok (judge_labels identifier desiredHash labels
                                     (info desiredHash ServiceRunning)))
          end
      end
  end.

Definition DetectServiceState (d : ServiceStateDetector) (serviceName stackName : string)
    (stack : Stack) (identifier : string) (inline : list string)
    (running : gmap string ComposePsItem) : prog (res ServiceInfo) :=
  detectServiceStateFast d serviceName stackName stack identifier inline running ∅ ∅.

Section DetectAll.
Context `{MapRange} `{Schedule}.
Context (d : ServiceStateDetector) (stackName : string) (stack : Stack) (identifier : string)
  (inline : list string) (running : gmap string ComposePsItem)
  (desiredHashes : gmap string string)
  (labelsByContainer : gmap string (gmap string string)).

Let detect (serviceName : string) : prog (res ServiceInfo) :=
  detectServiceStateFast d serviceName stackName stack identifier inline running
    desiredHashes labelsByContainer.

Definition detectAllServicesStateSequential (plannedServices : list string)
  : prog (res (list ServiceInfo)) :=
  for_each_res (fun results serviceName =>
    r ← detect serviceName;
    match r with
    | Err e => mret (Err (wrap "servicestate.DetectAllServicesStateSequential" External e
                 "failed to detect state for service %s/%s" [stackName; serviceName]))
    | Ok info => mret (Ok (results ++ [info]))
    end) [] plannedServices.

(** The results in the planned order, or the first error of that order. *)
Fixpoint collect_results (names : list string) (results : list (res ServiceInfo))
  : res (list ServiceInfo) :=
  match names, results with
  | name :: names, r :: results =>
      match r with
      | Err e => Err (wrap "servicestate.DetectAllServicesStateParallel" External e
                   "failed to detect state for service %s/%s" [stackName; name])
      | Ok info => rest ← collect_results names results; Ok (info :: rest)
      end
  | _, _ => Ok []
  end.

(** One goroutine per service; each result is stored at its service's index. *)
Definition detectAllServicesStateParallel (plannedServices : list string)
  : prog (res (list ServiceInfo)) :=
  results ← for_each (fun results (task : nat * string) =>
      r ← detect task.2; mret (<[task.1 := r]> results))
    (replicate (length plannedServices) (Ok zero_info))
    (schedule "services" (imap pair plannedServices));
  mret (collect_results plannedServices results).
End DetectAll.

Definition DetectAllServicesState `{MapRange} `{Schedule} (d : ServiceStateDetector)
    (stackName : string) (stack : Stack) (identifier : string) (sopsConfig : option SopsConfig)
  : prog (res (list ServiceInfo)) :=
  let op := "servicestate.DetectAllServicesState" in
  inline ← BuildInlineEnv d stack sopsConfig;
  try inline id (fun inline =>
  planned ← GetPlannedServices d stack inline;
  try planned (fun e => wrap op External e "failed to get planned services for stack %s" [stackName])
    (fun plannedServices =>
  match plannedServices with
  | [] => mret (Ok [])
  | _ =>
  running ← GetRunningServices d stack inline;
  try running (fun e => wrap op External e "failed to get running services for stack %s" [stackName])
    (fun running =>
  desiredHashes ←
    match det_docker d with
    | None => mret ∅
    | Some docker =>
        hashes ← do_call docker (ComposeConfigHashes (stack_args stack inline) (project_of stack)
                   plannedServices identifier);
        mret match hashes with Ok h => h | Err _ => ∅ end
    end;
  labelsByContainer ←
    match det_docker d with
    | None => mret ∅
    | Some docker =>
        if bool_decide (running = ∅) then mret ∅ else
        got ← do_call docker (InspectMultipleContainerLabels
                (psi_Name ∘ snd <$> map_range "running services" running) (label_keys identifier));
        mret match got with Ok (Some m) => m | _ => ∅ end
    end;
  if det_parallel d
  then detectAllServicesStateParallel d stackName stack identifier inline running desiredHashes
         labelsByContainer plannedServices
  else detectAllServicesStateSequential d stackName stack identifier inline running desiredHashes
         labelsByContainer plannedServices)
  end)).

Definition NeedsApply (services : list ServiceInfo) : bool :=
  existsb (fun s => negb (bool_decide (si_State s = ServiceRunning))) services.

Definition GetServiceNames (services : list ServiceInfo) : list string := si_Name <$> services.

(** ** Detection is read-only *)

Definition looks (e : event) : Prop := read_only (ev_call e).

Lemma GetPlannedServices_looks d stack inline : always looks (GetPlannedServices d stack inline).
Proof. unfold GetPlannedServices. always_auto. Qed.

Lemma BuildInlineEnv_looks d stack sops : always looks (BuildInlineEnv d stack sops).
Proof. unfold BuildInlineEnv. always_auto. Qed.

Lemma GetRunningServices_looks d stack inline : always looks (GetRunningServices d stack inline).
Proof. unfold GetRunningServices. always_auto. Qed.

Lemma detectServiceStateFast_looks d s n stack i inline r h l :
  always looks (detectServiceStateFast d s n stack i inline r h l).
Proof. unfold detectServiceStateFast. always_auto. Qed.

#[export] Hint Resolve GetPlannedServices_looks BuildInlineEnv_looks GetRunningServices_looks
  detectServiceStateFast_looks : dockform.

Lemma DetectAllServicesState_looks `{MapRange} `{Schedule} d n stack i sops :
  always looks (DetectAllServicesState d n stack i sops).
Proof.
  unfold DetectAllServicesState, detectAllServicesStateParallel,
    detectAllServicesStateSequential. always_auto.
Qed.
#[export] Hint Resolve DetectAllServicesState_looks : dockform.

(** *** ... of the detector's own daemon *)

Definition on_daemon (client : DockerClient) (e : event) : Prop := ev_client e = client.

Section Daemon.
Context (d : ServiceStateDetector).
Let P : event -> Prop := on_daemon (host_of_detector d).

Ltac on_host := unfold P, on_daemon, host_of_detector; destruct (det_docker d); always_auto.

Lemma GetPlannedServices_daemon stack inline : always P (GetPlannedServices d stack inline).
Proof. unfold GetPlannedServices. on_host. Qed.

Lemma BuildInlineEnv_daemon stack sops : always P (BuildInlineEnv d stack sops).
Proof. unfold BuildInlineEnv. on_host. Qed.

Lemma GetRunningServices_daemon stack inline : always P (GetRunningServices d stack inline).
Proof. unfold GetRunningServices. on_host. Qed.

Lemma detectServiceStateFast_daemon s n stack i inline r h l :
  always P (detectServiceStateFast d s n stack i inline r h l).
Proof. unfold detectServiceStateFast. on_host. Qed.

Lemma DetectAllServicesState_daemon `{MapRange} `{Schedule} n stack i sops :
  always P (DetectAllServicesState d n stack i sops).
Proof.
  unfold DetectAllServicesState, detectAllServicesStateParallel, detectAllServicesStateSequential.
  repeat (apply BuildInlineEnv_daemon || apply GetPlannedServices_daemon
          || apply GetRunningServices_daemon || apply detectServiceStateFast_daemon || always_step);
    unfold P, on_daemon, host_of_detector; by simplify_option_eq.
Qed.
End Daemon.

(** Looking, at one daemon only. *)
Lemma always_looks_at {A} d (p : prog A) :
  always (on_daemon (host_of_detector d)) p -> always looks p ->
  always (fun e => looks e /\ ev_client e = host_of_detector d) p.
Proof.
  intros Hd Hl t a He. specialize (Hd t a He). specialize (Hl t a He).
  apply Forall_and. by split.
Qed.

(** ** What the verdict on a service means *)

(** Where the labels of a running container come from: the batched inspection, or
    one of its own. *)
Definition labels_known (docker : DockerClient) (identifier : string) (c : ComposePsItem)
    (labelsByContainer : gmap string (gmap string string)) (t : list event)
    (labels : gmap string string) : Prop :=
  labelsByContainer !! psi_Name c = Some labels
  \/ Ev docker (InspectContainerLabels (psi_Name c) (label_keys identifier)) (Ok labels) ∈ t.

(** Docker was asked for the labels of the container, by itself or with others. *)
Definition labels_read (docker : DockerClient) (identifier : string) (c : ComposePsItem) (t : list event)
    (labels : gmap string string) : Prop :=
  Ev docker (InspectContainerLabels (psi_Name c) (label_keys identifier)) (Ok labels) ∈ t
  \/ exists names m, Ev docker (InspectMultipleContainerLabels names (label_keys identifier)) (Ok (Some m)) ∈ t
       /\ m !! psi_Name c = Some labels.

(** What [ServiceRunning] promises. *)
Definition up_to_date (identifier : string) (labels : gmap string string) (info : ServiceInfo) : Prop :=
  (identifier <> "" -> labels !! label_identifier = Some identifier)
  /\ (si_DesiredHash info <> "" -> labels !! label_hash = Some (si_DesiredHash info)).

Lemma judge_labels_spec identifier h labels info :
  si_State info = ServiceRunning -> si_DesiredHash info = h ->
  let info' := judge_labels identifier h labels info in
  si_Name info' = si_Name info /\ si_Container info' = si_Container info
  /\ si_State info' <> ServiceMissing
  /\ (si_State info' = ServiceRunning <-> up_to_date identifier labels info')
  /\ (si_State info' = ServiceIdentifierMismatch <->
        identifier <> "" /\ labels !! label_identifier <> Some identifier).
Proof.
  intros Hs Hh. unfold judge_labels, up_to_date. subst h.
  destruct (decide (identifier <> "")) as [Hi|Hi].
  - rewrite bool_decide_true by done. simpl.
    destruct (decide (labels !! label_identifier = Some identifier)) as [Hl|Hl].
    + rewrite (bool_decide_true (labels !! _ = _)) by done. simpl.
      destruct (decide (si_DesiredHash info <> "")) as [Hd|Hd].
      * rewrite bool_decide_true by done.
        destruct (labels !! label_hash) as [rh|]; simpl; repeat case_bool_decide; simpl;
          rewrite ?Hs; naive_solver.
      * rewrite bool_decide_false by done. rewrite Hs. naive_solver.
    + rewrite (bool_decide_false (labels !! _ = _)) by done. simpl. naive_solver.
  - rewrite (bool_decide_false (identifier <> "")) by done. simpl.
    destruct (decide (si_DesiredHash info <> "")) as [Hd|Hd].
    + rewrite bool_decide_true by done.
      destruct (labels !! label_hash) as [rh|]; simpl; repeat case_bool_decide; simpl;
        rewrite ?Hs; naive_solver.
    + rewrite bool_decide_false by done. rewrite Hs. naive_solver.
Qed.

(** Where the desired hash of a service comes from: the batched computation, or one of
    its own when that gave none; it is empty when neither succeeded. *)
Definition hash_known (docker : DockerClient) (stack : Stack) (inline : list string) (identifier svc : string)
    (hashes : gmap string string) (t : list event) (h : string) : Prop :=
  (hashes !! svc = Some h /\ h <> "")
  \/ (default "" (hashes !! svc) = "" /\ exists one,
       Ev docker (ComposeConfigHash (stack_args stack inline) (project_of stack) svc identifier) one ∈ t
       /\ h = match one with Ok h => h | Err _ => "" end).

(** The verdict on a service, from what was read. *)
Record judged (docker : DockerClient) (stack : Stack) (inline : list string) (identifier : string)
    (running : gmap string ComposePsItem) (hashes : gmap string string)
    (labelsByContainer : gmap string (gmap string string)) (t : list event) (info : ServiceInfo) : Prop := {
  j_container : si_Container info = running !! si_Name info;
  j_missing : si_State info = ServiceMissing <-> si_Container info = None;
  j_hash : hash_known docker stack inline identifier (si_Name info) hashes t (si_DesiredHash info);
  j_running : si_State info = ServiceRunning -> exists c labels, si_Container info = Some c
    /\ labels_known docker identifier c labelsByContainer t labels /\ up_to_date identifier labels info;
  j_mismatch : si_State info = ServiceIdentifierMismatch -> exists c labels, si_Container info = Some c
    /\ labels_known docker identifier c labelsByContainer t labels
    /\ identifier <> "" /\ labels !! label_identifier <> Some identifier;
}.

Lemma labels_known_mono docker i c m (t t' : list event) labels :
  t ⊆ t' -> labels_known docker i c m t labels -> labels_known docker i c m t' labels.
Proof. intros Hs [?|?]; [by left|right; by apply Hs]. Qed.

Lemma judged_mono docker stack inline i running hashes labels (t t' : list event) info :
  t ⊆ t' -> judged docker stack inline i running hashes labels t info ->
  judged docker stack inline i running hashes labels t' info.
Proof.
  intros Hs [H1 H2 H3 H4 H5]. split; [done|done| | |].
  - destruct H3 as [?|(? & one & Ho & ?)]; [by left|right]. split; [done|]. exists one. split; [by apply Hs|done].
  - intros (c & l & ? & ? & ?)%H4. exists c, l. split_and!; [done|by eapply labels_known_mono|done].
  - intros (c & l & ? & ? & ? & ?)%H5. exists c, l. split_and!; [done|by eapply labels_known_mono|done..].
Qed.

Lemma judged_labels docker stack inline i running hashes m t svc n h c labels :
  running !! svc = Some c -> hash_known docker stack inline i svc hashes t h ->
  labels_known docker i c m t labels ->
  judged docker stack inline i running hashes m t
    (judge_labels i h labels (mkInfo' svc n ServiceRunning h "" (Some c))).
Proof.
  intros Hr Hh Hl.
  destruct (judge_labels_spec i h labels (mkInfo' svc n ServiceRunning h "" (Some c)) eq_refl eq_refl)
    as (H1 & H2 & H3 & H4 & H5).
  assert (si_DesiredHash (judge_labels i h labels (mkInfo' svc n ServiceRunning h "" (Some c))) = h) as Hd.
  { unfold judge_labels. repeat case_match; done. }
  cbn in H1, H2. split.
  - by rewrite H1, H2.
  - rewrite H2. naive_solver.
  - by rewrite H1, Hd.
  - rewrite H2. intros Hs%H4. by exists c, labels.
  - rewrite H2. intros Hs%H5. by exists c, labels.
Qed.

(** Detecting one service never fails, and its verdict is right. *)
Lemma detectServiceStateFast_judged d docker svc n stack i inline running hashes m :
  det_docker d = Some docker ->
  wp (detectServiceStateFast d svc n stack i inline running hashes m) (fun t r => exists info, r = Ok info
    /\ si_Name info = svc /\ judged docker stack inline i running hashes m t info).
Proof.
  intros Hd. unfold detectServiceStateFast. rewrite Hd. apply wp_bind.
  eapply (wp_mono _ (fun t h => hash_known docker stack inline i svc hashes t h)).
  { case_bool_decide as Hk.
    - apply wp_bind. wp_docall. intros one. apply wp_ret. right. split; [done|]. exists one.
      split; [left|]. by destruct one.
    - apply wp_ret. left. by destruct (hashes !! svc). }
  intros t0 h Hh.
  assert (forall t1 : list event, hash_known docker stack inline i svc hashes (t0 ++ t1) h) as Hh'.
  { intros t1. destruct Hh as [?|(? & one & ? & ?)]; [by left|right]. split; [done|]. exists one. set_solver. }
  destruct (running !! svc) as [c|] eqn:Hc.
  2: { apply wp_ret. eexists. split; [done|]. split; [done|]. split; cbn; [by rewrite Hc|done|apply Hh'|done|done]. }
  apply wp_bind. destruct (m !! psi_Name c) as [labels|] eqn:Hl.
  - apply wp_ret, wp_ret. eexists. split; [done|]. destruct (judge_labels_spec i h labels
      (mkInfo' svc n ServiceRunning h "" (Some c)) eq_refl eq_refl) as (Hn & _).
    split; [done|]. apply judged_labels; [done|apply Hh'|by left].
  - wp_docall. intros [labels|e]; apply wp_ret; (eexists; split; [done|]).
    + destruct (judge_labels_spec i h labels (mkInfo' svc n ServiceRunning h "" (Some c)) eq_refl eq_refl) as (Hn & _).
      split; [done|]. apply judged_labels; [done|apply Hh'|]. right. apply elem_of_app. right. left.
    + split; [done|]. split; cbn; [by rewrite Hc|done|apply Hh'|done|done].
Qed.

Section AllJudged.
Context `{MapRange} `{Schedule} (d : ServiceStateDetector) (docker : DockerClient) (n : string) (stack : Stack)
  (i : string) (inline : list string) (running : gmap string ComposePsItem) (hashes : gmap string string)
  (m : gmap string (gmap string string)) (Hd : det_docker d = Some docker).
Notation right_verdict := (judged docker stack inline i running hashes m).

Lemma sequential_judged planned :
  wp (detectAllServicesStateSequential d n stack i inline running hashes m planned) (fun t r =>
    forall infos, r = Ok infos -> si_Name <$> infos = planned /\ Forall (right_verdict t) infos).
Proof using Hd.
  unfold detectAllServicesStateSequential.
  assert (forall acc t0, Forall (right_verdict t0) acc ->
    wp (for_each_res (fun results serviceName =>
      r ← detectServiceStateFast d serviceName n stack i inline running hashes m;
      match r with
      | Err e => mret (Err (wrap "servicestate.DetectAllServicesStateSequential" External e
                   "failed to detect state for service %s/%s" [n; serviceName]))
      | Ok info => mret (Ok (results ++ [info]))
      end) acc planned) (fun t r => forall infos, r = Ok infos ->
        si_Name <$> infos = (si_Name <$> acc) ++ planned /\ Forall (right_verdict (t0 ++ t)) infos)) as Hgen.
  { induction planned as [|svc planned IH]; intros acc t0 Hacc; cbn [for_each_res].
    { apply wp_ret. intros infos [= <-]. by rewrite !app_nil_r. }
    apply wp_bind, wp_bind. eapply wp_mono; [by apply detectServiceStateFast_judged|].
    intros t1 r (info & -> & Hn & Hj). apply wp_ret. eapply wp_mono; [apply (IH (acc ++ [info]) (t0 ++ t1))|].
    - apply Forall_app. split.
      + eapply Forall_impl; [exact Hacc|]. intros x. apply judged_mono. set_solver.
      + apply Forall_singleton. eapply judged_mono; [|exact Hj]. set_solver.
    - intros t2 r Hr infos Hi. destruct (Hr infos Hi) as [Hnames HF].
      rewrite fmap_app, <- (assoc_L (++)) in Hnames. cbn in Hnames. rewrite Hn in Hnames. split; [done|].
      rewrite app_nil_r. by rewrite <- (assoc_L (++)) in HF. }
  apply (Hgen [] []). constructor.
Qed.

(** The results of the tasks that are done. *)
Definition tasks_done (tasks : list (nat * string)) (len : nat) (t : list event) (results : list (res ServiceInfo)) : Prop :=
  length results = len /\ forall k svc, (k, svc) ∈ tasks -> k < len -> exists info svc',
    results !! k = Some (Ok info) /\ (k, svc') ∈ tasks /\ si_Name info = svc' /\ right_verdict t info.

Lemma collect_judged (t : list event) planned results :
  length results = length planned ->
  (forall k svc, planned !! k = Some svc -> exists info,
     results !! k = Some (Ok info) /\ si_Name info = svc /\ right_verdict t info) ->
  exists infos, collect_results n planned results = Ok infos
    /\ si_Name <$> infos = planned /\ Forall (right_verdict t) infos.
Proof.
  revert results. induction planned as [|svc planned IH]; intros results Hlen Hall.
  { exists []. by destruct results. }
  destruct results as [|r results]; [done|]. destruct (Hall 0 svc eq_refl) as (info & [= ->] & <- & Hj).
  destruct (IH results) as (infos & Hi & Hn & HF); [by injection Hlen|intros k s Hk; exact (Hall (S k) s Hk)|].
  exists (info :: infos). cbn. rewrite Hi. cbn. split; [done|]. split; [by rewrite Hn|by constructor].
Qed.

Lemma parallel_judged planned :
  wp (detectAllServicesStateParallel d n stack i inline running hashes m planned) (fun t r =>
    forall infos, r = Ok infos -> si_Name <$> infos = planned /\ Forall (right_verdict t) infos).
Proof using Hd.
  unfold detectAllServicesStateParallel. apply wp_bind.
  eapply wp_mono; [apply (wp_for_each_done (fun tasks t => tasks_done tasks (length planned) t))|].
  - split; [apply length_replicate|]. by intros k svc ?%elem_of_nil.
  - intros tasks t results [k svc] _ [Hlen Hdone]. apply wp_bind. cbn [fst snd].
    eapply wp_mono; [by apply detectServiceStateFast_judged|]. intros t1 r (info & -> & Hn & Hj). apply wp_ret.
    rewrite app_nil_r. split; [by rewrite length_insert|]. intros k' svc' Hin Hk'.
    destruct (decide (k' = k)) as [->|Hne].
    + exists info, svc. rewrite list_lookup_insert_eq by lia. split_and!; [done|set_solver|done|].
      eapply judged_mono; [|exact Hj]. set_solver.
    + rewrite list_lookup_insert_ne by done. apply elem_of_app in Hin as [Hin|Hin]; [|set_solver].
      destruct (Hdone k' svc' Hin Hk') as (info' & s' & ? & ? & ? & ?). exists info', s'.
      split_and!; [done|set_solver|done|]. eapply judged_mono; [|done]. set_solver.
  - intros t results [Hlen Hdone]. apply wp_ret. intros infos Hi.
    destruct (collect_judged (t ++ []) planned results) as (infos' & Hc & Hn & HF); [done| |rewrite Hi in Hc; by injection Hc as <-].
    intros k svc Hk. rewrite app_nil_r. destruct (Hdone k svc) as (info & svc' & Hr & Hin & Hn & Hj).
    + rewrite schedule_perm. apply elem_of_lookup_imap. by exists k, svc.
    + by eapply lookup_lt_Some.
    + exists info. split_and!; [done| |done]. rewrite Hn. rewrite schedule_perm in Hin.
      apply elem_of_lookup_imap in Hin as (k' & x & [= <- ->] & Hx). congruence.
Qed.
End AllJudged.

(** The container of a service is the last one listed for it. *)
Lemma by_service_last items svc : by_service items !! svc = last (filter (fun it => psi_Service it = svc) items).
Proof.
  unfold by_service. induction items as [|it items IH] using rev_ind; [done|].
  rewrite foldl_app, filter_app. cbn [foldl]. rewrite filter_cons, filter_nil.
  destruct (decide (psi_Service it = svc)) as [<-|Hne].
  - by rewrite lookup_insert_eq, last_snoc.
  - by rewrite lookup_insert_ne, app_nil_r.
Qed.

(** The variables of a stack: its own, then what each secrets file decrypts to. *)
Lemma BuildInlineEnv_value d stack sops :
  wp (BuildInlineEnv d stack sops) (fun t r => forall inline, r = Ok inline -> exists pairs,
    inline = st_EnvInline stack ++ concat pairs
    /\ Forall2 (fun p ps => Ev (host_of_detector d) (DecryptAndParse (secret_path stack p) (sops_options sops)) (Ok ps) ∈ t)
         (st_SopsSecrets stack) pairs).
Proof.
  unfold BuildInlineEnv. generalize (st_EnvInline stack) as acc. induction (st_SopsSecrets stack) as [|p ps IH]; intros acc.
  { apply wp_ret. intros inline [= <-]. exists []. by rewrite app_nil_r. }
  cbn [for_each_res]. apply wp_bind, wp_bind. wp_docall. intros [xs|e]; apply wp_ret; [|by apply wp_ret].
  eapply wp_mono; [apply IH|]. intros t r Hr inline Hi. destruct (Hr inline Hi) as (pairs & -> & HF).
  exists (xs :: pairs). split; [by rewrite <- (assoc_L (++))|]. constructor; [set_solver|].
  eapply Forall2_impl; [exact HF|]. intros; set_solver.
Qed.

(** What docker was asked for a stack, and what the verdict on a service is made of. *)
Record detected (docker : DockerClient) (stack : Stack) (identifier : string) (inline planned : list string)
    (t : list event) (info : ServiceInfo) : Prop := {
  d_container : exists ps, Ev docker (ComposePs (stack_args stack inline) (project_of stack)) ps ∈ t
    /\ si_Container info = last (filter (fun it => psi_Service it = si_Name info) match ps with Ok l => l | Err _ => [] end);
  d_missing : si_State info = ServiceMissing <-> si_Container info = None;
  d_hash : exists batch, Ev docker (ComposeConfigHashes (stack_args stack inline) (project_of stack) planned identifier) batch ∈ t
    /\ hash_known docker stack inline identifier (si_Name info) match batch with Ok h => h | Err _ => ∅ end t (si_DesiredHash info);
  d_running : si_State info = ServiceRunning -> exists c labels, si_Container info = Some c
    /\ labels_read docker identifier c t labels /\ up_to_date identifier labels info;
  d_mismatch : si_State info = ServiceIdentifierMismatch -> exists c labels, si_Container info = Some c
    /\ labels_read docker identifier c t labels /\ identifier <> "" /\ labels !! label_identifier <> Some identifier;
}.

Lemma labels_known_read docker i c (t : list event) labels (m : gmap string (gmap string string)) :
  (m = ∅ \/ exists names, Ev docker (InspectMultipleContainerLabels names (label_keys i)) (Ok (Some m)) ∈ t) ->
  labels_known docker i c m t labels -> labels_read docker i c t labels.
Proof.
  intros Hm [Hl|Hl]; [|by left]. destruct Hm as [->|[names Hm]]; [by apply lookup_empty_Some in Hl|].
  right. by exists names, m.
Qed.

Lemma judged_detected docker stack i inline planned ps batch m (t : list event) info :
  Ev docker (ComposePs (stack_args stack inline) (project_of stack)) ps ∈ t ->
  Ev docker (ComposeConfigHashes (stack_args stack inline) (project_of stack) planned i) batch ∈ t ->
  (m = ∅ \/ exists names, Ev docker (InspectMultipleContainerLabels names (label_keys i)) (Ok (Some m)) ∈ t) ->
  judged docker stack inline i (by_service match ps with Ok l => l | Err _ => [] end)
    match batch with Ok h => h | Err _ => ∅ end m t info ->
  detected docker stack i inline planned t info.
Proof.
  intros Hps Hb Hm [H1 H2 H3 H4 H5]. split.
  - exists ps. split; [done|]. by rewrite H1, by_service_last.
  - done.
  - by exists batch.
  - intros (c & l & ? & ? & ?)%H4. exists c, l. split_and!; [done|by eapply labels_known_read|done].
  - intros (c & l & ? & ? & ? & ?)%H5. exists c, l. split_and!; [done|by eapply labels_known_read|done..].
Qed.

(** C16: the verdicts on the services of a stack are right.  Whatever docker answers,
    the services are judged in the planned order, with the variables of the stack and
    of its decrypted secrets.  The container of a service is the last that [compose ps]
    listed for it (none when that failed), and it is reported missing exactly when it
    has none.  Its desired hash is the one docker compose computed for the stack with
    these variables and the identifier, for all services at once or, when that gave
    none, for this one; it is empty only if that failed too.  It is reported up to
    date only when labels of its container were read that carry the identifier (when
    one is set) and that hash (when there is one), so that a failed inspection never
    counts as up to date; and as somebody else's only when labels were read without
    the identifier. *)
Theorem DetectAllServicesState_sound `{MapRange} `{Schedule} d docker n stack identifier sops :
  det_docker d = Some docker ->
  wp (DetectAllServicesState d n stack identifier sops) (fun t r => forall infos, r = Ok infos ->
    exists pairs, Forall2 (fun p ps => Ev docker (DecryptAndParse (secret_path stack p) (sops_options sops)) (Ok ps) ∈ t)
                    (st_SopsSecrets stack) pairs
      /\ Forall (detected docker stack identifier (st_EnvInline stack ++ concat pairs) (si_Name <$> infos) t) infos).
Proof.
  intros Hd. unfold DetectAllServicesState. apply wp_bind. eapply wp_mono; [apply BuildInlineEnv_value|].
  intros t0 inline Hin. apply wp_try. destruct inline as [inline|e]; [|by intros infos [=]].
  destruct (Hin inline eq_refl) as (pairs & -> & HF). set (inline := st_EnvInline stack ++ concat pairs) in *.
  assert (host_of_detector d = docker) as Hhost by (unfold host_of_detector; by rewrite Hd). rewrite Hhost in HF.
  apply wp_bind. apply wp_true. intros t1 planned. apply wp_try. destruct planned as [planned|e]; [|by intros infos [=]].
  destruct planned as [|svc planned]; [apply wp_ret; intros infos [= <-]; exists pairs; split;
    [eapply Forall2_impl; [exact HF|]; intros; set_solver|constructor]|].
  set (all := svc :: planned). unfold GetRunningServices. rewrite Hd. apply wp_bind, wp_bind. wp_docall. intros ps.
  match goal with |- wp ?p _ => assert (p = mret (Ok (by_service match ps with Ok l => l | Err _ => [] end))) as ->
    by (by destruct ps) end.
  apply wp_ret. apply wp_try. cbv beta iota. apply wp_bind, wp_bind. wp_docall. intros batch. apply wp_ret.
  apply wp_bind. eapply (wp_mono _ (fun t m => m = ∅ \/ exists names,
    Ev docker (InspectMultipleContainerLabels names (label_keys identifier)) (Ok (Some m)) ∈ t)).
  { case_bool_decide; [apply wp_ret; by left|]. apply wp_bind. wp_docall. intros got. apply wp_ret.
    destruct got as [[m|]|]; [|by left..]. right. eexists. left. }
  intros t2 m Hm. eapply wp_mono with (Q := fun t r => forall infos, r = Ok infos -> si_Name <$> infos = all
    /\ Forall (judged docker stack inline identifier (by_service match ps with Ok l => l | Err _ => [] end)
         match batch with Ok h => h | Err _ => ∅ end m t) infos).
  { destruct (det_parallel d); [by apply parallel_judged|by apply sequential_judged]. }
  intros t3 r Hr infos Hi. destruct (Hr infos Hi) as [Hn HJ]. exists pairs. split.
  { eapply Forall2_impl; [exact HF|]. intros; set_solver. }
  rewrite Hn. eapply Forall_impl; [exact HJ|]. intros info Hj. eapply (judged_detected _ _ _ _ _ ps batch m).
  - set_solver.
  - set_solver.
  - destruct Hm as [?|[names Hm]]; [by left|right]. exists names. set_solver.
  - eapply judged_mono; [|exact Hj]. set_solver.
Qed.

(** ** Parallel and sequential detection agree *)

Lemma detect_never_fails d s n stack i inline r h l :
  wp (detectServiceStateFast d s n stack i inline r h l) (fun _ r => is_ok r = true).
Proof.
  unfold detectServiceStateFast. destruct (det_docker d) as [docker|]; [|by apply wp_ret].
  apply wp_bind. intros t desired _. destruct (r !! s) as [c|]; [|by apply wp_ret].
  apply wp_bind. intros t' [labels|e] _; by apply wp_ret.
Qed.

(** Storing every result at its index, in any order, yields the results in order. *)
Section InsertResults.
Context {A B : Type} (f : A -> B).
Let store (results : list B) (task : nat * A) : list B := <[task.1 := f task.2]> results.

Lemma store_length tasks acc : length (foldl store acc tasks) = length acc.
Proof.
  revert acc. induction tasks as [|t tasks IH]; intros acc; [done|]. cbn [foldl].
  rewrite IH. apply length_insert.
Qed.

Lemma store_other tasks acc i : i ∉ tasks.*1 -> foldl store acc tasks !! i = acc !! i.
Proof.
  revert acc. induction tasks as [|t tasks IH]; intros acc Hi; [done|]. cbn [foldl].
  apply not_elem_of_cons in Hi as [Hne Hi]. rewrite IH by done.
  by apply list_lookup_insert_ne.
Qed.

Lemma store_at tasks acc i x : NoDup tasks.*1 -> (i, x) ∈ tasks -> i < length acc ->
  foldl store acc tasks !! i = Some (f x).
Proof.
  revert acc. induction tasks as [|t tasks IH]; intros acc Hnd Hin Hi.
  { by apply elem_of_nil in Hin. }
  apply NoDup_cons in Hnd as [Hni Hnd]. cbn [foldl].
  apply elem_of_cons in Hin as [<-|Hin].
  - rewrite store_other by done. by apply list_lookup_insert_eq.
  - apply IH; [done..|]. unfold store. by rewrite length_insert.
Qed.

Lemma store_all (z : B) l tasks : tasks ≡ₚ imap pair l ->
  foldl store (replicate (length l) z) tasks = f <$> l.
Proof.
  intros Hp. apply list_eq. intros i. rewrite list_lookup_fmap.
  assert (NoDup tasks.*1) as Hnd.
  { rewrite Hp, fmap_imap. apply NoDup_alt. intros j k y. rewrite !list_lookup_imap.
    destruct (l !! j), (l !! k); simpl; intros; simplify_eq; done. }
  destruct (l !! i) as [x|] eqn:Hx; simpl.
  - apply store_at; [done| |].
    + rewrite Hp. apply elem_of_lookup_imap. by exists i, x.
    + rewrite length_replicate. by eapply lookup_lt_Some.
  - apply lookup_ge_None. rewrite store_length, length_replicate. by apply lookup_ge_None.
Qed.
End InsertResults.

Section ParallelFacts.
Context `{MapRange} `{Schedule} (answer : DockerClient -> forall c, resp c).
Context (d : ServiceStateDetector) (n : string) (stack : Stack) (identifier : string)
  (inline : list string) (running : gmap string ComposePsItem)
  (hashes : gmap string string) (labels : gmap string (gmap string string)).
Let detect (s : string) : prog (res ServiceInfo) :=
  detectServiceStateFast d s n stack identifier inline running hashes labels.

Lemma detect_value s : exists info, result_of answer (detect s) = Ok info.
Proof.
  pose proof (result_of_wp answer (detect s) (fun r => is_ok r = true)
    (detect_never_fails _ _ _ _ _ _ _ _ _)) as Hok.
  destruct (result_of answer (detect s)); [by eexists|done].
Qed.

Lemma sequential_value planned acc : exists infos,
  (fun s => result_of answer (detect s)) <$> planned = Ok <$> infos
  /\ result_of answer (for_each_res (fun results serviceName =>
       r ← detect serviceName;
       match r with
       | Err e => mret (Err (wrap "servicestate.DetectAllServicesStateSequential" External e
                    "failed to detect state for service %s/%s" [n; serviceName]))
       | Ok info => mret (Ok (results ++ [info]))
       end) acc planned) = Ok (acc ++ infos).
Proof.
  revert acc. induction planned as [|s planned IH]; intros acc.
  { exists []. split; [done|]. by rewrite app_nil_r. }
  destruct (detect_value s) as [info Hinfo].
  destruct (IH (acc ++ [info])) as (infos & Hv & Hr). exists (info :: infos).
  split; [rewrite !fmap_cons; by f_equal|]. cbn [for_each_res].
  rewrite !result_of_bind, Hinfo. unfold result_of at 1. simpl.
  unfold result_of in Hr. rewrite Hr. by rewrite <- (assoc_L (++)).
Qed.

Lemma collect_ok planned infos : length planned = length infos ->
  collect_results n planned (Ok <$> infos) = Ok infos.
Proof.
  revert infos. induction planned as [|s planned IH]; intros [|info infos]; try done.
  intros [= Hl]. rewrite fmap_cons. cbn [collect_results]. by rewrite (IH infos Hl).
Qed.

Lemma parallel_value planned infos :
  (fun s => result_of answer (detect s)) <$> planned = Ok <$> infos ->
  result_of answer (detectAllServicesStateParallel d n stack identifier inline running hashes
    labels planned) = Ok infos.
Proof.
  intros Hv. unfold detectAllServicesStateParallel. rewrite result_of_bind.
  rewrite (result_of_for_each answer _
    (fun results task => <[task.1 := result_of answer (detect task.2)]> results)).
  2: { intros s x. by rewrite result_of_bind. }
  rewrite (store_all (fun s => result_of answer (detect s))) by apply schedule_perm.
  rewrite Hv. unfold result_of; simpl. apply collect_ok.
  apply (f_equal length) in Hv. by rewrite !length_fmap in Hv.
Qed.
End ParallelFacts.

(** Parallel detection changes nothing.  Against a daemon whose answers do not
    change while it is asked, detecting the services of a stack concurrently gives,
    for every order in which the goroutines finish, exactly the list the sequential
    loop gives, in the planned order. *)
Theorem detectAll_parallel_sequential `{MapRange} `{Schedule} answer d n stack identifier inline
    running hashes labels planned :
  result_of answer (detectAllServicesStateParallel d n stack identifier inline running hashes
    labels planned)
  = result_of answer (detectAllServicesStateSequential d n stack identifier inline running hashes
      labels planned).
Proof.
  destruct (sequential_value answer d n stack identifier inline running hashes labels planned [])
    as (infos & Hv & Hs).
  rewrite (parallel_value _ _ _ _ _ _ _ _ _ _ _ Hv). unfold detectAllServicesStateSequential.
  by rewrite Hs.
Qed.

(** Two services planned; the labels of the one that runs are as they should be. *)
Definition labelling (client : DockerClient) (c : call) : resp c :=
  match c as c return resp c with
  | InspectContainerLabels _ _ => Ok {[label_hash := "hash of web"; label_identifier := "id"]}
  | c => healthy [] [] [mkPs "app" "web" "web-1"] ["web"; "db"] (NFile 0 "") client c
  end.
Definition labelled_detection : prog (res (list ServiceInfo)) :=
  DetectAllServicesState (mkDetector (Some "prod") true) "app" empty_stack "id" None.

Lemma DetectAllServicesState_sound_witness :
  exists db web, (run labelling labelled_detection).2 = Ok [db; web]
    /\ si_State db = ServiceMissing /\ si_State web = ServiceRunning /\ si_DesiredHash web = "hash of web"
    /\ Forall (detected "prod" empty_stack "id" [] ["db"; "web"] (run labelling labelled_detection).1) [db; web].
Proof.
  eexists _, _. match goal with |- ?A /\ _ => assert A as Hr by (vm_compute; reflexivity) end.
  split; [exact Hr|]. split_and!; [reflexivity..|].
  destruct (DetectAllServicesState_sound (mkDetector (Some "prod") true) "prod" "app" empty_stack "id" None
    eq_refl _ _ (run_exec labelling labelled_detection) _ Hr) as (pairs & HF & HJ).
  apply Forall2_nil_inv_l in HF as ->. exact HJ.
Defined.
