(* ===== verification/Resource.v ===== *)
(** * Planned resources and their rendering ([internal/planner/resource.go],
    [internal/ui/ui.go])

    The actions a plan lists, their counts, and the two renderings of a plan:
    complete, and changes only.  Terminal styles are a library (lipgloss): how a
    style renders a text is a parameter. *)

From S2P Require Import Prelude GoStrings GoPath Apperr Util.

(** ** Terminal output *)

Inductive ChangeType := Info | Noop | Add | Remove | Change.
#[global] Instance ChangeType_eq_dec : EqDecision ChangeType.
Proof. solve_decision. Defined.

Record DiffLine := mkLine { dl_Type : ChangeType; dl_Message : string }.

Inductive NestedSection :=
  mkSection (Title : string) (Items : list DiffLine) (Sections : list NestedSection)
    (Footer : list DiffLine).
Definition ns_Title (s : NestedSection) : string := let '(mkSection t _ _ _) := s in t.
Definition ns_Items (s : NestedSection) : list DiffLine := let '(mkSection _ i _ _) := s in i.
Definition ns_Sections (s : NestedSection) : list NestedSection := let '(mkSection _ _ n _) := s in n.
Definition ns_Footer (s : NestedSection) : list DiffLine := let '(mkSection _ _ _ f) := s in f.

(** The styles of the [ui] package. *)
Inductive style :=
| styleInfo | styleNoop | styleAdd | styleRemove | styleChange | styleSectionTitle
| styleUsingTitle | styleNestedSectionTitle | styleMuted | styleItalicName | styleBold.

Class Styles := { render : style -> string -> string }.

(** No styling: what a terminal without colours shows. *)
#[global] Instance plain_styles : Styles | 100 := {| render _ s := s |}.

Definition StripRedundantPrefixes (message sectionType : string) : string :=
  if bool_decide (sectionType = "Volumes") then
    if HasPrefix message "volume " then TrimPrefix message "volume " else message
  else if bool_decide (sectionType = "Networks") then
    if HasPrefix message "network " then TrimPrefix message "network " else message
  else message.

Section Rendering.
Context `{Styles}.

Definition Italic (s : string) : string := render styleItalicName s.

Definition getIconForChangeType (t : ChangeType) : string :=
  match t with
  | Info => render styleInfo ""
  | Noop => render styleNoop "✓"
  | Add => render styleAdd "↑"
  | Remove => render styleRemove "×"
  | Change => render styleChange "→"
  end.

Definition has_content (s : NestedSection) : bool :=
  negb (bool_decide (ns_Items s = [])) || negb (bool_decide (length (ns_Sections s) = 0))
  || negb (bool_decide (ns_Footer s = [])).

Definition render_item (indent sectionTitle : string) (l : DiffLine) : string :=
  indent +:+ getIconForChangeType (dl_Type l) +:+ " "
  +:+ StripRedundantPrefixes (dl_Message l) sectionTitle +:+ nl.

Definition render_nested (sectionTitle : string) (s : NestedSection) : string :=
  match ns_Items s with
  | [] => ""
  | items =>
      (if bool_decide (ns_Title s <> "")
       then "  " +:+ render styleNestedSectionTitle (ns_Title s) +:+ nl else "")
      +:+ Join (render_item "    " sectionTitle <$> items) ""
  end.

Definition render_section (s : NestedSection) : string :=
  let titleStyle := if bool_decide (ns_Title s = "Using") then styleUsingTitle
                    else styleSectionTitle in
  render titleStyle (ns_Title s) +:+ nl
  +:+ Join (render_item "  " (ns_Title s) <$> ns_Items s) ""
  +:+ Join (render_nested (ns_Title s) <$> ns_Sections s) ""
  +:+ Join ((fun l => "  " +:+ render styleMuted (dl_Message l) +:+ nl) <$> ns_Footer s) "".

(** Sections with content, a blank line before the first and between them. *)
Definition RenderNestedSections (sections : list NestedSection) : string :=
  match filter (fun s => has_content s = true) sections with
  | [] => ""
  | ss => nl +:+ Join (render_section <$> ss) nl
  end.

Definition FormatPlanSummary (createCount changeCount destroyCount : nat) : string :=
  render styleBold "Plan:"
  +:+ Sprintf " %d to create, %d to change, and %d to destroy"
        [Itoa_nat createCount; Itoa_nat changeCount; Itoa_nat destroyCount] +:+ nl.
End Rendering.

(** ** Resources *)

Inductive Action := ActionCreate | ActionUpdate | ActionDelete | ActionReconcile | ActionNoop.
#[global] Instance Action_eq_dec : EqDecision Action.
Proof. solve_decision. Defined.

Definition action_string (a : Action) : string :=
  match a with
  | ActionCreate => "create" | ActionUpdate => "update" | ActionDelete => "delete"
  | ActionReconcile => "reconcile" | ActionNoop => "no-op"
  end.

Inductive ResourceType :=
| ResourceVolume | ResourceNetwork | ResourceService | ResourceContainer | ResourceFileset
| ResourceFile.

Definition actionToChangeType (a : Action) : ChangeType :=
  match a with
  | ActionCreate => Add
  | ActionUpdate => Change
  | ActionDelete => Remove
  | ActionReconcile => Change
  | ActionNoop => Noop
  end.

Record Resource := mkResource {
  r_Type : ResourceType; r_Name : string; r_Action : Action; r_Details : string;
  r_Parent : string; r_ChangeType : ChangeType }.

Definition NewResource (t : ResourceType) (name : string) (a : Action) (details : string) : Resource :=
  mkResource t name a details "" (actionToChangeType a).

Definition NewNestedResource (t : ResourceType) (name parent : string) (a : Action)
    (details : string) : Resource :=
  let res := NewResource t name a details in
  mkResource (r_Type res) (r_Name res) (r_Action res) (r_Details res) parent (r_ChangeType res).

Record ResourcePlan := mkPlan {
  rp_Volumes : list Resource; rp_Networks : list Resource;
  rp_Stacks : gmap string (list Resource); rp_Filesets : gmap string (list Resource);
  rp_Containers : list Resource }.

Definition empty_plan : ResourcePlan := mkPlan [] [] ∅ ∅ [].

Definition FormatAction (r : Resource) : string :=
  match r_Action r with
  | ActionCreate => "will be created"
  | ActionUpdate => "will be updated"
  | ActionDelete => "will be deleted"
  | ActionReconcile =>
      if bool_decide (r_Details r <> "")
      then Sprintf "will be reconciled (%s)" [r_Details r] else "will be reconciled"
  | ActionNoop => if bool_decide (r_Details r <> "") then r_Details r else "up-to-date"
  end.

(** ** Counting *)

Record counts := mkCounts { c_create : nat; c_update : nat; c_delete : nat }.
Definition no_counts : counts := mkCounts 0 0 0.

Definition countResource (c : counts) (r : Resource) : counts :=
  match r_Action r with
  | ActionCreate => mkCounts (S (c_create c)) (c_update c) (c_delete c)
  | ActionUpdate | ActionReconcile => mkCounts (c_create c) (S (c_update c)) (c_delete c)
  | ActionDelete => mkCounts (c_create c) (c_update c) (S (c_delete c))
  | ActionNoop => c
  end.

Definition summarizeFileActions (rs : list Resource) : counts := foldl countResource no_counts rs.

(** The entries of a map of lists; a count over them does not depend on the order. *)
Definition entries {A} (m : gmap string (list A)) : list A := mjoin (snd <$> map_to_list m).

(** Fileset lines count only when they name a file and do something. *)
Definition file_operation (r : Resource) : bool :=
  bool_decide (r_Name r <> "") && bool_decide (r_Action r <> ActionNoop).

Definition counted (rp : ResourcePlan) : list Resource :=
  rp_Volumes rp ++ rp_Networks rp ++ entries (rp_Stacks rp)
  ++ filter (fun r => file_operation r = true) (entries (rp_Filesets rp)) ++ rp_Containers rp.

Definition CountActions (rp : ResourcePlan) : counts := summarizeFileActions (counted rp).

Definition countNoop (rs : list Resource) : nat :=
  length (filter (fun r => r_Action r = ActionNoop) rs).

Definition totalUnits (rp : ResourcePlan) : nat :=
  length (rp_Volumes rp) + length (rp_Networks rp) + length (rp_Containers rp)
  + size (rp_Filesets rp) + length (entries (rp_Stacks rp)).

Definition AllResources (rp : ResourcePlan) : list Resource :=
  rp_Volumes rp ++ rp_Networks rp ++ entries (rp_Stacks rp) ++ entries (rp_Filesets rp)
  ++ rp_Containers rp.

(** ** The sections of a plan *)

Definition filesetChangedFileCap : nat := 10.

(** The entries of a map, sorted by key. *)
Definition sorted_entries {A} (m : gmap string A) : list (string * A) :=
  omap (fun k => pair k <$> m !! k) (sorted_keys m).

Section Sections.
Context `{Styles}.

Definition formatResourceLine (r : Resource) : DiffLine :=
  mkLine (r_ChangeType r) (Sprintf "%s %s" [Italic (r_Name r); FormatAction r]).

Definition formatFilesetItem (r : Resource) : DiffLine :=
  mkLine (r_ChangeType r)
    (if bool_decide (r_Name r <> "")
     then Sprintf "%s %s" [action_string (r_Action r); Italic (r_Name r)] else FormatAction r).

Definition appendPlanSummary (result : string) (rp : ResourcePlan) : string :=
  let c := CountActions rp in
  if (0 <? c_create c) || (0 <? c_update c) || (0 <? c_delete c) then
    (if bool_decide (result <> "") then result +:+ nl else result)
    +:+ FormatPlanSummary (c_create c) (c_update c) (c_delete c)
  else result.

(** *** The complete plan *)

Definition flat_section (title : string) (rs : list Resource) : list NestedSection :=
  match rs with [] => [] | _ => [mkSection title (formatResourceLine <$> rs) [] []] end.

(** The line of a fileset item in the complete plan. *)
Definition full_fileset_line (r : Resource) : DiffLine :=
  mkLine (r_ChangeType r)
    (if bool_decide (r_Action r = ActionNoop)
     then (if bool_decide (r_Details r = "") then "no file changes" else r_Details r)
     else if bool_decide (r_Name r <> "")
     then Sprintf "%s %s" [action_string (r_Action r); Italic (r_Name r)]
     else FormatAction r).

Definition group_section (title : string) (line : Resource -> DiffLine)
    (groups : gmap string (list Resource)) : list NestedSection :=
  let subs := (fun e => mkSection e.1 (line <$> e.2) [] [])
                <$> filter (fun e => e.2 <> []) (sorted_entries groups) in
  match subs with [] => [] | _ => [mkSection title [] subs []] end.

Definition full_sections (rp : ResourcePlan) : list NestedSection :=
  flat_section "Volumes" (rp_Volumes rp) ++ flat_section "Networks" (rp_Networks rp)
  ++ group_section "Stacks" formatResourceLine (rp_Stacks rp)
  ++ group_section "Filesets" full_fileset_line (rp_Filesets rp)
  ++ flat_section "Containers" (rp_Containers rp).

Definition renderResourcePlanFull (rp : ResourcePlan) : string :=
  appendPlanSummary (RenderNestedSections (full_sections rp)) rp.

(** *** Changes only *)

Definition changes (rs : list Resource) : list Resource :=
  filter (fun r => r_Action r <> ActionNoop) rs.

Definition unchanged_footer (n : nat) : list DiffLine :=
  if 0 <? n then [mkLine Info (Sprintf "%d unchanged" [Itoa_nat n])] else [].

Definition buildFlatSection (title : string) (rs : list Resource) : list NestedSection :=
  match rs with
  | [] => []
  | _ => [mkSection title (formatResourceLine <$> changes rs) [] (unchanged_footer (countNoop rs))]
  end.

Definition changed_stacks (stacks : gmap string (list Resource)) : list NestedSection :=
  if bool_decide (stacks = ∅) then [] else
  let es := sorted_entries stacks in
  [mkSection "Stacks" []
     ((fun e => mkSection e.1 (formatResourceLine <$> changes e.2) [] [])
        <$> filter (fun e => changes e.2 <> []) es)
     (unchanged_footer (sum_list (countNoop ∘ snd <$> es)))].

(** The lines of a changed fileset: the first ten, and a count of the rest. *)
Definition changed_lines (changedFiles : list Resource) : list DiffLine :=
  (formatFilesetItem <$> take filesetChangedFileCap changedFiles)
  ++ (if filesetChangedFileCap <? length changedFiles then
        let remaining := drop filesetChangedFileCap changedFiles in
        let c := summarizeFileActions remaining in
        [mkLine Info (Sprintf "… and %d more changed (%d created, %d updated, %d deleted)"
           [Itoa_nat (length remaining); Itoa_nat (c_create c); Itoa_nat (c_update c);
            Itoa_nat (c_delete c)])]
      else []).

Definition fileset_unchanged (items : list Resource) : bool :=
  countNoop items =? length items.

Definition changed_filesets (fss : gmap string (list Resource)) : list NestedSection :=
  if bool_decide (fss = ∅) then [] else
  let es := sorted_entries fss in
  [mkSection "Filesets" []
     ((fun e => mkSection e.1 (changed_lines (changes e.2)) [] [])
        <$> filter (fun e => fileset_unchanged e.2 = false) es)
     (unchanged_footer (length (filter (fun e => fileset_unchanged e.2 = true) es)))].

Definition changes_sections (rp : ResourcePlan) : list NestedSection :=
  buildFlatSection "Volumes" (rp_Volumes rp) ++ buildFlatSection "Networks" (rp_Networks rp)
  ++ changed_stacks (rp_Stacks rp) ++ changed_filesets (rp_Filesets rp)
  ++ buildFlatSection "Containers" (rp_Containers rp).

Definition renderResourcePlanChangesOnly (rp : ResourcePlan) : string :=
  let c := CountActions rp in
  if (c_create c =? 0) && (c_update c =? 0) && (c_delete c =? 0)
  then Sprintf "No changes. %d resources up to date." [Itoa_nat (totalUnits rp)]
  else appendPlanSummary (RenderNestedSections (changes_sections rp)) rp.

Definition RenderResourcePlanOpts (rp : ResourcePlan) (full : bool) : string :=
  if full then renderResourcePlanFull rp else renderResourcePlanChangesOnly rp.
End Sections.

(** ** Counting is exact *)

Definition is_action (a : Action) (r : Resource) : Prop := r_Action r = a.
#[global] Instance is_action_dec a r : Decision (is_action a r).
Proof. unfold is_action. apply _. Defined.

Definition updates (r : Resource) : Prop :=
  r_Action r = ActionUpdate \/ r_Action r = ActionReconcile.
#[global] Instance updates_dec r : Decision (updates r).
Proof. unfold updates. apply _. Defined.

Lemma foldl_countResource rs c :
  foldl countResource c rs =
    mkCounts (c_create c + length (filter (is_action ActionCreate) rs))
      (c_update c + length (filter updates rs))
      (c_delete c + length (filter (is_action ActionDelete) rs)).
Proof.
  revert c. induction rs as [|r rs IH]; intros c; cbn [foldl].
  { rewrite !filter_nil. simpl. rewrite !Nat.add_0_r. by destruct c. }
  rewrite IH, !filter_cons. unfold countResource.
  repeat case_decide; unfold is_action, updates in *;
    destruct (r_Action r); simpl; (f_equal; lia) || naive_solver.
Qed.

Lemma counts_total rs : Forall (fun r => r_Action r <> ActionNoop) rs ->
  let c := summarizeFileActions rs in c_create c + c_update c + c_delete c = length rs.
Proof.
  intros Hrs. cbv zeta. unfold summarizeFileActions. rewrite foldl_countResource. simpl.
  induction Hrs as [|r rs Hr _ IH]; [done|]. rewrite !filter_cons.
  repeat case_decide; simpl; unfold is_action, updates in *;
    destruct (r_Action r); lia || naive_solver.
Qed.

Lemma CountActions_zero rp :
  CountActions rp = no_counts <-> Forall (fun r => r_Action r = ActionNoop) (counted rp).
Proof.
  unfold CountActions, summarizeFileActions. rewrite foldl_countResource. unfold no_counts. simpl.
  split.
  - intros [= H1 H2 H3]. apply nil_length_inv in H1, H2, H3. apply Forall_forall. intros r Hr.
    assert (forall P `{forall x, Decision (P x)}, filter P (counted rp) = [] -> ~ P r) as Hno.
    { intros P ? Hf HP. assert (r ∈ filter P (counted rp)) as Hin by (by apply list_elem_of_filter).
      rewrite Hf in Hin. by apply elem_of_nil in Hin. }
    apply Hno in H1, H2, H3. unfold is_action, updates in *. destruct (r_Action r); naive_solver.
  - intros HF. assert (forall P `{forall x, Decision (P x)},
      (forall r, r_Action r = ActionNoop -> ~ P r) -> filter P (counted rp) = []) as Hno.
    { intros P ? HP. apply list_eq_nil_elem. intros r [HPr Hin]%list_elem_of_filter.
      rewrite Forall_forall in HF. by apply (HP r); [apply HF|]. }
    rewrite !Hno; [done|..]; unfold is_action, updates; intros r ->; naive_solver.
Qed.

(** ** Nothing that changes is hidden *)

Lemma elem_of_sorted_entries {A} (m : gmap string A) k v :
  (k, v) ∈ sorted_entries m <-> m !! k = Some v.
Proof.
  unfold sorted_entries. rewrite list_elem_of_omap. split.
  - intros (k' & _ & Hk). destruct (m !! k') eqn:Hm; simplify_eq/=. done.
  - intros Hm. exists k. rewrite elem_of_sorted_keys, Hm. by split; [eexists|].
Qed.

Lemma sorted_entries_empty {A} (m : gmap string A) k v : m !! k = Some v -> m <> ∅.
Proof. intros Hm ->. by rewrite lookup_empty in Hm. Qed.

Section ChangesFacts.
Context `{Styles}.

Lemma elem_of_changes r rs : r ∈ changes rs <-> r ∈ rs /\ r_Action r <> ActionNoop.
Proof. unfold changes. rewrite list_elem_of_filter. naive_solver. Qed.

Lemma flat_section_shows title rs r : r ∈ rs -> r_Action r <> ActionNoop ->
  exists s, s ∈ buildFlatSection title rs /\ formatResourceLine r ∈ ns_Items s.
Proof.
  intros Hin Hr. unfold buildFlatSection. destruct rs as [|r0 rs]; [by apply elem_of_nil in Hin|].
  eexists. split; [left|]. simpl. apply list_elem_of_fmap_2, elem_of_changes. done.
Qed.

Lemma fileset_unchanged_iff items : fileset_unchanged items = true <-> changes items = [].
Proof.
  unfold fileset_unchanged, countNoop, changes. rewrite Nat.eqb_eq.
  induction items as [|r items IH]; [done|]. rewrite !filter_cons.
  repeat case_decide; simpl; try done.
  - split; [intros [= Hl]; by apply IH|]. intros Hc%IH. by rewrite Hc.
  - split; [|done]. intros Hl. exfalso.
    assert (S (length items) <= length items) by (rewrite <- Hl; apply length_filter). lia.
Qed.
End ChangesFacts.

(** Changes-only output hides no change.  Every volume, network and container
    with a pending action has its line in a section, every service with one has its
    line under its stack, and every fileset with pending file operations has its
    own subsection. *)
Theorem changes_only_complete `{Styles} rp :
  (forall r, r ∈ rp_Volumes rp ++ rp_Networks rp ++ rp_Containers rp ->
     r_Action r <> ActionNoop ->
     exists s, s ∈ changes_sections rp /\ formatResourceLine r ∈ ns_Items s)
  /\ (forall name rs r, rp_Stacks rp !! name = Some rs -> r ∈ rs -> r_Action r <> ActionNoop ->
     exists s sub, s ∈ changes_sections rp /\ sub ∈ ns_Sections s /\ ns_Title sub = name
       /\ formatResourceLine r ∈ ns_Items sub)
  /\ (forall name rs r, rp_Filesets rp !! name = Some rs -> r ∈ rs -> r_Action r <> ActionNoop ->
     exists s sub, s ∈ changes_sections rp /\ sub ∈ ns_Sections s /\ ns_Title sub = name
       /\ ns_Items sub = changed_lines (changes rs)).
Proof.
  unfold changes_sections. split_and!.
  - intros r Hr Ha. rewrite !elem_of_app in Hr. destruct Hr as [Hr|[Hr|Hr]];
      [destruct (flat_section_shows "Volumes" _ _ Hr Ha) as (s & Hs & Hl)
      |destruct (flat_section_shows "Networks" _ _ Hr Ha) as (s & Hs & Hl)
      |destruct (flat_section_shows "Containers" _ _ Hr Ha) as (s & Hs & Hl)];
      exists s; (split; [|exact Hl]); rewrite !elem_of_app; tauto.
  - intros name rs r Hrs Hr Ha.
    eexists _, (mkSection name (formatResourceLine <$> changes rs) [] []). split.
    { rewrite !elem_of_app. do 2 right. left. unfold changed_stacks.
      rewrite bool_decide_false by (by eapply sorted_entries_empty). left. }
    simpl. split; [|split; [done|apply list_elem_of_fmap_2, (elem_of_changes r rs); done]].
    apply list_elem_of_fmap. exists (name, rs). split; [done|]. apply list_elem_of_filter.
    rewrite elem_of_sorted_entries. split; [|done]. simpl. intros Hc.
    assert (r ∈ changes rs) as Hin by (by apply elem_of_changes). rewrite Hc in Hin.
    by apply elem_of_nil in Hin.
  - intros name rs r Hrs Hr Ha.
    eexists _, (mkSection name (changed_lines (changes rs)) [] []). split.
    { rewrite !elem_of_app. do 3 right. left. unfold changed_filesets.
      rewrite bool_decide_false by (by eapply sorted_entries_empty). left. }
    simpl. split; [|done].
    apply list_elem_of_fmap. exists (name, rs). split; [done|]. apply list_elem_of_filter.
    rewrite elem_of_sorted_entries. split; [|done]. simpl. apply not_true_is_false.
    rewrite fileset_unchanged_iff. intros Hc.
    assert (r ∈ changes rs) as Hin by (by apply elem_of_changes). rewrite Hc in Hin.
    by apply elem_of_nil in Hin.
Qed.

(** The cap on fileset lines loses nothing.  A fileset with up to ten changed
    files lists them all; beyond that, the first ten are listed and one more line
    gives the number of the others, whose created, updated and deleted counts add
    up to it. *)
Theorem changed_lines_account `{Styles} (cs : list Resource) :
  Forall (fun r => r_Action r <> ActionNoop) cs ->
  if decide (length cs <= filesetChangedFileCap)
  then changed_lines cs = formatFilesetItem <$> cs
  else exists c, changed_lines cs = (formatFilesetItem <$> take filesetChangedFileCap cs)
         ++ [mkLine Info (Sprintf "… and %d more changed (%d created, %d updated, %d deleted)"
               [Itoa_nat (length cs - filesetChangedFileCap); Itoa_nat (c_create c);
                Itoa_nat (c_update c); Itoa_nat (c_delete c)])]
       /\ c = summarizeFileActions (drop filesetChangedFileCap cs)
       /\ c_create c + c_update c + c_delete c = length cs - filesetChangedFileCap.
Proof.
  intros Hcs. unfold changed_lines. case_decide as Hl.
  - rewrite (proj2 (Nat.ltb_ge _ _) Hl), app_nil_r, take_ge by done. done.
  - apply Nat.nle_gt in Hl. rewrite (proj2 (Nat.ltb_lt _ _) Hl).
    eexists. split; [by rewrite length_drop|]. split; [done|].
    rewrite counts_total; [by rewrite length_drop|]. by apply Forall_drop.
Qed.

Lemma changed_lines_account_witness :
  let f i := NewResource ResourceFile ("f" +:+ Itoa_nat i) ActionCreate "" in
  exists c, changed_lines (f <$> seq 0 12) =
      (formatFilesetItem <$> take 10 (f <$> seq 0 12))
      ++ [mkLine Info "… and 2 more changed (2 created, 0 updated, 0 deleted)"]
    /\ c_create c = 2.
Proof.
  intros f.
  destruct (changed_lines_account (f <$> seq 0 12)) as (c & Hl & Hc & _).
  - apply Forall_fmap, Forall_true. done.
  - exists c. rewrite Hl, Hc. split; vm_compute; reflexivity.
Defined.
