(* ===== verification/Plan.v ===== *)
(** * Building a plan ([internal/planner/types.go], [core.go], [build_plan.go],
    [build_plan_stacks.go], [build_plan_filesets.go])

    The plan of a context lists its volumes, networks, services and files with the
    action each needs, and keeps the data it was computed from for [apply]. *)

From S2P Require Import Prelude GoStrings GoPath Apperr Util Manifest Filesets Effects Docker ServiceState Resource.

(** The glob matcher of the exclude patterns ([doublestar.PathMatch]). *)
Class Glob := { PathMatch : string -> string -> bool }.

(** ** Data *)

(** A planner: its single client, whether it has a client factory, parallelism. *)
Record Planner := mkPlanner {
  pl_docker : option DockerClient; pl_factory : bool; pl_parallel : bool }.

(** The factory gives every context a client of its own. *)
Definition getClientForContext (p : Planner) (contextName : string) : option DockerClient :=
  if pl_factory p then Some contextName else pl_docker p.

Record StackExecutionData := mkStackExec {
  se_Services : list ServiceInfo; se_InlineEnv : list string; se_NeedsApply : bool }.

Record FilesetExecutionData := mkFilesetExec {
  fe_LocalIndex : Index; fe_RemoteIndex : Index; fe_Diff : Diff }.

Record ContextExecutionContext := mkExecCtx {
  ec_ContextName : string; ec_Identifier : string;
  ec_Stacks : gmap string StackExecutionData;
  ec_Filesets : gmap string FilesetExecutionData;
  ec_ExistingVolumes : gset string; ec_ExistingNetworks : gset string }.

Definition NewContextExecutionContext (contextName identifier : string) : ContextExecutionContext :=
  mkExecCtx contextName identifier ∅ ∅ ∅ ∅.

Record ContextPlan := mkContextPlan {
  cp_ContextName : string; cp_Identifier : string; cp_Resources : ResourcePlan }.

Record Plan := mkFullPlan {
  pn_ByContext : gmap string ContextPlan;
  pn_Resources : option ResourcePlan;
  pn_ExecutionContext : option (gmap string ContextExecutionContext) }.

Definition GetContextExecutionContext (pln : Plan) (contextName : string)
  : option ContextExecutionContext := pn_ExecutionContext pln ≫= lookup contextName.

Definition GetContextNames (pln : Plan) : list string := sorted_keys (pn_ByContext pln).

Definition CountChanges (pln : Plan) : counts :=
  match pn_Resources pln with None => no_counts | Some rp => CountActions rp end.

Definition plan_IsEmpty (pln : Plan) : bool :=
  let c := CountChanges pln in (c_create c =? 0) && (c_update c =? 0) && (c_delete c =? 0).

Definition plan_Render `{Styles} (pln : Plan) (full : bool) : string :=
  match pn_Resources pln with
  | None => "[no plan]"
  | Some rp => RenderResourcePlanOpts rp full
  end.

(** Updates of the plan and of the execution context under construction. *)
Definition set_stack (name : string) (rs : list Resource) (rp : ResourcePlan) : ResourcePlan :=
  mkPlan (rp_Volumes rp) (rp_Networks rp) (<[name := rs]> (rp_Stacks rp)) (rp_Filesets rp)
    (rp_Containers rp).
Definition add_to_stack (name : string) (r : Resource) (rp : ResourcePlan) : ResourcePlan :=
  set_stack name (default [] (rp_Stacks rp !! name) ++ [r]) rp.
Definition set_fileset (name : string) (rs : list Resource) (rp : ResourcePlan) : ResourcePlan :=
  mkPlan (rp_Volumes rp) (rp_Networks rp) (rp_Stacks rp) (<[name := rs]> (rp_Filesets rp))
    (rp_Containers rp).
Definition add_volumes (rs : list Resource) (rp : ResourcePlan) : ResourcePlan :=
  mkPlan (rp_Volumes rp ++ rs) (rp_Networks rp) (rp_Stacks rp) (rp_Filesets rp) (rp_Containers rp).
Definition add_networks (rs : list Resource) (rp : ResourcePlan) : ResourcePlan :=
  mkPlan (rp_Volumes rp) (rp_Networks rp ++ rs) (rp_Stacks rp) (rp_Filesets rp) (rp_Containers rp).
Definition set_exec_stack (name : string) (d : StackExecutionData) (ec : ContextExecutionContext)
  : ContextExecutionContext :=
  mkExecCtx (ec_ContextName ec) (ec_Identifier ec) (<[name := d]> (ec_Stacks ec)) (ec_Filesets ec)
    (ec_ExistingVolumes ec) (ec_ExistingNetworks ec).
Definition set_exec_fileset (name : string) (d : FilesetExecutionData)
    (ec : ContextExecutionContext) : ContextExecutionContext :=
  mkExecCtx (ec_ContextName ec) (ec_Identifier ec) (ec_Stacks ec) (<[name := d]> (ec_Filesets ec))
    (ec_ExistingVolumes ec) (ec_ExistingNetworks ec).
Definition set_existing (vols nets : gset string) (ec : ContextExecutionContext)
  : ContextExecutionContext :=
  mkExecCtx (ec_ContextName ec) (ec_Identifier ec) (ec_Stacks ec) (ec_Filesets ec) vols nets.

(** ** Services *)

Definition service_resource (service : ServiceInfo) : Resource :=
  match si_State service with
  | ServiceMissing => NewResource ResourceService (si_Name service) ActionCreate ""
  | ServiceIdentifierMismatch =>
      NewResource ResourceService (si_Name service) ActionReconcile "identifier mismatch"
  | ServiceDrifted => NewResource ResourceService (si_Name service) ActionUpdate "config drift"
  | ServiceRunning =>
      NewResource ResourceService (si_Name service) ActionNoop
        (if bool_decide (si_DesiredHash service <> "") then "up-to-date" else "running")
  end.
Definition serviceStatesToResources (services : list ServiceInfo) : list Resource :=
  service_resource <$> services.

Definition fallbackStackResource : list Resource :=
  [NewResource ResourceService "services" ActionNoop "planned (services diff TBD)"].

(** ** Networks *)

(** Existing networks that are neither desired nor owned by a compose stack. *)
Definition orphanNetworks `{MapRange} (existing desired composeOwned : gset string) : list string :=
  filter (fun n => n ∉ desired /\ n ∉ composeOwned) (set_range "orphan networks" existing).

Definition getComposeOwnedNetworks (client : DockerClient) : prog (res (gset string)) :=
  nets ← do_call client ListComposeNetworks;
  match nets with
  | Err e => mret (Err (wrap "planner.getComposeOwnedNetworks" External e
                          "list compose-owned networks" []))
  | Ok nets => mret (Ok (list_to_set nets))
  end.

Definition collectDesiredServicesForContext `{MapRange} (cfg : Config) (stacks : gmap string Stack)
    (client : option DockerClient) : prog (res (gset string)) :=
  match client with
  | None => mret (Ok ∅)
  | Some _ =>
      let detector := NewServiceStateDetector client in
      for_each_res (fun desired (e : string * Stack) =>
        inline ← BuildInlineEnv detector e.2 (cfg_Sops cfg);
        try inline id (fun inline =>
        names ← GetPlannedServices detector e.2 inline;
        try names (fun err => wrap "planner.collectDesiredServicesForContext" External err
                     "list planned services for stack %s" [st_Root e.2])
          (fun names => mret (Ok (list_to_set names ∪ desired)))))
        ∅ (map_range "desired services" stacks)
  end.

(** The two listings run concurrently; their failures are gathered as they come. *)
Definition getExistingResourcesForClient `{Schedule} (client : DockerClient)
  : prog (gset string * gset string * option error) :=
  let op := "planner.getExistingResourcesForClient" in
  r ← for_each (fun '(vols, nets, errs) (task : bool) =>
        if task then
          l ← do_call client ListVolumes;
          match l with
          | Err e => mret (vols, nets, errs ++ [Some (wrap op External e "list existing volumes" [])])
          | Ok l => mret (list_to_set l ∪ vols, nets, errs)
          end
        else
          l ← do_call client ListNetworks;
          match l with
          | Err e => mret (vols, nets, errs ++ [Some (wrap op External e "list existing networks" [])])
          | Ok l => mret (vols, list_to_set l ∪ nets, errs)
          end)
      (∅, ∅, []) (schedule "existing resources" [true; false]);
  let '(vols, nets, errs) := r in
  mret (vols, nets, Aggregate op External "failed to discover existing docker resources" errs).

(** ** Stacks *)

Section PlanStacks.
Context `{MapRange} `{Schedule}.
Context (cfg : Config) (contextName : string) (stacks : gmap string Stack)
  (identifier : string) (client : DockerClient).

(** The analysis of one stack: its lines, its execution data, its error. *)
Record stackResult := mkStackResult {
  sr_name : string; sr_resources : list Resource; sr_execData : option StackExecutionData;
  sr_err : option error }.

Definition analyze_stack (op : string) (detector : ServiceStateDetector) (stackName : string)
    (stack : Stack) : prog stackResult :=
  let failed e what :=
    mkStackResult stackName fallbackStackResource None
      (Some (wrap op External e (what +:+ " for stack %s/%s") [contextName; stackName])) in
  inline ← BuildInlineEnv detector stack (cfg_Sops cfg);
  match inline with
  | Err e => mret (failed e "build inline env")
  | Ok inline =>
      services ← DetectAllServicesState detector stackName stack identifier (cfg_Sops cfg);
      match services with
      | Err e => mret (failed e "detect service state")
      | Ok [] => mret (mkStackResult stackName fallbackStackResource None None)
      | Ok services =>
          mret (mkStackResult stackName (serviceStatesToResources services)
                  (Some (mkStackExec services inline (NeedsApply services))) None)
      end
  end.

(** One result into the plan and the execution context. *)
Definition record_stack (r : stackResult) (s : ResourcePlan * ContextExecutionContext)
  : ResourcePlan * ContextExecutionContext :=
  (set_stack (sr_name r) (sr_resources r) s.1,
   match sr_execData r with Some d => set_exec_stack (sr_name r) d s.2 | None => s.2 end).

Definition stack_of (name : string) : Stack := default empty_stack (stacks !! name).

Definition buildStackResourcesSequentialForContext (s : ResourcePlan * ContextExecutionContext)
  : prog (res (ResourcePlan * ContextExecutionContext)) :=
  let detector := NewServiceStateDetector (Some client) in
  for_each_res (fun s stackName =>
    r ← analyze_stack "planner.buildStackResourcesSequentialForContext" detector stackName
          (stack_of stackName);
    match sr_err r with
    | Some e => mret (Err e)
    | None => mret (Ok (record_stack r s))
    end) s (sorted_keys stacks).

(** One goroutine per stack; the results are recorded as they arrive. *)
Definition buildStackResourcesParallelForContext (s : ResourcePlan * ContextExecutionContext)
  : prog (res (ResourcePlan * ContextExecutionContext)) :=
  let op := "planner.buildStackResourcesParallelForContext" in
  let detector := WithParallel (NewServiceStateDetector (Some client)) true in
  r ← for_each (fun '(s, errs) stackName =>
        r ← analyze_stack op detector stackName (stack_of stackName);
        mret (record_stack r s, errs ++ match sr_err r with Some e => [Some e] | None => [] end))
      (s, []) (schedule "stacks" (sorted_keys stacks));
  match r with
  | (s, []) => mret (Ok s)
  | (_, errs) => mret match Aggregate op External "one or more stack analyses failed" errs with
                      | Some e => Err e
                      | None => Ok r.1
                      end
  end.
End PlanStacks.

Definition buildStackResourcesForContext `{MapRange} `{Schedule} (p : Planner) (cfg : Config)
    (contextName : string) (stacks : gmap string Stack) (identifier : string)
    (client : option DockerClient) (s : ResourcePlan * ContextExecutionContext)
  : prog (res (ResourcePlan * ContextExecutionContext)) :=
  if bool_decide (stacks = ∅) then mret (Ok s) else
  match client with
  | None =>
      mret (Ok (foldr (fun name rp => set_stack name fallbackStackResource rp) s.1
                  (map_range "planned stacks" stacks).*1, s.2))
  | Some client =>
      if pl_parallel p
      then buildStackResourcesParallelForContext cfg contextName stacks identifier client s
      else buildStackResourcesSequentialForContext cfg contextName stacks identifier client s
  end.

(** ** Filesets *)

Definition file_note (a : Action) (details : string) : list Resource :=
  [NewResource ResourceFile "" a details].

(** The lines of a fileset from its two indexes and their diff. *)
Definition fileset_resources (local remote : Index) (diff : Diff) : list Resource :=
  if bool_decide (ix_TreeHash local = ix_TreeHash remote)
  then file_note ActionNoop "no file changes"
  else
    ((fun f => NewResource ResourceFile (fe_Path f) ActionCreate "") <$> ToCreate diff)
    ++ ((fun f => NewResource ResourceFile (fe_Path f) ActionUpdate "") <$> ToUpdate diff)
    ++ ((fun p => NewResource ResourceFile p ActionDelete "") <$> ToDelete diff)
    ++ (if bool_decide (ToCreate diff = []) && bool_decide (ToUpdate diff = [])
           && bool_decide (ToDelete diff = [])
        then file_note ActionUpdate "changes detected (details unavailable)" else []).

Section PlanFilesets.
Context `{MapRange} `{Schedule} `{Glob} `{IndexCodec}.
Context (filesetSpecs : gmap string FilesetSpec) (existingVolumes : gset string)
  (client : DockerClient).

Definition op_bfr : string := "planner.buildFilesetResourcesForContext".
Definition spec_of (name : string) : FilesetSpec :=
  default (mkFileset "" "" "" (mkRestart false []) "" [] None "" "" "") (filesetSpecs !! name).

(** The local index of a fileset: a walk of its source directory. *)
Definition local_index (f : FilesetSpec) : prog (res Index) :=
  w ← do_call client (WalkLocal (Clean (fs_SourceAbs f)));
  mret (BuildLocalIndex PathMatch (lw_read_err w) (lw_info_err w) (lw_tree w) (lw_now w)
          (fs_TargetPath f) (fs_Exclude f)).

Record fileset_state := mkFS {
  fss_plan : ResourcePlan; fss_exec : ContextExecutionContext;
  fss_local : gmap string Index; fss_errs : list (option error) }.

(** Phase 1: local indexes, one goroutine per fileset. *)
Definition index_step (s : fileset_state) (name : string) : prog fileset_state :=
  idx ← local_index (spec_of name);
  match idx with
  | Err e =>
      mret (mkFS (set_fileset name (file_note ActionUpdate "unable to index local files") (fss_plan s))
              (fss_exec s) (fss_local s)
              (fss_errs s ++ [Some (wrap op_bfr Internal e "build local fileset index for %s" [name])]))
  | Ok idx => mret (mkFS (fss_plan s) (fss_exec s) (<[name := idx]> (fss_local s)) (fss_errs s))
  end.

Definition volume_exists (name : string) : bool :=
  bool_decide (fs_TargetVolume (spec_of name) ∈ existingVolumes).

(** The filesets whose local index is known and whose volume exists. *)
Definition readable (s : fileset_state) (names : list string) : list string :=
  filter (fun name => is_Some (fss_local s !! name) /\ volume_exists name = true) names.

(** Phase 3: the diff of one fileset. *)
Definition diff_step (indexByVolume : gmap string string) (s : fileset_state) (name : string)
  : fileset_state :=
  match fss_local s !! name with
  | None => s
  | Some local =>
      let raw := if volume_exists name
                 then default "" (indexByVolume !! fs_TargetVolume (spec_of name)) else "" in
      match ParseIndexJSON raw with
      | Err e =>
          mkFS (set_fileset name (file_note ActionUpdate "unable to parse remote index") (fss_plan s))
            (fss_exec s) (fss_local s)
            (fss_errs s ++ [Some (wrap op_bfr External e "parse remote index for %s" [name])])
      | Ok remote =>
          let diff := DiffIndexes local remote in
          mkFS (set_fileset name (fileset_resources local remote diff) (fss_plan s))
            (set_exec_fileset name (mkFilesetExec local remote diff) (fss_exec s))
            (fss_local s) (fss_errs s)
      end
  end.

Definition buildFilesetResourcesForContext (plan : ResourcePlan)
    (execCtx : ContextExecutionContext)
  : prog (ResourcePlan * ContextExecutionContext * option error) :=
  let filesetNames := sorted_keys filesetSpecs in
  let failed s := Aggregate op_bfr External "one or more fileset analyses failed" (fss_errs s) in
  match filesetNames with
  | [] => mret (plan, execCtx, None)
  | _ =>
      s ← for_each index_step (mkFS plan execCtx ∅ []) (schedule "local indexes" filesetNames);
      let volSet : gset string :=
        list_to_set (fs_TargetVolume ∘ spec_of <$> readable s filesetNames) in
      indexes ← (if bool_decide (volSet = ∅) then mret (Ok ∅)
                 else do_call client (ReadIndexFilesFromVolumes (sorted_elements volSet) IndexFileName));
      match indexes with
      | Err e =>
          let s := mkFS
            (foldl (fun rp name => set_fileset name
                      (file_note ActionUpdate "unable to read remote index") rp)
               (fss_plan s) (readable s filesetNames))
            (fss_exec s) (fss_local s)
            (fss_errs s ++ [Some (wrap op_bfr External e "read remote indexes (batched)" [])]) in
          mret (fss_plan s, fss_exec s, failed s)
      | Ok indexByVolume =>
          let s := foldl (diff_step indexByVolume) s filesetNames in
          mret (fss_plan s, fss_exec s, failed s)
      end
  end.
End PlanFilesets.

(** ** The plan of a context *)

Definition desired_volumes (cfg : Config) (contextName : string) (cc : option ContextConfig)
  : gset string :=
  list_to_set (fs_TargetVolume ∘ snd <$> map_to_list (GetFilesetsForContext cfg contextName))
  ∪ match cc with Some cc => dom (ctx_Volumes cc) | None => ∅ end.
Definition desired_networks (cc : option ContextConfig) : gset string :=
  match cc with Some cc => dom (ctx_Networks cc) | None => ∅ end.

Definition ensure_resource (t : ResourceType) (existing : gset string) (name : string) : Resource :=
  if decide (name ∈ existing) then NewResource t name ActionNoop "exists"
  else NewResource t name ActionCreate "".

(** The containers of services nobody wants, by project. *)
Definition unwanted_services (desired : gset string) (all : list PsBrief)
  : gmap string (gset string) :=
  foldl (fun m it =>
    if decide (ps_Service it ∈ desired) then m
    else <[ps_Project it := {[ps_Service it]} ∪ default ∅ (m !! ps_Project it)]> m) ∅ all.

Section BuildPlan.
Context `{MapRange} `{Schedule} `{Glob} `{IndexCodec}.

Definition delete_services (toDelete : gmap string (gset string)) (rp : ResourcePlan) : ResourcePlan :=
  foldl (fun rp (e : string * gset string) =>
    foldl (fun rp svc => add_to_stack e.1 (NewResource ResourceService svc ActionDelete "") rp)
      rp (set_range ("services of " +:+ e.1) e.2)) rp (map_range "services to delete" toDelete).

(** The steps of [buildContextPlan] that ask the daemon; without a client nothing
    exists. *)
Definition context_existing (client : option DockerClient)
  : prog (gset string * gset string * option error) :=
  match client with
  | None => mret (∅, ∅, None)
  | Some client => getExistingResourcesForClient client
  end.

(** The compose-owned networks, asked for only when orphans are looked for. *)
Definition context_owned_networks (cfg : Config) (client : option DockerClient)
  : prog (res (option (gset string))) :=
  if cfg_Targeted cfg then mret (Ok None) else
  match client with
  | None => mret (Ok (Some ∅))
  | Some client => r ← getComposeOwnedNetworks client;
                   mret match r with Ok o => Ok (Some o) | Err e => Err e end
  end.

(** Services that run but are not wanted; when the containers cannot be listed
    none is shown. *)
Definition context_service_deletions (cfg : Config) (contextStacks : gmap string Stack)
    (client : option DockerClient) (rp : ResourcePlan) : prog (res ResourcePlan) :=
  match client with
  | Some c =>
      if cfg_Targeted cfg then mret (Ok rp) else
      desired ← collectDesiredServicesForContext cfg contextStacks client;
      try desired id (fun desired =>
      all ← do_call c ListComposeContainersAll;
      mret (Ok match all with
               | Err _ => rp
               | Ok all => delete_services (unwanted_services desired all) rp
               end))
  | None => mret (Ok rp)
  end.

Definition context_filesets (contextFilesets : gmap string FilesetSpec)
    (existingVolumes : gset string) (client : option DockerClient) (rp : ResourcePlan)
    (execCtx : ContextExecutionContext)
  : prog (ResourcePlan * ContextExecutionContext * option error) :=
  match client with
  | Some c =>
      if bool_decide (contextFilesets = ∅) then mret (rp, execCtx, None)
      else buildFilesetResourcesForContext contextFilesets existingVolumes c rp execCtx
  | None => mret (rp, execCtx, None)
  end.

Definition buildContextPlan (p : Planner) (cfg : Config) (contextName : string)
    (contextConfig : ContextConfig) (client : option DockerClient)
    (execCtx : ContextExecutionContext) : prog (res (ContextPlan * ContextExecutionContext)) :=
  let contextStacks := GetStacksForContext cfg contextName in
  let contextFilesets := GetFilesetsForContext cfg contextName in
  existing ← context_existing client;
  let '(existingVolumes, existingNetworks, err) := existing in
  match err with
  | Some e => mret (Err e)
  | None =>
  let execCtx := match client with
                 | None => execCtx
                 | Some _ => set_existing existingVolumes existingNetworks execCtx
                 end in
  let wantedVolumes := desired_volumes cfg contextName (Some contextConfig) in
  let rp := add_volumes (ensure_resource ResourceVolume existingVolumes
                           <$> sorted_elements wantedVolumes) empty_plan in
  let rp := if cfg_Targeted cfg then rp else
    add_volumes ((fun name => NewResource ResourceVolume name ActionDelete "")
      <$> filter (fun name => name ∉ wantedVolumes) (set_range "existing volumes" existingVolumes)) rp in
  let wantedNetworks := desired_networks (Some contextConfig) in
  let rp := add_networks (ensure_resource ResourceNetwork existingNetworks
                            <$> sorted_elements wantedNetworks) rp in
  owned ← context_owned_networks cfg client;
  try owned id (fun owned =>
  let rp := match owned with
            | None => rp
            | Some owned =>
                add_networks ((fun name => NewResource ResourceNetwork name ActionDelete "")
                  <$> orphanNetworks existingNetworks wantedNetworks owned) rp
            end in
  s ← buildStackResourcesForContext p cfg contextName contextStacks (cfg_Identifier cfg) client
        (rp, execCtx);
  try s id (fun '(rp, execCtx) =>
  rp ← context_service_deletions cfg contextStacks client rp;
  try rp id (fun rp =>
  r ← context_filesets contextFilesets existingVolumes client rp execCtx;
  let '(rp, execCtx, err) := r in
  match err with
  | Some e => mret (Err e)
  | None => mret (Ok (mkContextPlan contextName (cfg_Identifier cfg) rp, execCtx))
  end)))
  end.

Definition aggregateContextPlan (aggregated : ResourcePlan) (contextPlan : ContextPlan)
  : ResourcePlan :=
  let dp := cp_Resources contextPlan in
  mkPlan (rp_Volumes aggregated ++ rp_Volumes dp) (rp_Networks aggregated ++ rp_Networks dp)
    (foldr (fun e m => <[MakeStackKey (cp_ContextName contextPlan) e.1 := e.2]> m)
       (rp_Stacks aggregated) (map_range "aggregate stacks" (rp_Stacks dp)))
    (rp_Filesets dp ∪ rp_Filesets aggregated)
    (rp_Containers aggregated ++ rp_Containers dp).

Definition has_resources (rp : ResourcePlan) : bool :=
  negb (bool_decide (rp_Volumes rp = [])) || negb (bool_decide (rp_Networks rp = []))
  || negb (bool_decide (rp_Stacks rp = ∅)) || negb (bool_decide (rp_Filesets rp = ∅))
  || negb (bool_decide (rp_Containers rp = [])).

Definition BuildPlan (p : Planner) (cfg : Config) : prog (res Plan) :=
  r ← for_each_res (fun '(byContext, execs, aggregated) contextName =>
        match cfg_Contexts cfg !! contextName with
        | None => mret (Ok (byContext, execs, aggregated))
        | Some contextConfig =>
            r ← buildContextPlan p cfg contextName contextConfig
                  (getClientForContext p contextName)
                  (NewContextExecutionContext contextName (cfg_Identifier cfg));
            try r id (fun '(contextPlan, execCtx) =>
            mret (Ok (<[contextName := contextPlan]> byContext,
                      <[contextName := execCtx]> execs,
                      aggregateContextPlan aggregated contextPlan)))
        end) (∅, ∅, empty_plan) (sorted_keys (cfg_Contexts cfg));
  try r id (fun '(byContext, execs, aggregated) =>
  let aggregated := if has_resources aggregated then aggregated
    else add_volumes [NewResource ResourceVolume "nothing to do" ActionNoop "nothing to do"]
           aggregated in
  mret (Ok (mkFullPlan byContext (Some aggregated) (Some execs)))).
End BuildPlan.

(** ** Planning only looks *)

Lemma getComposeOwnedNetworks_looks client : always looks (getComposeOwnedNetworks client).
Proof. unfold getComposeOwnedNetworks. always_auto. Qed.

Lemma collectDesired_looks `{MapRange} cfg stacks client :
  always looks (collectDesiredServicesForContext cfg stacks client).
Proof. unfold collectDesiredServicesForContext. always_auto. Qed.

Lemma getExisting_looks `{Schedule} client : always looks (getExistingResourcesForClient client).
Proof. unfold getExistingResourcesForClient. always_auto. Qed.

Lemma analyze_stack_looks `{MapRange} `{Schedule} cfg ctx i op d n s :
  always looks (analyze_stack cfg ctx i op d n s).
Proof. unfold analyze_stack. always_auto. Qed.
#[export] Hint Resolve getComposeOwnedNetworks_looks collectDesired_looks getExisting_looks
  analyze_stack_looks : dockform.

Lemma buildStackResources_looks `{MapRange} `{Schedule} p cfg ctx stacks i client s :
  always looks (buildStackResourcesForContext p cfg ctx stacks i client s).
Proof.
  unfold buildStackResourcesForContext, buildStackResourcesParallelForContext,
    buildStackResourcesSequentialForContext. always_auto.
Qed.

Lemma buildFilesetResources_looks `{MapRange} `{Schedule} `{Glob} `{IndexCodec} fs ex client rp ec :
  always looks (buildFilesetResourcesForContext fs ex client rp ec).
Proof. unfold buildFilesetResourcesForContext, index_step, local_index. always_auto. Qed.
#[export] Hint Resolve buildStackResources_looks buildFilesetResources_looks : dockform.

Lemma buildContextPlan_looks `{MapRange} `{Schedule} `{Glob} `{IndexCodec} p cfg ctx cc client ec :
  always looks (buildContextPlan p cfg ctx cc client ec).
Proof.
  unfold buildContextPlan, context_existing, context_owned_networks,
    context_service_deletions, context_filesets.
  always_auto.
Qed.
#[export] Hint Resolve buildContextPlan_looks : dockform.

Lemma BuildPlan_looks `{MapRange} `{Schedule} `{Glob} `{IndexCodec} p cfg :
  always looks (BuildPlan p cfg).
Proof. unfold BuildPlan. always_auto. Qed.

(** Planning changes nothing.  Whatever the daemons answer, every call
    [BuildPlan] makes, on every context, only reads: no volume, network, container
    or file is created, changed or removed before the user confirms. *)
Theorem BuildPlan_read_only `{MapRange} `{Schedule} `{Glob} `{IndexCodec} p cfg :
  always (fun e => read_only (ev_call e)) (BuildPlan p cfg).
Proof. apply BuildPlan_looks. Qed.

(** ** What the plan shows is what apply does *)

Lemma service_resource_noop s : r_Action (service_resource s) = ActionNoop <-> si_State s = ServiceRunning.
Proof. unfold service_resource. by destruct (si_State s). Qed.

(** A stack is applied exactly when its plan shows a change.  [NeedsApply], which
    decides whether [apply] runs [compose up], holds if and only if one of the
    services of the stack is planned with an action other than no-op; and the plan
    has one line per service, in order. *)
Theorem NeedsApply_iff_planned services :
  (NeedsApply services = true <->
     exists r, r ∈ serviceStatesToResources services /\ r_Action r <> ActionNoop)
  /\ r_Name <$> serviceStatesToResources services = GetServiceNames services.
Proof.
  split.
  - unfold NeedsApply, serviceStatesToResources. rewrite existsb_exists. split.
    + intros (s & Hin & Hs). boolify. exists (service_resource s). split.
      * apply list_elem_of_fmap_2. by apply list_elem_of_In.
      * by rewrite service_resource_noop.
    + intros (r & (s & -> & Hin)%list_elem_of_fmap & Hr). exists s.
      split; [by apply list_elem_of_In|]. apply negb_true_iff, bool_decide_eq_false.
      by rewrite <- service_resource_noop.
  - unfold serviceStatesToResources, GetServiceNames. rewrite <- list_fmap_compose.
    apply list_fmap_ext. intros _ s _. unfold service_resource; simpl.
    by destruct (si_State s).
Qed.

(** ** What a plan may delete *)

(** A later phase leaves the volumes, networks and containers of the plan alone. *)
Definition keeps (rp rp' : ResourcePlan) : Prop :=
  rp_Volumes rp' = rp_Volumes rp /\ rp_Networks rp' = rp_Networks rp
  /\ rp_Containers rp' = rp_Containers rp.

#[global] Instance keeps_preorder : PreOrder keeps.
Proof. split; [done|]. intros a b c (? & ? & ?) (? & ? & ?). split_and!; congruence. Qed.

(** No service line deletes. *)
Definition no_service_deletes (rp : ResourcePlan) : Prop :=
  forall name rs r, rp_Stacks rp !! name = Some rs -> r ∈ rs -> r_Action r <> ActionDelete.

Lemma set_stack_no_deletes name rs rp : no_service_deletes rp ->
  Forall (fun r => r_Action r <> ActionDelete) rs -> no_service_deletes (set_stack name rs rp).
Proof.
  intros Hrp Hrs k l r. simpl. rewrite lookup_insert. case_decide.
  - intros [= <-] Hr. rewrite Forall_forall in Hrs. auto.
  - apply Hrp.
Qed.

Lemma services_no_deletes services :
  Forall (fun r => r_Action r <> ActionDelete) (serviceStatesToResources services).
Proof.
  apply Forall_fmap, Forall_true. intros s. unfold service_resource; simpl.
  by destruct (si_State s).
Qed.

Lemma fallback_no_deletes : Forall (fun r => r_Action r <> ActionDelete) fallbackStackResource.
Proof. by repeat constructor. Qed.

Lemma analyze_stack_lines `{MapRange} `{Schedule} cfg ctx i op d n s :
  wp (analyze_stack cfg ctx i op d n s)
    (fun _ r => Forall (fun x => r_Action x <> ActionDelete) (sr_resources r)).
Proof.
  unfold analyze_stack. apply wp_bind. intros t [inline|e] _; [|apply wp_ret, fallback_no_deletes].
  apply wp_bind. intros t' [[|s1 ss]|e] _; apply wp_ret; [apply fallback_no_deletes| |
    apply fallback_no_deletes]. apply services_no_deletes.
Qed.

Definition stacks_planned (rp rp' : ResourcePlan) : Prop :=
  keeps rp rp' /\ (no_service_deletes rp -> no_service_deletes rp').

Lemma record_stack_planned rp r s :
  stacks_planned rp s.1 -> Forall (fun x => r_Action x <> ActionDelete) (sr_resources r) ->
  stacks_planned rp (record_stack r s).1.
Proof.
  intros [Hk Hn] Hr. split; [by etrans|]. intros H%Hn. by apply set_stack_no_deletes.
Qed.

Lemma buildStackResources_planned `{MapRange} `{Schedule} p cfg ctx stacks i client rp ec :
  wp (buildStackResourcesForContext p cfg ctx stacks i client (rp, ec))
    (fun _ r => match r with Ok s => stacks_planned rp s.1 | Err _ => True end).
Proof.
  unfold buildStackResourcesForContext. case_bool_decide; [by apply wp_ret|].
  destruct client as [client|].
  2: { apply wp_ret. simpl. generalize (map_range "planned stacks" stacks).*1. intros l.
       induction l as [|n l [IHk IHn]]; [done|]. split; [by etrans|].
       intros Hn%IHn. by apply set_stack_no_deletes, fallback_no_deletes. }
  destruct (pl_parallel p).
  - apply wp_bind. eapply wp_mono.
    + apply (wp_for_each (fun _ s => stacks_planned rp s.1.1)); [done|].
      intros t [s errs] n _ Hs. simpl in Hs. apply wp_bind.
      eapply wp_mono; [apply analyze_stack_lines|].
      intros t' r Hr. apply wp_ret. by apply record_stack_planned.
    + intros t [s errs] Hs. simpl in Hs. destruct errs; apply wp_ret; [done|].
      by destruct (Aggregate _ _ _ _).
  - apply (wp_for_each_res (fun _ s => stacks_planned rp s.1)); [done|].
    intros t s n _ Hs. apply wp_bind. eapply wp_mono; [apply analyze_stack_lines|].
    intros t' r Hr. destruct (sr_err r); apply wp_ret; [done|]. by apply record_stack_planned.
Qed.

Lemma set_fileset_keeps name rs rp : keeps rp (set_fileset name rs rp).
Proof. done. Qed.

Lemma foldl_set_fileset_keeps rs l rp :
  let rp' := foldl (fun rp name => set_fileset name rs rp) rp l in
  keeps rp rp' /\ rp_Stacks rp' = rp_Stacks rp.
Proof.
  cbv zeta. revert rp. induction l as [|n l IH]; intros rp; [done|]. cbn [foldl].
  destruct (IH (set_fileset n rs rp)) as [Hk ->]. split; [|done].
  etrans; [apply set_fileset_keeps|exact Hk].
Qed.

Lemma diff_steps_keep `{IndexCodec} fs ex m l s :
  let s' := foldl (diff_step fs ex m) s l in
  keeps (fss_plan s) (fss_plan s') /\ rp_Stacks (fss_plan s') = rp_Stacks (fss_plan s).
Proof.
  cbv zeta. revert s. induction l as [|n l IH]; intros s; [done|]. cbn [foldl].
  destruct (IH (diff_step fs ex m s n)) as [Hk ->].
  assert (keeps (fss_plan s) (fss_plan (diff_step fs ex m s n))
          /\ rp_Stacks (fss_plan (diff_step fs ex m s n)) = rp_Stacks (fss_plan s)) as [Hk1 ->].
  { unfold diff_step. destruct (fss_local s !! n); [|done]. by destruct (ParseIndexJSON _). }
  split; [|done]. by etrans.
Qed.

Lemma buildFilesetResources_keeps `{MapRange} `{Schedule} `{Glob} `{IndexCodec} fs ex c rp ec :
  wp (buildFilesetResourcesForContext fs ex c rp ec)
    (fun _ r => keeps rp r.1.1 /\ rp_Stacks r.1.1 = rp_Stacks rp).
Proof.
  unfold buildFilesetResourcesForContext. destruct (sorted_keys fs) as [|n ns] eqn:Hns;
    [by apply wp_ret|]. rewrite <- Hns. clear n ns Hns.
  apply wp_bind. eapply wp_mono.
  - apply (wp_for_each (fun _ s => keeps rp (fss_plan s) /\ rp_Stacks (fss_plan s) = rp_Stacks rp)); [done|].
    intros t s n _ [Hk Hs]. unfold index_step. apply wp_bind. apply wp_true. intros t' [idx|e];
      apply wp_ret; simpl; (split; [|done]); [done|]. etrans; [exact Hk|done].
  - intros t s [Hk Hs]. apply wp_bind. apply wp_true. intros t' [m|e]; apply wp_ret; cbn [fst snd].
    + destruct (diff_steps_keep fs ex m (sorted_keys fs) s) as [Hk' ->].
      split; [by etrans|done].
    + simpl. destruct (foldl_set_fileset_keeps
        (file_note ActionUpdate "unable to read remote index")
        (readable fs ex s (sorted_keys fs)) (fss_plan s)) as [Hk' ->].
      split; [by etrans|done].
Qed.

Lemma delete_services_keeps `{MapRange} m rp : keeps rp (delete_services m rp).
Proof.
  unfold delete_services. generalize (map_range "services to delete" m). intros l. revert rp.
  induction l as [|[proj svcs] l IH]; intros rp; [done|]. cbn [foldl]. etrans; [|apply IH].
  generalize (set_range ("services of " +:+ (proj, svcs).1) (proj, svcs).2). intros k. revert rp.
  induction k as [|svc k IHk]; intros rp; [done|]. cbn [foldl]. etrans; [|apply IHk]. done.
Qed.

Lemma elem_of_ensure t ex (l : list string) r : r ∈ ensure_resource t ex <$> l -> r_Action r <> ActionDelete.
Proof.
  intros (n & -> & _)%list_elem_of_fmap. unfold ensure_resource. by case_decide.
Qed.

Lemma elem_of_orphans `{MapRange} ex want owned n :
  n ∈ orphanNetworks ex want owned <-> n ∈ ex /\ n ∉ want /\ n ∉ owned.
Proof. unfold orphanNetworks. rewrite list_elem_of_filter, elem_of_set_range. naive_solver. Qed.

(** The compose-owned networks a plan took into account. *)
Definition owned_known (t : list event) (n : string) : Prop :=
  exists d owned, Ev d ListComposeNetworks (Ok owned) ∈ t /\ n ∉ owned.

Lemma getComposeOwned_spec client :
  wp (getComposeOwnedNetworks client)
    (fun t r => match r with
                | Ok owned => forall n, n ∉ owned -> owned_known t n
                | Err _ => True
                end).
Proof.
  unfold getComposeOwnedNetworks. apply wp_bind. wp_docall. intros [nets|e]; apply wp_ret; [|done].
  intros n Hn. exists client, nets. split; [left|]. set_solver.
Qed.

Lemma owned_known_app t t' n : owned_known t n -> owned_known (t ++ t') n /\ owned_known (t' ++ t) n.
Proof. intros (d & o & ? & ?). split; exists d, o; (split; [|done]); apply elem_of_app; auto. Qed.

(** The volumes and networks of a plan delete only what they may. *)
Definition deletions_ok (cfg : Config) (ctx : string) (cc : ContextConfig) (t : list event)
    (rp : ResourcePlan) : Prop :=
  (forall r, r ∈ rp_Volumes rp -> r_Action r = ActionDelete ->
     cfg_Targeted cfg = false /\ r_Name r ∉ desired_volumes cfg ctx (Some cc))
  /\ (forall r, r ∈ rp_Networks rp -> r_Action r = ActionDelete ->
     cfg_Targeted cfg = false /\ r_Name r ∉ desired_networks (Some cc) /\ owned_known t (r_Name r))
  /\ rp_Containers rp = [].

Lemma deletions_ok_app cfg ctx cc t t' rp rp' :
  deletions_ok cfg ctx cc t rp -> keeps rp rp' -> deletions_ok cfg ctx cc (t ++ t') rp'.
Proof.
  intros (Hv & Hn & Hc) (E1 & E2 & E3). unfold deletions_ok. rewrite E1, E2, E3.
  split_and!; [done| |done].
  intros r Hr Ha. destruct (Hn r Hr Ha) as (? & ? & Ho). split_and!; [done..|].
  by destruct (owned_known_app t t' _ Ho).
Qed.

(** The lines of volumes and networks, once the owned networks are known. *)
Lemma first_lines_ok `{MapRange} cfg ctx cc t (exv exn : gset string) owned rp :
  match owned with
  | None => cfg_Targeted cfg = true
  | Some o => cfg_Targeted cfg = false /\ forall n, n ∈ exn -> n ∉ o -> owned_known t n
  end ->
  rp = (let wantedVolumes := desired_volumes cfg ctx (Some cc) in
    let rp := add_volumes (ensure_resource ResourceVolume exv
                             <$> sorted_elements wantedVolumes) empty_plan in
    let rp := if cfg_Targeted cfg then rp else
      add_volumes ((fun name => NewResource ResourceVolume name ActionDelete "")
        <$> filter (fun name => name ∉ wantedVolumes) (set_range "existing volumes" exv)) rp in
    let rp := add_networks (ensure_resource ResourceNetwork exn
                              <$> sorted_elements (desired_networks (Some cc))) rp in
    match owned with
    | None => rp
    | Some owned =>
        add_networks ((fun name => NewResource ResourceNetwork name ActionDelete "")
          <$> orphanNetworks exn (desired_networks (Some cc)) owned) rp
    end) ->
  deletions_ok cfg ctx cc t rp /\ rp_Stacks rp = ∅.
Proof.
  intros Ho ->. destruct owned as [o|].
  - destruct Ho as [HT Ho]. rewrite HT. simpl. split; [|done]. split_and!; [| |done]; simpl.
    + intros r [Hr|Hr]%elem_of_app Ha; [by apply elem_of_ensure in Hr|].
      apply list_elem_of_fmap in Hr as (n & -> & Hn). split; [done|]. simpl.
      by apply list_elem_of_filter in Hn as [? _].
    + intros r [Hr|Hr]%elem_of_app Ha; [by apply elem_of_ensure in Hr|].
      apply list_elem_of_fmap in Hr as (n & -> & (Hx & Hw & Hn)%elem_of_orphans). simpl. auto.
  - rewrite Ho. simpl. split; [|done]. split_and!; [| |done]; simpl;
      intros r Hr%elem_of_ensure Ha; done.
Qed.

Lemma context_existing_spec `{Schedule} client :
  wp (context_existing client) (fun _ r => client = None -> r.1.2 = ∅).
Proof. destruct client; [by apply wp_true|by apply wp_ret]. Qed.

Lemma context_owned_networks_spec cfg client (exn : gset string) :
  (client = None -> exn = ∅) ->
  wp (context_owned_networks cfg client) (fun t r => match r with
    | Ok None => cfg_Targeted cfg = true
    | Ok (Some o) => cfg_Targeted cfg = false /\ forall n, n ∈ exn -> n ∉ o -> owned_known t n
    | Err _ => True end).
Proof.
  intros Hex. unfold context_owned_networks. destruct (cfg_Targeted cfg); [by apply wp_ret|].
  destruct client as [c|].
  - apply wp_bind. eapply wp_mono; [apply getComposeOwned_spec|]. intros t [o|e] Ho;
      apply wp_ret; [|done]. split; [done|]. rewrite app_nil_r. auto.
  - apply wp_ret. split; [done|]. rewrite Hex by done. set_solver.
Qed.

Lemma context_service_deletions_keeps `{MapRange} cfg stacks client rp :
  wp (context_service_deletions cfg stacks client rp) (fun _ r => match r with
    | Ok rp' => keeps rp rp' /\ (cfg_Targeted cfg = true -> rp' = rp) | Err _ => True end).
Proof.
  unfold context_service_deletions. destruct client as [c|]; [|by apply wp_ret].
  destruct (cfg_Targeted cfg); [by apply wp_ret|]. apply wp_bind, wp_true.
  intros t [des|e]; [|by apply wp_ret]. apply wp_try, wp_bind. wp_docall.
  intros [all|e]; apply wp_ret; (split; [|done]); [apply delete_services_keeps|done].
Qed.

Lemma context_filesets_keeps `{MapRange} `{Schedule} `{Glob} `{IndexCodec} fs ex client rp ec :
  wp (context_filesets fs ex client rp ec)
    (fun _ r => keeps rp r.1.1 /\ rp_Stacks r.1.1 = rp_Stacks rp).
Proof.
  unfold context_filesets. destruct client as [c|]; [|by apply wp_ret].
  case_bool_decide; [by apply wp_ret|]. apply buildFilesetResources_keeps.
Qed.

(** C13: a plan deletes only what nobody wants.  In a plan of a context, a volume or
    network marked for deletion is one the configuration does not ask for, and, for
    a network, one that compose does not own (by the list docker gave); a plan
    restricted to targets ([--stack], [--context], [--deployment]) deletes no volume, no
    network and no service at all. *)
Theorem buildContextPlan_deletions `{MapRange} `{Schedule} `{Glob} `{IndexCodec}
    p cfg ctx cc client ec :
  wp (buildContextPlan p cfg ctx cc client ec)
    (fun t r => forall cp ec', r = Ok (cp, ec') ->
       deletions_ok cfg ctx cc t (cp_Resources cp)
       /\ (cfg_Targeted cfg = true -> no_service_deletes (cp_Resources cp))).
Proof.
  unfold buildContextPlan. apply wp_bind. eapply wp_mono; [apply context_existing_spec|].
  intros t0 [[exv exn] [e|]] Hex; [by apply wp_ret|]. simpl in Hex. cbv zeta. apply wp_bind.
  eapply wp_mono; [by apply context_owned_networks_spec|].
  intros t1 [owned|e] Hown; [|by apply wp_ret]. apply wp_try.
  match goal with |- context [buildStackResourcesForContext _ _ _ _ _ _ (?rp, _)] =>
    set (rp0 := rp) end.
  destruct (first_lines_ok cfg ctx cc (t0 ++ t1) exv exn owned rp0) as [Hrp Hst].
  { destruct owned as [o|]; [|done]. destruct Hown as [HT Ho]. split; [done|].
    intros n Hn1 Hn2. destruct (owned_known_app t1 t0 n (Ho n Hn1 Hn2)) as [_ ?]. done. }
  { unfold rp0. by destruct owned. }
  clearbody rp0. apply wp_bind. eapply wp_mono; [apply buildStackResources_planned|].
  intros t2 [[rp2 ec2]|e] Hs; [|by apply wp_ret]. destruct Hs as [Hk2 Hn2]. simpl in Hk2, Hn2.
  apply wp_try. apply wp_bind. eapply wp_mono; [apply context_service_deletions_keeps|].
  intros t3 [rp3|e] Hd; [|by apply wp_ret]. destruct Hd as [Hk3 Hs3]. apply wp_try, wp_bind.
  eapply wp_mono; [apply context_filesets_keeps|].
  intros t4 [[rp4 ec4] [e|]] [Hk4 Hs4]; [by apply wp_ret|].
  apply wp_ret. intros cp ec' [= <- <-]. cbn [cp_Resources fst] in *. split.
  - eapply (deletions_ok_app _ _ _ _ (t2 ++ t3 ++ t4 ++ [])) in Hrp;
      [|etrans; [exact Hk2|]; etrans; [exact Hk3|exact Hk4]].
    rewrite <- (assoc_L (++)) in Hrp. exact Hrp.
  - intros HT. unfold no_service_deletes. rewrite Hs4, (Hs3 HT). apply Hn2.
    intros name rs r. rewrite Hst. by rewrite lookup_empty.
Qed.

(** ** File lines *)

Lemma file_lines_named local remote (d : Diff) :
  Forall (fun f => fe_Path f <> "") (ToCreate d ++ ToUpdate d) ->
  Forall (fun p => p <> "") (ToDelete d) ->
  ix_TreeHash local <> ix_TreeHash remote ->
  (exists r, r ∈ fileset_resources local remote d /\ file_operation r = true)
  <-> d <> mkDiff [] [] [].
Proof.
  intros Hw Hd Hne. unfold fileset_resources. rewrite bool_decide_false by done.
  assert (forall t n a s, n <> "" -> a <> ActionNoop -> file_operation (NewResource t n a s) = true) as Hop.
  { intros t n a s Hn Ha. unfold file_operation. simpl. by rewrite !bool_decide_true. }
  apply Forall_app in Hw as [Hc Hu]. split.
  - intros (r & Hr & Ho) ->. simpl in Hr. apply list_elem_of_singleton in Hr as ->. done.
  - intros Hdne. destruct d as [[|c cs] [|u us] [|x xs]]; simpl in *; try done;
      repeat match goal with H : Forall _ (_ :: _) |- _ => apply Forall_cons in H as [? ?] end;
      eexists; (split; [left|]); by apply Hop.
Qed.

Lemma diff_named local remote : index_ok local -> remote_ok remote ->
  let d := DiffIndexes local remote in
  Forall (fun f => fe_Path f <> "") (ToCreate d ++ ToUpdate d) /\ Forall (fun p => p <> "") (ToDelete d).
Proof.
  intros Hl Hr. cbv zeta. destruct (DiffIndexes_cases local remote) as [(_ & _ & ->)| ->];
    [split; constructor|].
  pose proof (iok_plain _ Hl) as Hp. rewrite Forall_forall in Hp. split.
  - apply Forall_forall. intros f Hf.
    assert (f ∈ ix_Files local) as (_ & _ & ?)%Hp; [|done].
    apply elem_of_app in Hf as [[? _]%elem_of_ToCreate|[? _]%elem_of_ToUpdate]; done.
  - apply Forall_forall. intros x [[f Hf] _]%elem_of_ToDelete.
    apply files_map_path in Hf as [<- Hf]. destruct Hr as [Hr|[_ Hr]].
    + pose proof (iok_plain _ Hr) as Hq. rewrite Forall_forall in Hq. by apply Hq in Hf as (_ & _ & ?).
    + rewrite Hr in Hf. by apply elem_of_nil in Hf.
Qed.

(** The plan of a fileset is honest.  It lists a file operation, which the
    change count and hence [apply] act upon, if and only if the files of the local
    tree differ from those the volume's index records. *)
Theorem fileset_resources_honest local remote :
  index_ok local -> remote_ok remote -> no_collision local remote ->
  (exists r, r ∈ fileset_resources local remote (DiffIndexes local remote)
             /\ file_operation r = true)
  <-> files_map (ix_Files local) <> files_map (ix_Files remote).
Proof.
  intros Hl Hr Hc. destruct (decide (ix_TreeHash local = ix_TreeHash remote)) as [He|Hne].
  - unfold fileset_resources. rewrite bool_decide_true by done.
    rewrite (equal_hash_equal_files local remote) by done. split; [|done].
    intros (r & ->%list_elem_of_singleton & Ho). done.
  - destruct (diff_named local remote Hl Hr) as [Hw Hd].
    rewrite file_lines_named by done. by rewrite diff_empty_iff.
Qed.

Lemma fileset_resources_honest_witness :
  let l := index_of (example_index "a") in let r := index_of (example_index "b") in
  exists x, x ∈ fileset_resources l r (DiffIndexes l r) /\ file_operation x = true.
Proof.
  intros l r. apply fileset_resources_honest; [|left| |].
  - apply example_index_ok. vm_compute. reflexivity.
  - apply example_index_ok. vm_compute. reflexivity.
  - apply example_no_collision.
  - intros Heq. apply (f_equal (lookup "a.txt")) in Heq. vm_compute in Heq. discriminate.
Defined.

(** ** Parallel and sequential planning agree *)

Section StackParallel.
Context `{MapRange} `{Schedule} (answer : DockerClient -> forall c, resp c).
Context (cfg : Config) (ctx : string) (stacks : gmap string Stack) (identifier : string)
  (client : DockerClient).

Let value (op name : string) : stackResult :=
  result_of answer (analyze_stack cfg ctx identifier op (NewServiceStateDetector (Some client))
                      name (stack_of stacks name)).

Lemma value_name op name : sr_name (value op name) = name.
Proof.
  unfold value. apply (result_of_wp answer _ (fun r => sr_name r = name)).
  unfold analyze_stack. apply wp_bind, wp_true. intros t [inline|e]; [|by apply wp_ret].
  apply wp_bind, wp_true. intros t' [[|s ss]|e]; by apply wp_ret.
Qed.

(** The operation's name only shows in errors. *)
Lemma value_op op op' name : sr_err (value op name) = None -> value op' name = value op name.
Proof.
  unfold value, analyze_stack. rewrite !result_of_bind.
  destruct (result_of answer (BuildInlineEnv _ _ _)) as [inline|e]; [|done].
  rewrite !result_of_bind.
  by destruct (result_of answer (DetectAllServicesState _ _ _ _ _)) as [[|s ss]|e].
Qed.

Lemma sequential_stacks op names s s' :
  result_of answer (for_each_res (fun s stackName =>
    r ← analyze_stack cfg ctx identifier op (NewServiceStateDetector (Some client)) stackName
          (stack_of stacks stackName);
    match sr_err r with
    | Some e => mret (Err e)
    | None => mret (Ok (record_stack r s))
    end) s names) = Ok s' ->
  Forall (fun n => sr_err (value op n) = None) names
  /\ s' = foldl (fun s n => record_stack (value op n) s) s names.
Proof.
  revert s. induction names as [|n names IH]; intros s; [by intros [= <-]|].
  cbn [for_each_res foldl]. rewrite !result_of_bind. fold (value op n).
  destruct (sr_err (value op n)) as [e|] eqn:He; [done|]. intros [HF ->]%IH.
  split; [by constructor|done].
Qed.

Lemma record_comm r1 r2 s : sr_name r1 <> sr_name r2 ->
  record_stack r1 (record_stack r2 s) = record_stack r2 (record_stack r1 s).
Proof.
  intros Hne. destruct s as [rp ec]. unfold record_stack, set_stack, set_exec_stack. simpl.
  f_equal; [f_equal; by apply insert_insert_ne|].
  destruct (sr_execData r1), (sr_execData r2); simpl; try done.
  f_equal. by apply insert_insert_ne.
Qed.

Lemma record_perm op names names' s : NoDup names -> names' ≡ₚ names ->
  foldl (fun s n => record_stack (value op n) s) s names'
  = foldl (fun s n => record_stack (value op n) s) s names.
Proof.
  intros Hnd Hp. apply foldl_perm; [|done..]. intros s0 x y _ _ Hne.
  apply record_comm. by rewrite !value_name.
Qed.
End StackParallel.

(** Planning stacks in parallel gives the sequential plan.  Against daemons whose
    answers do not change during the plan, when the sequential analysis of the
    stacks of a context succeeds, the parallel one succeeds with exactly the same
    plan and execution data, whatever order the stacks finish in. *)
Theorem plan_stacks_parallel_sequential `{MapRange} `{Schedule} answer cfg ctx stacks identifier
    client s s' :
  result_of answer (buildStackResourcesSequentialForContext cfg ctx stacks identifier client s)
    = Ok s' ->
  result_of answer (buildStackResourcesParallelForContext cfg ctx stacks identifier client s)
    = Ok s'.
Proof.
  unfold buildStackResourcesSequentialForContext, buildStackResourcesParallelForContext.
  intros [HF ->]%sequential_stacks. rewrite result_of_bind.
  set (op := "planner.buildStackResourcesSequentialForContext") in *.
  set (op' := "planner.buildStackResourcesParallelForContext").
  assert (forall names s, Forall (fun n => sr_err (result_of answer (analyze_stack cfg ctx identifier op
      (NewServiceStateDetector (Some client)) n (stack_of stacks n))) = None) names ->
    result_of answer (for_each (fun '(s, errs) stackName =>
          r ← analyze_stack cfg ctx identifier op' (WithParallel (NewServiceStateDetector (Some client)) true)
                stackName (stack_of stacks stackName);
          mret (record_stack r s, errs ++ match sr_err r with Some e => [Some e] | None => [] end))
        (s, []) names)
    = (foldl (fun s n => record_stack (result_of answer (analyze_stack cfg ctx identifier op
        (NewServiceStateDetector (Some client)) n (stack_of stacks n))) s) s names, [])) as Hpar.
  { clear s HF. induction names as [|n names IH]; intros s HF; [done|].
    apply Forall_cons in HF as [Hn HF]. cbn [for_each foldl]. rewrite !result_of_bind.
    change (WithParallel (NewServiceStateDetector (Some client)) true)
      with (NewServiceStateDetector (Some client)).
    rewrite (value_op answer cfg ctx stacks identifier client op op' n Hn), Hn.
    apply (IH _ HF). }
  rewrite Hpar by (by rewrite schedule_perm).
  rewrite (record_perm answer cfg ctx stacks identifier client op (sorted_keys stacks));
    [done|apply NoDup_sorted_keys|apply schedule_perm].
Qed.

Lemma plan_stacks_parallel_sequential_witness :
  let answer := healthy ["v"] [] [mkPs "p" "web" "web-1"] ["web"; "db"] (NFile 0 "") in
  let s := (empty_plan, NewContextExecutionContext "prod" "id") in
  let stacks := {["app" := empty_stack; "other" := empty_stack]} in
  exists s', result_of answer (buildStackResourcesSequentialForContext empty_config "prod"
      stacks "id" "prod" s) = Ok s'
    /\ result_of answer (buildStackResourcesParallelForContext empty_config "prod"
      stacks "id" "prod" s) = Ok s'
    /\ r_Action <$> default [] (rp_Stacks s'.1 !! "app") = [ActionCreate; ActionReconcile].
Proof.
  intros answer s stacks.
  destruct (result_of answer (buildStackResourcesSequentialForContext empty_config "prod"
      stacks "id" "prod" s)) as [s'|e] eqn:Hs; [|vm_compute in Hs; discriminate].
  exists s'. split; [done|]. split; [exact (plan_stacks_parallel_sequential _ _ _ _ _ _ _ _ Hs)|].
  assert (fmap (M := result error) (fun s' => r_Action <$> default [] (rp_Stacks s'.1 !! "app"))
    (result_of answer (buildStackResourcesSequentialForContext empty_config "prod"
      stacks "id" "prod" s)) = Ok [ActionCreate; ActionReconcile]) as Hv by (vm_compute; reflexivity).
  rewrite Hs in Hv. by injection Hv.
Defined.
