(* ===== verification/Validator.v ===== *)
(** * Checks of the environment ([internal/validator])

    What is verified before a command does anything: the identifier, the key file
    of the secrets, the files and directories every stack and fileset names, and
    that docker can render the compose files of every stack. *)

From S2P Require Import Prelude GoStrings GoPath Apperr Util Manifest Filesets Effects Docker ServiceState Resource Plan.

Section Checks.
Context (h : Host).

(** [os.Stat], with its error. *)
Definition stat (p : string) : res bool :=
  match os_Stat h p with
  | StatOk isDir => Ok isDir
  | StatNotExist => Err (Plain ("stat " +:+ p +:+ ": no such file or directory"))
  | StatErr e => Err e
  end.

(** [os.UserHomeDir] *)
Definition UserHomeDir : option string :=
  match os_LookupEnv h "HOME" with
  | Some home => if bool_decide (home = "") then None else Some home
  | None => None
  end.

(** [^[A-Za-z0-9-]+$] *)
Definition ident_char (c : Ascii.ascii) : bool :=
  let n := code c in
  ((65 <=? n) && (n <=? 90)) || ((97 <=? n) && (n <=? 122)) || ((48 <=? n) && (n <=? 57)) || (n =? 45).
Definition validIdent (s : string) : bool := bool_decide (s <> "") && string_forallb ident_char s.

Definition op_val : string := "validator.Validate".

Definition check_identifier (cfg : Config) : res unit :=
  if bool_decide (cfg_Identifier cfg <> "") && negb (validIdent (cfg_Identifier cfg))
  then Err (New op_val InvalidInput "identifier: must match [A-Za-z0-9-]+" []) else Ok tt.

Definition hasSopsSecrets (stacks : list (string * Stack)) : bool :=
  existsb (fun e => existsb (fun s => bool_decide (s <> "")) (st_SopsSecrets e.2)) stacks.

(** The key file, with a leading [~/] expanded when the home directory is known. *)
Definition key_path (key : string) : string :=
  if HasPrefix key "~/" then
    match UserHomeDir with Some home => PathJoin [home; TrimPrefix key "~/"] | None => key end
  else key.

Definition check_sops_key (cfg : Config) (stacks : list (string * Stack)) : res unit :=
  match cfg_Sops cfg ≫= sops_Age with
  | Some age =>
      if hasSopsSecrets stacks then
        if bool_decide (age_KeyFile age = "") then
          Err (New op_val InvalidInput "SOPS age key_file is empty but SOPS secrets are configured; if using environment variable interpolation (e.g., ${AGE_KEY_FILE}), ensure the variable is set in your environment" [])
        else
          match stat (key_path (age_KeyFile age)) with
          | Ok _ => Ok tt
          | Err e => Err (wrap op_val NotFound e "SOPS age key file %s not found"
                            [key_path (age_KeyFile age)])
          end
      else Ok tt
  | None => Ok tt
  end.

(** A stack's root is a directory. *)
Definition check_root (op stackKey root : string) : res unit :=
  if bool_decide (root <> "") then
    match stat root with
    | Err e => Err (wrap op NotFound e "stack %s root" [stackKey])
    | Ok true => Ok tt
    | Ok false => Err (New op InvalidInput "stack %s root is not a directory: %s" [stackKey; root])
    end
  else Ok tt.

(** A path of a stack, relative to its root. *)
Definition stack_path (root p : string) : string :=
  if negb (IsAbs p) && bool_decide (root <> "") then PathJoin [root; p] else p.

(** The files exist; [skip_empty] for the loop that passes over empty names. *)
Definition check_paths (op what stackKey root : string) (skip_empty : bool) (paths : list string)
  : res unit :=
  result_foldl (fun _ p =>
    if skip_empty && bool_decide (p = "") then Ok tt else
    match stat (stack_path root p) with
    | Ok _ => Ok tt
    | Err e => Err (wrap op NotFound e ("stack %s " +:+ what +:+ " %s") [stackKey; p])
    end) tt paths.

(** Docker renders the compose files. *)
Definition check_compose (client : DockerClient) (stackName : string) (stack : Stack)
  : prog (res unit) :=
  if bool_decide (st_Files stack <> []) && bool_decide (st_Root stack <> "") then
    r ← do_call client (ComposeConfigFull (mkComposeArgs (st_Root stack) (st_Files stack)
                                             (st_Profiles stack) (st_EnvFile stack) []));
    match r with
    | Ok _ => mret (Ok tt)
    | Err e =>
        c ← do_call client CtxErr;
        mret (Err (match c with
          | Some cancelled => cancelled
          | None =>
              match st_Files stack with
              | [f] => wrap op_val External e "invalid compose file %s for stack %s" [f; stackName]
              | fs => wrap op_val External e "invalid compose files %v for stack %s"
                        ["[" +:+ Join fs " " +:+ "]"; stackName]
              end
          end))
    end
  else mret (Ok tt).

(** The body of the loop over the stacks. *)
Definition validate_stack (cfg : Config) (e : string * Stack) : prog (res unit) :=
  let '(stackKey, stack) := e in
  match ParseStackKey stackKey with
  | Err err => mret (Err (wrap op_val InvalidInput err "invalid stack key %s" [stackKey]))
  | Ok (contextName, stackName) =>
      if bool_decide (cfg_Contexts cfg !! contextName = None) then
        mret (Err (New op_val InvalidInput "stack %s references unknown context %s"
                     [stackKey; contextName]))
      else
        try (check_root op_val stackKey (st_Root stack)) id (fun _ =>
        try (check_paths op_val "compose file" stackKey (st_Root stack) false (st_Files stack)) id (fun _ =>
        r ← check_compose contextName stackName stack;
        try r id (fun _ =>
        try (check_paths op_val "env file" stackKey (st_Root stack) false (st_EnvFile stack)) id (fun _ =>
        mret (check_paths op_val "sops secret" stackKey (st_Root stack) true (st_SopsSecrets stack))))))
  end.

Definition check_fileset (e : string * FilesetSpec) : res unit :=
  let '(name, fs) := e in
  if bool_decide (fs_SourceAbs fs = "") then
    Err (New op_val InvalidInput "fileset %s: source path is required" [name])
  else
    match stat (fs_SourceAbs fs) with
    | Err err => Err (wrap op_val NotFound err "fileset %s source" [name])
    | Ok true => Ok tt
    | Ok false => Err (New op_val InvalidInput "fileset %s source is not a directory: %s"
                         [name; fs_SourceAbs fs])
    end.

Context `{MapRange}.

Definition Validate (cfg : Config) : prog (res unit) :=
  try (check_identifier cfg) id (fun _ =>
  try (check_sops_key cfg (map_range "validate secrets" (GetAllStacks cfg))) id (fun _ =>
  r ← for_each_res (fun _ e => validate_stack cfg e) tt
        (map_range "validate stacks" (GetAllStacks cfg));
  try r id (fun _ =>
  mret (result_foldl (fun _ e => check_fileset e) tt
          (map_range "validate filesets" (GetAllFilesets cfg)))))).
End Checks.

(** ** What passing means *)

Section Passing.
Context (h : Host).

Definition present (p : string) : Prop := exists isDir, os_Stat h p = StatOk isDir.
Definition directory (p : string) : Prop := os_Stat h p = StatOk true.

Record stack_ready (cfg : Config) (key : string) (s : Stack) : Prop := mkStackReady {
  sr_context : exists contextName stackName, ParseStackKey key = Ok (contextName, stackName)
                 /\ is_Some (cfg_Contexts cfg !! contextName);
  sr_root : st_Root s <> "" -> directory (st_Root s);
  sr_files : Forall (fun p => present (stack_path (st_Root s) p)) (st_Files s);
  sr_env : Forall (fun p => present (stack_path (st_Root s) p)) (st_EnvFile s);
  sr_secrets : Forall (fun p => p <> "" -> present (stack_path (st_Root s) p)) (st_SopsSecrets s);
}.

Definition fileset_ready (fs : FilesetSpec) : Prop :=
  fs_SourceAbs fs <> "" /\ directory (fs_SourceAbs fs).

Record environment_ready (cfg : Config) : Prop := mkReady {
  er_identifier : cfg_Identifier cfg <> "" -> validIdent (cfg_Identifier cfg) = true;
  er_key : forall age key s secret, cfg_Sops cfg ≫= sops_Age = Some age ->
    GetAllStacks cfg !! key = Some s -> secret ∈ st_SopsSecrets s -> secret <> "" ->
    age_KeyFile age <> "" /\ present (key_path h (age_KeyFile age));
  er_stacks : forall key s, GetAllStacks cfg !! key = Some s -> stack_ready cfg key s;
  er_filesets : forall name fs, GetAllFilesets cfg !! name = Some fs -> fileset_ready fs;
}.

(** Docker rendered every compose project it was asked to. *)
Definition rendered_ok (e : event) : Prop :=
  match e with
  | Obs (On _ q) r =>
      match q return resp q -> Prop with
      | ComposeConfigFull _ => fun r => exists doc, r = Ok doc
      | _ => fun _ => True
      end r
  end.
End Passing.

Section Proofs.
Context (h : Host).

Lemma stat_present p : (exists d, stat h p = Ok d) <-> present h p.
Proof. unfold stat, present. destruct (os_Stat h p); naive_solver. Qed.

Lemma stat_directory p : stat h p = Ok true <-> directory h p.
Proof. unfold stat, directory. destruct (os_Stat h p); naive_solver. Qed.

Lemma result_foldl_unit {A} (f : A -> res unit) l :
  result_foldl (fun _ x => f x) tt l = Ok tt <-> Forall (fun x => f x = Ok tt) l.
Proof.
  induction l as [|x l IH]; simpl; [done|]. rewrite Forall_cons, <- IH.
  destruct (f x) as [[]|]; naive_solver.
Qed.

Lemma check_paths_ok op what key root b paths :
  check_paths h op what key root b paths = Ok tt
  <-> Forall (fun p => (b = true -> p <> "") -> present h (stack_path root p)) paths.
Proof.
  unfold check_paths. rewrite (result_foldl_unit (fun p => if b && bool_decide (p = "") then Ok tt else
    match stat h (stack_path root p) with
    | Ok _ => Ok tt
    | Err e => Err (wrap op NotFound e ("stack %s " +:+ what +:+ " %s") [key; p]) end)).
  apply Forall_iff. intros p. rewrite <- stat_present.
  destruct b; simpl; [case_bool_decide|]; destruct (stat h (stack_path root p)); naive_solver.
Qed.

Lemma check_root_ok op key root :
  check_root h op key root = Ok tt <-> (root <> "" -> directory h root).
Proof.
  unfold check_root. rewrite <- stat_directory. case_bool_decide; [|naive_solver].
  destruct (stat h root) as [[]|]; naive_solver.
Qed.

Lemma check_fileset_ok e : check_fileset h e = Ok tt <-> fileset_ready h e.2.
Proof.
  destruct e as [n fs]. unfold check_fileset, fileset_ready. rewrite <- stat_directory. simpl.
  case_bool_decide; [naive_solver|]. destruct (stat h (fs_SourceAbs fs)) as [[]|]; naive_solver.
Qed.

Lemma hasSopsSecrets_true stacks : hasSopsSecrets stacks = true
  <-> exists e s, e ∈ stacks /\ s ∈ st_SopsSecrets e.2 /\ s <> "".
Proof.
  unfold hasSopsSecrets. rewrite existsb_exists. setoid_rewrite existsb_exists.
  setoid_rewrite bool_decide_eq_true. setoid_rewrite <- list_elem_of_In. naive_solver.
Qed.

(** The program succeeds exactly when [P] holds and docker rendered what it was
    asked to. *)
Definition passes (P : Prop) (p : prog (res unit)) : Prop :=
  wp p (fun t r => r = Ok tt <-> P /\ Forall rendered_ok t).

Lemma passes_iff P Q p : (P <-> Q) -> passes P p -> passes Q p.
Proof. intros Heq Hp. eapply wp_mono; [exact Hp|]. intros t r Hr. simpl in Hr. tauto. Qed.

Lemma passes_ret P r : (r = Ok tt <-> P) -> passes P (mret r).
Proof. intros Hr. apply wp_ret. assert (Forall rendered_ok []) by done. tauto. Qed.

Lemma passes_try P Q r (k : unit -> prog (res unit)) :
  (r = Ok tt <-> P) -> passes Q (k tt) -> passes (P /\ Q) (try r id k).
Proof.
  intros Hr Hk. apply wp_try. destruct r as [[]|e].
  - eapply wp_mono; [exact Hk|]. naive_solver.
  - naive_solver.
Qed.

Lemma passes_bind P Q p (k : unit -> prog (res unit)) :
  passes P p -> passes Q (k tt) -> passes (P /\ Q) (r ← p; try r id k).
Proof.
  intros Hp Hk. apply wp_bind. eapply wp_mono; [exact Hp|]. intros t r Hr.
  apply wp_try. destruct r as [[]|e].
  - eapply wp_mono; [exact Hk|]. intros t' r' Hr'. rewrite Forall_app. naive_solver.
  - rewrite app_nil_r. naive_solver.
Qed.

Lemma passes_each {A} (P : A -> Prop) (f : A -> prog (res unit)) l :
  (forall x, passes (P x) (f x)) -> passes (Forall P l) (for_each_res (fun _ x => f x) tt l).
Proof.
  intros Hf. induction l as [|x l IH]; simpl; [by apply passes_ret|].
  apply wp_bind. eapply wp_mono; [apply Hf|]. intros t [[]|e] Hr; simpl in Hr.
  - eapply wp_mono; [exact IH|]. intros t' r Hr'. rewrite Forall_app, Forall_cons. naive_solver.
  - apply wp_ret. rewrite app_nil_r, Forall_cons. naive_solver.
Qed.

Lemma check_compose_passes client name s : passes True (check_compose client name s).
Proof.
  unfold check_compose. destruct (_ && _); [|by apply passes_ret].
  apply wp_bind. wp_docall. intros [doc|e].
  - apply wp_ret. split; [|done]. intros _. split; [done|]. constructor; [by exists doc|done].
  - apply wp_bind. wp_docall. intros c. apply wp_ret. split; [done|].
    intros [_ [[doc Hd] _]%Forall_cons]. done.
Qed.

Lemma validate_stack_passes cfg e : passes (stack_ready h cfg e.1 e.2) (validate_stack h cfg e).
Proof.
  destruct e as [key s]. simpl. destruct (ParseStackKey key) as [[ctx name]|err] eqn:Hk.
  - case_bool_decide as Hc.
    + apply passes_ret. split; [done|]. intros [(c & n & ? & v & Hn) _ _ _ _].
      simplify_eq. congruence.
    + eapply passes_iff;
        [|repeat first [apply passes_try; [apply check_root_ok|] | apply passes_try; [apply check_paths_ok|]
                       | apply passes_bind; [apply check_compose_passes|]
                       | apply passes_ret, check_paths_ok]].
      assert (is_Some (cfg_Contexts cfg !! ctx)) by (by apply not_eq_None_Some).
      split.
      * intros (Hr & Hf & _ & He & Hs). split; [by exists ctx, name|done|..].
        -- eapply Forall_impl; [exact Hf|]. naive_solver.
        -- eapply Forall_impl; [exact He|]. naive_solver.
        -- eapply Forall_impl; [exact Hs|]. naive_solver.
      * intros [_ Hr Hf He Hs]. split_and!; [done|..].
        -- eapply Forall_impl; [exact Hf|]. naive_solver.
        -- done.
        -- eapply Forall_impl; [exact He|]. naive_solver.
        -- eapply Forall_impl; [exact Hs|]. naive_solver.
  - apply passes_ret. split; [done|]. intros [(c & n & ? & _) _ _ _ _]. congruence.
Qed.

Lemma check_identifier_ok cfg : check_identifier cfg = Ok tt
  <-> (cfg_Identifier cfg <> "" -> validIdent (cfg_Identifier cfg) = true).
Proof.
  unfold check_identifier. case_bool_decide; simpl; [|naive_solver].
  destruct (validIdent (cfg_Identifier cfg)); simpl; naive_solver.
Qed.

Lemma check_sops_key_ok cfg stacks : check_sops_key h cfg stacks = Ok tt
  <-> forall age e s, cfg_Sops cfg ≫= sops_Age = Some age -> e ∈ stacks -> s ∈ st_SopsSecrets e.2 ->
        s <> "" -> age_KeyFile age <> "" /\ present h (key_path h (age_KeyFile age)).
Proof.
  unfold check_sops_key. destruct (cfg_Sops cfg ≫= sops_Age) as [age|]; [|naive_solver].
  destruct (hasSopsSecrets stacks) eqn:Hs.
  - apply hasSopsSecrets_true in Hs as (e & s & He & Hin & Hne).
    pose proof (stat_present (key_path h (age_KeyFile age))) as Hp.
    case_bool_decide as Hk; [split; [done|]; intros HH; by destruct (HH age e s)|].
    destruct (stat h (key_path h (age_KeyFile age))) as [d|err]; split; try done.
    + intros _ age' e' s' [= <-] _ _ _. naive_solver.
    + intros HH. destruct (HH age e s) as [_ (d & Hd)%Hp]; done.
  - split; [|done]. intros _ age' e s [= <-] He Hin Hne.
    assert (hasSopsSecrets stacks = true); [|congruence]. apply hasSopsSecrets_true. by exists e, s.
Qed.

Lemma Forall_range `{MapRange} {V} site (m : gmap string V) (P : string -> V -> Prop) :
  Forall (fun e => P e.1 e.2) (map_range site m) <-> forall k v, m !! k = Some v -> P k v.
Proof.
  rewrite Forall_forall. setoid_rewrite <- (elem_of_map_range site m). split.
  - intros HF k v Hin. exact (HF (k, v) Hin).
  - intros HF [k v] Hin. by apply HF.
Qed.
End Proofs.

Lemma Validate_checks `{MapRange} h cfg t r : exec (Validate h cfg) t r ->
  (r = Ok tt <-> environment_ready h cfg /\ Forall rendered_ok t).
Proof.
  revert t r. change (passes (environment_ready h cfg) (Validate h cfg)).
  eapply passes_iff; [|apply passes_try; [apply check_identifier_ok|];
    apply passes_try; [apply check_sops_key_ok|];
    apply passes_bind; [apply passes_each, validate_stack_passes|];
    apply passes_ret; rewrite (result_foldl_unit (check_fileset h));
    apply Forall_iff, check_fileset_ok].
  rewrite (Forall_range _ _ (stack_ready h cfg)), (Forall_range _ _ (fun _ => fileset_ready h)).
  split.
  - intros (Hi & Hk & Hs & Hf). split; [done| |done|done].
    intros age key s secret Ha Hst Hin Hne. eapply (Hk age (key, s)); try done.
    by apply elem_of_map_range.
  - intros [Hi Hk Hs Hf]. split_and!; try done.
    intros age [key s] secret Ha Hst%elem_of_map_range Hin Hne. by eapply Hk.
Qed.

(** A configuration passes validation exactly when the environment is ready
    for it and docker rendered the compose files of every stack it was asked to.
    Ready means: the identifier has the required form; the key file is named and
    exists when a stack has secrets; every stack's key names a declared context,
    its root is a directory and the compose, environment and secret files it names
    exist, relative to the root; every fileset's source is a directory.  This holds
    for whatever order Go's maps are visited in. *)
Theorem Validate_ready `{MapRange} h cfg :
  wp (Validate h cfg) (fun t r => r = Ok tt <-> environment_ready h cfg /\ Forall rendered_ok t).
Proof.
  intros t r. apply Validate_checks.
Qed.

(** Validation only reads. *)
Lemma Validate_looks `{MapRange} h cfg : always looks (Validate h cfg).
Proof.
  unfold Validate. unfold validate_stack, check_compose. always_auto.
Qed.
