(* ===== verification/Prompt.v ===== *)
(** * Interactive prompts ([internal/ui/confirm.go], [internal/ui/select.go])

    The prompts are state machines: a model, and an [Update] that maps a message to
    the next model and says whether to quit.  The runtime that delivers the messages
    and the text field are libraries: the messages are given, and the field is the
    parameter [TextInput]. *)

From S2P Require Import Prelude GoStrings.

(** ** Messages *)

Inductive KeyType := KeyCtrlC | KeyEsc | KeyEnter | KeyOther.
#[global] Instance KeyType_eq_dec : EqDecision KeyType.
Proof. solve_decision. Defined.

(** A key, with its name as text, or any other message. *)
Inductive tea_msg :=
| KeyMsg (type : KeyType) (name : string)
| OtherMsg (n : nat).

(** The runtime's loop: messages are delivered until one quits. *)
Fixpoint tea_run {M} (update : M -> tea_msg -> M * bool) (m : M) (msgs : list tea_msg) : M :=
  match msgs with
  | [] => m
  | msg :: msgs => let '(m', quit) := update m msg in if quit then m' else tea_run update m' msgs
  end.

(** The text field: made with a placeholder, changed by messages, read as text. *)
Class TextInput := {
  ti_model : Type;
  ti_new : string -> ti_model;
  ti_Update : ti_model -> tea_msg -> ti_model;
  ti_Value : ti_model -> string;
}.

(** ** Confirmation *)

Section Confirm.
Context `{TextInput}.

Record confirmModel := mkConfirm { cm_ti : ti_model; cm_confirmed : bool; cm_value : string }.

Definition newConfirmModel : confirmModel := mkConfirm (ti_new "yes") false "".

Definition confirm_Update (m : confirmModel) (msg : tea_msg) : confirmModel * bool :=
  match msg with
  | KeyMsg (KeyCtrlC | KeyEsc) _ => (m, true)
  | KeyMsg KeyEnter _ =>
      let value := TrimSpace (ti_Value (cm_ti m)) in
      (mkConfirm (cm_ti m) (bool_decide (value = "yes")) value, true)
  | _ => (mkConfirm (ti_Update (cm_ti m) msg) (cm_confirmed m) (cm_value m), false)
  end.

Record confirmIdentifierModel := mkConfirmId {
  ci_ti : ti_model; ci_identifier : string; ci_confirmed : bool; ci_value : string }.

Definition newConfirmIdentifierModel (identifier : string) : confirmIdentifierModel :=
  mkConfirmId (ti_new identifier) identifier false "".

Definition confirmIdentifier_Update (m : confirmIdentifierModel) (msg : tea_msg)
  : confirmIdentifierModel * bool :=
  match msg with
  | KeyMsg (KeyCtrlC | KeyEsc) _ => (m, true)
  | KeyMsg KeyEnter _ =>
      let value := TrimSpace (ti_Value (ci_ti m)) in
      (mkConfirmId (ci_ti m) (ci_identifier m) (bool_decide (value = ci_identifier m)) value, true)
  | _ => (mkConfirmId (ti_Update (ci_ti m) msg) (ci_identifier m) (ci_confirmed m) (ci_value m), false)
  end.

(** What the two prompts answer to a sequence of messages. *)
Definition yes_typed (msgs : list tea_msg) : bool :=
  cm_confirmed (tea_run confirm_Update newConfirmModel msgs).
Definition identifier_typed (identifier : string) (msgs : list tea_msg) : bool :=
  ci_confirmed (tea_run confirmIdentifier_Update (newConfirmIdentifierModel identifier) msgs).
End Confirm.

(** ** Selection *)

Record selectModel := mkSelect {
  sm_options : list string; sm_cursor : Z; sm_choice : Z; sm_confirmed : bool }.

Definition select_Update (m : selectModel) (msg : tea_msg) : selectModel * bool :=
  let at_cursor c := mkSelect (sm_options m) c (sm_choice m) (sm_confirmed m) in
  match msg with
  | KeyMsg _ name =>
      if bool_decide (name = "ctrl+c") || bool_decide (name = "esc") then (m, true)
      else if bool_decide (name = "up") || bool_decide (name = "k") then
        (if bool_decide (0 < sm_cursor m)%Z then at_cursor (sm_cursor m - 1)%Z else m, false)
      else if bool_decide (name = "down") || bool_decide (name = "j") then
        (if bool_decide (sm_cursor m < Z.of_nat (length (sm_options m)) - 1)%Z
         then at_cursor (sm_cursor m + 1)%Z else m, false)
      else if bool_decide (name = "enter") then
        match sm_options m with
        | [] => (m, true)
        | _ => (mkSelect (sm_options m) (sm_cursor m) (sm_cursor m) true, true)
        end
      else (m, false)
  | OtherMsg _ => (m, false)
  end.

Definition newSelectModel (options : list string) : selectModel := mkSelect options 0 0 false.

(** ** Properties *)

(** *** A confirmation is typed *)

(** Messages that end a confirmation. *)
Definition ends (msg : tea_msg) : Prop :=
  match msg with KeyMsg (KeyCtrlC | KeyEsc | KeyEnter) _ => True | _ => False end.
#[global] Instance ends_dec msg : Decision (ends msg).
Proof. destruct msg as [[] ?|?]; simpl; apply _. Defined.

Section Typed.
Context `{TextInput}.

(** The text in the field after the messages, and that enter was pressed there
    before anything else ended the prompt. *)
Definition entered (placeholder expected : string) (msgs : list tea_msg) : Prop :=
  exists before name after, msgs = before ++ KeyMsg KeyEnter name :: after
    /\ Forall (fun msg => ~ ends msg) before
    /\ TrimSpace (ti_Value (foldl ti_Update (ti_new placeholder) before)) = expected.

(** Both prompts are this one, for their expected text. *)
Fixpoint typed_from (ti : ti_model) (expected : string) (msgs : list tea_msg) : bool :=
  match msgs with
  | [] => false
  | KeyMsg (KeyCtrlC | KeyEsc) _ :: _ => false
  | KeyMsg KeyEnter _ :: _ => bool_decide (TrimSpace (ti_Value ti) = expected)
  | msg :: msgs => typed_from (ti_Update ti msg) expected msgs
  end.

Lemma confirm_typed_from m msgs : cm_confirmed m = false ->
  cm_confirmed (tea_run confirm_Update m msgs) = typed_from (cm_ti m) "yes" msgs.
Proof.
  revert m. induction msgs as [|[[] n|n] msgs IH]; intros m Hm; simpl; try done; by rewrite IH.
Qed.

Lemma confirmIdentifier_typed_from m msgs : ci_confirmed m = false ->
  ci_confirmed (tea_run confirmIdentifier_Update m msgs)
  = typed_from (ci_ti m) (ci_identifier m) msgs.
Proof.
  revert m. induction msgs as [|[[] n|n] msgs IH]; intros m Hm; simpl; try done; by rewrite IH.
Qed.

Lemma typed_from_true ti expected msgs : typed_from ti expected msgs = true
  <-> exists before name after, msgs = before ++ KeyMsg KeyEnter name :: after
        /\ Forall (fun msg => ~ ends msg) before
        /\ TrimSpace (ti_Value (foldl ti_Update ti before)) = expected.
Proof.
  split.
  - revert ti. induction msgs as [|msg msgs IH]; intros ti; simpl; [done|].
    assert (~ ends msg -> typed_from (ti_Update ti msg) expected msgs = true ->
      exists before name after, msg :: msgs = before ++ KeyMsg KeyEnter name :: after
        /\ Forall (fun msg => ~ ends msg) before
        /\ TrimSpace (ti_Value (foldl ti_Update ti before)) = expected) as Hgo.
    { intros Hne (before & name & after & -> & Hb & Hv)%IH.
      exists (msg :: before), name, after. split; [done|]. split; [by constructor|done]. }
    destruct msg as [[] n|n]; try done; try (by apply Hgo; auto).
    intros Hv%bool_decide_eq_true. by exists [], n, msgs.
  - intros (before & name & after & -> & Hb & Hv). revert ti Hv.
    induction Hb as [|msg before Hm Hb IH]; intros ti Hv; simpl in *; [by apply bool_decide_eq_true|].
    destruct msg as [[] n|n]; try (by destruct Hm); by apply IH.
Qed.

Lemma yes_typed_iff msgs : yes_typed msgs = true <-> entered "yes" "yes" msgs.
Proof. unfold yes_typed, entered. rewrite confirm_typed_from by done. apply typed_from_true. Qed.

Lemma identifier_typed_iff identifier msgs :
  identifier_typed identifier msgs = true <-> entered identifier identifier msgs.
Proof.
  unfold identifier_typed, entered. rewrite confirmIdentifier_typed_from by done. apply typed_from_true.
Qed.

(** A prompt confirms only what was typed.  The prompt of [apply] answers yes
    exactly when enter was pressed, before any key that cancels, with the text
    [yes] in the field, spaces around it aside; that of [destroy] exactly when the
    text was the identifier.  Escape, control-C and every other text answer no. *)
Theorem prompts_confirm_typed identifier msgs :
  (yes_typed msgs = true <-> entered "yes" "yes" msgs)
  /\ (identifier_typed identifier msgs = true <-> entered identifier identifier msgs).
Proof. split; [apply yes_typed_iff|apply identifier_typed_iff]. Qed.
End Typed.

(** *** A selection is an option *)

(** The cursor is on an option, and so is the choice once there is one. *)
Record select_ok (m : selectModel) : Prop := mkSelectOk {
  so_cursor : (0 <= sm_cursor m < Z.max 1 (Z.of_nat (length (sm_options m))))%Z;
  so_choice : sm_confirmed m = true -> (0 <= sm_choice m < Z.of_nat (length (sm_options m)))%Z;
}.

Lemma select_Update_ok m msg : select_ok m -> select_ok (select_Update m msg).1.
Proof.
  intros [Hc Hch]. unfold select_Update. destruct msg as [ty name|n]; [|by split].
  destruct (_ || _); [by split|]. destruct (_ || _).
  { simpl. case_bool_decide; split; simpl; [lia|done|lia|done]. }
  destruct (_ || _).
  { simpl. case_bool_decide; split; simpl; [lia|done|lia|done]. }
  destruct (bool_decide (name = "enter")); [|by split].
  destruct (sm_options m) as [|x l] eqn:Ho; simpl; [by split; rewrite Ho|].
  simpl in Hc. split; simpl; [lia|]. intros _. lia.
Qed.

Lemma select_Update_options m msg : sm_options (select_Update m msg).1 = sm_options m.
Proof.
  unfold select_Update. destruct msg as [ty name|n]; [|done].
  destruct (_ || _); [done|]. destruct (_ || _); [by case_bool_decide|].
  destruct (_ || _); [by case_bool_decide|]. destruct (bool_decide _); [|done].
  by destruct (sm_options m) eqn:Ho.
Qed.

Lemma tea_run_inv {M} (I : M -> Prop) update (m : M) msgs :
  I m -> (forall m msg, I m -> I (update m msg).1) -> I (tea_run update m msgs).
Proof.
  intros Hm Hu. revert m Hm. induction msgs as [|msg msgs IH]; intros m Hm; simpl; [done|].
  specialize (Hu m msg Hm). destruct (update m msg) as [m' []]; simpl in Hu; auto.
Qed.

(** The picker only ever chooses one of its options. *)
Lemma select_run_ok options msgs :
  let m := tea_run select_Update (newSelectModel options) msgs in
  sm_options m = options /\ select_ok m.
Proof.
  apply (tea_run_inv (fun m => sm_options m = options /\ select_ok m)).
  - split; [done|]. split; simpl; [lia|done].
  - intros m msg [Ho Hm]. split; [by rewrite select_Update_options|by apply select_Update_ok].
Qed.

(** ** Examples *)

(** A field that appends the keys typed, for examples. *)
#[global] Instance line_input : TextInput | 100 := {|
  ti_model := string;
  ti_new _ := "";
  ti_Update s msg := match msg with KeyMsg KeyOther name => s +:+ name | _ => s end;
  ti_Value s := s;
|}.

Definition type_keys (s : list string) : list tea_msg := KeyMsg KeyOther <$> s.

Example confirm_examples :
  let enter := KeyMsg KeyEnter "enter" in
  yes_typed (type_keys [" "; "y"; "e"; "s"] ++ [enter]) = true
  /\ yes_typed (type_keys ["y"; "e"] ++ [enter] ++ type_keys ["s"] ++ [enter]) = false
  /\ yes_typed (type_keys ["y"; "e"; "s"] ++ [KeyMsg KeyEsc "esc"; enter]) = false
  /\ identifier_typed "demo" (type_keys ["demo"] ++ [enter]) = true.
Proof. vm_compute. done. Qed.

Example select_example :
  let m := tea_run select_Update (newSelectModel ["a"; "b"])
             (KeyMsg KeyOther <$> ["up"; "down"; "j"; "down"; "enter"]) in
  sm_confirmed m = true /\ sm_choice m = 1%Z.
Proof. vm_compute. done. Qed.
