(* ===== verification/PromptView.v ===== *)
(** * What the prompts show ([internal/ui]: [confirm.go], [select.go])

    The option that Enter chooses is the one the picker marked, and a prompt names what
    has to be typed. *)

From S2P Require Import Prelude GoStrings Apperr Util Manifest Filesets Effects Docker ServiceState Resource Prompt.

Section Views.
Context `{TextInput} `{Styles}.
(** The field of the library, the colour of the marked line and that of a token. *)
Context (ti_View : ti_model -> string) (purpleStyle tokenStyle : string -> string).

Definition confirm_View (m : confirmModel) : string :=
  "│ Dockform will apply the changes listed above." +:+ nl
  +:+ "│ Type " +:+ tokenStyle "yes" +:+ " to confirm." +:+ nl +:+ "│" +:+ nl +:+ "│ Answer: " +:+ ti_View (cm_ti m).

Definition confirmIdentifier_View (m : confirmIdentifierModel) : string :=
  "│ This will destroy ALL managed resources with identifier '" +:+ ci_identifier m +:+ "'." +:+ nl
  +:+ "│ This operation is IRREVERSIBLE." +:+ nl +:+ "│" +:+ nl
  +:+ "│ Type the identifier name '" +:+ tokenStyle (ci_identifier m) +:+ "' to confirm." +:+ nl +:+ "│" +:+ nl
  +:+ "│ Answer: " +:+ ti_View (ci_ti m).

Definition option_line (cursor : Z) (i : nat) (opt : string) : string :=
  if bool_decide (Z.of_nat i = cursor) then purpleStyle ("[x] " +:+ opt) else "[ ] " +:+ opt.
Definition select_lines (m : selectModel) : list string := imap (option_line (sm_cursor m)) (sm_options m).
Definition select_View (title : string) (m : selectModel) : string :=
  nl +:+ render styleSectionTitle title +:+ nl +:+ foldr (fun l s => l +:+ nl +:+ s) "" (select_lines m).

(** What is marked is what Enter takes: however the picker was moved, exactly one of
    its options is marked, and when it is chosen that option is the choice. *)
Lemma marked_is_chosen options msgs ty : options <> [] ->
  let m := tea_run select_Update (newSelectModel options) msgs in
  exists i opt, options !! i = Some opt
    /\ (forall j o, options !! j = Some o ->
          select_lines m !! j = Some (if bool_decide (j = i) then purpleStyle ("[x] " +:+ o) else "[ ] " +:+ o))
    /\ sm_choice (select_Update m (KeyMsg ty "enter")).1 = Z.of_nat i
    /\ sm_confirmed (select_Update m (KeyMsg ty "enter")).1 = true.
Proof.
  intros Hne m. destruct (select_run_ok options msgs) as [Ho [Hc _]]. fold m in Ho, Hc. rewrite Ho in Hc.
  assert (0 < length options) by (destruct options; [done|cbn; lia]).
  destruct (lookup_lt_is_Some_2 options (Z.to_nat (sm_cursor m))) as [opt Hopt]; [lia|].
  exists (Z.to_nat (sm_cursor m)), opt. split; [done|].
  assert (select_Update m (KeyMsg ty "enter") = (mkSelect options (sm_cursor m) (sm_cursor m) true, true)) as ->.
  { unfold select_Update. rewrite Ho. by destruct options. }
  cbn [fst sm_choice sm_confirmed]. split; [|split; [lia|done]].
  intros j o Hj. unfold select_lines. rewrite list_lookup_imap, Ho, Hj. cbn. unfold option_line. f_equal.
  case_bool_decide; case_bool_decide; try done; lia.
Qed.
End Views.
