(* ===== verification/Orchestrate.v ===== *)
(** * Running over all contexts ([internal/planner/orchestrate.go],
    [cleanup_options.go])

    Every operation runs its function on each context, one after the other or
    concurrently, and turns the failures of the contexts into one error.  The
    goroutines of [executeParallel] talk to distinct daemons and are joined before
    anything is read: a run is the order in which they finish. *)

From S2P Require Import Prelude GoStrings GoPath Apperr Util Manifest Filesets Effects Docker ServiceState Resource Plan.

Record ContextResult := mkCtxResult { cr_ContextName : string; cr_Err : error }.

Inductive ExecutionMode := FailFast | RunToCompletion.
#[global] Instance ExecutionMode_eq_dec : EqDecision ExecutionMode.
Proof. solve_decision. Defined.

(** The parent context is asked for its error through a client of its own. *)
Definition parent : DockerClient := "".

(** The function run on a context is a closure over the variables of its caller:
    it takes their value [S] and returns the new one with its error. *)
Definition closure (S : Type) : Type := S -> string -> prog (S * option error).

(** A closure that assigns nothing. *)
Definition stateless (fn : string -> prog (option error)) : closure unit :=
  fun s name => err ← fn name; mret (s, err).

Fixpoint executeSequential {S} (contextNames : list string) (fn : closure S) (s : S)
  : prog (S * option error) :=
  match contextNames with
  | [] => mret (s, None)
  | name :: rest =>
      cancelled ← do_call parent CtxErr;
      match cancelled with
      | Some e => mret (s, Some e)
      | None => r ← fn s name;
                match r with
                | (s, Some e) => mret (s, Some e)
                | (s, None) => executeSequential rest fn s
                end
      end
  end.

Definition classifyAborted (errs : list ContextResult) (firstFailure : string) : list ContextResult :=
  (fun r => if bool_decide (cr_ContextName r = firstFailure) then r
            else mkCtxResult (cr_ContextName r) (AbortedError (cr_ContextName r) (Some (cr_Err r))))
  <$> errs.

(** Errors sorted by the name of their context. *)
Definition ctx_le (a b : ContextResult) : Prop := String.le (cr_ContextName a) (cr_ContextName b).
#[global] Instance ctx_le_dec : RelDecision ctx_le.
Proof. intros a b. unfold ctx_le. apply _. Defined.
Definition sort_results : list ContextResult -> list ContextResult := merge_sort ctx_le.

Definition result_message (r : ContextResult) : string :=
  if IsAborted (Some (cr_Err r))
  then Sprintf "context %s: aborted: another context failed" [cr_ContextName r]
  else Sprintf "context %s: %v" [cr_ContextName r; Error (cr_Err r)].

(** The error that stands for several failed contexts. *)
Definition aggregate_results (errs : list ContextResult) : error :=
  let failureCount := length (filter (fun r => IsAborted (Some (cr_Err r)) = false) errs) in
  let summary := Sprintf "%d context(s) failed" [Itoa_nat failureCount] in
  let summary := if bool_decide (failureCount <> length errs)
    then Sprintf "%s (%d aborted after a sibling failure)"
           [summary; Itoa_nat (length errs - failureCount)]
    else summary in
  E "planner.ExecuteAcrossContexts" External
    (Some (MultiError ((fun r => ContextError (cr_ContextName r) (Some (cr_Err r))) <$> errs)))
    (Sprintf ("%s:" +:+ nl +:+ "  %s") [summary; Join (result_message <$> errs) (nl +:+ "  ")]).

(** The failures in the order they happened, to the error of the whole run; the
    cancellation is ours when the parent context is still alive. *)
Definition conclude (mode : ExecutionMode) (parent_alive : bool) (errs : list ContextResult)
  : option error :=
  match errs with
  | [] => None
  | first :: _ =>
      let sorted := sort_results errs in
      let sorted := if bool_decide (mode = FailFast) && parent_alive
                    then classifyAborted sorted (cr_ContextName first) else sorted in
      match sorted with
      | [r] => Some (cr_Err r)
      | rs => Some (aggregate_results rs)
      end
  end.

Section Execute.
Context `{Schedule}.

Definition executeParallel {S} (contextNames : list string) (mode : ExecutionMode)
    (fn : closure S) (s : S) : prog (S * option error) :=
  r ← for_each (fun (st : S * list ContextResult) name =>
      r ← fn st.1 name;
      mret (r.1, match r.2 with
                 | Some e => st.2 ++ [mkCtxResult name e]
                 | None => st.2
                 end))
    (s, []) (schedule "contexts" contextNames);
  match r with
  | (s, []) => mret (s, None)
  | (s, errs) =>
      alive ← (if bool_decide (mode = FailFast)
               then c ← do_call parent CtxErr; mret (bool_decide (c = None))
               else mret true);
      mret (s, conclude mode alive errs)
  end.

Definition ExecuteAcrossContextsMode {S} (p : Planner) (cfg : Config) (mode : ExecutionMode)
    (fn : closure S) (s : S) : prog (S * option error) :=
  let contextNames := sorted_keys (cfg_Contexts cfg) in
  match contextNames with
  | [] => mret (s, None)
  | _ => if negb (pl_parallel p) || (length contextNames =? 1)
         then executeSequential contextNames fn s
         else executeParallel contextNames mode fn s
  end.

Definition ExecuteAcrossContexts {S} (p : Planner) (cfg : Config) (fn : closure S) (s : S)
  : prog (S * option error) :=
  ExecuteAcrossContextsMode p cfg RunToCompletion fn s.
End Execute.

(** ** Cleanup errors *)

Record CleanupOptions := mkCleanup { co_Strict : bool; co_VerboseErrors : bool }.

(** Errors of a cleanup count only in strict mode; otherwise they are logged. *)
Definition handleCleanupError (err : option error) (opts : CleanupOptions) : option error :=
  match err with
  | None => None
  | Some e => if co_Strict opts then Some e else None
  end.

(** ** Properties *)

Section Across.
Context (T : list event -> Prop) (HT : monoidal T) (Hctx : forall r, T [Ev parent CtxErr r]).

Lemma traces_ctx_err : traces T (do_call parent CtxErr).
Proof. refine (wp_call parent CtxErr _ _). exact Hctx. Qed.

Lemma traces_sequential {S} names (fn : closure S) s :
  (forall s n, n ∈ names -> traces T (fn s n)) -> traces T (executeSequential names fn s).
Proof using HT Hctx.
  revert s. induction names as [|n names IH]; intros s Hf; cbn [executeSequential];
    [by apply traces_ret|].
  apply traces_bind; [done|apply traces_ctx_err|]. intros [e|]; [by apply traces_ret|].
  apply traces_bind; [done|apply Hf; left|]. intros [s' [e|]]; [by apply traces_ret|].
  apply IH. intros. apply Hf. by right.
Qed.

Lemma traces_parallel `{Schedule} {S} names mode (fn : closure S) s :
  (forall s n, n ∈ names -> traces T (fn s n)) -> traces T (executeParallel names mode fn s).
Proof using HT Hctx.
  intros Hf. unfold executeParallel. apply traces_bind; [done| |].
  - apply traces_for_each; [done|]. intros [s' errs] n Hn.
    apply traces_bind; [done| |intros ?; by apply traces_ret].
    apply Hf. by rewrite schedule_perm in Hn.
  - intros [s' [|r rs]]; [by apply traces_ret|].
    apply traces_bind; [done| |intros ?; by apply traces_ret].
    case_bool_decide; [|by apply traces_ret].
    apply traces_bind; [done|apply traces_ctx_err|]. intros ?. by apply traces_ret.
Qed.

(** What every context's function promises, the whole operation promises. *)
Lemma traces_across `{Schedule} {S} p cfg mode (fn : closure S) s :
  (forall s n, is_Some (cfg_Contexts cfg !! n) -> traces T (fn s n)) ->
  traces T (ExecuteAcrossContextsMode p cfg mode fn s).
Proof using HT Hctx.
  intros Hf. unfold ExecuteAcrossContextsMode.
  destruct (sorted_keys (cfg_Contexts cfg)) as [|n ns] eqn:Hk; [by apply traces_ret|].
  assert (forall s x, x ∈ n :: ns -> traces T (fn s x)) as Hf'.
  { intros s' x Hx. apply Hf. rewrite <- Hk in Hx. by apply elem_of_sorted_keys in Hx. }
  destruct (_ || _); [by apply traces_sequential|by apply traces_parallel].
Qed.
End Across.

Lemma always_across `{Schedule} {S} P p cfg mode (fn : closure S) s :
  (forall r, P (Ev parent CtxErr r)) ->
  (forall s n, is_Some (cfg_Contexts cfg !! n) -> always P (fn s n)) ->
  always P (ExecuteAcrossContextsMode p cfg mode fn s).
Proof.
  intros Hc Hf. apply (traces_across (Forall P)); [apply monoidal_Forall| |exact Hf].
  intros r. by constructor.
Qed.

(** In strict mode the error is the outcome; otherwise there is none. *)
Lemma handleCleanupError_strict err opts :
  (co_Strict opts = true -> handleCleanupError err opts = err)
  /\ (co_Strict opts = false -> handleCleanupError err opts = None).
Proof. unfold handleCleanupError. by destruct err, (co_Strict opts). Qed.

(** *** The order of completion *)

Lemma sort_results_perm l : sort_results l ≡ₚ l.
Proof. apply merge_sort_Permutation. Qed.

Lemma sort_results_sorted l : StronglySorted ctx_le (sort_results l).
Proof.
  apply Sorted_StronglySorted.
  - intros a b c. unfold ctx_le. apply (transitivity (R := String.le)).
  - apply Sorted_merge_sort. intros a b. unfold ctx_le. apply (total String.le).
Qed.

(** Two sorted lists of results with distinct contexts are equal when they hold the
    same results. *)
Lemma sorted_results_unique l k : StronglySorted ctx_le l -> StronglySorted ctx_le k ->
  NoDup (cr_ContextName <$> l) -> l ≡ₚ k -> l = k.
Proof.
  intros Hl. revert k. induction Hl as [|a l Hl IH Ha]; intros k Hk Hnd Hp.
  { by apply Permutation_nil in Hp. }
  destruct Hk as [|b k Hk Hb]; [by apply Permutation_nil_r in Hp|].
  rewrite fmap_cons in Hnd. apply NoDup_cons in Hnd as [Hna Hnd].
  assert (a = b) as ->.
  { assert (b ∈ a :: l) as [->|Hbl]%elem_of_cons by (rewrite Hp; left); [done|].
    assert (a ∈ b :: k) as [->|Hak]%elem_of_cons by (rewrite <- Hp; left); [done|].
    rewrite Forall_forall in Ha, Hb. exfalso. apply Hna.
    assert (cr_ContextName a = cr_ContextName b) as ->.
    { apply (anti_symm String.le); [by apply Ha|by apply Hb]. }
    by apply list_elem_of_fmap_2. }
  f_equal. apply IH; [done..|]. by apply Permutation.Permutation_cons_inv in Hp.
Qed.

Lemma sort_results_unique l k : NoDup (cr_ContextName <$> l) -> l ≡ₚ k ->
  sort_results l = sort_results k.
Proof.
  intros Hnd Hp. apply sorted_results_unique; [apply sort_results_sorted..| |].
  - by rewrite sort_results_perm.
  - by rewrite !sort_results_perm.
Qed.

(** A mutating run reports the same outcome in whatever order contexts finish.
    In run-to-completion mode the error of the run depends only on which contexts
    failed and how, not on the interleaving: there is none when none failed, and
    the report lists the failures by context name. *)
Theorem conclude_order_independent alive errs errs' :
  NoDup (cr_ContextName <$> errs) -> errs ≡ₚ errs' ->
  conclude RunToCompletion alive errs = conclude RunToCompletion alive errs'.
Proof.
  intros Hnd Hp. destruct errs as [|r rs], errs' as [|r' rs'].
  - done.
  - by apply Permutation_nil_cons in Hp.
  - symmetry in Hp. by apply Permutation_nil_cons in Hp.
  - unfold conclude. rewrite bool_decide_false by done. simpl.
    by rewrite (sort_results_unique _ _ Hnd Hp).
Qed.

Lemma conclude_order_independent_witness :
  let a := mkCtxResult "a" (Plain "x") in let b := mkCtxResult "b" (Plain "y") in
  conclude RunToCompletion true [a; b] = conclude RunToCompletion true [b; a].
Proof.
  intros a b. apply conclude_order_independent.
  - by apply (bool_decide_unpack _).
  - apply perm_swap.
Defined.

(** *** Fail-fast classification *)

(** The failure of a context, as the report of a fail-fast run shows it. *)
Definition classified (first : string) (r : ContextResult) : error :=
  if bool_decide (cr_ContextName r = first) then cr_Err r
  else AbortedError (cr_ContextName r) (Some (cr_Err r)).

Lemma classifyAborted_err errs first :
  (fun r => ContextError (cr_ContextName r) (Some (cr_Err r))) <$> classifyAborted errs first
  = (fun r => ContextError (cr_ContextName r) (Some (classified first r))) <$> errs.
Proof.
  unfold classifyAborted, classified. rewrite <- list_fmap_compose. apply list_fmap_ext.
  intros _ r _. simpl. by case_bool_decide.
Qed.

Lemma conclude_failfast_shape first rest :
  rest <> [] -> NoDup (cr_ContextName <$> first :: rest) ->
  IsAborted (Some (cr_Err first)) = false ->
  exists msg, conclude FailFast true (first :: rest) =
      Some (E "planner.ExecuteAcrossContexts" External
        (Some (MultiError ((fun r => ContextError (cr_ContextName r)
            (Some (classified (cr_ContextName first) r))) <$> sort_results (first :: rest)))) msg)
    /\ HasPrefix msg "1 context(s) failed (" = true.
Proof.
  intros Hne Hnd Hab. unfold conclude. simpl.
  set (rs := sort_results (first :: rest)).
  assert (rs ≡ₚ first :: rest) as Hp by apply sort_results_perm.
  assert (2 <= length rs) as Hlen.
  { rewrite Hp. destruct rest; [done|]. simpl. lia. }
  assert (length (filter (fun r => IsAborted (Some (cr_Err r)) = false)
            (classifyAborted rs (cr_ContextName first))) = 1) as Hcount.
  { unfold classifyAborted. rewrite Hp. rewrite fmap_cons, filter_cons.
    rewrite bool_decide_true by done. rewrite decide_True by done. cbn [length]. f_equal.
    rewrite fmap_cons in Hnd. apply NoDup_cons in Hnd as [Hni _].
    assert (filter (fun r => IsAborted (Some (cr_Err r)) = false)
      (classifyAborted rest (cr_ContextName first)) = []) as Hnil;
      [|by apply (f_equal length) in Hnil].
    apply list_eq_nil_elem. intros x [Hx (r & -> & Hr)%list_elem_of_fmap]%list_elem_of_filter.
    rewrite bool_decide_false in Hx; [done|]. intros Heq. apply Hni. rewrite <- Heq.
    by apply list_elem_of_fmap_2. }
  assert (length (classifyAborted rs (cr_ContextName first)) = length rs) as Hl
    by apply length_fmap.
  assert (classifyAborted rs (cr_ContextName first) <> []) as Hcne
    by (intros Hc; rewrite Hc in Hl; simpl in Hl; lia).
  exists (match aggregate_results (classifyAborted rs (cr_ContextName first)) with
          | E _ _ _ m => m | _ => "" end).
  rewrite <- classifyAborted_err. split.
  - destruct (classifyAborted rs (cr_ContextName first)) as [|x [|y zs]]; [done| |done].
    simpl in Hl. lia.
  - unfold aggregate_results. rewrite Hcount.
    rewrite bool_decide_true by (rewrite Hl; lia). reflexivity.
Qed.

(** The context that failed first is never called aborted.  When a fail-fast run
    ends with several errors and the user did not cancel it, the report holds
    exactly one entry per failed context: the first failure with its own error,
    every other wrapped as aborted with its error still inside, so no error is
    lost; and the count of genuine failures is one. *)
Theorem conclude_failfast first rest :
  rest <> [] -> NoDup (cr_ContextName <$> first :: rest) ->
  IsAborted (Some (cr_Err first)) = false ->
  exists msg, conclude FailFast true (first :: rest) =
      Some (E "planner.ExecuteAcrossContexts" External
        (Some (MultiError ((fun r => ContextError (cr_ContextName r)
            (Some (classified (cr_ContextName first) r))) <$> sort_results (first :: rest)))) msg)
    /\ HasPrefix msg "1 context(s) failed (" = true.
Proof. apply conclude_failfast_shape. Qed.

Lemma conclude_failfast_witness :
  let a := mkCtxResult "a" (Plain "signal: killed") in
  let b := mkCtxResult "b" (Plain "no route to host") in
  exists msg, conclude FailFast true [b; a] =
      Some (E "planner.ExecuteAcrossContexts" External
        (Some (MultiError [ContextError "a" (Some (AbortedError "a" (Some (Plain "signal: killed"))));
                           ContextError "b" (Some (Plain "no route to host"))])) msg).
Proof.
  intros a b. destruct (conclude_failfast b [a]) as (msg & Hm & _).
  - discriminate.
  - by apply (bool_decide_unpack _).
  - reflexivity.
  - exists msg. exact Hm.
Defined.

(** *** Which contexts run *)

(** A complete run of the closure on [n] is part of the trace. *)
Definition ran {S} (fn : closure S) (n : string) (t : list event) : Prop :=
  exists s t1 t2 t3 r, t = t1 ++ t2 ++ t3 /\ exec (fn s n) t2 r.

Lemma ran_app {S} (fn : closure S) n t t' t'' : ran fn n t -> ran fn n (t' ++ t ++ t'').
Proof.
  intros (s & t1 & t2 & t3 & r & -> & Hr). exists s, (t' ++ t1), t2, (t3 ++ t''), r.
  by rewrite <- !(assoc_L (++)).
Qed.

Lemma for_each_runs {S T} (fn : closure S) (k : T -> string -> S * option error -> T)
    (view : T -> S) names s :
  wp (for_each (fun s n => r ← fn (view s) n; mret (k s n r)) s names)
    (fun t _ => Forall (fun n => ran fn n t) names).
Proof.
  revert s. induction names as [|n names IH]; intros s; cbn [for_each]; [by apply wp_ret|].
  apply wp_bind. intros t1 s1 He. apply exec_bind in He as (u1 & u2 & r & -> & Hfn & [-> ->]).
  eapply wp_mono; [apply IH|]. intros t2 a HF. simpl in HF. constructor.
  - exists (view s), [], u1, t2, r. split; [by rewrite app_nil_r|done].
  - eapply Forall_impl; [exact HF|]. intros m Hm. rewrite <- (app_nil_r t2). by apply ran_app.
Qed.

(** A run of the closure on [n] that ended without an error is part of the trace. *)
Definition succeeded {S} (fn : closure S) (n : string) (t : list event) : Prop :=
  exists s t1 t2 t3 r, t = t1 ++ t2 ++ t3 /\ exec (fn s n) t2 r /\ r.2 = None.

Lemma succeeded_app {S} (fn : closure S) n t t' t'' : succeeded fn n t -> succeeded fn n (t' ++ t ++ t'').
Proof.
  intros (s & t1 & t2 & t3 & r & -> & Hr). exists s, (t' ++ t1), t2, (t3 ++ t''), r.
  by rewrite <- !(assoc_L (++)).
Qed.

Lemma conclude_None mode alive errs : conclude mode alive errs = None -> errs = [].
Proof.
  unfold conclude. destruct errs as [|r rs]; [done|]. cbv zeta.
  match goal with |- context [if ?b then ?x else ?y] => by destruct (if b then x else y) as [|? [|? ?]] end.
Qed.

Lemma sequential_succeeded {S} names (fn : closure S) s :
  wp (executeSequential names fn s) (fun t r => r.2 = None -> Forall (fun n => succeeded fn n t) names).
Proof.
  revert s. induction names as [|n names IH]; intros s; cbn [executeSequential]; [by apply wp_ret|].
  apply wp_bind. wp_docall. intros [e|]; [by apply wp_ret|]. apply wp_bind. intros t [s1 [e|]] Hr; [by apply wp_ret|].
  eapply wp_mono; [apply IH|]. intros t' r Hall Hok. constructor.
  - exists s, [Ev parent CtxErr None], t, t', (s1, None). done.
  - eapply Forall_impl; [exact (Hall Hok)|]. intros m Hm. rewrite <- (app_nil_r t'), (assoc_L (++)).
    by apply succeeded_app.
Qed.

(** The contexts that failed are gathered; the others succeeded. *)
Lemma gathered_succeeded {S} names (fn : closure S) (st : S * list ContextResult) :
  wp (for_each (fun (st : S * list ContextResult) name =>
      r ← fn st.1 name;
      mret (r.1, match r.2 with Some e => st.2 ++ [mkCtxResult name e] | None => st.2 end)) st names)
    (fun t st' => st'.2 = [] -> st.2 = [] /\ Forall (fun n => succeeded fn n t) names).
Proof.
  revert st. induction names as [|n names IH]; intros st; cbn [for_each]; [by apply wp_ret|].
  apply wp_bind. intros t1 s1 He. apply exec_bind in He as (u1 & u2 & r & -> & Hfn & [-> ->]).
  eapply wp_mono; [apply IH|]. intros t2 st' Hall Hnil. destruct (Hall Hnil) as [Hst HF]. cbn in Hst.
  destruct r as [s' [e|]]; cbn in Hst; [by destruct (st.2)|]. split; [done|]. constructor.
  - exists st.1, [], u1, t2, (s', None). by rewrite app_nil_r.
  - eapply Forall_impl; [exact HF|]. intros m Hm. rewrite <- (app_nil_r t2). by apply succeeded_app.
Qed.

(** When the whole run reports no error, it succeeded on every context. *)
Lemma across_succeeded `{Schedule} {S} p cfg mode (fn : closure S) s :
  wp (ExecuteAcrossContextsMode p cfg mode fn s) (fun t r => r.2 = None ->
    forall n, is_Some (cfg_Contexts cfg !! n) -> succeeded fn n t).
Proof.
  assert (forall names, (forall n, is_Some (cfg_Contexts cfg !! n) -> n ∈ names) -> forall (r : S * option error) t,
    (r.2 = None -> Forall (fun n => succeeded fn n t) names) ->
    r.2 = None -> forall n, is_Some (cfg_Contexts cfg !! n) -> succeeded fn n t) as Hall.
  { intros names Hn r t HF Hok n Hin. specialize (HF Hok). rewrite Forall_forall in HF. by apply HF, Hn. }
  specialize (Hall (sorted_keys (cfg_Contexts cfg)) (fun n => proj2 (elem_of_sorted_keys _ n))).
  unfold ExecuteAcrossContextsMode. destruct (sorted_keys (cfg_Contexts cfg)) as [|n0 names].
  { apply wp_ret. apply Hall. by constructor. }
  destruct (_ || _).
  - eapply wp_mono; [apply sequential_succeeded|]. intros t r HF. by apply Hall.
  - unfold executeParallel. apply wp_bind. eapply wp_mono; [apply gathered_succeeded|].
    intros t [s' errs] HF. cbn [snd] in HF. destruct errs as [|e errs].
    + apply wp_ret. rewrite app_nil_r. apply Hall. intros _. destruct (HF eq_refl) as [_ HF'].
      rewrite Forall_forall in HF'. apply Forall_forall. intros n Hn. apply HF'. by rewrite schedule_perm.
    + apply wp_bind. apply wp_true. intros t' alive. apply wp_ret. cbn [snd]. by intros ?%conclude_None.
Qed.

(** Run to completion.  A parallel run executes the operation on every context
    to its end, whichever contexts fail before: no context is skipped or left half
    way because another host failed (in fail-fast mode its calls may answer that
    they were cancelled). *)
Theorem executeParallel_runs_all `{Schedule} {S} names mode (fn : closure S) s :
  wp (executeParallel names mode fn s) (fun t _ => Forall (fun n => ran fn n t) names).
Proof.
  unfold executeParallel. apply wp_bind. eapply wp_mono.
  - apply (for_each_runs fn (fun (st : S * list ContextResult) name r =>
      (r.1, match r.2 with Some e => st.2 ++ [mkCtxResult name e] | None => st.2 end)) fst).
  - intros t errs HF. simpl in HF. apply wp_true. intros t' r. rewrite Forall_forall in HF.
    apply Forall_forall. intros n Hn. apply (ran_app _ _ _ []), HF. by rewrite schedule_perm.
Qed.

(** A sequential run stops at the first failure.  With [--sequential] (or a
    single context) the same operation, asked to run to completion, leaves the
    contexts after the first failing one untouched: nothing is called for them. *)
Theorem executeSequential_stops_early {S} n rest (fn : closure S) s :
  wp (fn s n) (fun _ r => is_Some r.2) ->
  wp (executeSequential (n :: rest) fn s)
    (fun t r => is_Some r.2 /\ exists c t', t = Ev parent CtxErr c :: t'
                /\ (t' = [] \/ exists r', exec (fn s n) t' r')).
Proof.
  intros Hfail. cbn [executeSequential]. apply wp_bind. wp_docall. intros [e|].
  - apply wp_ret. split; [by eexists|]. exists (Some e), []. auto.
  - apply wp_bind. intros t [s' r] He. destruct (Hfail t _ He) as [e Hr]. simpl in Hr. subst r.
    apply wp_ret. split; [by eexists|]. exists None, (t ++ []). split; [done|]. right.
    exists (s', Some e). by rewrite app_nil_r.
Qed.

Lemma executeSequential_stops_early_witness :
  let fn := stateless (fun n => e ← do_call n ListVolumes; mret (Some (Plain "failed"))) in
  wp (executeSequential ["a"; "b"] fn tt)
    (fun t r => is_Some r.2 /\ exists c t', t = Ev parent CtxErr c :: t'
                /\ (t' = [] \/ exists r', exec (fn tt "a") t' r')).
Proof.
  intros fn. apply executeSequential_stops_early.
  apply wp_bind, wp_bind. apply wp_true. intros t r. apply wp_ret, wp_ret. by eexists.
Defined.
