(* ===== verification/Ownership.v ===== *)
(** * Ownership scripts ([internal/planner/apply_ownership.go])

    The shell script that sets owner and modes of a fileset inside a helper
    container, and the step of the synchronisation that runs it. *)

From S2P Require Import Prelude GoStrings GoPath Apperr Util Manifest Validation Filesets Effects Docker.

Definition line (s : string) : string := s +:+ nl.

Definition isNumeric (s : string) : bool :=
  bool_decide (s <> "") && string_forallb is_digit s.

(** A path or value in single quotes. *)
Definition shellEscape (s : string) : string := ShellEscape s.
Definition quoted (s : string) : string := "'" +:+ shellEscape s +:+ "'".
(** A text in double quotes. *)
Definition dquoted (s : string) : string := dq +:+ s +:+ dq.

(** Lines that set [var] to the numeric id of [name]. *)
Definition resolve_id (what db var name : string) : string :=
  line ("# Resolve " +:+ what +:+ " ID") +:+
  (if isNumeric name then line (var +:+ "=" +:+ quoted name)
   else
     line ("if getent " +:+ db +:+ " " +:+ quoted name +:+ " >/dev/null 2>&1; then")
     +:+ line ("  " +:+ var +:+ "=$(getent " +:+ db +:+ " " +:+ quoted name +:+ " | cut -d: -f3)")
     +:+ line "else"
     +:+ line ("  echo 'WARNING: " +:+ what +:+ " " +:+ dq +:+ shellEscape name +:+ dq
               +:+ " not found in helper image; skipping chown'")
     +:+ line ("  " +:+ var +:+ "=''")
     +:+ line "fi").

(** The parents of a path below the root, nearest first; a path has at most as many
    parents as bytes. *)
Fixpoint parent_dirs (fuel : nat) (rootPath dir : string) : list string :=
  match fuel with
  | 0 => []
  | S fuel =>
      if bool_decide (dir <> rootPath) && bool_decide (dir <> "/mnt") && bool_decide (dir <> "/")
      then dir :: parent_dirs fuel rootPath (Dir dir) else []
  end.

Definition full_path (rootPath : string) (f : FileEntry) : string := PathJoin [rootPath; fe_Path f].

Definition updated_files (rootPath : string) (d : Diff) : list string :=
  full_path rootPath <$> (ToCreate d ++ ToUpdate d).
Definition updated_dirs (rootPath : string) (d : Diff) : gset string :=
  list_to_set (mjoin ((fun p => parent_dirs (S (String.length p)) rootPath (Dir p))
                        <$> updated_files rootPath d)).

Definition set_ids (own : Ownership) : bool :=
  bool_decide (own_User own <> "") || bool_decide (own_Group own <> "").

Definition has_both : string :=
  "if [ -n " +:+ dquoted "${UID_VAL:-}" +:+ " ] && [ -n " +:+ dquoted "${GID_VAL:-}" +:+ " ]; then".
Definition has_uid : string := "elif [ -n " +:+ dquoted "${UID_VAL:-}" +:+ " ]; then".
Definition has_gid : string := "elif [ -n " +:+ dquoted "${GID_VAL:-}" +:+ " ]; then".

Definition chmod_line (test mode path : string) : string :=
  line ("[ -" +:+ test +:+ " " +:+ quoted path +:+ " ] && chmod " +:+ quoted mode +:+ " "
        +:+ quoted path +:+ " 2>/dev/null || true").
Definition chown_line (ids path : string) : string :=
  line ("  [ -e " +:+ quoted path +:+ " ] && chown " +:+ dquoted ids +:+ " " +:+ quoted path
        +:+ " 2>/dev/null || true").

Definition buildPreserveExistingScript `{MapRange} (rootPath : string) (own : Ownership) (d : Diff)
  : string :=
  let files := updated_files rootPath d in
  let dirs := updated_dirs rootPath d in
  let allPaths := files ++ set_range "owned directories" dirs in
  (if bool_decide (own_DirMode own <> "") && bool_decide (dirs <> ∅) then
     line "# Apply directory mode to updated directories"
     +:+ Join (chmod_line "d" (own_DirMode own) <$> set_range "directory modes" dirs) ""
   else "")
  +:+ (if bool_decide (own_FileMode own <> "") && bool_decide (files <> []) then
     line "# Apply file mode to updated files"
     +:+ Join (chmod_line "f" (own_FileMode own) <$> files) ""
   else "")
  +:+ (if set_ids own then
     line "# Apply ownership to updated paths"
     +:+ line has_both +:+ Join (chown_line "$UID_VAL:$GID_VAL" <$> allPaths) ""
     +:+ line has_uid +:+ Join (chown_line "$UID_VAL" <$> allPaths) ""
     +:+ line has_gid +:+ Join (chown_line ":$GID_VAL" <$> allPaths) ""
     +:+ line "fi"
   else "").

Definition find_chmod (t mode rootPath : string) : string :=
  line ("find " +:+ quoted rootPath +:+ " -type " +:+ t +:+ " -exec chmod " +:+ quoted mode
        +:+ " {} + 2>/dev/null || true").
Definition chown_R (ids rootPath : string) : string :=
  line ("  chown -R " +:+ dquoted ids +:+ " " +:+ quoted rootPath +:+ " 2>/dev/null || true").

Definition buildRecursiveOwnershipScript (rootPath : string) (own : Ownership) : string :=
  line "# Apply to entire subtree"
  +:+ (if bool_decide (own_DirMode own <> "") then find_chmod "d" (own_DirMode own) rootPath else "")
  +:+ (if bool_decide (own_FileMode own <> "") then find_chmod "f" (own_FileMode own) rootPath else "")
  +:+ (if set_ids own then
     line has_both +:+ chown_R "$UID_VAL:$GID_VAL" rootPath
     +:+ line has_uid +:+ chown_R "$UID_VAL" rootPath
     +:+ line has_gid +:+ chown_R ":$GID_VAL" rootPath
     +:+ line "fi"
   else "").

Definition buildOwnershipScript `{MapRange} (targetPath : string) (own : Ownership) (d : Diff)
  : res string :=
  let op := "planner.buildOwnershipScript" in
  let cleanPath := Clean targetPath in
  if bool_decide (cleanPath = "/") || bool_decide (cleanPath = ".") then
    Err (New op InvalidInput "unsafe target path: %s" [targetPath])
  else if Contains cleanPath ".." then
    Err (New op InvalidInput "target path contains ..: %s" [targetPath])
  else
    Ok (line "set -e"
        +:+ (if bool_decide (own_User own <> "")
             then resolve_id "user" "passwd" "UID_VAL" (own_User own) else "")
        +:+ (if bool_decide (own_Group own <> "")
             then resolve_id "group" "group" "GID_VAL" (own_Group own) else "")
        +:+ (if own_PreserveExisting own then buildPreserveExistingScript cleanPath own d
             else buildRecursiveOwnershipScript cleanPath own)
        +:+ line "echo 'Ownership applied successfully'").

(** Nothing is set: there is nothing to apply. *)
Definition ownership_empty (own : Ownership) : bool :=
  bool_decide (own_User own = "") && bool_decide (own_Group own = "")
  && bool_decide (own_FileMode own = "") && bool_decide (own_DirMode own = "").

Definition applyOwnership `{MapRange} (client : DockerClient) (name : string) (f : FilesetSpec)
    (d : Diff) : prog (option error) :=
  let op := "filesetmanager.applyOwnership" in
  match fs_Ownership f with
  | None => mret None
  | Some own =>
      if ownership_empty own then mret None else
      match buildOwnershipScript (fs_TargetPath f) own d with
      | Err e => mret (Some (wrap op Internal e "build ownership script for %s" [name]))
      | Ok script =>
          result ← do_call client (RunVolumeScript (fs_TargetVolume f) (fs_TargetPath f) script []);
          match result with
          | Err e => mret (Some (wrap op External e "apply ownership for fileset %s" [name]))
          | Ok _ => mret None
          end
      end
  end.

(** ** Properties *)

(** The only call an ownership step makes is the script, in the fileset's volume. *)
Lemma applyOwnership_calls `{MapRange} client name f d :
  always (fun e => exists script, ev_call e = RunVolumeScript (fs_TargetVolume f) (fs_TargetPath f) script []
            /\ ev_client e = client) (applyOwnership client name f d).
Proof. unfold applyOwnership. always_auto. eauto. Qed.

(** Ownership never works at the root of a volume.  Discovered filesets get the
    target path "/", which the script builder rejects as unsafe; so configuring
    any ownership for such a fileset makes every synchronisation of it fail. *)
Theorem applyOwnership_root_fails `{MapRange} client name f own d :
  fs_TargetPath f = "/" -> fs_Ownership f = Some own -> ownership_empty own = false ->
  wp (applyOwnership client name f d) (fun t r => t = [] /\ is_Some r).
Proof.
  intros Hp Ho He. unfold applyOwnership. rewrite Ho, He. unfold buildOwnershipScript.
  rewrite Hp. simpl. apply wp_ret. by split; [|eexists].
Qed.

Lemma applyOwnership_root_fails_witness :
  let f := mkFileset "html" "v" "/" (mkRestart false []) "hot" []
             (Some (mkOwnership "1000" "" "" "" false)) "/s" "prod" "web" in
  wp (applyOwnership "prod" "fs" f (mkDiff [] [] [])) (fun t r => t = [] /\ is_Some r).
Proof. intros f. eapply applyOwnership_root_fails; reflexivity. Defined.
