(* ===== verification/Apply.v ===== *)
(** * Applying a plan ([internal/planner/apply.go], [apply_filesets.go],
    [apply_resources.go], [apply_restarts.go], [targets.go])

    For one context: create the missing volumes and networks, synchronise the
    filesets, bring the stacks up, restart what the filesets ask for.  Progress
    labels and logs are left out. *)

From S2P Require Import Prelude GoStrings GoPath Apperr Util Manifest Validation Filesets Effects Docker ServiceState Resource Plan Orchestrate Ownership.

(** ** Volumes and networks *)

Definition identifier_labels (identifier : string) : gmap string string :=
  if bool_decide (identifier <> "") then {[label_identifier := identifier]} else ∅.

(** Creates the missing volumes; returns those that exist afterwards. *)
Definition EnsureVolumesExistForContext `{MapRange} (client : DockerClient) (cfg : Config)
    (contextName : string) (labels : gmap string string) : prog (res (gset string)) :=
  let op := "resourcemanager.EnsureVolumesExistForContext" in
  vols ← do_call client ListVolumes;
  match vols with
  | Err e => mret (Err (wrap op External e "list volumes" []))
  | Ok vols =>
      for_each_res (fun existing name =>
        if decide (name ∈ existing) then mret (Ok existing) else
        r ← do_call client (CreateVolume name labels);
        match r with
        | Err e => mret (Err (wrap op External e "create volume %s" [name]))
        | Ok _ => mret (Ok ({[name]} ∪ existing))
        end) (list_to_set vols : gset string)
        (set_range "desired volumes" (desired_volumes cfg contextName (cfg_Contexts cfg !! contextName)))
  end.

(** Creates the missing networks; the options of their specification are not
    passed on. *)
Definition EnsureNetworksExistForContext `{MapRange} (client : DockerClient) (cfg : Config)
    (contextName : string) (labels : gmap string string) (existing : gset string)
  : prog (res unit) :=
  let op := "resourcemanager.EnsureNetworksExistForContext" in
  for_each_res (fun (_ : unit) name =>
    if decide (name ∈ existing) then mret (Ok tt) else
    r ← do_call client (CreateNetwork name labels []);
    match r with
    | Err e => mret (Err (wrap op External e "create network %s" [name]))
    | Ok _ => mret (Ok tt)
    end) tt (set_range "networks" (desired_networks (cfg_Contexts cfg !! contextName))).

(** ** The services a fileset restarts *)

Definition resolveTargetServices (client : DockerClient) (f : FilesetSpec)
  : prog (res (list string)) :=
  let op := "planner.resolveTargetServices" in
  if negb (rt_Attached (fs_RestartServices f)) then
    mret (Ok (dedup (filter (fun s => s <> "") (rt_Services (fs_RestartServices f)))))
  else
  vols ← do_call client (ListContainersUsingVolume (fs_TargetVolume f));
  match vols with
  | Err e => mret (Err (wrap op External e "list containers using volume %s" [fs_TargetVolume f]))
  | Ok [] => mret (Ok [])
  | Ok volNames =>
      items ← do_call client ListComposeContainersAll;
      match items with
      | Err e => mret (Err (wrap op External e "list compose containers for volume %s"
                              [fs_TargetVolume f]))
      | Ok items =>
          let serviceSet : gset string := list_to_set (ps_Service <$>
            filter (fun it => ps_Name it ∈ volNames /\ ps_Service it <> "") items) in
          mret (Ok (sorted_elements serviceSet))
      end
  end.

(** ** Filesets *)

Definition op_sync : string := "filesetmanager.SyncFilesetsForContext".

(** Create and update: one tar of the changed files, extracted into the volume. *)
Definition syncFilesetFiles (client : DockerClient) (name : string) (f : FilesetSpec) (d : Diff)
  : prog (option error) :=
  let op := "filesetmanager.syncFilesetFiles" in
  match sort_strings (fe_Path <$> (ToCreate d ++ ToUpdate d)) with
  | [] => mret None
  | paths =>
      files ← do_call client (ReadLocal (fs_SourceAbs f));
      match TarFilesToWriter (lf_Lstat files) (lf_Open files) (fs_SourceAbs f) paths with
      | Err e => mret (Some (wrap op Internal e "build tar for fileset %s" [name]))
      | Ok tar =>
          r ← do_call client (ExtractTarToVolume (fs_TargetVolume f) (fs_TargetPath f) tar);
          mret match r with
               | Err e => Some (wrap op External e "extract tar for fileset %s" [name])
               | Ok _ => None
               end
      end
  end.

Definition deleteFilesetFiles (client : DockerClient) (name : string) (f : FilesetSpec) (d : Diff)
  : prog (option error) :=
  match ToDelete d with
  | [] => mret None
  | paths =>
      r ← do_call client (RemovePathsFromVolume (fs_TargetVolume f) (fs_TargetPath f) paths);
      mret match r with
           | Err e => Some (wrap "filesetmanager.deleteFilesetFiles" External e
                              "delete files for fileset %s" [name])
           | Ok _ => None
           end
  end.

Definition writeFilesetIndex `{IndexCodec} (client : DockerClient) (name : string)
    (f : FilesetSpec) (index : Index) : prog (option error) :=
  let op := "filesetmanager.writeFilesetIndex" in
  match ToJSON index with
  | Err e => mret (Some (wrap op Internal e "encode index for %s" [name]))
  | Ok jsonStr =>
      r ← do_call client (WriteFileToVolume (fs_TargetVolume f) (fs_TargetPath f) IndexFileName jsonStr);
      mret match r with
           | Err e => Some (wrap op External e "write index for fileset %s" [name])
           | Ok _ => None
           end
  end.

(** The first container listed of each target service. *)
Definition containers_of (items : list PsBrief) (services : list string) : list string :=
  omap (fun svc => if bool_decide (svc = "") then None
                   else ps_Name <$> head (filter (fun it => ps_Service it = svc) items)) services.

(** A step whose failure ends the synchronisation. *)
Definition then_step (p q : prog (option error)) : prog (option error) :=
  r ← p; match r with Some e => mret (Some e) | None => q end.

Section SyncOne.
Context `{MapRange} `{IndexCodec}.
Context (client : DockerClient) (name : string) (f : FilesetSpec) (local : Index) (diff : Diff).

(** Files, deletions, index, ownership, in this order. *)
Definition sync_steps : prog (option error) :=
  then_step (syncFilesetFiles client name f diff)
 (then_step (deleteFilesetFiles client name f diff)
 (then_step (writeFilesetIndex client name f local)
            (applyOwnership client name f diff))).

(** Start the containers that were stopped, keeping the error that ended it. *)
Definition restartColdContainersOnFailure (stopped : list string) (baseErr : error)
  : prog error :=
  match stopped with
  | [] => mret baseErr
  | _ =>
      r ← do_call client (StartContainers stopped);
      mret match r with
           | Ok _ => baseErr
           | Err e =>
               default baseErr (Aggregate op_sync External
                 "fileset sync failed and cold-mode service restart also failed"
                 [Some baseErr;
                  Some (wrap op_sync External e "restart cold-mode containers for fileset %s" [name])])
           end
  end.

(** The steps, with the stopped containers started again on every way out. *)
Definition sync_stopped (stopped : list string) : prog (option error) :=
  r ← sync_steps;
  match r with
  | Some e => e' ← restartColdContainersOnFailure stopped e; mret (Some e')
  | None =>
      match stopped with
      | [] => mret None
      | _ =>
          r ← do_call client (StartContainers stopped);
          mret match r with
               | Err e => Some (wrap op_sync External e
                                  "restart cold-mode containers for fileset %s" [name])
               | Ok _ => None
               end
      end
  end.

(** In cold mode, stop the containers of the target services first. *)
Definition stop_cold (targetServices : list string) : prog (res (list string)) :=
  match targetServices with
  | [] => mret (Ok [])
  | _ =>
      items ← do_call client ListComposeContainersAll;
      match items with
      | Err e => mret (Err (wrap op_sync External e "list compose containers for cold fileset %s" [name]))
      | Ok items =>
          match containers_of items targetServices with
          | [] => mret (Ok [])
          | toStop =>
              r ← do_call client (StopContainers toStop);
              mret match r with
                   | Err e => Err (wrap op_sync External e
                                     "stop cold-mode containers for fileset %s" [name])
                   | Ok _ => Ok toStop
                   end
          end
      end
  end.

(** A fileset whose tree differs: returns the services to restart later. *)
Definition sync_changed : prog (res (list string)) :=
  let isCold := bool_decide (fs_ApplyMode f = "cold") in
  targets ← resolveTargetServices client f;
  try targets (fun e => wrap op_sync External e "resolve target services for fileset %s" [name])
    (fun targetServices =>
  stopped ← (if isCold then stop_cold targetServices else mret (Ok []));
  try stopped id (fun stopped =>
  r ← sync_stopped stopped;
  match r with
  | Some e => mret (Err e)
  | None => mret (Ok (if isCold then [] else filter (fun s => s <> "") targetServices))
  end)).
End SyncOne.

Section SyncAll.
Context `{MapRange} `{Glob} `{IndexCodec}.
Context (client : DockerClient).

(** The indexes and the diff of a fileset: from the plan, or computed afresh. *)
Definition fileset_data (name : string) (f : FilesetSpec) (existingVolumes : gset string)
    (execCtx : option ContextExecutionContext) : prog (res FilesetExecutionData) :=
  match execCtx ≫= (fun ec => ec_Filesets ec !! name) with
  | Some d => mret (Ok d)
  | None =>
      local ← local_index client f;
      try local (fun e => wrap op_sync Internal e "index local filesets for %s" [name]) (fun local =>
      raw ← (if decide (fs_TargetVolume f ∈ existingVolumes)
             then do_call client (ReadFileFromVolume (fs_TargetVolume f) (fs_TargetPath f) IndexFileName)
             else mret (Ok ""));
      try raw (fun e => wrap op_sync External e "read index file for fileset %s" [name]) (fun raw =>
      try (ParseIndexJSON raw) (fun e => wrap op_sync External e "parse remote index for fileset %s" [name])
        (fun remote => mret (Ok (mkFilesetExec local remote (DiffIndexes local remote))))))
  end.

(** One fileset: skipped when the hashes agree. *)
Definition sync_fileset (existingVolumes : gset string)
    (execCtx : option ContextExecutionContext) (restartPending : gset string)
    (e : string * FilesetSpec) : prog (res (gset string)) :=
  let '(name, f) := e in
  if bool_decide (fs_SourceAbs f = "") then
    mret (Err (New op_sync InvalidInput "fileset %s: resolved source path is empty" [name]))
  else
  d ← fileset_data name f existingVolumes execCtx;
  try d id (fun d =>
  if bool_decide (ix_TreeHash (fe_LocalIndex d) = ix_TreeHash (fe_RemoteIndex d))
  then mret (Ok restartPending)
  else
    r ← sync_changed client name f (fe_LocalIndex d) (fe_Diff d);
    try r id (fun services => mret (Ok (list_to_set services ∪ restartPending)))).

Definition SyncFilesetsForContext (cfg : Config) (contextName : string)
    (existingVolumes : gset string) (execCtx : option ContextExecutionContext)
  : prog (res (gset string)) :=
  for_each_res (sync_fileset existingVolumes execCtx) ∅
    (sorted_entries (GetFilesetsForContext cfg contextName)).
End SyncAll.

(** ** Stacks *)

Definition op_apply : string := "planner.Apply".

(** Put the identifier on a container that lacks it; failures are gathered. *)
Definition label_container (client : DockerClient) (identifier : string)
    (errs : list (option error)) (it : ComposePsItem) : prog (list (option error)) :=
  labels ← do_call client (InspectContainerLabels (psi_Name it) [label_identifier]);
  match labels with
  | Err e => mret (errs ++ [Some (wrap op_apply External e
                              "inspect identifier label for container %s" [psi_Name it])])
  | Ok labels =>
      if bool_decide (labels !! label_identifier = Some identifier) then mret errs else
      r ← do_call client (UpdateContainerLabels (psi_Name it) {[label_identifier := identifier]});
      mret match r with
           | Err e => errs ++ [Some (wrap op_apply External e
                                "update identifier label for container %s" [psi_Name it])]
           | Ok _ => errs
           end
  end.

Section ApplyContext.
Context `{MapRange} `{Schedule} `{Glob} `{IndexCodec}.
Context (p : Planner) (cfg : Config).

(** The services, environment and verdict of a stack: from the plan, or fresh. *)
Definition stack_data (client : DockerClient) (contextName stackName : string) (stack : Stack)
    (execCtx : option ContextExecutionContext) : prog (res StackExecutionData) :=
  match execCtx ≫= (fun ec => ec_Stacks ec !! stackName) with
  | Some d => mret (Ok d)
  | None =>
      let detector := NewServiceStateDetector (Some client) in
      services ← DetectAllServicesState detector stackName stack (cfg_Identifier cfg) (cfg_Sops cfg);
      try services (fun e => wrap op_apply External e
            "failed to detect service states for stack %s/%s" [contextName; stackName]) (fun services =>
      inline ← BuildInlineEnv detector stack (cfg_Sops cfg);
      try inline (fun e => wrap op_apply External e
            "failed to build inline env for stack %s/%s" [contextName; stackName]) (fun inline =>
      mret (Ok (mkStackExec services inline (NeedsApply services)))))
  end.

(** [compose up] for a stack that needs it, then the identifier labels. *)
Definition apply_stack (client : DockerClient) (contextName stackName : string) (stack : Stack)
    (d : StackExecutionData) : prog (res unit) :=
  if bool_decide (length (se_Services d) = 0) || negb (se_NeedsApply d) then mret (Ok tt) else
  let proj := project_of stack in
  let args := stack_args stack (se_InlineEnv d) in
  up ← do_call client (ComposeUp args proj);
  try up (fun e => wrap op_apply External e "compose up %s/%s" [contextName; stackName]) (fun _ =>
  if bool_decide (cfg_Identifier cfg <> "") then
    items ← do_call client (ComposePs args proj);
    try items (fun e => wrap op_apply External e "list compose containers for stack %s/%s"
                 [contextName; stackName]) (fun items =>
    errs ← for_each (label_container client (cfg_Identifier cfg)) [] items;
    mret match Aggregate op_apply External
                 "failed to apply identifier labels to one or more containers" errs with
         | Some e => Err e
         | None => Ok tt
         end)
  else mret (Ok tt)).

Definition applyStackChangesForContext (client : DockerClient) (contextName : string)
    (stacks : gmap string Stack) (execCtx : option ContextExecutionContext) : prog (res unit) :=
  for_each_res (fun (_ : unit) (e : string * Stack) =>
    let '(stackName, stack) := e in
    d ← stack_data client contextName stackName stack execCtx;
    try d id (apply_stack client contextName stackName stack)) tt (sorted_entries stacks).

(** ** Restarts *)

(** Restart the first container of a service; a service without one is skipped
    with a warning. *)
Definition RestartPendingServices (client : DockerClient) (restartPending : gset string)
  : prog (res unit) :=
  if bool_decide (restartPending = ∅) then mret (Ok tt) else
  items ← do_call client ListComposeContainersAll;
  let items := match items with Ok items => items | Err _ => [] end in
  for_each_res (fun (_ : unit) svc =>
    match head (filter (fun it => ps_Service it = svc) items) with
    | None => mret (Ok tt)
    | Some it =>
        r ← do_call client (RestartContainer (ps_Name it));
        mret match r with
             | Err e => Err (wrap "restartmanager.RestartPendingServices" External e
                               "restart service %s" [svc])
             | Ok _ => Ok tt
             end
    end) tt (set_range "restarts" restartPending).

(** ** One context, all contexts *)

Definition applyContext (contextName : string) (client : DockerClient)
    (execCtx : option ContextExecutionContext) : prog (res unit) :=
  let labels := identifier_labels (cfg_Identifier cfg) in
  existingVolumes ← EnsureVolumesExistForContext client cfg contextName labels;
  try existingVolumes id (fun existingVolumes =>
  existingNetworks ←
    match execCtx with
    | Some ec => mret (Ok (ec_ExistingNetworks ec))
    | None => nets ← do_call client ListNetworks;
              mret match nets with
                   | Err e => Err (wrap op_apply External e
                                     "list existing networks for context %s" [contextName])
                   | Ok nets => Ok (list_to_set nets)
                   end
    end;
  try existingNetworks id (fun existingNetworks =>
  r ← EnsureNetworksExistForContext client cfg contextName labels existingNetworks;
  try r id (fun _ =>
  restartPending ← SyncFilesetsForContext client cfg contextName existingVolumes execCtx;
  try restartPending id (fun restartPending =>
  r ← applyStackChangesForContext client contextName (GetStacksForContext cfg contextName) execCtx;
  try r id (fun _ => RestartPendingServices client restartPending))))).

Definition err_of {A} (r : res A) : option error :=
  match r with Ok _ => None | Err e => Some e end.

Definition ApplyWithPlan (plan : option Plan) : prog (option error) :=
  r ← ExecuteAcrossContextsMode p cfg RunToCompletion (stateless (fun contextName =>
    match getClientForContext p contextName with
    | None => mret (Some (New op_apply Precondition "docker client not available for context %s"
                            [contextName]))
    | Some client =>
        r ← applyContext contextName client
              (plan ≫= (fun pln => GetContextExecutionContext pln contextName));
        mret (err_of r)
    end)) tt;
  mret r.2.
End ApplyContext.

(** ** What apply may do *)

(** The calls a context's apply is entitled to: only on its own daemon, creating
    only what the configuration asks for, writing only into the volumes of its
    filesets, bringing up only its stacks, and removing nothing. *)
Definition entitled `{MapRange} (cfg : Config) (contextName : string) (client : DockerClient)
    (e : event) : Prop :=
  ev_client e = client /\
  match ev_call e with
  | CreateVolume name labels =>
      name ∈ desired_volumes cfg contextName (cfg_Contexts cfg !! contextName)
      /\ labels = identifier_labels (cfg_Identifier cfg)
  | CreateNetwork name labels _ =>
      name ∈ desired_networks (cfg_Contexts cfg !! contextName)
      /\ labels = identifier_labels (cfg_Identifier cfg)
  | WriteFileToVolume v p _ _ | ExtractTarToVolume v p _ | RemovePathsFromVolume v p _
  | RunVolumeScript v p _ _ =>
      exists k f, GetFilesetsForContext cfg contextName !! k = Some f
                  /\ v = fs_TargetVolume f /\ p = fs_TargetPath f
  | ComposeUp a proj =>
      exists n stack inline, GetStacksForContext cfg contextName !! n = Some stack
                             /\ a = stack_args stack inline /\ proj = project_of stack
  | UpdateContainerLabels _ labels => labels = {[label_identifier := cfg_Identifier cfg]}
  | RemoveVolume _ | RemoveNetwork _ | RemoveContainer _ _ => False
  | _ => True
  end.

Section Entitled.
Context `{MapRange} `{Schedule} `{Glob} `{IndexCodec}.
Context (p : Planner) (cfg : Config) (ctx : string) (client : DockerClient).
Let P : event -> Prop := entitled cfg ctx client.

Lemma looks_entitled e : looks e -> ev_client e = client -> P e.
Proof.
  intros Hl Hc. split; [done|]. unfold looks in Hl. by destruct (ev_call e).
Qed.

Lemma EnsureVolumes_entitled : always P (EnsureVolumesExistForContext client cfg ctx
  (identifier_labels (cfg_Identifier cfg))).
Proof.
  unfold EnsureVolumesExistForContext. always_auto. split; [done|]. simpl.
  by rewrite elem_of_set_range in *.
Qed.

Lemma EnsureNetworks_entitled ex : always P (EnsureNetworksExistForContext client cfg ctx
  (identifier_labels (cfg_Identifier cfg)) ex).
Proof.
  unfold EnsureNetworksExistForContext. always_auto. split; [done|]. simpl.
  by rewrite elem_of_set_range in *.
Qed.

Lemma resolveTargetServices_entitled f : always P (resolveTargetServices client f).
Proof. unfold resolveTargetServices. always_auto. Qed.

Lemma sync_changed_entitled k f name local d :
  GetFilesetsForContext cfg ctx !! k = Some f -> always P (sync_changed client name f local d).
Proof.
  intros Hf.
  assert (forall e, (exists script, ev_call e = RunVolumeScript (fs_TargetVolume f) (fs_TargetPath f) script []
            /\ ev_client e = client) -> P e) as Hown.
  { intros e (script & He & Hc). split; [done|]. rewrite He. by exists k, f. }
  unfold sync_changed, sync_stopped, sync_steps, then_step, restartColdContainersOnFailure, stop_cold.
  pose proof (resolveTargetServices_entitled f) as Hres.
  pose proof (always_mono _ _ _ (applyOwnership_calls client name f d) Hown) as Happ.
  unfold syncFilesetFiles, deleteFilesetFiles, writeFilesetIndex.
  repeat (exact Hres || exact Happ || always_step); try done;
    (split; [done|]; simpl; by exists k, f).
Qed.

Lemma fileset_data_entitled name f ex ec : always P (fileset_data client name f ex ec).
Proof. unfold fileset_data, local_index. always_auto. Qed.

Lemma SyncFilesets_entitled ex ec : always P (SyncFilesetsForContext client cfg ctx ex ec).
Proof.
  unfold SyncFilesetsForContext. apply always_for_each_res. intros s [name f] Hin.
  apply elem_of_sorted_entries in Hin. unfold sync_fileset.
  pose proof (sync_changed_entitled name f) as Hsync.
  repeat (apply fileset_data_entitled || (by apply Hsync) || always_step).
Qed.

Lemma stack_data_entitled n stack ec : always P (stack_data cfg client ctx n stack ec).
Proof.
  set (det := NewServiceStateDetector (Some client)).
  assert (forall A (q : prog A), always (on_daemon (host_of_detector det)) q -> always looks q ->
            always P q) as Hlook.
  { intros A q Hd Hl. eapply always_mono; [by apply (always_looks_at det)|].
    intros e [? ?]. by apply looks_entitled. }
  unfold stack_data. fold det.
  repeat (apply (Hlook _ _ (DetectAllServicesState_daemon _ _ _ _ _) (DetectAllServicesState_looks _ _ _ _ _))
          || apply (Hlook _ _ (BuildInlineEnv_daemon _ _ _) (BuildInlineEnv_looks _ _ _))
          || always_step).
Qed.

Lemma apply_stack_entitled n stack d :
  GetStacksForContext cfg ctx !! n = Some stack -> always P (apply_stack cfg client ctx n stack d).
Proof.
  intros Hn. unfold apply_stack, label_container. always_auto.
  split; [done|]. by exists n, stack, (se_InlineEnv d).
Qed.

Lemma applyStackChanges_entitled ec :
  always P (applyStackChangesForContext cfg client ctx (GetStacksForContext cfg ctx) ec).
Proof.
  unfold applyStackChangesForContext. apply always_for_each_res. intros s [n stack] Hin.
  apply elem_of_sorted_entries in Hin. apply always_bind; [apply stack_data_entitled|].
  intros r. apply always_try. intros d _. by apply apply_stack_entitled.
Qed.

Lemma applyContext_entitled ec : always P (applyContext cfg ctx client ec).
Proof.
  pose proof EnsureVolumes_entitled as Hv. pose proof EnsureNetworks_entitled as Hn.
  pose proof SyncFilesets_entitled as Hf. pose proof applyStackChanges_entitled as Hs.
  unfold applyContext, RestartPendingServices.
  repeat (exact Hv || apply Hn || apply Hf || apply Hs || always_step); done.
Qed.
End Entitled.

Lemma ApplyWithPlan_entitled `{MapRange} `{Schedule} `{Glob} `{IndexCodec} p cfg plan :
  always (fun e => ev_call e = CtxErr \/
            exists ctx client, is_Some (cfg_Contexts cfg !! ctx)
              /\ getClientForContext p ctx = Some client /\ entitled cfg ctx client e)
    (ApplyWithPlan p cfg plan).
Proof.
  apply always_bind; [|intros r; apply always_ret]. apply always_across; [by left|].
  intros s n Hn. apply always_bind; [|intros r; apply always_ret].
  destruct (getClientForContext p n) eqn:Hc; [|apply always_ret].
  apply always_bind; [|intros r; apply always_ret].
  eapply always_mono; [apply applyContext_entitled|]. right. by eexists _, _.
Qed.

(** C6: apply stays inside the configuration.  Whatever the daemons answer, with or
    without a plan, every call of [ApplyWithPlan] is on the daemon of one of the
    contexts and is one that context is entitled to: it creates only the volumes
    and networks the configuration asks for, with the identifier label, writes only
    into the volumes of the context's filesets, brings up only its stacks, and
    never removes a volume, a network or a container. *)
Theorem ApplyWithPlan_confined `{MapRange} `{Schedule} `{Glob} `{IndexCodec} p cfg plan :
  always (fun e => ev_call e = CtxErr \/
            exists ctx client, is_Some (cfg_Contexts cfg !! ctx)
              /\ getClientForContext p ctx = Some client /\ entitled cfg ctx client e)
    (ApplyWithPlan p cfg plan).
Proof. apply ApplyWithPlan_entitled. Qed.

(** ** Cold mode *)

Definition not_stopping (e : event) : Prop :=
  match ev_call e with StopContainers _ => False | _ => True end.

Lemma sync_steps_not_stopping `{MapRange} `{IndexCodec} client name f local d :
  always not_stopping (sync_steps client name f local d).
Proof.
  assert (always not_stopping (applyOwnership client name f d)) as Ho.
  { eapply always_mono; [apply applyOwnership_calls|]. intros e (script & He & _).
    unfold not_stopping. by rewrite He. }
  unfold sync_steps, then_step, syncFilesetFiles, deleteFilesetFiles, writeFilesetIndex.
  repeat (exact Ho || always_step); done.
Qed.

(** The steps, whatever becomes of them, end by starting what was stopped. *)
Lemma sync_stopped_restarts `{MapRange} `{IndexCodec} client name f local d ns :
  ns <> [] ->
  wp (sync_stopped client name f local d ns) (fun t _ => exists t' r,
    t = t' ++ [Ev client (StartContainers ns) r] /\ Forall not_stopping t').
Proof.
  intros Hns. destruct ns as [|n ns]; [done|]. unfold sync_stopped, restartColdContainersOnFailure.
  apply wp_bind. eapply wp_mono; [apply sync_steps_not_stopping|]. intros t [e|] Ht.
  - apply wp_bind, wp_bind. wp_docall. intros r. apply wp_ret, wp_ret. by exists t, r.
  - apply wp_bind. wp_docall. intros r. apply wp_ret. by exists t, r.
Qed.

Lemma resolveTargetServices_not_stopping client f :
  always not_stopping (resolveTargetServices client f).
Proof. unfold resolveTargetServices. always_auto. Qed.

(** [stop_cold] stops something at most once, as its last call, and reports it. *)
Lemma stop_cold_spec client name svcs :
  wp (stop_cold client name svcs) (fun t r =>
    (Forall not_stopping t /\ forall ns, r = Ok ns -> ns = [])
    \/ exists t' ns a, t = t' ++ [Ev client (StopContainers ns) a] /\ Forall not_stopping t'
         /\ ns <> [] /\ match a with Ok _ => r = Ok ns | Err _ => exists e, r = Err e end).
Proof.
  unfold stop_cold. destruct svcs as [|s svcs]; [apply wp_ret; left; naive_solver|].
  apply wp_bind. wp_docall. intros [items|e].
  - destruct (containers_of items (s :: svcs)) as [|n ns] eqn:Hc.
    + apply wp_ret. left. split; [by repeat constructor|naive_solver].
    + apply wp_bind. wp_docall. intros r. apply wp_ret. right.
      eexists [_], (n :: ns), r. split; [done|]. split; [by repeat constructor|].
      split; [done|]. destruct r; eauto.
  - apply wp_ret. left. split; [by repeat constructor|naive_solver].
Qed.

(** Whatever was stopped is started again, by the very last call. *)
Definition restarted (client : DockerClient) (t : list event) : Prop :=
  forall ns, Ev client (StopContainers ns) (Ok tt) ∈ t ->
    exists a, last t = Some (Ev client (StartContainers ns) a).

Lemma not_stopping_elem t client ns a :
  Forall not_stopping t -> Ev client (StopContainers ns) a ∉ t.
Proof. rewrite Forall_forall. intros Ht Hin. exact (Ht _ Hin). Qed.

Lemma restarted_quiet client t : Forall not_stopping t -> restarted client t.
Proof. intros Ht ns Hin. by eapply not_stopping_elem in Hin. Qed.

Lemma restarted_failed client t ns e :
  Forall not_stopping t -> restarted client (t ++ [Ev client (StopContainers ns) (Err e)]).
Proof.
  intros Ht ns' [Hin|Hin]%elem_of_app; [by eapply not_stopping_elem in Hin|].
  apply list_elem_of_singleton in Hin.
  by apply (f_equal (fun e => match e with Ev _ (StopContainers _) (Ok _) => true | _ => false end)) in Hin.
Qed.

Lemma restarted_again client t t' ns r a :
  Forall not_stopping t -> Forall not_stopping t' ->
  restarted client (t ++ [Ev client (StopContainers ns) r] ++ t' ++ [Ev client (StartContainers ns) a]).
Proof.
  intros Ht Ht' ns' Hin. assert (ns' = ns) as ->.
  { apply elem_of_app in Hin as [Hin|Hin]; [by eapply not_stopping_elem in Hin|].
    apply elem_of_app in Hin as [Hin|Hin]; [apply list_elem_of_singleton in Hin; congruence|].
    apply elem_of_app in Hin as [Hin|Hin]; [by eapply not_stopping_elem in Hin|].
    by apply list_elem_of_singleton in Hin. }
  exists a. by rewrite !(assoc_L (++)), last_snoc.
Qed.

Lemma sync_stopped_nil_quiet `{MapRange} `{IndexCodec} client name f local d :
  always not_stopping (sync_stopped client name f local d []).
Proof.
  unfold sync_stopped, restartColdContainersOnFailure.
  apply always_bind; [apply sync_steps_not_stopping|]. intros []; always_auto.
Qed.

(** C11: cold mode never leaves a service down.  However the synchronisation of a
    fileset goes - a failed tar, extraction, deletion, index, ownership - once its
    containers were stopped, the last thing it does is to start the same
    containers again. *)
Theorem cold_mode_restarts `{MapRange} `{IndexCodec} client name f local d :
  wp (sync_changed client name f local d) (fun t _ => restarted client t).
Proof.
  unfold sync_changed. apply wp_bind. eapply wp_mono; [apply resolveTargetServices_not_stopping|].
  intros t0 targets Ht0. apply wp_try. destruct targets as [svcs|e];
    [|rewrite app_nil_r; by apply restarted_quiet].
  apply wp_bind. eapply wp_mono.
  { instantiate (1 := fun t r => (Forall not_stopping t /\ forall ns, r = Ok ns -> ns = []) \/ _).
    case_bool_decide; [apply stop_cold_spec|apply wp_ret; left; naive_solver]. }
  intros t1 stopped [[Ht1 Hnil]|(t' & ns & a & -> & Ht' & Hne & Ha)]; apply wp_try.
  - destruct stopped as [ns0|e]; [|apply restarted_quiet; by rewrite !Forall_app].
    rewrite (Hnil ns0 eq_refl). apply wp_bind. eapply wp_mono; [apply sync_stopped_nil_quiet|].
    intros t2 r Ht2. destruct r; apply wp_ret, restarted_quiet; by rewrite !Forall_app.
  - destruct a as [[]|ea].
    + subst stopped. apply wp_bind. eapply wp_mono; [by apply sync_stopped_restarts|].
      intros t2 r (t2' & r' & -> & Ht2'). destruct r; apply wp_ret;
        rewrite app_nil_r, <- (assoc_L (++) t'), (assoc_L (++) t0);
        apply restarted_again; by rewrite ?Forall_app.
    + destruct Ha as [e ->]. rewrite app_nil_r, (assoc_L (++)).
      apply restarted_failed. by apply Forall_app.
Qed.

(** ** The index is written last *)

Section IndexLast.
Context `{MapRange} `{IndexCodec}.
Context (client : DockerClient) (name : string) (f : FilesetSpec) (local : Index) (d : Diff).

(** [path] of the source directory is a regular file with content [c], as read. *)
Definition read_regular (files : LocalFiles) (path c : string) : Prop :=
  regular_at (lf_Lstat files) (lf_Open files) (PathJoin [Clean (fs_SourceAbs f); path]) c.

(** The archive has every changed file that still is a regular file, with the content
    read from the source directory, and no other file. *)
Definition packs_changes (files : LocalFiles) (tar : list TarEntry) : Prop :=
  (forall e c, e ∈ ToCreate d ++ ToUpdate d -> sync_path (fe_Path e) ->
     read_regular files (fe_Path e) c -> (fe_Path e, c) ∈ regular_files tar)
  /\ (forall p c, (p, c) ∈ regular_files tar -> read_regular files p c
        /\ exists e, e ∈ ToCreate d ++ ToUpdate d /\ p = Clean (fe_Path e)).

Definition files_extracted (t : list event) : Prop :=
  exists files tar, Ev client (ReadLocal (fs_SourceAbs f)) files ∈ t /\ packs_changes files tar
    /\ Ev client (ExtractTarToVolume (fs_TargetVolume f) (fs_TargetPath f) tar) (Ok tt) ∈ t.

(** The changed files were extracted, and the deleted ones were given to be removed. *)
Definition files_synced (t : list event) : Prop :=
  (ToCreate d ++ ToUpdate d <> [] -> files_extracted t)
  /\ (ToDelete d <> [] ->
     Ev client (RemovePathsFromVolume (fs_TargetVolume f) (fs_TargetPath f) (ToDelete d)) (Ok tt) ∈ t).

Definition index_write (e : event) : bool :=
  match e with Ev _ (WriteFileToVolume _ _ _ _) _ => true | _ => false end.

(** An index write of the trace comes after the files are in place, and writes the
    local index. *)
Definition index_after_files (t : list event) : Prop :=
  forall t1 e t2, t = t1 ++ e :: t2 -> index_write e = true ->
    files_synced t1 /\ exists json, ToJSON local = Ok json
      /\ ev_call e = WriteFileToVolume (fs_TargetVolume f) (fs_TargetPath f) IndexFileName json.

Lemma files_extracted_app t t' t'' : files_extracted t -> files_extracted (t' ++ t ++ t'').
Proof. intros (files & tar & ? & ? & ?). exists files, tar. set_solver. Qed.

Lemma packed_changes files tar paths : paths ≡ₚ fe_Path <$> (ToCreate d ++ ToUpdate d) ->
  TarFilesToWriter (lf_Lstat files) (lf_Open files) (fs_SourceAbs f) paths = Ok tar -> packs_changes files tar.
Proof.
  intros Hp Htar. pose proof (TarFilesToWriter_packs _ _ _ _ _ Htar) as Hpk. split.
  - intros e c He (Hne & Hcl & Hup)%sync_path_clean Hc. apply Hpk. exists (fe_Path e).
    unfold packed_for. rewrite Hcl. split_and!; [|done..]. rewrite Hp. by apply list_elem_of_fmap_2.
  - intros p c (rel & Hrel & _ & _ & Hname & Hc)%Hpk. cbn in Hname, Hc. subst p. split; [done|].
    rewrite Hp in Hrel. apply list_elem_of_fmap in Hrel as (e & -> & He). by exists e.
Qed.

Lemma syncFilesetFiles_spec :
  wp (syncFilesetFiles client name f d) (fun t r => Forall (fun e => index_write e = false) t
    /\ (r = None -> ToCreate d ++ ToUpdate d <> [] -> files_extracted t)).
Proof.
  unfold syncFilesetFiles.
  destruct (sort_strings _) as [|x l] eqn:Hs.
  - apply wp_ret. split; [done|]. intros _ Hne. exfalso. apply Hne.
    eapply fmap_nil_inv. apply Permutation_nil. rewrite <- Hs. apply sort_strings_perm.
  - apply wp_bind. wp_docall. intros files. destruct (TarFilesToWriter _ _ _ _) as [tar|e] eqn:Htar.
    + apply wp_bind. wp_docall. intros r. apply wp_ret. split; [by repeat constructor|].
      destruct r as [[]|]; [|done]. intros _ _. exists files, tar.
      apply packed_changes in Htar; [|rewrite <- Hs; apply sort_strings_perm].
      split; [left|]. split; [done|right; left].
    + apply wp_ret. split; [by repeat constructor|done].
Qed.

Lemma deleteFilesetFiles_spec :
  wp (deleteFilesetFiles client name f d) (fun t r => Forall (fun e => index_write e = false) t
    /\ (r = None -> ToDelete d <> [] ->
     Ev client (RemovePathsFromVolume (fs_TargetVolume f) (fs_TargetPath f) (ToDelete d)) (Ok tt) ∈ t)).
Proof.
  unfold deleteFilesetFiles. destruct (ToDelete d) as [|x l] eqn:Hs; [by apply wp_ret|].
  apply wp_bind. wp_docall. intros r. apply wp_ret. split; [by repeat constructor|].
  destruct r as [[]|]; [|done]. intros _ _. set_solver.
Qed.

Lemma no_index_write t : Forall (fun e => index_write e = false) t -> index_after_files t.
Proof. intros Ht t1 e t2 -> He. apply Forall_app in Ht as [_ [Hf _]%Forall_cons]. congruence. Qed.

Lemma one_index_write t json a t' : files_synced t -> ToJSON local = Ok json ->
  Forall (fun e => index_write e = false) t -> Forall (fun e => index_write e = false) t' ->
  index_after_files (t ++ Ev client
    (WriteFileToVolume (fs_TargetVolume f) (fs_TargetPath f) IndexFileName json) a :: t').
Proof.
  intros Hs Hj Ht Ht' t1 e t2 Heq He.
  assert (forall l, Forall (fun e => index_write e = false) l -> e ∉ l) as Hno.
  { intros l Hl Hin. rewrite Forall_forall in Hl. by rewrite (Hl e Hin) in He. }
  apply app_eq_inv in Heq as [(k & -> & Heq)|(k & -> & Heq)].
  - destruct k as [|x k]; simpl in Heq.
    + rewrite app_nil_r in *. injection Heq as -> ->. eauto.
    + injection Heq as <- ->. exfalso. apply (Hno _ Ht). set_solver.
  - destruct k as [|x k]; simpl in Heq.
    + rewrite app_nil_r. injection Heq as <- <-. eauto.
    + injection Heq as <- ->. exfalso. apply (Hno _ Ht'). set_solver.
Qed.

Lemma applyOwnership_no_index :
  always (fun e => index_write e = false) (applyOwnership client name f d).
Proof.
  eapply always_mono; [apply applyOwnership_calls|]. intros [[c k] a] (script & He & _).
  simpl in He. by subst k.
Qed.

(** C12: the index is written last.  Whatever fails, the index of the local tree is
    written only after an archive of the changed files was extracted into the volume
    without an error and the deleted paths were given to a removal that reported none;
    and a synchronisation that succeeds has done these and written the index.  The
    archive holds every changed file that still is a regular file of the source
    directory, with the content read there, and no other file; one that has become
    something else since it was indexed is left out of it. *)
Theorem index_written_last :
  wp (sync_steps client name f local d) (fun t r =>
    index_after_files t
    /\ (r = None -> files_synced t /\ exists json, ToJSON local = Ok json
          /\ Ev client (WriteFileToVolume (fs_TargetVolume f) (fs_TargetPath f) IndexFileName json)
               (Ok tt) ∈ t)).
Proof.
  unfold sync_steps, then_step. apply wp_bind.
  eapply wp_mono; [apply syncFilesetFiles_spec|]. intros t1 [e|] [Hw1 Hf1].
  { apply wp_ret. rewrite app_nil_r. split; [by apply no_index_write|done]. }
  apply wp_bind. eapply wp_mono; [apply deleteFilesetFiles_spec|]. intros t2 [e|] [Hw2 Hf2].
  { apply wp_ret. rewrite app_nil_r. split; [apply no_index_write; by apply Forall_app|done]. }
  assert (files_synced (t1 ++ t2)) as Hs.
  { split; [|intros ?%Hf2; set_solver]. intros ?%Hf1; [|done]. by apply (files_extracted_app t1 []). }
  unfold writeFilesetIndex. apply wp_bind. destruct (ToJSON local) as [json|e] eqn:Hj.
  - apply wp_bind. wp_docall. intros a. apply wp_ret. destruct a as [[]|ea].
    + eapply wp_mono; [apply applyOwnership_no_index|]. intros t3 r Hw3.
      simpl. rewrite (assoc_L (++)). split; [apply one_index_write; by rewrite ?Forall_app|].
      intros _. split; [destruct Hs as [Hs1 Hs2]; split|].
      * intros ?%Hs1. by apply (files_extracted_app _ []).
      * intros ?%Hs2. set_solver.
      * exists json. set_solver.
    + apply wp_ret. simpl. rewrite (assoc_L (++)).
      split; [apply one_index_write; by rewrite ?Forall_app|done].
  - apply wp_ret, wp_ret. rewrite !app_nil_r. split; [apply no_index_write; by apply Forall_app|done].
Qed.
End IndexLast.
