(* ===== verification/Converge.v ===== *)
(** * What a synchronisation does to a volume

    The calls of a fileset synchronisation, read as changes of the files of its
    volume: extraction writes the regular entries of the archive, a written file
    replaces what was there, and removal is [rm -rf] of the given names that are not
    blank, whose failure is not reported ([RemovePathsFromVolume] ends in [|| true]).
    A successful synchronisation brings the volume to the local tree, as far as [rm]
    obeyed. *)

From S2P Require Import Prelude GoStrings GoPath Apperr Util Manifest Sha256 Filesets Effects Docker ServiceState Resource Plan Orchestrate Ownership Apply.

(** ** The files of a volume *)

(** Contents by path below the target path. *)
Notation volume := (gmap string string).

(** [q] is the path [p] or below it. *)
Definition at_or_below (p q : string) : bool :=
  bool_decide (q = p) || HasPrefix q (p +:+ "/").

(** [rm -rf]. *)
Definition remove_path (m : volume) (p : string) : volume :=
  filter (fun e => at_or_below p e.1 = false) m.

(** [tar -x] of one entry; directories hold no content. *)
Definition extract_entry (m : volume) (h : TarEntry) : volume :=
  match tar_Typeflag h with TypeReg => <[tar_Name h := tar_Data h]> m | _ => m end.

(** The names [rm] is given, seen from the target path to which [path.Join] adds them:
    cleaned, and the blank ones skipped. *)
Definition rm_names (rels : list string) : list string :=
  Clean <$> filter (fun p => TrimSpace p <> "") rels.

(** What [xargs -0 rm -rf -- 2>/dev/null || true] leaves: files that are not at or below
    a given name stay; of the others any may stay, unless [rm] obeyed. *)
Definition rm_outcome (obeyed : bool) (rels : list string) (m m' : volume) : Prop :=
  forall q, if existsb (fun p => at_or_below p q) (rm_names rels)
            then m' !! q = None \/ (obeyed = false /\ m' !! q = m !! q)
            else m' !! q = m !! q.

(** One call, on the volume of a fileset; what a failed one leaves is not described. *)
Definition volume_step (obeyed : bool) (f : FilesetSpec) (m : volume) (e : event) (m' : volume) : Prop :=
  let here v p := bool_decide (v = fs_TargetVolume f) && bool_decide (p = fs_TargetPath f) in
  match e with
  | Ev _ (ExtractTarToVolume v p tar) (Ok _) => m' = if here v p then foldl extract_entry m tar else m
  | Ev _ (RemovePathsFromVolume v p rels) (Ok _) => if here v p then rm_outcome obeyed rels m m' else m' = m
  | Ev _ (WriteFileToVolume v p rel content) (Ok _) => m' = if here v p then <[rel := content]> m else m
  | Ev _ (ExtractTarToVolume _ _ _) (Err _) | Ev _ (RemovePathsFromVolume _ _ _) (Err _)
  | Ev _ (WriteFileToVolume _ _ _ _) (Err _) => True
  | _ => m' = m
  end.

Fixpoint volume_after (obeyed : bool) (f : FilesetSpec) (m : volume) (t : list event) (m' : volume) : Prop :=
  match t with
  | [] => m' = m
  | e :: t => exists m1, volume_step obeyed f m e m1 /\ volume_after obeyed f m1 t m'
  end.

(** The files of an index are in the volume, with the content it records. *)
Definition holds (m : volume) (i : Index) : Prop :=
  forall p e, files_map (ix_Files i) !! p = Some e ->
    exists c, m !! p = Some c /\ Sha256Hex c = fe_Sha256 e.

(** ** The content of the archive *)

Lemma foldl_extract m tar :
  foldl extract_entry m tar = foldl (fun m e => <[e.1 := e.2]> m) m (regular_files tar).
Proof.
  revert m. induction tar as [|h tar IH]; intros m; [done|]. cbn [foldl].
  rewrite IH. unfold extract_entry, regular_files. cbn [omap list_omap].
  by destruct (tar_Typeflag h).
Qed.

Section Archive.
Context (files : LocalFiles) (root : string).

(** The local file still is what the index recorded. *)
Definition unchanged_file (e : FileEntry) : Prop :=
  exists perm c, lf_Lstat files (PathJoin [Clean root; fe_Path e]) = Ok (mkInfo Regular perm)
    /\ lf_Open files (PathJoin [Clean root; fe_Path e]) = Ok c /\ Sha256Hex c = fe_Sha256 e.

Lemma tar_file_regular st e :
  sync_path (fe_Path e) -> unchanged_file e -> exists st' c,
    tar_file (lf_Lstat files) (lf_Open files) (Clean root) st (fe_Path e) = Ok st'
    /\ regular_files (tw st') = regular_files (tw st) ++ [(fe_Path e, c)]
    /\ Sha256Hex c = fe_Sha256 e.
Proof.
  intros [(cs & Hcs & Hne & Hp) Hdots] (perm & c & Hst & Hop & Hc). unfold tar_file.
  destruct (rel_dir_ne _ Hcs Hne) as (_ & He & _). rewrite Hp in *.
  rewrite bool_decide_false by done. cbv zeta. rewrite Clean_rel_path by done.
  rewrite Hdots, Hst, Hop. eexists _, c. split; [done|]. split; [|done].
  cbn [tw write_entry]. by rewrite regular_files_app, emitDir_regular.
Qed.

(** The archive holds exactly the files asked for, with their content. *)
Lemma TarFilesToWriter_regular (es : list FileEntry) :
  Forall (fun e => sync_path (fe_Path e)) es -> Forall unchanged_file es ->
  exists tar, TarFilesToWriter (lf_Lstat files) (lf_Open files) root (fe_Path <$> es) = Ok tar
    /\ Forall2 (fun e r => r.1 = fe_Path e /\ Sha256Hex r.2 = fe_Sha256 e) es (regular_files tar).
Proof.
  intros Hp Hu. unfold TarFilesToWriter.
  assert (forall st pre, Forall2 (fun e r => r.1 = fe_Path e /\ Sha256Hex r.2 = fe_Sha256 e)
      pre (regular_files (tw st)) -> exists st',
    result_foldl (tar_file (lf_Lstat files) (lf_Open files) (Clean root)) st (fe_Path <$> es) = Ok st'
    /\ Forall2 (fun e r => r.1 = fe_Path e /\ Sha256Hex r.2 = fe_Sha256 e)
         (pre ++ es) (regular_files (tw st'))) as Hgen.
  { induction es as [|e es IH]; intros st pre Hpre.
    - exists st. by rewrite app_nil_r.
    - apply Forall_cons in Hp as [Hpe Hp], Hu as [Hue Hu].
      destruct (tar_file_regular st e Hpe Hue) as (st1 & c & Hst & Hr & Hc).
      destruct (IH Hp Hu st1 (pre ++ [e])) as (st' & Hf & HF).
      { rewrite Hr. apply Forall2_app; [done|]. by repeat constructor. }
      exists st'. cbn. rewrite Hst. rewrite <- (assoc_L (++)) in HF. done. }
  destruct (Hgen (mkTarState ∅ []) []) as (st & -> & HF); [constructor|]. by exists (tw st).
Qed.
End Archive.

(** ** Lookups after writes and removals *)

Lemma lookup_writes (l : list (string * string)) (m : volume) p :
  NoDup l.*1 ->
  (forall c, (p, c) ∈ l -> foldl (fun m e => <[e.1 := e.2]> m) m l !! p = Some c)
  /\ (p ∉ l.*1 -> foldl (fun m e => <[e.1 := e.2]> m) m l !! p = m !! p).
Proof.
  revert m. induction l as [|[q c] l IH]; intros m Hnd; simpl.
  { split; [by intros c ?%elem_of_nil|done]. }
  rewrite fmap_cons in Hnd. apply NoDup_cons in Hnd as [Hq Hnd]. simpl in Hq.
  destruct (IH (<[q:=c]> m) Hnd) as [IH1 IH2]. split.
  - intros c' [[= -> ->]|Hin]%elem_of_cons; [|by apply IH1]. by rewrite IH2, lookup_insert_eq.
  - rewrite not_elem_of_cons. intros [Hne Hp]. by rewrite IH2, lookup_insert_ne.
Qed.

Lemma lookup_remove_path m p q :
  remove_path m p !! q = if at_or_below p q then None else m !! q.
Proof.
  unfold remove_path. destruct (at_or_below p q) eqn:Hb.
  - apply map_lookup_filter_None. right. intros c _. simpl. by rewrite Hb.
  - destruct (m !! q) as [c|] eqn:Hm.
    + by apply map_lookup_filter_Some.
    + apply map_lookup_filter_None. by left.
Qed.

Lemma lookup_removals rels (m : volume) q :
  foldl remove_path m rels !! q = if existsb (fun p => at_or_below p q) rels then None else m !! q.
Proof.
  revert m. induction rels as [|p rels IH]; intros m; [done|]. cbn [foldl existsb].
  rewrite IH, lookup_remove_path. by destruct (at_or_below p q), (existsb _ rels).
Qed.

Lemma volume_after_app b f m t t' m' :
  volume_after b f m (t ++ t') m' <-> exists m1, volume_after b f m t m1 /\ volume_after b f m1 t' m'.
Proof.
  revert m. induction t as [|e t IH]; intros m; cbn; [naive_solver|]. setoid_rewrite IH. naive_solver.
Qed.

(** An [rm] that obeys is one of those that may not. *)
Lemma rm_outcome_obeyed b rels m : rm_outcome b rels m (foldl remove_path m (rm_names rels)).
Proof.
  intros q. rewrite lookup_removals. destruct (existsb _ _); [by left|done].
Qed.

Lemma elem_of_rm_names p rels : Forall (fun p => Clean p = p) rels ->
  p ∈ rm_names rels <-> p ∈ rels /\ TrimSpace p <> "".
Proof.
  intros Hc. rewrite Forall_forall in Hc. unfold rm_names. rewrite list_elem_of_fmap.
  setoid_rewrite list_elem_of_filter. split.
  - intros (q & -> & Hne & Hq). by rewrite Hc.
  - intros [Hp Hne]. exists p. by rewrite Hc.
Qed.

(** What no given name is above stays. *)
Lemma rm_outcome_kept b rels m m' p : Forall (fun p => Clean p = p) rels -> rm_outcome b rels m m' ->
  (forall q, q ∈ rels -> at_or_below q p = false) -> m' !! p = m !! p.
Proof.
  intros Hc Hrm Hp. specialize (Hrm p). assert (existsb (fun q => at_or_below q p) (rm_names rels) = false) as Hno.
  { apply not_true_iff_false. rewrite existsb_exists.
    intros (q & Hq & Hb). apply list_elem_of_In, elem_of_rm_names in Hq as [Hq _]; [|done].
    by rewrite (Hp q Hq) in Hb. }
  by rewrite Hno in Hrm.
Qed.

(** A given name is gone or, when [rm] did not obey or it is blank, as it was. *)
Lemma rm_outcome_deleted b rels m m' p : Forall (fun p => Clean p = p) rels -> rm_outcome b rels m m' -> p ∈ rels ->
  (m' !! p = None \/ m' !! p = m !! p) /\ (b = true -> TrimSpace p <> "" -> m' !! p = None).
Proof.
  intros Hc Hrm Hp. specialize (Hrm p). split; [destruct (existsb _ _); naive_solver|]. intros -> Hne.
  assert (existsb (fun q => at_or_below q p) (rm_names rels) = true) as Hyes.
  { apply existsb_exists. exists p. split; [by apply list_elem_of_In, elem_of_rm_names|].
    unfold at_or_below. by rewrite bool_decide_true. }
  rewrite Hyes in Hrm. naive_solver.
Qed.

(** Whatever the calls were, something is left. *)
Lemma volume_after_some b f m t : exists m', volume_after b f m t m'.
Proof.
  revert m. induction t as [|[[c k] a] t IH]; intros m; [by exists m|].
  assert (exists m1, volume_step b f m (Ev c k a) m1) as [m1 H1].
  { destruct k; cbn; try (by eexists); destruct a as [a|a]; try (by eexists).
    destruct (_ && _); [|by exists m]. eexists. apply rm_outcome_obeyed. }
  destruct (IH m1) as [m' H']. exists m', m1. done.
Qed.

(** ** The effect of each step *)

Section Steps.
Context `{MapRange} `{IndexCodec}.
Context (client : DockerClient) (name : string) (f : FilesetSpec).

(** What is read from the source directory is what was indexed. *)
Definition source_unchanged (es : list FileEntry) (t : list event) : Prop :=
  forall files, Ev client (ReadLocal (fs_SourceAbs f)) files ∈ t ->
    Forall (unchanged_file files (fs_SourceAbs f)) es.

Lemma syncFilesetFiles_volume d :
  Forall (fun e => sync_path (fe_Path e)) (ToCreate d ++ ToUpdate d) ->
  wp (syncFilesetFiles client name f d) (fun t r => r = None ->
    source_unchanged (ToCreate d ++ ToUpdate d) t -> exists es regs,
      es ≡ₚ ToCreate d ++ ToUpdate d
      /\ Forall2 (fun e r => r.1 = fe_Path e /\ Sha256Hex r.2 = fe_Sha256 e) es regs
      /\ forall b m m', volume_after b f m t m' -> m' = foldl (fun m e => <[e.1 := e.2]> m) m regs).
Proof.
  intros Hp. unfold syncFilesetFiles.
  destruct (sort_strings _) as [|x l] eqn:Hs.
  - apply wp_ret. intros _ _. exists [], []. split; [|split; [constructor|by intros b m m' ->]].
    assert (fe_Path <$> (ToCreate d ++ ToUpdate d) = []) as Hnil.
    { apply Permutation_nil. rewrite <- Hs. apply sort_strings_perm. }
    by rewrite (fmap_nil_inv _ _ Hnil).
  - apply wp_bind. wp_docall. intros files.
    destruct (Permutation_map_inv fe_Path (ToCreate d ++ ToUpdate d) (l1 := x :: l)) as (es & Hes & Hperm).
    { rewrite <- Hs. apply sort_strings_perm. }
    rewrite Hes. change (map fe_Path es) with (fe_Path <$> es).
    destruct (TarFilesToWriter _ _ _ _) as [tar|e] eqn:Htar; [|by apply wp_ret].
    apply wp_bind. wp_docall. intros a. apply wp_ret. intros Ha Hsrc.
    assert (Forall (unchanged_file files (fs_SourceAbs f)) es) as Hu.
    { rewrite <- Hperm. apply Hsrc. left. }
    destruct (TarFilesToWriter_regular files (fs_SourceAbs f) es) as (tar' & Htar' & HF);
      [by rewrite <- Hperm|done|].
    assert (tar' = tar) as -> by congruence. exists es, (regular_files tar).
    split; [done|]. split; [done|]. intros b m m'. destruct a as [[]|]; [|done]. cbn.
    rewrite !bool_decide_true by done. intros (m1 & -> & m2 & -> & ->). apply foldl_extract.
Qed.

Lemma deleteFilesetFiles_volume d :
  wp (deleteFilesetFiles client name f d) (fun t r => r = None ->
    forall b m m', volume_after b f m t m' -> rm_outcome b (ToDelete d) m m').
Proof.
  unfold deleteFilesetFiles. destruct (ToDelete d) as [|x l] eqn:Hd.
  { apply wp_ret. intros _ b m m' ->. by intros q. }
  apply wp_bind. wp_docall. intros [[]|e]; apply wp_ret; [|done]. intros _ b m m'. cbn.
  rewrite !bool_decide_true by done. by intros (m1 & Hm & ->).
Qed.

Lemma writeFilesetIndex_volume local :
  wp (writeFilesetIndex client name f local) (fun t r => r = None ->
    exists json, ToJSON local = Ok json
      /\ forall b m m', volume_after b f m t m' -> m' = <[IndexFileName := json]> m).
Proof.
  unfold writeFilesetIndex. destruct (ToJSON local) as [json|e]; [|by apply wp_ret].
  apply wp_bind. wp_docall. intros [[]|e]; apply wp_ret; [|done]. intros _. exists json.
  split; [done|]. intros b m m'. cbn. rewrite !bool_decide_true by done. by intros (m1 & -> & ->).
Qed.

(** Ownership changes no content. *)
Lemma applyOwnership_volume d :
  wp (applyOwnership client name f d) (fun t _ => forall b m m', volume_after b f m t m' -> m' = m).
Proof.
  eapply wp_mono; [apply applyOwnership_calls|]. intros t r Ht.
  induction Ht as [|[[c k] a] t (script & He & _) Ht IH]; intros b m m'; [done|].
  cbn [ev_call] in He. subst k. cbn. intros (m1 & -> & Hm). exact (IH b m m' Hm).
Qed.

Lemma sync_steps_volume local d :
  Forall (fun e => sync_path (fe_Path e)) (ToCreate d ++ ToUpdate d) ->
  wp (sync_steps client name f local d) (fun t r => r = None ->
    source_unchanged (ToCreate d ++ ToUpdate d) t -> exists es regs json,
      es ≡ₚ ToCreate d ++ ToUpdate d
      /\ Forall2 (fun e r => r.1 = fe_Path e /\ Sha256Hex r.2 = fe_Sha256 e) es regs
      /\ ToJSON local = Ok json
      /\ forall b m m', volume_after b f m t m' -> exists w,
           rm_outcome b (ToDelete d) (foldl (fun m e => <[e.1 := e.2]> m) m regs) w
           /\ m' = <[IndexFileName := json]> w).
Proof.
  intros Hp. unfold sync_steps, then_step. apply wp_bind.
  eapply wp_mono; [by apply syncFilesetFiles_volume|]. intros t1 [e|] H1; [by apply wp_ret|].
  apply wp_bind. eapply wp_mono; [apply deleteFilesetFiles_volume|].
  intros t2 [e|] H2; [by apply wp_ret|].
  apply wp_bind. eapply wp_mono; [apply writeFilesetIndex_volume|].
  intros t3 [e|] H3; [by apply wp_ret|].
  eapply wp_mono; [apply applyOwnership_volume|]. intros t4 r H4 _ Hsrc.
  destruct (H1 eq_refl) as (es & regs & Hes & HF & Hm1).
  { intros files Hin. apply Hsrc. by apply elem_of_app; left. }
  destruct (H3 eq_refl) as (json & Hj & Hm3). exists es, regs, json.
  split_and!; [done|done|done|]. intros b m m'. rewrite !volume_after_app.
  intros (m1 & ->%Hm1 & Hrest). apply volume_after_app in Hrest as (m2 & Hm2%(H2 eq_refl) & Hrest).
  apply volume_after_app in Hrest as (m3 & ->%Hm3 & ->%H4). by exists m2.
Qed.
End Steps.

(** ** Convergence *)

(** What the written entries leave in a volume. *)
Lemma written_lookup (ws es : list FileEntry) (regs : list (string * string)) (m : volume) :
  es ≡ₚ ws -> NoDup (fe_Path <$> ws) ->
  Forall2 (fun e r => r.1 = fe_Path e /\ Sha256Hex r.2 = fe_Sha256 e) es regs ->
  let w := foldl (fun m e => <[e.1 := e.2]> m) m regs in
  (forall e, e ∈ ws -> exists c, w !! fe_Path e = Some c /\ Sha256Hex c = fe_Sha256 e)
  /\ (forall p, p ∉ fe_Path <$> ws -> w !! p = m !! p).
Proof.
  intros Hes Hnd HF w.
  assert (regs.*1 = fe_Path <$> es) as Hkeys.
  { clear -HF. induction HF as [|e r es regs [He _] _ IH]; [done|]. rewrite !fmap_cons. by f_equal. }
  assert (NoDup regs.*1) as Hnd' by (by rewrite Hkeys, Hes). split.
  - intros e He. rewrite <- Hes in He. apply list_elem_of_lookup in He as [i Hi].
    destruct (Forall2_lookup_l _ _ _ _ _ HF Hi) as ([p c] & Hr & Hp & Hc). simpl in Hp, Hc. subst p.
    exists c. split; [|done]. apply (lookup_writes regs m (fe_Path e) Hnd').
    by eapply list_elem_of_lookup_2.
  - intros p Hp. apply (lookup_writes regs m p Hnd'). by rewrite Hkeys, Hes.
Qed.

Section Converge.
Context `{MapRange} `{IndexCodec}.
Context (client : DockerClient) (name : string) (f : FilesetSpec) (local remote : Index).
Let d := DiffIndexes local remote.

(** No file of the remote index became a directory of the local tree. *)
Definition no_file_became_directory : Prop :=
  forall p e, p ∈ ToDelete d -> e ∈ ix_Files local -> at_or_below p (fe_Path e) = false.

(** The writes of a diff: entries of the local index, each path once; what is not
    written is as the remote index has it. *)
Lemma diff_writes :
  index_ok local -> remote_ok remote -> no_collision local remote ->
  NoDup (fe_Path <$> (ToCreate d ++ ToUpdate d))
  /\ (forall e, e ∈ ToCreate d ++ ToUpdate d -> e ∈ ix_Files local)
  /\ (forall e, e ∈ ix_Files local -> fe_Path e ∉ fe_Path <$> (ToCreate d ++ ToUpdate d) ->
       files_map (ix_Files remote) !! fe_Path e = Some e)
  /\ (forall p, p ∈ ToDelete d <-> is_Some (files_map (ix_Files remote) !! p)
       /\ files_map (ix_Files local) !! p = None).
Proof.
  intros Hl Hr Hc. unfold d. pose proof (iok_paths _ Hl) as Hnd.
  destruct (DiffIndexes_cases local remote) as [(_ & He & ->)| ->].
  - apply (equal_hash_equal_files local remote) in He; [|done..]. simpl. split_and!.
    + constructor.
    + by intros e ?%elem_of_nil.
    + intros e Hin _. rewrite <- He. by apply files_map_elem.
    + intros p. rewrite He. split; [by intros ?%elem_of_nil|]. intros [[x Hx] Hn]. congruence.
  - split_and!.
    + by apply NoDup_writes.
    + intros e [?%elem_of_ToCreate|?%elem_of_ToUpdate]%elem_of_app; naive_solver.
    + intros e Hin Hno. destruct (files_map (ix_Files remote) !! fe_Path e) as [g|] eqn:Hg.
      * destruct (decide (g = e)) as [->|Hne]; [done|]. exfalso. apply Hno.
        apply list_elem_of_fmap_2, elem_of_app. right. apply elem_of_ToUpdate. eauto.
      * exfalso. apply Hno, list_elem_of_fmap_2, elem_of_app. left. by apply elem_of_ToCreate.
    + apply elem_of_ToDelete.
Qed.

End Converge.

(** The exclusion is needed: files are extracted before the deleted ones are removed
    with [rm -rf], so when a file became a directory of the same name, an obedient [rm]
    removes the files of the directory again, while the index that is written lists
    them. *)
Lemma file_became_directory_lost `{MapRange} `{IndexCodec} client name f local remote m p e :
  index_ok local -> remote_ok remote -> no_collision local remote ->
  Forall (fun e => sync_path (fe_Path e) /\ fe_Path e <> IndexFileName) (ix_Files local) ->
  p ∈ ToDelete (DiffIndexes local remote) -> TrimSpace p <> "" -> sync_path p -> e ∈ ix_Files local ->
  at_or_below p (fe_Path e) = true ->
  wp (sync_steps client name f local (DiffIndexes local remote)) (fun t r => r = None ->
    source_unchanged client f (ix_Files local) t ->
    forall m', volume_after true f m t m' -> m' !! fe_Path e = None).
Proof.
  intros Hl Hr Hc Hpaths Hp Hne (_ & Hcl & _)%sync_path_clean He Hb. rewrite Forall_forall in Hpaths.
  destruct (diff_writes local remote Hl Hr Hc) as (_ & Hin & _ & _).
  eapply wp_mono; [apply sync_steps_volume|].
  { apply Forall_forall. intros x Hx. by apply Hpaths, Hin. }
  intros t r Hvol Hok Hsrc m' Hafter. destruct (Hvol Hok) as (es & regs & json & _ & _ & _ & Heq).
  { intros files Hread. specialize (Hsrc files Hread). rewrite Forall_forall in Hsrc.
    apply Forall_forall. intros x Hx. by apply Hsrc, Hin. }
  destruct (Heq _ _ _ Hafter) as (v & Hrm & ->). rewrite lookup_insert_ne by (symmetry; by apply Hpaths).
  specialize (Hrm (fe_Path e)).
  assert (existsb (fun q => at_or_below q (fe_Path e)) (rm_names (ToDelete (DiffIndexes local remote))) = true)
    as Hyes; [|rewrite Hyes in Hrm; naive_solver].
  apply existsb_exists. exists p. split; [|done]. apply list_elem_of_In, list_elem_of_fmap. exists p.
  split; [done|]. by apply list_elem_of_filter.
Qed.

(** *** Example *)

(** Any codec will do for the index file. *)
Definition example_codec : IndexCodec :=
  {| json_Marshal := fun _ => Ok "{}"; json_Unmarshal := fun _ => Ok empty_index |}.

Definition example_files : LocalFiles :=
  mkLocalFiles (fun _ => Ok (mkInfo Regular 420))
    (fun p => Ok (if bool_decide (p = "/s/a.txt") then "a" else "b")).

(** A healthy daemon, over the local tree of the example. *)
Definition example_daemon (client : DockerClient) (c : call) : resp c :=
  match c as c return resp c with
  | ReadLocal _ => example_files
  | c => healthy [] [] [] [] (example_tree "a") client c
  end.

Definition example_fileset : FilesetSpec :=
  mkFileset "html" "data" "/" (mkRestart false []) "hot" [] None "/s" "prod" "web".

Lemma example_paths : Forall (fun e => sync_path (fe_Path e) /\ fe_Path e <> IndexFileName)
  (ix_Files (index_of (example_index "a"))).
Proof.
  vm_compute ix_Files. repeat constructor; simpl; try done.
  - exists ["a.txt"]. split_and!; [|done..]. by apply (bool_decide_unpack _).
  - exists ["sub"; "b"]. split_and!; [|done..]. by apply (bool_decide_unpack _).
Qed.

Definition example_local : Index := index_of (example_index "a").
Definition example_remote : Index := index_of (example_index "b").

Lemma example_remote_paths : Forall (fun e => sync_path (fe_Path e)) (ix_Files example_remote).
Proof.
  vm_compute ix_Files. repeat constructor; simpl; try done.
  - exists ["a.txt"]. split_and!; [|done..]. by apply (bool_decide_unpack _).
  - exists ["sub"; "b"]. split_and!; [|done..]. by apply (bool_decide_unpack _).
Qed.

(** The files of the two indexes, computed once. *)
Ltac files_of i :=
  let x := eval vm_compute in (ix_Files i) in
  assert (ix_Files i = x) as -> by (vm_compute; reflexivity).

Lemma example_unchanged : Forall (unchanged_file example_files "/s") (ix_Files example_local).
Proof.
  files_of example_local. repeat constructor.
  - exists 420%Z, "a". split_and!; [done|done|]. vm_compute. reflexivity.
  - exists 420%Z, "b". split_and!; [done|done|]. vm_compute. reflexivity.
Qed.

Definition example_volume : volume := {["a.txt" := "b"; "sub/b" := "b"; "other" := "x"]}.

Lemma example_holds : holds example_volume example_remote.
Proof.
  intros p e He. apply files_map_path in He as [<- He]. revert He. files_of example_remote.
  intros He. repeat (apply elem_of_cons in He as [->|He]); [..|by apply elem_of_nil in He];
    exists "b"; (split; [reflexivity|]); vm_compute; reflexivity.
Qed.

Definition example_sync : prog (option error) :=
  @sync_steps _ example_codec "prod" "html" example_fileset example_local
    (DiffIndexes example_local example_remote).

