(* ===== verification/Prune.v ===== *)
(** * Pruning ([internal/planner/prune.go])

    After an apply, whatever carries the identifier but is not in the configuration
    is removed: containers of services no stack plans, volumes no fileset or
    context asks for, networks neither declared nor owned by a compose project.
    Every step goes on after a failure; the failures are gathered. *)

From S2P Require Import Prelude GoStrings GoPath Apperr Util Manifest Filesets Effects Docker ServiceState Resource Plan Orchestrate.

Definition op_prune : string := "planner.pruneContext".

Definition collectDesiredServicesForStack (client : DockerClient) (stack : Stack)
    (sopsConfig : option SopsConfig) (desiredServices : gset string) : prog (res (gset string)) :=
  let op := "planner.collectDesiredServicesForStack" in
  let detector := NewServiceStateDetector (Some client) in
  inline ← BuildInlineEnv detector stack sopsConfig;
  try inline (fun e => wrap op External e "build inline env for stack %s" [st_Root stack])
    (fun inline =>
  names ← GetPlannedServices detector stack inline;
  try names (fun e => wrap op External e "list planned services for stack %s" [st_Root stack])
    (fun names => mret (Ok (list_to_set names ∪ desiredServices)))).

Section Prune.
Context `{MapRange} `{Schedule}.
Context (p : Planner) (cfg : Config) (contextName : string) (client : DockerClient).

(** The services the plan found for a stack.  A nil slice counts as unknown; a
    plan keeps execution data only for stacks with services. *)
Definition planned_services (plan : option Plan) (stackName : string) : option (list ServiceInfo) :=
  let execCtx := plan ≫= (fun pln => GetContextExecutionContext pln contextName) in
  match execCtx ≫= (fun ec => ec_Stacks ec !! stackName) with
  | Some d => match se_Services d with [] => None | svcs => Some svcs end
  | None => None
  end.

(** The services of all stacks; containers may be pruned only when every stack's
    are known. *)
Definition prune_desired (plan : option Plan)
  : prog (gset string * list (option error) * bool) :=
  for_each (fun (st : gset string * list (option error) * bool) (e : string * Stack) =>
    let '(desiredServices, errs, canPrune) := st in
    match planned_services plan e.1 with
    | Some svcs => mret (list_to_set (si_Name <$> svcs) ∪ desiredServices, errs, canPrune)
    | None =>
        r ← collectDesiredServicesForStack client e.2 (cfg_Sops cfg) desiredServices;
        mret match r with
             | Ok desired => (desired, errs, canPrune)
             | Err err => (desiredServices, errs ++ [Some err], false)
             end
    end) (∅, [], true) (map_range "prune stacks" (GetStacksForContext cfg contextName)).

Definition prune_containers (desiredServices : gset string) (errs : list (option error))
  : prog (list (option error)) :=
  all ← do_call client ListComposeContainersAll;
  match all with
  | Err e => mret (errs ++ [Some (wrap op_prune External e
                     "list managed containers for context %s" [contextName])])
  | Ok all =>
      remove_each (fun it => do_call client (RemoveContainer (ps_Name it) true))
        (fun e it => wrap op_prune External e "remove unmanaged container %s in context %s"
                       [ps_Name it; contextName])
        errs (filter (fun it => ps_Service it ∉ desiredServices) all)
  end.

Definition prune_volumes (errs : list (option error)) : prog (list (option error)) :=
  let desiredVolumes := desired_volumes cfg contextName (cfg_Contexts cfg !! contextName) in
  vols ← do_call client ListVolumes;
  match vols with
  | Err e => mret (errs ++ [Some (wrap op_prune External e
                     "list managed volumes for context %s" [contextName])])
  | Ok vols =>
      remove_each (fun v => do_call client (RemoveVolume v))
        (fun e v => wrap op_prune External e "remove unmanaged volume %s in context %s"
                      [v; contextName])
        errs (filter (fun v => v ∉ desiredVolumes) vols)
  end.

(** When the compose-owned networks cannot be listed, none counts as owned. *)
Definition prune_networks (errs : list (option error)) : prog (list (option error)) :=
  let desiredNetworks := desired_networks (cfg_Contexts cfg !! contextName) in
  nets ← do_call client ListNetworks;
  match nets with
  | Err e => mret (errs ++ [Some (wrap op_prune External e
                     "list managed networks for context %s" [contextName])])
  | Ok nets =>
      owned ← getComposeOwnedNetworks client;
      let '(composeOwned, errs) :=
        match owned with Ok o => (o, errs) | Err e => (∅, errs ++ [Some e]) end in
      remove_each (fun n => do_call client (RemoveNetwork n))
        (fun e n => wrap op_prune External e "remove unmanaged network %s in context %s"
                      [n; contextName])
        errs (orphanNetworks (list_to_set nets) desiredNetworks composeOwned)
  end.

Definition pruneContext (plan : option Plan) : prog (option error) :=
  '(desiredServices, errs, canPruneContainers) ← prune_desired plan;
  errs ← (if canPruneContainers : bool then prune_containers desiredServices errs else mret errs);
  errs ← prune_volumes errs;
  errs ← prune_networks errs;
  mret (Aggregate op_prune External
          (Sprintf "prune for context %s failed for one or more resources" [contextName]) errs).
End Prune.

Definition PruneWithPlanOptions `{MapRange} `{Schedule} (p : Planner) (cfg : Config)
    (plan : option Plan) (opts : CleanupOptions) : prog (option error) :=
  if cfg_Targeted cfg then mret None else
  if bool_decide (pl_docker p = None) && negb (pl_factory p) then
    mret (Some (New "planner.Prune" Precondition "docker client not configured" []))
  else
  r ← ExecuteAcrossContextsMode p cfg RunToCompletion (stateless (fun contextName =>
        match getClientForContext p contextName with
        | None => mret (Some (New "planner.Prune" Precondition
                          "docker client not available for context %s" [contextName]))
        | Some client => pruneContext cfg contextName client plan
        end)) tt;
  mret (handleCleanupError r.2 opts).

(** ** What a prune may remove *)

(** The services of a stack as the plan or docker told them. *)
Definition services_known (contextName : string) (client : DockerClient) (plan : option Plan)
    (stackName : string) (stack : Stack) (t : list event) (names : gset string) : Prop :=
  (exists svcs, planned_services contextName plan stackName = Some svcs
                /\ names = list_to_set (si_Name <$> svcs))
  \/ (exists inline (svcs : list string),
        Ev client (ComposeConfigServices (stack_args stack inline)) (Ok svcs) ∈ t
        /\ names = list_to_set svcs)
  \/ (exists inline (doc : ComposeConfigDoc),
        Ev client (ComposeConfigFull (stack_args stack inline)) (Ok doc) ∈ t /\ names = dom doc).

Lemma services_known_app ctx client plan n stack t t' t'' names :
  services_known ctx client plan n stack t names ->
  services_known ctx client plan n stack (t' ++ t ++ t'') names.
Proof. unfold services_known. intros [?|[(i & s & ? & ?)|(i & s & ? & ?)]]; [by left|..]; set_solver. Qed.

Lemma GetPlannedServices_spec client stack inline :
  wp (GetPlannedServices (NewServiceStateDetector (Some client)) stack inline) (fun t r =>
    forall names, r = Ok names -> 
      (exists svcs, Ev client (ComposeConfigServices (stack_args stack inline)) (Ok svcs) ∈ t
         /\ (list_to_set names : gset string) = list_to_set svcs)
      \/ (exists doc : ComposeConfigDoc,
         Ev client (ComposeConfigFull (stack_args stack inline)) (Ok doc) ∈ t
         /\ list_to_set names = dom doc)).
Proof.
  unfold GetPlannedServices. cbn [det_docker NewServiceStateDetector].
  apply wp_bind. wp_docall. intros r.
  assert (forall t0, wp (doc ← do_call client (ComposeConfigFull (stack_args stack inline));
    match doc with Ok doc => mret (Ok (sorted_keys doc)) | Err e => mret (Err e) end)
    (fun t r => forall names, r = Ok names -> exists doc : ComposeConfigDoc,
         Ev client (ComposeConfigFull (stack_args stack inline)) (Ok doc) ∈ t0 ++ t
         /\ (list_to_set names : gset string) = dom doc)) as Hfull.
  { intros t0. apply wp_bind. wp_docall. intros [doc|e]; apply wp_ret; [|done].
    intros names [= <-]. exists doc. split; [set_solver|].
    apply set_eq. intros x. by rewrite elem_of_list_to_set, elem_of_sorted_keys, elem_of_dom. }
  specialize (Hfull [Ev client (ComposeConfigServices (stack_args stack inline)) r]).
  destruct r as [[|s svcs]|e];
    [by eapply wp_mono; [apply Hfull|]; intros t a Hd names Hn; right; apply Hd | |
     by eapply wp_mono; [apply Hfull|]; intros t a Hd names Hn; right; apply Hd].
  apply wp_ret. intros names [= <-]. left. exists (s :: svcs). split; [set_solver|].
  apply set_eq. intros x. by rewrite !elem_of_list_to_set, elem_of_sort_strings.
Qed.

Lemma collectDesired_spec ctx client plan n stack sops desired :
  wp (collectDesiredServicesForStack client stack sops desired) (fun t r =>
    Forall looks t /\ forall d', r = Ok d' -> exists names,
      services_known ctx client plan n stack t names /\ d' = names ∪ desired).
Proof.
  unfold collectDesiredServicesForStack. apply wp_bind.
  eapply wp_mono; [apply BuildInlineEnv_looks|]. intros t1 inline Ht1. apply wp_try.
  destruct inline as [inline|e]; [|by rewrite app_nil_r]. apply wp_bind.
  eapply wp_mono; [apply wp_and; [apply GetPlannedServices_looks|apply GetPlannedServices_spec]|].
  intros t2 names [Ht2 Hn]. apply wp_try.
  assert (Forall looks (t1 ++ t2 ++ [])) as Hl by (by rewrite !Forall_app).
  destruct names as [names|e]; [apply wp_ret|by rewrite app_nil_r in *].
  split; [done|]. intros d' [= <-]. exists (list_to_set names). split; [|done].
  apply services_known_app.
  destruct (Hn names eq_refl) as [(svcs & ? & ?)|(doc & ? & ?)]; right; eauto 6.
Qed.


Section PruneFacts.
Context `{MapRange} `{Schedule}.
Context (cfg : Config) (ctx : string) (client : DockerClient) (plan : option Plan).
Let known := services_known ctx client plan.
Let stacks := GetStacksForContext cfg ctx.

(** What the wanted services are after the stacks [xs]. *)
Definition desired_ok (xs : list (string * Stack)) (t : list event)
    (st : gset string * list (option error) * bool) : Prop :=
  let '(desired, errs, can) := st in
  Forall looks t
  /\ (if can : bool then errs = [] /\ (forall n s, (n, s) ∈ xs ->
        exists names, known n s t names /\ names ⊆ desired) else omap id errs <> [])
  /\ (forall svc, svc ∈ desired -> exists n s names, stacks !! n = Some s
        /\ known n s t names /\ svc ∈ names).

Lemma known_after n s t t' names : known n s t names -> known n s (t ++ t') names.
Proof. apply (services_known_app _ _ _ _ _ _ []). Qed.

(** A stack whose services became known. *)
Lemma desired_ok_known xs t t' desired errs can n s names :
  stacks !! n = Some s -> Forall looks t' -> known n s (t ++ t') names ->
  desired_ok xs t (desired, errs, can) ->
  desired_ok (xs ++ [(n, s)]) (t ++ t') (names ∪ desired, errs, can).
Proof.
  intros Hn Ht' Hk (Hl & Hcan & Hd). split_and!; [by apply Forall_app| |].
  - destruct can; [|done]. destruct Hcan as [-> Hall]. split; [done|].
    intros m q [Hin|Hin]%elem_of_app.
    + destruct (Hall m q Hin) as (ns & ? & ?). exists ns. split; [by apply known_after|set_solver].
    + apply list_elem_of_singleton in Hin as [= -> ->]. exists names. split; [done|set_solver].
  - intros svc [Hin|Hin]%elem_of_union; [by exists n, s, names|].
    destruct (Hd svc Hin) as (m & q & ns & ? & ? & ?). exists m, q, ns.
    split_and!; [done|by apply known_after|done].
Qed.

(** A stack whose services could not be listed. *)
Lemma desired_ok_unknown xs t t' desired errs can e x :
  Forall looks t' -> desired_ok xs t (desired, errs, can) ->
  desired_ok (xs ++ [x]) (t ++ t') (desired, errs ++ [Some e], false).
Proof.
  intros Ht' (Hl & _ & Hd). split_and!;
    [by apply Forall_app|rewrite omap_app; by destruct (omap id errs)|].
  intros svc Hin. destruct (Hd svc Hin) as (m & q & ns & ? & ? & ?). exists m, q, ns.
  split_and!; [done|by apply known_after|done].
Qed.

Lemma prune_desired_spec :
  wp (prune_desired cfg ctx client plan) (desired_ok (map_range "prune stacks" stacks)).
Proof.
  unfold prune_desired. apply (wp_for_each_done desired_ok).
  - split; [done|]. split; [split; [done|]|]; set_solver.
  - intros xs t [[desired errs] can] [n s] Hin Hok. apply elem_of_map_range in Hin.
    simpl. destruct (planned_services ctx plan n) as [svcs|] eqn:Hp.
    + apply wp_ret. apply desired_ok_known; [done|done| |done]. left. eauto.
    + apply wp_bind. eapply wp_mono; [apply (collectDesired_spec ctx client plan n)|].
      intros t1 r [Hl Hr]. apply wp_ret. rewrite app_nil_r. destruct r as [d'|e].
      * destruct (Hr d' eq_refl) as (names & Hk & ->).
        apply desired_ok_known; [done|done| |done].
        apply (services_known_app _ _ _ _ _ t1 t []) in Hk. by rewrite app_nil_r in Hk.
      * by eapply desired_ok_unknown.
Qed.
End PruneFacts.

(** ** The trace of each step *)

Section PruneSteps.
Context `{MapRange} `{Schedule}.
Context (cfg : Config) (ctx : string) (client : DockerClient).

Definition ev_container (it : PsBrief) (r : res unit) : event :=
  Ev client (RemoveContainer (ps_Name it) true) r.
Definition ev_volume (v : string) (r : res unit) : event := Ev client (RemoveVolume v) r.
Definition ev_network (n : string) (r : res unit) : event := Ev client (RemoveNetwork n) r.

Lemma prune_containers_spec desired errs :
  wp (prune_containers ctx client desired errs) (fun t errs' => exists bad,
    errs' = errs ++ (Some <$> bad)
    /\ ((exists e, t = [Ev client ListComposeContainersAll (Err e)] /\ bad <> [])
        \/ exists all t', t = Ev client ListComposeContainersAll (Ok all) :: t'
           /\ removed_each ev_container (filter (fun it => ps_Service it ∉ desired) all) bad t')).
Proof.
  unfold prune_containers. apply wp_bind. wp_docall. intros [all|e].
  - eapply wp_mono; [apply (remove_each_spec _ ev_container); intros x; by wp_docall|].
    intros t errs' (bad & -> & HF). exists bad. split; [done|]. right. by exists all, t.
  - apply wp_ret. eexists [_]. split; [done|]. left. by exists e.
Qed.

Lemma prune_volumes_spec errs :
  wp (prune_volumes cfg ctx client errs) (fun t errs' => exists bad,
    errs' = errs ++ (Some <$> bad)
    /\ ((exists e, t = [Ev client ListVolumes (Err e)] /\ bad <> [])
        \/ exists vols t', t = Ev client ListVolumes (Ok vols) :: t'
           /\ removed_each ev_volume
                (filter (fun v => v ∉ desired_volumes cfg ctx (cfg_Contexts cfg !! ctx)) vols) bad t')).
Proof.
  unfold prune_volumes. apply wp_bind. wp_docall. intros [vols|e].
  - eapply wp_mono; [apply (remove_each_spec _ ev_volume); intros x; by wp_docall|].
    intros t errs' (bad & -> & HF). exists bad. split; [done|]. right. by exists vols, t.
  - apply wp_ret. eexists [_]. split; [done|]. left. by exists e.
Qed.

(** The networks compose owns, as far as the listing tells. *)
Definition owned_networks (r : res (list string)) : gset string :=
  match r with Ok o => list_to_set o | Err _ => ∅ end.

Lemma prune_networks_spec errs :
  wp (prune_networks cfg ctx client errs) (fun t errs' => exists bad,
    errs' = errs ++ (Some <$> bad)
    /\ ((exists e, t = [Ev client ListNetworks (Err e)] /\ bad <> [])
        \/ exists nets owned t',
           t = Ev client ListNetworks (Ok nets) :: Ev client ListComposeNetworks owned :: t'
           /\ (bad = [] -> exists o, owned = Ok o)
           /\ removed_each ev_network (orphanNetworks (list_to_set nets)
                (desired_networks (cfg_Contexts cfg !! ctx)) (owned_networks owned)) bad t')).
Proof.
  unfold prune_networks. apply wp_bind. wp_docall. intros [nets|e].
  - unfold getComposeOwnedNetworks. apply wp_bind, wp_bind. wp_docall. intros owned.
    assert (forall errs0, wp (remove_each (fun n => do_call client (RemoveNetwork n))
      (fun e n => wrap op_prune External e "remove unmanaged network %s in context %s" [n; ctx])
      errs0 (orphanNetworks (list_to_set nets) (desired_networks (cfg_Contexts cfg !! ctx))
               (owned_networks owned))) (fun t errs' => exists bad, errs' = errs0 ++ (Some <$> bad)
        /\ removed_each ev_network (orphanNetworks (list_to_set nets)
               (desired_networks (cfg_Contexts cfg !! ctx)) (owned_networks owned)) bad t)) as Hrm.
    { intros errs0. apply remove_each_spec. intros x. by wp_docall. }
    destruct owned as [o|e]; apply wp_ret; (eapply wp_mono; [apply Hrm|]);
      intros t errs' (bad & -> & HF).
    + exists bad. split; [done|]. right. exists nets, (Ok o), t. eauto.
    + eexists (_ :: bad). rewrite <- (assoc_L (++)). split; [done|]. right.
      exists nets, (Err e), t. split; [done|]. split; [done|].
      eapply Forall2_impl; [exact HF|]. intros x ev' (r & -> & Hr). by exists r.
  - apply wp_ret. eexists [_]. split; [done|]. left. by exists e.
Qed.
End PruneSteps.

Section PruneContext.
Context `{MapRange} `{Schedule}.
Context (cfg : Config) (ctx : string) (client : DockerClient) (plan : option Plan).
Let stacks := GetStacksForContext cfg ctx.
Let volumes := desired_volumes cfg ctx (cfg_Contexts cfg !! ctx).
Let networks := desired_networks (cfg_Contexts cfg !! ctx).

Definition containers_trace (desired : gset string) (bad : list error) (t : list event) : Prop :=
  (exists e, t = [Ev client ListComposeContainersAll (Err e)] /\ bad <> [])
  \/ exists all t', t = Ev client ListComposeContainersAll (Ok all) :: t'
     /\ removed_each (ev_container client) (filter (fun it => ps_Service it ∉ desired) all) bad t'.
Definition volumes_trace (bad : list error) (t : list event) : Prop :=
  (exists e, t = [Ev client ListVolumes (Err e)] /\ bad <> [])
  \/ exists vols t', t = Ev client ListVolumes (Ok vols) :: t'
     /\ removed_each (ev_volume client) (filter (fun v => v ∉ volumes) vols) bad t'.
Definition networks_trace (bad : list error) (t : list event) : Prop :=
  (exists e, t = [Ev client ListNetworks (Err e)] /\ bad <> [])
  \/ exists nets owned t',
     t = Ev client ListNetworks (Ok nets) :: Ev client ListComposeNetworks owned :: t'
     /\ (bad = [] -> exists o, owned = Ok o)
     /\ removed_each (ev_network client)
          (orphanNetworks (list_to_set nets) networks (owned_networks owned)) bad t'.

Lemma pruneContext_trace :
  wp (pruneContext cfg ctx client plan) (fun t r => exists t0 tc tv tn desired can bc bv bn,
    t = t0 ++ tc ++ tv ++ tn
    /\ (exists errs, desired_ok cfg ctx client plan (map_range "prune stacks" stacks) t0
                       (desired, errs, can))
    /\ (if can : bool then containers_trace desired bc tc else tc = [])
    /\ volumes_trace bv tv /\ networks_trace bn tn
    /\ (r = None -> can = true /\ bc = [] /\ bv = [] /\ bn = [])).
Proof.
  unfold pruneContext. apply wp_bind. eapply wp_mono; [apply prune_desired_spec|].
  intros t0 [[desired errs] can] Hd. cbv beta iota.
  apply wp_bind. eapply (wp_mono _ (fun t errs' => exists bad, errs' = errs ++ (Some <$> bad)
    /\ if can : bool then containers_trace desired bad t else t = [])).
  { destruct can; [apply prune_containers_spec|]. apply wp_ret. exists []. by rewrite app_nil_r. }
  intros tc ec (bc & -> & Hc). apply wp_bind. eapply wp_mono; [apply prune_volumes_spec|].
  intros tv ev (bv & -> & Hv). apply wp_bind. eapply wp_mono; [apply prune_networks_spec|].
  intros tn en (bn & -> & Hn). apply wp_ret. exists t0, tc, tv, tn, desired, can, bc, bv, bn.
  rewrite app_nil_r. split_and!; [done|by exists errs|done|done|done|].
  intros Hagg%Aggregate_nil. rewrite !omap_app, !omap_id_Some in Hagg.
  apply app_nil in Hagg as [[[He ->]%app_nil ->]%app_nil ->].
  split_and!; [|done..]. destruct can; [done|]. by destruct Hd as (_ & Hne & _).
Qed.

(** What a prune may do in a run with trace [t]: look, and remove what was listed,
    is not wanted, and is known not to be wanted. *)
Definition prune_entitled (t : list event) (e : event) : Prop :=
  match ev_call e with
  | RemoveContainer name _ =>
      ev_client e = client /\ exists all it,
        Ev client ListComposeContainersAll (Ok all) ∈ t /\ it ∈ all /\ name = ps_Name it
        /\ forall n s, stacks !! n = Some s -> exists names,
             services_known ctx client plan n s t names /\ ps_Service it ∉ names
  | RemoveVolume v =>
      ev_client e = client /\ v ∉ volumes
      /\ exists vols, Ev client ListVolumes (Ok vols) ∈ t /\ v ∈ vols
  | RemoveNetwork n =>
      ev_client e = client /\ n ∉ networks
      /\ (exists nets, Ev client ListNetworks (Ok nets) ∈ t /\ n ∈ nets)
      /\ exists owned, Ev client ListComposeNetworks owned ∈ t /\ n ∉ owned_networks owned
  | c => read_only c
  end.

Lemma looks_prune_entitled t e : looks e -> prune_entitled t e.
Proof. unfold looks, prune_entitled. by destruct (ev_call e). Qed.

Lemma containers_entitled t0 tc t' desired errs bc e :
  desired_ok cfg ctx client plan (map_range "prune stacks" stacks) t0 (desired, errs, true) ->
  containers_trace desired bc tc -> e ∈ tc -> prune_entitled (t0 ++ tc ++ t') e.
Proof.
  intros (_ & [_ Hk] & _) [(x & -> & _)|(all & t & -> & HF)] Hin.
  { apply list_elem_of_singleton in Hin as ->. exact I. }
  apply elem_of_cons in Hin as [->|Hin]; [exact I|].
  eapply removed_each_elem in Hin as (it & r & Hit & ->); [|done].
  apply list_elem_of_filter in Hit as [Hsvc Hit]. split; [done|]. exists all, it.
  split_and!; [set_solver|done|done|]. intros n s Hn.
  destruct (Hk n s) as (names & Hkn & Hsub); [by apply elem_of_map_range|].
  exists names. split; [by apply (services_known_app _ _ _ _ _ t0 [])|set_solver].
Qed.

Lemma volumes_entitled t tv t' bv e :
  volumes_trace bv tv -> e ∈ tv -> prune_entitled (t ++ tv ++ t') e.
Proof.
  intros [(x & -> & _)|(vols & tr & -> & HF)] Hin.
  { apply list_elem_of_singleton in Hin as ->. exact I. }
  apply elem_of_cons in Hin as [->|Hin]; [exact I|].
  eapply removed_each_elem in Hin as (v & r & Hv & ->); [|done].
  apply list_elem_of_filter in Hv as [? ?]. split; [done|]. split; [done|].
  exists vols. split; [set_solver|done].
Qed.

Lemma networks_entitled t tn bn e :
  networks_trace bn tn -> e ∈ tn -> prune_entitled (t ++ tn) e.
Proof.
  intros [(x & -> & _)|(nets & owned & tr & -> & _ & HF)] Hin.
  { apply list_elem_of_singleton in Hin as ->. exact I. }
  apply elem_of_cons in Hin as [->|Hin]; [exact I|].
  apply elem_of_cons in Hin as [->|Hin]; [exact I|].
  eapply removed_each_elem in Hin as (n & r & Hn & ->); [|done].
  apply list_elem_of_filter in Hn as [[? ?] Hn].
  rewrite elem_of_set_range, elem_of_list_to_set in Hn. split_and!; [done|done| |].
  - exists nets. split; [set_solver|done].
  - exists owned. split; [set_solver|done].
Qed.

Lemma pruneContext_prune_entitled :
  wp (pruneContext cfg ctx client plan) (fun t _ => Forall (prune_entitled t) t).
Proof.
  eapply wp_mono; [apply pruneContext_trace|].
  intros t r (t0 & tc & tv & tn & desired & can & bc & bv & bn & -> & [errs Hd] & Hc & Hv & Hn & _).
  apply Forall_forall. intros e Hin.
  apply elem_of_app in Hin as [Hin|Hin].
  { apply looks_prune_entitled. destruct Hd as [Hl _]. rewrite Forall_forall in Hl. auto. }
  apply elem_of_app in Hin as [Hin|Hin].
  { destruct can; [by eapply containers_entitled|]. subst tc. by apply elem_of_nil in Hin. }
  apply elem_of_app in Hin as [Hin|Hin].
  - rewrite (assoc_L (++) t0). by eapply volumes_entitled.
  - rewrite (assoc_L (++) t0), (assoc_L (++) (t0 ++ tc)). by eapply networks_entitled.
Qed.

(** C5: prune removes only what nobody wants.  Whatever the daemon answers: a
    container goes only if it was listed and its service is in no stack of the
    context, the services of every one of these stacks being known (if one
    stack's cannot be listed no container is touched); a volume only if it was
    listed and neither a fileset nor the context asks for it; a network only if
    it was listed, is not declared, and is not among the networks compose was
    found to own.  Every other call only reads. *)
Theorem pruneContext_safe :
  wp (pruneContext cfg ctx client plan) (fun t _ => Forall (prune_entitled t) t).
Proof. apply pruneContext_prune_entitled. Qed.

(** Every listed volume nobody wants, every listed network neither declared nor owned
    by compose, and every listed container of a service no stack is known to have, was
    removed, and each removal succeeded. *)
Definition pruned_everything (t : list event) : Prop :=
  (exists vols, Ev client ListVolumes (Ok vols) ∈ t
     /\ forall v, v ∈ vols -> v ∉ volumes -> Ev client (RemoveVolume v) (Ok tt) ∈ t)
  /\ (exists nets owned, Ev client ListNetworks (Ok nets) ∈ t
     /\ Ev client ListComposeNetworks (Ok owned) ∈ t
     /\ forall n, n ∈ nets -> n ∉ networks -> n ∉ owned -> Ev client (RemoveNetwork n) (Ok tt) ∈ t)
  /\ (exists all, Ev client ListComposeContainersAll (Ok all) ∈ t
     /\ forall it, it ∈ all ->
          (forall n s names, stacks !! n = Some s -> services_known ctx client plan n s t names ->
             ps_Service it ∉ names) ->
          Ev client (RemoveContainer (ps_Name it) true) (Ok tt) ∈ t).

(** A context whose prune reports no error was pruned completely. *)
Lemma pruneContext_complete :
  wp (pruneContext cfg ctx client plan) (fun t r => r = None -> pruned_everything t).
Proof.
  eapply wp_mono; [apply pruneContext_trace|].
  intros t r (t0 & tc & tv & tn & desired & can & bc & bv & bn & -> & [errs Hd] & Hc & Hv & Hn & Hr) Hok.
  destruct (Hr Hok) as (-> & -> & -> & ->). split_and!.
  - destruct Hv as [(? & _ & ?)|(vols & tr & -> & HF)]; [done|]. exists vols.
    split; [set_solver|]. intros v Hin Hv.
    destruct (removed_each_all _ _ _ _ v HF) as (a & Ha & Hok'); [by apply list_elem_of_filter|].
    rewrite (Hok' eq_refl) in Ha. set_solver.
  - destruct Hn as [(? & _ & ?)|(nets & owned & tr & -> & Ho & HF)]; [done|].
    destruct (Ho eq_refl) as [o ->]. exists nets, o. split; [set_solver|]. split; [set_solver|].
    intros n Hin Hn Hno. destruct (removed_each_all _ _ _ _ n HF) as (a & Ha & Hok').
    { apply list_elem_of_filter. rewrite elem_of_set_range, elem_of_list_to_set.
      split; [|done]. split; [done|]. simpl. by rewrite elem_of_list_to_set. }
    rewrite (Hok' eq_refl) in Ha. set_solver.
  - destruct Hc as [(? & _ & ?)|(all & tr & -> & HF)]; [done|]. exists all.
    split; [set_solver|]. intros it Hin Hit.
    destruct (removed_each_all _ _ _ _ it HF) as (a & Ha & Hok').
    { apply list_elem_of_filter. split; [|done]. intros Hdes.
      destruct Hd as (_ & _ & Hd). destruct (Hd _ Hdes) as (n & s & names & Hn' & Hk & Hs).
      apply (Hit n s names); [done| |done]. by apply (services_known_app _ _ _ _ _ t0 []). }
    rewrite (Hok' eq_refl) in Ha. set_solver.
Qed.

(** A failed ownership listing unprotects compose's networks.  When docker
    cannot list the networks compose owns, a prune still tries to remove every
    listed network that is not declared, those of running stacks included. *)
Theorem prune_without_ownership errs :
  wp (prune_networks cfg ctx client errs) (fun t _ => forall nets e n,
    t !! 0 = Some (Ev client ListNetworks (Ok nets)) ->
    t !! 1 = Some (Ev client ListComposeNetworks (Err e)) ->
    n ∈ nets -> n ∉ networks -> exists r, Ev client (RemoveNetwork n) r ∈ t).
Proof.
  eapply wp_mono; [apply prune_networks_spec|].
  intros t errs' (bad & _ & [(x & -> & _)|(nets & owned & tr & -> & _ & HF)]) nets' e n H0' H1' Hin Hn;
    [done|].
  assert (nets = nets') as <-.
  { exact (f_equal (fun o => match o with Some (Ev _ ListNetworks (Ok l)) => l | _ => [] end) H0'). }
  assert (owned = Err e) as ->.
  { exact (f_equal (fun o => match o with
      | Some (Ev _ ListComposeNetworks r) => r | _ => Ok [] end) H1'). }
  destruct (removed_each_all _ _ _ _ n HF) as (a & Ha & _); [|exists a; set_solver].
  apply list_elem_of_filter. rewrite elem_of_set_range, elem_of_list_to_set. set_solver.
Qed.
End PruneContext.

(** C18: what a successful prune says.  In strict mode ([--strict-prune]), a prune of a
    whole configuration that reports success has, on every context, removed every
    listed volume nobody wants, every listed network neither declared nor owned by
    compose and every listed container of a service no stack is known to have, and
    each removal succeeded.  Without it, which is the default, success says nothing:
    the errors of the contexts are only logged, and a prune that has a docker client
    at all reports success whatever failed. *)
Theorem strict_prune_complete `{MapRange} `{Schedule} p cfg plan opts :
  wp (PruneWithPlanOptions p cfg plan opts) (fun t r => cfg_Targeted cfg = false ->
    (co_Strict opts = true -> r = None -> forall ctx, is_Some (cfg_Contexts cfg !! ctx) ->
       exists client t1 t2 t3, getClientForContext p ctx = Some client /\ t = t1 ++ t2 ++ t3
         /\ pruned_everything cfg ctx client plan t2)
    /\ (co_Strict opts = false -> pl_docker p <> None \/ pl_factory p = true -> r = None)).
Proof.
  unfold PruneWithPlanOptions. destruct (cfg_Targeted cfg); [by apply wp_ret|].
  destruct (_ && _) eqn:Hno.
  { apply wp_ret. intros _. split; [done|]. intros _. apply andb_true_iff in Hno as [Hn Hf].
    apply bool_decide_eq_true in Hn. apply negb_true_iff in Hf. intros [?|?]; congruence. }
  apply wp_bind. eapply wp_mono; [apply across_succeeded|]. intros t [[] r] Hall. apply wp_ret.
  destruct (handleCleanupError_strict r opts) as [H1 H2]. intros _. split; [|by intros ?%H2].
  intros Hst. cbn [snd]. rewrite (H1 Hst). intros Hok ctx Hctx. destruct (Hall Hok ctx Hctx) as (s & t1 & t2 & t3 & r' & -> & Hex & Hr').
  apply exec_bind in Hex as (u1 & u2 & e & -> & Hfn & -> & ->). cbn in Hr'. subst e.
  destruct (getClientForContext p ctx) as [client|]; [|by destruct Hfn as [_ ?]].
  exists client, t1, u1, t3. rewrite !app_nil_r. split_and!; [done|done|]. by apply (pruneContext_complete _ _ _ _ _ _ Hfn).
Qed.

(** Prune is confined.  Whatever the daemons answer, a prune of a targeted
    configuration does nothing at all, since its view of what is wanted is
    partial; otherwise every removal is on the daemon of a configured context, and
    no volume or network that context wants is ever removed. *)
Theorem Prune_confined `{MapRange} `{Schedule} p cfg plan opts :
  always (fun e => read_only (ev_call e) \/
    cfg_Targeted cfg = false /\ exists ctx, is_Some (cfg_Contexts cfg !! ctx)
      /\ getClientForContext p ctx = Some (ev_client e)
      /\ match ev_call e with
         | RemoveVolume v => v ∉ desired_volumes cfg ctx (cfg_Contexts cfg !! ctx)
         | RemoveNetwork n => n ∉ desired_networks (cfg_Contexts cfg !! ctx)
         | RemoveContainer _ _ => True
         | _ => False
         end) (PruneWithPlanOptions p cfg plan opts).
Proof.
  unfold PruneWithPlanOptions. destruct (cfg_Targeted cfg); [apply always_ret|].
  destruct (_ && _); [apply always_ret|].
  apply always_bind; [|intros ?; apply always_ret]. apply always_across; [by left|].
  intros s n Hn. apply always_bind; [|intros ?; apply always_ret].
  destruct (getClientForContext p n) as [client|] eqn:Hc; [|apply always_ret].
  eapply wp_mono; [apply (pruneContext_prune_entitled cfg n client plan)|]. intros t a Ht.
  eapply Forall_impl; [exact Ht|]. intros e He. unfold prune_entitled in He.
  destruct (ev_call e); try (by left); right; (split; [done|]); exists n; naive_solver.
Qed.
