(* ===== verification/Destroy.v ===== *)
(** * Destroying ([internal/planner/destroy.go])

    An untargeted destroy removes everything that carries the identifier; one that
    is narrowed to some stacks removes their containers and the volumes named like
    their filesets only.  A plan of what will go is shown first.  Labels of the spinner and logs are left
    out. *)

From S2P Require Import Prelude GoStrings GoPath Apperr Util Manifest Filesets Effects Docker ServiceState Resource Plan Orchestrate.

(** ** The scope *)

Record destroyScope := mkScope { ds_targeted : bool; ds_projects : gset string }.

Definition allowsStack (s : destroyScope) (contextName project : string) : bool :=
  if negb (ds_targeted s) then true
  else if bool_decide (project = "") then false
  else bool_decide (MakeStackKey contextName project ∈ ds_projects s).

(** The "context/project" key of a stack; keys that do not parse are skipped. *)
Definition project_key (key : string) (stack : Stack) : option string :=
  match ParseStackKey key with
  | Err _ => None
  | Ok (ctx, stackName) =>
      let name := project_of stack in
      Some (MakeStackKey ctx (if bool_decide (name <> "") then name else stackName))
  end.

Definition newDestroyScope (cfg : Config) : destroyScope :=
  if negb (cfg_Targeted cfg) then mkScope false ∅
  else mkScope true (list_to_set
         (omap (fun e => project_key e.1 e.2) (map_to_list (GetAllStacks cfg)))).

(** Volumes of filesets, of all contexts. *)
Definition volumeToFileset `{MapRange} (cfg : Config) : gmap string string :=
  foldl (fun m (e : string * FilesetSpec) => <[fs_TargetVolume e.2 := e.1]> m) ∅
    (map_range "filesets" (GetAllFilesets cfg)).

(** ** The plan *)

Definition will_be_destroyed (t : ResourceType) (name : string) : Resource :=
  NewResource t name ActionDelete "will be destroyed".

(** The containers in scope: services by project, and containers of no project. *)
Definition group_services (scope : destroyScope) (contextName : string) (containers : list PsBrief)
  : gmap string (gset string) :=
  foldl (fun m it =>
    if negb (allowsStack scope contextName (ps_Project it)) then m
    else if bool_decide (ps_Project it <> "")
    then <[ps_Project it := {[ps_Service it]} ∪ default ∅ (m !! ps_Project it)]> m
    else m) ∅ containers.
Definition orphan_containers (scope : destroyScope) (contextName : string)
    (containers : list PsBrief) : list PsBrief :=
  filter (fun it => allowsStack scope contextName (ps_Project it) = true /\ ps_Project it = "")
    containers.

(** The line of one volume. *)
Definition plan_volume (allFilesets : gmap string FilesetSpec) (v2f : gmap string string)
    (scope : destroyScope) (rp : ResourcePlan) (volume : string) : ResourcePlan :=
  match v2f !! volume with
  | Some filesetName =>
      let target := match allFilesets !! filesetName with
                    | Some f => fs_TargetPath f | None => "" end in
      set_fileset filesetName
        (default [] (rp_Filesets rp !! filesetName) ++
           [NewResource ResourceFile "" ActionDelete
              (Sprintf "volume %s at %s will be destroyed" [volume; target])]) rp
  | None => if ds_targeted scope then rp
            else add_volumes [will_be_destroyed ResourceVolume volume] rp
  end.

Section DestroyPlan.
Context `{MapRange} `{Schedule}.
Context (allFilesets : gmap string FilesetSpec) (v2f : gmap string string) (scope : destroyScope).

Definition plan_stacks (contextName : string) (stackServices : gmap string (gset string))
  : gmap string (list Resource) :=
  foldl (fun m (e : string * gset string) =>
    <[MakeStackKey contextName e.1 :=
        will_be_destroyed ResourceService <$> set_range "services" e.2]> m)
    ∅ (map_range "stack services" stackServices).

Definition buildDestroyPlanForContext (client : DockerClient) (contextName : string)
  : prog (res ResourcePlan) :=
  let op := "planner.BuildDestroyPlan" in
  containers ← do_call client ListComposeContainersAll;
  try containers (fun e => wrap op External e "context %s: list containers" [contextName])
    (fun containers =>
  let rp := mkPlan [] [] (plan_stacks contextName (group_services scope contextName containers)) ∅
              (will_be_destroyed ResourceContainer ∘ ps_Name
                 <$> orphan_containers scope contextName containers) in
  networks ← (if ds_targeted scope then mret (Ok []) else do_call client ListNetworks);
  try networks (fun e => wrap op External e "context %s: list networks" [contextName])
    (fun networks =>
  let rp := add_networks (will_be_destroyed ResourceNetwork <$> networks) rp in
  volumes ← do_call client ListVolumes;
  try volumes (fun e => wrap op External e "context %s: list volumes" [contextName])
    (fun volumes =>
  mret (Ok (foldl (plan_volume allFilesets v2f scope) rp volumes))))).
End DestroyPlan.

Definition append_lines (m1 m2 : gmap string (list Resource)) : gmap string (list Resource) :=
  union_with (fun a b => Some (a ++ b)) m1 m2.

Definition mergeResourcePlan (dst src : ResourcePlan) : ResourcePlan :=
  mkPlan (rp_Volumes dst ++ rp_Volumes src) (rp_Networks dst ++ rp_Networks src)
    (append_lines (rp_Stacks dst) (rp_Stacks src))
    (append_lines (rp_Filesets dst) (rp_Filesets src))
    (rp_Containers dst ++ rp_Containers src).

(** Without a client nothing can be listed. *)
Definition no_docker (p : Planner) : bool :=
  bool_decide (pl_docker p = None) && negb (pl_factory p).

Definition BuildDestroyPlan `{MapRange} `{Schedule} (p : Planner) (cfg : Config)
  : prog (res Plan) :=
  let op := "planner.BuildDestroyPlan" in
  if no_docker p then mret (Err (New op Precondition "docker client not configured" [])) else
  r ← ExecuteAcrossContextsMode p cfg FailFast (fun rp contextName =>
        match getClientForContext p contextName with
        | None => mret (rp, Some (New op Precondition "docker client not available for context %s"
                                    [contextName]))
        | Some client =>
            r ← buildDestroyPlanForContext (GetAllFilesets cfg) (volumeToFileset cfg)
                  (newDestroyScope cfg) client contextName;
            mret match r with
                 | Ok localRP => (mergeResourcePlan rp localRP, None)
                 | Err e => (rp, Some e)
                 end
        end) empty_plan;
  mret match r with
       | (rp, None) => Ok (mkFullPlan ∅ (Some rp) None)
       | (_, Some e) => Err e
       end.

(** ** The destruction *)

Definition op_destroy : string := "planner.destroyContext".

(** Container names by project and service. *)
Definition group_containers (m : gmap string (gmap string (list string))) (it : PsBrief)
  : gmap string (gmap string (list string)) :=
  let services := default ∅ (m !! ps_Project it) in
  <[ps_Project it := <[ps_Service it := default [] (services !! ps_Service it) ++ [ps_Name it]]>
                       services]> m.

Section DestroyContext.
Context `{MapRange} `{Schedule}.
Context (client : DockerClient) (contextName : string) (v2f : gmap string string)
  (scope : destroyScope).

Definition remove_container (name : string) : prog (res unit) :=
  do_call client (RemoveContainer name true).
Definition container_failed (e : error) (name : string) : error :=
  wrap op_destroy External e "context %s: remove container %s" [contextName; name].

(** Orphans are removed at once; the others are grouped by project and service,
    and removed group by group. *)
Definition destroy_containers (errs : list (option error)) : prog (list (option error)) :=
  allContainers ← do_call client ListComposeContainersAll;
  let '(allContainers, errs) := match allContainers with
    | Ok cs => (cs, errs)
    | Err e => ([], errs ++ [Some (wrap op_destroy External e "context %s: list containers" [contextName])])
    end in
  errs ← remove_each remove_container container_failed errs
           (ps_Name <$> orphan_containers scope contextName allContainers);
  let byProjSvc := foldl group_containers ∅
    (filter (fun it => allowsStack scope contextName (ps_Project it) = true /\ ps_Project it <> "")
       allContainers) in
  remove_each remove_container container_failed errs
    (e ← map_range "stacks" byProjSvc; s ← map_range "services" e.2; s.2).

Definition destroy_networks (errs : list (option error)) : prog (list (option error)) :=
  if ds_targeted scope then mret errs else
  networks ← do_call client ListNetworks;
  match networks with
  | Err e => mret (errs ++ [Some (wrap op_destroy External e "context %s: list networks" [contextName])])
  | Ok networks =>
      remove_each (fun n => do_call client (RemoveNetwork n))
        (fun e n => wrap op_destroy External e "context %s: remove network %s" [contextName; n])
        errs networks
  end.

Definition destroy_volumes (errs : list (option error)) : prog (list (option error)) :=
  volumes ← do_call client ListVolumes;
  match volumes with
  | Err e => mret (errs ++ [Some (wrap op_destroy External e "context %s: list volumes" [contextName])])
  | Ok volumes =>
      remove_each (fun v => do_call client (RemoveVolume v))
        (fun e v => wrap op_destroy External e "context %s: remove volume %s" [contextName; v])
        errs (filter (fun v => ds_targeted scope = true -> is_Some (v2f !! v)) volumes)
  end.

Definition destroyContext : prog (option error) :=
  errs ← destroy_containers [];
  errs ← destroy_networks errs;
  errs ← destroy_volumes errs;
  mret (Aggregate op_destroy External
          (Sprintf "destroy for context %s failed for one or more resources" [contextName]) errs).
End DestroyContext.

Definition DestroyWithOptions `{MapRange} `{Schedule} (p : Planner) (cfg : Config)
    (opts : CleanupOptions) : prog (option error) :=
  if no_docker p then
    mret (Some (New "planner.Destroy" Precondition "docker client not configured" []))
  else
  r ← ExecuteAcrossContextsMode p cfg RunToCompletion (stateless (fun contextName =>
        match getClientForContext p contextName with
        | None => mret (Some (New "planner.Destroy" Precondition
                          "docker client not available for context %s" [contextName]))
        | Some client => destroyContext client contextName (volumeToFileset cfg)
                           (newDestroyScope cfg)
        end)) tt;
  mret (handleCleanupError r.2 opts).

(** ** Properties *)

(** *** Grouping loses nothing *)

Definition grouped (m : gmap string (gmap string (list string))) (name : string) : Prop :=
  exists p sm s l, m !! p = Some sm /\ sm !! s = Some l /\ name ∈ l.

Lemma grouped_step m it name :
  grouped (group_containers m it) name <-> grouped m name \/ name = ps_Name it.
Proof.
  unfold grouped, group_containers. set (P := ps_Project it). set (S := ps_Service it). split.
  - intros (p & sm & s & l & Hp & Hs & Hl). destruct (decide (p = P)) as [->|Hne].
    + rewrite lookup_insert_eq in Hp. injection Hp as <-.
      destruct (decide (s = S)) as [->|Hne].
      * rewrite lookup_insert_eq in Hs. injection Hs as <-.
        apply elem_of_app in Hl as [Hl|?%list_elem_of_singleton]; [|by right]. left.
        destruct (m !! P) as [sm|] eqn:HP; simpl in Hl; [|by apply elem_of_nil in Hl].
        destruct (sm !! S) as [l|] eqn:HS; [|by apply elem_of_nil in Hl]. eauto 8.
      * rewrite lookup_insert_ne in Hs by done. left.
        destruct (m !! P) as [sm|] eqn:HP; simpl in Hs; [eauto 8|done].
    + rewrite lookup_insert_ne in Hp by done. left. eauto 8.
  - intros [(p & sm & s & l & Hp & Hs & Hl)| ->].
    + destruct (decide (p = P)) as [->|Hne].
      * rewrite Hp. simpl.
        exists P, (<[S := default [] (sm !! S) ++ [ps_Name it]]> sm), s.
        rewrite lookup_insert_eq. destruct (decide (s = S)) as [->|Hne].
        -- exists (default [] (sm !! S) ++ [ps_Name it]). rewrite lookup_insert_eq, Hs. set_solver.
        -- exists l. by rewrite lookup_insert_ne by done.
      * exists p, sm, s, l. by rewrite lookup_insert_ne by done.
    + set (sm := default ∅ (m !! P)).
      exists P, (<[S := default [] (sm !! S) ++ [ps_Name it]]> sm), S,
        (default [] (sm !! S) ++ [ps_Name it]).
      rewrite !lookup_insert_eq. set_solver.
Qed.

Lemma grouped_all cs name :
  grouped (foldl group_containers ∅ cs) name <-> exists it, it ∈ cs /\ name = ps_Name it.
Proof.
  induction cs as [|it cs IH] using rev_ind.
  - split; [|set_solver]. intros (p & sm & s & l & Hp & _). simpl in Hp. by apply lookup_empty_Some in Hp.
  - rewrite foldl_app. cbn [foldl]. rewrite grouped_step, IH. set_solver.
Qed.

Lemma elem_of_groups `{MapRange} (m : gmap string (gmap string (list string))) name :
  name ∈ (e ← map_range "stacks" m; s ← map_range "services" e.2; s.2) <-> grouped m name.
Proof.
  rewrite list_elem_of_bind. unfold grouped. split.
  - intros ([p sm] & Hin & Hp). apply list_elem_of_bind in Hin as ([s l] & Hl & Hs).
    apply elem_of_map_range in Hp, Hs. eauto 8.
  - intros (p & sm & s & l & Hp & Hs & Hl). exists (p, sm). split; [|by apply elem_of_map_range].
    apply list_elem_of_bind. exists (s, l). split; [done|]. by apply elem_of_map_range.
Qed.

(** *** The trace of a destruction *)

Section DestroyFacts.
Context `{MapRange} `{Schedule}.
Context (client : DockerClient) (ctx : string) (v2f : gmap string string) (scope : destroyScope).

Definition ev_rm_container (name : string) (r : res unit) : event :=
  Ev client (RemoveContainer name true) r.
Definition ev_rm_network (n : string) (r : res unit) : event := Ev client (RemoveNetwork n) r.
Definition ev_rm_volume (v : string) (r : res unit) : event := Ev client (RemoveVolume v) r.

(** The containers in scope. *)
Definition in_scope (it : PsBrief) : Prop := allowsStack scope ctx (ps_Project it) = true.

(** What a listing gave; a failed one shows nothing. *)
Definition listed {A} (r : res (list A)) : list A := match r with Ok l => l | Err _ => [] end.

Lemma destroy_containers_spec errs :
  wp (destroy_containers client ctx scope errs) (fun t errs' => exists bad ans names t',
    errs' = errs ++ (Some <$> bad)
    /\ t = Ev client ListComposeContainersAll ans :: t'
    /\ (bad = [] -> exists all, ans = Ok all)
    /\ (forall name, name ∈ names <-> exists it, it ∈ listed ans /\ in_scope it /\ name = ps_Name it)
    /\ removed_each ev_rm_container names bad t').
Proof.
  unfold destroy_containers. apply wp_bind. wp_docall. intros ans.
  set (bad0 := match ans with Ok _ => [] | Err e =>
    [wrap op_destroy External e "context %s: list containers" [ctx]] end : list error).
  assert (match ans with Ok cs => (cs, errs) | Err e => ([], errs ++ [Some
    (wrap op_destroy External e "context %s: list containers" [ctx])]) end
    = (listed ans, errs ++ (Some <$> bad0))) as -> by (destruct ans; by rewrite ?app_nil_r).
  apply wp_bind. eapply wp_mono; [apply (remove_each_spec _ ev_rm_container); intros x; unfold remove_container; by wp_docall|].
  intros t1 errs1 (bad1 & -> & HF1).
  eapply wp_mono; [apply (remove_each_spec _ ev_rm_container); intros x; unfold remove_container; by wp_docall|].
  intros t2 errs2 (bad2 & -> & HF2).
  match type of HF1 with removed_each _ ?n1 _ _ => match type of HF2 with removed_each _ ?n2 _ _ =>
    exists (bad0 ++ bad1 ++ bad2), ans, (n1 ++ n2), (t1 ++ t2) end end. split_and!.
  - by rewrite !fmap_app, !(assoc_L (++)).
  - done.
  - intros [Hb _]%app_nil. destruct ans; [eauto|done].
  - intros name. rewrite elem_of_app, elem_of_groups, grouped_all. unfold orphan_containers, in_scope.
    rewrite list_elem_of_fmap. setoid_rewrite list_elem_of_filter.
    split; [naive_solver|]. intros (it & Hin & Hs & ->).
    destruct (decide (ps_Project it = "")); [left|right]; eauto.
  - apply Forall2_app; (eapply Forall2_impl; [eassumption|]);
      intros x e (r & -> & Hr); exists r; (split; [done|]); intros [_ [? ?]%app_nil]%app_nil; auto.
Qed.

Lemma destroy_networks_spec errs :
  wp (destroy_networks client ctx scope errs) (fun t errs' => exists bad,
    errs' = errs ++ (Some <$> bad)
    /\ if ds_targeted scope then t = [] else exists ans t',
       t = Ev client ListNetworks ans :: t' /\ (bad = [] -> exists nets, ans = Ok nets)
       /\ removed_each ev_rm_network (listed ans) bad t').
Proof.
  unfold destroy_networks. destruct (ds_targeted scope).
  { apply wp_ret. exists []. by rewrite app_nil_r. }
  apply wp_bind. wp_docall. intros [nets|e].
  - eapply wp_mono; [apply (remove_each_spec _ ev_rm_network); intros x; by wp_docall|].
    intros t errs' (bad & -> & HF). exists bad. split; [done|]. exists (Ok nets), t. eauto.
  - apply wp_ret. eexists [_]. split; [done|]. exists (Err e), []. split_and!; [done|done|constructor].
Qed.

Lemma destroy_volumes_spec errs :
  wp (destroy_volumes client ctx v2f scope errs) (fun t errs' => exists bad ans t',
    errs' = errs ++ (Some <$> bad)
    /\ t = Ev client ListVolumes ans :: t' /\ (bad = [] -> exists vols, ans = Ok vols)
    /\ removed_each ev_rm_volume
         (filter (fun v => ds_targeted scope = true -> is_Some (v2f !! v)) (listed ans)) bad t').
Proof.
  unfold destroy_volumes. apply wp_bind. wp_docall. intros [vols|e].
  - eapply wp_mono; [apply (remove_each_spec _ ev_rm_volume); intros x; by wp_docall|].
    intros t errs' (bad & -> & HF). exists bad, (Ok vols), t. eauto.
  - apply wp_ret. eexists [_], (Err e), []. split_and!; [done|done|done|constructor].
Qed.

Lemma destroyContext_trace :
  wp (destroyContext client ctx v2f scope) (fun t r => exists ans tc tn vols tv names bc bn bv,
    t = (Ev client ListComposeContainersAll ans :: tc) ++ tn ++ Ev client ListVolumes vols :: tv
    /\ (forall name, name ∈ names <-> exists it, it ∈ listed ans /\ in_scope it /\ name = ps_Name it)
    /\ removed_each ev_rm_container names bc tc
    /\ (if ds_targeted scope then tn = [] else exists nets t',
         tn = Ev client ListNetworks nets :: t' /\ (bn = [] -> exists l, nets = Ok l)
         /\ removed_each ev_rm_network (listed nets) bn t')
    /\ removed_each ev_rm_volume
         (filter (fun v => ds_targeted scope = true -> is_Some (v2f !! v)) (listed vols)) bv tv
    /\ (r = None -> bc = [] /\ bn = [] /\ bv = []
          /\ (exists l, ans = Ok l) /\ (exists l, vols = Ok l))).
Proof.
  unfold destroyContext. apply wp_bind. eapply wp_mono; [apply destroy_containers_spec|].
  intros t1 e1 (bc & ans & names & tc & -> & -> & Hans & Hnames & Hc).
  apply wp_bind. eapply wp_mono; [apply destroy_networks_spec|]. intros tn e2 (bn & -> & Hn).
  apply wp_bind. eapply wp_mono; [apply destroy_volumes_spec|].
  intros t3 e3 (bv & vols & tv & -> & -> & Hvols & Hv). apply wp_ret.
  exists ans, tc, tn, vols, tv, names, bc, bn, bv. rewrite app_nil_r.
  split_and!; [done|done|done|done|done|].
  intros Hagg%Aggregate_nil. rewrite !omap_app, !omap_id_Some in Hagg.
  apply app_nil in Hagg as [[[_ ->]%app_nil ->]%app_nil ->]. split_and!; auto.
Qed.

(** What a destruction of this scope may do in a run with trace [t]. *)
Definition destroy_entitled (t : list event) (e : event) : Prop :=
  match ev_call e with
  | RemoveContainer name _ =>
      ev_client e = client /\ exists all it, Ev client ListComposeContainersAll (Ok all) ∈ t
        /\ it ∈ all /\ in_scope it /\ name = ps_Name it
  | RemoveNetwork n =>
      ev_client e = client /\ ds_targeted scope = false
      /\ exists nets, Ev client ListNetworks (Ok nets) ∈ t /\ n ∈ nets
  | RemoveVolume v =>
      ev_client e = client /\ (ds_targeted scope = true -> is_Some (v2f !! v))
      /\ exists vols, Ev client ListVolumes (Ok vols) ∈ t /\ v ∈ vols
  | c => read_only c
  end.

Lemma elem_of_listed {A} (x : A) ans : x ∈ listed ans -> exists l, ans = Ok l /\ x ∈ l.
Proof. destruct ans as [l|e]; [eauto|]. by intros ?%elem_of_nil. Qed.

Lemma destroyContext_entitled :
  wp (destroyContext client ctx v2f scope) (fun t _ => Forall (destroy_entitled t) t).
Proof.
  eapply wp_mono; [apply destroyContext_trace|].
  intros t r (ans & tc & tn & vols & tv & names & bc & bn & bv & -> & Hnames & Hc & Hn & Hv & _).
  apply Forall_forall. intros e Hin. apply elem_of_app in Hin as [Hin|Hin].
  - apply elem_of_cons in Hin as [->|Hin]; [exact I|].
    eapply removed_each_elem in Hin as (name & a & (it & Hit & Hs & ->)%Hnames & ->); [|done].
    apply elem_of_listed in Hit as (all & -> & Hit). split; [done|]. exists all, it. set_solver.
  - apply elem_of_app in Hin as [Hin|Hin].
    + destruct (ds_targeted scope) eqn:Ht; [subst tn; by apply elem_of_nil in Hin|].
      destruct Hn as (nets & t' & -> & _ & HF). apply elem_of_cons in Hin as [->|Hin]; [exact I|].
      apply (removed_each_elem _ _ _ _ _ HF) in Hin as (n & a & (l & -> & Hl)%elem_of_listed & ->).
      split; [done|]. split; [done|]. exists l. set_solver.
    + apply elem_of_cons in Hin as [->|Hin]; [exact I|].
      apply (removed_each_elem _ _ _ _ _ Hv) in Hin as (v & a & Hin & ->).
      apply list_elem_of_filter in Hin as [Hf (l & -> & Hl)%elem_of_listed].
      split; [done|]. split; [done|]. exists l. set_solver.
Qed.

(** Every listed container of a project in scope, every listed volume (narrowed: with
    the name of a fileset's) and, unless narrowed, every listed network was removed,
    and each removal succeeded. *)
Definition destroyed_everything (t : list event) : Prop :=
  (exists all, Ev client ListComposeContainersAll (Ok all) ∈ t /\ forall it, it ∈ all ->
     in_scope it -> Ev client (RemoveContainer (ps_Name it) true) (Ok tt) ∈ t)
  /\ (exists vols, Ev client ListVolumes (Ok vols) ∈ t /\ forall v, v ∈ vols ->
     (ds_targeted scope = true -> is_Some (v2f !! v)) -> Ev client (RemoveVolume v) (Ok tt) ∈ t)
  /\ (ds_targeted scope = false -> exists nets, Ev client ListNetworks (Ok nets) ∈ t
     /\ forall n, n ∈ nets -> Ev client (RemoveNetwork n) (Ok tt) ∈ t).

(** A context whose destruction reports no error was destroyed completely. *)
Lemma destroyContext_complete :
  wp (destroyContext client ctx v2f scope) (fun t r => r = None -> destroyed_everything t).
Proof.
  eapply wp_mono; [apply destroyContext_trace|].
  intros t r (ans & tc & tn & vols & tv & names & bc & bn & bv & -> & Hnames & Hc & Hn & Hv & Hr) Hok.
  destruct (Hr Hok) as (-> & -> & -> & [all ->] & [vs ->]). split_and!.
  - exists all. split; [set_solver|]. intros it Hit Hs.
    destruct (removed_each_all _ _ _ _ (ps_Name it) Hc) as (a & Ha & Ho);
      [apply Hnames; by exists it|]. rewrite (Ho eq_refl) in Ha. set_solver.
  - exists vs. split; [set_solver|]. intros v Hin Ht.
    destruct (removed_each_all _ _ _ _ v Hv) as (a & Ha & Ho);
      [by apply list_elem_of_filter|]. rewrite (Ho eq_refl) in Ha. set_solver.
  - intros Ht. rewrite Ht in Hn. destruct Hn as (nets & t' & -> & Hl & HF).
    destruct (Hl eq_refl) as [l ->]. exists l. split; [set_solver|]. intros n Hin.
    destruct (removed_each_all _ _ _ _ n HF) as (a & Ha & Ho); [done|].
    rewrite (Ho eq_refl) in Ha. set_solver.
Qed.
End DestroyFacts.

(** *** What is in scope *)

(** The project of a stack: the one it names, or its own name. *)
Definition effective_project (stackName : string) (stack : Stack) : string :=
  if bool_decide (project_of stack <> "") then project_of stack else stackName.

(** The scope of a targeted destroy is the targeted stacks.  A container of a
    project on a context is in scope exactly when the destroy is not targeted, or
    the (already narrowed) configuration has a stack of that context whose project
    name, by default its own name, is the container's. *)
Theorem newDestroyScope_spec cfg ctx proj :
  ctx <> "" -> free slash ctx -> proj <> "" ->
  allowsStack (newDestroyScope cfg) ctx proj = true <->
  cfg_Targeted cfg = false \/ exists stackName stack, stackName <> ""
    /\ GetAllStacks cfg !! MakeStackKey ctx stackName = Some stack
    /\ proj = effective_project stackName stack.
Proof.
  intros Hc Hf Hp. unfold allowsStack, newDestroyScope. destruct (cfg_Targeted cfg); simpl; [|naive_solver].
  rewrite (bool_decide_false (proj = "")) by done. rewrite bool_decide_eq_true, elem_of_list_to_set.
  rewrite list_elem_of_omap. split.
  - intros ([key stack] & Hin & Hk). right. apply elem_of_map_to_list in Hin. unfold project_key in Hk.
    simpl in Hk. destruct (ParseStackKey key) as [[c s]|] eqn:Hpk; [|done].
    apply ParseStackKey_Ok in Hpk as (-> & Hc' & Hf' & Hs'). injection Hk as Hk.
    apply MakeStackKey_inj in Hk as [<- <-]; [|done..]. by exists s, stack.
  - intros [?|(s & stack & Hs & Hk & ->)]; [done|]. exists (MakeStackKey ctx s, stack).
    split; [by apply elem_of_map_to_list|]. unfold project_key. simpl.
    by rewrite (proj2 (ParseStackKey_Ok (MakeStackKey ctx s) ctx s)).
Qed.

(** *** The plan announces the destruction *)

Lemma lookup_group_services scope ctx cs p :
  p <> "" -> forall svc,
  (exists ss, group_services scope ctx cs !! p = Some ss /\ svc ∈ ss) <->
  exists it, it ∈ cs /\ in_scope ctx scope it /\ ps_Project it = p /\ ps_Service it = svc.
Proof.
  intros Hp svc. unfold group_services, in_scope.
  induction cs as [|it cs IH] using rev_ind; [set_solver|]. rewrite foldl_app. cbn [foldl].
  set (m := foldl _ ∅ cs) in *.
  assert ((exists it0, it0 ∈ cs ++ [it] /\ allowsStack scope ctx (ps_Project it0) = true
      /\ ps_Project it0 = p /\ ps_Service it0 = svc) <->
    (exists it0, it0 ∈ cs /\ allowsStack scope ctx (ps_Project it0) = true
      /\ ps_Project it0 = p /\ ps_Service it0 = svc)
    \/ (allowsStack scope ctx (ps_Project it) = true /\ ps_Project it = p /\ ps_Service it = svc))
    as Hsplit.
  { split.
    - intros (x & [Hin|Hin]%elem_of_app & Hx); [left; by exists x|].
      apply list_elem_of_singleton in Hin as ->. by right.
    - intros [(x & Hin & Hx)|Hx]; [exists x|exists it]; (split; [|done]); apply elem_of_app;
        [by left|right; by apply list_elem_of_singleton]. }
  rewrite Hsplit, <- IH. clear Hsplit.
  destruct (allowsStack scope ctx (ps_Project it)) eqn:Ha; simpl; [|naive_solver].
  case_bool_decide as Hne; [|naive_solver].
  destruct (decide (ps_Project it = p)) as [<-|Hd].
  - rewrite lookup_insert_eq. destruct (m !! ps_Project it) as [ss|]; simpl.
    + split.
      * intros (ss' & [= <-] & Hin). set_solver.
      * intros [(ss' & [= <-] & Hin)|(_ & _ & <-)]; eexists; (split; [done|]); set_solver.
    + split.
      * intros (ss' & [= <-] & Hin). set_solver.
      * intros [(ss' & ? & _)|(_ & _ & <-)]; [done|]. eexists. split; [done|]. set_solver.
  - rewrite lookup_insert_ne by done. naive_solver.
Qed.

Lemma lookup_plan_stacks `{MapRange} ctx stacks p ss :
  free slash ctx -> stacks !! p = Some ss ->
  plan_stacks ctx stacks !! MakeStackKey ctx p
  = Some (will_be_destroyed ResourceService <$> set_range "services" ss).
Proof.
  intros Hf Hp. unfold plan_stacks.
  assert (forall l (m : gmap string (list Resource)), NoDup l.*1 ->
    ((p, ss) ∈ l \/ (p ∉ l.*1 /\ m !! MakeStackKey ctx p
        = Some (will_be_destroyed ResourceService <$> set_range "services" ss))) ->
    foldl (fun m (e : string * gset string) => <[MakeStackKey ctx e.1 :=
          will_be_destroyed ResourceService <$> set_range "services" e.2]> m) m l
    !! MakeStackKey ctx p = Some (will_be_destroyed ResourceService <$> set_range "services" ss)) as Hgen.
  { induction l as [|[q qs] l IH]; intros m Hnd Hcase; simpl.
    - destruct Hcase as [Hin|[_ ?]]; [by apply elem_of_nil in Hin|done].
    - rewrite fmap_cons in Hnd. apply NoDup_cons in Hnd as [Hq Hnd]. apply IH; [done|].
      destruct Hcase as [[[= -> ->]|Hin]%elem_of_cons|[Hni Hm]].
      + right. split; [done|]. by rewrite lookup_insert_eq.
      + by left.
      + simpl in Hni. apply not_elem_of_cons in Hni as [Hne Hni]. right. split; [done|].
        rewrite lookup_insert_ne; [done|]. intros [_ ?]%MakeStackKey_inj; naive_solver. }
  apply Hgen; [apply NoDup_map_range|]. left. by apply elem_of_map_range.
Qed.

Section PlanVolumes.
Context (allFilesets : gmap string FilesetSpec) (v2f : gmap string string) (scope : destroyScope).

Definition fileset_line (fs v : string) : Resource :=
  NewResource ResourceFile "" ActionDelete
    (Sprintf "volume %s at %s will be destroyed"
       [v; match allFilesets !! fs with Some f => fs_TargetPath f | None => "" end]).

(** The plan has a line for the volume. *)
Definition volume_announced (rp : ResourcePlan) (v : string) : Prop :=
  will_be_destroyed ResourceVolume v ∈ rp_Volumes rp
  \/ exists fs lines, v2f !! v = Some fs /\ rp_Filesets rp !! fs = Some lines
       /\ fileset_line fs v ∈ lines.

Lemma plan_volume_announces rp v :
  (ds_targeted scope = true -> is_Some (v2f !! v)) ->
  volume_announced (plan_volume allFilesets v2f scope rp v) v.
Proof.
  intros Ht. unfold plan_volume, volume_announced. destruct (v2f !! v) as [fs|] eqn:Hv.
  - right. exists fs. simpl. rewrite lookup_insert_eq. eexists. split_and!; [done|done|].
    apply elem_of_app. right. by apply list_elem_of_singleton.
  - destruct (ds_targeted scope); [by destruct Ht|]. left. simpl. apply elem_of_app. right.
    by apply list_elem_of_singleton.
Qed.

Lemma plan_volume_keeps rp v w :
  volume_announced rp v -> volume_announced (plan_volume allFilesets v2f scope rp w) v.
Proof.
  intros Ha. unfold plan_volume. destruct (v2f !! w) as [fs|]; simpl.
  - destruct Ha as [?|(fs' & lines & Hv & Hl & Hin)]; [by left|]. right. simpl.
    destruct (decide (fs' = fs)) as [->|Hne].
    + exists fs. rewrite lookup_insert_eq, Hl. eexists. split_and!; [done|done|].
      apply elem_of_app. by left.
    + exists fs', lines. by rewrite lookup_insert_ne.
  - destruct (ds_targeted scope); [done|]. destruct Ha as [?|?]; [left|by right].
    apply elem_of_app. by left.
Qed.

Lemma plan_volumes_spec rp vols :
  let rp' := foldl (plan_volume allFilesets v2f scope) rp vols in
  rp_Networks rp' = rp_Networks rp /\ rp_Stacks rp' = rp_Stacks rp
  /\ rp_Containers rp' = rp_Containers rp
  /\ forall v, v ∈ vols -> (ds_targeted scope = true -> is_Some (v2f !! v)) ->
       volume_announced rp' v.
Proof.
  induction vols as [|w vols IH] using rev_ind; simpl.
  - split_and!; [done|done|done|]. by intros v ?%elem_of_nil.
  - rewrite foldl_app. simpl. destruct IH as (Hn & Hs & Hc & Hv).
    assert (forall q, rp_Networks (plan_volume allFilesets v2f scope q w) = rp_Networks q
      /\ rp_Stacks (plan_volume allFilesets v2f scope q w) = rp_Stacks q
      /\ rp_Containers (plan_volume allFilesets v2f scope q w) = rp_Containers q) as Hstep.
    { intros q. unfold plan_volume. by destruct (v2f !! w), (ds_targeted scope). }
    destruct (Hstep (foldl (plan_volume allFilesets v2f scope) rp vols)) as (-> & -> & ->).
    split_and!; [done|done|done|]. intros v [Hin|Hin]%elem_of_app Ht.
    + by apply plan_volume_keeps, Hv.
    + apply list_elem_of_singleton in Hin as ->. by apply plan_volume_announces.
Qed.
End PlanVolumes.

(** Everything of the listings that is in scope has a line in the plan. *)
Record announces `{MapRange} (allFilesets : gmap string FilesetSpec) (v2f : gmap string string)
    (scope : destroyScope) (ctx : string) (cs : list PsBrief) (nets vols : list string)
    (rp : ResourcePlan) : Prop := {
  ann_services : forall it, it ∈ cs -> in_scope ctx scope it -> ps_Project it <> "" ->
    exists lines, rp_Stacks rp !! MakeStackKey ctx (ps_Project it) = Some lines
      /\ will_be_destroyed ResourceService (ps_Service it) ∈ lines;
  ann_orphans : forall it, it ∈ cs -> in_scope ctx scope it -> ps_Project it = "" ->
    will_be_destroyed ResourceContainer (ps_Name it) ∈ rp_Containers rp;
  ann_networks : ds_targeted scope = false ->
    rp_Networks rp = will_be_destroyed ResourceNetwork <$> nets;
  ann_no_networks : ds_targeted scope = true -> rp_Networks rp = [];
  ann_volumes : forall v, v ∈ vols -> (ds_targeted scope = true -> is_Some (v2f !! v)) ->
    volume_announced allFilesets v2f rp v;
}.

(** C17: nothing is destroyed unannounced.  When the plan of a context is built, each
    container in scope that docker lists has a line (its service's, or its own when
    it has no project), each network too unless the destroy is narrowed, and each
    volume the destruction would remove; and building the plan only reads. *)
Theorem destroy_plan_announces `{MapRange} allFilesets v2f scope client ctx :
  free slash ctx ->
  wp (buildDestroyPlanForContext allFilesets v2f scope client ctx) (fun t r =>
    Forall looks t /\ forall rp, r = Ok rp -> exists cs nets vols,
      Ev client ListComposeContainersAll (Ok cs) ∈ t
      /\ (ds_targeted scope = false -> Ev client ListNetworks (Ok nets) ∈ t)
      /\ Ev client ListVolumes (Ok vols) ∈ t
      /\ announces allFilesets v2f scope ctx cs nets vols rp).
Proof.
  intros Hf. apply (wp_and _ (fun t _ => Forall looks t)).
  { change (always looks (buildDestroyPlanForContext allFilesets v2f scope client ctx)).
    unfold buildDestroyPlanForContext. always_auto. }
  unfold buildDestroyPlanForContext. apply wp_bind. wp_docall. intros cs.
  apply wp_try. destruct cs as [cs|e]; [|intros rp Hrp; discriminate Hrp]. apply wp_bind.
  eapply (wp_mono _ (fun t r => forall nets, r = Ok nets ->
    (ds_targeted scope = false -> Ev client ListNetworks (Ok nets) ∈ t)
    /\ (ds_targeted scope = true -> nets = []))).
  { destruct (ds_targeted scope); [apply wp_ret; naive_solver|]. wp_docall. intros r nets ->.
    split; [set_solver|done]. }
  intros t1 nets Hn. apply wp_try. destruct nets as [nets|e]; [|intros rp Hrp; discriminate Hrp].
  destruct (Hn nets eq_refl) as [Hn1 Hn2]. apply wp_bind. wp_docall. intros vols.
  apply wp_try. destruct vols as [vols|e]; [|intros rp Hrp; discriminate Hrp]. apply wp_ret. intros rp [= <-].
  exists cs, nets, vols. split_and!; [set_solver|intros ?%Hn1; set_solver|set_solver|].
  match goal with |- announces _ _ _ _ _ _ _ (foldl _ ?q _) =>
    destruct (plan_volumes_spec allFilesets v2f scope q vols) as (En & Es & Ec & Ev) end.
  split.
  - intros it Hin Hs Hp. rewrite Es. simpl.
    destruct (proj2 (lookup_group_services scope ctx cs (ps_Project it) Hp (ps_Service it)))
      as (ss & Hss & Hsvc); [by exists it|].
    eexists. rewrite (lookup_plan_stacks ctx _ _ ss); [|done..]. split; [done|].
    apply list_elem_of_fmap_2. by apply elem_of_set_range.
  - intros it Hin Hs Hp. rewrite Ec. simpl. apply list_elem_of_fmap. exists it.
    split; [done|]. by apply list_elem_of_filter.
  - intros Ht. by rewrite En.
  - intros Ht. rewrite En. simpl. by rewrite (Hn2 Ht).
  - exact Ev.
Qed.

(** *** Examples *)

Definition example_destroy_scope : destroyScope := mkScope true {["prod/web"]}.

Lemma destroy_plan_announces_witness :
  wp (buildDestroyPlanForContext ∅ {["web-data" := "html"]} example_destroy_scope "prod" "prod")
    (fun t r => Forall looks t /\ forall rp, r = Ok rp -> exists cs nets vols,
      Ev "prod" ListComposeContainersAll (Ok cs) ∈ t
      /\ (ds_targeted example_destroy_scope = false -> Ev "prod" ListNetworks (Ok nets) ∈ t)
      /\ Ev "prod" ListVolumes (Ok vols) ∈ t
      /\ announces ∅ {["web-data" := "html"]} example_destroy_scope "prod" cs nets vols rp).
Proof. apply destroy_plan_announces. by apply (bool_decide_unpack _). Defined.

(** A configuration narrowed to one stack. *)
Definition example_targeted : Config :=
  mkConfig "id" None (mkDiscovery [] "" "" "") ∅ ∅ {["prod/web" := empty_stack]} "/base" true ∅ ∅.

Lemma newDestroyScope_spec_witness :
  allowsStack (newDestroyScope example_targeted) "prod" "web" = true
  /\ allowsStack (newDestroyScope example_targeted) "prod" "db" = false.
Proof.
  split.
  - apply newDestroyScope_spec; [done|by apply (bool_decide_unpack _)|done|]. right.
    exists "web", empty_stack. split; [done|]. split; [|done]. vm_compute. reflexivity.
  - reflexivity.
Defined.

(** The volumes of filesets, whatever their context. *)
Lemma volumeToFileset_is_Some `{MapRange} cfg v :
  is_Some (volumeToFileset cfg !! v) <->
  exists name f, GetAllFilesets cfg !! name = Some f /\ fs_TargetVolume f = v.
Proof.
  unfold volumeToFileset. trans (exists e, e ∈ map_range "filesets" (GetAllFilesets cfg)
    /\ fs_TargetVolume e.2 = v).
  - induction (map_range "filesets" (GetAllFilesets cfg)) as [|e l IH] using rev_ind.
    + split; [by intros [? ?]|]. intros (e & He & _). by apply elem_of_nil in He.
    + rewrite foldl_app. cbn [foldl]. rewrite lookup_insert_is_Some, IH.
      setoid_rewrite elem_of_app. setoid_rewrite list_elem_of_singleton. split.
      * intros [<-|[_ (e' & ? & ?)]]; [by exists e; auto|]. exists e'. auto.
      * intros (e' & [Hin| ->] & <-); [|by left].
        destruct (decide (fs_TargetVolume e.2 = fs_TargetVolume e'.2)); [by left|right; eauto].
  - split.
    + intros ([name f] & Hin & <-). apply elem_of_map_range in Hin. eauto.
    + intros (name & f & Hin & <-). exists (name, f). by rewrite elem_of_map_range.
Qed.

(** A targeted destroy reaches other contexts.  The volumes of filesets are
    collected over all contexts, so a destroy narrowed to a stack of one context
    also removes a volume of the same name that another context's daemon lists,
    though no fileset of that context uses it. *)
Theorem destroy_crosses_contexts `{MapRange} client ctx cfg name f :
  GetAllFilesets cfg !! name = Some f -> fs_Context f <> ctx ->
  wp (destroyContext client ctx (volumeToFileset cfg) (newDestroyScope cfg)) (fun t _ =>
    forall vols, Ev client ListVolumes (Ok vols) ∈ t -> fs_TargetVolume f ∈ vols ->
      exists a, Ev client (RemoveVolume (fs_TargetVolume f)) a ∈ t).
Proof.
  intros Hf _. assert (is_Some (volumeToFileset cfg !! fs_TargetVolume f)) as Hv
    by (apply volumeToFileset_is_Some; eauto).
  eapply wp_mono; [apply destroyContext_trace|].
  intros t r (ans & tc & tn & vols & tv & names & bc & bn & bv & -> & _ & Hc & Hn & Hvs & _) l Hin Hl.
  assert (vols = Ok l) as ->.
  { assert (forall (e : event), ev_call e <> ListVolumes -> Ev client ListVolumes (Ok l) <> e) as Hne
      by (by intros e He <-).
    apply elem_of_app in Hin as [Hin|Hin].
    - apply elem_of_cons in Hin as [Hin|Hin]; [by apply Hne in Hin|].
      by apply (removed_each_elem _ _ _ _ _ Hc) in Hin as (x & a & _ & Heq%Hne).
    - apply elem_of_app in Hin as [Hin|Hin].
      + destruct (ds_targeted _); [subst tn; by apply elem_of_nil in Hin|].
        destruct Hn as (nets & t' & -> & _ & HF).
        apply elem_of_cons in Hin as [Hin|Hin]; [by apply Hne in Hin|].
        by apply (removed_each_elem _ _ _ _ _ HF) in Hin as (x & a & _ & Heq%Hne).
      + apply elem_of_cons in Hin as [Hin|Hin];
          [|by apply (removed_each_elem _ _ _ _ _ Hvs) in Hin as (x & a & _ & Heq%Hne)].
        symmetry. exact (f_equal (fun e => match e with
          | Ev _ ListVolumes r => r | _ => Ok [] end) Hin). }
  destruct (removed_each_all _ _ _ _ (fs_TargetVolume f) Hvs) as (a & Ha & _);
    [by apply list_elem_of_filter|]. exists a. set_solver.
Qed.

Lemma destroy_crosses_contexts_witness :
  let f := mkFileset "html" "data" "/" (mkRestart false []) "hot" [] None "/s" "prod" "web" in
  let cfg := with_DiscoveredFilesets {["html" := f]} example_targeted in
  wp (destroyContext "staging" "staging" (volumeToFileset cfg) (newDestroyScope cfg)) (fun t _ =>
    forall vols, Ev "staging" ListVolumes (Ok vols) ∈ t -> "data" ∈ vols ->
      exists a, Ev "staging" (RemoveVolume "data") a ∈ t).
Proof.
  intros f cfg. apply (destroy_crosses_contexts "staging" "staging" cfg "html" f).
  - vm_compute. reflexivity.
  - discriminate.
Defined.

(** *** The whole destruction *)

Section Whole.
Context `{MapRange} `{Schedule} (p : Planner) (cfg : Config).

(** The project belongs to a stack of the context in the (narrowed) configuration. *)
Definition project_in_scope (ctx project : string) : Prop :=
  exists stackName stack, GetAllStacks cfg !! MakeStackKey ctx stackName = Some stack
    /\ project = effective_project stackName stack.

(** What a destruction with this configuration may do in a run with trace [t]. *)
Definition removal_in_scope (t : list event) (e : event) : Prop :=
  read_only (ev_call e) \/ exists ctx, is_Some (cfg_Contexts cfg !! ctx)
    /\ getClientForContext p ctx = Some (ev_client e)
    /\ match ev_call e with
       | RemoveContainer name _ => exists all it, Ev (ev_client e) ListComposeContainersAll (Ok all) ∈ t
           /\ it ∈ all /\ name = ps_Name it
           /\ (cfg_Targeted cfg = true -> project_in_scope ctx (ps_Project it))
       | RemoveNetwork n => cfg_Targeted cfg = false
           /\ exists nets, Ev (ev_client e) ListNetworks (Ok nets) ∈ t /\ n ∈ nets
       | RemoveVolume v => (exists vols, Ev (ev_client e) ListVolumes (Ok vols) ∈ t /\ v ∈ vols)
           /\ (cfg_Targeted cfg = true -> exists k f, GetAllFilesets cfg !! k = Some f /\ fs_TargetVolume f = v
                /\ ((forall k f, GetAllFilesets cfg !! k = Some f -> is_Some (cfg_Contexts cfg !! fs_Context f)) ->
                    (forall c, is_Some (cfg_Contexts cfg !! c) -> c = ctx) -> fs_Context f = ctx))
       | _ => False
       end.

Lemma removal_in_scope_mono (t t' : list event) e : t ⊆ t' -> removal_in_scope t e -> removal_in_scope t' e.
Proof.
  intros Hs [?|(ctx & Hc & Hcl & He)]; [by left|right]. exists ctx. split_and!; [done|done|].
  destruct (ev_call e); naive_solver.
Qed.

Lemma removal_in_scope_monoidal : monoidal (fun t => Forall (removal_in_scope t) t).
Proof.
  split; [done|]. intros t1 t2 H1 H2. apply Forall_app.
  split; (eapply Forall_impl; [eassumption|]); intros e; apply removal_in_scope_mono; set_solver.
Qed.

Lemma ds_targeted_cfg : ds_targeted (newDestroyScope cfg) = cfg_Targeted cfg.
Proof. unfold newDestroyScope. by destruct (cfg_Targeted cfg). Qed.

(** A container in the scope of the configuration. *)
Lemma in_scope_project ctx it : ctx <> "" -> free slash ctx ->
  in_scope ctx (newDestroyScope cfg) it -> cfg_Targeted cfg = true -> project_in_scope ctx (ps_Project it).
Proof.
  unfold in_scope. intros Hne Hf Hs Ht. destruct (decide (ps_Project it = "")) as [He|He].
  - exfalso. unfold allowsStack in Hs. rewrite ds_targeted_cfg, Ht, He in Hs. discriminate Hs.
  - apply newDestroyScope_spec in Hs as [?|(n & st & _ & Hn & Hp)]; [congruence| |done..]. by exists n, st.
Qed.

Lemma destroyContext_in_scope ctx client t e : is_Some (cfg_Contexts cfg !! ctx) ->
  ctx <> "" -> free slash ctx -> getClientForContext p ctx = Some client ->
  destroy_entitled client ctx (volumeToFileset cfg) (newDestroyScope cfg) t e -> removal_in_scope t e.
Proof.
  intros Hctx Hne Hf Hcl. unfold destroy_entitled, removal_in_scope. rewrite ds_targeted_cfg.
  destruct (ev_call e); try (by left); intros [-> He]; right; exists ctx; (split; [done|split; [done|]]).
  - destruct He as [Hv Hl]. split; [done|]. intros (k & f & Hk & Hf')%Hv%volumeToFileset_is_Some.
    exists k, f. split_and!; [done|done|]. intros Hown Hone. by apply Hone, (Hown k).
  - done.
  - destruct He as (all & it & Hall & Hit & Hs & ->). exists all, it. split_and!; [done..|]. by apply in_scope_project.
Qed.

(** C8: what a destroy may remove.  Whatever the daemons answer, a destruction acts on
    the contexts of the configuration only and removes only what their daemons listed;
    narrowed by targets it removes only containers whose project is that of a stack of
    their context in the narrowed configuration, no network, and only volumes with the
    name of a fileset's target volume.  Whose fileset is not asked: when one context is
    targeted it is one of that context, so that its other volumes are kept; when several
    are, a volume that merely has the name of another context's fileset volume is
    removed as well, shared or not, contrary to what the comments promise. *)
Theorem destroy_scoped opts :
  (forall ctx, is_Some (cfg_Contexts cfg !! ctx) -> ctx <> "" /\ free slash ctx) ->
  wp (DestroyWithOptions p cfg opts) (fun t _ => Forall (removal_in_scope t) t)
  /\ forall client ctx k f, GetAllFilesets cfg !! k = Some f -> fs_Context f <> ctx ->
       wp (destroyContext client ctx (volumeToFileset cfg) (newDestroyScope cfg)) (fun t _ =>
         forall vols, Ev client ListVolumes (Ok vols) ∈ t -> fs_TargetVolume f ∈ vols ->
           exists a, Ev client (RemoveVolume (fs_TargetVolume f)) a ∈ t).
Proof.
  intros Hnames. split; [|intros client ctx k f; apply destroy_crosses_contexts].
  change (traces (fun t => Forall (removal_in_scope t) t) (DestroyWithOptions p cfg opts)).
  pose proof removal_in_scope_monoidal as HT. unfold DestroyWithOptions.
  destruct (no_docker p); [by apply (traces_ret (fun t => Forall (removal_in_scope t) t))|].
  apply traces_bind; [done| |intros ?; by apply (traces_ret (fun t => Forall (removal_in_scope t) t))].
  apply traces_across; [done|intros r; apply Forall_singleton; by left|]. intros s n Hn.
  apply traces_bind; [done| |intros ?; by apply (traces_ret (fun t => Forall (removal_in_scope t) t))].
  destruct (getClientForContext p n) as [client|] eqn:Hcl; [|by apply (traces_ret (fun t => Forall (removal_in_scope t) t))].
  eapply wp_mono; [apply destroyContext_entitled|]. intros t a Ht. eapply Forall_impl; [exact Ht|].
  intros e. by apply destroyContext_in_scope; [|apply Hnames|apply Hnames|].
Qed.

(** Everything the configuration puts in scope was removed from the context. *)
Definition context_destroyed (client : DockerClient) (ctx : string) (t : list event) : Prop :=
  (exists all, Ev client ListComposeContainersAll (Ok all) ∈ t /\ forall it, it ∈ all ->
     (cfg_Targeted cfg = true -> ps_Project it <> "" /\ exists stackName stack, stackName <> ""
        /\ GetAllStacks cfg !! MakeStackKey ctx stackName = Some stack
        /\ ps_Project it = effective_project stackName stack) ->
     Ev client (RemoveContainer (ps_Name it) true) (Ok tt) ∈ t)
  /\ (exists vols, Ev client ListVolumes (Ok vols) ∈ t /\ forall v, v ∈ vols ->
     (cfg_Targeted cfg = true -> exists k f, GetAllFilesets cfg !! k = Some f /\ fs_TargetVolume f = v) ->
     Ev client (RemoveVolume v) (Ok tt) ∈ t)
  /\ (cfg_Targeted cfg = false -> exists nets, Ev client ListNetworks (Ok nets) ∈ t
     /\ forall n, n ∈ nets -> Ev client (RemoveNetwork n) (Ok tt) ∈ t).

Lemma destroyed_context client ctx t : ctx <> "" -> free slash ctx ->
  destroyed_everything client ctx (volumeToFileset cfg) (newDestroyScope cfg) t -> context_destroyed client ctx t.
Proof.
  unfold destroyed_everything, context_destroyed, in_scope. rewrite ds_targeted_cfg.
  intros Hne Hf ((all & Hall & Hc) & (vols & Hvols & Hv) & Hn). split_and!; [| |done].
  - exists all. split; [done|]. intros it Hit Hin. apply Hc; [done|].
    destruct (cfg_Targeted cfg) eqn:Ht.
    + destruct (Hin eq_refl) as (Hp & n & st & Hs). apply newDestroyScope_spec; [done..|]. right. by exists n, st.
    + unfold allowsStack. by rewrite ds_targeted_cfg, Ht.
  - exists vols. split; [done|]. intros v Hin Hfs. apply Hv; [done|]. intros Ht. by apply volumeToFileset_is_Some, Hfs.
Qed.

(** C19: what a successful destroy says.  In strict mode ([--strict]), a destruction that
    reports success has, on every context of the configuration, removed every listed
    container (narrowed: of a project of one of the context's stacks), every listed volume
    (narrowed: with the name of a fileset's) and, unless narrowed, every listed network,
    and each removal succeeded.
    Without it, which is the default, success says nothing: the errors of the contexts
    are only logged, and a destroy that has a docker client at all reports success
    whatever failed. *)
Theorem strict_destroy_complete opts :
  wp (DestroyWithOptions p cfg opts) (fun t r =>
    (co_Strict opts = true -> r = None -> forall ctx, is_Some (cfg_Contexts cfg !! ctx) ->
       ctx <> "" -> free slash ctx ->
       exists client t1 t2 t3, getClientForContext p ctx = Some client /\ t = t1 ++ t2 ++ t3
         /\ context_destroyed client ctx t2)
    /\ (co_Strict opts = false -> pl_docker p <> None \/ pl_factory p = true -> r = None)).
Proof.
  unfold DestroyWithOptions. destruct (no_docker p) eqn:Hno.
  { apply wp_ret. split; [done|]. intros _. apply andb_true_iff in Hno as [Hn Hf].
    apply bool_decide_eq_true in Hn. apply negb_true_iff in Hf. intros [?|?]; congruence. }
  apply wp_bind. eapply wp_mono; [apply across_succeeded|]. intros t [[] r] Hall. apply wp_ret.
  destruct (handleCleanupError_strict r opts) as [H1 H2]. split; [|by intros ?%H2].
  intros Hst. cbn [snd]. rewrite (H1 Hst). intros Hok ctx Hctx Hne Hf.
  destruct (Hall Hok ctx Hctx) as (s & t1 & t2 & t3 & r' & -> & Hex & Hr').
  apply exec_bind in Hex as (u1 & u2 & e & -> & Hfn & -> & ->). cbn in Hr'. subst e.
  destruct (getClientForContext p ctx) as [client|]; [|by destruct Hfn as [_ ?]].
  exists client, t1, u1, t3. rewrite !app_nil_r. split_and!; [done|done|]. apply destroyed_context; [done..|].
  by apply (destroyContext_complete _ _ _ _ _ _ Hfn).
Qed.
End Whole.

(** Two targeted contexts; only [prod] has a fileset, in the volume [data]. *)
Definition two_contexts : Config :=
  mkConfig "id" None (mkDiscovery [] "" "" "") {["prod" := mkContext "" ∅ ∅; "staging" := mkContext "" ∅ ∅]} ∅
    {["prod/web" := empty_stack; "staging/web" := empty_stack]} "/base" true ∅
    {["prod/web/html" := mkFileset "html" "data" "/" (mkRestart false []) "hot" [] None "/s" "prod" "web"]}.
Definition two_daemons : DockerClient -> forall c, resp c :=
  healthy ["data"; "shared"] ["net"] [mkPs "web" "nginx" "web-1"; mkPs "db" "pg" "db-1"] [] (NDir 493 []).
Definition two_destroyed : list event * option error :=
  run two_daemons (DestroyWithOptions (mkPlanner None true true) two_contexts (mkCleanup true false)).

Definition removal_of (e : event) : option (DockerClient * string) :=
  match ev_call e with
  | RemoveContainer n _ | RemoveVolume n | RemoveNetwork n => Some (ev_client e, n)
  | _ => None
  end.

(** Of each context the container of its stack goes, the shared volume and the network
    stay; the volume [data] of [staging] goes too. *)
Lemma destroy_scoped_witness :
  omap removal_of two_destroyed.1 = [("prod", "web-1"); ("prod", "data"); ("staging", "web-1"); ("staging", "data")]
  /\ Forall (removal_in_scope (mkPlanner None true true) two_contexts two_destroyed.1) two_destroyed.1.
Proof.
  split; [vm_compute; reflexivity|].
  destruct (destroy_scoped (mkPlanner None true true) two_contexts (mkCleanup true false)) as [Hall _].
  - intros ctx [v Hv]. unfold two_contexts in Hv. cbn in Hv.
    apply lookup_insert_Some in Hv as [[<- _]|[_ Hv]]; [split; [done|by apply (bool_decide_unpack _)]|].
    apply lookup_singleton_Some in Hv as [<- _]. split; [done|by apply (bool_decide_unpack _)].
  - eapply (Hall _ two_destroyed.2), run_exec.
Defined.

(** Planning a destruction only reads. *)
Lemma BuildDestroyPlan_looks `{MapRange} `{Schedule} p cfg : always looks (BuildDestroyPlan p cfg).
Proof.
  unfold BuildDestroyPlan. destruct (no_docker p); [apply always_ret|].
  apply always_bind; [|intros [? []]; apply always_ret].
  apply always_across; [done|]. intros s n _. unfold buildDestroyPlanForContext. always_auto.
Qed.
