(* ===== verification/EndToEnd.v ===== *)
(** * The planner on the docker command line

    The planner's programs composed with the client that answers their calls: what
    a whole run does, in docker commands.  The theorems of the planner are about
    the interface, those of the client about single calls; here they meet. *)

From S2P Require Import Prelude GoStrings GoPath Apperr Util Manifest Discovery Filesets Effects Docker DockerExec Lru Client ClientResources Compose ClientHandler ServiceState Resource Plan Orchestrate Ownership Apply Prune Destroy.

(** ** Removals are of what was listed *)

(** What a call removes was listed on the same daemon. *)
Definition listed_in (t : list event) (e : event) : Prop :=
  match ev_call e with
  | RemoveVolume v => exists l, Ev (ev_client e) ListVolumes (Ok l) ∈ t /\ v ∈ l
  | RemoveNetwork n => exists l, Ev (ev_client e) ListNetworks (Ok l) ∈ t /\ n ∈ l
  | RemoveContainer name _ => exists all it,
      Ev (ev_client e) ListComposeContainersAll (Ok all) ∈ t /\ it ∈ all /\ name = ps_Name it
  | _ => True
  end.
Definition removal_listed (t : list event) : Prop := forall e, e ∈ t -> listed_in t e.

Lemma listed_in_mono (t t' : list event) e : t ⊆ t' -> listed_in t e -> listed_in t' e.
Proof. intros Hs. unfold listed_in. destruct (ev_call e); naive_solver. Qed.

Lemma removal_listed_monoidal : monoidal removal_listed.
Proof.
  split; [by intros e He%elem_of_nil|]. intros t1 t2 H1 H2 e [He|He]%elem_of_app.
  - eapply listed_in_mono; [|by apply H1]. set_solver.
  - eapply listed_in_mono; [|by apply H2]. set_solver.
Qed.

Lemma prune_listed `{MapRange} `{Schedule} p cfg plan opts :
  traces removal_listed (PruneWithPlanOptions p cfg plan opts).
Proof.
  pose proof removal_listed_monoidal as HT. unfold PruneWithPlanOptions.
  destruct (cfg_Targeted cfg); [by apply traces_ret|]. destruct (_ && _); [by apply traces_ret|].
  apply traces_bind; [done| |intros ?; by apply traces_ret].
  apply traces_across; [done|by intros r e ->%list_elem_of_singleton|]. intros s n _.
  apply traces_bind; [done| |intros ?; by apply traces_ret].
  destruct (getClientForContext p n) as [client|]; [|by apply traces_ret].
  eapply wp_mono; [apply (pruneContext_prune_entitled cfg n client plan)|].
  intros t a Ht e He. rewrite Forall_forall in Ht. specialize (Ht e He). unfold prune_entitled in Ht.
  unfold listed_in. destruct (ev_call e); try done; naive_solver.
Qed.

Lemma destroy_listed `{MapRange} `{Schedule} p cfg opts :
  traces removal_listed (DestroyWithOptions p cfg opts).
Proof.
  pose proof removal_listed_monoidal as HT. unfold DestroyWithOptions.
  destruct (no_docker p); [by apply traces_ret|].
  apply traces_bind; [done| |intros ?; by apply traces_ret].
  apply traces_across; [done|by intros r e ->%list_elem_of_singleton|]. intros s n _.
  apply traces_bind; [done| |intros ?; by apply traces_ret].
  destruct (getClientForContext p n) as [client|]; [|by apply traces_ret].
  eapply wp_mono; [apply destroyContext_entitled|].
  intros t a Ht e He. rewrite Forall_forall in Ht. specialize (Ht e He). unfold destroy_entitled in Ht.
  unfold listed_in. destruct (ev_call e); try done; naive_solver.
Qed.

Section Commands.
Context `{MapRange} `{Schedule} `{Decoders} (clients : DockerClient -> Client).
Context (id : string) (Hid : id <> "") (Hclients : forall d, cl_identifier (clients d) = id).

(** Docker printed [x] on the context [d] when asked for what carries the
    identifier. *)
Definition printed (t : list (obs system)) (d : DockerClient) (x : removed) : Prop :=
  match x with
  | RVolume v => exists out,
      Obs (OnContext d (volume_listing id)) (Ok out) ∈ t /\ v ∈ SplitNonEmptyLines out
  | RNetwork n => exists out,
      Obs (OnContext d (network_listing id)) (Ok out) ∈ t /\ n ∈ SplitNonEmptyLines out
  | RContainer name => exists out it,
      Obs (OnContext d (container_listing id)) (Ok out) ∈ t
      /\ it ∈ omap ps_line (SplitNonEmptyLines out) /\ name = ps_Name it
  end.

(** Every removing command is for something docker printed. *)
Definition removes_printed (t : list (obs system)) : Prop :=
  forall d o r x, Obs (OnContext d o) r ∈ t -> removal (op_args o) = Some x -> printed t d x.

Lemma listing_of {A} d (args : list string) (f : string -> A) cache :
  wp (keeping cache (out ← docker_run (args ++ identifier_filter (clients d));
                     try out Datatypes.id (fun out => mret (Ok (f out)))))
    (fun t r => forall l, r.2 = Ok l ->
       exists out, Obs (Exec (Run (args ++ labelled id))) (Ok out) ∈ t /\ l = f out).
Proof using Hid Hclients.
  pose proof (identifier_filter_labelled (clients d)) as Hf. rewrite Hclients in Hf.
  rewrite (Hf Hid). apply listing_answer.
Qed.

Lemma listed_printed {A} (p : prog A) :
  traces removal_listed p -> traces removes_printed (in_commands clients p).
Proof using Hid Hclients.
  intros Hp t [st a] (u & Hu & Hh)%exec_interp d o r x Hin Hx. specialize (Hp u a Hu).
  destruct (handled_removal _ _ _ _ _ _ _ _ _ Hh Hin Hx) as (q & rq & Hq & Hqx).
  specialize (Hp _ Hq). unfold listed_in in Hp. cbn [ev_call ev_client] in Hp.
  destruct q; try discriminate Hqx; injection Hqx as <-.
  - destruct Hp as (l & Hl & Hv).
    destruct (handled_listing clients _ _ _ _ d ListVolumes
                (["volume"; "ls"; "--format"; "{{.Name}}"] ++ labelled id)
                SplitNonEmptyLines (Ok l) l Datatypes.id Hh Hl eq_refl) as (out & Ho & ->).
    { intros cache. eexists. split; [done|]. apply listing_of. }
    by exists out.
  - destruct Hp as (l & Hl & Hv).
    destruct (handled_listing clients _ _ _ _ d ListNetworks
                (["network"; "ls"; "--format"; "{{.Name}}"] ++ labelled id)
                SplitNonEmptyLines (Ok l) l Datatypes.id Hh Hl eq_refl) as (out & Ho & ->).
    { intros cache. eexists. split; [done|]. apply listing_of. }
    by exists out.
  - destruct Hp as (l & it & Hl & Hv & ->).
    destruct (handled_listing clients _ _ _ _ d ListComposeContainersAll
                (["ps"; "-a"; "--format"; ps_format] ++ labelled id)
                (fun out => omap ps_line (SplitNonEmptyLines out)) (Ok l) l Datatypes.id Hh Hl eq_refl)
      as (out & Ho & ->).
    { intros cache. eexists. split; [done|]. apply listing_of. }
    by exists out, it.
Qed.
End Commands.

(** C1: Cleaning up never touches what is not dockform's.  Whatever docker answers,
    a command of a prune or of a destroy that removes a volume, a network or a
    container removes one that docker printed, in the same run and on the same
    context, when it was asked for what carries the label of the configuration's
    identifier. *)
Theorem cleanup_only_labelled `{MapRange} `{Schedule} `{Decoders} p cfg plan opts :
  cfg_Identifier cfg <> "" ->
  traces (removes_printed (cfg_Identifier cfg))
    (in_commands (client_of cfg) (PruneWithPlanOptions p cfg plan opts))
  /\ traces (removes_printed (cfg_Identifier cfg))
       (in_commands (client_of cfg) (DestroyWithOptions p cfg opts)).
Proof.
  intros Hid. split; apply listed_printed; [done|apply client_of_identifier|apply prune_listed|
    done|apply client_of_identifier|apply destroy_listed].
Qed.

(** A docker that prints one name for every listing, for examples. *)
Definition lists_data (o : system) : answer o :=
  match o return answer o with
  | OnContext _ o => prints ("data" +:+ nl) o
  | Host c => offline "" c
  end.

Lemma cleanup_only_labelled_witness :
  let run := run_tree lists_data (@in_commands canonical_range example_decoders
               (client_of example_config) _
               (DestroyWithOptions (mkPlanner None true false) example_config (mkCleanup true false))) in
  Obs (OnContext "prod" (Exec (Run ["volume"; "rm"; "data"]))) (Ok ("data" +:+ nl)) ∈ run.1
  /\ printed "id" run.1 "prod" (RVolume "data").
Proof.
  intros run.
  assert (Obs (OnContext "prod" (Exec (Run ["volume"; "rm"; "data"]))) (Ok ("data" +:+ nl)) ∈ run.1)
    as Hin by (vm_compute; repeat constructor).
  split; [exact Hin|].
  destruct (@cleanup_only_labelled canonical_range spawn_order example_decoders
              (mkPlanner None true false) example_config None (mkCleanup true false))
    as [_ Hd]; [done|].
  exact (Hd _ _ (run_tree_exec lists_data _) _ _ _ _ Hin eq_refl).
Defined.

(** ** Planning and applying *)

Section Handled.
Context `{MapRange} `{Decoders} (clients : DockerClient -> Client).

(** A property of the calls of a program, as one of its commands. *)
Lemma always_commands {A} (P : event -> Prop) (Q : DockerClient -> client_op -> Prop) (p : prog A) :
  always P p ->
  (forall d cache q c (r : resp q), P (Ev d q r) -> client_call (clients d) cache q = Some c ->
     always (fun o => let '(Obs e _) := o in Q d e) c) ->
  always (fun o => match o with Obs (OnContext d e) _ => Q d e | _ => True end)
    (in_commands clients p).
Proof.
  intros Hp Hq t [st a] (u & Hu & Hh)%exec_interp. apply Forall_forall. intros o Ho.
  destruct (handled_issued _ _ _ _ _ _ Hh Ho) as (s1 & [d q] & t1 & s2 & r & Hin & He & Ho').
  specialize (Hp u a Hu). cbv beta in Hp. rewrite Forall_forall in Hp. specialize (Hp _ Hin).
  apply handle_exec in He as [(c & v & cache & Hc & Hv & ->)|[_ ->]].
  - apply list_elem_of_fmap in Ho' as ([e r'] & -> & Hev). simpl.
    pose proof (Hq d _ q c r Hp Hc _ _ Hv) as HF. cbv beta in HF. rewrite Forall_forall in HF.
    exact (HF _ Hev).
  - by apply list_elem_of_singleton in Ho' as ->.
Qed.
End Handled.

(** C9: Planning is read-only down to the command line.  Whatever docker answers,
    every docker command of a plan, and of the plan of a destroy, lists, inspects,
    renders a compose configuration or prints a file of a volume. *)
Theorem planning_commands_read `{MapRange} `{Schedule} `{Glob} `{IndexCodec} `{Decoders} clients p cfg :
  let reads := fun o : obs system =>
    match o with Obs (OnContext _ e) _ => reading_op e | _ => True end in
  always reads (in_commands clients (BuildPlan p cfg))
  /\ always reads (in_commands clients (BuildDestroyPlan p cfg)).
Proof.
  intros reads. split.
  - apply (always_commands clients looks (fun _ => reading_op)); [apply BuildPlan_looks|].
    intros d cache q c r. apply client_call_reads.
  - apply (always_commands clients looks (fun _ => reading_op)); [apply BuildDestroyPlan_looks|].
    intros d cache q c r. apply client_call_reads.
Qed.

(** Applying removes nothing from a daemon: whatever docker answers, no command
    of an apply is a [volume rm], a [network rm] or a [container rm]. *)
Theorem apply_commands_remove_nothing `{MapRange} `{Schedule} `{Glob} `{IndexCodec} `{Decoders}
    clients p cfg plan :
  always (fun o : obs system => match o with
            | Obs (OnContext _ e) _ => removal (op_args e) = None | _ => True end)
    (in_commands clients (ApplyWithPlan p cfg plan)).
Proof.
  apply (always_commands clients _ (fun _ e => removal (op_args e) = None)
           _ (ApplyWithPlan_entitled p cfg plan)).
  intros d cache q c r He Hc.
  eapply always_mono; [by eapply client_call_removes|]. intros [e ?] [Hn|Hq]; [done|].
  rewrite Hq. destruct He as [He|(ctx & cl & _ & _ & _ & He)]; simpl in He; [by subst q|].
  destruct q; done.
Qed.
