(* ===== verification/Session.v ===== *)
(** * A run of the program ([internal/cli/common])

    What every command does before its own work: find and load the manifest, narrow
    it to the targets, probe the daemons, validate; and how a command asks for
    confirmation.  A session issues the planner's calls, probes daemons, reads and
    writes the terminal. *)

From S2P Require Import Prelude GoStrings GoPath Apperr Util Manifest Discovery Validation Targets Filesets Effects Docker ServiceState Resource Plan Validator Prompt.
From Stdlib Require Import Ascii.

(** ** The effects of a session *)

Inductive stream := Stdin | Stdout.

(** A call of the planner; [docker version] on a context, and whether its timeout
    expired; the state of the command's context; whether a stream is a terminal; a
    line of standard input; the messages of an interactive prompt; the outcome of
    the rolling display; a line printed, a warning; the installation of ssh
    multiplexing. *)
Inductive session_op : Type :=
| Planned (e : daemon_call)
| CheckDaemonOn (d : DockerClient)
| ProbeExpired
| ContextDone
| IsTerminal (s : stream)
| ReadString
| RunTea
| RollingEnd
| Print (line : string)
| Warn (line : string)
| MuxSetup.

Canonical Structure session : Effect := mkEffect session_op (fun o => match o with
  | Planned e => answer e
  | CheckDaemonOn _ => res unit
  | ProbeExpired => bool
  | ContextDone | RollingEnd => option error
  | IsTerminal _ => bool
  | ReadString => string
  | RunTea => res (list tea_msg)
  | Print _ | Warn _ | MuxSetup => unit
  end).

Notation cmd A := (tree session A).

(** The planner's part of a session. *)
Fixpoint planned {A} (p : prog A) : cmd A :=
  match p with
  | Ret a => Ret a
  | Vis e k => Vis (Planned e) (fun x => planned (k x))
  end.

Definition lift_planned (o : event) : obs session := let '(Obs e r) := o in Obs (Planned e) r.

Lemma exec_planned {A} (p : prog A) t a :
  exec (planned p) t a <-> exists u, t = lift_planned <$> u /\ exec p u a.
Proof.
  revert t. induction p as [b|e k IH]; intros t; simpl.
  - split; [intros [-> ->]; by exists []|]. by intros (u & -> & -> & ->).
  - split.
    + intros (r & t' & -> & (u & -> & He)%IH). exists (Obs e r :: u). split; [done|]. by exists r, u.
    + intros (u & -> & r & t' & -> & He). exists r, (lift_planned <$> t'). split; [done|].
      apply IH. by exists t'.
Qed.

Lemma always_planned {A} (P : event -> Prop) (Q : obs session -> Prop) (p : prog A) :
  always P p -> (forall e, P e -> Q (lift_planned e)) -> always Q (planned p).
Proof.
  intros Hp HQ t a (u & -> & He)%exec_planned. apply Forall_fmap.
  eapply Forall_impl; [exact (Hp u a He)|]. intros e. apply HQ.
Qed.

(** ** Terminals and confirmation *)

Definition detectTTY : cmd (bool * bool) :=
  i ← do_op (IsTerminal Stdin); o ← do_op (IsTerminal Stdout); mret (i, o).

Section Confirmation.
Context `{TextInput} `{Styles}.

Definition SuccessMark : string := render styleAdd "✓".
Definition RedText (s : string) : string := render styleRemove s.
Definition ConfirmToken (s : string) : string := render styleAdd s.

(** The prompt on a terminal; a plain line when either side is none. *)
Definition tty_prompt (expected : string) (answer : list tea_msg -> bool) : cmd (res bool) :=
  let line := s ← do_op ReadString; mret (Ok (bool_decide (TrimSpace s = expected))) in
  i ← do_op (IsTerminal Stdin);
  if negb i then line else
  o ← do_op (IsTerminal Stdout);
  if negb o then line else
  r ← do_op RunTea;
  mret (match r with Ok msgs => Ok (answer msgs) | Err e => Err e end).

Definition ConfirmYesTTY : cmd (res bool) := tty_prompt "yes" yes_typed.
Definition ConfirmIdentifierTTY (identifier : string) : cmd (res bool) :=
  tty_prompt identifier (identifier_typed identifier).

(** The outcome is printed. *)
Definition conclude_prompt (confirmed : bool) : cmd (res bool) :=
  _ ← do_op (Print ("│ " +:+ (if confirmed then SuccessMark else RedText "canceled")));
  _ ← do_op (Print "");
  mret (Ok confirmed).

(** Input that is not a terminal is echoed. *)
Definition echo (entered : string) : cmd unit :=
  i ← do_op (IsTerminal Stdin); if (i : bool) then mret tt else do_op (Print entered).

Definition is_newline (c : ascii) : bool := bool_decide (c = newline).

Definition GetConfirmation (skip : bool) (message : string) : cmd (res bool) :=
  if skip then mret (Ok true) else
  let message := if bool_decide (message = "") then
    "│ Dockform will apply the changes listed above." +:+ nl +:+ "│ Type yes to confirm." +:+ nl +:+ "│"
    else message in
  '(i, o) ← detectTTY;
  if i && o then
    ok ← ConfirmYesTTY;
    match ok with Err e => mret (Err e) | Ok ok => conclude_prompt ok end
  else
    _ ← do_op (Print (message +:+ nl +:+ "│ Answer"));
    ans ← do_op ReadString;
    let entered := TrimRightBytes ans is_newline in
    _ ← echo entered;
    conclude_prompt (bool_decide (TrimSpace entered = "yes")).

Definition destroy_summary (identifier : string) (targeted : bool) : string :=
  (if targeted
   then "│ This will destroy the targeted resources shown above (identifier '" +:+ identifier +:+ "')."
   else "│ This will destroy ALL managed resources with identifier '" +:+ identifier +:+ "'.")
  +:+ nl +:+ "│ This operation is IRREVERSIBLE.".
Definition destroy_instruction (identifier : string) : string :=
  "│ Type the identifier name '" +:+ ConfirmToken identifier +:+ "' to confirm." +:+ nl +:+ "│".

Definition GetDestroyConfirmation (skip : bool) (identifier : string) (targeted : bool)
  : cmd (res bool) :=
  if skip then mret (Ok true) else
  '(i, o) ← detectTTY;
  if i && o then
    ok ← ConfirmIdentifierTTY identifier;
    match ok with Err e => mret (Err e) | Ok ok => conclude_prompt ok end
  else
    _ ← do_op (Print (destroy_summary identifier targeted +:+ nl +:+ "│" +:+ nl
                        +:+ destroy_instruction identifier +:+ nl +:+ "│" +:+ nl +:+ "│ Answer"));
    ans ← do_op ReadString;
    let entered := TrimSpace ans in
    _ ← echo entered;
    conclude_prompt (bool_decide (entered = identifier)).
End Confirmation.

(** ** The rolling display *)

(** On a terminal the work runs under a display that can be interrupted: then the
    run fails with the context's error whatever the work returned. *)
Definition RunWithRollingLog {A} (fn : cmd (res A)) : cmd (res A) :=
  tty ← do_op (IsTerminal Stdout);
  if negb tty then fn else
  r ← fn;
  c ← do_op ContextDone;
  match c with
  | Some e => mret (Err e)
  | None =>
      runErr ← do_op RollingEnd;
      mret (match r, runErr with Ok _, Some e => Err e | _, _ => r end)
  end.

Definition RunWithRollingOrDirect {A} (verbose : bool) (fn : cmd (res A)) : cmd (res A) :=
  useTUI ← do_op (IsTerminal Stdout);
  if negb useTUI || verbose then fn else RunWithRollingLog fn.

(** ** Finding the manifest *)

Section Setup.
Context (h : Host).

Fixpoint has_manifest (dir : string) (names : list string) : res bool :=
  match names with
  | [] => Ok false
  | name :: names =>
      match os_Stat h (PathJoin [dir; name]) with
      | StatOk false => Ok true
      | StatErr e => Err e
      | _ => has_manifest dir names
      end
  end.
Definition hasManifestInCurrentDir (dir : string) : res bool := has_manifest dir config_names.

(** The walk below [path], whose entries are at [depth]: a directory deeper than
    [maxDepth] is skipped, an unreadable one ends the walk. *)
Fixpoint walk_manifests (fuel : nat) (maxDepth depth : nat) (path : string) : res (list string) :=
  match fuel with
  | 0 => Err (Plain "walk: out of fuel")
  | S fuel =>
      entries ← os_ReadDir h path;
      result_foldl (fun out e =>
        let p := PathJoin [path; e.1] in
        found ← (if (e.2 : bool) then
                   if maxDepth <? depth then Ok [] else walk_manifests fuel maxDepth (S depth) p
                 else Ok (if bool_decide (Base p ∈ config_names) then [p] else []));
        Ok (out ++ found)) [] entries
  end.

Definition findManifestFiles (root : string) (maxDepth : nat) : res (list string) :=
  match Abs h root with
  | Err e => Err e
  | Ok base =>
      match os_Stat h base with
      | StatOk true => walk_manifests (maxDepth + 2) maxDepth 0 base
      | StatOk false => Ok (if bool_decide (Base base ∈ config_names) then [base] else [])
      | StatNotExist => Err (Plain ("lstat " +:+ base +:+ ": no such file or directory"))
      | StatErr e => Err e
      end
  end.

(** The names of the contexts of a manifest, for the picker; decoding is a
    library's. *)
Context (decode_contexts : string -> res (gmap string unit)).
Context `{MapRange}.

Definition readDaemonContextLabels (path : string) : string :=
  match os_ReadFile h path with
  | Err _ => ""
  | Ok b =>
      match decode_contexts b with
      | Err _ => ""
      | Ok contexts => Join (fst <$> map_range "context labels" contexts) ", "
      end
  end.

Definition manifest_label (p : string) : string :=
  let lb := readDaemonContextLabels p in
  if bool_decide (TrimSpace lb = "") then Base (Dir p) else lb.

(** The picker returns an index and whether something was chosen. *)
Definition SelectOneTTY (options : list string) : cmd (res (Z * bool)) :=
  i ← do_op (IsTerminal Stdin);
  if negb i then mret (Ok (-1, false)%Z) else
  o ← do_op (IsTerminal Stdout);
  if negb o then mret (Ok (-1, false)%Z) else
  r ← do_op RunTea;
  mret (match r with
        | Err e => Err e
        | Ok msgs => let m := tea_run select_Update (newSelectModel options) msgs in
                     Ok (sm_choice m, sm_confirmed m)
        end).

(** [None] when nothing was selected. *)
Definition SelectManifestPath (root : string) (maxDepth : nat) : cmd (res (option string)) :=
  '(i, o) ← detectTTY;
  match findManifestFiles root maxDepth with
  | Err e => mret (Err e)
  | Ok [] => mret (Ok None)
  | Ok [file] => mret (Ok (Some file))
  | Ok files =>
      let labels := manifest_label <$> files in
      if negb i || negb o then
        mret (Err (New "SelectManifestPath" InvalidInput
               "multiple manifest files found; re-run with --manifest <path> to select one" []))
      else
        r ← SelectOneTTY labels;
        mret (match r with
              | Err e => Err e
              | Ok (idx, ok) =>
                  if negb ok then Ok None
                  else if bool_decide (idx < 0)%Z || bool_decide (Z.of_nat (length files) <= idx)%Z
                  then Ok None else Ok (files !! Z.to_nat idx)
              end)
  end.

Definition ResolveManifestPath (file root : string) (maxDepth : nat) : cmd (res string) :=
  if bool_decide (TrimSpace file <> "") then mret (Ok file) else
  match hasManifestInCurrentDir "." with
  | Err e => mret (Err e)
  | Ok true => mret (Ok "")
  | Ok false =>
      r ← SelectManifestPath root maxDepth;
      mret (match r with
            | Err e => Err e
            | Ok None => Err (New "ResolveManifestPath" NotFound "no manifest file found" [])
            | Ok (Some p) => Ok p
            end)
  end.

Context (decode : string -> res Config).

Definition LoadConfigWithWarnings (file : string) : cmd (res Config) :=
  r ← ResolveManifestPath file "." 3;
  match r with
  | Err e => mret (Err e)
  | Ok file =>
      match LoadWithWarnings decode h file with
      | (Err e, _) => mret (Err e)
      | (Ok cfg, missing) =>
          _ ← for_each (fun _ name => do_op (Warn ("environment variable " +:+ name
                 +:+ " is not set; replacing with empty string"))) tt missing;
          mret (Ok cfg)
      end
  end.

(** ** Reachability *)

Record ContextProbeResult := mkProbe { pr_Name : string; pr_Cause : string }.
Definition Reachable (r : ContextProbeResult) : bool := bool_decide (pr_Cause r = "").

Definition ReachabilityProbeTimeout : string := "10s".

Definition probeContext (name : string) : cmd string :=
  r ← do_op (CheckDaemonOn name);
  match r with
  | Ok _ => mret ""
  | Err e =>
      c ← do_op ContextDone;
      match c with
      | Some _ => mret (Error e)
      | None =>
          expired ← do_op ProbeExpired;
          mret (if (expired : bool) then "timed out after " +:+ ReachabilityProbeTimeout else Error e)
      end
  end.

Context `{Schedule}.

(** One goroutine per context, each writing the entry of its index. *)
Definition ProbeContextsReachability (cfg : Config) : cmd (list ContextProbeResult) :=
  let names := sorted_keys (cfg_Contexts cfg) in
  causes ← for_each (fun m name => cause ← probeContext name; mret (<[name := cause]> m))
             (∅ : gmap string string) (schedule "probe contexts" names);
  mret ((fun name => mkProbe name (default "" (causes !! name))) <$> names).

Definition unreachable_message (failed : list ContextProbeResult) : string :=
  (if bool_decide (length failed = 1) then "1 context is unreachable:"
   else Itoa_nat (length failed) +:+ " contexts are unreachable:") +:+ nl
  +:+ Join ((fun r => "  • " +:+ pr_Name r +:+ ": " +:+ pr_Cause r +:+ nl) <$> failed) ""
  +:+ "Check the hosts are up and your Docker contexts are correct (docker context ls).".

Definition EnsureContextsReachable (cfg : Config) : cmd (res unit) :=
  results ← ProbeContextsReachability cfg;
  let failed := filter (fun r => Reachable r = false) results in
  mret (match failed with
        | [] => Ok tt
        | _ => Err (New "common.EnsureContextsReachable" Unavailable "%s" [unreachable_message failed])
        end).

(** ** Ssh multiplexing *)

(** [strconv.ParseBool] *)
Definition ParseBool (s : string) : option bool :=
  if bool_decide (s ∈ ["1"; "t"; "T"; "true"; "TRUE"; "True"]) then Some true
  else if bool_decide (s ∈ ["0"; "f"; "F"; "false"; "FALSE"; "False"]) then Some false else None.

(** [flag] is the value of the flag when it was given. *)
Definition MultiplexEnabled (flag : option bool) : bool :=
  match flag with
  | Some v => v
  | None => default true (os_LookupEnv h "DOCKFORM_SSH_MULTIPLEX" ≫= fun raw => ParseBool (TrimSpace raw))
  end.

Definition HasRemoteContext (cfg : Config) : bool :=
  existsb (fun e => HasPrefix (ctx_Host e.2) "ssh://"
                    || (bool_decide (e.1 <> "") && bool_decide (e.1 <> "default")))
    (map_range "remote contexts" (cfg_Contexts cfg)).

Definition ActivateSSHMux (flag : option bool) (cfg : Config) : cmd unit :=
  if negb (MultiplexEnabled flag) || negb (HasRemoteContext cfg) then mret tt else do_op MuxSetup.

(** ** The setup of a command *)

(** [labelStyle] is the terminal library's. *)
Context (labelStyle : string -> string) `{Styles}.

Fixpoint pad_right (width : nat) (s : string) : string :=
  match width with
  | 0 => s
  | S width => match s with
               | "" => String " " (pad_right width "")
               | String c s => String c (pad_right width s)
               end
  end.

Definition DisplayDaemonInfo (cfg : Config) : cmd unit :=
  if bool_decide (cfg_Contexts cfg = ∅) then do_op (Print (nl +:+ "│ No contexts configured")) else
  let contextLabel := if 1 <? size (cfg_Contexts cfg) then "Contexts:" else "Context:" in
  let labelWidth := String.length "Identifier:" `max` String.length contextLabel in
  let line label value := "│ " +:+ labelStyle (pad_right labelWidth label) +:+ "  " +:+ Italic value in
  do_op (Print (Join
    ([""] ++ (if bool_decide (cfg_Identifier cfg <> "") then [line "Identifier:" (cfg_Identifier cfg)] else [])
     ++ [line contextLabel (Join (sorted_keys (cfg_Contexts cfg)) " · "); ""]) nl)).

(** The flags of a command. *)
Record Flags := mkFlags {
  fl_manifest : string; fl_targets : TargetOptions; fl_multiplex : option bool;
  fl_skip : bool; fl_sequential : bool; fl_verbose : bool; fl_long : bool;
  fl_cleanup_strict : bool; fl_cleanup_verbose : bool }.

(** The configuration and the planner a command works with. *)
Definition SetupCLIContext (fl : Flags) : cmd (res (Config * Planner)) :=
  r ← LoadConfigWithWarnings (fl_manifest fl);
  try (r ≫= fun cfg => if IsEmpty (fl_targets fl) then Ok cfg else ResolveTargets cfg (fl_targets fl))
    id (fun cfg =>
  _ ← DisplayDaemonInfo cfg;
  r ← EnsureContextsReachable cfg;
  try r id (fun _ =>
  _ ← ActivateSSHMux (fl_multiplex fl) cfg;
  r ← planned (Validate h cfg);
  try r id (fun _ => mret (Ok (cfg, mkPlanner None true true))))).
End Setup.

(** ** Properties *)

(** Nothing of the planner's is issued. *)
Definition quiet (o : obs session) : Prop :=
  match o with Obs (Planned _) _ => False | _ => True end.
(** What is issued to the daemons only reads. *)
Definition session_reads (o : obs session) : Prop :=
  match o with Obs (Planned (On _ q)) _ => read_only q | _ => True end.

Lemma quiet_reads o : quiet o -> session_reads o.
Proof. destruct o as [[] r]; simpl; done. Qed.

Lemma planned_reads {A} (p : prog A) : always looks p -> always session_reads (planned p).
Proof. intros Hp. apply (always_planned looks); [exact Hp|]. by intros [[d q] r]. Qed.

Ltac quiet_auto := repeat (first [always_tree_step | case_match]; try done).

(** *** Confirmation *)

Section Answers.
Context `{TextInput} `{Styles}.

(** The user gave the [expected] answer: a line that is it, spaces around it aside,
    or the interactive prompt. *)
Definition confirmed_by (expected : string) (o : obs session) : Prop :=
  match o with
  | Obs ReadString s => TrimSpace s = expected \/ TrimSpace (TrimRightBytes s is_newline) = expected
  | Obs RunTea (Ok msgs) => entered expected expected msgs
  | _ => False
  end.

(** A yes is one the user gave, and asking issues nothing to the daemons. *)
Definition asked (expected : string) (t : list (obs session)) (r : res bool) : Prop :=
  Forall quiet t /\ (r = Ok true -> Exists (confirmed_by expected) t).

Lemma asked_cons expected (p : cmd (res bool)) e r : wp p (asked expected) -> quiet (Obs e r) ->
  wp p (fun t a => asked expected (Obs e r :: t) a).
Proof.
  intros Hp Hq. eapply wp_mono; [exact Hp|]. intros t a [Ht Hr]. split; [by constructor|].
  intros Heq. right. by apply Hr.
Qed.

Lemma tty_prompt_spec expected answer :
  (forall msgs, answer msgs = true -> entered expected expected msgs) ->
  wp (tty_prompt expected answer) (asked expected).
Proof.
  intros Ha. unfold tty_prompt.
  assert (wp (s ← do_op ReadString; mret (Ok (bool_decide (TrimSpace s = expected))))
            (asked expected)) as Hl.
  { apply wp_bind. wp_doop. intros s. apply wp_ret. split; [by repeat constructor|].
    intros [= Hs%bool_decide_eq_true]. left. by left. }
  apply wp_bind. wp_doop. intros [|]; simpl negb; cbn match; apply asked_cons; try done.
  apply wp_bind. wp_doop. intros [|]; simpl negb; cbn match; apply asked_cons; try done.
  apply wp_bind. wp_doop. intros [msgs|e]; apply wp_ret; (split; [by repeat constructor|]); [|done].
  intros [= Hm]. left. by apply Ha.
Qed.

Lemma conclude_after expected b t0 : Forall quiet t0 -> (b = true -> Exists (confirmed_by expected) t0) ->
  wp (conclude_prompt b) (fun t r => asked expected (t0 ++ t) r).
Proof.
  intros Hq Hb. unfold conclude_prompt. apply wp_bind. wp_doop. intros []. apply wp_bind. wp_doop. intros [].
  apply wp_ret. split; [apply Forall_app; split; [done|by repeat constructor]|].
  intros [= ->]. apply Exists_app. left. by apply Hb.
Qed.

Lemma echo_quiet s : always quiet (echo s).
Proof. unfold echo. quiet_auto. Qed.

(** An answer that was read, echoed and judged. *)
Lemma line_answer expected prompt (f : string -> string) (b : string -> bool) :
  (forall s, b s = true -> confirmed_by expected (Obs ReadString s)) ->
  wp (_ ← do_op (Print prompt); ans ← do_op ReadString; _ ← echo (f ans); conclude_prompt (b ans))
    (asked expected).
Proof.
  intros Hb. apply wp_bind. wp_doop. intros []. apply asked_cons; [|done].
  apply wp_bind. wp_doop. intros ans. apply wp_bind. eapply wp_mono; [apply echo_quiet|].
  intros t1 [] Ht1. simpl in Ht1. eapply wp_mono;
    [apply (conclude_after expected (b ans) (Obs ReadString ans :: t1))|].
  - by constructor.
  - intros Hs. left. by apply Hb.
  - by intros t r.
Qed.

Lemma prompt_answer expected (p : cmd (res bool)) : wp p (asked expected) ->
  wp (ok ← p; match ok with Err e => mret (Err e) | Ok ok => conclude_prompt ok end) (asked expected).
Proof.
  intros Hp. apply wp_bind. eapply wp_mono; [exact Hp|]. intros t [b|e] [Hq Hr].
  - apply conclude_after; [done|]. intros ->. by apply Hr.
  - apply wp_ret. rewrite app_nil_r. by split.
Qed.

Lemma after_detect expected (f : bool * bool -> cmd (res bool)) :
  (forall io, wp (f io) (asked expected)) -> wp (io ← detectTTY; f io) (asked expected).
Proof.
  intros Hf. unfold detectTTY. apply wp_bind, wp_bind. wp_doop. intros i. apply wp_bind. wp_doop.
  intros o. apply wp_ret. simpl. eapply wp_mono; [apply Hf|]. intros t r [Hq Hr].
  split; [by repeat constructor|]. intros Heq. do 2 right. by apply Hr.
Qed.

Lemma asked_skip expected skip (p : cmd (res bool)) : wp p (asked expected) ->
  wp p (fun t r => Forall quiet t /\ (r = Ok true -> skip = true \/ Exists (confirmed_by expected) t)).
Proof. intros Hp. eapply wp_mono; [exact Hp|]. intros t r [Hq Hr]. auto. Qed.

Lemma GetConfirmation_spec skip message :
  wp (GetConfirmation skip message) (fun t r => Forall quiet t /\
    (r = Ok true -> skip = true \/ Exists (confirmed_by "yes") t)).
Proof.
  unfold GetConfirmation. destruct skip; [apply wp_ret; auto|].
  eapply asked_skip.
  apply after_detect. intros [i o]. destruct (i && o).
  - apply prompt_answer, tty_prompt_spec. intros msgs. by apply yes_typed_iff.
  - apply (line_answer "yes" _ (fun s => TrimRightBytes s is_newline)
             (fun s => bool_decide (TrimSpace (TrimRightBytes s is_newline) = "yes"))).
    intros s Hs%bool_decide_eq_true. by right.
Qed.

Lemma GetDestroyConfirmation_spec skip identifier targeted :
  wp (GetDestroyConfirmation skip identifier targeted) (fun t r => Forall quiet t /\
    (r = Ok true -> skip = true \/ Exists (confirmed_by identifier) t)).
Proof.
  unfold GetDestroyConfirmation. destruct skip; [apply wp_ret; auto|].
  eapply asked_skip.
  apply after_detect. intros [i o]. destruct (i && o).
  - apply prompt_answer, tty_prompt_spec. intros msgs. by apply identifier_typed_iff.
  - apply (line_answer identifier _ TrimSpace (fun s => bool_decide (TrimSpace s = identifier))).
    intros s Hs%bool_decide_eq_true. by left.
Qed.
End Answers.

(** *** Reachability *)

Section Reachability.
Context `{Schedule}.

(** The cause reported for a context, and the answers it stands for. *)
Definition probed (n : string) (cause : string) (t : list (obs session)) : Prop :=
  (cause = "" -> exists a, Obs (CheckDaemonOn n) a ∈ t /\ forall e, a = Err e -> Error e = "")
  /\ (cause <> "" -> exists e, Obs (CheckDaemonOn n) (Err e) ∈ t).

Lemma probed_mono n c t t' : t ⊆ t' -> probed n c t -> probed n c t'.
Proof. unfold probed. set_solver. Qed.

Lemma probeContext_spec n : wp (probeContext n) (fun t c => Forall quiet t /\ probed n c t).
Proof.
  unfold probeContext. apply wp_bind. wp_doop. intros [[]|e].
  { apply wp_ret. split; [by repeat constructor|]. split; [|done]. intros _. exists (Ok tt).
    split; [by left|done]. }
  apply wp_bind. wp_doop. intros [c|].
  { apply wp_ret. split; [by repeat constructor|]. split.
    - intros He. exists (Err e). split; [by left|]. by intros ? [= <-].
    - intros _. exists e. by left. }
  apply wp_bind. wp_doop. intros expired. apply wp_ret. split; [by repeat constructor|]. split.
  - intros He. exists (Err e). split; [by left|]. destruct expired; [done|]. by intros ? [= <-].
  - intros _. exists e. by left.
Qed.

Lemma ProbeContexts_spec cfg : wp (ProbeContextsReachability cfg) (fun t rs =>
  Forall quiet t /\ pr_Name <$> rs = sorted_keys (cfg_Contexts cfg)
  /\ Forall (fun r => probed (pr_Name r) (pr_Cause r) t) rs).
Proof.
  unfold ProbeContextsReachability. set (names := sorted_keys _). apply wp_bind.
  eapply wp_mono; [apply (wp_for_each_done (fun done t (m : gmap string string) => Forall quiet t
    /\ forall n, n ∈ done -> exists c, m !! n = Some c /\ probed n c t))|].
  - split; [done|]. intros n Hn%elem_of_nil. done.
  - intros l t m n _ [Hq Hm]. apply wp_bind. eapply wp_mono; [apply probeContext_spec|].
    intros t' c [Hq' Hp]. apply wp_ret. rewrite app_nil_r. split; [by apply Forall_app|].
    intros n' [Hn'| ->%list_elem_of_singleton]%elem_of_app.
    + destruct (decide (n' = n)) as [->|Hne].
      * exists c. rewrite lookup_insert_eq. split; [done|]. eapply probed_mono; [|exact Hp]. set_solver.
      * destruct (Hm n' Hn') as (c' & Hc' & Hpc). exists c'. rewrite lookup_insert_ne by done.
        split; [done|]. eapply probed_mono; [|exact Hpc]. set_solver.
    + exists c. rewrite lookup_insert_eq. split; [done|]. eapply probed_mono; [|exact Hp]. set_solver.
  - intros t m [Hq Hm]. apply wp_ret. rewrite app_nil_r. split; [done|]. split.
    + rewrite <- list_fmap_compose. apply list_fmap_id.
    + apply Forall_fmap, Forall_forall. intros n Hn. simpl. destruct (Hm n) as (c & -> & Hp); [|done].
      by rewrite schedule_perm.
Qed.

(** Before a command does anything, every daemon it will use answers.  In
    whatever order the probes finish, a check that succeeds has probed every
    context of the configuration and no probe failed with a message; a check that
    fails is [Unavailable] and some context's probe failed. *)
Theorem EnsureContextsReachable_sound cfg : wp (EnsureContextsReachable cfg) (fun t r =>
  match r with
  | Ok _ => forall n, is_Some (cfg_Contexts cfg !! n) ->
      exists a, Obs (CheckDaemonOn n) a ∈ t /\ forall e, a = Err e -> Error e = ""
  | Err e => IsKind (Some e) Unavailable = true
      /\ exists n e', is_Some (cfg_Contexts cfg !! n) /\ Obs (CheckDaemonOn n) (Err e') ∈ t
  end).
Proof.
  unfold EnsureContextsReachable. apply wp_bind. eapply wp_mono; [apply ProbeContexts_spec|].
  intros t rs (Hq & Hn & Hp). apply wp_ret. rewrite app_nil_r. rewrite Forall_forall in Hp.
  destruct (filter (fun r => Reachable r = false) rs) as [|r l] eqn:Hf.
  - intros n Hc%elem_of_sorted_keys. rewrite <- Hn in Hc. apply list_elem_of_fmap in Hc as (r & -> & Hr).
    apply (Hp r Hr). destruct (decide (pr_Cause r = "")) as [|Hne]; [done|].
    assert (r ∈ filter (fun r => Reachable r = false) rs) as Hin.
    { apply list_elem_of_filter. split; [|done]. by apply bool_decide_eq_false. }
    rewrite Hf in Hin. by apply elem_of_nil in Hin.
  - split; [done|]. assert (r ∈ filter (fun r => Reachable r = false) rs) as Hin by (rewrite Hf; left).
    apply list_elem_of_filter in Hin as [Hr%bool_decide_eq_false Hin].
    destruct (Hp r Hin) as [_ Hc]. destruct (Hc Hr) as [e' He']. exists (pr_Name r), e'. split; [|done].
    apply elem_of_sorted_keys. rewrite <- Hn. by apply list_elem_of_fmap_2.
Qed.

Lemma EnsureContextsReachable_quiet cfg : always quiet (EnsureContextsReachable cfg).
Proof.
  unfold EnsureContextsReachable. apply always_bind; [|intros; apply always_ret].
  eapply wp_mono; [apply ProbeContexts_spec|]. by intros t rs (? & _).
Qed.
End Reachability.

(** *** Finding the manifest *)

Section Manifests.
Context (h : Host).

(** A manifest file at most [maxDepth] directories further down. *)
Inductive below (maxDepth : nat) : nat -> string -> string -> Prop :=
| below_file depth path entries name : os_ReadDir h path = Ok entries -> (name, false) ∈ entries ->
    Base (PathJoin [path; name]) ∈ config_names -> below maxDepth depth path (PathJoin [path; name])
| below_dir depth path entries name file : os_ReadDir h path = Ok entries -> (name, true) ∈ entries ->
    depth <= maxDepth -> below maxDepth (S depth) (PathJoin [path; name]) file ->
    below maxDepth depth path file.

(** What one entry of a directory contributes. *)
Definition entry_manifests (fuel maxDepth depth : nat) (path : string) (e : string * bool)
  : res (list string) :=
  let p := PathJoin [path; e.1] in
  if e.2 then (if maxDepth <? depth then Ok [] else walk_manifests h fuel maxDepth (S depth) p)
  else Ok (if bool_decide (Base p ∈ config_names) then [p] else []).

Lemma walk_manifests_S fuel maxDepth depth path : walk_manifests h (S fuel) maxDepth depth path =
  entries ← os_ReadDir h path;
  result_foldl (fun out e => found ← entry_manifests fuel maxDepth depth path e; Ok (out ++ found))
    [] entries.
Proof. done. Qed.

Lemma result_foldl_concat {A B} (f : A -> res (list B)) l out r :
  result_foldl (fun out e => found ← f e; Ok (out ++ found)) out l = Ok r ->
  exists xss, Forall2 (fun e xs => f e = Ok xs) l xss /\ r = out ++ concat xss.
Proof.
  revert out. induction l as [|e l IH]; intros out; simpl.
  - intros [= <-]. exists []. by rewrite app_nil_r.
  - destruct (f e) as [xs|err] eqn:Hf; simpl; [|done]. intros (xss & Hxss & ->)%IH.
    exists (xs :: xss). split; [by constructor|]. simpl. by rewrite (assoc_L (++)).
Qed.

Lemma walk_below fuel maxDepth depth path l : walk_manifests h fuel maxDepth depth path = Ok l ->
  forall f, f ∈ l <-> below maxDepth depth path f.
Proof.
  revert depth path l. induction fuel as [|fuel IH]; intros depth path l; [done|].
  rewrite walk_manifests_S. destruct (os_ReadDir h path) as [entries|e] eqn:Hd; [|done]. simpl.
  intros (xss & Hxss & ->)%result_foldl_concat f. simpl. rewrite list_elem_of_In, in_concat. split.
  - intros (xs & Hxs & Hf). apply list_elem_of_In in Hxs, Hf.
    apply list_elem_of_lookup in Hxs as [i Hi].
    destruct (Forall2_lookup_r _ _ _ _ _ Hxss Hi) as ([name isDir] & Hn%list_elem_of_lookup_2 & Hx).
    unfold entry_manifests in Hx. destruct isDir; simpl in Hx.
    + destruct (Nat.ltb_spec maxDepth depth); [simplify_eq; by apply elem_of_nil in Hf|].
      apply (below_dir maxDepth depth path entries name); try done. by apply (IH _ _ _ Hx).
    + case_bool_decide; simplify_eq; [|by apply elem_of_nil in Hf].
      apply list_elem_of_singleton in Hf as ->. by apply (below_file maxDepth depth path entries name).
  - intros Hb. assert (forall e, e ∈ entries -> exists xs, xs ∈ xss
      /\ entry_manifests fuel maxDepth depth path e = Ok xs) as Hall.
    { intros e [i Hi]%list_elem_of_lookup.
      destruct (Forall2_lookup_l _ _ _ _ _ Hxss Hi) as (xs & Hxs%list_elem_of_lookup_2 & He). eauto. }
    inversion Hb as [? ? es name Hes Hin Hbase|? ? es name file Hes Hin Hle Hb']; subst;
      rewrite Hd in Hes; simplify_eq; destruct (Hall _ Hin) as (xs & Hxs & Hx);
      unfold entry_manifests in Hx; simpl in Hx; exists xs;
      (split; [by apply list_elem_of_In|]); apply list_elem_of_In.
    + rewrite bool_decide_true in Hx by done. simplify_eq. by apply list_elem_of_singleton.
    + destruct (Nat.ltb_spec maxDepth depth); [lia|]. by apply (IH _ _ _ Hx).
Qed.

(** The fuel covers the depth the walk is limited to: more changes nothing. *)
Lemma walk_fuel maxDepth fuel fuel' depth path :
  maxDepth + 2 <= fuel + depth -> maxDepth + 2 <= fuel' + depth ->
  depth <= maxDepth + 1 ->
  walk_manifests h fuel maxDepth depth path = walk_manifests h fuel' maxDepth depth path.
Proof.
  revert fuel' depth path. induction fuel as [|fuel IH]; intros [|fuel'] depth path Hf Hf' Hd; try lia.
  rewrite !walk_manifests_S. destruct (os_ReadDir h path) as [entries|]; [|done]. simpl.
  generalize (@nil string). induction entries as [|[name []] l IHl]; intros out; simpl; [done|..].
  - unfold entry_manifests at 1 3. simpl. destruct (Nat.ltb_spec maxDepth depth); [apply IHl|].
    rewrite (IH fuel') by lia. destruct (walk_manifests h fuel' _ _ _); [apply IHl|done].
  - apply IHl.
Qed.

Context (decode_contexts : string -> res (gmap string unit)) `{MapRange}.

(** [p] was picked by the user among [files]. *)
Definition picked (files : list string) (p : string) (t : list (obs session)) : Prop :=
  exists msgs, Obs RunTea (Ok msgs) ∈ t
    /\ let m := tea_run select_Update
                  (newSelectModel (manifest_label h decode_contexts <$> files)) msgs in
       sm_confirmed m = true /\ files !! Z.to_nat (sm_choice m) = Some p.

Lemma SelectOneTTY_spec options : wp (SelectOneTTY options) (fun t r => Forall quiet t /\
  forall idx, r = Ok (idx, true) -> exists msgs, Obs RunTea (Ok msgs) ∈ t
    /\ let m := tea_run select_Update (newSelectModel options) msgs in
       sm_confirmed m = true /\ idx = sm_choice m).
Proof.
  unfold SelectOneTTY. apply wp_bind. wp_doop. intros [|]; simpl negb; cbn match;
    [|apply wp_ret; split; [by repeat constructor|done]].
  apply wp_bind. wp_doop. intros [|]; simpl negb; cbn match;
    [|apply wp_ret; split; [by repeat constructor|done]].
  apply wp_bind. wp_doop. intros [msgs|e]; apply wp_ret; (split; [by repeat constructor|]); [|done].
  intros idx [= <- Hc]. exists msgs. split; [set_solver|]. done.
Qed.

Lemma SelectManifestPath_spec root maxDepth : wp (SelectManifestPath h decode_contexts root maxDepth)
  (fun t r => Forall quiet t /\ forall p, r = Ok (Some p) -> exists files,
     findManifestFiles h root maxDepth = Ok files /\ p ∈ files /\ (files = [p] \/ picked files p t)).
Proof.
  unfold SelectManifestPath, detectTTY. apply wp_bind, wp_bind. wp_doop. intros i. apply wp_bind. wp_doop.
  intros o. apply wp_ret. cbv beta iota.
  destruct (findManifestFiles h root maxDepth) as [[|f [|f' files]]|e] eqn:Hfiles;
    [apply wp_ret; split; [by repeat constructor|done]| |
     |apply wp_ret; split; [by repeat constructor|done]].
  { apply wp_ret. split; [by repeat constructor|]. intros p [= <-]. exists [f].
    split; [done|]. split; [by left|by left]. }
  set (fs := f :: f' :: files) in *.
  destruct (negb i || negb o); [apply wp_ret; split; [by repeat constructor|done]|].
  apply wp_bind. eapply wp_mono; [apply SelectOneTTY_spec|]. intros t [[idx [|]]|e] [Hq Hs];
    apply wp_ret; (split; [rewrite !Forall_app; by repeat constructor|]); try done.
  destruct (Hs idx eq_refl) as (msgs & Hin & Hc & ->). intros p. simpl negb. cbn match.
  destruct (_ || _); [done|]. intros [= Hp]. exists fs. split; [done|].
  split; [by eapply list_elem_of_lookup_2|]. right. exists msgs. split; [set_solver|done].
Qed.

(** The manifest is never guessed.  The path that is loaded is the one of the
    flag, as given; or the default when the working directory has a manifest;
    otherwise it is a manifest file found below the working directory, within the
    depth of the search, and it is the only one there or the user picked it among
    those found. *)
Theorem ResolveManifestPath_not_guessed file root maxDepth :
  wp (ResolveManifestPath h decode_contexts file root maxDepth) (fun t r => forall p, r = Ok p ->
    (TrimSpace file <> "" /\ p = file)
    \/ (TrimSpace file = "" /\ p = "" /\ hasManifestInCurrentDir h "." = Ok true)
    \/ (TrimSpace file = "" /\ hasManifestInCurrentDir h "." = Ok false
        /\ exists base files, Abs h root = Ok base /\ findManifestFiles h root maxDepth = Ok files
           /\ (directory h base -> forall f, f ∈ files <-> below maxDepth 0 base f)
           /\ p ∈ files /\ (files = [p] \/ picked files p t))).
Proof.
  unfold ResolveManifestPath. case_bool_decide as Hf; [apply wp_ret; intros p [= <-]; auto|].
  assert (TrimSpace file = "") as Hb by (by destruct (decide (TrimSpace file = ""))).
  destruct (hasManifestInCurrentDir h ".") as [[]|e]; [apply wp_ret; intros p [= <-]; auto| |by apply wp_ret].
  apply wp_bind. eapply wp_mono; [apply SelectManifestPath_spec|]. intros t r [_ Hr]. apply wp_ret.
  rewrite app_nil_r. intros p Hp. destruct r as [[p'|]|]; simplify_eq.
  destruct (Hr p eq_refl) as (files & Hfiles & Hin & Hpick). do 2 right. split; [done|]. split; [done|].
  pose proof Hfiles as Hw. unfold findManifestFiles in Hw.
  destruct (Abs h root) as [base|]; [|done]. exists base, files. split; [done|]. split; [done|].
  split; [|done]. intros Hd. unfold directory in Hd. rewrite Hd in Hw. by eapply walk_below.
Qed.

Lemma ResolveManifestPath_quiet file root maxDepth :
  always quiet (ResolveManifestPath h decode_contexts file root maxDepth).
Proof.
  unfold ResolveManifestPath. case_bool_decide; [apply always_ret|].
  destruct (hasManifestInCurrentDir h ".") as [[]|]; [apply always_ret| |apply always_ret].
  apply always_bind; [|intros; apply always_ret].
  eapply wp_mono; [apply SelectManifestPath_spec|]. by intros t r [? _].
Qed.
End Manifests.

(** *** The setup *)

Section SetupFacts.
Context (h : Host) (decode_contexts : string -> res (gmap string unit)) (decode : string -> res Config).
Context `{MapRange} `{Schedule} `{Styles} (labelStyle : string -> string).
Let setup := SetupCLIContext h decode_contexts decode labelStyle.

Lemma LoadConfig_quiet file : always quiet (LoadConfigWithWarnings h decode_contexts decode file).
Proof.
  unfold LoadConfigWithWarnings. apply always_bind; [apply ResolveManifestPath_quiet|].
  intros [f|]; [|apply always_ret]. destruct (LoadWithWarnings decode h f) as [[cfg|] missing];
    [|apply always_ret]. apply always_bind; [|intros; apply always_ret].
  apply always_for_each. intros. exact (always_op (E := session) quiet (Warn _) (fun _ => I)).
Qed.

(** The configuration a command works with. *)
Definition loaded (fl : Flags) (cfg : Config) : Prop :=
  exists path c missing, LoadWithWarnings decode h path = (Ok c, missing)
    /\ ResolveTargets c (fl_targets fl) = Ok cfg.

Lemma LoadConfig_loaded file : wp (LoadConfigWithWarnings h decode_contexts decode file)
  (fun _ r => forall c, r = Ok c -> exists path missing, LoadWithWarnings decode h path = (Ok c, missing)).
Proof.
  unfold LoadConfigWithWarnings. apply wp_bind, wp_true. intros t [f|]; [|by apply wp_ret].
  destruct (LoadWithWarnings decode h f) as [[cfg|] missing] eqn:Hl; [|by apply wp_ret].
  apply wp_bind, wp_true. intros t' _. apply wp_ret. intros c [= <-]. by exists f, missing.
Qed.

Lemma Display_quiet cfg : always quiet (DisplayDaemonInfo labelStyle cfg).
Proof. unfold DisplayDaemonInfo. case_bool_decide; always_tree_step. Qed.

Lemma Mux_quiet flag cfg : always quiet (ActivateSSHMux h flag cfg).
Proof. unfold ActivateSSHMux. destruct (_ || _); always_tree_step. Qed.

Lemma setup_reads fl : always session_reads (setup fl).
Proof.
  unfold setup, SetupCLIContext.
  assert (forall A (p : cmd A), always quiet p -> always session_reads p) as Hq.
  { intros A p Hp. eapply always_mono; [exact Hp|]. apply quiet_reads. }
  apply always_bind; [apply Hq, LoadConfig_quiet|]. intros r. apply always_try. intros cfg _.
  apply always_bind; [apply Hq, Display_quiet|]. intros _.
  apply always_bind; [apply Hq, EnsureContextsReachable_quiet|]. intros r'. apply always_try. intros _ _.
  apply always_bind; [apply Hq, Mux_quiet|]. intros _.
  apply always_bind; [apply planned_reads, Validate_looks|]. intros v. apply always_try. intros _ _.
  apply always_ret.
Qed.

(** A setup that succeeds gives the configuration of the manifest narrowed to the
    targets, ready, and the planner on the factory of clients. *)
Lemma setup_ready fl : wp (setup fl) (fun _ r => forall cfg p, r = Ok (cfg, p) ->
  loaded fl cfg /\ environment_ready h cfg /\ p = mkPlanner None true true).
Proof.
  unfold setup, SetupCLIContext. apply wp_bind. eapply wp_mono; [apply LoadConfig_loaded|].
  intros t0 r0 H0'. apply wp_try.
  destruct (r0 ≫= _) as [cfg|e] eqn:Hr; [|done].
  apply wp_bind, wp_true. intros t1 _. apply wp_bind, wp_true. intros t2 [[]|e]; [|by apply wp_ret].
  apply wp_try. apply wp_bind, wp_true. intros t3 _. apply wp_bind. intros tv v (u & -> & Hv)%exec_planned.
  apply Validate_checks in Hv. apply wp_try. destruct v as [[]|e]; [|done]. apply wp_ret.
  intros cfg' p [= <- <-]. split; [|split; [by apply Hv|done]].
  destruct r0 as [c|]; [|done]. simpl in Hr. destruct (H0' c eq_refl) as (path & missing & Hl).
  exists path, c, missing. split; [done|]. unfold ResolveTargets in *.
  by destruct (IsEmpty (fl_targets fl)).
Qed.
End SetupFacts.
