(* ===== verification/ContextCheck.v ===== *)
(** * The check of one context ([internal/validator]: [ValidateContext])

    The daemon of the context answers and its stacks can be rendered.  Unlike
    [Validate], which every command runs, this looks at one context, ignores
    environment files and secrets, and asks the daemon first. *)

From S2P Require Import Prelude GoStrings GoPath Apperr Util Manifest Filesets Effects Docker ServiceState Resource Plan Validator Session.

Section Check.
Context (h : Host) `{MapRange}.

Definition op_ctx : string := "validator.ValidateContext".
(** The name the errors of the loop carry. *)
Definition op_daemon : string := "validator.ValidateDaemon".

(** Without the environment files of the stack. *)
Definition check_plain_compose (client : DockerClient) (stackKey : string) (stack : Stack) : prog (res unit) :=
  if bool_decide (st_Files stack <> []) && bool_decide (st_Root stack <> "") then
    r ← do_call client (ComposeConfigFull (mkComposeArgs (st_Root stack) (st_Files stack) (st_Profiles stack) [] []));
    match r with
    | Ok _ => mret (Ok tt)
    | Err e =>
        c ← do_call client CtxErr;
        mret (Err (match c with
          | Some cancelled => cancelled
          | None => wrap op_daemon External e "invalid compose file for stack %s" [stackKey]
          end))
    end
  else mret (Ok tt).

Definition check_context_stack (client : DockerClient) (contextName : string) (e : string * Stack) : prog (res unit) :=
  let '(stackName, stack) := e in
  let stackKey := MakeStackKey contextName stackName in
  try (check_root h op_daemon stackKey (st_Root stack)) id (fun _ =>
  try (check_paths h op_daemon "compose file" stackKey (st_Root stack) false (st_Files stack)) id (fun _ =>
  check_plain_compose client stackKey stack)).

Definition ValidateContext (cfg : Config) (contextName : string) (client : DockerClient) : Session.cmd (res unit) :=
  if bool_decide (cfg_Contexts cfg !! contextName = None) then
    mret (Err (New op_ctx InvalidInput "unknown context: %s" [contextName]))
  else
    r ← do_op (CheckDaemonOn client);
    match r with
    | Err e =>
        c ← do_op ContextDone;
        mret (Err (match c with Some cancelled => cancelled | None => wrap op_ctx Unavailable e "context %s" [contextName] end))
    | Ok _ =>
        planned (for_each_res (fun _ e => check_context_stack client contextName e) tt
                   (map_range "context stacks" (GetStacksForContext cfg contextName)))
    end.

(** ** What passing means *)

Definition context_stack_ready (s : Stack) : Prop :=
  (st_Root s <> "" -> directory h (st_Root s)) /\ Forall (fun p => present h (stack_path (st_Root s) p)) (st_Files s).

(** The daemon answered, and docker rendered what it was asked to. *)
Definition answered_ok (o : obs session) : Prop :=
  match o with
  | Obs (Planned e) r => rendered_ok (Obs e r)
  | Obs (CheckDaemonOn _) r => r = Ok tt
  | _ => True
  end.

Lemma check_plain_compose_passes client key s : passes True (check_plain_compose client key s).
Proof.
  unfold check_plain_compose. destruct (_ && _); [|by apply passes_ret].
  apply wp_bind. wp_docall. intros [doc|e].
  - apply wp_ret. split; [|done]. intros _. split; [done|]. constructor; [by exists doc|done].
  - apply wp_bind. wp_docall. intros c. apply wp_ret. split; [done|].
    intros [_ [[doc Hd] _]%Forall_cons]. done.
Qed.

Lemma check_context_stack_passes client name e :
  passes (context_stack_ready e.2) (check_context_stack client name e).
Proof.
  destruct e as [stackName s]. eapply passes_iff;
    [|apply passes_try; [apply check_root_ok|]; apply passes_try; [apply check_paths_ok|]; apply check_plain_compose_passes].
  unfold context_stack_ready. cbn. split.
  - intros (Hr & Hf & _). split; [done|]. eapply Forall_impl; [exact Hf|]. naive_solver.
  - intros (Hr & Hf). split_and!; [done| |done]. eapply Forall_impl; [exact Hf|]. naive_solver.
Qed.

(** A context passes exactly when it is declared, its daemon answered, the roots of
    its stacks are directories that hold the compose files, and docker rendered them. *)
Theorem ValidateContext_ready cfg name client : wp (ValidateContext cfg name client) (fun t r => r = Ok tt <->
  is_Some (cfg_Contexts cfg !! name)
  /\ (forall stackName s, GetStacksForContext cfg name !! stackName = Some s -> context_stack_ready s)
  /\ Forall answered_ok t).
Proof.
  unfold ValidateContext. case_bool_decide as Hc.
  { apply wp_ret. rewrite Hc. split; [done|]. by intros [[? ?] _]. }
  apply not_eq_None_Some in Hc. apply wp_bind. wp_doop. intros [[]|e].
  - intros t r (u & -> & Hu)%exec_planned.
    pose proof (passes_each _ _ (map_range "context stacks" (GetStacksForContext cfg name))
                  (check_context_stack_passes client name) _ _ Hu) as Hp. cbn beta in Hp.
    rewrite (Forall_range _ _ (fun _ => context_stack_ready)) in Hp. rewrite Hp, Forall_app, Forall_fmap.
    assert (Forall rendered_ok u <-> Forall (answered_ok ∘ lift_planned) u) as ->.
    { apply Forall_iff. by intros [? ?]. }
    assert (Forall answered_ok [Obs (E := session) (CheckDaemonOn client) (Ok tt)]) by by repeat constructor. tauto.
  - apply wp_bind. wp_doop. intros c. apply wp_ret. split; [done|].
    intros (_ & _ & [Ha _]%Forall_cons). discriminate Ha.
Qed.
End Check.
