(* ===== verification/Commands.v ===== *)
(** * The commands ([internal/cli/plancmd], [applycmd], [destroycmd])

    The three commands that plan, apply and destroy, as sessions: the setup, the
    plan, its review, the confirmation, the work.  The theorems are about the order
    of these: nothing changes on a daemon before the user agreed to the plan that
    was shown. *)

From S2P Require Import Prelude GoStrings GoPath Apperr Util Manifest Discovery Validation Targets Filesets Effects Docker ServiceState Resource Plan Validator Prompt Orchestrate Ownership Apply Prune Destroy Session.

Section Commands.
Context (h : Host) (decode_contexts : string -> res (gmap string unit)) (decode : string -> res Config).
Context (labelStyle : string -> string).
Context `{MapRange} `{Schedule} `{Glob} `{IndexCodec} `{Styles} `{TextInput}.

Definition setup : Flags -> cmd (res (Config * Planner)) :=
  SetupCLIContext h decode_contexts decode labelStyle.

Definition WithParallel (p : Planner) (enabled : bool) : Planner :=
  mkPlanner (pl_docker p) (pl_factory p) enabled.

Definition sequential_planner (fl : Flags) (p : Planner) : Planner :=
  if fl_sequential fl then WithParallel p false else p.

(** An optional error as a result. *)
Definition err_result (e : option error) : res unit :=
  match e with Some e => Err e | None => Ok tt end.

(** ** dockform plan *)

(** The work under the rolling display: the context is tested before and after. *)
Definition plan_in_display (p : Planner) (cfg : Config) (full : bool) : cmd (res string) :=
  c ← do_op ContextDone;
  match c with
  | Some e => mret (Err e)
  | None =>
      r ← planned (BuildPlan p cfg);
      try r id (fun plan =>
      c ← do_op ContextDone;
      match c with
      | Some e => mret (Err e)
      | None => mret (Ok (plan_Render plan full))
      end)
  end.

Definition plan_command (fl : Flags) : cmd (res unit) :=
  s ← setup fl;
  try s id (fun '(cfg, p) =>
  let p := sequential_planner fl p in
  if fl_verbose fl then
    r ← planned (BuildPlan p cfg);
    try r id (fun plan => _ ← do_op (Print (plan_Render plan (fl_long fl))); mret (Ok tt))
  else
    r ← RunWithRollingLog (plan_in_display p cfg (fl_long fl));
    try r id (fun out => _ ← do_op (Print out); mret (Ok tt))).

(** ** dockform apply *)

(** The plan has nothing to create, update or delete. *)
Definition nothing_to_apply (plan : Plan) : bool :=
  match pn_Resources plan with
  | None => false
  | Some rp => let c := CountActions rp in (c_create c =? 0) && (c_update c =? 0) && (c_delete c =? 0)
  end.

(** Pruning follows an apply that succeeded. *)
Definition apply_then_prune (p : Planner) (cfg : Config) (plan : Plan) (opts : CleanupOptions)
  : prog (res unit) :=
  e ← ApplyWithPlan p cfg (Some plan);
  match e with
  | Some e => mret (Err e)
  | None => e ← PruneWithPlanOptions p cfg (Some plan) opts; mret (err_result e)
  end.

Definition cleanup_options (fl : Flags) : CleanupOptions :=
  mkCleanup (fl_cleanup_strict fl) (fl_cleanup_verbose fl).

Definition apply_command (fl : Flags) : cmd (res unit) :=
  s ← setup fl;
  try s id (fun '(cfg, p) =>
  let p := sequential_planner fl p in
  r ← RunWithRollingOrDirect (fl_verbose fl) (planned (BuildPlan p cfg));
  try r id (fun builtPlan =>
  if nothing_to_apply builtPlan
  then _ ← do_op (Print "Nothing to apply. Exiting."); mret (Ok tt)
  else
    _ ← do_op (Print (plan_Render builtPlan (fl_long fl)));
    confirmed ← GetConfirmation (fl_skip fl) "";
    try confirmed id (fun confirmed =>
    if negb confirmed then mret (Ok tt) else
    RunWithRollingOrDirect (fl_verbose fl)
      (planned (apply_then_prune p cfg builtPlan (cleanup_options fl)))))).

(** ** dockform destroy *)

Definition with_Identifier (id : string) (c : Config) : Config :=
  mkConfig id (cfg_Sops c) (cfg_Discovery c) (cfg_Contexts c) (cfg_Deployments c) (cfg_Stacks c)
    (cfg_BaseDir c) (cfg_Targeted c) (cfg_DiscoveredStacks c) (cfg_DiscoveredFilesets c).

(** The environment may name another identifier than the manifest. *)
Definition override_identifier (cfg : Config) : Config :=
  let override := default "" (os_LookupEnv h "DOCKFORM_RUN_ID") in
  if bool_decide (override <> "") then with_Identifier override cfg else cfg.

Definition plan_String (plan : Plan) : string :=
  match pn_Resources plan with None => "[no plan]" | Some rp => renderResourcePlanFull rp end.

Definition nothing_to_destroy (out : string) : bool :=
  bool_decide (out = "[no plan]") || bool_decide (out = "").

Definition destroy_all (p : Planner) (cfg : Config) (opts : CleanupOptions) : prog (res unit) :=
  e ← DestroyWithOptions p cfg opts; mret (err_result e).

Definition destroy_command (fl : Flags) : cmd (res unit) :=
  s ← setup fl;
  try s id (fun '(cfg, p) =>
  let cfg := override_identifier cfg in
  r ← planned (BuildDestroyPlan p cfg);
  try r id (fun plan =>
  let out := plan_String plan in
  if nothing_to_destroy out
  then _ ← do_op (Print "No managed resources found to destroy."); mret (Ok tt)
  else
    _ ← do_op (Print out);
    confirmed ← GetDestroyConfirmation (fl_skip fl) (cfg_Identifier cfg) (cfg_Targeted cfg);
    try confirmed id (fun confirmed =>
    if negb confirmed then mret (Ok tt) else
    RunWithRollingOrDirect (fl_verbose fl)
      (planned (destroy_all p cfg (cleanup_options fl)))))).
End Commands.

(** ** Properties *)

Lemma rolling_spec {A} verbose (fn : cmd (res A)) : wp (RunWithRollingOrDirect verbose fn) (fun t r =>
  exists t0 t1 t2 r', t = t0 ++ t1 ++ t2 /\ Forall quiet t0 /\ Forall quiet t2 /\ exec fn t1 r'
    /\ forall a, r = Ok a -> r' = Ok a).
Proof.
  assert (forall t0, Forall quiet t0 -> wp fn (fun t r => exists t1 t2 t3 r', t0 ++ t = t1 ++ t2 ++ t3
    /\ Forall quiet t1 /\ Forall quiet t3 /\ exec fn t2 r' /\ forall a, r = Ok a -> r' = Ok a)) as Hfn.
  { intros t0 Hq t r He. exists t0, t, [], r. rewrite app_nil_r. done. }
  unfold RunWithRollingOrDirect. apply wp_bind. wp_doop. intros tty.
  destruct (negb tty || verbose); [apply Hfn; by repeat constructor|].
  unfold RunWithRollingLog. apply wp_bind. wp_doop. intros tty2. rewrite <- (left_id_L [] (++) [Obs _ tty2]).
  destruct (negb tty2); [eapply wp_mono; [apply (Hfn [Obs (IsTerminal Stdout) tty; Obs (IsTerminal Stdout) tty2]); by repeat constructor|]; done|].
  apply wp_bind. intros t r He. apply wp_bind. wp_doop. intros [e|].
  - apply wp_ret. exists [Obs (IsTerminal Stdout) tty; Obs (IsTerminal Stdout) tty2], t, [Obs ContextDone (Some e)], r.
    split; [done|]. split; [by repeat constructor|]. split; [by repeat constructor|]. done.
  - apply wp_bind. wp_doop. intros o. apply wp_ret.
    exists [Obs (IsTerminal Stdout) tty; Obs (IsTerminal Stdout) tty2], t, [Obs ContextDone None; Obs RollingEnd o], r.
    split; [done|]. split; [by repeat constructor|]. split; [by repeat constructor|]. split; [done|].
    intros a. destruct r, o; naive_solver.
Qed.

Section Confirmed.
Context `{TextInput} `{Styles}.

(** The run showed [shown], the user agreed after that, and only then the [work]
    was done; success means that the work succeeded. *)
Definition decided (skip : bool) (expected shown : string) (work : prog (res unit))
    (t : list (obs session)) (r : res unit) : Prop :=
  exists t0 tc u t2 r', t = t0 ++ Obs (Print shown) tt :: tc ++ (lift_planned <$> u) ++ t2
    /\ Forall session_reads t0 /\ Forall quiet tc /\ Forall quiet t2
    /\ (skip = true \/ Exists (confirmed_by expected) tc)
    /\ exec work u r' /\ (r = Ok tt -> r' = Ok tt).

Lemma review_spec skip expected shown verbose (ask : cmd (res bool)) (work : prog (res unit)) t0 :
  Forall session_reads t0 ->
  wp ask (fun t r => Forall quiet t /\ (r = Ok true -> skip = true \/ Exists (confirmed_by expected) t)) ->
  wp (_ ← do_op (Print shown); confirmed ← ask;
      try confirmed id (fun confirmed =>
        if negb confirmed then mret (Ok tt) else RunWithRollingOrDirect verbose (planned work)))
    (fun t r => Forall session_reads (t0 ++ t) \/ decided skip expected shown work (t0 ++ t) r).
Proof.
  intros H0' Hask. apply wp_bind. wp_doop. intros []. apply wp_bind. eapply wp_mono; [exact Hask|].
  intros tc rc [Hq Hc].
  assert (Forall session_reads (t0 ++ Obs (Print shown) tt :: tc)) as Hr.
  { apply Forall_app. split; [done|]. constructor; [done|].
    eapply Forall_impl; [exact Hq|]. apply quiet_reads. }
  apply wp_try. destruct rc as [[]|e]; simpl negb; cbn match;
    [|apply wp_ret; left; simpl; by rewrite app_nil_r|left; simpl; by rewrite app_nil_r].
  eapply wp_mono; [apply rolling_spec|].
  intros t r (t1 & tw & t2 & r' & -> & Hq1 & Hq2 & (u & -> & Hu)%exec_planned & Hr'). right.
  exists t0, (tc ++ t1), u, t2, r'. split; [simpl; by rewrite <- !(assoc_L (++))|]. split; [done|].
  split; [by apply Forall_app|]. split; [done|]. split; [|split; [done|by apply Hr']].
  destruct (Hc eq_refl) as [?|?]; [by left|]. right. apply Exists_app. by left.
Qed.

End Confirmed.

Section Safety.
Context (h : Host) (decode_contexts : string -> res (gmap string unit)) (decode : string -> res Config).
Context (labelStyle : string -> string).
Context `{MapRange} `{Schedule} `{Glob} `{IndexCodec} `{Styles} `{TextInput}.

Lemma rolling_planned_reads {A} verbose (p : prog (res A)) : always looks p ->
  wp (RunWithRollingOrDirect verbose (planned p)) (fun t r => Forall session_reads t
    /\ forall a, r = Ok a -> exists u, exec p u (Ok a) /\ lift_planned <$> u ⊆ t).
Proof.
  intros Hp. eapply wp_mono; [apply rolling_spec|].
  intros t r (t0 & t1 & t2 & r' & -> & Hq0 & Hq2 & He & Hr).
  pose proof (planned_reads p Hp _ _ He) as Hreads. simpl in Hreads. split.
  - rewrite !Forall_app. split; [|split; [done|]]; (eapply Forall_impl; [|apply quiet_reads]; done).
  - intros a Ha. apply exec_planned in He as (u & -> & Hu). exists u. rewrite (Hr a Ha) in Hu.
    split; [done|]. set_solver.
Qed.

(** C2: [dockform apply] changes nothing the user did not agree to.  Whatever the
    daemons, the terminal and the user answer, a run either only reads, or it is
    this: the manifest was loaded, narrowed to the targets and found ready; a plan
    was built for that configuration, with something to do in it, and shown; after
    that the user answered yes, or confirmation is skipped; and only then that very
    plan was applied to that configuration, and pruned if applying succeeded.  The
    command succeeds only if both did. *)
Theorem apply_only_confirmed fl :
  wp (apply_command h decode_contexts decode labelStyle fl) (fun t r =>
    Forall session_reads t
    \/ exists cfg p plan v,
         loaded h decode fl cfg /\ environment_ready h cfg
         /\ exec (BuildPlan p cfg) v (Ok plan) /\ lift_planned <$> v ⊆ t
         /\ nothing_to_apply plan = false
         /\ decided (fl_skip fl) "yes" (plan_Render plan (fl_long fl))
              (apply_then_prune p cfg plan (cleanup_options fl)) t r).
Proof.
  unfold apply_command. apply wp_bind.
  eapply wp_mono; [apply wp_and; [apply setup_reads|apply setup_ready]|].
  intros t0 [[cfg p]|e] [Hs Hl]; apply wp_try; [|left; by rewrite app_nil_r].
  destruct (Hl cfg p eq_refl) as (Hload & Hready & _). set (q := sequential_planner fl p).
  apply wp_bind. eapply wp_mono; [apply rolling_planned_reads, BuildPlan_looks|].
  intros t1 [plan|e] [Hs1 Hp]; apply wp_try;
    [|left; rewrite app_nil_r; by apply Forall_app].
  destruct (Hp plan eq_refl) as (v & Hv & Hsub). assert (Forall session_reads (t0 ++ t1)) as Hs01
    by (by apply Forall_app).
  destruct (nothing_to_apply plan) eqn:Hn.
  - apply wp_bind. wp_doop. intros []. apply wp_ret. left. rewrite !Forall_app. by repeat constructor.
  - eapply wp_mono; [apply (review_spec (fl_skip fl) "yes" _ _ _ _ (t0 ++ t1) Hs01); apply GetConfirmation_spec|].
    intros t r [Hr|Hd]; rewrite (assoc_L (++)); [by left|]. right. exists cfg, q, plan, v.
    split_and!; try done. set_solver.
Qed.

Lemma loaded_identifier fl cfg : loaded h decode fl cfg -> cfg_Identifier cfg <> "".
Proof.
  intros (path & c & missing & Hl & Hr). apply LoadWithWarnings_declarations in Hl as [Hid _ _ _ _].
  assert (cfg_Identifier cfg = cfg_Identifier c) as ->.
  { destruct (IsEmpty (fl_targets fl)) eqn:He.
    - unfold ResolveTargets in Hr. rewrite He in Hr. by simplify_eq.
    - by destruct (ResolveTargets_unfold _ _ _ Hr He) as (? & ? & _ & _ & _ & ->). }
  by intros Heq; rewrite Heq in Hid.
Qed.

(** C3: [dockform destroy] destroys nothing the user did not agree to.  A run
    either only reads, or a plan of the destruction was built for the configuration
    and shown, after that the user typed the identifier, which is not empty, or
    confirmation is skipped, and only then the destruction of that configuration
    was carried out; the command succeeds only if that did. *)
Theorem destroy_only_confirmed fl :
  wp (destroy_command h decode_contexts decode labelStyle fl) (fun t r =>
    Forall session_reads t
    \/ exists cfg p plan v,
         loaded h decode fl cfg
         /\ let cfg := override_identifier h cfg in
            cfg_Identifier cfg <> ""
            /\ exec (BuildDestroyPlan p cfg) v (Ok plan) /\ lift_planned <$> v ⊆ t
            /\ decided (fl_skip fl) (cfg_Identifier cfg) (plan_String plan)
                 (destroy_all p cfg (cleanup_options fl)) t r).
Proof.
  unfold destroy_command. apply wp_bind.
  eapply wp_mono; [apply wp_and; [apply setup_reads|apply setup_ready]|].
  intros t0 [[cfg p]|e] [Hs Hl]; apply wp_try; [|left; by rewrite app_nil_r].
  destruct (Hl cfg p eq_refl) as (Hload & _ & _). set (cfg' := override_identifier h cfg).
  apply wp_bind. intros t1 r Hplan. pose proof (planned_reads _ (BuildDestroyPlan_looks p cfg') _ _ Hplan) as Hs1.
  simpl in Hs1. apply exec_planned in Hplan as (v & -> & Hv). apply wp_try.
  destruct r as [plan|e]; [|left; rewrite app_nil_r; by apply Forall_app].
  assert (Forall session_reads (t0 ++ (lift_planned <$> v))) as Hs01 by (by apply Forall_app).
  destruct (nothing_to_destroy (plan_String plan)).
  - apply wp_bind. wp_doop. intros []. apply wp_ret. left. rewrite !Forall_app. by repeat constructor.
  - eapply wp_mono; [apply (review_spec (fl_skip fl) (cfg_Identifier cfg') _ _ _ _ _ Hs01);
                     apply GetDestroyConfirmation_spec|].
    intros t r [Hr|Hd]; rewrite (assoc_L (++)); [by left|]. right. exists cfg, p, plan, v.
    split; [done|]. split; [|split_and!; try done; set_solver].
    unfold override_identifier. case_bool_decide; [done|]. by eapply loaded_identifier.
Qed.

(** [dockform plan] only reads, whatever the daemons answer. *)
Theorem plan_only_reads fl :
  always session_reads (plan_command h decode_contexts decode labelStyle fl).
Proof.
  unfold plan_command. apply always_bind; [apply setup_reads|]. intros s. apply always_try. intros [cfg p] _.
  assert (forall A (p : prog A), always looks p -> always session_reads (planned p)) as Hp
    by (intros; by apply planned_reads).
  destruct (fl_verbose fl).
  - apply always_bind; [apply Hp, BuildPlan_looks|]. intros r. apply always_try. intros. by repeat always_tree_step.
  - apply always_bind; [|intros r; apply always_try; intros; by repeat always_tree_step].
    unfold RunWithRollingLog, plan_in_display.
    repeat first [apply Hp, BuildPlan_looks | always_tree_step | case_match].
Qed.
End Safety.

(** ** A run *)

(** The host of one stack with one fileset, and its manifest. *)
Definition run_host : Host :=
  host_of
    [("/base", [("dockform.yml", false); ("prod", true)]);
     ("/base/prod", [("web", true)]);
     ("/base/prod/web", [("compose.yaml", false); ("volumes", true)]);
     ("/base/prod/web/volumes", [("html", true)]);
     ("/base/prod/web/volumes/html", [("index.html", false)])]
    [("/base/dockform.yml", "identifier: id"); ("/base/prod/web/compose.yaml", "services: {}")] "/base".

Definition run_codec : IndexCodec :=
  {| json_Marshal := fun _ => Ok "{}"; json_Unmarshal := fun _ => Ok empty_index |}.

(** Healthy daemons without any resource, and a user at a pipe who answers [line]. *)
Definition answers (line : string) (o : session) : answer o :=
  match o return answer o with
  | Planned (On d q) => healthy [] [] [] ["web"] (NDir 493 [("index.html", NFile 420 "hello")]) d q
  | CheckDaemonOn _ => Ok tt
  | ProbeExpired => false
  | ContextDone | RollingEnd => None
  | IsTerminal _ => false
  | ReadString => line
  | RunTea => Err (Plain "no terminal")
  | Print _ | Warn _ | MuxSetup => tt
  end.

Definition run_flags : Flags :=
  mkFlags "/base/dockform.yml" (mkTargets [] [] "") None false false false false true true.

Definition run_apply (line : string) : list (obs session) * res unit :=
  run_tree (answers line)
    (@apply_command run_host (fun _ => Ok ∅) (fun _ => Ok example_config) id
       canonical_range spawn_order {| PathMatch := fun _ _ => false |} run_codec
       plain_styles line_input run_flags).



#[global] Instance session_reads_dec o : Decision (session_reads o).
Proof. destruct o as [[[d []] | | | | | | | | | |] r]; simpl; apply _. Defined.

(** With a yes the volume is created, filled and the service started; with any other
    answer the run ends well and has only read. *)
Example apply_runs :
  (run_apply ("yes" +:+ nl)).2 = Ok tt
  /\ length (filter (fun o => ~ session_reads o) (run_apply ("yes" +:+ nl)).1) = 4
  /\ (run_apply ("y" +:+ nl)).2 = Ok tt
  /\ filter (fun o => ~ session_reads o) (run_apply ("y" +:+ nl)).1 = [].
Proof. split_and!; vm_compute; reflexivity. Qed.
