(* ===== verification/CliContext.v ===== *)
(** * The context of a command ([internal/cli/common/context.go])

    The object that [plan], [apply] and [destroy] work with, and these commands as
    they are written with its methods: under which Go context each operation is
    issued, and what spins meanwhile.  They refine the commands of [Commands], which
    leave both out; and under a display every change is issued under the context that
    a request to cancel of that display would cancel. *)

From S2P Require Import Prelude GoStrings Apperr Util Manifest Discovery Validation Targets Filesets Effects Docker ServiceState Resource Plan Validator Prompt Orchestrate Ownership Apply Prune Destroy Session Commands.

(** ** Effects *)

(** The context of the command, and one that is cancelled with its parent or by itself. *)
Inductive go_context := CmdContext | WithCancel (parent : go_context).
#[global] Instance go_context_eq_dec : EqDecision go_context.
Proof. solve_decision. Defined.

(** An operation of a session under a Go context; the spinner of a terminal. *)
Inductive cli_op : Type :=
| Under (c : go_context) (o : session_op)
| SpinnerStart (label : string)
| SpinnerStop.
Canonical Structure cli_effect : Effect := mkEffect cli_op (fun o => match o with
  | Under _ o => answer (o : session)
  | SpinnerStart _ | SpinnerStop => unit
  end).
Notation ccmd A := (tree cli_effect A).

Definition under {A} (c : go_context) : Session.cmd A -> ccmd A :=
  embed (E := session) (F := cli_effect) (Under c) (fun _ r => r).
Definition under_op (c : go_context) (o : session_op) : ccmd (answer (o : session)) :=
  do_op (E := cli_effect) (Under c o).
Definition spin (o : cli_op) : ccmd (answer (o : cli_effect)) := do_op (E := cli_effect) o.

(** ** The object *)

(** The prefix of the labels is the planner's: what was set last stays. *)
Record CLIContext := mkCLIContext {
  cc_Ctx : go_context; cc_Config : Config; cc_Planner : Planner; cc_spinnerPrefix : string }.
Definition set_Ctx (c : go_context) (ctx : CLIContext) : CLIContext :=
  mkCLIContext c (cc_Config ctx) (cc_Planner ctx) (cc_spinnerPrefix ctx).
Definition WithSpinner (prefix : string) (ctx : CLIContext) : CLIContext :=
  mkCLIContext (cc_Ctx ctx) (cc_Config ctx) (cc_Planner ctx) prefix.

(** A method: it may assign to the object. *)
Notation method A := (CLIContext -> ccmd (CLIContext * A)).

(** The context is put back however [fn] ends. *)
Definition WithRunContext {A} (runCtx : go_context) (fn : method A) : method A := fun ctx =>
  let prev := cc_Ctx ctx in
  '(ctx, r) ← fn (set_Ctx runCtx ctx);
  mret (set_Ctx prev ctx, r).

Definition SpinnerOperation {A} (message : string) (operation : ccmd A) : ccmd A :=
  _ ← spin (SpinnerStart message); r ← operation; _ ← spin SpinnerStop; mret r.

Section Methods.
Context `{MapRange} `{Schedule} `{Glob} `{IndexCodec}.

(** A call of the planner with the Go context the object holds, the spinner on. *)
Definition spinning {A} (message : string) (p : prog A) : method A := fun ctx =>
  r ← SpinnerOperation message (under (cc_Ctx ctx) (planned p)); mret (ctx, r).

Definition cli_BuildPlan : method (res Plan) := fun ctx =>
  spinning "Planning..." (BuildPlan (cc_Planner ctx) (cc_Config ctx)) ctx.

Definition ApplyPlanWithContext (plan : option Plan) : method (option error) := fun ctx =>
  _ ← spin (SpinnerStart "Applying");
  let ctx := WithSpinner "Applying" ctx in
  r ← under (cc_Ctx ctx) (planned (ApplyWithPlan (cc_Planner ctx) (cc_Config ctx) plan));
  _ ← spin SpinnerStop; mret (ctx, r).
(** [Planner.Apply] is [ApplyWithPlan] without a plan. *)
Definition ApplyPlan : method (option error) := ApplyPlanWithContext None.

Definition PrunePlanWithOptions (plan : option Plan) (opts : CleanupOptions) : method (option error) := fun ctx =>
  spinning "Pruning..." (PruneWithPlanOptions (cc_Planner ctx) (cc_Config ctx) plan opts) ctx.
Definition default_cleanup : CleanupOptions := mkCleanup true true.
Definition PrunePlanWithContext (plan : option Plan) : method (option error) :=
  PrunePlanWithOptions plan default_cleanup.
Definition PrunePlan : method (option error) := PrunePlanWithContext None.

Definition cli_BuildDestroyPlan : method (res Plan) := fun ctx =>
  spinning "Discovering resources..." (BuildDestroyPlan (cc_Planner ctx) (cc_Config ctx)) ctx.

(** Under the Go context that is given, not the object's. *)
Definition ExecuteDestroyWithOptions (bgCtx : go_context) (opts : CleanupOptions) : method (option error) := fun ctx =>
  _ ← spin (SpinnerStart "Destroying");
  let ctx := WithSpinner "Destroying" ctx in
  r ← under bgCtx (planned (DestroyWithOptions (cc_Planner ctx) (cc_Config ctx) opts));
  _ ← spin SpinnerStop; mret (ctx, r).
Definition ExecuteDestroy (bgCtx : go_context) : method (option error) :=
  ExecuteDestroyWithOptions bgCtx default_cleanup.
End Methods.

(** ** The display and the commands *)

Section Written.
Context (h : Host) (decode_contexts : string -> res (gmap string unit)) (decode : string -> res Config).
Context (labelStyle : string -> string).
Context `{MapRange} `{Schedule} `{Glob} `{IndexCodec} `{Styles} `{TextInput}.

(** The work gets a context of its own, which Ctrl-C in the display cancels and which
    is looked at when the work has ended. *)
Definition cli_RunWithRollingLog {A} (parent : go_context) (fn : go_context -> method (res A)) : method (res A) :=
  fun ctx =>
  tty ← under_op parent (IsTerminal Stdout);
  if negb tty then fn parent ctx else
  let run := WithCancel parent in
  '(ctx, r) ← fn run ctx;
  c ← under_op run ContextDone;
  match c with
  | Some e => mret (ctx, Err e)
  | None =>
      runErr ← under_op run RollingEnd;
      mret (ctx, match r, runErr with Ok _, Some e => Err e | _, _ => r end)
  end.

Definition cli_RunWithRollingOrDirect {A} (verbose : bool) (parent : go_context) (fn : go_context -> method (res A))
  : method (res A) := fun ctx =>
  useTUI ← under_op parent (IsTerminal Stdout);
  if negb useTUI || verbose then fn parent ctx else cli_RunWithRollingLog parent fn ctx.

(** The object that the setup returns, the planner made sequential. *)
Definition new_context (fl : Flags) (s : Config * Planner) : CLIContext :=
  mkCLIContext CmdContext s.1 (sequential_planner fl s.2) "".

(** The work of [plan] under the display. *)
Definition cli_plan_in_display (full : bool) (runCtx : go_context) : method (res string) :=
  WithRunContext runCtx (fun ctx =>
  c ← under_op runCtx ContextDone;
  match c with
  | Some e => mret (ctx, Err e)
  | None =>
      '(ctx, r) ← cli_BuildPlan ctx;
      match r with
      | Err e => mret (ctx, Err e)
      | Ok plan =>
          c ← under_op runCtx ContextDone;
          mret (ctx, match c with Some e => Err e | None => Ok (plan_Render plan full) end)
      end
  end).

Definition cli_plan (fl : Flags) : ccmd (res unit) :=
  s ← under CmdContext (setup h decode_contexts decode labelStyle fl);
  try s id (fun s =>
  let ctx := new_context fl s in
  if fl_verbose fl then
    '(_, r) ← cli_BuildPlan ctx;
    try r id (fun plan => _ ← under_op CmdContext (Print (plan_Render plan (fl_long fl))); mret (Ok tt))
  else
    '(_, r) ← cli_RunWithRollingLog CmdContext (cli_plan_in_display (fl_long fl)) ctx;
    try r id (fun out => _ ← under_op CmdContext (Print out); mret (Ok tt))).

(** The work of [apply]: apply, then prune. *)
Definition cli_apply_work (plan : Plan) (opts : CleanupOptions) (runCtx : go_context) : method (res unit) :=
  WithRunContext runCtx (fun ctx =>
  '(ctx, e) ← ApplyPlanWithContext (Some plan) ctx;
  match e with
  | Some e => mret (ctx, Err e)
  | None => '(ctx, e) ← PrunePlanWithOptions (Some plan) opts ctx; mret (ctx, err_result e)
  end).

Definition cli_apply (fl : Flags) : ccmd (res unit) :=
  s ← under CmdContext (setup h decode_contexts decode labelStyle fl);
  try s id (fun s =>
  '(ctx, r) ← cli_RunWithRollingOrDirect (fl_verbose fl) CmdContext (fun runCtx => WithRunContext runCtx cli_BuildPlan)
                (new_context fl s);
  try r id (fun builtPlan =>
  if nothing_to_apply builtPlan
  then _ ← under_op CmdContext (Print "Nothing to apply. Exiting."); mret (Ok tt)
  else
    _ ← under_op CmdContext (Print (plan_Render builtPlan (fl_long fl)));
    confirmed ← under CmdContext (GetConfirmation (fl_skip fl) "");
    try confirmed id (fun confirmed =>
    if negb confirmed then mret (Ok tt) else
    '(_, r) ← cli_RunWithRollingOrDirect (fl_verbose fl) CmdContext
                (cli_apply_work builtPlan (cleanup_options fl)) ctx;
    mret r))).

Definition cli_destroy_work (opts : CleanupOptions) (runCtx : go_context) : method (res unit) :=
  WithRunContext runCtx (fun ctx =>
  '(ctx, e) ← ExecuteDestroyWithOptions runCtx opts ctx; mret (ctx, err_result e)).

(** [destroy] has no flag for sequential work. *)
Definition cli_destroy (fl : Flags) : ccmd (res unit) :=
  s ← under CmdContext (setup h decode_contexts decode labelStyle fl);
  try s id (fun '(cfg, p) =>
  let ctx := mkCLIContext CmdContext (override_identifier h cfg) p "" in
  '(ctx, r) ← cli_BuildDestroyPlan ctx;
  try r id (fun plan =>
  let out := plan_String plan in
  if nothing_to_destroy out
  then _ ← under_op CmdContext (Print "No managed resources found to destroy."); mret (Ok tt)
  else
    _ ← under_op CmdContext (Print out);
    confirmed ← under CmdContext (GetDestroyConfirmation (fl_skip fl) (cfg_Identifier (cc_Config ctx))
                                    (cfg_Targeted (cc_Config ctx)));
    try confirmed id (fun confirmed =>
    if negb confirmed then mret (Ok tt) else
    '(_, r) ← cli_RunWithRollingOrDirect (fl_verbose fl) CmdContext (cli_destroy_work (cleanup_options fl)) ctx;
    mret r))).
End Written.

(** ** Refinement *)

(** What a session shows of a trace: its operations, without contexts and spinners. *)
Definition shown_of (o : obs cli_effect) : list (obs session) :=
  match o with
  | Obs (Under _ o) r => [Obs (E := session) o r]
  | Obs _ _ => []
  end.
Definition forget (T : list (obs cli_effect)) : list (obs session) := T ≫= shown_of.

(** The same runs, up to [forget] and with results related by [R]. *)
Definition refines {A B} (R : A -> B -> Prop) (p : ccmd A) (q : Session.cmd B) : Prop :=
  (forall T a, exec p T a -> exists b, exec q (forget T) b /\ R a b)
  /\ (forall t b, exec q t b -> exists T a, exec p T a /\ forget T = t /\ R a b).

Lemma forget_app T T' : forget (T ++ T') = forget T ++ forget T'.
Proof. apply bind_app. Qed.

Section Rules.
Lemma refines_ret {A B} (R : A -> B -> Prop) a b : R a b -> refines R (Ret a) (Ret b).
Proof.
  intros HR. split; [intros T a' [-> ->]; by exists b|]. intros t b' [-> ->]. by exists [], a.
Qed.

Lemma refines_bind {A B A' B'} (R : A -> B -> Prop) (R' : A' -> B' -> Prop) p q f g :
  refines R p q -> (forall a b, R a b -> refines R' (f a) (g b)) -> refines R' (p ≫= f) (q ≫= g).
Proof.
  intros [Hp Hq] Hf. split.
  - intros T a' (T1 & T2 & a & -> & (b & Hb & HR)%Hp & Ha)%exec_bind.
    destruct (Hf a b HR) as [Hf1 _]. destruct (Hf1 _ _ Ha) as (b' & Hb' & HR'). exists b'.
    split; [|done]. rewrite forget_app. apply exec_bind. by exists (forget T1), (forget T2), b.
  - intros t b' (t1 & t2 & b & -> & (T1 & a & Ha & <- & HR)%Hq & Hb)%exec_bind.
    destruct (Hf a b HR) as [_ Hf2]. destruct (Hf2 _ _ Hb) as (T2 & a' & Ha' & <- & HR').
    exists (T1 ++ T2), a'. split; [apply exec_bind; by exists T1, T2, a|]. by rewrite forget_app.
Qed.

Lemma refines_under {A} c (q : Session.cmd A) : refines eq (under c q) q.
Proof.
  unfold under. induction q as [a|o k IH]; [by apply refines_ret|]. split.
  - intros T a (r & T' & -> & Ha). destruct (IH r) as [H1 _]. destruct (H1 _ _ Ha) as (b & Hb & ->).
    exists b. split; [|done]. by exists r, (forget T').
  - intros t b (r & t' & -> & Hb). destruct (IH r) as [_ H2]. destruct (H2 _ _ Hb) as (T & a & Ha & <- & ->).
    exists (Obs (E := cli_effect) (Under c o) r :: T), b. split; [by exists r, T|done].
Qed.

(** Where the command spins, the session does nothing. *)
Definition silent (o : cli_op) : Prop := match o with Under _ _ => False | _ => True end.
Lemma refines_spin {A B} (R : A -> B -> Prop) o (k : answer (o : cli_effect) -> ccmd A) q :
  silent o -> (forall u, refines R (k u) q) -> refines R (spin o ≫= k) q.
Proof.
  intros Ho Hk. destruct o as [| |]; [done| |].
  all: split; [intros T a ([] & T' & -> & Ha); destruct (Hk tt) as [H1 _]; exact (H1 _ _ Ha)|].
  all: intros t b Hb; destruct (Hk tt) as [_ H2]; destruct (H2 _ _ Hb) as (T & a & Ha & <- & HR).
  - exists (Obs (E := cli_effect) (SpinnerStart label) tt :: T), a. split; [by exists tt, T|done].
  - exists (Obs (E := cli_effect) SpinnerStop tt :: T), a. split; [by exists tt, T|done].
Qed.

Lemma refines_op {A B} (R : A -> B -> Prop) c o (k : answer (o : session) -> ccmd A) (k' : answer (o : session) -> Session.cmd B) :
  (forall r, refines R (k r) (k' r)) -> refines R (under_op c o ≫= k) (do_op o ≫= k').
Proof.
  intros Hk. apply (refines_bind eq); [exact (refines_under c (do_op o))|]. by intros r _ <-.
Qed.

Lemma refines_try {A C} (r : res C) (k : C -> ccmd (res A)) (k' : C -> Session.cmd (res A)) :
  (forall c, refines eq (k c) (k' c)) -> refines eq (try r id k) (try r id k').
Proof. intros Hk. destruct r; [apply Hk|by apply refines_ret]. Qed.
End Rules.

(** A method leaves of the object what the planner is called with. *)
Definition kept {A} (ctx : CLIContext) (x : CLIContext * A) (b : A) : Prop :=
  cc_Ctx x.1 = cc_Ctx ctx /\ cc_Config x.1 = cc_Config ctx /\ cc_Planner x.1 = cc_Planner ctx /\ x.2 = b.

Ltac refine_step :=
  lazymatch goal with
  | |- refines _ (spin _ ≫= _) _ => apply refines_spin; [done|intros _]
  | |- refines _ (under_op _ _ ≫= _) _ => apply refines_op; intros ?
  | |- refines _ (under _ _ ≫= _) _ => apply (refines_bind eq); [apply refines_under|intros ? _ <-]
  | |- refines _ (mret _) _ => apply refines_ret
  | |- refines _ (try _ _ _) (try _ _ _) => apply refines_try; intros ?
  end.

Lemma bind_ret {E : Effect} {A} (p : tree E A) t a : exec (p ≫= Ret) t a <-> exec p t a.
Proof.
  rewrite exec_bind. split.
  - intros (t1 & t2 & a' & -> & Hp & -> & ->). by rewrite app_nil_r.
  - intros Hp. exists t, [], a. by rewrite app_nil_r.
Qed.

Lemma refines_tail {A B} (R : A -> B -> Prop) p q : refines R p (q ≫= Ret) -> refines R p q.
Proof.
  intros [H1 H2]. split.
  - intros T a Ha. destruct (H1 T a Ha) as (b & Hb & HR). exists b. split; [by apply bind_ret|exact HR].
  - intros t b Hb. apply H2. by apply bind_ret.
Qed.

Section Methods.
Context `{MapRange} `{Schedule} `{Glob} `{IndexCodec}.

Lemma refines_call {A} (o : cli_op) c (p : prog A) (ctx ctx' : CLIContext) : silent o ->
  cc_Ctx ctx' = cc_Ctx ctx -> cc_Config ctx' = cc_Config ctx -> cc_Planner ctx' = cc_Planner ctx ->
  refines (kept ctx) (_ ← spin o; r ← under c (planned p); _ ← spin SpinnerStop; mret (ctx', r)) (planned p).
Proof.
  intros Ho E1 E2 E3. apply refines_spin; [done|intros _]. apply refines_tail. by repeat refine_step.
Qed.

Lemma spinning_refines {A} message (p : prog A) ctx : refines (kept ctx) (spinning message p ctx) (planned p).
Proof.
  apply refines_tail. apply (refines_bind eq); [|intros r _ <-; by apply refines_ret].
  unfold SpinnerOperation. refine_step. apply refines_tail. by repeat refine_step.
Qed.

Lemma ApplyPlanWithContext_refines plan ctx : refines (kept ctx) (ApplyPlanWithContext plan ctx)
  (planned (ApplyWithPlan (cc_Planner ctx) (cc_Config ctx) plan)).
Proof. by apply (refines_call (SpinnerStart "Applying")). Qed.

Lemma ExecuteDestroy_refines c opts ctx : refines (kept ctx) (ExecuteDestroyWithOptions c opts ctx)
  (planned (DestroyWithOptions (cc_Planner ctx) (cc_Config ctx) opts)).
Proof. by apply (refines_call (SpinnerStart "Destroying")). Qed.

(** The object is as before, its context included, whatever [fn] did with it. *)
Lemma WithRunContext_refines {A} runCtx (fn : method A) ctx q :
  refines (kept (set_Ctx runCtx ctx)) (fn (set_Ctx runCtx ctx)) q ->
  refines (kept ctx) (WithRunContext runCtx fn ctx) q.
Proof.
  intros Hfn. apply refines_tail. unfold WithRunContext. eapply refines_bind; [exact Hfn|].
  intros [ctx' r] b (_ & Hc & Hp & <-). by apply refines_ret.
Qed.

Lemma rolling_log_refines {A} parent (fn : go_context -> method (res A)) ctx q :
  (forall c, refines (kept ctx) (fn c ctx) q) ->
  refines (kept ctx) (cli_RunWithRollingLog parent fn ctx) (RunWithRollingLog q).
Proof.
  intros Hfn. unfold cli_RunWithRollingLog, RunWithRollingLog. refine_step.
  destruct (negb _); [apply Hfn|]. eapply refines_bind; [apply Hfn|]. intros [ctx' r'] b (H1' & H2' & H3' & <-).
  refine_step. case_match; [by refine_step|]. refine_step. by refine_step.
Qed.

Lemma rolling_refines {A} verbose parent (fn : go_context -> method (res A)) ctx q :
  (forall c, refines (kept ctx) (fn c ctx) q) ->
  refines (kept ctx) (cli_RunWithRollingOrDirect verbose parent fn ctx) (RunWithRollingOrDirect verbose q).
Proof.
  intros Hfn. unfold cli_RunWithRollingOrDirect, RunWithRollingOrDirect. refine_step.
  destruct (_ || _); [apply Hfn|by apply rolling_log_refines].
Qed.
End Methods.

Section Refinement.
Context (h : Host) (decode_contexts : string -> res (gmap string unit)) (decode : string -> res Config).
Context (labelStyle : string -> string).
Context `{MapRange} `{Schedule} `{Glob} `{IndexCodec} `{Styles} `{TextInput}.

Lemma plan_work_refines full c ctx : refines (kept ctx) (cli_plan_in_display full c ctx)
  (plan_in_display (cc_Planner ctx) (cc_Config ctx) full).
Proof.
  apply WithRunContext_refines. unfold plan_in_display. refine_step. case_match; [by refine_step|].
  eapply refines_bind; [apply spinning_refines|]. intros [ctx' r'] b (E1 & E2 & E3 & <-). destruct r' as [plan|e]; [|by apply refines_ret].
  cbn [try]. apply refines_op. intros [e|]; by apply refines_ret.
Qed.

Lemma planned_bind {A B} (p : prog A) (f : A -> prog B) t b :
  exec (planned (p ≫= f)) t b <-> exec (planned p ≫= fun a => planned (f a)) t b.
Proof.
  rewrite exec_bind, exec_planned. split.
  - intros (u & -> & (u1 & u2 & a & -> & Ha & Hb)%exec_bind).
    exists (lift_planned <$> u1), (lift_planned <$> u2), a. rewrite fmap_app, !exec_planned. eauto 7.
  - intros (t1 & t2 & a & -> & (u1 & -> & Ha)%exec_planned & (u2 & -> & Hb)%exec_planned).
    exists (u1 ++ u2). rewrite fmap_app. split; [done|]. apply exec_bind. eauto 7.
Qed.

Lemma refines_same {A B} (R : A -> B -> Prop) p q q' : (forall t b, exec q t b <-> exec q' t b) ->
  refines R p q -> refines R p q'.
Proof.
  intros Hq [H1' H2']. split.
  - intros T a Ha. destruct (H1' T a Ha) as (b & Hb & HR). exists b. split; [by apply Hq|done].
  - intros t b Hb. by apply H2', Hq.
Qed.

Lemma apply_work_refines plan opts c ctx : refines (kept ctx) (cli_apply_work plan opts c ctx)
  (planned (apply_then_prune (cc_Planner ctx) (cc_Config ctx) plan opts)).
Proof.
  apply WithRunContext_refines. unfold apply_then_prune. eapply refines_same; [intros; symmetry; apply planned_bind|].
  eapply refines_bind; [exact (ApplyPlanWithContext_refines (Some plan) (set_Ctx c ctx))|]. intros [ctx' r'] b (E1 & E2 & E3 & <-). cbn [fst] in *.
  destruct r' as [e|]; [by apply refines_ret|]. eapply refines_same; [intros; symmetry; apply planned_bind|].
  cbn [snd]. unfold PrunePlanWithOptions. rewrite E2, E3. eapply refines_bind; [apply spinning_refines|].
  intros [ctx'' r''] b (F1 & F2 & F3 & <-). apply refines_ret. unfold kept. cbn in *. split_and!; congruence.
Qed.

Lemma destroy_work_refines opts c ctx : refines (kept ctx) (cli_destroy_work opts c ctx)
  (planned (destroy_all (cc_Planner ctx) (cc_Config ctx) opts)).
Proof.
  apply WithRunContext_refines. unfold destroy_all. eapply refines_same; [intros; symmetry; apply planned_bind|].
  eapply refines_bind; [exact (ExecuteDestroy_refines c opts (set_Ctx c ctx))|]. intros [ctx' r'] b (E1 & E2 & E3 & <-). by apply refines_ret.
Qed.

(** The commands, as they are written with the object and its methods, have exactly
    the runs of [plan_command], [apply_command] and [destroy_command] once contexts
    and spinners are left out: the context of a display is put back after it, and the
    plan that is applied and pruned is applied with the configuration and the planner
    it was built with. *)
Lemma commands_refined fl :
  refines eq (cli_plan h decode_contexts decode labelStyle fl) (plan_command h decode_contexts decode labelStyle fl)
  /\ refines eq (cli_apply h decode_contexts decode labelStyle fl) (apply_command h decode_contexts decode labelStyle fl)
  /\ refines eq (cli_destroy h decode_contexts decode labelStyle fl) (destroy_command h decode_contexts decode labelStyle fl).
Proof.
  unfold cli_plan, plan_command, cli_apply, apply_command, cli_destroy, destroy_command.
  split_and!; (refine_step; refine_step; match goal with s : Config * Planner |- _ => destruct s as [cfg p] end).
  - destruct (fl_verbose fl).
    + eapply refines_bind; [apply spinning_refines|]. intros [ctx r] b (_ & _ & _ & <-). by repeat refine_step.
    + eapply refines_bind; [apply rolling_log_refines; intros c; apply plan_work_refines|].
      intros [ctx r] b (_ & _ & _ & <-). by repeat refine_step.
  - eapply refines_bind; [apply rolling_refines; intros c; apply WithRunContext_refines, spinning_refines|].
    intros [ctx r] b (E1 & E2 & E3 & <-). refine_step. destruct (nothing_to_apply _); [by repeat refine_step|].
    repeat refine_step. destruct (negb _); [by refine_step|]. apply refines_tail.
    cbn in E2, E3. rewrite <- E2, <- E3.
    eapply refines_bind; [apply rolling_refines; intros run; apply apply_work_refines|].
    intros [ctx' r'] b (_ & _ & _ & <-). by refine_step.
  - eapply refines_bind; [apply spinning_refines|]. intros [ctx r] b (E1 & E2 & E3 & <-). refine_step.
    destruct (nothing_to_destroy _); [by repeat refine_step|]. refine_step. cbn in E2, E3. rewrite E2.
    repeat refine_step. destruct (negb _); [by refine_step|]. apply refines_tail. rewrite <- E2, <- E3.
    eapply refines_bind; [apply rolling_refines; intros run; apply destroy_work_refines|].
    intros [ctx' r'] b (_ & _ & _ & <-). by refine_step.
Qed.
End Refinement.

(** ** Interrupts *)

(** Changes are made under [c]. *)
Definition changes_under (c : go_context) (o : obs cli_effect) : Prop :=
  match o with Obs (Under c' (Planned (On _ q))) _ => read_only q \/ c' = c | _ => True end.
(** Whenever it was asked, the output was a terminal. *)
Definition at_terminal (T : list (obs cli_effect)) : Prop :=
  forall c b, Obs (E := cli_effect) (Under c (IsTerminal Stdout)) b ∈ T -> b = true.
(** The context of a display was found cancelled. *)
Definition display_context : go_context := WithCancel CmdContext.
Definition interrupted_in (T : list (obs cli_effect)) : Prop :=
  exists e, Obs (E := cli_effect) (Under display_context ContextDone) (Some e) ∈ T.
Definition is_err {A} (r : res A) : Prop := match r with Err _ => True | Ok _ => False end.
Definition reached {A} (T : list (obs cli_effect)) (r : res A) : Prop :=
  (at_terminal T -> Forall (changes_under display_context) T) /\ (interrupted_in T -> is_err r).

(** Neither a change nor a look at the context of a display. *)
Definition calm (o : obs cli_effect) : Prop :=
  match o with
  | Obs (Under _ (Planned (On _ q))) _ => read_only q
  | Obs (Under c ContextDone) _ => c <> display_context
  | _ => True
  end.
(** A call of the planner under [c]. *)
Definition within (c : go_context) (o : obs cli_effect) : Prop :=
  match o with Obs (Under c' (Planned _)) _ => c' = c | Obs (Under _ _) _ => False | _ => True end.

Lemma interrupted_app T T' : interrupted_in (T ++ T') <-> interrupted_in T \/ interrupted_in T'.
Proof. unfold interrupted_in. setoid_rewrite elem_of_app. naive_solver. Qed.
Lemma at_terminal_app T T' : at_terminal (T ++ T') <-> at_terminal T /\ at_terminal T'.
Proof. unfold at_terminal. setoid_rewrite elem_of_app. naive_solver. Qed.

Lemma calm_harmless T c : Forall calm T -> Forall (changes_under c) T /\ ~ interrupted_in T.
Proof.
  intros HT. split.
  - eapply Forall_impl; [exact HT|]. intros [[c' [[d q]| | | | | | | | | |]| |] r]; cbn; tauto.
  - intros [e He]. rewrite Forall_forall in HT. by apply (HT _ He).
Qed.
Lemma within_harmless T c : Forall (within c) T -> Forall (changes_under c) T /\ ~ interrupted_in T.
Proof.
  intros HT. split.
  - eapply Forall_impl; [exact HT|]. intros [[c' [[d q]| | | | | | | | | |]| |] r]; cbn; tauto.
  - intros [e He]. rewrite Forall_forall in HT. by apply (HT _ He).
Qed.

Lemma reached_calm {A B} (p : ccmd A) (k : A -> ccmd (res B)) :
  always calm p -> (forall a, wp (k a) reached) -> wp (p ≫= k) reached.
Proof.
  intros Hp Hk. apply wp_bind. intros T a Ha T' b Hb. destruct (calm_harmless T display_context (Hp _ _ Ha)) as [Hc Hn].
  destruct (Hk a T' b Hb) as [H1 H2]. split.
  - intros [_ Ht]%at_terminal_app. apply Forall_app. split; [done|by apply H1].
  - intros [?|?]%interrupted_app; [done|by apply H2].
Qed.


(** An error of the first ends the run, otherwise nothing interrupted it. *)
Lemma reached_try {S A B} (p : ccmd (S * res A)) (k : S -> A -> ccmd (res B)) :
  wp p (fun T x => reached T x.2) -> (forall s a, wp (k s a) reached) ->
  wp ('(s, r) ← p; try r id (k s)) reached.
Proof.
  intros Hp Hk. apply wp_bind. intros T [s r] Ha. destruct (Hp _ _ Ha) as [H1 H2]. cbn in H2.
  destruct r as [a|e]; cbn [try].
  - intros T' b Hb. destruct (Hk s a T' b Hb) as [H3 H4]. split.
    + intros [Ht Ht']%at_terminal_app. apply Forall_app. auto.
    + intros [Hi|Hi]%interrupted_app; [by apply H2 in Hi|by apply H4].
  - apply wp_ret. by rewrite app_nil_r.
Qed.

Lemma reached_ret {A} (r : res A) : wp (Ret r) reached.
Proof. apply wp_ret. split; [intros _; constructor|]. intros [e He]. by apply elem_of_nil in He. Qed.

Lemma calm_single o : calm o -> Forall (changes_under display_context) [o] /\ ~ interrupted_in [o].
Proof. intros Ho. apply calm_harmless. by repeat constructor. Qed.

(** Without a terminal. *)
Lemma reached_direct {A} c T (r : res A) : ~ interrupted_in T ->
  reached (Obs (E := cli_effect) (Under c (IsTerminal Stdout)) false :: T) r.
Proof.
  intros Hn. split.
  - intros Ht. by discriminate (Ht c false (list_elem_of_here _ _)).
  - intros [e He]. apply elem_of_cons in He as [He|He]; [discriminate He|]. destruct Hn. by exists e.
Qed.

(** Not a context found cancelled. *)
Definition going_on (o : obs cli_effect) : Prop :=
  match o with Obs (Under _ ContextDone) (Some _) => False | _ => True end.

Lemma reached_cons {A} o T (r : res A) : calm o -> reached T r -> reached (o :: T) r.
Proof.
  intros Ho [H1 H2]. destruct (calm_single o Ho) as [Hc Hn]. split.
  - intros [_ Ht]%(at_terminal_app [o]). apply (Forall_app _ [o]). auto.
  - intros [Hi|Hi]%(interrupted_app [o]); [by apply Hn in Hi|by apply H2].
Qed.

(** What is done under a display at a terminal is done under the context of the
    display. *)
Lemma rolling_reached {A} (fn : go_context -> method (res A)) ctx :
  (forall c, wp (fn c ctx) (fun T _ => Forall (changes_under c) T /\ ~ interrupted_in T)) ->
  wp (cli_RunWithRollingOrDirect false CmdContext fn ctx) (fun T x => reached T x.2).
Proof.
  intros Hfn. unfold cli_RunWithRollingOrDirect, cli_RunWithRollingLog.
  apply wp_vis. intros [|]; cbn; [|intros T x Hx; apply reached_direct, (Hfn _ _ _ Hx)].
  apply wp_vis. intros [|]; cbn; [|intros T x Hx; apply reached_cons, reached_direct, (Hfn _ _ _ Hx); done].
  apply wp_bind. intros T [ctx' r] Hx. destruct (Hfn _ _ _ Hx) as [Hc Hn]. apply wp_vis.
  intros [e|]; cbn.
  - intros T' x [-> ->]. do 2 (apply reached_cons; [done|]). split; [|done]. intros _. apply Forall_app. split; [done|by repeat constructor].
  - apply wp_vis. intros ie T' x [-> ->]. do 2 (apply reached_cons; [done|]). split.
    + intros _. apply Forall_app. split; [done|by repeat constructor].
    + intros [?|[e He]]%interrupted_app; [done|].
      assert (Forall going_on [Obs (E := cli_effect) (Under display_context ContextDone) None;
                               Obs (E := cli_effect) (Under display_context RollingEnd) ie]) as Hg by by repeat constructor.
      rewrite Forall_forall in Hg. by destruct (Hg _ He).
Qed.

Section Interrupts.
Context (h : Host) (decode_contexts : string -> res (gmap string unit)) (decode : string -> res Config).
Context (labelStyle : string -> string).
Context `{MapRange} `{Schedule} `{Glob} `{IndexCodec} `{Styles} `{TextInput}.

Lemma under_calm {A} (q : Session.cmd A) : always session_reads q -> always calm (under CmdContext q).
Proof.
  intros Hq. apply (always_embed _ _ session_reads); [exact Hq|]. by intros [[d q']| | | | | | | | | |] r.
Qed.
Lemma under_within {A} c (p : prog A) : always (within c) (under c (planned p)).
Proof.
  apply (always_embed _ _ (fun o => match o with Obs (Planned _) _ => True | _ => False end)).
  - apply (always_planned (fun _ => True)); [|by intros [[d q] r]]. intros t a _. by apply Forall_true.
  - by intros [] r.
Qed.

Lemma spinning_within {A} message (p : prog A) ctx : always (within (cc_Ctx ctx)) (spinning message p ctx).
Proof.
  unfold spinning, SpinnerOperation, spin. repeat always_tree_step; try done. apply under_within.
Qed.

(** Then prune works under the context apply worked under. *)
Lemma ApplyPlan_within plan ctx :
  wp (ApplyPlanWithContext plan ctx) (fun T x => Forall (within (cc_Ctx ctx)) T /\ cc_Ctx x.1 = cc_Ctx ctx).
Proof.
  unfold ApplyPlanWithContext. apply wp_bind. apply wp_op. intros []. apply wp_bind. intros T r Hr.
  apply under_within in Hr. apply wp_bind. apply wp_op. intros []. apply wp_ret. split; [|done].
  constructor; [done|]. apply Forall_app. split; [done|by repeat constructor].
Qed.

Lemma with_run_within {A} c (fn : method A) ctx : always (within c) (fn (set_Ctx c ctx)) ->
  wp (WithRunContext c fn ctx) (fun T _ => Forall (changes_under c) T /\ ~ interrupted_in T).
Proof.
  intros Hfn. unfold WithRunContext. apply wp_bind. intros T [ctx' r] Hr. apply wp_ret.
  rewrite app_nil_r. apply within_harmless, (Hfn _ _ Hr).
Qed.

Lemma apply_work_within plan opts c ctx : wp (cli_apply_work plan opts c ctx)
  (fun T _ => Forall (changes_under c) T /\ ~ interrupted_in T).
Proof.
  apply with_run_within, wp_bind. eapply wp_mono; [apply ApplyPlan_within|]. intros T [ctx' r] [HT Hc].
  cbn in HT, Hc. destruct r as [e|]; [apply wp_ret; by rewrite app_nil_r|]. apply wp_bind.
  eapply wp_mono; [apply spinning_within|]. intros T' [ctx'' r'] HT'. apply wp_ret. rewrite app_nil_r.
  rewrite Hc in HT'. by apply Forall_app.
Qed.

Lemma destroy_work_within opts c ctx : wp (cli_destroy_work opts c ctx)
  (fun T _ => Forall (changes_under c) T /\ ~ interrupted_in T).
Proof.
  apply with_run_within. unfold ExecuteDestroyWithOptions, spin.
  repeat first [always_tree_step | apply under_within | case_match]; done.
Qed.

Lemma spinning_calm {A} message (p : prog A) ctx : always looks p -> always calm (spinning message p ctx).
Proof.
  intros Hp. assert (always calm (under (cc_Ctx ctx) (planned p))) as Hu.
  { apply (always_embed _ _ (fun o => match o with Obs (Planned (On _ q)) _ => read_only q | _ => False end)).
    - apply (always_planned looks); [exact Hp|]. by intros [[d q] r].
    - by intros [[d q]| | | | | | | | | |] r. }
  unfold spinning, SpinnerOperation, spin. repeat always_tree_step; done.
Qed.

Lemma calm_reached {S A} (p : ccmd (S * res A)) : always calm p -> wp p (fun T x => reached T x.2).
Proof.
  intros Hp T x Hx. destruct (calm_harmless T display_context (Hp _ _ Hx)) as [Hc Hn]. by split; [|intros ?%Hn].
Qed.

Lemma print_calm line : always calm (under_op CmdContext (Print line)).
Proof. exact (always_op (E := cli_effect) calm (Under CmdContext (Print line)) (fun _ => I)). Qed.

(** The plan is shown, the user asked, and then the work done under a display. *)
Lemma review_reached shown (ask : Session.cmd (res bool)) (work : go_context -> method (res unit)) ctx :
  always session_reads ask ->
  (forall c, wp (work c ctx) (fun T _ => Forall (changes_under c) T /\ ~ interrupted_in T)) ->
  wp (_ ← under_op CmdContext (Print shown); confirmed ← under CmdContext ask;
      try confirmed id (fun confirmed => if negb confirmed then mret (Ok tt) else
        '(_, r) ← cli_RunWithRollingOrDirect false CmdContext work ctx; mret r)) reached.
Proof.
  intros Hask Hwork. apply reached_calm; [apply print_calm|intros _].
  apply reached_calm; [by apply under_calm|]. intros [[|]|e]; cbn [try negb]; [|apply reached_ret..].
  apply wp_bind. eapply wp_mono; [by apply rolling_reached|]. intros T [ctx' r] HT. apply wp_ret. by rewrite app_nil_r.
Qed.

Lemma asks_read (ask : Session.cmd (res bool)) (P : res bool -> list (obs session) -> Prop) :
  wp ask (fun t r => Forall quiet t /\ P r t) -> always session_reads ask.
Proof.
  intros Hask. eapply wp_mono; [exact Hask|]. intros t r [Hq _]. eapply Forall_impl; [exact Hq|apply quiet_reads].
Qed.

(** At a terminal and unless verbose, whatever an apply or a destroy changes on a
    daemon is changed under the context of the display; and when that context is found
    cancelled after the work, the command reports an error. *)
Lemma changes_in_display_context fl : fl_verbose fl = false ->
  wp (cli_apply h decode_contexts decode labelStyle fl) reached
  /\ wp (cli_destroy h decode_contexts decode labelStyle fl) reached.
Proof.
  intros Hv. unfold cli_apply, cli_destroy. rewrite Hv.
  split; (apply reached_calm; [apply under_calm, setup_reads|]; intros [[cfg p]|e]; [cbn [try]|apply reached_ret]).
  - apply reached_try; [apply rolling_reached; intros c; apply with_run_within, spinning_within|]. intros ctx plan.
    destruct (nothing_to_apply plan); [apply reached_calm; [apply print_calm|intros; apply reached_ret]|].
    apply review_reached; [eapply asks_read, (GetConfirmation_spec (fl_skip fl) "")|intros c; apply apply_work_within].
  - apply reached_try; [apply calm_reached, spinning_calm, BuildDestroyPlan_looks|]. intros ctx plan. cbv zeta.
    destruct (nothing_to_destroy _); [apply reached_calm; [apply print_calm|intros; apply reached_ret]|].
    apply review_reached; [eapply asks_read, GetDestroyConfirmation_spec|intros c; apply destroy_work_within].
Qed.
End Interrupts.

(** A method run with another Go context runs under that context, and what it leaves
    is the object it made, under the Go context there was before. *)
Definition puts_back {A} (c : go_context) (fn : method A) (ctx : CLIContext)
    (T : list (obs cli_effect)) (x : CLIContext * A) : Prop :=
  exists ctx', exec (fn (set_Ctx c ctx)) T (ctx', x.2)
    /\ cc_Ctx x.1 = cc_Ctx ctx /\ cc_Config x.1 = cc_Config ctx'
    /\ cc_Planner x.1 = cc_Planner ctx' /\ cc_spinnerPrefix x.1 = cc_spinnerPrefix ctx'.

Lemma WithRunContext_puts_back {A} c (fn : method A) ctx : wp (WithRunContext c fn ctx) (puts_back c fn ctx).
Proof.
  unfold WithRunContext. apply wp_bind. intros T [ctx' r] Hr. apply wp_ret. rewrite app_nil_r. by exists ctx'.
Qed.

Section Commands.
Context (h : Host) (decode_contexts : string -> res (gmap string unit)) (decode : string -> res Config).
Context (labelStyle : string -> string).
Context `{MapRange} `{Schedule} `{Glob} `{IndexCodec} `{Styles} `{TextInput}.

(** C4: The commands, as they are written with the object of a command and its methods,
    have exactly the runs of [plan_command], [apply_command] and [destroy_command] once
    Go contexts and spinners are left out: a plan is applied and pruned with the
    configuration and the planner it was built with.  As to the Go contexts:
    WithRunContext runs the work under the context it is given and puts the one before
    back, and keeps whatever else the work assigned; and at a terminal, unless verbose,
    every change an apply or a destroy makes on a daemon is issued under the context of
    the display, and when that context is found cancelled after the work the command
    reports an error.  That Ctrl-C does cancel that context is not claimed: the request
    to cancel can be dropped on its way (rollinglog.go:298). *)
Theorem commands_as_written fl :
  (refines eq (cli_plan h decode_contexts decode labelStyle fl) (plan_command h decode_contexts decode labelStyle fl)
   /\ refines eq (cli_apply h decode_contexts decode labelStyle fl) (apply_command h decode_contexts decode labelStyle fl)
   /\ refines eq (cli_destroy h decode_contexts decode labelStyle fl) (destroy_command h decode_contexts decode labelStyle fl))
  /\ (fl_verbose fl = false ->
        wp (cli_apply h decode_contexts decode labelStyle fl) reached
        /\ wp (cli_destroy h decode_contexts decode labelStyle fl) reached)
  /\ (forall A c (fn : method A) ctx, wp (WithRunContext c fn ctx) (puts_back c fn ctx)).
Proof.
  split; [apply commands_refined|]. split; [apply changes_in_display_context|]. intros A. apply WithRunContext_puts_back.
Qed.
End Commands.

(** ** A run at a terminal *)

Definition at_tty (o : cli_effect) : answer o :=
  match o return answer o with
  | Under _ (IsTerminal _) => true
  | Under _ o => answers "" o
  | SpinnerStart _ | SpinnerStop => tt
  end.
Definition tty_flags : Flags :=
  mkFlags "/base/dockform.yml" (mkTargets [] [] "") None true false false false true true.
Definition tty_apply : ccmd (res unit) :=
  @cli_apply run_host (fun _ => Ok ∅) (fun _ => Ok example_config) id
    canonical_range spawn_order {| PathMatch := fun _ _ => false |} run_codec plain_styles line_input tty_flags.

(** A change under the context of the display. *)
Definition changes_in_display (o : obs cli_effect) : bool :=
  match o with
  | Obs (Under c (Planned e)) r => bool_decide (c = display_context)
                                   && negb (bool_decide (session_reads (Obs (E := session) (Planned e) r)))
  | _ => false
  end.

Lemma commands_as_written_witness :
  let run := run_tree at_tty tty_apply in
  run.2 = Ok tt /\ length (filter (fun o => changes_in_display o = true) run.1) = 4 /\ reached run.1 run.2.
Proof.
  split; [vm_compute; reflexivity|]. split; [vm_compute; reflexivity|].
  destruct (@commands_as_written run_host (fun _ => Ok ∅) (fun _ => Ok example_config) id
    canonical_range spawn_order {| PathMatch := fun _ _ => false |} run_codec plain_styles line_input tty_flags) as (_ & Hr & _).
  apply (proj1 (Hr eq_refl)), run_tree_exec.
Defined.
