(* ===== verification/CommandTree.v ===== *)
(** * The command line ([internal/cli]: [newRootCmd] and the constructors of the commands)

    The commands, the flags they register and the flags they read.  Cobra ends the
    program with a panic when a flag is registered twice, and a flag that is read but
    not registered, or read as another type, is silently its zero value, since the
    errors of the reads are dropped: neither happens, so that a command reads what the
    command line says.  How arguments are parsed is the library's. *)

From S2P Require Import Prelude GoStrings Apperr Util Manifest Targets Effects Docker Session Commands.

(** ** Flags *)

Inductive flag_value := VBool (b : bool) | VString (s : string) | VSlice (l : list string).
Inductive flag_kind := KBool | KString | KSlice.
#[global] Instance flag_kind_eq_dec : EqDecision flag_kind.
Proof. solve_decision. Defined.
Definition kind_of (v : flag_value) : flag_kind :=
  match v with VBool _ => KBool | VString _ => KString | VSlice _ => KSlice end.

Record Flag := mkFlag { fg_name : string; fg_short : string; fg_default : flag_value }.
#[global] Instance flag_value_eq_dec : EqDecision flag_value.
Proof. solve_decision. Defined.
#[global] Instance flag_eq_dec : EqDecision Flag.
Proof. solve_decision. Defined.
Definition Bool (name : string) : Flag := mkFlag name "" (VBool false).
Definition StringFlag (name default : string) : Flag := mkFlag name "" (VString default).
Definition StringSlice (name : string) : Flag := mkFlag name "" (VSlice []).

(** ** Commands *)

(** Which arguments a command takes; without a rule, a command takes any. *)
Inductive arg_rule := NoRule | NoArgs | ExactArgs (n : nat) | MaximumNArgs (n : nat) | ArbitraryArgs.
Definition accepts (r : arg_rule) (n : nat) : bool :=
  match r with
  | NoRule | ArbitraryArgs => true
  | NoArgs => n =? 0
  | ExactArgs k => n =? k
  | MaximumNArgs k => n <=? k
  end.

Inductive Command :=
  mkCommand (name : string) (args : arg_rule) (persistent flags : list Flag) (subs : list Command).
Definition c_name (c : Command) : string := let '(mkCommand name _ _ _ _) := c in name.
Definition c_args (c : Command) : arg_rule := let '(mkCommand _ args _ _ _) := c in args.
(** A command without sub-commands of its own. *)
Definition leaf (name : string) (args : arg_rule) (flags : list Flag) : Command := mkCommand name args [] flags [].

Definition AddTargetFlags : list Flag := [StringSlice "context"; StringSlice "stack"; StringFlag "deployment" ""].

Definition plan_flags : list Flag := [Bool "sequential"; Bool "long"] ++ AddTargetFlags.
Definition plan_New : Command := leaf "plan" NoRule plan_flags.
Definition apply_flags : list Flag :=
  [Bool "skip-confirmation"; Bool "sequential"; Bool "long"; Bool "strict-prune"; Bool "verbose-prune-errors"]
  ++ AddTargetFlags.
Definition apply_New : Command := leaf "apply" NoRule apply_flags.
Definition destroy_flags : list Flag := [Bool "skip-confirmation"; Bool "strict"; Bool "verbose-errors"] ++ AddTargetFlags.
Definition destroy_New : Command := leaf "destroy" NoRule destroy_flags.
Definition init_New : Command := leaf "init" (MaximumNArgs 1) [].
Definition validate_New : Command := leaf "validate" NoRule [].
Definition version_New : Command := leaf "version" NoArgs [].
Definition dashboard_New : Command := leaf "dashboard" NoRule [].
Definition doctor_flags : list Flag := [StringFlag "context" ""].
Definition doctor_New : Command := leaf "doctor" NoRule doctor_flags.

Definition newCreateCmd : Command := leaf "create" (ExactArgs 1) [].
Definition newRekeyCmd : Command := leaf "rekey" NoArgs [].
Definition newDecryptCmd : Command := leaf "decrypt" (ExactArgs 1) [].
Definition newEditCmd : Command := leaf "edit" (ExactArgs 1) [].
Definition secrets_New : Command :=
  mkCommand "secrets" NoRule [] [] [newCreateCmd; newRekeyCmd; newDecryptCmd; newEditCmd].

Definition manifest_New : Command := mkCommand "manifest" NoRule [] [] [leaf "render" NoRule []].
Definition render_flags : list Flag := [Bool "show-secrets"; StringFlag "mask" "full"].
Definition compose_New : Command := mkCommand "compose" NoRule [] [] [leaf "render" (ExactArgs 1) render_flags].

Definition snapshot_flags : list Flag := [mkFlag "output" "o" (VString ""); StringFlag "note" ""].
Definition newSnapshotCmd : Command := leaf "snapshot" (ExactArgs 1) snapshot_flags.
Definition restore_flags : list Flag := [Bool "force"; Bool "stop-containers"].
Definition newRestoreCmd : Command := leaf "restore" (ExactArgs 2) restore_flags.
Definition volume_New : Command := mkCommand "volume" NoArgs [] [] [newSnapshotCmd; newRestoreCmd].

Definition newCheckCmd : Command :=
  leaf "check" ArbitraryArgs ([Bool "json"; Bool "all"; Bool "sequential"] ++ AddTargetFlags).
Definition newUpgradeCmd : Command := leaf "upgrade" ArbitraryArgs ([Bool "dry-run"] ++ AddTargetFlags).
Definition newPullCmd : Command := leaf "pull" ArbitraryArgs ([Bool "recreate"; Bool "dry-run"] ++ AddTargetFlags).
Definition images_New : Command := mkCommand "images" NoRule [] [] [newCheckCmd; newUpgradeCmd; newPullCmd].

Definition persistent_flags : list Flag :=
  [StringFlag "manifest" ""; mkFlag "verbose" "v" (VBool false); StringFlag "log-level" "info";
   StringFlag "log-format" "auto"; StringFlag "log-file" ""; Bool "no-color"; mkFlag "ssh-multiplex" "" (VBool true)].
(** The commands of a release; the one that generates the documentation is not in it. *)
Definition newRootCmd : Command :=
  mkCommand "dockform" NoRule persistent_flags []
    [init_New; plan_New; apply_New; destroy_New; validate_New; secrets_New; manifest_New; compose_New; version_New;
     volume_New; doctor_New; dashboard_New; images_New].

(** The commands of the tree: their path, their flags with the persistent ones of the
    commands above them, and the names of their sub-commands. *)
Fixpoint commands (path : list string) (inherited : list Flag) (c : Command) : list (list string * list Flag * list string) :=
  let '(mkCommand name _ persistent flags subs) := c in
  let path := path ++ [name] in
  let inherited := inherited ++ persistent in
  (path, flags ++ inherited, c_name <$> subs) :: concat ((fun s => commands path inherited s) <$> subs).
Definition all_commands : list (list string * list Flag * list string) := commands [] [] newRootCmd.

(** ** Reading flags *)

(** What the command line set; only registered flags can be set, to a value of their
    type. *)
Notation settings := (gmap string flag_value) (only parsing).
Definition Lookup (flags : list Flag) (name : string) : option Flag := head (filter (fun f => fg_name f = name) flags).
Definition well_set (flags : list Flag) (vals : settings) : Prop :=
  forall name v, vals !! name = Some v -> exists f, Lookup flags name = Some f /\ kind_of (fg_default f) = kind_of v.

Definition value_of (flags : list Flag) (vals : settings) (name : string) : option flag_value :=
  f ← Lookup flags name; Some (default (fg_default f) (vals !! name)).
(** The errors of the library are dropped: an unknown flag is false, or empty. *)
Definition GetBool (flags : list Flag) (vals : settings) (name : string) : bool :=
  match value_of flags vals name with Some (VBool b) => b | _ => false end.
Definition GetString (flags : list Flag) (vals : settings) (name : string) : string :=
  match value_of flags vals name with Some (VString s) => s | _ => "" end.
Definition GetStringSlice (flags : list Flag) (vals : settings) (name : string) : list string :=
  match value_of flags vals name with Some (VSlice l) => l | _ => [] end.

Definition ReadTargetOptions (flags : list Flag) (vals : settings) : TargetOptions :=
  mkTargets (GetStringSlice flags vals "context") (GetStringSlice flags vals "stack") (GetString flags vals "deployment").

(** What [SetupCLIContext] and the three commands read: targets only where the
    command has them, multiplexing only if it was asked for or against. *)
Definition flags_of (strict verbose_errors : string) (flags : list Flag) (vals : settings) : Flags :=
  mkFlags (GetString flags vals "manifest")
    (if bool_decide (is_Some (Lookup flags "deployment")) then ReadTargetOptions flags vals else mkTargets [] [] "")
    (if bool_decide (is_Some (vals !! "ssh-multiplex")) then Some (GetBool flags vals "ssh-multiplex") else None)
    (GetBool flags vals "skip-confirmation") (GetBool flags vals "sequential") (GetBool flags vals "verbose")
    (GetBool flags vals "long") (GetBool flags vals strict) (GetBool flags vals verbose_errors).

(** The flags that are read: by [PersistentPreRunE] for every command, by what loads
    the manifest, by the setup, and by the commands themselves. *)
Definition targets_read : list (string * flag_kind) := [("context", KSlice); ("stack", KSlice); ("deployment", KString)].
Definition setup_read : list (string * flag_kind) := [("manifest", KString); ("ssh-multiplex", KBool)].
Definition bools (names : list string) : list (string * flag_kind) := (fun n => (n, KBool)) <$> names.
Definition own_reads (path : list string) : list (string * flag_kind) :=
  match path with
  | ["dockform"; "plan"] => setup_read ++ targets_read ++ bools ["sequential"; "long"; "verbose"]
  | ["dockform"; "apply"] =>
      setup_read ++ targets_read
      ++ bools ["skip-confirmation"; "sequential"; "verbose"; "long"; "strict-prune"; "verbose-prune-errors"]
  | ["dockform"; "destroy"] => setup_read ++ targets_read ++ bools ["skip-confirmation"; "verbose"; "strict"; "verbose-errors"]
  | ["dockform"; "validate"] | ["dockform"; "dashboard"] | ["dockform"; "volume"; _] => setup_read
  | ["dockform"; "images"; "check"] => [("manifest", KString)] ++ targets_read ++ bools ["json"; "all"]
  | ["dockform"; "images"; "upgrade"] => [("manifest", KString)] ++ targets_read ++ bools ["dry-run"]
  | ["dockform"; "images"; "pull"] => [("manifest", KString)] ++ targets_read ++ bools ["dry-run"; "recreate"]
  | ["dockform"; "doctor"] | ["dockform"; "secrets"; _] | ["dockform"; "manifest"; _] | ["dockform"; "compose"; _] =>
      [("manifest", KString)]
  | _ => []
  end.
Definition reads (path : list string) : list (string * flag_kind) :=
  [("log-level", KString); ("log-format", KString); ("log-file", KString); ("no-color", KBool)] ++ own_reads path.

(** ** Properties *)

Definition shorthands (flags : list Flag) : list string := filter (fun s => s <> "") (fg_short <$> flags).
(** A command the library can run: it adds a help flag with the letter h. *)
Definition well_formed (e : list string * list Flag * list string) : Prop :=
  let '(path, flags, subs) := e in
  NoDup ("help" :: (fg_name <$> flags)) /\ NoDup ("h" :: shorthands flags) /\ NoDup subs
  /\ Forall (fun '(name, k) => (fun f => kind_of (fg_default f)) <$> Lookup flags name = Some k) (reads path).
#[local] Instance well_formed_dec e : Decision (well_formed e).
Proof. destruct e as [[path flags] subs]. unfold well_formed. apply _. Defined.

Lemma all_well_formed : Forall well_formed all_commands.
Proof. apply (bool_decide_unpack _). by vm_compute. Qed.

(** A command reads what the command line says.  In every command of the program no
    flag and no letter is registered twice, the persistent flags and the help
    included, and no two sub-commands have the same name; each flag that the command
    reads is registered, and what is read is the value that was set, or the default
    if none was, of the type it is read as. *)
Theorem command_line_read path flags subs vals : (path, flags, subs) ∈ all_commands -> well_set flags vals ->
  NoDup ("help" :: (fg_name <$> flags)) /\ NoDup ("h" :: shorthands flags) /\ NoDup subs
  /\ forall name k, (name, k) ∈ reads path -> exists f v,
       f ∈ flags /\ fg_name f = name /\ v = default (fg_default f) (vals !! name)
       /\ value_of flags vals name = Some v /\ kind_of v = k.
Proof.
  intros Hin Hset. pose proof all_well_formed as Hall. rewrite Forall_forall in Hall.
  destruct (Hall _ Hin) as (H1 & H2 & H3 & H4). split_and!; [done..|]. intros name k Hr.
  rewrite Forall_forall in H4. specialize (H4 _ Hr). cbn in H4. apply fmap_Some in H4 as (f & Hf & ->).
  exists f, (default (fg_default f) (vals !! name)). unfold value_of. rewrite Hf.
  assert (f ∈ flags /\ fg_name f = name) as [Hin' Hname].
  { unfold Lookup in Hf. apply head_Some_elem_of in Hf. by apply list_elem_of_filter in Hf as [? ?]. }
  split_and!; try done. destruct (vals !! name) as [v|] eqn:Hv; [|done].
  destruct (Hset _ _ Hv) as (f' & Hf' & Hk). cbn. congruence.
Qed.

(** Without flags: the manifest is looked for, everything is targeted, contexts run
    side by side, the user is asked, and errors of the cleanup do not fail the run. *)
Definition flags_at (path : list string) : list Flag :=
  default [] ((fun e => e.1.2) <$> head (filter (fun e => e.1.1 = path) all_commands)).
Example apply_without_flags :
  flags_of "strict-prune" "verbose-prune-errors" (flags_at ["dockform"; "apply"]) ∅
  = mkFlags "" (mkTargets [] [] "") None false false false false false false.
Proof. by vm_compute. Qed.

(** The commands that plan, apply and destroy take any arguments, and ignore them:
    [dockform destroy web] is about everything, not about one stack. *)
Example stray_arguments :
  (fun c => accepts (c_args c) 1) <$> [plan_New; apply_New; destroy_New; validate_New; version_New; volume_New]
  = [true; true; true; true; false; false].
Proof. done. Qed.

Lemma command_line_read_witness :
  let flags := flags_at ["dockform"; "destroy"] in
  let vals := <["skip-confirmation" := VBool true]> (<["stack" := VSlice ["prod/web"]]> ∅) in
  flags_of "strict" "verbose-errors" flags vals = mkFlags "" (mkTargets [] ["prod/web"] "") None true false false false false false
  /\ (forall name k, (name, k) ∈ reads ["dockform"; "destroy"] -> exists f v,
       f ∈ flags /\ fg_name f = name /\ v = default (fg_default f) (vals !! name)
       /\ value_of flags vals name = Some v /\ kind_of v = k).
Proof.
  split; [by vm_compute|].
  apply (command_line_read ["dockform"; "destroy"] (flags_at ["dockform"; "destroy"]) []).
  - apply (bool_decide_unpack _). by vm_compute.
  - intros name v. rewrite !lookup_insert_Some, lookup_empty.
    intros [[<- <-]|[_ [[<- <-]|[_ Hn]]]]; [eexists; split; [by vm_compute|done]..|done].
Defined.
