(* ===== verification/Registry.v ===== *)
(** * Image references and registries ([internal/registry])

    Image references, and the client of the registries' HTTP interface: bearer
    authentication with a cache of tokens, the digest of a tag, the pages of the
    list of tags.  Requests and answers are effects; parsing an URL and decoding
    JSON is the libraries' and a parameter. *)

From S2P Require Import Prelude GoStrings GoPath Apperr Effects.
From Stdlib Require Import Ascii.

(** ** Image references *)

Definition defaultRegistry : string := "registry-1.docker.io".
Definition defaultNamespace : string := "library".
Definition defaultTag : string := "latest".

Record ImageRef := mkRef { ir_Registry : string; ir_Namespace : string; ir_Name : string; ir_Tag : string }.

Definition FullName (r : ImageRef) : string :=
  if bool_decide (ir_Namespace r = "") then ir_Name r else ir_Namespace r +:+ "/" +:+ ir_Name r.

Definition ref_String (r : ImageRef) : string :=
  let s := ir_Registry r +:+ "/" +:+ FullName r in
  if bool_decide (ir_Tag r <> "") then s +:+ ":" +:+ ir_Tag r else s.

(** [strings.ContainsAny] with a dot and a colon. *)
Definition looksLikeRegistry (s : string) : bool :=
  negb (string_forallb (fun c => negb (bool_decide (c = "."%char) || bool_decide (c = ":"%char))) s).

Definition op_pr : string := "registry.ParseImageRef".

(** The components of the path, the tag already split off. *)
Definition parse_parts (tag : string) (parts : list string) : res ImageRef :=
  let ref := match parts with
    | [] => mkRef "" "" "" tag
    | [name] => mkRef defaultRegistry defaultNamespace name tag
    | [a; name] => if looksLikeRegistry a then mkRef a "" name tag else mkRef defaultRegistry a name tag
    | registry :: rest => mkRef registry (Join (removelast rest) "/") (default "" (last rest)) tag
    end in
  if bool_decide (ir_Name ref = "") then Err (New op_pr InvalidInput "image name cannot be empty" [])
  else Ok ref.

Definition slash_char : ascii := "/".
Definition colon : ascii := ":".

Definition ParseImageRef (raw : string) : res ImageRef :=
  let raw := TrimSpace raw in
  if bool_decide (raw = "") then Err (New op_pr InvalidInput "image reference cannot be empty" []) else
  let '(dir, nameAndTag) := match CutLast raw slash_char with
                            | Some (d, n) => (d +:+ "/", n)
                            | None => ("", raw)
                            end in
  let '(name, tag) := match CutLast nameAndTag colon with
                      | Some (n, t) => (n, t)
                      | None => (nameAndTag, defaultTag)
                      end in
  if bool_decide (tag = "") then Err (New op_pr InvalidInput "image tag cannot be empty" []) else
  parse_parts tag (Split (dir +:+ name) slash_char).

Definition registryURL (registry : string) : string :=
  if HasPrefix registry "http://" || HasPrefix registry "https://"
  then TrimRightBytes registry (fun c => bool_decide (c = slash_char))
  else if bool_decide (registry = defaultRegistry) then "https://registry-1.docker.io"
  else "https://" +:+ registry.

(** ** Properties of references *)

(** A tag after the path is found again. *)
Lemma ParseImageRef_tagged p tag : TrimSpace (p +:+ ":" +:+ tag) = p +:+ ":" +:+ tag ->
  free slash_char tag -> free colon tag -> tag <> "" ->
  ParseImageRef (p +:+ ":" +:+ tag) = parse_parts tag (Split p slash_char).
Proof.
  intros Ht Hs Hc Hne. unfold ParseImageRef. rewrite Ht.
  rewrite bool_decide_false by (destruct p; done).
  assert (free slash_char (String colon tag)) as Hs' by (by apply free_cons).
  destruct (CutLast (p +:+ ":" +:+ tag) slash_char) as [[d n]|] eqn:Hcut.
  - destruct (CutLast p slash_char) as [[d' n']|] eqn:Hp.
    + apply CutLast_Some in Hp as [Hn' ->].
      assert (CutLast ((d' +:+ String slash_char n') +:+ ":" +:+ tag) slash_char
              = Some (d', n' +:+ ":" +:+ tag)) as Heq.
      { apply CutLast_Some. split; [apply free_app; split; [done|exact Hs']|].
        by rewrite string_app_assoc. }
      rewrite Heq in Hcut. injection Hcut as <- <-.
      assert (CutLast (n' +:+ ":" +:+ tag) colon = Some (n', tag)) as -> by (by apply CutLast_Some).
      rewrite bool_decide_false by done. by rewrite string_app_assoc.
    + exfalso. apply CutLast_None in Hp.
      assert (free slash_char (p +:+ ":" +:+ tag)) as Hf%CutLast_None
        by (apply free_app; split; [done|exact Hs']). congruence.
  - assert (CutLast (p +:+ ":" +:+ tag) colon = Some (p, tag)) as -> by (by apply CutLast_Some).
    by rewrite bool_decide_false.
Qed.

(** What a reference that parses is made of. *)
Lemma ParseImageRef_inv raw ref : ParseImageRef raw = Ok ref ->
  exists tag parts, parse_parts tag parts = Ok ref /\ tag <> "" /\ free slash_char tag /\ free colon tag
    /\ Forall (free slash_char) parts /\ parts <> [].
Proof.
  unfold ParseImageRef. case_bool_decide; [done|].
  destruct (CutLast (TrimSpace raw) slash_char) as [[d n]|] eqn:Hs;
    destruct (CutLast _ colon) as [[n' t]|] eqn:Hc; case_bool_decide; try done; intros Hp;
    eexists _, _; (split; [exact Hp|]); (split; [done|]);
    (split_and!; [| |apply Forall_forall; intros x Hx; by eapply Split_free|apply Split_not_nil]).
  all: try (by apply (bool_decide_unpack _)).
  all: try apply CutLast_Some in Hc as [Hc Heq]; try done.
  - apply CutLast_Some in Hs as [Hs _]. rewrite Heq in Hs. by apply free_app in Hs as [_ [_ ?]%free_cons].
  - apply CutLast_None in Hs. rewrite Heq in Hs. by apply free_app in Hs as [_ [_ ?]%free_cons].
Qed.

Lemma Join_snoc l x : l <> [] -> Join (l ++ [x]) "/" = Join l "/" +:+ "/" +:+ x.
Proof.
  induction l as [|y l IH]; [done|]. intros _. destruct l as [|z l]; [done|].
  rewrite <- app_comm_cons, Join_cons by (by destruct l). rewrite IH by done.
  rewrite (Join_cons y (z :: l)) by done. by rewrite !string_app_assoc.
Qed.

(** The path of a reference splits into its registry, namespace and name. *)
Lemma Split_path reg ns name : free slash_char reg -> Forall (free slash_char) ns -> free slash_char name ->
  Split (reg +:+ "/" +:+ Join (ns ++ [name]) "/") slash_char = reg :: ns ++ [name].
Proof.
  intros Hr Hns Hn. etrans; [exact (Split_app reg (Join (ns ++ [name]) "/") slash_char Hr)|]. f_equal.
  apply Split_Join; [by destruct ns|]. apply Forall_app. split; [done|]. by constructor.
Qed.

Lemma Join_not_empty ns : Join ns "/" <> "" -> ns <> [].
Proof. by intros H ->. Qed.

Lemma parse_parts_long tag a b c l m x : b :: c :: l = m ++ [x] ->
  (if bool_decide (x = "") then Err (New op_pr InvalidInput "image name cannot be empty" [])
   else Ok (mkRef a (Join m "/") x tag)) = parse_parts tag (a :: b :: c :: l).
Proof.
  intros Hm. unfold parse_parts.
  replace (removelast (b :: c :: l)) with m by (rewrite Hm; symmetry; apply removelast_last).
  replace (last (b :: c :: l)) with (Some x) by (rewrite Hm; symmetry; apply last_snoc). done.
Qed.

Lemma parse_parts_path tag parts ref : parse_parts tag parts = Ok ref -> parts <> [] ->
  Forall (free slash_char) parts -> ir_Namespace ref <> "" \/ looksLikeRegistry (ir_Registry ref) = true ->
  parse_parts tag (Split (ir_Registry ref +:+ "/" +:+ FullName ref) slash_char) = Ok ref.
Proof.
  intros Hp Hne Hf Hok.
  assert (exists ns, Forall (free slash_char) ns /\ ir_Namespace ref = Join ns "/"
    /\ free slash_char (ir_Registry ref) /\ free slash_char (ir_Name ref)
    /\ ir_Name ref <> "" /\ ir_Tag ref = tag) as (ns & Hns & Hnamespace & Hreg & Hname & Hnn & Htag).
  { revert Hp. destruct parts as [|a [|b [|c l]]]; [done|..].
    - unfold parse_parts. case_bool_decide; [done|]. intros [= <-]. exists ["library"]. simpl in *. inversion Hf; subst.
      split_and!; try done; [repeat constructor; by apply (bool_decide_unpack _)|by apply (bool_decide_unpack _)].
    - inversion Hf as [|? ? Ha Hf']; inversion Hf' as [|? ? Hb _]; subst.
      unfold parse_parts. destruct (looksLikeRegistry a); case_bool_decide; try done; intros [= <-];
        [exists []|exists [a]]; simpl in *; split_and!; try done; try (by apply (bool_decide_unpack _));
        try by repeat constructor.
    - inversion Hf as [|? ? Ha Hf']; subst.
      destruct (exists_last (l := b :: c :: l)) as (m & x & Hm); [done|].
      rewrite Hm in Hf'. apply Forall_app in Hf' as [Hfm Hfx]. apply Forall_cons in Hfx as [Hfx _].
      intros Hp. rewrite <- (parse_parts_long tag a b c l m x Hm) in Hp.
      case_bool_decide; [done|]. injection Hp as <-. by exists m. }
  unfold FullName. case_bool_decide as Hempty.
  - destruct Hok as [|Hl]; [done|].
    pose proof (Split_path (ir_Registry ref) [] (ir_Name ref) Hreg ltac:(done) Hname) as Hsp.
    simpl in Hsp. rewrite Hsp. unfold parse_parts. rewrite Hl, bool_decide_false by done.
    destruct ref; simpl in *; congruence.
  - rewrite Hnamespace in *. apply Join_not_empty in Hempty as Hns0.
    rewrite <- (Join_snoc ns) by done. rewrite Split_path by done.
    unfold parse_parts. destruct ns as [|n0 ns]; [done|]. simpl app.
    destruct (ns ++ [ir_Name ref]) as [|y l] eqn:Hl; [by destruct ns|]. rewrite <- Hl.
    rewrite app_comm_cons, removelast_last, last_snoc. simpl. rewrite bool_decide_false by done.
    destruct ref; simpl in *; congruence.
Qed.

(** A reference that parses has a canonical form: printed in full and parsed
    again it is itself.  (A reference without namespace in a registry whose name
    does not look like one is the only exception; its print has no surrounding
    space.) *)
Theorem ParseImageRef_roundtrip raw ref : ParseImageRef raw = Ok ref ->
  ir_Namespace ref <> "" \/ looksLikeRegistry (ir_Registry ref) = true ->
  TrimSpace (ref_String ref) = ref_String ref ->
  ParseImageRef (ref_String ref) = Ok ref.
Proof.
  intros (tag & parts & Hp & Ht & Hs & Hc & Hf & Hne)%ParseImageRef_inv Hok Htrim.
  assert (ir_Tag ref = tag) as Htag.
  { revert Hp. unfold parse_parts. destruct parts as [|a [|b [|c l]]]; try destruct (looksLikeRegistry a);
      case_bool_decide; try done; by intros [= <-]. }
  revert Htrim. unfold ref_String. rewrite Htag, bool_decide_true by done. intros Htrim.
  rewrite ParseImageRef_tagged by done. by eapply parse_parts_path.
Qed.

Lemma ParseImageRef_roundtrip_witness :
  ParseImageRef "registry-1.docker.io/library/nginx:1.25"
    = Ok (mkRef "registry-1.docker.io" "library" "nginx" "1.25").
Proof.
  apply (ParseImageRef_roundtrip "nginx:1.25" (mkRef defaultRegistry "library" "nginx" "1.25")).
  - vm_compute. reflexivity.
  - by left.
  - vm_compute. reflexivity.
Defined.

(** The forms the source lists, and the exception of the round trip. *)
Example ParseImageRef_forms :
  ParseImageRef "nginx" = Ok (mkRef defaultRegistry "library" "nginx" "latest")
  /\ ParseImageRef "ghcr.io/org/app:v1" = Ok (mkRef "ghcr.io" "org" "app" "v1")
  /\ ParseImageRef "registry.example.com:5000/foo:1.0" = Ok (mkRef "registry.example.com:5000" "" "foo" "1.0")
  /\ ParseImageRef "a//b" = Ok (mkRef "a" "" "b" "latest")
  /\ ParseImageRef "a/b:latest" = Ok (mkRef defaultRegistry "a" "b" "latest").
Proof. vm_compute. done. Qed.

(** A reference pinned by digest is taken for one tagged with the digest's hex
    digits. *)
Example ParseImageRef_digest :
  ParseImageRef "nginx@sha256:0a1b" = Ok (mkRef defaultRegistry "library" "nginx@sha256" "0a1b").
Proof. vm_compute. done. Qed.

(** ** Requests *)

Record Request := mkRequest { rq_Method : string; rq_URL : string; rq_Accept : string }.
Record Response := mkResponse {
  rs_StatusCode : Z; rs_Link : string; rs_WWWAuthenticate : string; rs_ContentDigest : string;
  rs_Body : string }.

(** A request, with its [Authorization] header when it has one. *)
Inductive http_op : Type := Do (r : Request) (auth : option string).
Canonical Structure http : Effect := mkEffect http_op (fun _ => res Response).
Notation web A := (tree http A).

(** The libraries: whether a request can be made for an URL, the URL's host and
    path, an URL with query parameters set, the bodies of the two kinds of answer. *)
Class HttpLib := {
  NewRequest_err : string -> option error;
  url_Host : string -> string;
  url_Path : string -> string;
  url_with_query : string -> list (string * string) -> string;
  json_tags : string -> res (list string);
  json_token : string -> res (string * string);
}.

(** ** Authentication *)

Notation tokenCache := (gmap string string).

Record challenge := mkChallenge { ch_Realm : string; ch_Service : string; ch_Scope : string }.

(** Split at the commas outside quotes. *)
Fixpoint split_params (s : string) (inQuote : bool) (current : string) : list string :=
  match s with
  | "" => if bool_decide (current = "") then [] else [current]
  | String c s =>
      if Ascii.eqb c dq_char then split_params s (negb inQuote) (current +:+ String c "")
      else if Ascii.eqb c "," && negb inQuote then current :: split_params s inQuote ""
      else split_params s inQuote (current +:+ String c "")
  end.
Definition splitParams (s : string) : list string := split_params s false "".

Definition trim_quotes (s : string) : string :=
  let q c := Ascii.eqb c dq_char in TrimRightBytes (drop_while q s) q.

Definition challenge_part (ch : challenge) (part : string) : challenge :=
  match Cut (TrimSpace part) "=" with
  | None => ch
  | Some (key, value) =>
      let value := trim_quotes value in
      if bool_decide (key = "realm") then mkChallenge value (ch_Service ch) (ch_Scope ch)
      else if bool_decide (key = "service") then mkChallenge (ch_Realm ch) value (ch_Scope ch)
      else if bool_decide (key = "scope") then mkChallenge (ch_Realm ch) (ch_Service ch) value
      else ch
  end.

Definition parseChallenge (header : string) : res challenge :=
  let op := "registry.parseChallenge" in
  let header := TrimSpace header in
  if negb (HasPrefix header "Bearer ") then
    Err (New op External "unsupported auth scheme: %s" [header])
  else
    let ch := foldl challenge_part (mkChallenge "" "" "") (splitParams (TrimPrefix header "Bearer ")) in
    if bool_decide (ch_Realm ch = "")
    then Err (New op External "missing realm in WWW-Authenticate header" []) else Ok ch.

Section OCI.
Context `{HttpLib}.

Definition token_url (ch : challenge) : string :=
  url_with_query (ch_Realm ch)
    ((if bool_decide (ch_Service ch <> "") then [("service", ch_Service ch)] else [])
     ++ (if bool_decide (ch_Scope ch <> "") then [("scope", ch_Scope ch)] else [])).
Definition token_request (ch : challenge) : Request := mkRequest "GET" (token_url ch) "".

(** The token in the answer of the token endpoint. *)
Definition token_answer (ch : challenge) (resp : Response) : res string :=
  let op := "registry.fetchToken" in
  if bool_decide (rs_StatusCode resp <> 200%Z) then
    Err (New op External "token endpoint returned %d" [FormatInt (rs_StatusCode resp)])
  else
    match json_token (rs_Body resp) with
    | Err e => Err (wrap op External e "decoding token response" [])
    | Ok (token, access) =>
        let token := if bool_decide (token = "") then access else token in
        if bool_decide (token = "")
        then Err (New op External "empty token in response from %s" [ch_Realm ch]) else Ok token
    end.

Definition fetchToken (ch : challenge) : web (res string) :=
  let op := "registry.fetchToken" in
  match NewRequest_err (ch_Realm ch) with
  | Some e => mret (Err (wrap op Internal e "building token request" []))
  | None =>
      r ← do_op (Do (token_request ch) None);
      mret (match r with
            | Err e => Err (wrap op Unavailable e "requesting token from %s" [ch_Realm ch])
            | Ok resp => token_answer ch resp
            end)
  end.

Definition scopeKey (req : Request) : string := url_Host (rq_URL req) +:+ ":" +:+ url_Path (rq_URL req).
Definition bearer (token : string) : option string := Some ("Bearer " +:+ token).
Definition unauthorized (resp : Response) : bool := bool_decide (rs_StatusCode resp = 401%Z).

Definition op_auth : string := "registry.doWithAuth".

(** The token is cached under the challenge's scope, and under the request's key. *)
Definition cache_token (cache : tokenCache) (key : string) (ch : challenge) (token : string) : tokenCache :=
  let cacheKey := if bool_decide (ch_Scope ch <> "") then ch_Scope ch else key in
  let cache := <[cacheKey := token]> cache in
  if bool_decide (cacheKey <> key) then <[key := token]> cache else cache.

(** After an answer that asks for authentication. *)
Definition authenticate (cache : tokenCache) (req : Request) (resp : Response)
  : web (tokenCache * res Response) :=
  if bool_decide (rs_WWWAuthenticate resp = "") then
    mret (cache, Err (New op_auth External "received 401 but no WWW-Authenticate header" []))
  else
    match parseChallenge (rs_WWWAuthenticate resp) with
    | Err e => mret (cache, Err e)
    | Ok ch =>
        t ← fetchToken ch;
        match t with
        | Err e => mret (cache, Err e)
        | Ok token =>
            r ← do_op (Do req (bearer token));
            mret (cache_token cache (scopeKey req) ch token,
                  match r with
                  | Err e => Err (wrap op_auth Unavailable e "executing authenticated retry" [])
                  | Ok resp => Ok resp
                  end)
        end
    end.

Definition unauthenticated (cache : tokenCache) (req : Request) : web (tokenCache * res Response) :=
  r ← do_op (Do req None);
  match r with
  | Err e => mret (cache, Err (wrap op_auth Unavailable e "executing request to %s" [rq_URL req]))
  | Ok resp => if negb (unauthorized resp) then mret (cache, Ok resp) else authenticate cache req resp
  end.

Definition doWithAuth (cache : tokenCache) (req : Request) : web (tokenCache * res Response) :=
  match cache !! scopeKey req with
  | Some token =>
      r ← do_op (Do req (bearer token));
      match r with
      | Err e => mret (cache, Err (wrap op_auth Unavailable e "executing authenticated request" []))
      | Ok resp => if negb (unauthorized resp) then mret (cache, Ok resp) else unauthenticated cache req
      end
  | None => unauthenticated cache req
  end.

(** ** Digests and tags *)

Definition manifestAcceptHeader : string :=
  "application/vnd.docker.distribution.manifest.v2+json, application/vnd.oci.image.manifest.v1+json, application/vnd.oci.image.index.v1+json, application/vnd.docker.distribution.manifest.list.v2+json".

Definition digest_answer (image : ImageRef) (tag : string) (resp : Response) : res string :=
  let op := "registry.GetRemoteDigest" in
  if bool_decide (rs_StatusCode resp = 404%Z) then
    Err (New op NotFound "tag not found: %s:%s" [FullName image; tag])
  else if bool_decide (rs_StatusCode resp <> 200%Z) then
    Err (New op External "unexpected status %d fetching digest for %s:%s"
           [FormatInt (rs_StatusCode resp); FullName image; tag])
  else if bool_decide (rs_ContentDigest resp = "") then
    Err (New op External "no Docker-Content-Digest header in response for %s:%s" [FullName image; tag])
  else Ok (rs_ContentDigest resp).

Definition GetRemoteDigest (cache : tokenCache) (image : ImageRef) (tag : string)
  : web (tokenCache * res string) :=
  let op := "registry.GetRemoteDigest" in
  if bool_decide (tag = "") then mret (cache, Err (New op InvalidInput "tag cannot be empty" [])) else
  let url := registryURL (ir_Registry image) +:+ "/v2/" +:+ FullName image +:+ "/manifests/" +:+ tag in
  match NewRequest_err url with
  | Some e => mret (cache, Err (wrap op Internal e "building manifest request" []))
  | None =>
      '(cache, r) ← doWithAuth cache (mkRequest "HEAD" url manifestAcceptHeader);
      mret (cache, match r with
                   | Err e => Err (wrap op Unavailable e "fetching digest for %s:%s" [FullName image; tag])
                   | Ok resp => digest_answer image tag resp
                   end)
  end.

(** The URL between angle brackets, relative to the registry. *)
Definition next_part (baseURL part : string) : option string :=
  let part := TrimSpace part in
  if negb (Contains part ("rel=" +:+ dq +:+ "next" +:+ dq)) then None else
  match Cut part "<" with
  | None => None
  | Some (before, rest) =>
      if bool_decide (free ">" before) then
        match Cut rest ">" with
        | None => None
        | Some (link, _) => Some (if HasPrefix link "/" then baseURL +:+ link else link)
        end
      else None
  end.

Definition parseNextLink (header baseURL : string) : string :=
  if bool_decide (header = "") then "" else
  default "" (head (omap (next_part baseURL) (Split header ","))).

Definition tags_answer (image : ImageRef) (resp : Response) : res (list string) :=
  let op := "registry.ListTags" in
  if bool_decide (rs_StatusCode resp = 404%Z) then
    Err (New op NotFound "repository not found: %s" [FullName image])
  else if bool_decide (rs_StatusCode resp <> 200%Z) then
    Err (New op External "unexpected status %d listing tags for %s"
           [FormatInt (rs_StatusCode resp); FullName image])
  else match json_tags (rs_Body resp) with
       | Err e => Err (wrap op External e "decoding tags response for %s" [FullName image])
       | Ok tags => Ok tags
       end.

(** The pages of the list of tags; [None] when [fuel] pages were not enough. *)
Fixpoint list_tags (fuel : nat) (image : ImageRef) (baseURL : string) (cache : tokenCache) (url : string)
    (allTags : list string) : web (tokenCache * option (res (list string))) :=
  let op := "registry.ListTags" in
  if bool_decide (url = "") then mret (cache, Some (Ok allTags)) else
  match fuel with
  | 0 => mret (cache, None)
  | S fuel =>
      match NewRequest_err url with
      | Some e => mret (cache, Some (Err (wrap op Internal e "building tags request" [])))
      | None =>
          '(cache, r) ← doWithAuth cache (mkRequest "GET" url "");
          match r with
          | Err e => mret (cache, Some (Err (wrap op Unavailable e "listing tags for %s" [FullName image])))
          | Ok resp =>
              match tags_answer image resp with
              | Err e => mret (cache, Some (Err e))
              | Ok tags => list_tags fuel image baseURL cache (parseNextLink (rs_Link resp) baseURL)
                             (allTags ++ tags)
              end
          end
      end
  end.

Definition ListTags (fuel : nat) (cache : tokenCache) (image : ImageRef)
  : web (tokenCache * option (res (list string))) :=
  let baseURL := registryURL (ir_Registry image) in
  list_tags fuel image baseURL cache (baseURL +:+ "/v2/" +:+ FullName image +:+ "/tags/list") [].
End OCI.

(** ** Properties of requests *)

Section OCIFacts.
Context `{HttpLib}.

(** The endpoint named by the challenge of an answer to [req] granted [token]. *)
Definition granted (t : list (obs http)) (req : Request) (ch : challenge) (token : string) : Prop :=
  exists resp answer, Obs (Do req None) (Ok resp) ∈ t /\ unauthorized resp = true
    /\ parseChallenge (rs_WWWAuthenticate resp) = Ok ch
    /\ Obs (Do (token_request ch) None) (Ok answer) ∈ t /\ token_answer ch answer = Ok token.

(** Who gets a token: [req] only, and one cached for it or granted for it. *)
Definition confined (cache : tokenCache) (req : Request) (t : list (obs http)) : Prop :=
  forall q auth a, Obs (Do q auth) a ∈ t -> auth = None \/
    q = req /\ exists token, auth = bearer token
      /\ (cache !! scopeKey req = Some token \/ exists ch, granted t req ch token).

Definition auth_outcome (cache : tokenCache) (req : Request) (t : list (obs http))
    (r : tokenCache * res Response) : Prop :=
  confined cache req t
  /\ (r.1 = cache \/ exists ch token, granted t req ch token
        /\ r.1 = cache_token cache (scopeKey req) ch token)
  /\ (forall resp, r.2 = Ok resp -> exists auth, Obs (Do req auth) (Ok resp) ∈ t).

Lemma granted_mono t t' req ch token : t ⊆ t' -> granted t req ch token -> granted t' req ch token.
Proof. unfold granted. set_solver. Qed.

(** Requests without a token are always in order. *)
Lemma plain_confined cache req t : (forall q auth a, Obs (Do q auth) a ∈ t -> auth = None) ->
  confined cache req t.
Proof. intros Ht q auth a Hin. left. by eapply Ht. Qed.

Lemma authenticate_outcome cache req resp : unauthorized resp = true ->
  wp (authenticate cache req resp)
    (fun t r => auth_outcome cache req (Obs (Do req None) (Ok resp) :: t) r /\ length t <= 2).
Proof.
  intros Hu. set (o := Obs (Do req None) (Ok resp)).
  assert (forall (e : error), auth_outcome cache req [o] (cache, Err e)) as Hstop.
  { intros e. split; [|split; [by left|done]]. apply plain_confined. intros q auth a Hin.
    apply list_elem_of_singleton in Hin. by injection Hin. }
  unfold authenticate. case_bool_decide; [apply wp_ret; split; [apply Hstop|simpl; lia]|].
  destruct (parseChallenge _) as [ch|e] eqn:Hch; [|apply wp_ret; split; [apply Hstop|simpl; lia]].
  unfold fetchToken. apply wp_bind.
  destruct (NewRequest_err (ch_Realm ch)); [apply wp_ret, wp_ret; split; [apply Hstop|simpl; lia]|].
  apply wp_bind. wp_doop. intros a. apply wp_ret.
  assert (forall (e : error), auth_outcome cache req [o; Obs (Do (token_request ch) None) a] (cache, Err e))
    as Hstop2.
  { intros e. split; [|split; [by left|done]]. apply plain_confined. intros q auth b Hin.
    rewrite !elem_of_cons, elem_of_nil in Hin. destruct Hin as [[= _ -> _]|[[= _ -> _]|[]]]; done. }
  destruct a as [answer|e]; [|apply wp_ret; split; [apply Hstop2|simpl; lia]].
  destruct (token_answer ch answer) as [token|e] eqn:Ht; [|apply wp_ret; split; [apply Hstop2|simpl; lia]].
  apply wp_bind. wp_doop. intros a. apply wp_ret. split; [|simpl; lia].
  assert (granted [o; Obs (Do (token_request ch) None) (Ok answer); Obs (Do req (bearer token)) a] req ch token)
    as Hg by (exists resp, answer; split_and!; try done; set_solver).
  split; [|split].
  - intros q auth b Hin. simpl in Hin. rewrite !elem_of_cons, elem_of_nil in Hin.
    destruct Hin as [Heq|[Heq|[Heq|[]]]]; injection Heq as ->; subst; [by left|by left|].
    right. split; [done|]. exists token. split; [done|]. right. by exists ch.
  - right. by exists ch, token.
  - intros resp' Hr. destruct a as [a|]; [|done]. exists (bearer token). simpl in Hr. simplify_eq. set_solver.
Qed.

Lemma unauthenticated_outcome cache req : wp (unauthenticated cache req)
  (fun t r => auth_outcome cache req t r /\ length t <= 3).
Proof.
  unfold unauthenticated. apply wp_bind. wp_doop. intros a.
  assert (forall r : res Response, (forall resp, r = Ok resp -> a = Ok resp) ->
    auth_outcome cache req [Obs (Do req None) a] (cache, r)) as Hstop.
  { intros r Hr. split; [|split; [by left|]].
    - apply plain_confined. intros q auth b Hin. apply list_elem_of_singleton in Hin. by injection Hin.
    - intros resp Hr'. exists None. rewrite (Hr resp Hr'). by left. }
  destruct a as [resp|e]; [|apply wp_ret; split; [by apply Hstop|simpl; lia]].
  destruct (unauthorized resp) eqn:Hu; simpl negb; cbn match;
    [|apply wp_ret; split; [by apply Hstop|simpl; lia]].
  eapply wp_mono; [by apply authenticate_outcome|]. intros t r [Ho Hl]. split; [done|simpl; lia].
Qed.

Lemma auth_outcome_cons cache req token a t r : cache !! scopeKey req = Some token ->
  auth_outcome cache req t r -> auth_outcome cache req (Obs (Do req (bearer token)) a :: t) r.
Proof.
  intros Hc (Hconf & Hcache & Hresp). split; [|split].
  - intros q auth b [Heq|Hin]%elem_of_cons.
    + injection Heq as -> -> _. right. split; [done|]. exists token. auto.
    + destruct (Hconf q auth b Hin) as [?|(-> & tok & -> & [?|(ch & Hg)])]; [by left|right; eauto|].
      right. split; [done|]. exists tok. split; [done|]. right. exists ch. eapply granted_mono; [|exact Hg].
      set_solver.
  - destruct Hcache as [?|(ch & tok & Hg & ?)]; [by left|]. right. exists ch, tok. split; [|done].
    eapply granted_mono; [|exact Hg]. set_solver.
  - intros resp Hr. destruct (Hresp resp Hr) as [auth Hin]. exists auth. by right.
Qed.

Lemma doWithAuth_outcome cache req : wp (doWithAuth cache req)
  (fun t r => auth_outcome cache req t r /\ length t <= 4).
Proof.
  unfold doWithAuth. destruct (cache !! scopeKey req) as [token|] eqn:Hc.
  - apply wp_bind. wp_doop. intros a.
    assert (forall r : res Response, (forall resp, r = Ok resp -> a = Ok resp) ->
      auth_outcome cache req [Obs (Do req (bearer token)) a] (cache, r)) as Hstop.
    { intros r Hr. split; [|split; [by left|]].
      - intros q auth b Hin. apply list_elem_of_singleton in Hin. injection Hin as -> -> _. right.
        split; [done|]. exists token. auto.
      - intros resp Hr'. exists (bearer token). rewrite (Hr resp Hr'). by left. }
    destruct a as [resp|e]; [|apply wp_ret; split; [by apply Hstop|simpl; lia]].
    destruct (unauthorized resp) eqn:Hu; simpl negb; cbn match;
      [|apply wp_ret; split; [by apply Hstop|simpl; lia]].
    eapply wp_mono; [apply unauthenticated_outcome|]. intros t r [Ho Hl].
    split; [by apply auth_outcome_cons|simpl; lia].
  - eapply wp_mono; [apply unauthenticated_outcome|]. intros t r [Ho Hl]. split; [done|lia].
Qed.

(** C39: A bearer token goes only where it belongs.  Whatever the servers answer,
    an authenticated exchange sends at most four requests; one that carries a token
    is the request itself, never that of the token endpoint, and its token is the
    one cached for the request's host and path or was granted, in this exchange, by
    the endpoint that the answer to the request named; and only such a grant
    changes the cache. *)
Theorem doWithAuth_confines_tokens cache req : wp (doWithAuth cache req) (fun t r =>
  length t <= 4
  /\ (forall q auth a, Obs (Do q auth) a ∈ t -> auth = None \/
       q = req /\ exists token, auth = bearer token
         /\ (cache !! scopeKey req = Some token \/ exists ch, granted t req ch token))
  /\ (r.1 = cache \/ exists ch token, granted t req ch token
        /\ r.1 = cache_token cache (scopeKey req) ch token)).
Proof.
  eapply wp_mono; [apply doWithAuth_outcome|]. intros t r [(Hconf & Hcache & _) Hl]. done.
Qed.

(** The answers that name a further page. *)
Definition has_next (baseURL : string) (o : obs http) : Prop :=
  match o with
  | Obs (Do _ _) (Ok resp) => parseNextLink (rs_Link resp) baseURL <> ""
  | _ => False
  end.
#[local] Instance has_next_dec baseURL o : Decision (has_next baseURL o).
Proof. destruct o as [[q auth] [resp|e]]; simpl; apply _. Defined.

Lemma filter_next_in baseURL t o : o ∈ t -> has_next baseURL o -> 1 <= length (filter (has_next baseURL) t).
Proof.
  intros Hin Hn. assert (o ∈ filter (has_next baseURL) t) as Ho by (by apply list_elem_of_filter).
  destruct (filter (has_next baseURL) t); [by apply elem_of_nil in Ho|]. simpl. lia.
Qed.

Lemma list_tags_fuel fuel image baseURL cache url acc :
  wp (list_tags fuel image baseURL cache url acc) (fun t r =>
    r.2 = None -> url <> "" /\ fuel <= length (filter (has_next baseURL) t)).
Proof.
  revert cache url acc. induction fuel as [|fuel IH]; intros cache url acc; simpl;
    case_bool_decide as Hurl; [by apply wp_ret| |by apply wp_ret|].
  - apply wp_ret. intros _. split; [done|]. simpl. lia.
  - destruct (NewRequest_err url); [by apply wp_ret|]. apply wp_bind.
    eapply wp_mono; [apply doWithAuth_outcome|]. intros t [cache' [resp|e]] [(_ & _ & Hresp) _];
      [|by apply wp_ret].
    destruct (Hresp resp eq_refl) as [auth Hin].
    destruct (tags_answer image resp) as [tags|e]; [|by apply wp_ret].
    eapply wp_mono; [apply IH|]. intros t' r Hr Hn. destruct (Hr Hn) as [Hnext Hlen].
    split; [done|]. rewrite filter_app, length_app.
    pose proof (filter_next_in baseURL t _ Hin Hnext). lia.
Qed.

(** Listing the tags ends as soon as the registry stops naming a further page:
    with fuel for [n] pages the listing comes to a result unless the registry
    answered [n] times with a link to a next page. *)
Theorem ListTags_terminates fuel cache image : wp (ListTags fuel cache image) (fun t r =>
  length (filter (has_next (registryURL (ir_Registry image))) t) < fuel -> exists result, r.2 = Some result).
Proof.
  eapply wp_mono; [apply list_tags_fuel|]. intros t [c [result|]] Hr Hlt; [by exists result|].
  destruct (Hr eq_refl) as [_ Hle]. simpl in *. lia.
Qed.
End OCIFacts.
