(* ===== verification/Images.v ===== *)
(** * Image freshness ([internal/images])

    Comparing the images of the compose services with their registries, and writing
    newer tags into the compose files, as a replacement of text.  The registry, the local digests and the
    files are effects; versions and regular expressions are the libraries' and
    parameters. *)

From S2P Require Import Prelude GoStrings GoPath Apperr Util Effects Docker Registry.
From Stdlib Require Import Ascii.

Record ImageStatus := mkStatus {
  is_Stack : string; is_Service : string; is_Image : string; is_CurrentTag : string;
  is_DigestStale : bool; is_NewerTags : list string; is_HasTagPattern : bool; is_Error : string }.

Record ServiceSpec := mkSpec { ss_Image : string; ss_TagPattern : string }.
Record CheckInput := mkInput { ci_StackKey : string; ci_Services : gmap string ServiceSpec }.
Record FileChange := mkChange {
  fc_StackKey : string; fc_Service : string; fc_File : string; fc_Image : string;
  fc_OldTag : string; fc_NewTag : string }.

(** ** Effects and libraries *)

Inductive image_op : Type :=
| RemoteDigest (ref : ImageRef) (tag : string)
| RemoteTags (ref : ImageRef)
| LocalDigest (stackKey service image : string)
| ReadFile (path : string)
| WriteFile (path content : string).
Canonical Structure image_effect : Effect := mkEffect image_op (fun o => match o with
  | RemoteDigest _ _ | LocalDigest _ _ _ | ReadFile _ => res string
  | RemoteTags _ => res (list string)
  | WriteFile _ _ => res unit
  end).
Notation images A := (tree image_effect A).

(** Semantic versions. *)
Class Semver := {
  version : Type;
  NewVersion : string -> res version;
  GreaterThan : version -> version -> bool;
  (** Their order is a strict weak order. *)
  GreaterThan_irrefl : forall v, GreaterThan v v = false;
  GreaterThan_trans : forall u v w, GreaterThan u v = true -> GreaterThan v w = true -> GreaterThan u w = true;
  GreaterThan_negtrans : forall u v w, GreaterThan u v = false -> GreaterThan v w = false -> GreaterThan u w = false;
}.

(** Regular expressions: a pattern compiles to a test. *)
Class Regexp := { Compile : string -> res (string -> bool) }.

(** [sort.Slice]: an order of the elements in which none precedes a smaller one;
    which of the elements that compare equal comes first is not specified. *)
Class SortSlice := {
  sort_slice : forall {A}, (A -> A -> bool) -> list A -> list A;
  sort_slice_perm : forall A less (l : list A), sort_slice less l ≡ₚ l;
  sort_slice_sorted : forall A less (l : list A),
    (forall x, less x x = false) ->
    (forall x y z, less x y = true -> less y z = true -> less x z = true) ->
    (forall x y z, less x y = false -> less y z = false -> less x z = false) ->
    StronglySorted (fun x y => less y x = false) (sort_slice less l);
}.

(** ** Checking *)

Section Check.
Context `{Semver} `{Regexp} `{SortSlice}.

(** A tag with its version, if it is wanted and newer. *)
Definition newer_candidate (re : string -> bool) (current : version) (t : string) : option (string * version) :=
  if re t then
    match NewVersion t with
    | Ok v => if GreaterThan v current then Some (t, v) else None
    | Err _ => None
    end
  else None.

Definition findNewerTags (ref : ImageRef) (tagPattern : string) : images (res (list string)) :=
  match NewVersion (ir_Tag ref) with
  | Err _ => mret (Ok [])
  | Ok current =>
      match Compile tagPattern with
      | Err e => mret (Err e)
      | Ok re =>
          r ← do_op (RemoteTags ref);
          mret (match r with
                | Err e => Err e
                | Ok allTags =>
                    Ok (sort_slice (fun a b : string * version => GreaterThan a.2 b.2)
                          (omap (newer_candidate re current) allTags)).*1
                end)
      end
  end.

Definition checkImage (stackKey svcName imageStr tagPattern : string) : images ImageStatus :=
  let status tag stale newer err := mkStatus stackKey svcName imageStr tag stale newer
                                      (bool_decide (tagPattern <> "")) err in
  match ParseImageRef imageStr with
  | Err e => mret (status "" false [] (Error e))
  | Ok ref =>
      let tag := ir_Tag ref in
      remote ← do_op (RemoteDigest ref tag);
      match remote with
      | Err e => mret (status tag false [] (Error e))
      | Ok remoteDigest =>
          local ← do_op (LocalDigest stackKey svcName imageStr);
          match local with
          | Err e => mret (status tag false [] (Error e))
          | Ok localDigest =>
              let stale := bool_decide (remoteDigest <> localDigest) in
              if bool_decide (tagPattern = "") then mret (status tag stale [] "") else
              newer ← findNewerTags ref tagPattern;
              mret (match newer with
                    | Err e => status tag stale [] (Error e)
                    | Ok newerTags => status tag stale newerTags ""
                    end)
          end
      end
  end.

(** One job per service of every input, sorted by service. *)
Definition check_jobs (inputs : list CheckInput) : list (CheckInput * string) :=
  inputs ≫= fun input => (fun svc => (input, svc)) <$> sorted_keys (ci_Services input).

Definition run_job (j : CheckInput * string) : images ImageStatus :=
  let spec := default (mkSpec "" "") (ci_Services j.1 !! j.2) in
  checkImage (ci_StackKey j.1) j.2 (ss_Image spec) (ss_TagPattern spec).

Context `{Schedule}.

Definition no_status : ImageStatus := mkStatus "" "" "" "" false [] false "".

(** A goroutine per job, each writing the result of its index. *)
Definition Check (inputs : list CheckInput) : images (list ImageStatus) :=
  let jobs := check_jobs inputs in
  results ← for_each (fun results (ij : nat * (CheckInput * string)) =>
                s ← run_job ij.2; mret (<[ij.1 := s]> results))
              (∅ : gmap nat ImageStatus) (schedule "check images" (imap (fun i j => (i, j)) jobs));
  mret (imap (fun i _ => default no_status (results !! i)) jobs).
End Check.

(** ** Upgrading *)

Definition rewriteImageInFile (path oldImage newImage : string) : images (res bool) :=
  r ← do_op (ReadFile path);
  try r id (fun original =>
  let content := ReplaceAll original oldImage newImage in
  if bool_decide (content = original) then mret (Ok false) else
  w ← do_op (WriteFile path content);
  mret (match w with Err e => Err e | Ok _ => Ok true end)).

(** The image without what follows its last colon. *)
Definition image_name (image : string) : string :=
  match CutLast image ":" with Some (name, _) => name | None => image end.

Definition upgrade_file (result : ImageStatus) (newTag : string) (changes : list FileChange) (path : string)
  : images (res (list FileChange)) :=
  let imageName := image_name (is_Image result) in
  r ← rewriteImageInFile path (is_Image result) (imageName +:+ ":" +:+ newTag);
  mret (match r with
        | Err e => Err (Wrapf ("upgrade: rewriting " +:+ path +:+ ": " +:+ Error e) e)
        | Ok true => Ok (changes ++ [mkChange (is_Stack result) (is_Service result) path imageName
                                       (is_CurrentTag result) newTag])
        | Ok false => Ok changes
        end).

Definition upgrade_result (stackFiles : gmap string (list string)) (changes : list FileChange)
    (result : ImageStatus) : images (res (list FileChange)) :=
  match is_NewerTags result with
  | newTag :: _ =>
      if bool_decide (is_Error result <> "") then mret (Ok changes) else
      for_each_res (upgrade_file result newTag) changes
        (default [] (stackFiles !! is_Stack result))
  | [] => mret (Ok changes)
  end.

Definition Upgrade (results : list ImageStatus) (stackFiles : gmap string (list string))
  : images (res (list FileChange)) :=
  for_each_res (upgrade_result stackFiles) [] results.

(** ** Properties *)

Section CheckFacts.
Context `{Semver} `{Regexp} `{SortSlice}.

Lemma newer_candidate_Some re current t t' v : newer_candidate re current t = Some (t', v)
  <-> t' = t /\ re t = true /\ NewVersion t = Ok v /\ GreaterThan v current = true.
Proof.
  unfold newer_candidate. split.
  - destruct (re t); [|done]. destruct (NewVersion t) as [w|]; [|done].
    destruct (GreaterThan w current) eqn:Hg; [|done]. by intros [= <- <-].
  - intros (-> & -> & -> & ->). done.
Qed.

(** The newer tags are exactly the listed tags that match the pattern and are
    versions greater than the current one, the newest first: no tag is newer than
    one before it.  When the current tag is not a version there are none. *)
Theorem findNewerTags_exact ref tagPattern : wp (findNewerTags ref tagPattern) (fun t r =>
  forall tags, r = Ok tags ->
    match NewVersion (ir_Tag ref) with
    | Err _ => tags = []
    | Ok current => exists re allTags, Compile tagPattern = Ok re
        /\ Obs (RemoteTags ref) (Ok allTags) ∈ t
        /\ (forall x, x ∈ tags <-> x ∈ allTags /\ re x = true
              /\ exists v, NewVersion x = Ok v /\ GreaterThan v current = true)
        /\ StronglySorted (fun x y => forall v w, NewVersion x = Ok v -> NewVersion y = Ok w ->
             GreaterThan w v = false) tags
    end).
Proof.
  unfold findNewerTags. destruct (NewVersion (ir_Tag ref)) as [current|e]; [|by apply wp_ret; intros ? [= <-]].
  destruct (Compile tagPattern) as [re|e]; [|by apply wp_ret].
  apply wp_bind. wp_doop. intros [allTags|e]; apply wp_ret; [|done]. intros tags [= <-].
  set (less := fun a b : string * version => GreaterThan a.2 b.2).
  set (cands := omap (newer_candidate re current) allTags).
  assert (forall c, c ∈ sort_slice less cands <-> c ∈ cands) as Hmem
    by (intros c; by rewrite (sort_slice_perm _ less cands)).
  assert (forall c, c ∈ cands -> NewVersion c.1 = Ok c.2) as Hver.
  { intros [x v] (y & _ & (-> & _ & Hv & _)%newer_candidate_Some)%list_elem_of_omap. done. }
  exists re, allTags. split; [done|]. split; [by left|]. split.
  - intros x. rewrite list_elem_of_fmap. setoid_rewrite Hmem. split.
    + intros ([y v] & -> & (z & Hz & (-> & Hre & Hv & Hg)%newer_candidate_Some)%list_elem_of_omap). eauto.
    + intros (Hin & Hre & v & Hv & Hg). exists (x, v). split; [done|]. apply list_elem_of_omap.
      exists x. split; [done|]. by apply newer_candidate_Some.
  - assert (StronglySorted (fun x y => less y x = false) (sort_slice less cands)) as Hs.
    { apply sort_slice_sorted; [intros; apply GreaterThan_irrefl| |].
      - intros x y z. apply GreaterThan_trans.
      - intros x y z. apply GreaterThan_negtrans. }
    assert (forall c, c ∈ sort_slice less cands -> NewVersion c.1 = Ok c.2) as Hver'
      by (intros c Hc; by apply Hver, Hmem).
    clear Hmem Hver. induction Hs as [|c l Hs IH Hall]; simpl; constructor.
    + apply IH. intros d Hd. apply Hver'. by right.
    + apply Forall_fmap, Forall_forall. intros d Hd v w Hv Hw. rewrite Forall_forall in Hall.
      rewrite (Hver' c) in Hv by left. rewrite (Hver' d) in Hw by (by right).
      injection Hv as <-. injection Hw as <-. by apply Hall.
Qed.

Context `{Schedule}.

(** A check reports on every service, in the order of the inputs and of the
    service names whatever order the concurrent checks finish in, and each report
    is the outcome of checking that image alone: an image that fails does not
    affect the others. *)
Theorem Check_independent inputs : wp (Check inputs) (fun t results =>
  Forall2 (fun j s => is_Stack s = ci_StackKey j.1 /\ is_Service s = j.2
                      /\ exists u, exec (run_job j) u s /\ u ⊆ t) (check_jobs inputs) results).
Proof.
  assert (forall j, wp (run_job j) (fun _ s => is_Stack s = ci_StackKey j.1 /\ is_Service s = j.2)) as Hjob.
  { intros [input svc]. unfold run_job, checkImage.
    destruct (ParseImageRef _) as [ref|e]; [|by apply wp_ret].
    apply wp_bind. wp_doop. intros [d|e]; [|by apply wp_ret].
    apply wp_bind. wp_doop. intros [l|e]; [|by apply wp_ret].
    case_bool_decide; [by apply wp_ret|]. apply wp_bind, wp_true. intros u [n|e]; by apply wp_ret. }
  unfold Check. set (jobs := check_jobs inputs). apply wp_bind.
  eapply wp_mono; [apply (wp_for_each_done (fun done t (m : gmap nat ImageStatus) =>
    (forall i j, (i, j) ∈ done -> exists s u, m !! i = Some s /\ exec (run_job j) u s /\ u ⊆ t)
    /\ forall i j, (i, j) ∈ done -> jobs !! i = Some j))|].
  - split; by intros i j Hn%elem_of_nil.
  - intros l t m [i j] Hin [Hm Hj]. apply wp_bind. intros u s Hs. apply wp_ret. rewrite app_nil_r.
    assert (jobs !! i = Some j) as Hij.
    { rewrite schedule_perm in Hin. apply list_elem_of_lookup in Hin as [k Hk].
      rewrite list_lookup_imap in Hk. destruct (jobs !! k) eqn:Hjk; [|done]. by injection Hk as <- <-. }
    assert (forall i' j', (i', j') ∈ l ++ [(i, j)] -> jobs !! i' = Some j') as Hj'.
    { intros i' j' [Hin'|Heq%list_elem_of_singleton]%elem_of_app; [by apply Hj|]. by simplify_eq. }
    split; [|done]. intros i' j' Hin'. destruct (decide (i' = i)) as [->|Hne].
    + exists s, u. assert (j' = j) as -> by (apply Hj' in Hin'; congruence).
      rewrite lookup_insert_eq. split_and!; [done|done|by apply list_subseteq_app_r].
    + apply elem_of_app in Hin' as [Hin'|Heq%list_elem_of_singleton]; [|by simplify_eq].
      destruct (Hm i' j' Hin') as (s' & u' & Hl & He & Hu). exists s', u'.
      rewrite lookup_insert_ne by done. split_and!; [done|done|by apply list_subseteq_app_l].
  - intros t m [Hm _]. apply wp_ret. rewrite app_nil_r. apply Forall2_same_length_lookup_2.
    { by rewrite length_imap. }
    intros i j s Hj Hs. rewrite list_lookup_imap, Hj in Hs. simpl in Hs. injection Hs as <-.
    destruct (Hm i j) as (s & u & -> & He & Hu).
    { rewrite schedule_perm. apply list_elem_of_lookup. exists i. by rewrite list_lookup_imap, Hj. }
    destruct (Hjob j u s He). eauto.
Qed.
End CheckFacts.

(** *** Libraries for examples *)

(** A sort with the contract of [sort.Slice]. *)
Section Sorting.
Context {A} (less : A -> A -> bool).
Definition not_after (x y : A) : Prop := less y x = false.
#[local] Instance not_after_dec : RelDecision not_after.
Proof. intros x y. unfold not_after. apply _. Defined.
Definition slice_sort (l : list A) : list A := merge_sort not_after l.

Lemma slice_sort_sorted l : (forall x, less x x = false) ->
  (forall x y z, less x y = true -> less y z = true -> less x z = true) ->
  (forall x y z, less x y = false -> less y z = false -> less x z = false) ->
  StronglySorted not_after (slice_sort l).
Proof.
  intros Hirr Htrans Hneg. apply StronglySorted_merge_sort.
  - intros x y z Hxy Hyz. unfold not_after in *. by apply (Hneg z y x).
  - intros x y. unfold not_after. destruct (less y x) eqn:Hyx; [|by left]. right.
    destruct (less x y) eqn:Hxy; [|done]. specialize (Htrans x y x Hxy Hyx). by rewrite Hirr in Htrans.
Qed.
End Sorting.

Definition example_sort : SortSlice := {|
  sort_slice A less l := slice_sort less l;
  sort_slice_perm A less l := merge_sort_Permutation _ l;
  sort_slice_sorted A less l H1 H2 H3 := slice_sort_sorted less l H1 H2 H3;
|}.

(** Versions that are one number. *)
Definition number (s : string) : res nat :=
  if bool_decide (s <> "") && string_forallb is_digit s
  then Ok (foldl (fun n c => 10 * n + (code c - 48)) 0 (chars s)) else Err (Plain "invalid semantic version").

#[program] Definition example_semver : Semver := {|
  version := nat; NewVersion := number; GreaterThan v w := w <? v |}.
Next Obligation. intros v. apply Nat.ltb_irrefl. Qed.
Next Obligation. intros u v w. rewrite !Nat.ltb_lt. lia. Qed.
Next Obligation. intros u v w. rewrite !Nat.ltb_ge. lia. Qed.

(** Every pattern matches everything. *)
Definition example_regexp : Regexp := {| Compile _ := Ok (fun _ => true) |}.

Definition lists_tags (o : image_effect) : answer o :=
  match o return answer o with
  | RemoteTags _ => Ok ["9"; "latest"; "11"; "10"]
  | RemoteDigest _ _ | LocalDigest _ _ _ | ReadFile _ => Ok ""
  | WriteFile _ _ => Ok tt
  end.

Lemma findNewerTags_exact_witness :
  let tags := ["11"; "10"] in
  (run_tree lists_tags (@findNewerTags example_semver example_regexp example_sort
     (mkRef defaultRegistry "library" "app" "9") "")).2 = Ok tags
  /\ ("latest" ∈ tags <-> False) /\ ("10" ∈ tags <-> True).
Proof.
  intros tags. set (p := @findNewerTags example_semver example_regexp example_sort
                           (mkRef defaultRegistry "library" "app" "9") "").
  assert ((run_tree lists_tags p).2 = Ok tags) as Hr by (vm_compute; reflexivity).
  destruct (@findNewerTags_exact example_semver example_regexp example_sort
              (mkRef defaultRegistry "library" "app" "9") "" _ _ (run_tree_exec lists_tags p) tags Hr)
    as (re & all & Hre & Hall & Hiff & _).
  split; [exact Hr|]. split.
  - rewrite Hiff. split; [|done]. intros (_ & _ & v & Hv & _). vm_compute in Hv. discriminate Hv.
  - split; [done|]. intros _. unfold tags. right. left.
Defined.

(** *** Upgrading *)

(** A text with every piece that reads [old] replaced: what is between them stays. *)
Definition replaced (old new original content : string) : Prop :=
  exists between, between <> [] /\ original = Join between old /\ content = Join between new
    /\ Forall (fun s => Contains s old = false) between.

(** [name] is the image without its tag. *)
Definition untagged (image name : string) : Prop :=
  (exists tag, free ":" tag /\ image = name +:+ ":" +:+ tag) \/ (free ":" image /\ name = image).

(** [content] is [original] with the newest tag on the image of [result]. *)
Definition upgraded (result : ImageStatus) (name newTag original content : string) : Prop :=
  (exists older, is_NewerTags result = newTag :: older) /\ untagged (is_Image result) name
  /\ (is_Image result <> "" -> replaced (is_Image result) (name +:+ ":" +:+ newTag) original content).

(** The files to look at: for each result without error that has a newer tag the
    compose files of its stack, in order. *)
Definition work (stackFiles : gmap string (list string)) (results : list ImageStatus) : list (ImageStatus * string) :=
  results ≫= fun result =>
    if decide (is_Error result = "" /\ is_NewerTags result <> [])
    then (fun path => (result, path)) <$> default [] (stackFiles !! is_Stack result) else [].

(** What happens for each of them, and the changes reported: the file is read, and when
    the upgrade makes a difference written at once. *)
Inductive rounds : list (ImageStatus * string) -> list (obs image_effect) -> list FileChange -> Prop :=
| rounds_nil : rounds [] [] []
| rounds_same result path original name newTag ws t cs :
    upgraded result name newTag original original -> rounds ws t cs ->
    rounds ((result, path) :: ws) (Obs (ReadFile path) (Ok original) :: t) cs
| rounds_written result path original content name newTag ws t cs :
    upgraded result name newTag original content -> content <> original -> rounds ws t cs ->
    rounds ((result, path) :: ws) (Obs (ReadFile path) (Ok original) :: Obs (WriteFile path content) (Ok tt) :: t)
      (mkChange (is_Stack result) (is_Service result) path name (is_CurrentTag result) newTag :: cs).

(** The first file that cannot be read or written ends it. *)
Definition stopped (ws : list (ImageStatus * string)) (t : list (obs image_effect)) : Prop :=
  exists ws1 result path ws2 t1 cs t2, ws = ws1 ++ (result, path) :: ws2 /\ t = t1 ++ t2 /\ rounds ws1 t1 cs
    /\ ((exists e, t2 = [Obs (ReadFile path) (Err e)])
        \/ exists original content name newTag e, upgraded result name newTag original content /\ content <> original
             /\ t2 = [Obs (ReadFile path) (Ok original); Obs (WriteFile path content) (Err e)]).

Lemma Contains_cons c s old : Contains (String c s) old = HasPrefix (String c s) old || Contains s old.
Proof. done. Qed.

(** [strings.ReplaceAll] replaces every piece. *)
Lemma replace_fuel_replaced n s old new : old <> "" -> String.length s <= n ->
  replaced old new s (replace_fuel n s old new).
Proof.
  intros Hold. revert s. induction n as [|n IH]; intros s Hn.
  { destruct s; [|simpl in Hn; lia]. exists [""]. split_and!; [done..|]. repeat constructor.
    simpl. unfold HasPrefix. by destruct old. }
  destruct s as [|c s]; cbn [replace_fuel].
  { exists [""]. split_and!; [done..|]. repeat constructor. simpl. unfold HasPrefix. by destruct old. }
  destruct (strip_prefix old (String c s)) as [rest|] eqn:Hp.
  - apply strip_prefix_Some in Hp. destruct (IH rest) as (ps & Hne & Ho & -> & HF).
    { apply (f_equal String.length) in Hp. rewrite string_length_app in Hp. destruct old; [done|]. simpl in *. lia. }
    exists ("" :: ps). rewrite !Join_cons by done. split_and!; [done|by rewrite Hp, Ho|done|].
    constructor; [|done]. simpl. unfold HasPrefix. by destruct old.
  - destruct (IH s) as ([|p ps] & Hne & Ho & -> & HF); [simpl in Hn; lia|done|].
    exists (String c p :: ps). assert (forall sep, Join (String c p :: ps) sep = String c (Join (p :: ps) sep)) as Hj by by destruct ps.
    rewrite !Hj, <- Ho. split_and!; [done..|]. apply Forall_cons in HF as [Hp1 HF]. constructor; [|done].
    rewrite Contains_cons, Hp1, orb_false_r. apply not_true_iff_false. intros [r Hr]%HasPrefix_true.
    assert (exists tl, s = p +:+ tl) as [tl ->].
    { rewrite Ho. destruct ps; [exists ""; by rewrite string_app_nil_r|]. eexists. by rewrite Join_cons. }
    change (String c (p +:+ tl)) with (String c p +:+ tl) in Hp. rewrite Hr, string_app_assoc, strip_prefix_app in Hp. done.
Qed.

Lemma image_name_untagged image : untagged image (image_name image).
Proof.
  unfold image_name. destruct (CutLast image ":") as [[name tag]|] eqn:Hc.
  - apply CutLast_Some in Hc as [Hf ->]. left. by exists tag.
  - apply CutLast_None in Hc. by right.
Qed.

Lemma upgraded_replaced result newTag older original : is_NewerTags result = newTag :: older ->
  upgraded result (image_name (is_Image result)) newTag original
    (ReplaceAll original (is_Image result) (image_name (is_Image result) +:+ ":" +:+ newTag)).
Proof.
  intros Hn. split_and!; [by exists older|apply image_name_untagged|]. intros Hne. by apply replace_fuel_replaced.
Qed.

Lemma rounds_app ws t cs ws' t' cs' : rounds ws t cs -> rounds ws' t' cs' -> rounds (ws ++ ws') (t ++ t') (cs ++ cs').
Proof.
  induction 1; [done|..]; intros; cbn; [eapply rounds_same|eapply rounds_written]; eauto.
Qed.
Lemma stopped_app ws t cs ws' t' : rounds ws t cs -> stopped ws' t' -> stopped (ws ++ ws') (t ++ t').
Proof.
  intros Hr (ws1 & result & path & ws2 & t1 & cs1 & t2 & -> & -> & Hr1 & Hend).
  exists (ws ++ ws1), result, path, ws2, (t ++ t1), (cs ++ cs1), t2. rewrite <- !(assoc_L (++)).
  split_and!; [done..|by apply rounds_app|done].
Qed.
Lemma stopped_more ws t ws' : stopped ws t -> stopped (ws ++ ws') t.
Proof.
  intros (ws1 & result & path & ws2 & t1 & cs1 & t2 & -> & -> & Hr1 & Hend).
  exists ws1, result, path, (ws2 ++ ws'), t1, cs1, t2. by rewrite <- (assoc_L (++)).
Qed.

(** From the changes so far. *)
Definition goes_on (ws : list (ImageStatus * string)) (changes : list FileChange)
    (t : list (obs image_effect)) (r : res (list FileChange)) : Prop :=
  match r with Ok cs => exists new, cs = changes ++ new /\ rounds ws t new | Err _ => stopped ws t end.

Lemma goes_on_nil changes : goes_on [] changes [] (Ok changes).
Proof. exists []. rewrite app_nil_r. split; [done|constructor]. Qed.

(** One step after the other. *)
Lemma for_each_goes_on {A} (step : list FileChange -> A -> images (res (list FileChange)))
    (todo : A -> list (ImageStatus * string)) l changes :
  (forall changes x, x ∈ l -> wp (step changes x) (goes_on (todo x) changes)) ->
  wp (for_each_res step changes l) (goes_on (l ≫= todo) changes).
Proof.
  revert changes. induction l as [|x l IH]; intros changes Hstep; cbn [for_each_res].
  { apply wp_ret, goes_on_nil. }
  apply wp_bind. eapply wp_mono; [apply Hstep; left|]. intros t [cs|e]; cbn [goes_on].
  - intros (new & -> & Hr). eapply wp_mono; [apply IH; intros; apply Hstep; by right|].
    intros t' [cs'|e'] Hg; cbn [goes_on] in Hg |- *.
    + destruct Hg as (new' & -> & Hr'). exists (new ++ new'). rewrite (assoc_L (++)). split; [done|by apply rounds_app].
    + by eapply stopped_app.
  - intros Hs. apply wp_ret. rewrite app_nil_r. cbn [goes_on]. by apply stopped_more.
Qed.

Lemma upgrade_file_goes_on result newTag older changes path : is_NewerTags result = newTag :: older ->
  wp (upgrade_file result newTag changes path) (goes_on [(result, path)] changes).
Proof.
  intros Hn. unfold upgrade_file, rewriteImageInFile. apply wp_bind, wp_bind. wp_doop. intros a.
  apply wp_try. destruct a as [original|e].
  2: { apply wp_ret. exists [], result, path, [], [], [], [Obs (ReadFile path) (Err e)].
       split_and!; [done|done|constructor|]. left. by exists e. }
  pose proof (upgraded_replaced result newTag older original Hn) as Hu. case_bool_decide as Heq.
  - apply wp_ret, wp_ret. exists []. rewrite !app_nil_r. split; [done|]. rewrite Heq in Hu.
    eapply rounds_same; [exact Hu|constructor].
  - apply wp_bind. wp_doop. intros w. apply wp_ret, wp_ret. rewrite !app_nil_r. destruct w as [[]|e].
    + eexists [_]. split; [done|]. eapply rounds_written; [exact Hu|done|constructor].
    + eexists [], result, path, [], [], [], _. split_and!; [done|done|constructor|].
      right. eexists original, _, _, newTag, e. by split_and!.
Qed.

Lemma bind_single {A B} (f : A -> B) l : (l ≫= fun x => [f x]) = f <$> l.
Proof. induction l as [|x l IH]; [done|]. rewrite bind_cons, IH. done. Qed.

Lemma work_each stackFiles results : (results ≫= fun result => work stackFiles [result]) = work stackFiles results.
Proof.
  induction results as [|r rs IH]; [done|]. rewrite !bind_cons, IH. unfold work at 1 3. simpl. by rewrite app_nil_r.
Qed.

(** C40: What an upgrade does, file by file.  The compose files of the stack of each
    result without error that has a newer tag are looked at in order; each is read, and
    when putting the newest tag in place of the present one makes a difference it is at
    once written, and one change reported, with its stack, service, file, image and tags;
    no other file is read or written and nothing else is reported.  What is written is
    what was read with every piece of text that reads like the image reference replaced,
    and all text between these pieces kept.  That is a replacement of text and not of
    references: longer names and tags that contain the reference change with it
    ([Upgrade_rewrites_other_images], upgrade.go:78).  The first file that cannot be read
    or written ends the upgrade with an error, and the files before it stay changed. *)
Theorem Upgrade_faithful stackFiles results : wp (Upgrade results stackFiles) (fun t r =>
  match r with
  | Ok changes => rounds (work stackFiles results) t changes
  | Err _ => stopped (work stackFiles results) t
  end).
Proof.
  eapply wp_mono; [apply (for_each_goes_on _ (fun result => work stackFiles [result]))|].
  - intros changes result _. unfold work, upgrade_result. simpl. rewrite app_nil_r.
    destruct (is_NewerTags result) as [|newTag older] eqn:Hn.
    { rewrite decide_False by naive_solver. apply wp_ret, goes_on_nil. }
    case_bool_decide as He; [rewrite decide_False by naive_solver; apply wp_ret, goes_on_nil|].
    rewrite decide_True by (split; [by destruct (decide (is_Error result = ""))|done]).
    eapply wp_mono; [apply (for_each_goes_on _ (fun path => [(result, path)]))|].
    + intros cs path _. by eapply upgrade_file_goes_on.
    + intros t r. by rewrite bind_single.
  - intros t [changes|e]; cbn [goes_on]; rewrite work_each; [|done]. by intros (new & -> & ?).
Qed.

(** The replacement is of text, not of references: upgrading [app:1.2] also rewrites
    longer tags and longer names that contain it. *)
Example Upgrade_rewrites_other_images :
  ReplaceAll ("image: app:1.2" +:+ Util.nl +:+ "image: app:1.25" +:+ Util.nl +:+ "image: myapp:1.2") "app:1.2" "app:1.9"
  = "image: app:1.9" +:+ Util.nl +:+ "image: app:1.95" +:+ Util.nl +:+ "image: myapp:1.9".
Proof. vm_compute. reflexivity. Qed.
