(* ===== verification/ImagesCmd.v ===== *)
(** * The image commands ([internal/cli/imagescmd])

    [dockform images check], [pull] and [upgrade]: what they look at, what they ask
    the registries, what they pull and what they write. *)

From S2P Require Import Prelude GoStrings GoPath Apperr Util Manifest Discovery Validation Targets Filesets Effects Docker ClientResources ServiceState Resource Plan Validator Prompt Session Registry Images.
From Stdlib Require Import Ascii.

(** ** Effects *)

(** An operation of a session, one of the image check, one of the docker client
    that the planner does not use. *)
Inductive imgcmd_op : Type :=
| OfSession (o : session_op)
| OfImages (o : image_op)
| ContainerImages (d : DockerClient)
| RepoDigests (d : DockerClient) (imageIDs : list string)
| InspectDigests (d : DockerClient) (image : string)
| PullServices (d : DockerClient) (a : ComposeArgs) (project : string) (services : list string).
Canonical Structure imgcmd : Effect := mkEffect imgcmd_op (fun o => match o with
  | OfSession o => answer (o : session)
  | OfImages o => answer (o : image_effect)
  | ContainerImages _ | RepoDigests _ _ => res (gmap string string)
  | InspectDigests _ _ => res (list string)
  | PullServices _ _ _ _ => res string
  end).
Notation icmd A := (tree imgcmd A).

Definition of_session {A} : cmd A -> icmd A := embed (E := session) (F := imgcmd) OfSession (fun _ r => r).
Definition docker_call (d : DockerClient) (q : call) : icmd (resp q) :=
  do_op (E := imgcmd) (OfSession (Planned (On d q))).
Definition print (line : string) : icmd unit := do_op (E := imgcmd) (OfSession (Print line)).

(** ** What to check *)

Definition tagPatternLabel : string := "dockform.tag_pattern".

Record tagPatternIssue := mkIssue { ti_stack : string; ti_service : string; ti_pattern : string }.

Definition issue_le (a b : tagPatternIssue) : Prop :=
  if bool_decide (ti_stack a <> ti_stack b) then String.le (ti_stack a) (ti_stack b)
  else String.le (ti_service a) (ti_service b).
#[global] Instance issue_le_dec : RelDecision issue_le.
Proof. intros a b. unfold issue_le. case_bool_decide; apply _. Defined.

Section Inputs.
Context `{MapRange}.

Definition unanchoredTagPatterns (inputs : list CheckInput) : list tagPatternIssue :=
  merge_sort issue_le (inputs ≫= fun input =>
    omap (fun e => if bool_decide (ss_TagPattern e.2 <> "") && negb (HasSuffix (ss_TagPattern e.2) "$")
                   then Some (mkIssue (ci_StackKey input) e.1 (ss_TagPattern e.2)) else None)
      (map_range "unanchored patterns" (ci_Services input))).

Definition stack_args (stack : Stack) : ComposeArgs :=
  mkComposeArgs (st_RootAbs stack) (st_Files stack) (st_Profiles stack) (st_EnvFile stack) (st_EnvInline stack).

(** The services of a compose project that have an image. *)
Definition image_services (doc : ComposeConfigDoc) : gmap string ServiceSpec :=
  omap (fun svc => if bool_decide (cs_Image svc = "") then None
                   else Some (mkSpec (cs_Image svc) (default "" (cs_Labels svc !! tagPatternLabel)))) doc.

Definition check_input (allStacks : gmap string Stack) (inputs : list CheckInput) (stackKey : string)
  : icmd (res (list CheckInput)) :=
  match allStacks !! stackKey with
  | None => mret (Ok inputs)
  | Some stack =>
      match ParseStackKey stackKey with
      | Err e => mret (Err e)
      | Ok (ctxName, _) =>
          r ← docker_call ctxName (ComposeConfigFull (stack_args stack));
          mret (match r with
                | Err e => Err (wrap "imagescmd.buildCheckInputs" External e
                                  "failed to get compose config for stack %s" [stackKey])
                | Ok doc =>
                    let services := image_services doc in
                    Ok (if bool_decide (services = ∅) then inputs
                        else inputs ++ [mkInput stackKey services])
                end)
      end
  end.

Definition buildCheckInputs (cfg : Config) : icmd (res (list CheckInput)) :=
  let allStacks := GetAllStacks cfg in
  for_each_res (check_input allStacks) [] (sorted_keys allStacks).

(** ** Narrowing to services *)

Definition formatServiceNames (names : list string) : string :=
  Join ((fun n => dq +:+ n +:+ dq) <$> names) ", ".

Definition input_le (a b : CheckInput) : Prop := String.le (ci_StackKey a) (ci_StackKey b).
#[local] Instance input_le_dec : RelDecision input_le.
Proof. intros a b. unfold input_le. apply _. Defined.

Definition formatAvailableServices (inputs : list CheckInput) : string :=
  match inputs with
  | [] => "  (none — scope is empty)"
  | _ => Join ((fun i => "  " +:+ ci_StackKey i +:+ ": " +:+ Join (sorted_keys (ci_Services i)) ", ")
                 <$> merge_sort input_le inputs) nl
  end.

Definition keep_services (wanted : list string) (input : CheckInput) : option CheckInput :=
  let kept := filter (fun e : string * ServiceSpec => e.1 ∈ wanted) (ci_Services input) in
  if bool_decide (kept = ∅) then None else Some (mkInput (ci_StackKey input) kept).

Definition filterInputsByServices (inputs : list CheckInput) (serviceNames : list string)
  : res (list CheckInput) :=
  match serviceNames with
  | [] => Ok inputs
  | _ =>
      match omap (keep_services serviceNames) inputs with
      | [] => Err (New "imagescmd.filterInputsByServices" InvalidInput
                     ("no services matched %s" +:+ nl +:+ nl +:+ "available services:" +:+ nl +:+ "%s")
                     [formatServiceNames serviceNames; formatAvailableServices inputs])
      | filtered => Ok filtered
      end
  end.
End Inputs.

(** ** Local digests *)

Record ctxCache := mkCtxCache {
  cc_containerImageID : gmap string string; cc_imageDigest : gmap string string }.

(** The non-empty image IDs, each once. *)
Definition unique_ids (ids : list string) : list string :=
  foldl (fun acc id => if bool_decide (id = "") || bool_decide (id ∈ acc) then acc else acc ++ [id]) [] ids.

Definition effectiveProjectName (stack : Stack) : string :=
  match st_Project stack with
  | Some p => if bool_decide (proj_Name p <> "") then ToLower (proj_Name p) else ToLower (Base (st_RootAbs stack))
  | None => ToLower (Base (st_RootAbs stack))
  end.

Section Digests.
Context `{MapRange} (cfg : Config).

Definition populate (ctxName : string) : icmd ctxCache :=
  r ← do_op (ContainerImages ctxName);
  match r with
  | Err _ => mret (mkCtxCache ∅ ∅)
  | Ok containerMap =>
      match unique_ids (map_range "container images" containerMap).*2 with
      | [] => mret (mkCtxCache containerMap ∅)
      | imageIDs =>
          d ← do_op (RepoDigests ctxName imageIDs);
          mret (mkCtxCache containerMap (match d with Ok m => m | Err _ => ∅ end))
      end
  end.

(** The digest of the running container, or else of the stored image; empty when
    neither is known. *)
Definition local_digest (cache : gmap string ctxCache) (stackKey service imageRef : string)
  : icmd (gmap string ctxCache * string) :=
  match ParseStackKey stackKey with
  | Err _ => mret (cache, "")
  | Ok (ctxName, _) =>
      cc ← match cache !! ctxName with Some cc => mret cc | None => populate ctxName end;
      let cache := <[ctxName := cc]> cache in
      let proj := effectiveProjectName (default empty_stack (GetAllStacks cfg !! stackKey)) in
      let imageID := default "" (cc_containerImageID cc !! (proj +:+ "|" +:+ service)) in
      let digest := if bool_decide (imageID = "") then "" else default "" (cc_imageDigest cc !! imageID) in
      if bool_decide (digest <> "") then mret (cache, digest) else
      out ← do_op (InspectDigests ctxName imageRef);
      mret (cache, match out with Ok rds => default "" (repo_digest rds) | Err _ => "" end)
  end.

Definition digest_key (stackKey service : string) : string := stackKey +:+ "|" +:+ service.

Definition prefetchLocalDigests (inputs : list CheckInput) : icmd (gmap string string) :=
  r ← for_each (fun st (e : string * (string * ServiceSpec)) =>
        let '(cache, out) := st in
        let '(stackKey, (svcName, spec)) := e in
        let key := digest_key stackKey svcName in
        match out !! key with
        | Some _ => mret (cache, out)
        | None => d ← local_digest cache stackKey svcName (ss_Image spec);
                  mret (d.1, <[key := d.2]> out)
        end) (∅ : gmap string ctxCache, ∅ : gmap string string)
      (inputs ≫= fun input => (fun e => (ci_StackKey input, e))
                                <$> map_range "prefetch" (ci_Services input));
  mret r.2.
End Digests.

(** The check asks for local digests; they were fetched before. *)
Definition local_answer (digests : gmap string string) (o : image_effect) : icmd (answer o) :=
  match o return icmd (answer o) with
  | LocalDigest stackKey service _ => mret (Ok (default "" (digests !! digest_key stackKey service)))
  | o => do_op (E := imgcmd) (OfImages o)
  end.
Definition with_digests {A} (digests : gmap string string) (p : images A) : icmd A :=
  snd <$> interp (fun (st : unit) o => r ← local_answer digests o; mret (st, r)) p tt.

(** ** The commands *)

(** The reports printed at the end; their layout is left out. *)
Inductive report :=
| CheckReport (results : list ImageStatus)
| PullReport (stale : list ImageStatus) (recreate dry : bool)
| UpgradeReport (results : list ImageStatus) (changes : list FileChange) (dry : bool)
| NoImages | NoDrift.

Section ImageCommands.
Context (h : Host) (decode_contexts : string -> res (gmap string unit)) (decode : string -> res Config).
Context (labelStyle : string -> string).
Context `{MapRange} `{Schedule} `{Styles} `{Semver} `{Regexp} `{SortSlice}.

(** What the three commands have in common, up to the results of the check; [None]
    when there is nothing to check. *)
Definition image_results (fl : Flags) (args : list string)
  : icmd (res (option (Config * list CheckInput * list ImageStatus))) :=
  r ← of_session (LoadConfigWithWarnings h decode_contexts decode (fl_manifest fl));
  try (r ≫= fun cfg => if IsEmpty (fl_targets fl) then Ok cfg else ResolveTargets cfg (fl_targets fl))
    id (fun cfg =>
  _ ← of_session (DisplayDaemonInfo labelStyle cfg);
  r ← of_session (EnsureContextsReachable cfg);
  try r id (fun _ =>
  r ← buildCheckInputs cfg;
  try r id (fun inputs =>
  match inputs with
  | [] => _ ← print "No stacks with images found."; mret (Ok None)
  | _ =>
      try (filterInputsByServices inputs args) id (fun inputs =>
      digests ← prefetchLocalDigests cfg inputs;
      results ← with_digests digests (Check inputs);
      mret (Ok (Some (cfg, inputs, results))))
  end))).

Definition issue_warning (i : tagPatternIssue) : string :=
  "tag_pattern for " +:+ ti_stack i +:+ "/" +:+ ti_service i +:+ " (" +:+ Quote (ti_pattern i)
  +:+ ") is not anchored with '$'; Compose needs '$$' for a literal '$' (a lone '$' is consumed). If intentional, ignore. See https://docs.docker.com/reference/compose-file/interpolation/".

Definition runCheck (fl : Flags) (args : list string) : icmd (res report) :=
  r ← image_results fl args;
  try r id (fun r =>
  match r with
  | None => mret (Ok NoImages)
  | Some (_, inputs, results) =>
      _ ← for_each (fun _ i => do_op (E := imgcmd) (OfSession (Warn (issue_warning i)))) tt
            (unanchoredTagPatterns inputs);
      mret (Ok (CheckReport results))
  end).

Record stackPullGroup := mkPullGroup { pg_stackKey : string; pg_stack : Stack; pg_services : list string }.

(** The stale images, grouped by stack, the stacks in order. *)
Definition groupByStackForPull (stale : list ImageStatus) (allStacks : gmap string Stack)
  : list stackPullGroup :=
  (fun key => mkPullGroup key (default empty_stack (allStacks !! key))
                (is_Service <$> filter (fun r => is_Stack r = key) stale))
  <$> sort_strings (remove_dups (is_Stack <$> stale)).

Definition pull_group (recreate : bool) (g : stackPullGroup) : icmd (res unit) :=
  match ParseStackKey (pg_stackKey g) with
  | Err e => mret (Err e)
  | Ok (ctxName, _) =>
      let projName := match st_Project (pg_stack g) with Some p => proj_Name p | None => "" end in
      r ← do_op (PullServices ctxName (stack_args (pg_stack g)) projName (pg_services g));
      match r with
      | Err e => mret (Err e)
      | Ok _ =>
          if recreate then
            r ← docker_call ctxName (ComposeUp (stack_args (pg_stack g)) projName);
            mret (match r with Err e => Err e | Ok _ => Ok tt end)
          else mret (Ok tt)
      end
  end.

Definition executePull (stale : list ImageStatus) (allStacks : gmap string Stack) (recreate : bool)
  : icmd (res unit) :=
  for_each_res (fun _ g => pull_group recreate g) tt (groupByStackForPull stale allStacks).

(** Same tag, other content. *)
Definition drifted (r : ImageStatus) : Prop :=
  is_DigestStale r = true /\ is_NewerTags r = [] /\ is_Error r = "".

Definition runPull (fl : Flags) (args : list string) (dryRun recreate : bool) : icmd (res report) :=
  r ← image_results fl args;
  try r id (fun r =>
  match r with
  | None => mret (Ok NoImages)
  | Some (cfg, _, results) =>
      let stale := filter drifted results in
      if bool_decide (stale = []) then
        _ ← print (render styleAdd "✓" +:+ "  All images are current — no digest drift detected."); mret (Ok NoDrift)
      else if dryRun then mret (Ok (PullReport stale recreate true))
      else
        r ← executePull stale (GetAllStacks cfg) recreate;
        mret (match r with Err e => Err e | Ok _ => Ok (PullReport stale recreate false) end)
  end).

Definition buildStackFiles (cfg : Config) : gmap string (list string) :=
  (fun stack => (fun f => if IsAbs f then f else PathJoin [st_RootAbs stack; f]) <$> st_Files stack)
  <$> GetAllStacks cfg.

Definition of_images {A} : images A -> icmd A :=
  embed (E := image_effect) (F := imgcmd) OfImages (fun _ r => r).

Definition runUpgrade (fl : Flags) (args : list string) (dryRun : bool) : icmd (res report) :=
  r ← image_results fl args;
  try r id (fun r =>
  match r with
  | None => mret (Ok NoImages)
  | Some (cfg, _, results) =>
      if dryRun then mret (Ok (UpgradeReport results [] true))
      else
        r ← of_images (Upgrade results (buildStackFiles cfg));
        mret (match r with Err e => Err e | Ok changes => Ok (UpgradeReport results changes false) end)
  end).
End ImageCommands.

(** The image name without its tag, for display. *)
Definition imageNameWithoutTag (image : string) : string :=
  let '(dir, nameTag) := match CutLast image "/" with Some (d, n) => (d +:+ "/", n) | None => ("", image) end in
  match CutLast nameTag ":" with Some (n, _) => dir +:+ n | None => image end.

(** ** Properties *)

(** Nothing changes: not a daemon, not a file. *)
Definition image_reads (o : obs imgcmd) : Prop :=
  match o with
  | Obs (OfSession o) r => session_reads (Obs o r)
  | Obs (OfImages (WriteFile _ _)) _ => False
  | Obs (PullServices _ _ _ _) _ => False
  | _ => True
  end.

Definition no_write (o : obs image_effect) : Prop :=
  match o with Obs (WriteFile _ _) _ => False | _ => True end.

Lemma Check_no_write `{Semver} `{Regexp} `{SortSlice} `{Schedule} inputs : always no_write (Check inputs).
Proof.
  unfold Check. apply always_bind; [|intros; apply always_ret]. apply always_for_each. intros m [i j] _.
  apply always_bind; [|intros; apply always_ret]. unfold run_job, checkImage, findNewerTags.
  repeat always_tree_step.
Qed.

Lemma with_digests_reads {A} digests (p : images A) : always no_write p -> always image_reads (with_digests digests p).
Proof.
  intros Hp. unfold with_digests. apply (always_bind (E := imgcmd)); [|intros; apply always_ret].
  apply (always_interp _ no_write); [exact Hp|]. intros st o. apply wp_bind. unfold local_answer.
  destruct o; try (wp_doop; intros r; apply wp_ret; intros Hr; constructor; [done|done]).
  by apply wp_ret, wp_ret.
Qed.

Lemma of_session_reads {A} (p : cmd A) : always session_reads p -> always image_reads (of_session p).
Proof. intros Hp. apply (always_embed _ _ session_reads); [exact Hp|]. by intros e r. Qed.

Lemma buildCheckInputs_reads cfg : always image_reads (buildCheckInputs cfg).
Proof. unfold buildCheckInputs, check_input, docker_call. repeat always_tree_step. Qed.

Lemma prefetch_reads `{MapRange} cfg inputs : always image_reads (prefetchLocalDigests cfg inputs).
Proof.
  unfold prefetchLocalDigests. apply always_bind; [|intros; apply always_ret].
  apply always_for_each. intros [cache out] (stackKey & svc & spec) _.
  unfold local_digest, populate. repeat always_tree_step.
Qed.

Section CommandFacts.
Context (h : Host) (decode_contexts : string -> res (gmap string unit)) (decode : string -> res Config).
Context (labelStyle : string -> string).
Context `{MapRange} `{Schedule} `{Styles} `{Semver} `{Regexp} `{SortSlice}.

Lemma image_results_reads fl args :
  always image_reads (image_results h decode_contexts decode labelStyle fl args).
Proof.
  assert (forall A (p : cmd A), always quiet p -> always image_reads (of_session p)) as Hq.
  { intros A p Hp. apply of_session_reads. eapply always_mono; [exact Hp|]. apply quiet_reads. }
  unfold image_results. apply always_bind; [apply Hq, LoadConfig_quiet|]. intros r. apply always_try. intros cfg _.
  apply always_bind; [apply Hq, Display_quiet|]. intros _.
  apply always_bind; [apply Hq, EnsureContextsReachable_quiet|]. intros r1. apply always_try. intros _ _.
  apply always_bind; [apply buildCheckInputs_reads|]. intros r2. apply always_try. intros inputs _.
  destruct inputs as [|i l]; [unfold print; repeat always_tree_step|]. apply always_try. intros inputs _.
  apply always_bind; [apply prefetch_reads|]. intros digests.
  apply always_bind; [apply with_digests_reads, Check_no_write|]. intros results. apply always_ret.
Qed.

(** Looking at images changes nothing.  [images check], [images pull --dry-run]
    and [images upgrade --dry-run] issue only reading calls, pull nothing and write
    no file, whatever daemons and registries answer. *)
Theorem image_dry_runs_read fl args recreate :
  always image_reads (runCheck h decode_contexts decode labelStyle fl args)
  /\ always image_reads (runPull h decode_contexts decode labelStyle fl args true recreate)
  /\ always image_reads (runUpgrade h decode_contexts decode labelStyle fl args true).
Proof.
  split_and!; unfold runCheck, runPull, runUpgrade;
    (apply always_bind; [apply image_results_reads|]); intros r; apply always_try;
    intros [[[cfg inputs] results]|] _; try apply always_ret.
  - repeat always_tree_step.
  - case_bool_decide; unfold print; repeat always_tree_step.
Qed.

(** What a pull may do: pull, and bring up after that, the drifted services of a
    stack on the daemon of its context. *)
Definition pull_entitled (dryRun recreate : bool) (results : list ImageStatus) (o : obs imgcmd) : Prop :=
  image_reads o \/ dryRun = false /\ exists key name stack services,
    services = is_Service <$> filter (fun r => is_Stack r = key) (filter drifted results)
    /\ services <> []
    /\ match o with
       | Obs (PullServices d a _ svcs) _ => ParseStackKey key = Ok (d, name) /\ svcs = services
                                           /\ a = stack_args stack
       | Obs (OfSession (Planned (On d (ComposeUp a _)))) _ =>
           ParseStackKey key = Ok (d, name) /\ recreate = true /\ a = stack_args stack
       | _ => False
       end.

Lemma executePull_entitled results allStacks recreate :
  always (pull_entitled false recreate results) (executePull (filter drifted results) allStacks recreate).
Proof.
  unfold executePull. apply always_for_each_res. intros _ g Hg. unfold groupByStackForPull in Hg.
  apply list_elem_of_fmap in Hg as (key & -> & Hk). unfold pull_group. cbn [pg_stackKey pg_stack pg_services].
  destruct (ParseStackKey key) as [[ctx name]|e] eqn:Hp; [|apply always_ret].
  rewrite elem_of_sort_strings, elem_of_remove_dups in Hk. apply list_elem_of_fmap in Hk as (r & Hr & Hin).
  set (services := is_Service <$> filter _ _).
  assert (services <> []) as Hne.
  { assert (is_Service r ∈ services) as Hs
      by (apply list_elem_of_fmap_2, list_elem_of_filter; by split).
    intros Heq. rewrite Heq in Hs. by apply elem_of_nil in Hs. }
  apply always_bind.
  { refine (always_op (E := imgcmd) _ (PullServices _ _ _ _) _). intros a. right. split; [done|].
    by exists key, name, (default empty_stack (allStacks !! key)), services. }
  intros [out|e]; [|apply always_ret]. destruct recreate; [|apply always_ret].
  apply always_bind; [|intros; apply always_ret].
  refine (always_op (E := imgcmd) _ (OfSession (Planned (On ctx (ComposeUp _ _)))) _). intros a.
  right. split; [done|]. by exists key, name, (default empty_stack (allStacks !! key)), services.
Qed.

(** [images pull] pulls only images whose content changed under the same tag.
    Whatever daemons and registries answer, everything that is not a reading call is
    the pull of the drifted services of one stack, on the daemon of that stack's
    context, or with [--recreate] the compose up of that stack; with [--dry-run]
    there is none. *)
Theorem runPull_only_drifted fl args dryRun recreate :
  wp (runPull h decode_contexts decode labelStyle fl args dryRun recreate) (fun t _ =>
    exists results, Forall (pull_entitled dryRun recreate results) t).
Proof.
  assert (forall t (results : list ImageStatus), Forall image_reads t ->
    Forall (pull_entitled dryRun recreate results) t) as Hread.
  { intros t rs Ht. eapply Forall_impl; [exact Ht|]. intros o. by left. }
  unfold runPull. apply wp_bind. eapply wp_mono; [apply image_results_reads|]. intros t r Ht. simpl in Ht.
  apply wp_try. destruct r as [[[[cfg inputs] results]|]|e];
    [|apply wp_ret; exists []; rewrite app_nil_r; by apply Hread|exists []; rewrite app_nil_r; by apply Hread].
  assert (forall (p : icmd (res report)), always image_reads p ->
    wp p (fun t' _ => exists results, Forall (pull_entitled dryRun recreate results) (t ++ t'))) as Hp.
  { intros p Hp. eapply wp_mono; [exact Hp|]. intros t' a Ht'. exists []. by apply Hread, Forall_app. }
  case_bool_decide; [apply Hp; unfold print; repeat always_tree_step|].
  destruct dryRun; [apply Hp, always_ret|]. apply wp_bind.
  eapply wp_mono; [apply executePull_entitled|]. intros t' r Ht'. apply wp_ret. rewrite app_nil_r.
  exists results. apply Forall_app. split; [by apply Hread|]. exact Ht'.
Qed.
End CommandFacts.
