(* ===== verification/ImagesReport.v ===== *)
(** * The reports of the image commands ([internal/cli/imagescmd]: [renderTerminal],
    [renderJSON], [renderUpgradeTerminal], [renderPullDryRun], [renderPullTerminal])

    What is printed of the results of a check, an upgrade and a pull, line by line:
    which image goes into which table, and how the columns are laid out. *)

From S2P Require Import Prelude GoStrings GoUtf8 GoPath Apperr Util Manifest Effects Docker Resource Images ImagesCmd.
From Stdlib Require Import Ascii.

(** ** Check *)

Section Check.
(** The styles of the [ui] package, and those the command makes for itself. *)
Context `{Styles} (headerStyle labelStyle iconStyle : string -> string).

Definition YellowText (s : string) : string := render styleChange s.
Definition GreenText (s : string) : string := render styleAdd s.
Definition dimStyle (s : string) : string := render styleMuted s.

Definition needs_attention (r : ImageStatus) : bool :=
  bool_decide (is_Error r <> "") || is_DigestStale r || (0 <? length (is_NewerTags r)).

(** The widest of a column, in bytes, and not less than its title. *)
Definition widest (title : string) (cells : list string) : nat :=
  foldl (fun w c => if w <? String.length c then String.length c else w) (String.length title) cells.

Definition computeBaseWidths (rows : list ImageStatus) : nat * nat * nat :=
  (widest "STACK" (is_Stack <$> rows), widest "IMAGE" ((fun r => imageNameWithoutTag (is_Image r)) <$> rows),
   widest "TAG" (is_CurrentTag <$> rows)).

Definition upgradeCellRaw (r : ImageStatus) : string :=
  match is_NewerTags r with
  | newest :: _ => newest
  | [] => if is_HasTagPattern r then "-" else "unknown"
  end.

Definition upgradeCellStyled (r : ImageStatus) (width : nat) : string :=
  let padded := pad_right width (upgradeCellRaw r) in
  match is_NewerTags r with
  | _ :: _ => YellowText padded
  | [] => if is_HasTagPattern r then padded else dimStyle padded
  end.

(** The cells that every row of a table begins with. *)
Definition base_cells (widths : nat * nat * nat) (stack image tag : string) : list string :=
  let '(wStack, wImage, wTag) := widths in [pad_right wStack stack; pad_right wImage image; pad_right wTag tag].
Definition row_base (widths : nat * nat * nat) (r : ImageStatus) : list string :=
  base_cells widths (is_Stack r) (imageNameWithoutTag (is_Image r)) (is_CurrentTag r).
Definition table_line (cells : list string) : string := "  " +:+ Join cells "  ".

Definition wUpgrade (rows : list ImageStatus) : nat :=
  widest "UPGRADE" (upgradeCellRaw <$> filter (fun r => is_Error r = "") rows).

Definition attention_cells (widths : nat * nat * nat) (wUp : nat) (r : ImageStatus) : list string :=
  row_base widths r ++
  if bool_decide (is_Error r <> "") then [YellowText ("! " +:+ is_Error r)]
  else [upgradeCellStyled r wUp; if is_DigestStale r then YellowText "changed" else "-"].

Definition renderAttentionTable (rows : list ImageStatus) : list string :=
  let widths := computeBaseWidths rows in
  let wUp := wUpgrade rows in
  table_line ((headerStyle <$> base_cells widths "STACK" "IMAGE" "TAG")
              ++ [headerStyle (pad_right wUp "UPGRADE"); headerStyle "DIGEST"])
  :: ((fun r => table_line (attention_cells widths wUp r)) <$> rows).

Definition ok_status (r : ImageStatus) : string :=
  GreenText "up to date" +:+ (if is_HasTagPattern r then "" else "  " +:+ dimStyle "no tag_pattern").

Definition renderOkTable (rows : list ImageStatus) : list string :=
  let widths := computeBaseWidths rows in
  table_line ((headerStyle <$> base_cells widths "STACK" "IMAGE" "TAG") ++ [headerStyle "STATUS"])
  :: ((fun r => table_line (row_base widths r ++ [ok_status r])) <$> rows).

Definition count (n : nat) : string := FormatInt (Z.of_nat n).

Definition missing_pattern (r : ImageStatus) : bool := bool_decide (is_Error r = "") && negb (is_HasTagPattern r).
Definition pattern_footer : list string :=
  [nl +:+ iconStyle "ℹ" +:+ "  " +:+ dimStyle "Rows marked " +:+ dimStyle (dq +:+ "no tag_pattern" +:+ dq)
     +:+ dimStyle " are only checked for digest drift.";
   dimStyle "   Add a " +:+ labelStyle tagPatternLabel +:+ dimStyle " label to the service to track newer tags."].

(** The lines of the report. *)
Definition renderTerminal (results : list ImageStatus) (showAll : bool) : list string :=
  match results with
  | [] => ["No images found."]
  | _ =>
      let attention := filter (fun r => needs_attention r = true) results in
      let ok := filter (fun r => needs_attention r = false) results in
      (if 0 <? length attention
       then (YellowText "⚠" +:+ "  " +:+ count (length attention) +:+ " image(s) need attention" +:+ nl)
            :: renderAttentionTable attention
       else [])
      ++ (if 0 <? length ok then
            (if 0 <? length attention then [""] else [])
            ++ (if showAll
                then (GreenText "✓" +:+ "  " +:+ count (length ok) +:+ " image(s) up to date" +:+ nl) :: renderOkTable ok
                else [GreenText "✓" +:+ "  " +:+ count (length ok) +:+ " image(s) up to date  "
                      +:+ dimStyle "(--all to show)"])
          else [])
      ++ (if existsb missing_pattern results then pattern_footer else [])
  end.
End Check.

(** The rows of the machine readable report; [newer_tags] and [error] are left out when
    they are empty.  Encoding them is a library's. *)
Record jsonResult := mkJson {
  js_stack : string; js_service : string; js_image : string; js_current_tag : string;
  js_digest_changed : bool; js_newer_tags : option (list string); js_error : option string }.
Definition json_row (r : ImageStatus) : jsonResult :=
  mkJson (is_Stack r) (is_Service r) (is_Image r) (is_CurrentTag r) (is_DigestStale r)
    (match is_NewerTags r with [] => None | tags => Some tags end)
    (if bool_decide (is_Error r = "") then None else Some (is_Error r)).
Definition renderJSON (encode : list jsonResult -> res string) (results : list ImageStatus) : res string :=
  match encode (json_row <$> results) with
  | Ok out => Ok out
  | Err e => Err (wrap "imagescmd.renderJSON" Internal e "failed to encode JSON output" [])
  end.

(** ** Upgrade *)

Section Upgrade.
Context `{Styles} `{SortSlice} (cmdStyle : string -> string).

(** The results by stack, in the order in which the stacks first appear. *)
Record stackGroup := mkGroup { sg_key : string; sg_results : list ImageStatus }.
Definition stack_groups (results : list ImageStatus) : list stackGroup :=
  (fun key => mkGroup key (filter (fun r => is_Stack r = key) results)) <$> dedup (is_Stack <$> results).
Definition group_less (a b : stackGroup) : bool := negb (bool_decide (String.le (sg_key b) (sg_key a))).

(** The last change of a service wins. *)
Definition change_of (changes : list FileChange) (r : ImageStatus) : option FileChange :=
  last (filter (fun c => fc_StackKey c = is_Stack r /\ fc_Service c = is_Service r) changes).

Definition not_found (change : string) : string :=
  "  " +:+ pad_right 40 change +:+ " " +:+ YellowText "⚠" +:+ " tag not found in compose file".

Definition upgrade_line (changes : list FileChange) (stackFiles : gmap string (list string)) (dryRun : bool)
    (r : ImageStatus) : string :=
  if bool_decide (is_Error r <> "")
  then "  " +:+ pad_right 40 (is_Image r) +:+ " " +:+ YellowText "⚠" +:+ " " +:+ is_Error r else
  match is_NewerTags r with
  | newTag :: _ =>
      let imageName := match CutLast (is_Image r) ":" with Some (n, _) => n | None => is_Image r end in
      let change := is_Image r +:+ " → " +:+ imageName +:+ ":" +:+ newTag in
      match change_of changes r with
      | Some fc => "  " +:+ change +:+ "   (" +:+ Base (fc_File fc) +:+ " updated)"
      | None =>
          if dryRun then
            match default [] (stackFiles !! is_Stack r) with
            | _ :: _ => "  " +:+ change +:+ "   (dry run)"
            | [] => not_found change
            end
          else not_found change
      end
  | [] =>
      if is_DigestStale r
      then "  " +:+ pad_right 40 (is_Image r) +:+ " " +:+ YellowText "⚠"
           +:+ " no tag_pattern configured — run `docker compose pull`"
      else "  " +:+ pad_right 40 (is_Image r) +:+ " " +:+ GreenText "✓" +:+ " already latest"
  end.

Definition group_lines changes stackFiles dryRun (i : nat) (g : stackGroup) : list string :=
  (if (0 <? i)%nat then [""] else [])
  ++ render styleBold (sg_key g) :: (upgrade_line changes stackFiles dryRun <$> sg_results g).

Definition renderUpgradeTerminal (results : list ImageStatus) (changes : list FileChange)
    (stackFiles : gmap string (list string)) (dryRun : bool) : list string :=
  match results with
  | [] => ["No images found."]
  | _ =>
      concat (imap (group_lines changes stackFiles dryRun) (sort_slice group_less (stack_groups results)))
      ++ (if (0 <? length changes)%nat && negb dryRun
          then [nl +:+ dimStyle "Run " +:+ cmdStyle "dockform apply" +:+ dimStyle " to publish the changes."] else [])
  end.
End Upgrade.

(** ** Pull *)

Section Pull.
Context `{Styles}.

(** The images, under a line for each stack. *)
Fixpoint pull_rows (mark lastStack : string) (stale : list ImageStatus) : list string :=
  match stale with
  | [] => []
  | r :: stale =>
      (if bool_decide (is_Stack r <> lastStack)
       then (if bool_decide (lastStack <> "") then [""] else []) ++ [render styleBold (is_Stack r)] else [])
      ++ ("  " +:+ mark +:+ "  " +:+ is_Image r) :: pull_rows mark (is_Stack r) stale
  end.

Definition renderPullDryRun (stale : list ImageStatus) (recreate : bool) : list string :=
  (YellowText "⚠" +:+ "  " +:+ count (length stale) +:+ " image(s) with digest drift (dry run)" +:+ nl)
  :: pull_rows (YellowText "→") "" stale
  ++ [nl +:+ if recreate then "Containers would be recreated after pull."
             else "Pass --recreate to restart containers with the new images."].

Definition renderPullTerminal (stale : list ImageStatus) (recreate : bool) : list string :=
  pull_rows (GreenText "✓") "" stale ++ [""]
  ++ (if recreate then [GreenText "✓" +:+ "  " +:+ count (length stale) +:+ " image(s) pulled and containers recreated."]
      else [GreenText "✓" +:+ "  " +:+ count (length stale) +:+ " image(s) pulled.";
            YellowText "→" +:+ "  Pass --recreate to restart containers with the new images."]).
End Pull.

(** ** The layout *)

Lemma widest_bound title cells :
  String.length title <= widest title cells /\ Forall (fun c => String.length c <= widest title cells) cells.
Proof.
  unfold widest. generalize (String.length title) as w. induction cells as [|c cells IH]; intros w; [done|].
  cbn [foldl]. destruct (IH (if w <? String.length c then String.length c else w)) as [Hw Hc].
  destruct (Nat.ltb_spec w (String.length c)); split; try lia; constructor; done || lia.
Qed.

Lemma padded_cell title cells c : c = title \/ c ∈ cells ->
  rune_count (pad_right (widest title cells) c) = widest title cells.
Proof.
  intros Hc. apply rune_count_pad. pose proof (rune_count_le c). destruct (widest_bound title cells) as [Ht Hall].
  destruct Hc as [->|Hc]; [lia|]. rewrite Forall_forall in Hall. specialize (Hall c Hc). lia.
Qed.

(** The columns of a table line up.  In every row, and in the line of the titles, a
    cell takes exactly as many runes as its column is wide, so that the cells of a
    column all begin at the same place, whatever the names contain. *)
Theorem table_columns_aligned rows r : r ∈ rows ->
  let widths := computeBaseWidths rows in
  rune_count <$> row_base widths r = [widths.1.1; widths.1.2; widths.2]
  /\ rune_count <$> base_cells widths "STACK" "IMAGE" "TAG" = [widths.1.1; widths.1.2; widths.2]
  /\ rune_count (pad_right (wUpgrade rows) "UPGRADE") = wUpgrade rows
  /\ (is_Error r = "" -> rune_count (pad_right (wUpgrade rows) (upgradeCellRaw r)) = wUpgrade rows).
Proof.
  intros Hr. cbv zeta. unfold row_base, base_cells, computeBaseWidths. cbn [fmap list_fmap fst snd].
  rewrite !padded_cell by (first [by left | right; by apply list_elem_of_fmap_2
    | right; by apply (list_elem_of_fmap_2 (fun r => imageNameWithoutTag (is_Image r)))]).
  split; [done|]. split; [done|]. unfold wUpgrade. split; [apply padded_cell; by left|].
  intros He. apply padded_cell. right. apply list_elem_of_fmap_2, list_elem_of_filter. done.
Qed.

Definition status (stack image tag : string) (stale : bool) (newer : list string) : ImageStatus :=
  mkStatus stack "web" image tag stale newer true "".
Definition two_results : list ImageStatus :=
  [status "far/shop" "nginx:1.25" "1.25" false ["1.27"]; status "near/blög" "ghost:5" "5" true []].

Lemma table_columns_aligned_witness :
  renderTerminal (fun s => s) (fun s => s) (fun s => s) two_results false
  = ["⚠  2 image(s) need attention" +:+ nl;
     "  STACK       IMAGE  TAG   UPGRADE  DIGEST";
     "  far/shop    nginx  1.25  1.27     -";
     "  near/blög   ghost  5     -        changed"]
  /\ rune_count <$> row_base (computeBaseWidths two_results) (status "near/blög" "ghost:5" "5" true []) = [10; 5; 4].
Proof.
  split; [vm_compute; reflexivity|].
  apply (table_columns_aligned two_results (status "near/blög" "ghost:5" "5" true [])). right. left.
Defined.

(** ** Nothing is left out *)

Section Complete.
Context `{Styles} (headerStyle labelStyle iconStyle : string -> string).

Definition attention_of (results : list ImageStatus) := filter (fun r => needs_attention r = true) results.
Definition ok_of (results : list ImageStatus) := filter (fun r => needs_attention r = false) results.

Lemma report_counts results : length (attention_of results) + length (ok_of results) = length results.
Proof.
  unfold attention_of, ok_of. induction results as [|r l IH]; [done|]. rewrite !filter_cons.
  repeat case_decide; cbn; try lia; destruct (needs_attention r); congruence.
Qed.

(** Every image that needs attention has its row, and with [--all] every other too. *)
Lemma report_rows results showAll r : r ∈ results ->
  (needs_attention r = true ->
     table_line (attention_cells (computeBaseWidths (attention_of results)) (wUpgrade (attention_of results)) r)
       ∈ renderTerminal headerStyle labelStyle iconStyle results showAll)
  /\ (needs_attention r = false -> showAll = true ->
     table_line (row_base (computeBaseWidths (ok_of results)) r ++ [ok_status r])
       ∈ renderTerminal headerStyle labelStyle iconStyle results showAll).
Proof.
  intros Hr. unfold renderTerminal. destruct results as [|r0 l]; [by inversion Hr|]. set (results := r0 :: l) in *.
  cbv zeta. fold (attention_of results) (ok_of results). split; intros Hn; [|intros ->].
  - assert (r ∈ attention_of results) as Ha by (by apply list_elem_of_filter).
    destruct (attention_of results) as [|a al]; [by inversion Ha|]. cbn [length Nat.ltb Nat.leb].
    apply elem_of_app. left. right. right.
    apply (list_elem_of_fmap_2 (fun r => table_line (attention_cells _ _ r))). exact Ha.
  - assert (r ∈ ok_of results) as Ha by (by apply list_elem_of_filter).
    destruct (ok_of results) as [|a al]; [by inversion Ha|]. cbn [length Nat.ltb Nat.leb].
    apply elem_of_app. right. apply elem_of_app. left. apply elem_of_app. right. right. right.
    apply (list_elem_of_fmap_2 (fun r => table_line (row_base _ r ++ [ok_status r]))). exact Ha.
Qed.
End Complete.

(** The groups of an upgrade hold every result once. *)
Lemma stack_groups_partition results : concat (sg_results <$> stack_groups results) ≡ₚ results.
Proof.
  unfold stack_groups. rewrite <- list_fmap_compose.
  assert (forall keys, NoDup keys ->
    concat ((fun key => filter (fun r => is_Stack r = key) results) <$> keys) ≡ₚ filter (fun r => is_Stack r ∈ keys) results)
    as Hgen.
  { induction keys as [|k keys IH]; intros Hnd; cbn.
    - symmetry. induction results as [|r l IHr]; [done|]. rewrite filter_cons_False by set_solver. done.
    - apply NoDup_cons in Hnd as [Hk Hnd]. rewrite IH by done. clear IH.
      induction results as [|r l IHr]; [done|]. destruct (decide (is_Stack r = k)) as [Heq|Hne].
      + rewrite filter_cons_True, (filter_cons_False (fun r => is_Stack r ∈ keys)), filter_cons_True by set_solver.
        cbn. by f_equiv.
      + rewrite filter_cons_False by done. destruct (decide (is_Stack r ∈ keys)).
        * rewrite !filter_cons_True by set_solver. rewrite <- Permutation_middle. by f_equiv.
        * rewrite !filter_cons_False by set_solver. done. }
  rewrite (Hgen _ (NoDup_dedup _)). clear Hgen.
  assert (forall l : list ImageStatus, (forall r, r ∈ l -> r ∈ results) -> filter (fun r => is_Stack r ∈ dedup (is_Stack <$> results)) l = l) as Hall; [|by rewrite Hall].
  induction l as [|r l IH]; intros Hl; [done|]. rewrite filter_cons_True.
  - f_equal. apply IH. intros. apply Hl. by right.
  - apply elem_of_dedup, list_elem_of_fmap_2, Hl. left.
Qed.

(** A dry run announces a change of a file it has not looked into. *)
Example dry_run_announces `{SortSlice} stackFiles : stackFiles !! "far/shop" = Some ["/srv/other.yml"] ->
  upgrade_line [] stackFiles true (status "far/shop" "nginx:1.25" "1.25" false ["1.27"])
  = "  nginx:1.25 → nginx:1.27   (dry run)"
  /\ upgrade_line [] stackFiles false (status "far/shop" "nginx:1.25" "1.25" false ["1.27"])
     = "  nginx:1.25 → nginx:1.27                  ⚠ tag not found in compose file".
Proof. intros Hf. unfold upgrade_line. cbn [is_Stack is_NewerTags status]. rewrite Hf. by vm_compute. Qed.

(** An image whose content changed under the same tag is said to have no pattern even
    when it has one. *)
Example stale_with_pattern `{SortSlice} : let r := status "far/shop" "nginx:1.25" "1.25" true [] in
  is_HasTagPattern r = true
  /\ upgrade_line [] ∅ false r = "  nginx:1.25                               ⚠ no tag_pattern configured — run `docker compose pull`".
Proof. by vm_compute. Qed.
