(* ===== verification/HostOps.v ===== *)
(** * The machine dockform runs on

    The file system, the clock and the processes that the commands use while they
    change them: an operation each, so that a program over them is known by what it
    issued.  (What is only read before a run starts is the record [Host].) *)

From S2P Require Import Prelude GoStrings Apperr Manifest Effects.

(** Why a file was not read: [errors.Is(err, os.ErrNotExist)], or something else. *)
Inductive read_failure := Missing (e : error) | Unreadable (e : error).
Definition read_error (f : read_failure) : error :=
  match f with Missing e => e | Unreadable e => e end.

(** A process: the executable, its arguments, and its environment when one is
    given. *)
Record process_line := mkLine {
  pl_name : string; pl_args : list string; pl_env : option (list string) }.

(** Failing with an exit code comes with the output; failing to start does not. *)
Inductive process_failure := Exited (output : string) | NotStarted (e : error).

Inductive os_op : Type :=
| Stat (path : string)
| ReadFile (path : string)
| Open (path : string)
| WriteFile (path content : string)
| Create (path : string)
| CreateTemp (pattern : string)
| Remove (path : string)
| MkdirAll (path : string)
| Now (layout : string)
| UnixNano
| Elapsed
| Getenv (name : string)
| OsEnviron
| UserHomeDir
| LookPath (name : string)
| RunProcess (p : process_line).

(** [Elapsed] is the running time as it is printed.  Opening a file gives its content; errors of [Remove] are never looked at. *)
Canonical Structure os_effect : Effect := mkEffect os_op (fun o => match o with
  | Stat _ => StatResult
  | ReadFile _ => result read_failure string
  | Open _ => res string
  | WriteFile _ _ | Create _ | MkdirAll _ => res unit
  | CreateTemp _ => res string
  | Remove _ => unit
  | Now _ | Getenv _ | Elapsed => string
  | UnixNano => Z
  | OsEnviron => list string
  | UserHomeDir => res string
  | LookPath _ => res unit
  | RunProcess _ => result process_failure string
  end).
Notation os A := (tree os_effect A).
