(* ===== verification/CommandOps.v ===== *)
(** * Commands that use docker and the machine

    The effects of a command that talks to the clients of several daemons, to the
    machine it runs on, and to the user. *)

From S2P Require Import Prelude GoStrings Apperr Manifest Effects Docker DockerExec Client Session HostOps.

(** ** Effects *)

(** An operation of a session, of the machine, or of the client of a context. *)
Inductive command_op : Type :=
| VSession (o : session_op)
| VHost (o : os_op)
| VDocker (d : DockerClient) (o : client_op).
Canonical Structure command_effect : Effect := mkEffect command_op (fun o => match o with
  | VSession o => answer (o : session)
  | VHost o => answer (o : os_effect)
  | VDocker _ o => answer (o : client_effect)
  end).
Notation vcmd A := (tree command_effect A).

Definition v_session {A} : cmd A -> vcmd A := embed (E := session) (F := command_effect) VSession (fun _ r => r).
Definition v_host (o : os_op) : vcmd (answer (o : os_effect)) := do_op (E := command_effect) (VHost o).
Definition v_docker {A} (d : DockerClient) : cli A -> vcmd A :=
  embed (E := client_effect) (F := command_effect) (VDocker d) (fun _ r => r).
Definition v_print (line : string) : vcmd unit := do_op (E := command_effect) (VSession (Print line)).

(** ** Traces *)

Definition on_docker (d : DockerClient) (o : obs client_effect) : obs command_effect :=
  let '(Obs e r) := o in Obs (E := command_effect) (VDocker d e) r.
(** A docker command of a trace, and its output. *)
Definition ran (d : DockerClient) (args : list string) (r : res string) : obs command_effect :=
  Obs (E := command_effect) (VDocker d (Exec (Run args))) r.
Definition fed (d : DockerClient) (content : string) (args : list string) (r : res string)
  : obs command_effect :=
  Obs (E := command_effect) (VDocker d (Exec (RunWithStdin (StdinText content) args))) r.
Definition on_host (o : os_op) (r : answer (o : os_effect)) : obs command_effect :=
  Obs (E := command_effect) (VHost o) r.

Lemma exec_v_docker {A} d (p : cli A) t a :
  exec (v_docker d p) t a -> exists u, exec p u a /\ t = on_docker d <$> u.
Proof.
  unfold v_docker. revert t. induction p as [b|e k IH]; intros t; simpl.
  - intros [-> ->]. by exists [].
  - intros (r & t' & -> & (u & Hu & ->)%IH). exists (Obs e r :: u). split; [by exists r, u|done].
Qed.

Lemma wp_v_docker {A} d (p : cli A) Q : wp p (fun u a => Q (on_docker d <$> u) a) -> wp (v_docker d p) Q.
Proof. intros Hp t a (u & Hu & ->)%exec_v_docker. by apply Hp. Qed.

Lemma always_v_docker {A} (P : obs command_effect -> Prop) d (p : cli A) :
  always (fun o => P (on_docker d o)) p -> always P (v_docker d p).
Proof. intros Hp. apply wp_v_docker. eapply wp_mono; [exact Hp|]. intros u a. apply Forall_fmap. Qed.

(** What was issued. *)
Definition op_of (o : obs command_effect) : command_op := match o with Obs e _ => e end.
