(* ===== verification/VolumeCmd.v ===== *)
(** * Volume snapshots ([internal/cli/volumecmd])

    [dockform volume snapshot] streams a volume into an archive beside a description
    of it; [dockform volume restore] checks an archive, stops the containers of the
    volume, empties it, extracts the archive and starts the containers again.  Both
    talk to docker through the client's own methods, so what they do is known down
    to the command lines. *)

From S2P Require Import Prelude GoStrings GoPath Apperr Util Manifest Discovery Validation Targets Sha256 Filesets Effects Docker DockerExec Lru Client ClientResources ServiceState Resource Plan Validator Prompt Session Commands HostOps CommandOps.
From Stdlib Require Import Ascii.

(** ** The description of a snapshot *)

Record snapshotMeta := mkMeta {
  sm_DockformVersion : string; sm_CreatedAt : string; sm_VolumeName : string; sm_SpecHash : string;
  sm_Driver : string; sm_DriverOpts : gmap string string; sm_Labels : gmap string string;
  sm_UncompressedBytes : Z; sm_FileCount : Z; sm_ChecksumAlgo : string; sm_ChecksumTarZst : string;
  sm_Notes : string }.

(** The JSON of a description is the library's. *)
Class MetaCodec := {
  meta_encode : snapshotMeta -> res string;
  meta_decode : string -> res snapshotMeta;
}.

(** The pairs of a map by key, separated by semicolons. *)
Definition spec_pairs (m : gmap string string) : string :=
  Join ((fun k => k +:+ "=" +:+ default "" (m !! k)) <$> sorted_keys m) ";".
Definition computeSpecHash (d : VolumeDetails) : string :=
  let full := Sha256StringHex ("driver=" +:+ vd_Driver d +:+ "|opts=" +:+ spec_pairs (vd_Options d)
                               +:+ "|labels=" +:+ spec_pairs (vd_Labels d)) in
  if 8 <=? String.length full then String.substring 0 8 full else full.

Section Volumes.
Context `{MapRange}.

(** ** The volume a command is about *)

Definition resolveVolumeTarget (cfg : Config) (arg : string) : res (string * string) :=
  if Contains arg "/" then
    match SplitN arg slash 2 with
    | [contextName; volName] =>
        if bool_decide (contextName = "") || bool_decide (volName = "") then
          Err (New "cli.volume" InvalidInput "volume target must be in 'context/volume' format: %q" [arg])
        else match cfg_Contexts cfg !! contextName with
             | None => Err (New "cli.volume" InvalidInput "unknown context %q (in %q)" [contextName; arg])
             | Some _ => Ok (contextName, volName)
             end
    | _ => Err (Plain "index out of range")
    end
  else
    match map_range "volume target" (cfg_Contexts cfg) with
    | [] => Err (New "cli.volume" Precondition "no contexts configured" [])
    | [(name, _)] => Ok (name, arg)
    | _ =>
        let names := sorted_keys (cfg_Contexts cfg) in
        Err (New "cli.volume" InvalidInput
          "multiple contexts configured (%s); specify the volume as <context>/<volume> (e.g. %s/%s)"
          [Join names ", "; default "" (head names); arg])
    end.

Definition manifestHasVolume (cfg : Config) (contextName name : string) : bool :=
  match cfg_Contexts cfg !! contextName with
  | Some cc => bool_decide (is_Some (ctx_Volumes cc !! name))
  | None => false
  end
  || existsb (fun e => bool_decide (fs_TargetVolume e.2 = name))
       (map_range "manifest volumes" (GetFilesetsForContext cfg contextName)).

Context `{Decoders} `{ResourceDecoders} `{MetaCodec}.

(** The digest of a file. *)
Definition Sha256FileHex (path : string) : vcmd (res string) :=
  r ← v_host (Open path); mret (match r with Ok content => Ok (Sha256Hex content) | Err e => Err e end).

(** ** dockform volume snapshot *)

Definition timestamp_layout : string := "2006-01-02T15-04-05Z".
Definition rfc3339_layout : string := "2006-01-02T15:04:05Z07:00".

(** The names of the two files of a snapshot. *)
Definition snapshot_base (ts short : string) : string := ts +:+ "__spec-" +:+ short.
Definition tar_path (volDir base : string) : string := PathJoin [volDir; base +:+ ".tar.zst"].
Definition json_path (volDir base : string) : string := PathJoin [volDir; base +:+ ".json"].

Definition snapshot_dir (cfg : Config) (outDirFlag contextName volName : string) : string :=
  let outDir := if bool_decide (TrimSpace outDirFlag = "")
                then PathJoin [cfg_BaseDir cfg; ".dockform"; "snapshots"] else outDirFlag in
  PathJoin [outDir; contextName; volName].

Definition wrap_snapshot (e : error) (msg : string) (args : list string) : error :=
  wrap "cli.volume.snapshot" Internal e msg args.

Definition write_description (tarPath jsonPath jb : string) : vcmd (res unit) :=
  w ← v_host (WriteFile jsonPath jb);
  try (w : res unit) (fun e => wrap_snapshot e "write json" []) (fun _ =>
  _ ← v_print ("Snapshot written: " +:+ tarPath);
  _ ← v_print ("Metadata: " +:+ jsonPath);
  mret (Ok tt)).

(** The archive was streamed: its size, its digest, its description. *)
Definition describe_snapshot (version note : string) (contextName volName short : string)
    (details : VolumeDetails) (tarPath jsonPath : string) : vcmd (res unit) :=
  stats ← v_docker contextName (TarStatsFromVolume volName);
  let '(uncompressed, fileCount) := match stats with Ok s => s | Err _ => (0, 0)%Z end in
  sum ← Sha256FileHex tarPath;
  try sum (fun e => wrap_snapshot e "checksum tar.zst" []) (fun sum =>
  created ← v_host (Now rfc3339_layout);
  let meta := mkMeta version created volName short (vd_Driver details) (vd_Options details)
                (vd_Labels details) uncompressed fileCount "sha256" sum note in
  try (meta_encode meta) (fun e => wrap_snapshot e "encode json" []) (write_description tarPath jsonPath)).

Definition snapshot_volume (version : string) (cfg : Config) (outDirFlag note arg : string)
  : vcmd (res unit) :=
  match resolveVolumeTarget cfg arg with
  | Err e => mret (Err e)
  | Ok (contextName, volName) =>
      details ← v_docker contextName (InspectVolume volName);
      try details id (fun details =>
      let short := computeSpecHash details in
      ts ← v_host (Now timestamp_layout);
      let volDir := snapshot_dir cfg outDirFlag contextName volName in
      m ← v_host (MkdirAll volDir);
      try (m : res unit) (fun e => wrap_snapshot e "mkdir %s" [volDir]) (fun _ =>
      let base := snapshot_base ts short in
      f ← v_host (Create (tar_path volDir base));
      try (f : res unit) (fun e => wrap_snapshot e "create tar.zst" []) (fun _ =>
      s ← v_docker contextName (StreamTarZstdFromVolume volName);
      try s id (fun _ =>
      describe_snapshot version note contextName volName short details
        (tar_path volDir base) (json_path volDir base)))))
  end.

(** ** dockform volume restore *)

Definition restore_op : string := "cli.volume.restore".

Definition supported_snapshot (snapPath : string) : bool :=
  HasSuffix snapPath ".tar.zst" || HasSuffix snapPath ".tar".

(** Where the description of an archive is looked for. *)
Definition sidecar (snapPath : string) : string := TrimSuffix snapPath (Ext snapPath) +:+ ".json".

(** Another spec of the volume than the described one is only warned about. *)
Definition compare_spec (d volName : string) (meta : snapshotMeta) : vcmd unit :=
  details ← v_docker d (InspectVolume volName);
  match details with
  | Err _ => mret tt
  | Ok details =>
      let h := computeSpecHash details in
      if bool_decide (h <> sm_SpecHash meta)
      then do_op (E := command_effect) (VSession (Warn ("snapshot spec hash (" +:+ sm_SpecHash meta
             +:+ ") differs from current volume (" +:+ h +:+ ")")))
      else mret tt
  end.

(** The archive has the digest of its description, when that has one.  A file that
    cannot be read has the empty digest. *)
Definition verify_meta (d volName snapPath : string) (meta : snapshotMeta) : vcmd (res unit) :=
  if HasSuffix snapPath ".tar.zst" && bool_decide (sm_ChecksumTarZst meta <> "") then
    sum ← Sha256FileHex snapPath;
    if bool_decide (match sum with Ok s => s | Err _ => "" end <> sm_ChecksumTarZst meta)
    then mret (Err (New restore_op InvalidInput "checksum mismatch for %s" [snapPath]))
    else _ ← compare_spec d volName meta; mret (Ok tt)
  else _ ← compare_spec d volName meta; mret (Ok tt).

Definition verify_snapshot (d volName snapPath : string) : vcmd (res unit) :=
  st ← v_host (Stat snapPath);
  match (st : StatResult) with
  | StatNotExist => mret (Err (New restore_op NotFound "snapshot file not found: %s" [snapPath]))
  | StatErr e => mret (Err (wrap restore_op Internal e "stat snapshot file" []))
  | StatOk _ =>
      b ← v_host (ReadFile (sidecar snapPath));
      match (b : result read_failure string) with
      | Ok b => match meta_decode b with Ok meta => verify_meta d volName snapPath meta | Err _ => mret (Ok tt) end
      | Err (Missing _) => mret (Ok tt)
      | Err (Unreadable e) => mret (Err (wrap restore_op Internal e "read sidecar" []))
      end
  end.

(** What the checks found: the daemon and the volume, whether it is empty, the
    containers that use it and those of them that run. *)
Record restore_plan := mkRestore {
  rp_context : string; rp_volume : string; rp_empty : bool; rp_users : list string;
  rp_running : list string }.

Definition restore_state (force stopContainers : bool) (d volName : string) : vcmd (res restore_plan) :=
  empty ← v_docker d (IsVolumeEmpty volName);
  try empty id (fun empty : bool =>
  if negb empty && negb force
  then mret (Err (New restore_op Conflict "destination volume is not empty; use --force to overwrite" []))
  else
    users ← v_docker d (cli_ListContainersUsingVolume volName);
    try users id (fun users =>
    running ← v_docker d (ListRunningContainersUsingVolume volName);
    try running id (fun running =>
    if bool_decide (users <> []) && negb stopContainers
    then mret (Err (New restore_op Conflict "containers are using volume %q: %s (use --stop-containers)"
                      [volName; Join users ", "]))
    else mret (Ok (mkRestore d volName empty users running))))).

Definition restore_checks (cfg : Config) (force stopContainers : bool) (arg snapPath : string)
  : vcmd (res restore_plan) :=
  match resolveVolumeTarget cfg arg with
  | Err e => mret (Err e)
  | Ok (d, volName) =>
      if negb (manifestHasVolume cfg d volName)
      then mret (Err (New restore_op InvalidInput "volume %q is not defined in manifest for context %q"
                        [volName; d]))
      else
        found ← v_docker d (VolumeExists volName);
        try found id (fun found : bool =>
        if negb found then mret (Err (New restore_op NotFound "volume %q not found in Docker context" [volName]))
        else if negb (supported_snapshot snapPath)
        then mret (Err (New restore_op InvalidInput
                          "unsupported snapshot extension (expected .tar.zst or .tar)" []))
        else
          v ← verify_snapshot d volName snapPath;
          try v id (fun _ => restore_state force stopContainers d volName))
  end.

(** Empty the volume and extract the archive. *)
Definition restore_contents (p : restore_plan) (force : bool) (snapPath : string) : vcmd (res unit) :=
  cleared ← (if negb (rp_empty p) && force then v_docker (rp_context p) (ClearVolume (rp_volume p))
             else mret (Ok tt));
  try cleared id (fun _ =>
  input ← v_host (Open snapPath);
  try (input : res string) (fun e => wrap restore_op Internal e "open snapshot" []) (fun content =>
  r ← v_docker (rp_context p)
        (if HasSuffix snapPath ".tar.zst" then ExtractZstdTarToVolume (rp_volume p) (StdinText content)
         else extract_stream (rp_volume p) "/dst" (StdinText content));
  try r id (fun _ =>
  _ ← v_print ("Restored snapshot into volume " +:+ rp_volume p);
  mret (Ok tt)))).

Definition to_start (p : restore_plan) : list string := sort_strings (remove_dups (rp_running p)).

(** The containers that ran are started again however the work ended, once all were
    stopped. *)
Definition restore_work (p : restore_plan) (force : bool) (snapPath : string) : vcmd (res unit) :=
  match rp_users p with
  | [] => restore_contents p force snapPath
  | users =>
      s ← v_docker (rp_context p) (cli_StopContainers users);
      try s id (fun _ =>
      r ← restore_contents p force snapPath;
      _ ← v_docker (rp_context p) (cli_StartContainers (to_start p));
      mret r)
  end.

Definition restore_volume (cfg : Config) (force stopContainers : bool) (arg snapPath : string)
  : vcmd (res unit) :=
  p ← restore_checks cfg force stopContainers arg snapPath;
  try p id (fun p => restore_work p force snapPath).

(** ** The commands *)

Context (h : Host) (decode_contexts : string -> res (gmap string unit)) (decode : string -> res Config).
Context (labelStyle : string -> string).
Context `{Schedule} `{Styles} `{TextInput}.

Definition volume_setup (fl : Flags) : vcmd (res (Config * Planner)) :=
  v_session (setup h decode_contexts decode labelStyle fl).

Definition snapshot_command (version : string) (fl : Flags) (outDirFlag note arg : string)
  : vcmd (res unit) :=
  s ← volume_setup fl;
  try s id (fun '(cfg, _) => snapshot_volume version cfg outDirFlag note arg).

Definition restore_command (fl : Flags) (force stopContainers : bool) (arg snapPath : string)
  : vcmd (res unit) :=
  s ← volume_setup fl;
  try s id (fun '(cfg, _) => restore_volume cfg force stopContainers arg snapPath).
End Volumes.

(** ** What a trace shows *)

(** The command lines of a restore. *)
Definition exists_line : list string := ["volume"; "ls"; "--format"; "{{.Name}}"].
Definition empty_line (vol : string) : list string :=
  ["run"; "--rm"; "-v"; vol +:+ ":/dst"; HelperImage; "sh"; "-c";
   "test -z " +:+ dq +:+ "$(ls -A '/dst' 2>/dev/null)" +:+ dq +:+ " && echo empty || echo notempty"].
Definition clear_line (vol : string) : list string :=
  ["run"; "--rm"; "-v"; vol +:+ ":/dst"; HelperImage; "sh"; "-c";
   "rm -rf '/dst'/* '/dst'/.[!.]* '/dst'/..?* 2>/dev/null || true"].
Definition users_line (vol : string) : list string :=
  ["ps"; "-a"; "--filter"; "volume=" +:+ vol; "--format"; "{{.Names}}"].
Definition running_line (vol : string) : list string :=
  ["ps"; "--filter"; "volume=" +:+ vol; "--format"; "{{.Names}}"].
Definition extract_line (snapPath vol : string) : list string :=
  ["run"; "--rm"; "-i"; "-v"; vol +:+ ":/dst"; HelperImage; "sh"; "-c";
   if HasSuffix snapPath ".tar.zst"
   then "apk add --no-cache zstd >/dev/null 2>&1 || true; mkdir -p '/dst'; zstd -q -d -c | tar -xpf - -C '/dst'"
   else "mkdir -p '/dst' && tar -xpf - -C '/dst'"].

(** Commands that leave daemon and volumes as they are: listings, inspections, a
    volume mounted read-only, and [ls]. *)
Inductive looking : list string -> Prop :=
| looking_volumes rest : looking ("volume" :: "ls" :: rest)
| looking_inspect rest : looking ("volume" :: "inspect" :: rest)
| looking_containers rest : looking ("ps" :: rest)
| looking_mounted vol script :
    looking ["run"; "--rm"; "-v"; vol +:+ ":/src:ro"; HelperImage; "sh"; "-c"; script]
| looking_empty vol : looking (empty_line vol).
#[export] Hint Constructors looking : dockform.

Definition client_looks (o : client_op) : Prop :=
  match o with Exec x => looking (exec_args x) | _ => True end.
Definition host_reads (o : os_op) : Prop :=
  match o with
  | WriteFile _ _ | Create _ | CreateTemp _ | Remove _ | MkdirAll _ | RunProcess _ => False
  | _ => True
  end.

(** Nothing is changed, on the daemons or on the machine. *)
Definition v_looks (o : obs command_effect) : Prop :=
  match o with
  | Obs (VSession o) r => session_reads (Obs (E := session) o r)
  | Obs (VHost o) _ => host_reads o
  | Obs (VDocker _ o) _ => client_looks o
  end.

(** Only failures of the command, or of the name, are errors. *)
Definition reads_output {A} (args : list string) (f : string -> A) (p : cli (res A)) : Prop :=
  wp p (fun t r => (t = [] /\ exists e, r = Err e)
    \/ exists out, t = [Obs (E := client_effect) (Exec (Run args)) out]
         /\ r = match out with Ok s => Ok (f s) | Err e => Err e end).

Lemma reads_output_run {A} check args (f : string -> A) :
  reads_output args f (guard check (out ← docker_run args; try out id (fun out => mret (Ok (f out))))).
Proof.
  unfold reads_output, guard. destruct check as [e|]; [apply wp_ret; left; eauto|].
  unfold docker_run. apply wp_bind. wp_doop. intros [s|e]; apply wp_ret; right; eexists; split; done.
Qed.

Lemma IsVolumeEmpty_reads vol :
  reads_output (empty_line vol) (fun out => bool_decide (TrimSpace out = "empty")) (IsVolumeEmpty vol).
Proof. apply reads_output_run. Qed.
Lemma users_reads vol :
  reads_output (users_line vol) SplitNonEmptyLines (cli_ListContainersUsingVolume vol).
Proof. apply reads_output_run. Qed.
Lemma running_reads vol :
  reads_output (running_line vol) SplitNonEmptyLines (ListRunningContainersUsingVolume vol).
Proof. apply reads_output_run. Qed.

(** Go on with what a command printed. *)
Lemma wp_reads {A B} d args (f : string -> A) (p : cli (res A)) (k : A -> vcmd (res B)) Q :
  reads_output args f p ->
  (forall e, Q [] (Err e)) -> (forall e, Q [ran d args (Err e)] (Err e)) ->
  (forall s, wp (k (f s)) (fun t r => Q (ran d args (Ok s) :: t) r)) ->
  wp (x ← v_docker d p; try x id k) Q.
Proof.
  intros Hp He Hr Hk. apply wp_bind, wp_v_docker. eapply wp_mono; [exact Hp|].
  intros u a [[-> (e & ->)]|(out & -> & ->)]; [apply wp_ret, He|].
  destruct out as [s|e]; [apply Hk|apply wp_ret, Hr].
Qed.

(** ** The checks of a restore *)

Section Restore.
Context `{MapRange} `{Decoders} `{ResourceDecoders} `{MetaCodec}.

Lemma InspectVolume_looks d vol : always v_looks (v_docker d (InspectVolume vol)).
Proof.
  apply always_v_docker. unfold InspectVolume, guard, docker_run.
  repeat always_tree_step; simpl; auto with dockform.
Qed.

(** The archive has the digest its description gives, when it has a description
    that gives one. *)
Definition verified (snapPath : string) (t : list (obs command_effect)) : Prop :=
  exists r : result read_failure string, on_host (ReadFile (sidecar snapPath)) r ∈ t /\
    match r with
    | Ok b => forall meta, meta_decode b = Ok meta -> HasSuffix snapPath ".tar.zst" = true ->
        sm_ChecksumTarZst meta <> "" ->
        exists content, on_host (Open snapPath) (Ok content) ∈ t /\ Sha256Hex content = sm_ChecksumTarZst meta
    | Err (Missing _) => True
    | Err (Unreadable _) => False
    end.

(** What was seen of the volume. *)
Record state_seen (force stopContainers : bool) (t : list (obs command_effect)) (p : restore_plan) : Prop := {
  seen_empty : exists out, ran (rp_context p) (empty_line (rp_volume p)) (Ok out) ∈ t
    /\ rp_empty p = bool_decide (TrimSpace out = "empty") /\ (rp_empty p = true \/ force = true);
  seen_users : exists out, ran (rp_context p) (users_line (rp_volume p)) (Ok out) ∈ t
    /\ rp_users p = SplitNonEmptyLines out /\ (rp_users p = [] \/ stopContainers = true);
  seen_running : exists out, ran (rp_context p) (running_line (rp_volume p)) (Ok out) ∈ t
    /\ rp_running p = SplitNonEmptyLines out }.

Lemma restore_state_spec force stopContainers d vol :
  wp (restore_state force stopContainers d vol) (fun t r => Forall v_looks t
    /\ forall p, r = Ok p -> rp_context p = d /\ rp_volume p = vol /\ state_seen force stopContainers t p).
Proof.
  unfold restore_state.
  eapply wp_reads; [apply IsVolumeEmpty_reads|by intros|by repeat constructor|]. intros o1. cbv beta.
  destruct (negb _ && negb force) eqn:Hf; [by apply wp_ret; repeat constructor|].
  eapply wp_reads; [apply users_reads|by repeat constructor|by repeat constructor|]. intros o2. cbv beta.
  eapply wp_reads; [apply running_reads|by repeat constructor|by repeat constructor|]. intros o3. cbv beta.
  destruct (bool_decide _ && negb stopContainers) eqn:Hs; apply wp_ret; (split; [by repeat constructor|]); [done|].
  intros p [= <-]. simpl. split; [done|]. split; [done|]. split; simpl.
  - exists o1. split; [left|]. split; [done|].
    destruct (bool_decide (TrimSpace o1 = "empty")), force; simpl in Hf; auto.
  - exists o2. split; [right; left|]. split; [done|].
    destruct stopContainers; [by right|]. left. rewrite andb_true_r, bool_decide_eq_false in Hs.
    by destruct (SplitNonEmptyLines o2) eqn:Hl; [|destruct Hs].
  - exists o3. split; [do 2 right; left|done].
Qed.

Lemma compare_spec_looks d vol meta : always v_looks (compare_spec d vol meta).
Proof.
  unfold compare_spec. apply always_bind; [apply InspectVolume_looks|]. intros [de|e]; [|apply always_ret].
  cbv zeta. repeat always_tree_step.
Qed.

(** Comparing afterwards keeps what was seen. *)
Lemma compared d vol meta (Q : list (obs command_effect) -> res unit -> Prop) :
  (forall t, Forall v_looks t -> Q t (Ok tt)) ->
  wp (_ ← compare_spec d vol meta; mret (Ok tt)) Q.
Proof.
  intros HQ. apply wp_bind. eapply wp_mono; [apply compare_spec_looks|]. intros t [] Ht.
  apply wp_ret. rewrite app_nil_r. by apply HQ.
Qed.

Lemma verify_meta_spec d vol snapPath meta :
  wp (verify_meta d vol snapPath meta) (fun t r => Forall v_looks t
    /\ (r = Ok tt -> HasSuffix snapPath ".tar.zst" = true -> sm_ChecksumTarZst meta <> "" ->
        exists content, on_host (Open snapPath) (Ok content) ∈ t /\ Sha256Hex content = sm_ChecksumTarZst meta)).
Proof.
  unfold verify_meta. destruct (_ && _) eqn:Hc.
  - clear Hc. apply wp_bind. unfold Sha256FileHex. apply wp_bind. unfold v_host. wp_doop. intros content.
    apply wp_ret. simpl app. case_bool_decide as Hsum; [by apply wp_ret; repeat constructor|].
    apply compared. intros t Ht. split; [by constructor|]. intros _ _ Hne.
    destruct content as [s|e]; [|done]. exists s. by split; [left|].
  - apply compared. intros t Ht. split; [done|]. intros _ Hz Hne.
    rewrite Hz, bool_decide_true in Hc by done. done.
Qed.

Lemma verify_snapshot_spec d vol snapPath :
  wp (verify_snapshot d vol snapPath) (fun t r => Forall v_looks t /\ (r = Ok tt -> verified snapPath t)).
Proof.
  unfold verify_snapshot. apply wp_bind. unfold v_host at 1. wp_doop. intros [dir| |e];
    [|by apply wp_ret; repeat constructor..].
  apply wp_bind. unfold v_host. wp_doop. intros [b|[e|e]].
  - destruct (meta_decode b) as [meta|e] eqn:Hm.
    + eapply wp_mono; [apply verify_meta_spec|]. intros t r [Ht Hr]. simpl. split; [by repeat constructor|].
      intros Hok. exists (Ok b). split; [right; left|]. intros meta' Hm'. rewrite Hm in Hm'. injection Hm' as <-.
      intros Hz Hne. destruct (Hr Hok Hz Hne) as (content & Hin & Hs). exists content. split; [by do 2 right|done].
    + apply wp_ret. split; [by repeat constructor|]. intros _. exists (Ok b). split; [right; left|].
      by rewrite Hm.
  - apply wp_ret. split; [by repeat constructor|]. intros _. exists (Err (Missing e)). split; [right; left|done].
  - by apply wp_ret; repeat constructor.
Qed.

(** A restore may go ahead. *)
Record restorable (cfg : Config) (force stopContainers : bool) (arg snapPath : string)
    (t : list (obs command_effect)) (p : restore_plan) : Prop := {
  rs_target : resolveVolumeTarget cfg arg = Ok (rp_context p, rp_volume p);
  rs_declared : manifestHasVolume cfg (rp_context p) (rp_volume p) = true;
  rs_exists : exists out, ran (rp_context p) exists_line (Ok out) ∈ t /\ rp_volume p ∈ SplitNonEmptyLines out;
  rs_supported : supported_snapshot snapPath = true;
  rs_verified : verified snapPath t;
  rs_seen : state_seen force stopContainers t p }.

Lemma VolumeExists_spec d vol :
  wp (v_docker d (VolumeExists vol)) (fun t r => Forall v_looks t
    /\ (r = Ok true -> exists out, ran d exists_line (Ok out) ∈ t /\ vol ∈ SplitNonEmptyLines out)).
Proof.
  apply wp_v_docker. unfold VolumeExists. case_bool_decide; [by apply wp_ret; repeat constructor|].
  unfold docker_run. apply wp_bind. wp_doop. intros [out|e]; apply wp_ret; (split; [by repeat constructor|]); [|done].
  intros [= Hin%bool_decide_eq_true]. exists out. split; [left|done].
Qed.

Lemma verified_mono snapPath t t' : t ⊆ t' -> verified snapPath t -> verified snapPath t'.
Proof.
  intros Hsub (r & Hin & Hr). exists r. split; [by apply Hsub|]. destruct r as [b|[]]; [|done..].
  intros meta Hm Hz Hne. destruct (Hr meta Hm Hz Hne) as (c & Hc & Hs). exists c. split; [by apply Hsub|done].
Qed.

Lemma state_seen_mono force stopContainers t t' p :
  t ⊆ t' -> state_seen force stopContainers t p -> state_seen force stopContainers t' p.
Proof.
  intros Hsub [(o1 & H1' & ?) (o2 & H2' & ?) (o3 & H3' & ?)].
  split; [exists o1|exists o2|exists o3]; (split; [by apply Hsub|done]).
Qed.

Lemma restore_checks_spec cfg force stopContainers arg snapPath :
  wp (restore_checks cfg force stopContainers arg snapPath) (fun t r => Forall v_looks t
    /\ forall p, r = Ok p -> restorable cfg force stopContainers arg snapPath t p).
Proof.
  unfold restore_checks. destruct (resolveVolumeTarget cfg arg) as [[d vol]|e] eqn:Ht; [|by apply wp_ret].
  destruct (manifestHasVolume cfg d vol) eqn:Hm; simpl negb; cbv iota; [|by apply wp_ret].
  apply wp_bind. eapply wp_mono; [apply VolumeExists_spec|]. intros t1 [found|e] [H1' Hex];
    [|apply wp_ret; by rewrite app_nil_r].
  unfold try. destruct found; simpl negb; cbv iota; [|apply wp_ret; by rewrite app_nil_r].
  destruct (supported_snapshot snapPath) eqn:Hs; simpl negb; cbv iota; [|apply wp_ret; by rewrite app_nil_r].
  apply wp_bind. eapply wp_mono; [apply verify_snapshot_spec|]. intros t2 [[]|e] [H2' Hv];
    [|apply wp_ret; rewrite app_nil_r; split; [by apply Forall_app|done]].
  eapply wp_mono; [apply restore_state_spec|]. intros t3 r [H3' Hp].
  split; [by rewrite !Forall_app|]. intros p Hr. destruct (Hp p Hr) as (<- & <- & Hst).
  destruct (Hex eq_refl) as (out & Hin & Hvol).
  split; [done|done|exists out; split; [set_solver|done]|done| |].
  - eapply verified_mono; [|by apply Hv]. set_solver.
  - eapply state_seen_mono; [|exact Hst]. set_solver.
Qed.
End Restore.

(** ** The work of a restore *)

(** What a restore may do once it was checked. *)
Definition allowed (p : restore_plan) (force : bool) (snapPath : string) (o : obs command_effect) : Prop :=
  match o with
  | Obs (VDocker d (Exec x)) _ => d = rp_context p /\
      ((exists n, n ∈ rp_users p /\ x = Run ["container"; "stop"; n])
       \/ (exists n, n ∈ rp_running p /\ rp_users p <> [] /\ x = Run ["container"; "start"; n])
       \/ (force = true /\ rp_empty p = false /\ x = Run (clear_line (rp_volume p)))
       \/ (exists content, x = RunWithStdin (StdinText content) (extract_line snapPath (rp_volume p))))
  | Obs (VHost o) _ => o = Open snapPath
  | Obs (VSession (Print _)) _ => True
  | _ => False
  end.

(** Commands on containers: how far they came. *)
Definition container_line (verb name : string) : list string := ["container"; verb; name].

Lemma each_container_spec d verb names :
  wp (v_docker d (each_container verb names)) (fun t r =>
    Forall (fun o => exists n out, n ∈ names /\ o = ran d (container_line verb n) out) t
    /\ match r with
       | Ok _ => forall n, n ∈ names -> TrimSpace n <> "" -> exists out, ran d (container_line verb n) (Ok out) ∈ t
       | Err e => exists n, ran d (container_line verb n) (Err e) ∈ t
       end).
Proof.
  apply wp_v_docker. unfold each_container. induction names as [|n names IH]; cbn [for_each_res].
  { apply wp_ret. split; [done|]. by intros n Hn%elem_of_nil. }
  assert (forall t, Forall (fun o => exists n out, n ∈ names /\ o = ran d (container_line verb n) out) t ->
    Forall (fun o => exists n' out, n' ∈ n :: names /\ o = ran d (container_line verb n') out) t) as Hmore.
  { intros t Ht. eapply Forall_impl; [exact Ht|]. intros o (n' & out & Hn & ->). exists n', out. split; [by right|done]. }
  apply wp_bind. case_bool_decide as Hb.
  - apply wp_ret. cbv iota. eapply wp_mono; [exact IH|]. intros t r [Ht Hr]. simpl app.
    split; [by apply Hmore|]. destruct r as [[]|e]; [|done].
    intros n' [->|Hn]%elem_of_cons Hne; [done|by apply Hr].
  - unfold run_unit, docker_run. apply wp_bind. wp_doop. intros out. apply wp_ret. simpl app.
    destruct out as [out|e]; cbv iota beta delta [mbind result_bind].
    + eapply wp_mono; [exact IH|]. intros t r [Ht Hr]. rewrite fmap_cons. split.
      { constructor; [exists n, (Ok out); split; [left|done]|by apply Hmore]. }
      destruct r as [[]|e]; [|destruct Hr as (n' & Hn'); exists n'; by right].
      intros n' [->|Hn]%elem_of_cons Hne; [exists out; left|].
      destruct (Hr n' Hn Hne) as (out' & Ho). exists out'. by right.
    + apply wp_ret. simpl. split; [repeat constructor; exists n, (Err e); split; [left|done]|].
      exists n. left.
Qed.

Section Work.
Context `{MapRange} `{Decoders} `{ResourceDecoders} `{MetaCodec}.
Context (p : restore_plan) (force : bool) (snapPath : string).

(** The archive was extracted: the emptying command was run if the volume was not empty, and the
    content of the file extracted into it. *)
Definition restored (t : list (obs command_effect)) : Prop :=
  exists content out, on_host (Open snapPath) (Ok content) ∈ t
    /\ fed (rp_context p) content (extract_line snapPath (rp_volume p)) (Ok out) ∈ t
    /\ (rp_empty p = true \/ force = false
        \/ exists out, ran (rp_context p) (clear_line (rp_volume p)) (Ok out) ∈ t).

Definition contents_step (o : obs command_effect) : Prop :=
  allowed p force snapPath o /\ forall verb n out, o <> ran (rp_context p) (container_line verb n) out.

Lemma contents_one o : allowed p force snapPath o ->
  (forall d verb n, op_of o <> VDocker d (Exec (Run (container_line verb n)))) -> Forall contents_step [o].
Proof.
  intros Ha Hc. apply Forall_singleton. split; [done|]. intros verb n out Heq%(f_equal op_of). exact (Hc _ _ _ Heq).
Qed.

Lemma feed_spec (check : option error) d content args :
  wp (v_docker d (guard check (out ← docker_stdin (StdinText content) args; mret (out ≫= fun _ => Ok tt))))
    (fun t r => (t = [] /\ exists e, r = Err e) \/ exists out, t = [fed d content args out]
       /\ (r = Ok tt -> exists s, out = Ok s)).
Proof.
  apply wp_v_docker. unfold guard. destruct check as [e|]; [apply wp_ret; left; eauto|].
  unfold docker_stdin. apply wp_bind. wp_doop. intros out. apply wp_ret. right. exists out.
  split; [done|]. destruct out as [s|e]; [eauto|done].
Qed.

Lemma extract_spec content :
  wp (v_docker (rp_context p)
        (if HasSuffix snapPath ".tar.zst" then ExtractZstdTarToVolume (rp_volume p) (StdinText content)
         else extract_stream (rp_volume p) "/dst" (StdinText content)))
    (fun t r => Forall contents_step t
       /\ (r = Ok tt -> exists s, fed (rp_context p) content (extract_line snapPath (rp_volume p)) (Ok s) ∈ t)).
Proof.
  eapply (wp_mono _ (fun t r => (t = [] /\ exists e, r = Err e) \/ exists out,
    t = [fed (rp_context p) content (extract_line snapPath (rp_volume p)) out]
    /\ (r = Ok tt -> exists s, out = Ok s))).
  - unfold extract_line. destruct (HasSuffix snapPath ".tar.zst"); apply feed_spec.
  - intros t r [[-> (e & ->)]|(out & -> & Hr)]; [done|]. split.
    + apply contents_one; [|done]. split; [done|]. by right; right; right; exists content.
    + intros Hok. destruct (Hr Hok) as (s & ->). exists s. left.
Qed.

Lemma clear_spec :
  wp (if negb (rp_empty p) && force then v_docker (rp_context p) (ClearVolume (rp_volume p)) else mret (Ok tt))
    (fun t r => Forall contents_step t /\ (r = Ok tt -> rp_empty p = true \/ force = false
        \/ exists out, ran (rp_context p) (clear_line (rp_volume p)) (Ok out) ∈ t)).
Proof.
  destruct (rp_empty p) eqn:He; [apply wp_ret; auto|]. destruct force eqn:Hf; [|apply wp_ret; auto].
  simpl. apply wp_v_docker. unfold ClearVolume, guard, run_unit.
  destruct (requireNonEmpty _ _ _) as [e|]; [by apply wp_ret|].
  unfold docker_run. apply wp_bind. wp_doop. intros out. apply wp_ret. split.
  - apply contents_one; [|done]. split; [done|]. by right; right; left.
  - destruct out as [s|e]; [|done]. intros _. right. right. exists s. left.
Qed.

Lemma restore_contents_spec :
  wp (restore_contents p force snapPath) (fun t r => Forall contents_step t /\ (r = Ok tt -> restored t)).
Proof.
  unfold restore_contents. apply wp_bind. eapply wp_mono; [apply clear_spec|]. intros t1 [[]|e] [H1' Hc];
    [|apply wp_ret; by rewrite app_nil_r].
  unfold try at 1. apply wp_bind. unfold v_host. wp_doop. intros [content|e];
    [|apply wp_ret; split; [rewrite app_nil_r; apply Forall_app; split; [done|by apply contents_one]|done]].
  unfold try at 1. apply wp_bind. eapply wp_mono; [apply extract_spec|]. intros t2 [[]|e] [H2' Hx];
    [|apply wp_ret; rewrite app_nil_r; split; [rewrite !Forall_app; split; [done|split; [by apply contents_one|done]]|done]].
  unfold try, v_print. apply wp_bind. wp_doop. intros []. apply wp_ret. split.
  - rewrite app_nil_r, !Forall_app. by split_and!; [|apply contents_one| |apply contents_one].
  - intros _. destruct (Hx eq_refl) as (s & Hs). exists content, s. split; [set_solver|]. split; [set_solver|].
    destruct (Hc eq_refl) as [He|[Hf|(out & Ho)]]; [by left|right; by left|right; right]. exists out. set_solver.
Qed.
End Work.

Section Theorems.
Context `{MapRange} `{Decoders} `{ResourceDecoders} `{MetaCodec}.

Definition on_containers (verb : string) (p : restore_plan) (names : list string) (o : obs command_effect) : Prop :=
  exists n out, n ∈ names /\ o = ran (rp_context p) (container_line verb n) out.

(** How the containers of the volume fared: there were none; stopping one failed,
    and nothing else was done; or all were stopped, the work was done, and then
    those that ran were started, up to the first that did not start. *)
Definition containers_kept (p : restore_plan) (v : list (obs command_effect)) (r : res unit) : Prop :=
  (rp_users p = [] /\ forall verb n out, ran (rp_context p) (container_line verb n) out ∉ v)
  \/ (exists n e, r = Err e /\ ran (rp_context p) (container_line "stop" n) (Err e) ∈ v
        /\ Forall (on_containers "stop" p (rp_users p)) v)
  \/ (exists stops work starts, v = stops ++ work ++ starts
        /\ (forall n, n ∈ rp_users p -> exists out, ran (rp_context p) (container_line "stop" n) (Ok out) ∈ stops)
        /\ (forall verb n out, ran (rp_context p) (container_line verb n) out ∉ work)
        /\ Forall (on_containers "start" p (rp_running p)) starts
        /\ ((forall n, n ∈ rp_running p -> exists out, ran (rp_context p) (container_line "start" n) (Ok out) ∈ starts)
            \/ exists n e, ran (rp_context p) (container_line "start" n) (Err e) ∈ starts)).

Lemma contents_allowed p force snapPath t : Forall (contents_step p force snapPath) t ->
  Forall (allowed p force snapPath) t
  /\ forall verb n out, ran (rp_context p) (container_line verb n) out ∉ t.
Proof.
  intros HF. split; [eapply Forall_impl; [exact HF|]; by intros o []|].
  intros verb n out Hin. rewrite Forall_forall in HF. destruct (HF _ Hin) as [_ Hne]. by eapply Hne.
Qed.

Lemma restored_mono p force snapPath t t' : t ⊆ t' -> restored p force snapPath t -> restored p force snapPath t'.
Proof.
  intros Hsub (c & s & Hc & Hs & He). exists c, s. split; [by apply Hsub|]. split; [by apply Hsub|].
  destruct He as [?|[?|(out & Ho)]]; [by left|right; by left|right; right; exists out; by apply Hsub].
Qed.

Lemma stops_allowed p force snapPath t :
  Forall (on_containers "stop" p (rp_users p)) t -> Forall (allowed p force snapPath) t.
Proof.
  intros HF. eapply Forall_impl; [exact HF|]. intros o (n & out & Hn & ->). split; [done|]. left. by exists n.
Qed.
Lemma starts_allowed p force snapPath t : rp_users p <> [] ->
  Forall (on_containers "start" p (rp_running p)) t -> Forall (allowed p force snapPath) t.
Proof.
  intros Hu HF. eapply Forall_impl; [exact HF|]. intros o (n & out & Hn & ->). split; [done|].
  right; left. by exists n.
Qed.

Lemma to_start_spec p : (forall n, n ∈ rp_running p -> TrimSpace n <> "") ->
  wp (v_docker (rp_context p) (cli_StartContainers (to_start p))) (fun t _ =>
    Forall (on_containers "start" p (rp_running p)) t
    /\ ((forall n, n ∈ rp_running p -> exists out, ran (rp_context p) (container_line "start" n) (Ok out) ∈ t)
        \/ exists n e, ran (rp_context p) (container_line "start" n) (Err e) ∈ t)).
Proof.
  intros Hne. eapply wp_mono; [apply each_container_spec|]. intros t r [Ht Hr].
  assert (forall n, n ∈ to_start p <-> n ∈ rp_running p) as Hin.
  { intros n. unfold to_start. by rewrite elem_of_sort_strings, elem_of_remove_dups. }
  split.
  - eapply Forall_impl; [exact Ht|]. intros o (n & out & Hn & ->). exists n, out. by rewrite <- Hin.
  - destruct r as [[]|e]; [left|right; destruct Hr as (n & Hn); eauto].
    intros n Hn. apply Hr; [by apply Hin|by apply Hne].
Qed.

Lemma restore_work_spec p force snapPath :
  (forall n, n ∈ rp_users p \/ n ∈ rp_running p -> TrimSpace n <> "") ->
  wp (restore_work p force snapPath) (fun v r => Forall (allowed p force snapPath) v
    /\ (r = Ok tt -> restored p force snapPath v) /\ containers_kept p v r).
Proof.
  intros Hne. unfold restore_work. destruct (rp_users p) as [|user users] eqn:Hu.
  - eapply wp_mono; [apply restore_contents_spec|]. intros t r [Ht Hr].
    apply contents_allowed in Ht as [Ha Hno]. split; [done|]. split; [done|]. by left.
  - rewrite <- Hu. apply wp_bind. eapply wp_mono; [apply each_container_spec|]. rewrite <- Hu in Hne.
    intros t1 [[]|e] [H1' Hs].
    2:{ apply wp_ret. rewrite app_nil_r. split; [by apply stops_allowed|]. split; [done|].
        right; left. destruct Hs as (n & Hn). by exists n, e. }
    unfold try. apply wp_bind. eapply wp_mono; [apply restore_contents_spec|]. intros t2 r [H2' Hr].
    apply contents_allowed in H2' as [Ha Hno].
    apply wp_bind. eapply wp_mono; [apply to_start_spec; auto|]. intros t3 _ [H3' Hst].
    apply wp_ret. rewrite app_nil_r. split.
    { rewrite !Forall_app. split; [by apply stops_allowed|]. split; [done|].
      apply starts_allowed; [by rewrite Hu|done]. }
    split; [intros Hok; eapply restored_mono; [|by apply Hr]; set_solver|].
    right; right. exists t1, t2, t3. split_and!; [done| |done|done|done]. intros n Hn. apply Hs; auto.
Qed.

Lemma restore_volume_spec cfg force stopContainers arg snapPath :
  wp (restore_volume cfg force stopContainers arg snapPath) (fun t r =>
    exists u v, t = u ++ v /\ Forall v_looks u
      /\ ((v = [] /\ exists e, r = Err e)
          \/ exists p, restorable cfg force stopContainers arg snapPath u p
               /\ Forall (allowed p force snapPath) v
               /\ (r = Ok tt -> restored p force snapPath v)
               /\ containers_kept p v r)).
Proof.
  unfold restore_volume. apply wp_bind. eapply wp_mono; [apply restore_checks_spec|].
  intros u [p|e] [Hu Hp].
  2:{ apply wp_ret. exists u, []. split; [done|]. split; [done|]. left. eauto. }
  pose proof (Hp p eq_refl) as Hres.
  eapply wp_mono; [apply restore_work_spec|].
  - intros n Hn. destruct (rs_seen _ _ _ _ _ _ _ Hres) as [_ (o1 & _ & H1' & _) (o2 & _ & H2')].
    rewrite H1', H2' in Hn. destruct Hn as [Hn|Hn]; apply SplitNonEmptyLines_clean in Hn as [Hn ->]; done.
  - intros v r Hv. exists u, v. split; [done|]. split; [done|]. right. by exists p.
Qed.

(** C21: A restore starts the containers it stopped.  Once all containers of the
    volume were stopped, those that ran before are started after the work, however
    it ended, up to the first that does not start; when stopping one fails, the
    restore ends there with that error. *)
Theorem restore_restarts cfg force stopContainers arg snapPath :
  wp (restore_volume cfg force stopContainers arg snapPath) (fun t r =>
    exists u v, t = u ++ v /\ Forall v_looks u
      /\ ((v = [] /\ exists e, r = Err e)
          \/ exists p out, ran (rp_context p) (running_line (rp_volume p)) (Ok out) ∈ u
               /\ rp_running p = SplitNonEmptyLines out /\ containers_kept p v r)).
Proof.
  eapply wp_mono; [apply restore_volume_spec|]. intros t r (u & v & -> & Hu & Hv). exists u, v.
  split; [done|]. split; [done|]. destruct Hv as [?|(p & Hres & _ & _ & Hk)]; [by left|right].
  destruct (rs_seen _ _ _ _ _ _ _ Hres) as [_ _ (out & Ho & Hrun)]. by exists p, out.
Qed.

(** ** Where descriptions are written and looked for *)

(** The files a restore looks at. *)
Definition restore_file (snapPath : string) (o : obs command_effect) : Prop :=
  match o with
  | Obs (VHost (Stat path)) _ | Obs (VHost (Open path)) _ => path = snapPath
  | Obs (VHost (ReadFile path)) _ => path = sidecar snapPath
  | Obs (VHost _) _ => False
  | _ => True
  end.

Lemma v_docker_files {A} snapPath d (p : cli A) : always (restore_file snapPath) (v_docker d p).
Proof. apply always_v_docker. intros t a _. apply Forall_true. by intros [e r]. Qed.
Hint Resolve v_docker_files : dockform.

Lemma restore_files cfg force stopContainers arg snapPath :
  always (restore_file snapPath) (restore_volume cfg force stopContainers arg snapPath).
Proof.
  unfold restore_volume, restore_checks, restore_work, restore_state, restore_contents, verify_snapshot,
    verify_meta, compare_spec, Sha256FileHex, v_host, v_print.
  repeat (first [apply v_docker_files | always_tree_step | progress cbv zeta]; try done).
Qed.

Lemma sidecar_archive x : sidecar (x +:+ ".tar.zst") = x +:+ ".tar.json".
Proof.
  unfold sidecar. replace (x +:+ ".tar.zst") with ((x +:+ ".tar") +:+ ".zst") by by rewrite string_app_assoc.
  rewrite Ext_app, TrimSuffix_app by (by apply (bool_decide_eq_true_1 _)).
  by rewrite string_app_assoc.
Qed.

Lemma abs_path_suffix cs c s : abs_path (cs ++ [c +:+ s]) = abs_path (cs ++ [c]) +:+ s.
Proof.
  unfold abs_path. rewrite string_app_assoc. f_equal. induction cs as [|d cs IH]; [done|].
  rewrite <- !app_comm_cons, !Join_cons by (by destruct cs). by rewrite !string_app_assoc, IH.
Qed.

(** The description a snapshot writes is not the one a restore of its archive looks
    for: the snapshot names it after the archive without [.tar.zst], the restore
    without [.zst] only. *)
Theorem restore_misses_description cfg force stopContainers arg cs base :
  path_comps cs -> path_comps [base] ->
  always (fun o => forall r, o <> on_host (ReadFile (json_path (abs_path cs) base)) r)
    (restore_volume cfg force stopContainers arg (tar_path (abs_path cs) base)).
Proof.
  intros Hcs Hb. eapply always_mono; [apply restore_files|]. intros o Ho r ->. simpl in Ho.
  apply Forall_singleton in Hb as [(Hne & _) Hfree].
  assert (forall suffix, free slash suffix -> 3 <= String.length suffix ->
    PathJoin [abs_path cs; base +:+ suffix] = abs_path (cs ++ [base]) +:+ suffix) as Hjoin.
  { intros suffix Hs Hlen. rewrite <- abs_path_suffix. apply PathJoin_abs1; [done|].
    apply Forall_singleton. split; [|by apply free_app]. unfold normal_comp.
    split_and!; intros Heq%(f_equal String.length); rewrite string_length_app in Heq; simpl in Heq; lia. }
  unfold json_path, tar_path in Ho.
  rewrite (Hjoin ".json"), (Hjoin ".tar.zst"), sidecar_archive in Ho
    by (first [by apply (bool_decide_eq_true_1 _)|simpl; lia]).
  by apply (inj (String.app _)) in Ho.
Qed.

(** C20: A restore looks before it changes anything.  It first only looks; and then, only
    if the volume is one the manifest declares for that context, the daemon has it, the
    archive is of a known kind and passed the check below, the volume is empty or
    overwriting was forced, and it has no containers or stopping them was allowed, it
    changes: it stops containers that use the volume, runs the command that empties this
    volume when forced to, extracts the archive into it, and starts containers that ran.
    When it reports success, the content of the file was extracted, and the volume was
    empty or that command was run (which ignores what [rm] could not remove).  The check
    of the archive: if the restore finds a description [x.tar.json] beside [x.tar.zst] and
    can decode it, the archive has the digest it gives; without one there is no check.
    The description a snapshot writes is [x.json] and is never read, so that the digest
    of a snapshot is not checked as the comment there says it is. *)
Theorem restore_guarded cfg force stopContainers arg snapPath :
  wp (restore_volume cfg force stopContainers arg snapPath) (fun t r =>
    exists u v, t = u ++ v /\ Forall v_looks u
      /\ ((v = [] /\ exists e, r = Err e)
          \/ exists p, restorable cfg force stopContainers arg snapPath u p
               /\ Forall (allowed p force snapPath) v
               /\ (r = Ok tt -> exists content out, on_host (Open snapPath) (Ok content) ∈ v
                     /\ fed (rp_context p) content (extract_line snapPath (rp_volume p)) (Ok out) ∈ v
                     /\ (rp_empty p = true
                         \/ exists out, ran (rp_context p) (clear_line (rp_volume p)) (Ok out) ∈ v))))
  /\ (forall x, sidecar (x +:+ ".tar.zst") = x +:+ ".tar.json")
  /\ forall cs base, path_comps cs -> path_comps [base] -> snapPath = tar_path (abs_path cs) base ->
       always (fun o => forall r, o <> on_host (ReadFile (json_path (abs_path cs) base)) r)
         (restore_volume cfg force stopContainers arg snapPath).
Proof.
  split; [|split; [apply sidecar_archive|intros cs base Hcs Hb ->; by apply restore_misses_description]].
  eapply wp_mono; [apply restore_volume_spec|]. intros t r (u & v & -> & Hu & Hv). exists u, v.
  split; [done|]. split; [done|]. destruct Hv as [?|(p & Hres & Ha & Hr & _)]; [by left|right].
  exists p. split; [done|]. split; [done|]. intros Hok. destruct (Hr Hok) as (c & s & Hc & Hs & He).
  exists c, s. split; [done|]. split; [done|].
  destruct (rs_seen _ _ _ _ _ _ _ Hres) as [(_ & _ & _ & Hf) _ _].
  destruct He as [?|[?|?]]; [by left| |by right]. destruct Hf; [by left|congruence].
Qed.

(** ** Snapshots *)

(** Only the directory of the volume is written to, and docker only looked at. *)
Definition snapshot_step (volDir : string) (o : obs command_effect) : Prop :=
  match o with
  | Obs (VHost (MkdirAll path)) _ => path = volDir
  | Obs (VHost (Create path)) _ => exists base, path = tar_path volDir base
  | Obs (VHost (WriteFile path _)) _ => exists base, path = json_path volDir base
  | _ => v_looks o
  end.

Definition streamed (d : DockerClient) (vol : string) : obs command_effect :=
  Obs (E := command_effect) (VDocker d (Exec (RunWithStdout
    ["run"; "--rm"; "-v"; vol +:+ ":/src:ro"; HelperImage; "sh"; "-c";
     "set -eo pipefail; apk add --no-cache zstd >/dev/null 2>&1 || true; " +:+ tarFeatureDetect
     +:+ "; tar $TF -C '/src' -cf - . | zstd -q -z -T0 -19"]))) (Ok tt).

(** What a description says, of an archive [content]. *)
Definition describes (meta : snapshotMeta) (version note vol : string) (details : VolumeDetails)
    (content : string) : Prop :=
  sm_DockformVersion meta = version /\ sm_Notes meta = note /\ sm_VolumeName meta = vol
  /\ sm_SpecHash meta = computeSpecHash details /\ sm_Driver meta = vd_Driver details
  /\ sm_DriverOpts meta = vd_Options details /\ sm_Labels meta = vd_Labels details
  /\ sm_ChecksumAlgo meta = "sha256" /\ sm_ChecksumTarZst meta = Sha256Hex content.

(** The file [path] was written beside an archive that was streamed whole and read
    back. *)
Definition described (version note d vol volDir path jb : string) (t : list (obs command_effect)) : Prop :=
  exists base details content meta, path = json_path volDir base /\ streamed d vol ∈ t
    /\ on_host (Create (tar_path volDir base)) (Ok tt) ∈ t
    /\ on_host (Open (tar_path volDir base)) (Ok content) ∈ t
    /\ meta_encode meta = Ok jb /\ describes meta version note vol details content.

Lemma guard_looks {A} check (p : cli (res A)) d :
  always (fun o => v_looks (on_docker d o)) p -> always v_looks (v_docker d (guard check p)).
Proof. intros Hp. apply always_v_docker. unfold guard. destruct check; [apply always_ret|exact Hp]. Qed.

Lemma TarStats_looks d vol : always v_looks (v_docker d (TarStatsFromVolume vol)).
Proof.
  unfold TarStatsFromVolume. cbv zeta. apply guard_looks. unfold docker_run.
  repeat (always_tree_step; try (simpl; constructor)).
Qed.

Lemma Stream_spec d vol : wp (v_docker d (StreamTarZstdFromVolume vol)) (fun t r =>
  Forall v_looks t /\ Forall (fun o => forall o' x, o <> on_host o' x) t /\ (r = Ok tt -> streamed d vol ∈ t)).
Proof.
  apply wp_v_docker. unfold StreamTarZstdFromVolume, guard.
  destruct (requireNonEmpty _ _ _); [by apply wp_ret|].
  unfold docker_stream. wp_doop. intros r. split; [repeat constructor|]. split; [by repeat constructor|].
  intros ->. left.
Qed.

Lemma looks_step volDir o : v_looks o -> snapshot_step volDir o.
Proof. by destruct o as [[o|[]|d o] r]. Qed.
Lemma looks_steps volDir t : Forall v_looks t -> Forall (snapshot_step volDir) t.
Proof. intros Ht. eapply Forall_impl; [exact Ht|]. apply looks_step. Qed.

(** What only looks writes no file. *)
Lemma looks_no_write t path c x : Forall v_looks t -> on_host (WriteFile path c) x ∉ t.
Proof. intros HF Hin. rewrite Forall_forall in HF. exact (HF _ Hin). Qed.

Lemma write_description_spec tarPath volDir base jb :
  wp (write_description tarPath (json_path volDir base) jb) (fun t r =>
    Forall (snapshot_step volDir) t
    /\ (forall path jb' x, on_host (WriteFile path jb') x ∈ t -> path = json_path volDir base /\ jb' = jb)
    /\ (r = Ok tt -> exists path, on_host (WriteFile path jb) (Ok tt) ∈ t)).
Proof.
  assert (forall rest path jb' x w, Forall v_looks rest ->
    on_host (WriteFile path jb') x ∈ on_host (WriteFile (json_path volDir base) jb) w :: rest ->
    path = json_path volDir base /\ jb' = jb) as Hone.
  { intros rest path jb' x w HF [Heq|Hin]%elem_of_cons; [|by apply looks_no_write in Hin].
    pose proof (f_equal op_of Heq) as Hop. by injection Hop as -> ->. }
  unfold write_description, v_host, v_print. apply wp_bind. wp_doop. intros [[]|e]; apply wp_try.
  - apply wp_bind. wp_doop. intros []. apply wp_bind. wp_doop. intros []. apply wp_ret. simpl app. split_and!.
    + repeat constructor. by exists base.
    + intros path jb' x. apply Hone. by repeat constructor.
    + intros _. eexists. left.
  - split_and!; [repeat constructor; by exists base| |done]. intros path jb' x. by apply Hone.
Qed.

Lemma describe_snapshot_spec version note d vol details volDir base :
  wp (describe_snapshot version note d vol (computeSpecHash details) details
        (tar_path volDir base) (json_path volDir base)) (fun t r =>
    Forall (snapshot_step volDir) t
    /\ (forall path jb x, on_host (WriteFile path jb) x ∈ t -> path = json_path volDir base
         /\ exists content meta, on_host (Open (tar_path volDir base)) (Ok content) ∈ t
              /\ meta_encode meta = Ok jb /\ describes meta version note vol details content)
    /\ (r = Ok tt -> exists path jb, on_host (WriteFile path jb) (Ok tt) ∈ t)).
Proof.
  unfold describe_snapshot. apply wp_bind. eapply wp_mono; [apply TarStats_looks|]. intros t1 stats H1'.
  destruct (match stats with Ok s => s | Err _ => (0, 0)%Z end) as [bytes count].
  assert (forall t2 (r : res unit), Forall v_looks t2 -> (exists e, r = Err e) ->
    Forall (snapshot_step volDir) (t1 ++ t2)
    /\ (forall path jb x, on_host (WriteFile path jb) x ∈ t1 ++ t2 -> path = json_path volDir base
         /\ exists content meta, on_host (Open (tar_path volDir base)) (Ok content) ∈ t1 ++ t2
              /\ meta_encode meta = Ok jb /\ describes meta version note vol details content)
    /\ (r = Ok tt -> exists path jb, on_host (WriteFile path jb) (Ok tt) ∈ t1 ++ t2)) as Hend.
  { intros t2 r H2' (e & ->). assert (Forall v_looks (t1 ++ t2)) as HF by by apply Forall_app.
    split; [by apply looks_steps|]. split; [|done]. intros path jb x Hin. by apply looks_no_write in Hin. }
  unfold Sha256FileHex. apply wp_bind, wp_bind. unfold v_host at 1. wp_doop. intros [content|e];
    apply wp_ret, wp_try; [|apply Hend; [by repeat constructor|eauto]].
  apply wp_bind. unfold v_host. wp_doop. intros created. cbv zeta.
  apply wp_try. destruct (meta_encode _) as [jb|e] eqn:Hj; [|apply Hend; [by repeat constructor|eauto]].
  eapply wp_mono; [apply write_description_spec|]. intros t3 r (H3' & Hw & Hr). split_and!.
  - rewrite !Forall_app. split; [by apply looks_steps|]. by repeat constructor.
  - intros path jb' x Hin. assert (on_host (WriteFile path jb') x ∈ t3) as Hin3.
    { rewrite !elem_of_app in Hin. destruct Hin as [Hin|[Hin|[Hin|Hin]]]; [|set_solver|set_solver|done].
      by apply looks_no_write in Hin. }
    destruct (Hw _ _ _ Hin3) as [-> ->]. split; [done|]. exists content. eexists. split; [set_solver|].
    split; [exact Hj|]. by split_and!.
  - intros Hok. destruct (Hr Hok) as (path & Hin). exists path, jb. set_solver.
Qed.

(** A step before the description. *)
Definition undescribed (volDir : string) (o : obs command_effect) : Prop :=
  snapshot_step volDir o /\ match o with Obs (VHost (WriteFile _ _)) _ => False | _ => True end.

Lemma undescribed_looks volDir t : Forall v_looks t -> Forall (undescribed volDir) t.
Proof.
  intros HF. eapply Forall_impl; [exact HF|]. intros o Ho. split; [by apply looks_step|].
  by destruct o as [[o|[]|d o] r].
Qed.

Lemma undescribed_no_write volDir t path jb x : Forall (undescribed volDir) t -> on_host (WriteFile path jb) x ∉ t.
Proof. intros HF Hin. rewrite Forall_forall in HF. by destruct (HF _ Hin). Qed.

Definition snapshot_post (version note d vol volDir : string) (t : list (obs command_effect)) (r : res unit) : Prop :=
  Forall (snapshot_step volDir) t
  /\ (forall path jb x, on_host (WriteFile path jb) x ∈ t -> described version note d vol volDir path jb t)
  /\ (r = Ok tt -> exists path jb, on_host (WriteFile path jb) (Ok tt) ∈ t).

Lemma undescribed_end version note d vol volDir t e :
  Forall (undescribed volDir) t -> snapshot_post version note d vol volDir t (Err e).
Proof.
  intros HF. split; [eapply Forall_impl; [exact HF|]; by intros o []|]. split; [|done].
  intros path jb x Hin. by apply undescribed_no_write with (volDir := volDir) in Hin.
Qed.

(** The description of an archive that was created and streamed. *)
Lemma described_end version note d vol details volDir base t0 :
  Forall (undescribed volDir) t0 -> on_host (Create (tar_path volDir base)) (Ok tt) ∈ t0 -> streamed d vol ∈ t0 ->
  wp (describe_snapshot version note d vol (computeSpecHash details) details
        (tar_path volDir base) (json_path volDir base))
    (fun t r => snapshot_post version note d vol volDir (t0 ++ t) r).
Proof.
  intros H0' Hc Hs. eapply wp_mono; [apply describe_snapshot_spec|]. intros t r (Ht & Hw & Hr). split_and!.
  - apply Forall_app. split; [|done]. eapply Forall_impl; [exact H0'|]. by intros o [].
  - intros path jb x [Hin|Hin]%elem_of_app; [by apply undescribed_no_write with (volDir := volDir) in Hin|].
    destruct (Hw _ _ _ Hin) as (-> & content & meta & Ho & Hj & Hd).
    exists base, details, content, meta. split; [done|]. split; [set_solver|]. split; [set_solver|].
    split; [set_solver|done].
  - intros Hok. destruct (Hr Hok) as (path & jb & Hin). exists path, jb. set_solver.
Qed.

(** A snapshot changes nothing but its own directory, and describes what it
    holds.  The daemon is only looked at; the machine gets, below the directory of
    the context and volume, an archive and its description; a description is
    written only beside an archive that was streamed without an error, and its
    digest is that of the archive as it was read back; success means it was
    written. *)
Theorem snapshot_described version cfg outDirFlag note arg :
  wp (snapshot_volume version cfg outDirFlag note arg) (fun t r =>
    (t = [] /\ exists e, r = Err e)
    \/ exists d vol, resolveVolumeTarget cfg arg = Ok (d, vol) /\
      let volDir := snapshot_dir cfg outDirFlag d vol in
      Forall (snapshot_step volDir) t
      /\ (forall path jb x, on_host (WriteFile path jb) x ∈ t -> described version note d vol volDir path jb t)
      /\ (r = Ok tt -> exists path jb, on_host (WriteFile path jb) (Ok tt) ∈ t)).
Proof.
  unfold snapshot_volume. destruct (resolveVolumeTarget cfg arg) as [[d vol]|e]; [|apply wp_ret; left; eauto].
  set (volDir := snapshot_dir cfg outDirFlag d vol).
  eapply (wp_mono _ (snapshot_post version note d vol volDir));
    [|intros t r Ht; right; by exists d, vol].
  apply wp_bind. eapply wp_mono; [apply InspectVolume_looks|]. intros t1 det Ht1. apply wp_try.
  apply (undescribed_looks volDir) in Ht1.
  destruct det as [details|e]; [|rewrite app_nil_r; by apply undescribed_end].
  cbv zeta. apply wp_bind. unfold v_host at 1. wp_doop. intros ts.
  set (base := snapshot_base ts (computeSpecHash details)).
  apply wp_bind. unfold v_host at 1. wp_doop. intros [[]|e]; apply wp_try;
    [|apply undescribed_end; rewrite !Forall_app; by repeat constructor].
  apply wp_bind. unfold v_host. wp_doop. intros [[]|e]; apply wp_try;
    [|apply undescribed_end; rewrite !Forall_app; split; [done|]; repeat constructor; by exists base].
  apply wp_bind. eapply wp_mono; [apply Stream_spec|]. intros t2 [[]|e] (Ht2 & _ & Hs); apply wp_try;
    apply (undescribed_looks volDir) in Ht2.
  - eapply wp_mono; [apply (described_end _ _ d vol details volDir base
      (t1 ++ [on_host (Now timestamp_layout) ts; on_host (MkdirAll volDir) (Ok tt);
              on_host (Create (tar_path volDir base)) (Ok tt)] ++ t2))|].
    + rewrite !Forall_app. split; [done|]. split; [|done]. repeat constructor. by exists base.
    + set_solver.
    + specialize (Hs eq_refl). set_solver.
    + intros t r Ht. cbv beta in Ht. by rewrite <- !(assoc_L (++)) in Ht.
  - apply undescribed_end. rewrite app_nil_r, !Forall_app. split; [done|].
    repeat constructor; [by exists base|done].
Qed.
End Theorems.

(** ** An example *)

Definition one_volume : Config :=
  mkConfig "id" None (mkDiscovery [] "" "" "")
    {["far" := mkContext "ssh://far" {["data" := tt]} ∅]} ∅ ∅ "/base" false ∅ ∅.

(** Two containers use a volume that is not empty, one of them runs; the archive is
    truncated. *)
Definition in_use (o : command_effect) : answer o :=
  match o return answer (o : command_effect) with
  | VHost (Stat _) => StatOk false
  | VHost (ReadFile _) => Err (Missing (Plain "no such file"))
  | VHost (Open _) => Ok "half an archive"
  | VHost (Create _) | VHost (MkdirAll _) | VHost (WriteFile _ _) => Ok tt
  | VHost (CreateTemp _) => Ok "/tmp/x"
  | VHost (UserHomeDir) => Ok "/home"
  | VHost (LookPath _) => Ok tt
  | VHost (RunProcess _) => Ok ""
  | VHost (Remove _) => tt
  | VHost OsEnviron => []
  | VHost (Now _) | VHost (Getenv _) | VHost Elapsed => ""
  | VHost UnixNano => 0%Z
  | VDocker _ (Exec (RunWithStdin _ _)) => Err (Plain "unexpected end of file")
  | VDocker _ (Exec (Run args)) =>
      if bool_decide (args = exists_line) then Ok ("data" +:+ nl)
      else if bool_decide (args = empty_line "data") then Ok ("notempty" +:+ nl)
      else if bool_decide (args = users_line "data") then Ok ("web" +:+ nl +:+ "db" +:+ nl)
      else if bool_decide (args = running_line "data") then Ok ("web" +:+ nl)
      else Ok ""
  | VDocker _ (Exec (RunWithStdout _)) => Ok tt
  | VDocker _ (Exec (RunInDir _ _)) | VDocker _ (Exec (RunInDirWithEnv _ _ _)) => Ok ""
  | VDocker _ (Exec (RunWithOptions _ _)) => (mkResult "" "" 0, None)
  | VDocker _ (WriteTemp _ _) => Ok "/tmp/x"
  | VDocker _ (RemoveFile _) => tt
  | VDocker _ ContextErr => None
  | VSession o => answers "" o
  end.

Definition example_resources : ResourceDecoders := {|
  json_volume _ := Err (Plain "json"); json_volumes _ := Err (Plain "json");
  json_network _ := Err (Plain "json"); json_ps_row _ := Err (Plain "json") |}.
Definition example_codec : MetaCodec := {|
  meta_encode m := Ok (sm_ChecksumTarZst m); meta_decode _ := Err (Plain "json") |}.

(** The commands of a trace. *)
Definition commands (t : list (obs command_effect)) : list (list string) :=
  omap (fun o => match o with Obs (VDocker _ (Exec x)) _ => Some (exec_args x) | _ => None end) t.

Definition restore_in_use (force stopContainers : bool) : list (obs command_effect) * res unit :=
  run_tree in_use (@restore_volume canonical_range example_resources example_codec
    one_volume force stopContainers "far/data" "/base/data.tar.zst").

Definition volume_checks : list (list string) :=
  [exists_line; empty_line "data"; users_line "data"; running_line "data"].

(** Without [--force] and [--stop-containers] nothing is done; with both, the
    extraction fails, and the container that ran is started again. *)
Example restore_refused : commands (restore_in_use false true).1 = [exists_line; empty_line "data"]
  /\ commands (restore_in_use true false).1 = volume_checks.
Proof. by vm_compute. Qed.
Example restore_failed : commands (restore_in_use true true).1
  = volume_checks ++ [["container"; "stop"; "web"]; ["container"; "stop"; "db"]; clear_line "data";
      extract_line "data.tar.zst" "data"; ["container"; "start"; "web"]]
  /\ (restore_in_use true true).2 = Err (Plain "unexpected end of file").
Proof. by vm_compute. Qed.
