(* ===== verification/Secrets.v ===== *)
(** * Secrets ([internal/secrets], [internal/cli/secretcmd])

    Dotenv files encrypted by the [sops] executable: decrypting and parsing them,
    encrypting them in place, and the commands that create, re-encrypt, print and
    edit them.  The commands write a secret in plain text before they encrypt it;
    the theorems say when that text stays. *)

From S2P Require Import Prelude GoStrings GoPath Apperr Util Manifest Discovery Validation Targets Filesets Effects Docker ServiceState Resource Plan Validator Prompt Session HostOps.
From Stdlib Require Import Ascii.

(** ** Effects *)

Inductive secret_op : Type :=
| SSession (o : session_op)
| SHost (o : os_op).
Canonical Structure secret_effect : Effect := mkEffect secret_op (fun o => match o with
  | SSession o => answer (o : session)
  | SHost o => answer (o : os_effect)
  end).
Notation scmd A := (tree secret_effect A).

Definition s_session {A} : cmd A -> scmd A := embed (E := session) (F := secret_effect) SSession (fun _ r => r).
Definition s_host {A} : os A -> scmd A := embed (E := os_effect) (F := secret_effect) SHost (fun _ r => r).
Definition s_print (line : string) : scmd unit := do_op (E := secret_effect) (SSession (Print line)).

(** ** Dotenv files *)

(** [strings.Trim] with one byte. *)
Definition TrimByte (c : ascii) (s : string) : string :=
  TrimRightBytes (drop_while (Ascii.eqb c) s) (Ascii.eqb c).

Definition equals_char : ascii := "=".
Definition single_quote : ascii := "'".

(** One line of a dotenv file: blank lines, comments and lines that assign nothing
    are skipped. *)
Definition dotenv_line (line : string) : option string :=
  let line := TrimSpace line in
  if bool_decide (line = "") || HasPrefix line "#" then None else
  let line := if HasPrefix line "export " then TrimSpace (TrimPrefix line "export ") else line in
  match SplitN line equals_char 2 with
  | [k; v] =>
      let key := TrimSpace k in
      let val := TrimByte single_quote (TrimByte dq_char (TrimSpace v)) in
      if bool_decide (key = "") then None else Some (key +:+ "=" +:+ val)
  | _ => None
  end.
Definition parseDotenv (s : string) : list string := omap dotenv_line (Split s newline).

(** The text the commands write. *)
Definition dotenv_text (pairs : list string) : string := Join pairs nl +:+ nl.

(** ** The environment of sops *)

(** The first assignment to the variable is replaced, or one is added. *)
Fixpoint setEnv (env : list string) (key value : string) : list string :=
  match env with
  | [] => [key +:+ "=" +:+ value]
  | e :: env => if HasPrefix e (key +:+ "=") then (key +:+ "=" +:+ value) :: env
                else e :: setEnv env key value
  end.

(** A path below the home directory, when there is one. *)
Definition expand_home (path : string) : os string :=
  if HasPrefix path "~/" then
    home ← do_op UserHomeDir;
    mret (match home with Ok home => PathJoin [home; TrimPrefix path "~/"] | Err _ => path end)
  else mret path.

Definition age_env (env : list string) (opts : SopsOptions) : os (list string) :=
  if bool_decide (TrimSpace (so_AgeKeyFile opts) = "") then mret env else
  key ← expand_home (so_AgeKeyFile opts);
  let env := setEnv env "SOPS_AGE_KEY_FILE" key in
  b ← do_op (ReadFile key);
  mret (match b with Ok b => setEnv env "SOPS_AGE_KEY" b | Err _ => env end).

Definition pgp_env (env : list string) (opts : SopsOptions) : os (list string) :=
  if bool_decide (TrimSpace (so_PgpKeyringDir opts) = "") then mret env else
  dir ← expand_home (so_PgpKeyringDir opts);
  let env := setEnv env "GNUPGHOME" dir in
  mret (if bool_decide (ToLower (TrimSpace (so_PgpPinentryMode opts)) = "loopback") && negb (so_PgpUseAgent opts)
        then setEnv env "SOPS_GPG_EXEC" "gpg --pinentry-mode loopback" else env).

Definition buildSopsEnv (opts : SopsOptions) : os (list string) :=
  env ← do_op OsEnviron;
  env ← age_env env opts;
  pgp_env env opts.

(** ** Decryption and encryption *)

Definition no_backend (opts : SopsOptions) : bool :=
  bool_decide (TrimSpace (so_AgeKeyFile opts) = "") && bool_decide (TrimSpace (so_PgpKeyringDir opts) = "").

Definition decrypt_line (path : string) (env : list string) : process_line :=
  mkLine "sops" ["--decrypt"; "--input-type"; "dotenv"; path] (Some env).

Definition sops_missing (op : string) : error :=
  New op NotFound "sops binary not found on PATH; please install sops" [].

Definition sops_DecryptAndParse (path : string) (opts : SopsOptions) : os (res (list string)) :=
  let op := "secrets.DecryptAndParse" in
  if no_backend opts then
    b ← do_op (ReadFile path);
    mret (match b with
          | Err f => Err (wrap op NotFound (read_error f) "read plaintext file %s" [path])
          | Ok b => Ok (parseDotenv b)
          end)
  else
    found ← do_op (LookPath "sops");
    match found with
    | Err _ => mret (Err (sops_missing op))
    | Ok _ =>
        env ← buildSopsEnv opts;
        out ← do_op (RunProcess (decrypt_line path env));
        mret (match out with
              | Ok out => Ok (parseDotenv out)
              | Err (Exited stderr) => Err (wrap op External (Plain stderr) "sops decrypt %s" [path])
              | Err (NotStarted e) => Err (wrap op External e "sops decrypt %s" [path])
              end)
    end.

(** The identities of an age key file are the library's: an identity may have no
    recipient, and deriving it may fail. *)
Class AgeLib := { ParseIdentities : string -> res (list (option (res string))) }.

Section Age.
Context `{AgeLib}.

(** The recipients named in the comments of a key file. *)
Definition public_key (line : string) : option string :=
  let line := TrimSpace line in
  if HasPrefix line "# public key:" then
    let pk := TrimSpace (TrimPrefix line "# public key:") in
    if bool_decide (pk = "") then None else Some pk
  else None.

Definition AgeRecipientsFromKeyFile (ageKeyFile : string) : os (res (list string)) :=
  let op := "secrets.AgeRecipientsFromKeyFile" in
  if bool_decide (ageKeyFile = "") then mret (Err (New op InvalidInput "age key file path is empty" [])) else
  key ← expand_home ageKeyFile;
  f ← do_op (Open key);
  mret (match f with
  | Err e => Err (wrap op NotFound e "open age key file" [])
  | Ok b =>
      match ParseIdentities b with
      | Err e => Err (wrap op InvalidInput e "parse age identities" [])
      | Ok identities =>
          recips ← result_foldl (fun recips id =>
            match id with
            | None => Ok recips
            | Some (Err e) => Err (wrap op InvalidInput e "derive recipient" [])
            | Some (Ok r) => Ok (recips ++ [r])
            end) [] identities;
          Ok (match recips with [] => omap public_key (Split b newline) | _ => recips end)
      end
  end).
End Age.

(** Recipients without blanks, each an age recipient. *)
Definition valid_recipients (ageRecipients : list string) : res (list string) :=
  result_foldl (fun valid r =>
    let r := TrimSpace r in
    if bool_decide (r = "") then Ok valid
    else if HasPrefix r "age1" then Ok (valid ++ [r])
    else Err (New "secrets.EncryptDotenvFileWithSops" InvalidInput "age recipient: invalid format" []))
    [] ageRecipients.

Definition encrypt_args (validAge pgpRecipients : list string) (path : string) : list string :=
  ["--encrypt"; "--input-type"; "dotenv"; "--output-type"; "dotenv"; "--in-place"]
  ++ match validAge with [] => [] | _ => ["--age"; Join validAge ","] end
  ++ match pgpRecipients with [] => [] | _ => ["--pgp"; Join pgpRecipients ","] end
  ++ [path].

Definition EncryptDotenvFileWithSops (path : string) (ageRecipients pgpRecipients : list string)
    (opts : SopsOptions) : os (res unit) :=
  let op := "secrets.EncryptDotenvFileWithSops" in
  match ageRecipients ++ pgpRecipients with
  | [] => mret (Err (New op InvalidInput "no recipients provided" []))
  | _ =>
      st ← do_op (Stat path);
      match st with
      | StatNotExist => mret (Err (wrap op NotFound (Plain "no such file or directory") "read plaintext" []))
      | StatErr e => mret (Err (wrap op NotFound e "read plaintext" []))
      | StatOk _ =>
          found ← do_op (LookPath "sops");
          match found with
          | Err _ => mret (Err (sops_missing op))
          | Ok _ =>
              env ← buildSopsEnv opts;
              match valid_recipients ageRecipients with
              | Err e => mret (Err e)
              | Ok validAge =>
                  out ← do_op (RunProcess (mkLine "sops" (encrypt_args validAge pgpRecipients path) (Some env)));
                  mret (match out with
                        | Ok _ => Ok tt
                        | Err (Exited out) => Err (wrap op External (Plain out) "sops encrypt %s" [path])
                        | Err (NotStarted _) => Err (wrap op External (Plain "") "sops encrypt %s" [path])
                        end)
              end
          end
      end
  end.

(** ** The commands *)

Record sopsResolved := mkResolved {
  sr_opts : SopsOptions; sr_age : list string; sr_pgp : list string }.

Section Commands.
Context (h : Host) (decode_contexts : string -> res (gmap string unit)) (decode : string -> res Config).
Context `{MapRange} `{AgeLib} `{TextInput} `{Styles}.

(** [manifest.Load] prints its warnings. *)
Definition loadConfigWithManifestSelection (flag : string) : cmd (res Config) :=
  file ← ResolveManifestPath h decode_contexts flag "." 3;
  try file id (fun file =>
  match LoadWithWarnings decode h file with
  | (Err e, _) => mret (Err e)
  | (Ok cfg, missing) =>
      _ ← for_each (fun _ name => do_op (Print ("warning: environment variable " +:+ name
             +:+ " is not set; replacing with empty string"))) tt missing;
      mret (Ok cfg)
  end).

Definition no_sops : SopsOptions := mkSopsOptions "" "" false "" "".

Definition sops_options (ageKey : string) (pgp : option SopsPgpConfig) : SopsOptions :=
  match pgp with
  | None => mkSopsOptions ageKey "" false "" ""
  | Some p => mkSopsOptions ageKey (pgp_KeyringDir p) (pgp_UseAgent p) (pgp_PinentryMode p) (pgp_Passphrase p)
  end.

(** Explicit age recipients, or those of the key file. *)
Definition age_recipients (age : option SopsAgeConfig) : os (res (list string)) :=
  match age with
  | None => mret (Ok [])
  | Some a =>
      match age_Recipients a with
      | [] => if bool_decide (TrimSpace (age_KeyFile a) = "") then mret (Ok [])
              else AgeRecipientsFromKeyFile (age_KeyFile a)
      | rs => mret (Ok rs)
      end
  end.

Definition resolveRecipientsAndKey (cfg : Config) : os (res sopsResolved) :=
  let op := "cli.resolveRecipientsAndKey" in
  match cfg_Sops cfg with
  | None => mret (Err (New op InvalidInput "sops config not configured" []))
  | Some sops =>
      age ← age_recipients (sops_Age sops);
      try age id (fun age =>
      let pgp := match sops_Pgp sops with Some p => pgp_Recipients p | None => [] end in
      match age ++ pgp with
      | [] => mret (Err (New op InvalidInput "no sops recipients configured (age or pgp)" []))
      | _ => mret (Ok (mkResolved (sops_options (match sops_Age sops with Some a => age_KeyFile a | None => "" end)
                                    (sops_Pgp sops)) age pgp))
      end)
  end.

Definition encrypt (r : sopsResolved) (path : string) : scmd (res unit) :=
  s_host (EncryptDotenvFileWithSops path (sr_age r) (sr_pgp r) (sr_opts r)).

(** Plain text at the path, then encrypted in place. *)
Definition write_encrypted (r : sopsResolved) (path plain : string) : scmd (res unit) :=
  w ← s_host (do_op (WriteFile path plain));
  try (w : res unit) id (fun _ => encrypt r path).

Definition prepare (flag : string) : scmd (res (Config * sopsResolved)) :=
  cfg ← s_session (loadConfigWithManifestSelection flag);
  try cfg id (fun cfg =>
  r ← s_host (resolveRecipientsAndKey cfg);
  try r id (fun r => mret (Ok (cfg, r)))).

Definition seed_text : string := "SECRET_KEY=secret" +:+ nl.

Definition create_secret (r : sopsResolved) (path : string) : scmd (res unit) :=
  st ← s_host (do_op (Stat path));
  match (st : StatResult) with
  | StatOk _ => mret (Err (New "cli.newSecretCreateCmd" InvalidInput "target exists: %s" [path]))
  | _ =>
      m ← s_host (do_op (MkdirAll (Dir path)));
      try (m : res unit) id (fun _ =>
      e ← write_encrypted r path seed_text;
      try e id (fun _ => _ ← s_print ("secret created: " +:+ path); mret (Ok tt)))
  end.

Definition create_command (flag path : string) : scmd (res unit) :=
  p ← prepare flag;
  try p id (fun '(_, r) => create_secret r path).

Definition secret_path (cfg : Config) (p : string) : string :=
  if IsAbs p then p else PathJoin [cfg_BaseDir cfg; p].

Definition rekey_file (cfg : Config) (r : sopsResolved) (_ : unit) (p : string) : scmd (res unit) :=
  let path := secret_path cfg p in
  pairs ← s_host (sops_DecryptAndParse path (sr_opts r));
  try pairs id (fun pairs =>
  e ← write_encrypted r path (dotenv_text pairs);
  try e id (fun _ => _ ← s_print (p +:+ " reencrypted"); mret (Ok tt))).

Definition rekey_all (cfg : Config) (r : sopsResolved) : scmd (res unit) :=
  match GetAllSopsSecrets cfg with
  | [] => _ ← s_print "No secret files found in manifest. Secrets are now defined per-stack via SopsSecrets field.";
          mret (Ok tt)
  | files => for_each_res (rekey_file cfg r) tt files
  end.

Definition rekey_command (flag : string) : scmd (res unit) :=
  p ← prepare flag;
  try p id (fun '(cfg, r) => rekey_all cfg r).

Definition decrypt_options (cfg : Config) : SopsOptions :=
  match cfg_Sops cfg with
  | None => no_sops
  | Some sops => sops_options (match sops_Age sops with Some a => age_KeyFile a | None => "" end) (sops_Pgp sops)
  end.

Definition decrypt_command (flag path : string) : scmd (res unit) :=
  cfg ← s_session (loadConfigWithManifestSelection flag);
  try cfg id (fun cfg =>
  pairs ← s_host (sops_DecryptAndParse path (decrypt_options cfg));
  try pairs id (fun pairs => _ ← s_print (dotenv_text pairs); mret (Ok tt))).

(** The editor on the temporary file, whose content is returned. *)
Definition edit_text (tmp plain : string) : os (res string) :=
  w ← do_op (WriteFile tmp plain);
  try w id (fun _ =>
  ed ← do_op (Getenv "EDITOR");
  let editor := if bool_decide (ed = "") then "vi" else ed in
  out ← do_op (RunProcess (mkLine editor [tmp] None));
  match out with
  | Err (Exited s) => mret (Err (Plain s))
  | Err (NotStarted e) => mret (Err e)
  | Ok _ => b ← do_op (ReadFile tmp); mret (match b with Ok b => Ok b | Err f => Err (read_error f) end)
  end).

Definition edit_in_temp (r : sopsResolved) (path tmp : string) : scmd (res unit) :=
  pairs ← s_host (sops_DecryptAndParse path (sr_opts r));
  try pairs id (fun pairs =>
  b ← s_host (edit_text tmp (dotenv_text pairs));
  try b id (fun b =>
  e ← write_encrypted r path b;
  try e id (fun _ => _ ← s_print ("secret updated: " +:+ path); mret (Ok tt)))).

(** The temporary file is removed however the edit ends. *)
Definition edit_secret (r : sopsResolved) (path : string) : scmd (res unit) :=
  tmp ← s_host (do_op (CreateTemp "dockform-secret-*.env"));
  try (tmp : res string) id (fun tmp =>
  e ← edit_in_temp r path tmp;
  _ ← s_host (do_op (Remove tmp));
  mret e).

Definition edit_command (flag path : string) : scmd (res unit) :=
  p ← prepare flag;
  try p id (fun '(_, r) => edit_secret r path).
End Commands.

(** ** Plain text is encrypted again *)

Notation on_host := (fun (o : os_op) (r : answer (o : os_effect)) => Obs (E := secret_effect) (SHost o) r).

(** The age recipients that are not blank, as sops gets them. *)
Definition named_recipients (rs : list string) : list string := filter (fun r => r <> "") (TrimSpace <$> rs).
(** An option with a comma-separated list, if there is one. *)
Definition list_option (flag : string) (values : list string) : list string :=
  if bool_decide (values = []) then [] else [flag; Join values ","].

(** sops succeeded in encrypting the file in place, as dotenv, for exactly the age
    recipients that are not blank, which all look like one, and the pgp recipients. *)
Definition encrypted (r : sopsResolved) (path : string) (o : obs secret_effect) : Prop :=
  Forall (fun a => HasPrefix a "age1" = true) (named_recipients (sr_age r)) /\ exists env out,
    o = on_host (RunProcess (mkLine "sops"
          (["--encrypt"; "--input-type"; "dotenv"; "--output-type"; "dotenv"; "--in-place"]
           ++ list_option "--age" (named_recipients (sr_age r)) ++ list_option "--pgp" (sr_pgp r) ++ [path])
          (Some env))) (Ok out).

Lemma valid_recipients_named rs valid : valid_recipients rs = Ok valid ->
  valid = named_recipients rs /\ Forall (fun a => HasPrefix a "age1" = true) valid.
Proof.
  unfold valid_recipients, named_recipients.
  assert (forall acc, result_foldl (fun valid r => let r := TrimSpace r in
    if bool_decide (r = "") then Ok valid else if HasPrefix r "age1" then Ok (valid ++ [r])
    else Err (New "secrets.EncryptDotenvFileWithSops" InvalidInput "age recipient: invalid format" [])) acc rs = Ok valid ->
    exists new, valid = acc ++ new /\ new = filter (fun r => r <> "") (TrimSpace <$> rs)
      /\ Forall (fun a => HasPrefix a "age1" = true) new) as Hgen.
  { induction rs as [|r rs IH]; intros acc; cbn [result_foldl].
    { intros [= <-]. exists []. by rewrite app_nil_r. }
    cbv zeta. rewrite fmap_cons, filter_cons. case_bool_decide as Hr.
    - rewrite decide_False by (by intros ?). apply IH.
    - rewrite decide_True by done. destruct (HasPrefix (TrimSpace r) "age1") eqn:Ha; [|done].
      intros (new & -> & -> & HF)%IH. eexists. rewrite <- (assoc_L (++)). split; [done|]. split; [done|by constructor]. }
  intros (new & -> & -> & HF)%Hgen. done.
Qed.

Lemma encrypt_args_written validAge pgp path : encrypt_args validAge pgp path =
  ["--encrypt"; "--input-type"; "dotenv"; "--output-type"; "dotenv"; "--in-place"]
  ++ list_option "--age" validAge ++ list_option "--pgp" pgp ++ [path].
Proof. unfold encrypt_args, list_option. by destruct validAge, pgp. Qed.

Definition writes_none (o : obs secret_effect) : Prop :=
  match o with Obs (SHost (WriteFile _ _)) _ => False | _ => True end.

(** Every file written, except [tmp], was then encrypted or removed, unless the
    command failed and that was the last file it wrote. *)
Definition settled (r : sopsResolved) (tmp : option string) (t : list (obs secret_effect)) (a : res unit) : Prop :=
  forall t1 path c x t2, t = t1 ++ on_host (WriteFile path c) x :: t2 ->
    tmp = Some path \/ Exists (encrypted r path) t2 \/ on_host (Remove path) tt ∈ t2
    \/ (Forall writes_none t2 /\ exists e, a = Err e).

Section Settled.
Context (r : sopsResolved).

Lemma settled_no_writes tmp t a : Forall writes_none t -> settled r tmp t a.
Proof.
  intros HF t1 path c x t2 ->. apply Forall_app in HF as [_ HF]. by apply Forall_cons in HF as [HF _].
Qed.

(** The place of an element in a concatenation. *)
Lemma split_app {A} (t1 t2 s1 s2 : list A) x : t1 ++ t2 = s1 ++ x :: s2 ->
  (exists u, t1 = s1 ++ x :: u /\ s2 = u ++ t2) \/ exists u, s1 = t1 ++ u /\ t2 = u ++ x :: s2.
Proof.
  intros Heq. apply app_eq_app in Heq as (u & [[-> Hu]|[-> Hu]]).
  - destruct u as [|y u].
    + right. exists []. rewrite !app_nil_r. by rewrite app_nil_l in Hu.
    + injection Hu as <- Hu. left. exists u. done.
  - right. by exists u.
Qed.

(** What follows a part that succeeded. *)
Lemma settled_app tmp t1 t2 a : settled r tmp t1 (Ok tt) -> settled r tmp t2 a -> settled r tmp (t1 ++ t2) a.
Proof.
  intros H1 H2 s1 path c x s2 [(u & -> & ->)|(u & -> & ->)]%split_app.
  - destruct (H1 s1 path c x u eq_refl) as [Ht|[He|[Hr|[_ (e & [=])]]]];
      [by left|right; left; apply Exists_app; by left|right; right; left; set_solver].
  - by apply (H2 u path c x s2).
Qed.

(** What follows writes nothing. *)
Lemma settled_snoc tmp t1 t2 a : settled r tmp t1 a -> Forall writes_none t2 -> settled r tmp (t1 ++ t2) a.
Proof.
  intros H1 H2 s1 path c x s2 [(u & -> & ->)|(u & -> & ->)]%split_app.
  - destruct (H1 s1 path c x u eq_refl) as [Ht|[He|[Hr|[Hw He]]]];
      [by left|right; left; apply Exists_app; by left|right; right; left; set_solver|].
    do 3 right. split; [by apply Forall_app|done].
  - apply Forall_app in H2 as [_ H2]. by apply Forall_cons in H2 as [H2 _].
Qed.

Definition os_writes_none (o : obs os_effect) : Prop := match o with Obs (WriteFile _ _) _ => False | _ => True end.

Lemma s_host_none {A} (p : os A) : always os_writes_none p -> always writes_none (s_host p).
Proof. intros Hp. apply (always_embed _ _ os_writes_none); [exact Hp|]. by intros [] ?. Qed.

Ltac none_auto := repeat (first [progress cbv zeta | always_tree_step]; try done).

Lemma expand_home_none path : always os_writes_none (expand_home path).
Proof. unfold expand_home. none_auto. Qed.
Hint Resolve expand_home_none : dockform.
Lemma buildSopsEnv_none opts : always os_writes_none (buildSopsEnv opts).
Proof. unfold buildSopsEnv, age_env, pgp_env. none_auto. Qed.
Hint Resolve buildSopsEnv_none : dockform.
Lemma Decrypt_none path opts : always writes_none (s_host (sops_DecryptAndParse path opts)).
Proof. apply s_host_none. unfold sops_DecryptAndParse. none_auto. Qed.

(** An encryption that succeeded ran sops on the path. *)
Lemma Encrypt_ran path age pgp opts :
  wp (EncryptDotenvFileWithSops path age pgp opts) (fun t a => Forall os_writes_none t
    /\ (a = Ok tt -> exists validAge env out, valid_recipients age = Ok validAge
         /\ Obs (RunProcess (mkLine "sops" (encrypt_args validAge pgp path) (Some env))) (Ok out) ∈ t)).
Proof.
  unfold EncryptDotenvFileWithSops. cbv zeta. destruct (age ++ pgp) as [|re rs]; [by apply wp_ret|].
  apply wp_bind. wp_doop. intros [dir| |e]; [|by apply wp_ret; repeat constructor..].
  apply wp_bind. wp_doop. intros [[]|e]; [|by apply wp_ret; repeat constructor].
  apply wp_bind. eapply wp_mono; [apply buildSopsEnv_none|]. intros t env Ht. cbv beta in Ht.
  destruct (valid_recipients age) as [validAge|e] eqn:Hv;
    [|apply wp_ret; rewrite app_nil_r; by repeat constructor].
  apply wp_bind. wp_doop. intros out. apply wp_ret. rewrite app_nil_r. split.
  - repeat constructor. apply Forall_app. split; [done|by repeat constructor].
  - destruct out as [out|[]]; [|done..]. intros _. exists validAge, env, out. split; [done|]. set_solver.
Qed.

Lemma encrypt_spec path :
  wp (encrypt r path) (fun t a => Forall writes_none t /\ (a = Ok tt -> Exists (encrypted r path) t)).
Proof.
  intros t a (u & Hu & HF)%exec_embed. destruct (Encrypt_ran _ _ _ _ u a Hu) as [Hn Hx]. split.
  - clear Hu Hx. induction HF as [|o o' u t (e & x & -> & ->) HF IH]; [done|].
    apply Forall_cons in Hn as [Ho Hn]. constructor; [by destruct e|by apply IH].
  - intros Hok. destruct (Hx Hok) as (validAge & env & out & Hv & Hin).
    apply list_elem_of_lookup in Hin as [i Hi]. destruct (Forall2_lookup_l _ _ _ _ _ HF Hi) as (o' & Ho & e & x & He & ->).
    apply Exists_exists. eexists. split; [by eapply list_elem_of_lookup_2|].
    apply valid_recipients_named in Hv as [-> Hage]. rewrite encrypt_args_written in He.
    split; [done|]. exists env, out.
    pose proof (f_equal (fun o : obs os_effect => match o with Obs e r => Obs (E := secret_effect) (SHost e) r end) He) as Hz.
    first [exact Hz | exact (eq_sym Hz)].
Qed.

Lemma write_encrypted_settled tmp path plain : wp (write_encrypted r path plain) (settled r tmp).
Proof.
  unfold write_encrypted. apply wp_bind. unfold s_host. cbn [embed do_op].
  apply wp_vis. intros w. apply wp_ret. apply wp_try.
  assert (forall t a, Forall writes_none t -> (a = Ok tt -> Exists (encrypted r path) t) ->
    settled r tmp (on_host (WriteFile path plain) w :: t) a) as Hs.
  { intros t a Hn Hx t1 p c x t2 Heq. destruct t1 as [|o t1].
    - pose proof (f_equal (fun l => match l with Obs e _ :: _ => Some e | [] => None end) Heq) as Hop.
      injection Hop as -> _. apply (f_equal tail) in Heq. simpl in Heq. subst t2.
      right. destruct a as [[]|e]; [left; by apply Hx|]. right; right. split; [done|eauto].
    - apply (f_equal tail) in Heq. simpl in Heq. subst t.
      apply Forall_app in Hn as [_ Hn]. by apply Forall_cons in Hn as [Hn _]. }
  destruct w as [[]|e]; [|by apply Hs].
  eapply wp_mono; [apply encrypt_spec|]. intros t a [Hn Hx]. by apply Hs.
Qed.

(** Steps that write nothing, before and after. *)
Lemma settled_after {A} tmp (p : scmd A) (f : A -> scmd (res unit)) :
  always writes_none p -> (forall a, wp (f a) (settled r tmp)) -> wp (p ≫= f) (settled r tmp).
Proof.
  intros Hp Hf. apply wp_bind. eapply wp_mono; [exact Hp|]. intros t a Ht. eapply wp_mono; [apply Hf|].
  intros t' b Hb. apply settled_app; [by apply settled_no_writes|done].
Qed.

Lemma settled_try {A} tmp (a : res A) (f : A -> scmd (res unit)) :
  (forall x, wp (f x) (settled r tmp)) -> wp (try a id f) (settled r tmp).
Proof. intros Hf. apply wp_try. destruct a as [x|e]; [apply Hf|]. by apply settled_no_writes. Qed.

Lemma settled_none tmp (p : scmd (res unit)) : always writes_none p -> wp p (settled r tmp).
Proof. intros Hp. eapply wp_mono; [exact Hp|]. intros t a. apply settled_no_writes. Qed.

Lemma settled_then_print tmp (p : scmd (res unit)) line : wp p (settled r tmp) ->
  wp (e ← p; try e id (fun _ => _ ← s_print line; mret (Ok tt))) (settled r tmp).
Proof.
  intros Hp. apply wp_bind. eapply wp_mono; [exact Hp|]. intros t [[]|e] Ht; apply wp_try.
  - unfold s_print. apply wp_bind. wp_doop. intros []. apply wp_ret.
    apply settled_app; [done|]. apply settled_no_writes. by repeat constructor.
  - by rewrite app_nil_r.
Qed.

Lemma create_settled path : wp (create_secret r path) (settled r None).
Proof.
  unfold create_secret. apply settled_after; [apply s_host_none; none_auto|].
  intros [dir| |e]; [apply settled_none, always_ret|..];
    (apply settled_after; [apply s_host_none; none_auto|]; intros m; apply settled_try; intros [];
     apply settled_then_print, write_encrypted_settled).
Qed.

Lemma rekey_file_settled cfg u p : wp (rekey_file cfg r u p) (settled r None).
Proof.
  unfold rekey_file. cbv zeta. apply settled_after; [apply Decrypt_none|]. intros pairs.
  apply settled_try. intros x. apply settled_then_print, write_encrypted_settled.
Qed.

Lemma rekey_settled `{MapRange} cfg : wp (rekey_all cfg r) (settled r None).
Proof.
  unfold rekey_all. destruct (GetAllSopsSecrets cfg) as [|p ps].
  { apply settled_none. unfold s_print. none_auto. }
  eapply wp_mono; [apply (wp_for_each_res (fun t s => settled r None t (Ok s)) (fun t e => settled r None t (Err e)))|].
  - by apply settled_no_writes.
  - intros t [] q _ Ht. eapply wp_mono; [apply rekey_file_settled|].
    intros t' [[]|e] Ht'; by apply settled_app.
  - by intros t [[]|e].
Qed.

Lemma edit_text_tmp tmp plain :
  wp (s_host (edit_text tmp plain)) (fun t _ => forall a, settled r (Some tmp) t a).
Proof.
  assert (wp (s_host (edit_text tmp plain)) (fun t _ =>
    Forall (fun o => match o with Obs (SHost (WriteFile p _)) _ => p = tmp | _ => True end) t)) as Hp.
  { apply (always_embed _ _ (fun o => match o with Obs (WriteFile p _) _ => p = tmp | _ => True end));
      [|by intros [] ?]. unfold edit_text. none_auto. }
  eapply wp_mono; [exact Hp|]. intros t _ HF a t1 path c x t2 ->. left.
  apply Forall_app in HF as [_ HF]. apply Forall_cons in HF as [-> _]. done.
Qed.

Lemma edit_in_temp_settled path tmp : wp (edit_in_temp r path tmp) (settled r (Some tmp)).
Proof.
  unfold edit_in_temp. apply settled_after; [apply Decrypt_none|]. intros pairs. apply settled_try. intros x.
  apply wp_bind. eapply wp_mono; [apply edit_text_tmp|]. intros t b Ht. apply wp_try.
  destruct b as [b|e]; [|rewrite app_nil_r; apply Ht].
  eapply wp_mono; [apply settled_then_print, write_encrypted_settled|]. intros t' a. by apply settled_app.
Qed.

Lemma edit_settled path : wp (edit_secret r path) (settled r None).
Proof.
  unfold edit_secret. apply settled_after; [apply s_host_none; none_auto|]. intros [tmp|e];
    [|by apply wp_ret, settled_no_writes]. unfold try.
  apply wp_bind. eapply wp_mono; [apply edit_in_temp_settled|]. intros t a Ht.
  apply wp_bind. unfold s_host. cbn [embed do_op]. apply wp_vis. intros []. apply wp_ret, wp_ret.
  intros t1 p c x t2 Heq.
  assert (settled r (Some tmp) (t ++ [on_host (Remove tmp) tt]) a) as Hs
    by (apply settled_snoc; [done|by repeat constructor]).
  destruct (Hs t1 p c x t2 Heq) as [[= ->]|Hrest]; [|by right].
  right; right; left. apply split_app in Heq as [(u & -> & ->)|(u & -> & Heq)]; [set_solver|].
  destruct u as [|o u]; [|apply (f_equal length) in Heq; rewrite !length_app in Heq; simpl in Heq; lia].
  by apply (f_equal (fun l => match l with Obs e _ :: _ => Some e | [] => None end)) in Heq.
Qed.
End Settled.

(** C27: Secrets are left encrypted.  Whatever [secrets create], [rekey] or [edit]
    write, sops then encrypts in place, or they remove, the temporary file of an edit;
    only when a command fails may plain text stay, and then in the last file it wrote
    only.  sops is given the pgp recipients and the age recipients that are not blank,
    all of which begin with [age1]; when every configured recipient is blank it is given
    none and decides by itself for whom to encrypt. *)
Theorem secrets_encrypted `{MapRange} r cfg path :
  wp (create_secret r path) (settled r None)
  /\ wp (rekey_all cfg r) (settled r None)
  /\ wp (edit_secret r path) (settled r None).
Proof. split_and!; [apply create_settled|apply rekey_settled|apply edit_settled]. Qed.

(** ** What is written is read again *)

(** A part of a string. *)
Definition part_of (s t : string) : Prop := exists a b, t = a +:+ s +:+ b.

#[global] Instance part_of_preorder : PreOrder part_of.
Proof.
  split.
  - intros s. exists "", "". by rewrite string_app_nil_r.
  - intros s t u (a & b & ->) (a' & b' & ->). exists (a' +:+ a), (b +:+ b'). by rewrite !string_app_assoc.
Qed.

Lemma part_free c s t : part_of s t -> free c t -> free c s.
Proof. intros (a & b & ->). rewrite !free_app. tauto. Qed.

Lemma part_prefix s r : part_of s (s +:+ r).
Proof. by exists "", r. Qed.
Lemma part_suffix s r : part_of s (r +:+ s).
Proof. exists r, "". by rewrite string_app_nil_r. Qed.
Hint Resolve part_prefix part_suffix : dockform.

Lemma TrimSpace_part s : part_of (TrimSpace s) s.
Proof.
  unfold TrimSpace. transitivity (trim_left s).
  - destruct (trim_right_prefix (trim_left s)) as [r Hr]. rewrite Hr at 2. apply part_prefix.
  - destruct (trim_with_spec space1 space2 space3 s) as [_ [p Hp]]. unfold trim_left at 1.
    rewrite Hp at 2. apply part_suffix.
Qed.

Lemma drop_while_part f s : part_of (drop_while f s) s.
Proof.
  induction s as [|c s IH]; [reflexivity|]. simpl. destruct (f c); [|reflexivity].
  transitivity s; [done|]. exists (String c ""), "". by rewrite string_app_nil_r.
Qed.

Lemma rev_part s t : part_of s t -> part_of (string_rev s) (string_rev t).
Proof.
  intros (a & b & ->). exists (string_rev b), (string_rev a). by rewrite !string_rev_app, string_app_assoc.
Qed.

Lemma TrimByte_part c s : part_of (TrimByte c s) s.
Proof.
  unfold TrimByte, TrimRightBytes. transitivity (drop_while (Ascii.eqb c) s); [|apply drop_while_part].
  rewrite <- (string_rev_involutive (drop_while (Ascii.eqb c) s)) at 2. apply rev_part, drop_while_part.
Qed.

Lemma TrimPrefix_part s p : part_of (TrimPrefix s p) s.
Proof.
  unfold TrimPrefix. destruct (strip_prefix p s) as [r|] eqn:Hs; [|reflexivity].
  apply strip_prefix_Some in Hs as ->. apply part_suffix.
Qed.

Lemma dotenv_line_free line p c : c <> equals_char -> free c line -> dotenv_line line = Some p -> free c p.
Proof.
  intros Hc Hf. unfold dotenv_line. cbv zeta. destruct (_ || _); [done|].
  set (l := if HasPrefix _ _ then _ else _).
  assert (part_of l line) as Hl.
  { subst l. destruct (HasPrefix _ _); [|apply TrimSpace_part].
    etransitivity; [apply TrimSpace_part|]. etransitivity; [apply TrimPrefix_part|]. apply TrimSpace_part. }
  cbn [SplitN]. destruct (Cut l equals_char) as [[k v]|] eqn:Hcut; [|done].
  apply Cut_Some in Hcut as [_ Heq]. case_bool_decide; [done|]. intros [= <-].
  assert (part_of k line) as Hk by (etransitivity; [|exact Hl]; rewrite Heq; apply part_prefix).
  assert (part_of v line) as Hv.
  { etransitivity; [|exact Hl]. rewrite Heq. exists (k +:+ "="), "".
    by rewrite string_app_nil_r, string_app_assoc. }
  rewrite !free_app, free_cons. split; [eapply part_free; [|exact Hf]; etransitivity; [apply TrimSpace_part|done]|].
  split; [by split; [|apply free_nil]|]. eapply part_free; [|exact Hf].
  etransitivity; [apply TrimByte_part|]. etransitivity; [apply TrimByte_part|].
  etransitivity; [apply TrimSpace_part|done].
Qed.

Lemma parse_text pairs : Forall (free newline) pairs -> parseDotenv (dotenv_text pairs) = omap dotenv_line pairs.
Proof.
  intros HF. unfold parseDotenv, dotenv_text, nl at 2. rewrite Split_app_sep, omap_app.
  destruct pairs as [|p ps]; [done|]. rewrite (Split_Join _ newline) by done. by rewrite app_nil_r.
Qed.

Lemma omap_fixed {A} (f : A -> option A) l : omap f l = l <-> Forall (fun x => f x = Some x) l.
Proof.
  split; [|induction 1 as [|x l Hx _ IH]; [done|]; csimpl; by rewrite Hx, IH].
  assert (forall l, length (omap f l) <= length l) as Hlen.
  { clear. intros l. induction l as [|x l IH]; [done|]. csimpl. destruct (f x); simpl; lia. }
  induction l as [|x l IH]; [done|]. csimpl. destruct (f x) as [y|] eqn:Hx.
  - intros [= -> Hl]. constructor; [done|by apply IH].
  - intros Hl. specialize (Hlen l). rewrite Hl in Hlen. simpl in Hlen. lia.
Qed.

(** Nothing to trim at either end. *)
Definition bare_of (c : ascii) (v : string) : Prop :=
  HasPrefix v (String c "") = false /\ HasSuffix v (String c "") = false.

Lemma string_rev_sing c : string_rev (String c "") = String c "".
Proof. done. Qed.

Lemma drop_while_id c s : HasPrefix s (String c "") = false <-> drop_while (Ascii.eqb c) s = s.
Proof.
  destruct s as [|d s]; [done|]. unfold HasPrefix. cbn. destruct (Ascii.eqb_spec c d) as [->|Hne].
  - split; [by destruct s|]. intros Heq. apply (f_equal String.length) in Heq.
    destruct (drop_while_part (Ascii.eqb d) s) as (a & b & Hs). apply (f_equal String.length) in Hs.
    rewrite !string_length_app in Hs. cbn in Heq. lia.
  - done.
Qed.

Lemma part_length s t : part_of s t -> String.length s <= String.length t.
Proof. intros (a & b & ->). rewrite !string_length_app. lia. Qed.

(** A part of full length is the whole. *)
Lemma part_whole s t : part_of s t -> String.length t <= String.length s -> s = t.
Proof.
  intros (a & b & ->). rewrite !string_length_app. intros Hl.
  destruct a; [|cbn in Hl; lia]. destruct b; [by rewrite string_app_nil_l, string_app_nil_r|cbn in Hl; lia].
Qed.

Lemma TrimByte_id c v : TrimByte c v = v <-> bare_of c v.
Proof.
  unfold bare_of, HasSuffix. rewrite string_rev_sing, !drop_while_id. unfold TrimByte, TrimRightBytes. split.
  - intros Heq.
    assert (String.length v <= String.length (drop_while (Ascii.eqb c) v)) as Hl.
    { rewrite <- Heq at 1. apply part_length.
      rewrite <- (string_rev_involutive (drop_while (Ascii.eqb c) v)) at 2. apply rev_part, drop_while_part. }
    pose proof (part_whole _ _ (drop_while_part (Ascii.eqb c) v) Hl) as Hd. split; [done|]. rewrite Hd in Heq.
    apply (f_equal string_rev) in Heq. by rewrite string_rev_involutive in Heq.
  - intros [H1 H2]. by rewrite H1, H2, string_rev_involutive.
Qed.

(** A line that stands for itself: a key that is not empty, without blanks around it and
    without an equals sign, neither a comment nor an export; an equals sign; and a value
    without blanks or quotes around it. *)
Definition stands (p : string) : Prop :=
  exists k v, p = k +:+ "=" +:+ v /\ k <> "" /\ free equals_char k
    /\ TrimSpace p = p /\ TrimSpace k = k /\ TrimSpace v = v
    /\ HasPrefix p "#" = false /\ HasPrefix p "export " = false
    /\ bare_of dq_char v /\ bare_of single_quote v.

Lemma stands_fixed p : stands p -> dotenv_line p = Some p.
Proof.
  intros (k & v & -> & Hne & Hf & Ht & Hk & Hv & Hc & He & Hd%TrimByte_id & Hs%TrimByte_id).
  unfold dotenv_line. cbv zeta. rewrite Ht, Hc, He.
  rewrite bool_decide_false by (by destruct k). cbn [orb SplitN].
  rewrite (proj2 (Cut_Some _ _ k v)) by done. by rewrite Hk, Hv, Hd, Hs, bool_decide_false.
Qed.

(** What a line is read as is never longer, so that nothing was trimmed of a line that
    is read as itself. *)
Lemma fixed_stands p : dotenv_line p = Some p -> stands p.
Proof.
  unfold dotenv_line. cbv zeta. destruct (_ || _) eqn:Hc; [done|]. apply orb_false_iff in Hc as [_ Hc].
  set (l := if HasPrefix _ _ then _ else _). cbn [SplitN].
  assert (part_of l (TrimSpace p)) as Hl.
  { subst l. destruct (HasPrefix _ "export "); [|reflexivity]. etransitivity; [apply TrimSpace_part|apply TrimPrefix_part]. }
  destruct (Cut l equals_char) as [[k v]|] eqn:Hcut; [|done]. apply Cut_Some in Hcut as [Hf Hkv].
  case_bool_decide as Hne; [done|]. intros [= Heq].
  pose proof (part_length _ _ (TrimSpace_part k)) as L1. pose proof (part_length _ _ (TrimSpace_part v)) as L2.
  pose proof (part_length _ _ (TrimByte_part dq_char (TrimSpace v))) as L3.
  pose proof (part_length _ _ (TrimByte_part single_quote (TrimByte dq_char (TrimSpace v)))) as L4.
  pose proof (part_length _ _ Hl) as L5. pose proof (part_length _ _ (TrimSpace_part p)) as L6.
  pose proof (f_equal String.length Heq) as L7. pose proof (f_equal String.length Hkv) as L8.
  rewrite !string_length_app in L7. rewrite !string_length_app in L8. cbn in L7, L8.
  assert (TrimSpace p = p) as Ht by (apply part_whole; [apply TrimSpace_part|lia]).
  assert (l = TrimSpace p) as Hlp by (apply part_whole; [done|lia]).
  assert (TrimSpace k = k) as Hk by (apply part_whole; [apply TrimSpace_part|lia]).
  assert (TrimSpace v = v) as Hv by (apply part_whole; [apply TrimSpace_part|lia]). rewrite Hv in *.
  assert (TrimByte dq_char v = v) as Hd by (apply part_whole; [apply TrimByte_part|lia]). rewrite Hd in *.
  assert (TrimByte single_quote v = v) as Hs by (apply part_whole; [apply TrimByte_part|lia]).
  rewrite Hk in Hne. rewrite Ht in Hlp, Hc. exists k, v.
  split_and!; [by rewrite <- Hlp, Hkv|done|done|done|done|done|done| |by apply TrimByte_id..].
  destruct (HasPrefix p "export ") eqn:Hx; [|done]. exfalso. subst l. rewrite Ht, Hx in Hlp.
  apply HasPrefix_true in Hx as [rest ->]. apply (f_equal String.length) in Hlp.
  pose proof (part_length _ _ (TrimSpace_part (TrimPrefix ("export " +:+ rest) "export "))) as L9.
  unfold TrimPrefix in Hlp, L9. rewrite strip_prefix_app in Hlp, L9. rewrite string_length_app in Hlp.
  change (String.length "export ") with 7 in Hlp. cbn [default from_option id] in L9, Hlp. lia.
Qed.

(** C28: When a secret reads as it was written.  Any lines that stand for themselves, as
    the text that [rekey] and [edit] write, are read as exactly these pairs: a key that
    is not empty, has no blanks around it and no equals sign, an equals sign, and a value
    without blanks or quotes around it, the line being neither a comment nor an export.
    And of the pairs of any decrypted file, re-encrypting keeps all exactly when each is
    such a line; otherwise some are lost or changed. *)
Theorem dotenv_reread :
  (forall pairs, Forall (free newline) pairs -> Forall stands pairs -> parseDotenv (dotenv_text pairs) = pairs)
  /\ forall text, let pairs := parseDotenv text in
       parseDotenv (dotenv_text pairs) = pairs <-> Forall stands pairs.
Proof.
  assert (forall pairs, Forall (fun p => dotenv_line p = Some p) pairs <-> Forall stands pairs) as Hst.
  { intros pairs. split; intros HF; (eapply Forall_impl; [exact HF|]); intros p;
      [apply fixed_stands|apply stands_fixed]. }
  split.
  - intros pairs Hnl HF. rewrite parse_text by done. by apply omap_fixed, Hst.
  - intros text pairs. rewrite parse_text, <- Hst; [apply omap_fixed|].
    apply Forall_forall. intros p (line & Hl & Hp)%list_elem_of_omap.
    eapply dotenv_line_free; [done|by eapply Split_free|done].
Qed.

(** A value in both kinds of quotes loses the outer ones when it is read, and the
    inner ones when it is re-encrypted; comments are lost. *)
Example rekey_strips_quotes :
  let text := "# note" +:+ nl +:+ "KEY='" +:+ dq +:+ "a b" +:+ dq +:+ "'" +:+ nl in
  parseDotenv text = ["KEY=" +:+ dq +:+ "a b" +:+ dq]
  /\ parseDotenv (dotenv_text (parseDotenv text)) = ["KEY=a b"].
Proof. by vm_compute. Qed.

(** ** The environment *)

(** The value a process sees: of several assignments the last one counts. *)
Definition env_get (env : list string) (key : string) : option string :=
  last (omap (strip_prefix (key +:+ "=")) env).

Lemma assignment_inj key key' v v' : free equals_char key -> free equals_char key' ->
  key +:+ "=" +:+ v = key' +:+ "=" +:+ v' -> key = key'.
Proof.
  intros Hk Hk' Heq.
  assert (Cut (key +:+ "=" +:+ v) equals_char = Some (key, v)) as H1 by (by apply Cut_Some).
  assert (Cut (key' +:+ "=" +:+ v') equals_char = Some (key', v')) as H2 by (by apply Cut_Some).
  congruence.
Qed.

Lemma strip_other key key' v : free equals_char key -> free equals_char key' -> key <> key' ->
  strip_prefix (key' +:+ "=") (key +:+ "=" +:+ v) = None.
Proof.
  intros Hk Hk' Hne. destruct (strip_prefix _ _) as [r|] eqn:Hs; [|done].
  apply strip_prefix_Some in Hs. rewrite string_app_assoc in Hs. by apply assignment_inj in Hs.
Qed.

Lemma HasPrefix_strip s p : HasPrefix s p = match strip_prefix p s with Some _ => true | None => false end.
Proof. unfold HasPrefix. by destruct (strip_prefix p s). Qed.

(** Setting a variable leaves the others alone. *)
Lemma setEnv_other env key key' v : free equals_char key -> free equals_char key' -> key <> key' ->
  env_get (setEnv env key v) key' = env_get env key'.
Proof.
  intros Hk Hk' Hne. unfold env_get. f_equal. induction env as [|e env IH]; csimpl.
  - by rewrite strip_other.
  - rewrite HasPrefix_strip. destruct (strip_prefix (key +:+ "=") e) as [r|] eqn:Hs; csimpl; [|by rewrite IH].
    apply strip_prefix_Some in Hs as ->. rewrite string_app_assoc. by rewrite !strip_other.
Qed.

(** And it is set, when the environment assigned it at most once. *)
Lemma setEnv_same env key v : length (omap (strip_prefix (key +:+ "=")) env) <= 1 ->
  env_get (setEnv env key v) key = Some v.
Proof.
  assert (strip_prefix (key +:+ "=") (key +:+ "=" +:+ v) = Some v) as Hv
    by (rewrite <- string_app_assoc; apply strip_prefix_app).
  unfold env_get. induction env as [|e env IH]; csimpl; [by rewrite Hv|].
  rewrite HasPrefix_strip. destruct (strip_prefix (key +:+ "=") e) as [r|] eqn:Hs; csimpl; intros Hlen.
  - rewrite Hv. destruct (omap (strip_prefix (key +:+ "=")) env); [done|simpl in Hlen; lia].
  - rewrite Hs. by apply IH.
Qed.

Definition sops_variables : list string := ["SOPS_AGE_KEY_FILE"; "SOPS_AGE_KEY"; "GNUPGHOME"; "SOPS_GPG_EXEC"].

(** The environment of sops is that of the process but for its own variables. *)
Definition env_kept (base env : list string) : Prop :=
  forall key, free equals_char key -> key ∉ sops_variables -> env_get env key = env_get base key.

Lemma setEnv_kept base env key v : key ∈ sops_variables -> env_kept base env -> env_kept base (setEnv env key v).
Proof.
  intros Hin Hk key' Hf Hn. rewrite setEnv_other; [by apply Hk| |done|by intros ->].
  unfold sops_variables in Hin. rewrite !elem_of_cons, elem_of_nil in Hin.
  destruct Hin as [->|[->|[->|[->|[]]]]]; by apply (bool_decide_eq_true_1 _).
Qed.

Lemma age_env_kept base env opts : env_kept base env ->
  wp (age_env env opts) (fun _ env' => env_kept base env').
Proof.
  intros Hk. unfold age_env. case_bool_decide; [by apply wp_ret|].
  apply wp_bind, wp_true. intros t key. cbv zeta. apply wp_bind. wp_doop. intros [b|f]; apply wp_ret;
    repeat (apply setEnv_kept; [set_solver|]); done.
Qed.

Lemma pgp_env_kept base env opts : env_kept base env ->
  wp (pgp_env env opts) (fun _ env' => env_kept base env').
Proof.
  intros Hk. unfold pgp_env. case_bool_decide; [by apply wp_ret|].
  apply wp_bind, wp_true. intros t dir. cbv zeta. apply wp_ret.
  destruct (_ && _); repeat (apply setEnv_kept; [set_solver|]); done.
Qed.

(** Whatever is configured, sops runs in the environment of the process itself
    but for the four variables that name keys. *)
Theorem sops_environment opts :
  wp (buildSopsEnv opts) (fun t env => exists base, Obs OsEnviron base ∈ t /\ env_kept base env).
Proof.
  unfold buildSopsEnv. apply wp_bind. wp_doop. intros base.
  apply wp_bind. eapply wp_mono; [by apply (age_env_kept base)|]. intros t1 env1 H1.
  eapply wp_mono; [by apply (pgp_env_kept base)|]. intros t2 env2 H2. exists base. split; [set_solver|done].
Qed.

(** ** Without a key *)

(** A file is taken for plain text when no key is configured, whatever it holds: sops
    is not asked. *)
Lemma plaintext_without_key path opts : no_backend opts = true ->
  wp (sops_DecryptAndParse path opts) (fun t r =>
    exists b, t = [Obs (ReadFile path) b] /\ forall pairs, r = Ok pairs -> exists s, b = Ok s /\ pairs = parseDotenv s).
Proof.
  intros Hn. unfold sops_DecryptAndParse. cbv zeta. rewrite Hn. apply wp_bind. wp_doop. intros b. apply wp_ret.
  exists b. split; [done|]. destruct b as [s|f]; [|done]. intros pairs [= <-]. eauto.
Qed.

(** So a manifest with recipients and no key file has [rekey] encrypt what is already
    encrypted. *)
Definition sealed_file (o : secret_effect) : answer o :=
  match o return answer (o : secret_effect) with
  | SHost (Stat _) => StatOk false
  | SHost (ReadFile _) => Ok ("A=ENC[AES256_GCM,data:x]" +:+ nl +:+ "sops_mac=ENC[AES256_GCM,data:y]" +:+ nl)
  | SHost (Open _) => Ok ""
  | SHost (Create _) | SHost (MkdirAll _) | SHost (WriteFile _ _) => Ok tt
  | SHost (CreateTemp _) => Ok "/tmp/x"
  | SHost UserHomeDir => Ok "/home"
  | SHost (LookPath _) => Ok tt
  | SHost (RunProcess _) => Ok ""
  | SHost (Remove _) => tt
  | SHost OsEnviron => []
  | SHost (Now _) | SHost (Getenv _) | SHost Elapsed => ""
  | SHost UnixNano => 0%Z
  | SSession (Planned (On d q)) => healthy [] [] [] [] (NFile 0 "") d q
  | SSession (CheckDaemonOn _) => Ok tt
  | SSession ProbeExpired => false
  | SSession (ContextDone | RollingEnd) => None
  | SSession (IsTerminal _) => false
  | SSession ReadString => ""
  | SSession RunTea => Err (Plain "no terminal")
  | SSession _ => tt
  end.

Definition recipients_only : sopsResolved := mkResolved no_sops ["age1x"] [].
Definition one_secret : Config :=
  mkConfig "id" None (mkDiscovery [] "" "" "") {["c" := mkContext "" ∅ ∅]} ∅
    {["c/s" := mkStack "" [] [] [] None None None ∅ "c" [] ["/base/c/secrets.env"] ""]} "/base" false ∅ ∅.

Example rekey_without_key :
  omap (fun o => match o with Obs (SHost (WriteFile path c)) _ => Some (path, c) | _ => None end)
    (run_tree sealed_file (rekey_all one_secret recipients_only)).1
  = [("/base/c/secrets.env", "A=ENC[AES256_GCM,data:x]" +:+ nl +:+ "sops_mac=ENC[AES256_GCM,data:y]" +:+ nl)]
  /\ (run_tree sealed_file (rekey_all one_secret recipients_only)).2 = Ok tt.
Proof. by vm_compute. Qed.
