(* ===== verification/Doctor.v ===== *)
(** * The health scan ([internal/cli/doctorcmd])

    [dockform doctor] runs its checks one after the other, prints a line for each and
    exits with 1 when one failed, with 2 when one warned.  Two of the checks create
    something on the daemon and remove it again. *)

From S2P Require Import Prelude GoStrings GoPath Apperr Util Manifest Discovery Validation Targets Filesets Effects Docker DockerExec Lru Client ClientResources ServiceState Resource Plan Validator Prompt Session HostOps CommandOps.
From Stdlib Require Import Ascii.

Inductive CheckStatus := StatusPass | StatusWarn | StatusFail.
#[global] Instance CheckStatus_eq : EqDecision CheckStatus.
Proof. solve_decision. Defined.

Record checkResult := mkCheck {
  ck_id : string; ck_title : string; ck_status : CheckStatus; ck_summary : string;
  ck_note : string; ck_errMsg : string; ck_sub : list string }.
Definition passed (id title summary : string) (sub : list string) : checkResult :=
  mkCheck id title StatusPass summary "" "" sub.
Definition warned (id title summary note : string) : checkResult :=
  mkCheck id title StatusWarn summary note "" [].
Definition failed (id title summary errMsg note : string) : checkResult :=
  mkCheck id title StatusFail summary note errMsg [].

(** ** Printing *)

(** Words, a blank between two, as many to a line as fit. *)
Fixpoint wrap_words (width : nat) (line : string) (words : list string) : list string :=
  match words with
  | [] => [line]
  | word :: words =>
      if bool_decide (line = "") then wrap_words width word words
      else if String.length line + 1 + String.length word <=? width
      then wrap_words width (line +:+ " " +:+ word) words
      else line :: wrap_words width word words
  end.

Definition indent_prefix : string := "│     ".
Definition availWidth : nat := 80 - String.length indent_prefix.

(** The lines [PrintIndentedLines] prints. *)
Definition indented_lines (text : string) : list string :=
  match Fields text with
  | [] => []
  | words => (fun l => indent_prefix +:+ l) <$> wrap_words availWidth "" words
  end.
Definition PrintIndentedLines (text : string) : vcmd unit :=
  for_each (fun _ l => v_print l) tt (indented_lines text).

Section Doctor.
Context `{MapRange} `{Decoders} `{ResourceDecoders} `{Styles}.

(** ** The checks *)

Definition CombinedOutput (name : string) (args : list string) : vcmd (string * bool) :=
  r ← v_host (RunProcess (mkLine name args None));
  mret (match (r : result process_failure string) with
        | Ok out => (out, true)
        | Err (Exited out) => (out, false)
        | Err (NotStarted _) => ("", false)
        end).

Definition checkEngine (ctxName : string) : vcmd checkResult :=
  r ← v_session (do_op (CheckDaemonOn ctxName));
  match (r : res unit) with
  | Err e =>
      expired ← v_session (do_op ProbeExpired);
      timedOut ← (if (expired : bool) then c ← v_session (do_op ContextDone);
                                           mret (match (c : option error) with None => true | Some _ => false end)
                  else mret false);
      mret (failed "engine" "Docker Engine reachable"
              (if (timedOut : bool) then "timed out after " +:+ ReachabilityProbeTimeout else "daemon not reachable")
              (Error e) "Remedy: Ensure Docker is running and your user can access it.")
  | Ok _ =>
      ver ← v_docker ctxName ServerVersion;
      mret (passed "engine" "Docker Engine reachable"
              (match (ver : res string) with
               | Ok ver => if bool_decide (TrimSpace ver = "") then "version unknown" else "v" +:+ ver
               | Err _ => "version unknown"
               end) [])
  end.

Definition checkSingleContextReachable (c : Client) (ctxName degradedNote : string) : vcmd checkResult :=
  let sub := if bool_decide (degradedNote <> "") then [degradedNote] else [] in
  host ← v_docker ctxName (ContextHost c);
  mret (match (host : res string) with
        | Err e => mkCheck "context" "Active context reachable" StatusFail (Quote ctxName +:+ " unreachable")
                     "Remedy: Verify context exists: docker context ls" (Error e) sub
        | Ok _ => passed "context" "Active context reachable" (Quote ctxName) sub
        end).

Definition probed_context (r : ContextProbeResult) : checkResult :=
  let id := "context:" +:+ pr_Name r in
  let title := "Context " +:+ Quote (pr_Name r) +:+ " reachable" in
  if Reachable r then passed id title "ok" []
  else failed id title "unreachable" (pr_Cause r)
         "Remedy: Verify the host is up and the Docker context is correct (docker context ls).".

Definition degraded : string :=
  "Note: manifest contexts were not checked (no manifest loaded); only the active context was probed.".

Context (h : Host) (decode_contexts : string -> res (gmap string unit)) (decode : string -> res Config).
Context `{Schedule} `{TextInput}.

(** The manifest, without its warnings. *)
Definition loadManifestQuietly (flag : string) : cmd (res Config) :=
  r ← ResolveManifestPath h decode_contexts flag "." 3;
  try r id (fun file => mret ((LoadWithWarnings decode h file).1)).

Definition checkContextsReachable (flag ctxOverride ctxName : string) (c : Client) : vcmd (list checkResult) :=
  if bool_decide (ctxOverride <> "")
  then r ← checkSingleContextReachable c ctxName ""; mret [r]
  else
    cfg ← v_session (loadManifestQuietly flag);
    let single := r ← checkSingleContextReachable c ctxName degraded; mret [r] in
    match (cfg : res Config) with
    | Err _ => single
    | Ok cfg =>
        if bool_decide (cfg_Contexts cfg = ∅) then single else
        probes ← v_session (ProbeContextsReachability cfg);
        mret (probed_context <$> probes)
    end.

Definition isComposeV2OrLater (s : string) : bool :=
  let s := TrimPrefix (TrimSpace s) "v" in
  if bool_decide (s = "") then false else
  let major := match Cut s "."%char with Some (a, _) => a | None => s end in
  match Atoi major with Some n => (2 <=? n)%Z | None => false end.

Definition checkCompose (ctxName : string) : vcmd checkResult :=
  ver ← v_docker ctxName ComposeVersion;
  mret (match (ver : res string) with
        | Err e => failed "compose" "Docker Compose (v2+)" "not found" (Error e)
                     "Remedy: Install docker compose plugin (v2+)."
        | Ok ver =>
            if isComposeV2OrLater ver then passed "compose" "Docker Compose plugin" (TrimSpace ver) []
            else failed "compose" "Docker Compose (v2+)"
                   (if bool_decide (TrimSpace ver = "") then "not found" else TrimSpace ver) ""
                   "Remedy: Install docker compose plugin (v2+)."
        end).

Definition crlf : string := String "013" nl.
Definition output_lines (out : string) : list string := Split (ReplaceAll out crlf nl) newline.

(** A line of the output of sops without the mark of its kind; none if blank. *)
Definition sops_note (ln : string) : option string :=
  let ln := TrimSpace ln in
  if bool_decide (ln = "") then None else
  let ln := if HasPrefix ln "[info]" then TrimSpace (TrimPrefix ln "[info]") else ln in
  Some (if HasPrefix ln "[warning]" then TrimSpace (TrimPrefix ln "[warning]") else ln).

Definition checkSops : vcmd checkResult :=
  found ← v_host (LookPath "sops");
  match (found : res unit) with
  | Err _ => mret (warned "sops" "SOPS" "not found"
                     "Tip: Install SOPS to decrypt secrets: https://github.com/getsops/sops")
  | Ok _ =>
      '(out, ok) ← CombinedOutput "sops" ["--version"];
      let lines := output_lines out in
      let ver := TrimSpace (default "" (head lines)) in
      mret (passed "sops" "SOPS present"
              (if negb ok || bool_decide (ver = "") then "installed" else ver) (omap sops_note (tail lines)))
  end.

Definition gpg_socket : vcmd (list string) :=
  found ← v_host (LookPath "gpgconf");
  match (found : res unit) with
  | Err _ => mret []
  | Ok _ =>
      '(out, ok) ← CombinedOutput "gpgconf" ["--list-dirs"; "agent-socket"];
      let socket := TrimSpace out in
      mret (if (ok : bool) && bool_decide (socket <> "") then ["agent socket: " +:+ socket] else [])
  end.

Definition checkGpg : vcmd checkResult :=
  found ← v_host (LookPath "gpg");
  match (found : res unit) with
  | Err _ => mret (warned "gpg" "GnuPG" "gpg not found" "Tip: Install GnuPG if using PGP with SOPS.")
  | Ok _ =>
      '(out, _) ← CombinedOutput "gpg" ["--version"];
      let ver := TrimSpace (default "" (head (output_lines out))) in
      sub ← gpg_socket;
      '(help, _) ← CombinedOutput "gpg" ["--help"];
      let loopback := if Contains help "pinentry-mode" then "loopback: supported"
                      else "loopback: unknown (try gpg>=2.1)" in
      mret (passed "gpg" "GnuPG present" (if bool_decide (ver = "") then "installed" else ver) (sub ++ [loopback]))
  end.

Definition checkHelperImage (ctxName : string) : vcmd checkResult :=
  r ← v_docker ctxName (ImageExists HelperImage);
  mret (match (r : res bool) with
        | Err e => warned "helper" "Helper image" ("check failed — " +:+ TrimSpace (Error e))
                     "Note: Could not verify helper image presence."
        | Ok false => warned "helper" "Helper image missing" HelperImage
                        "Note: Skipped pulling (no registry access). Run again when online."
        | Ok true => passed "helper" "Helper image ready" HelperImage
                       ["provides: sh, find, xargs, getent, chown, chmod, cut"]
        end).

Definition doctor_labels : gmap string string := {["io.dockform.doctor" := "1"]}.

Definition checkNetworkPerms (ctxName : string) : vcmd checkResult :=
  now ← v_host UnixNano;
  let name := "df-doctor-net-" +:+ FormatInt now in
  let title := "Network create/remove" in
  r ← v_docker ctxName (cli_CreateNetwork name doctor_labels []);
  match (r : res unit) with
  | Err e => mret (failed "net-perms" title "Cannot create network" (Error e)
                     "Remedy: Ensure your user can access the Docker daemon (docker group).")
  | Ok _ =>
      r ← v_docker ctxName (cli_RemoveNetwork name);
      mret (match (r : res unit) with
            | Err _ => warned "net-perms" title "Created but failed to remove"
                         ("Tip: Manually remove network: docker network rm " +:+ name)
            | Ok _ => passed "net-perms" title "ok" []
            end)
  end.

Definition checkVolumePerms (ctxName : string) : vcmd checkResult :=
  now ← v_host UnixNano;
  let name := "df-doctor-vol-" +:+ FormatInt now in
  let title := "Volume create/remove" in
  r ← v_docker ctxName (cli_CreateVolume name doctor_labels);
  match (r : res unit) with
  | Err e => mret (failed "vol-perms" title "Cannot create volume" (Error e)
                     "Remedy: Ensure daemon is running and you have access to volumes.")
  | Ok _ =>
      r ← v_docker ctxName (cli_RemoveVolume name);
      mret (match (r : res unit) with
            | Err _ => warned "vol-perms" title "Created but failed to remove"
                         ("Tip: Manually remove volume: docker volume rm " +:+ name)
            | Ok _ => passed "vol-perms" title "ok" []
            end)
  end.

(** ** The report *)

Context (bluetext yellowtext : string -> string).

Definition check_icon (s : CheckStatus) : string :=
  match s with
  | StatusPass => render styleAdd "✓"
  | StatusWarn => yellowtext "!"
  | StatusFail => render styleRemove "×"
  end.

Definition print_check (_ : unit) (r : checkResult) : vcmd unit :=
  _ ← v_print ("│ " +:+ check_icon (ck_status r) +:+ " " +:+ bluetext ("[" +:+ ck_id r +:+ "]") +:+ " "
               +:+ ck_title r +:+ " — " +:+ ck_summary r);
  _ ← (if bool_decide (ck_status r = StatusWarn) && bool_decide (ck_note r <> "")
       then PrintIndentedLines (ck_note r) else mret tt);
  _ ← (if bool_decide (ck_status r = StatusFail) then
         _ ← (if bool_decide (ck_errMsg r <> "") then PrintIndentedLines ("Error: " +:+ ck_errMsg r) else mret tt);
         (if bool_decide (ck_note r <> "") then PrintIndentedLines (ck_note r) else mret tt)
       else mret tt);
  for_each (fun _ s => if bool_decide (TrimSpace s = "") then mret tt else PrintIndentedLines s) tt (ck_sub r).

Definition count_status (s : CheckStatus) (results : list checkResult) : nat :=
  length (filter (fun r => ck_status r = s) results).

Definition exit_code (results : list checkResult) : nat :=
  if 0 <? count_status StatusFail results then 1
  else if 0 <? count_status StatusWarn results then 2 else 0.

Definition exit_line (code : nat) : string :=
  match code with
  | 0 => "All good!"
  | 1 => "Action needed: fix the FAIL items above, then re-run: dockform doctor"
  | _ => "Completed with warnings. Some features may be degraded."
  end.

Definition report (version ctxName host : string) (results : list checkResult) : vcmd (res unit) :=
  _ ← v_print ("Dockform (v" +:+ version +:+ ") Doctor — health scan");
  _ ← v_print (if bool_decide (host <> "") then "Context: " +:+ ctxName +:+ "  •  Host: " +:+ host +:+ nl
               else "Context: " +:+ ctxName +:+ nl);
  _ ← for_each print_check tt results;
  _ ← v_print (nl +:+ "Summary: " +:+ Itoa_nat (length results) +:+ " checks • "
               +:+ Itoa_nat (count_status StatusPass results) +:+ " PASS, "
               +:+ Itoa_nat (count_status StatusWarn results) +:+ " WARN, "
               +:+ Itoa_nat (count_status StatusFail results) +:+ " FAIL");
  let code := exit_code results in
  _ ← v_print (exit_line code);
  elapsed ← v_host Elapsed;
  _ ← v_print ("Completed in " +:+ elapsed +:+ "s • exit code " +:+ Itoa_nat code);
  mret (if bool_decide (code = 0) then Ok tt
        else Err (Plain ("doctor checks completed with status " +:+ Itoa_nat code))).

Definition doctor_checks (flag ctxOverride ctxName : string) (c : Client) : vcmd (list checkResult) :=
  engine ← checkEngine ctxName;
  contexts ← checkContextsReachable flag ctxOverride ctxName c;
  compose ← checkCompose ctxName;
  sops ← checkSops;
  gpg ← checkGpg;
  helper ← checkHelperImage ctxName;
  net ← checkNetworkPerms ctxName;
  vol ← checkVolumePerms ctxName;
  mret ([engine] ++ contexts ++ [compose; sops; gpg; helper; net; vol]).

Definition doctor_command (version flag contextName : string) : vcmd (res unit) :=
  let ctxOverride := TrimSpace contextName in
  let ctxName := if bool_decide (ctxOverride = "") then "default" else ctxOverride in
  let c := NewClient ctxName in
  hr ← v_docker ctxName (ContextHost c);
  let host := match (hr : res string) with Ok host => host | Err _ => "" end in
  results ← doctor_checks flag ctxOverride ctxName c;
  report version ctxName host results.
End Doctor.

(** ** Properties *)

(** *** Wrapped text *)

Lemma wrap_words_ne width line words : wrap_words width line words <> [].
Proof.
  revert line. induction words as [|w ws IH]; intros line; cbn [wrap_words]; [done|].
  case_bool_decide; [apply IH|]. by destruct (_ <=? _).
Qed.

(** Wrapping only breaks the text at blanks. *)
Lemma wrap_words_join width line words : Forall (fun w => w <> "") words -> line <> "" ->
  Join (wrap_words width line words) " " = Join (line :: words) " ".
Proof.
  revert line. induction words as [|w ws IH]; intros line HF Hl; cbn [wrap_words]; [done|].
  apply Forall_cons in HF as [Hw HF]. rewrite bool_decide_false by done. destruct (_ <=? _).
  - rewrite IH; [|done|by destruct line]. destruct ws as [|x ws]; [done|].
    rewrite !(Join_cons _ (_ :: _)) by done. by rewrite !string_app_assoc.
  - rewrite !Join_cons by (done || apply wrap_words_ne). by rewrite IH.
Qed.

(** And a line is longer than the width only when it is one word. *)
Lemma wrap_words_width width line words :
  Forall (fun l => String.length l <= width \/ l ∈ line :: words) (wrap_words width line words).
Proof.
  revert line. induction words as [|w ws IH]; intros line; cbn [wrap_words];
    [by repeat constructor; right; left|].
  case_bool_decide as He.
  - subst. eapply Forall_impl; [apply IH|]. intros l [?|Hin]; [by left|right; by right].
  - destruct (_ <=? _) eqn:Hw.
    + apply Nat.leb_le in Hw. eapply Forall_impl; [apply IH|].
      intros l [?|[->|Hin]%elem_of_cons]; [by left| |right; by do 2 right].
      left. rewrite !string_length_app. simpl. lia.
    + constructor; [right; left|]. eapply Forall_impl; [apply IH|].
      intros l [?|Hin]; [by left|right; by right].
Qed.

(** *** What the checks do to the daemon *)

Definition net_name (now : Z) : string := "df-doctor-net-" +:+ FormatInt now.
Definition vol_name (now : Z) : string := "df-doctor-vol-" +:+ FormatInt now.
Definition create_line (kind name : string) : list string :=
  [kind; "create"; "--label"; "io.dockform.doctor=1"; name].
Definition rm_line (kind name : string) : list string := [kind; "rm"; name].

(** The docker commands of a scan: they look, or create or remove what is named as
    the scan's own. *)
Inductive doctor_line : list string -> Prop :=
| line_version rest : doctor_line ("version" :: rest)
| line_context rest : doctor_line ("context" :: "inspect" :: rest)
| line_compose rest : doctor_line ("compose" :: "version" :: rest)
| line_image rest : doctor_line ("image" :: "inspect" :: rest)
| line_create_net now : doctor_line (create_line "network" (net_name now))
| line_rm_net now : doctor_line (rm_line "network" (net_name now))
| line_create_vol now : doctor_line (create_line "volume" (vol_name now))
| line_rm_vol now : doctor_line (rm_line "volume" (vol_name now)).
#[local] Hint Constructors doctor_line : core.

Definition doctor_step (ctxName : string) (o : obs command_effect) : Prop :=
  match o with
  | Obs (VDocker d (Exec x)) _ => d = ctxName /\ doctor_line (exec_args x)
  | Obs (VDocker _ _) _ => False
  | Obs (VHost (LookPath _)) _ | Obs (VHost UnixNano) _ | Obs (VHost Elapsed) _ => True
  | Obs (VHost (RunProcess p)) _ => pl_name p ∈ ["sops"; "gpg"; "gpgconf"]
  | Obs (VHost _) _ => False
  | Obs (VSession o) r => quiet (Obs (E := session) o r)
  end.

(** What was created is removed again. *)
Definition tidy (ctxName : string) (t : list (obs command_effect)) : Prop :=
  forall kind name out, ran ctxName (create_line kind name) (Ok out) ∈ t ->
    exists out', ran ctxName (rm_line kind name) out' ∈ t.

Definition scan_trace (ctxName : string) (t : list (obs command_effect)) : Prop :=
  Forall (doctor_step ctxName) t /\ tidy ctxName t.

Lemma scan_monoidal ctxName : monoidal (scan_trace ctxName).
Proof.
  split; [split; [done|]; by intros kind name out Hin%elem_of_nil|].
  intros t1 t2 [H1 H1'] [H2 H2']. split; [by apply Forall_app|].
  intros kind name out [Hin|Hin]%elem_of_app; [destruct (H1' _ _ _ Hin) as (o & Ho)|destruct (H2' _ _ _ Hin) as (o & Ho)];
    exists o; set_solver.
Qed.

(** A step that creates nothing. *)
Definition idle_step (ctxName : string) (o : obs command_effect) : Prop :=
  doctor_step ctxName o /\ match o with
    | Obs (VDocker _ (Exec (Run (_ :: "create" :: _)))) _ => False
    | _ => True
    end.

Lemma idle_scan {A} ctxName (p : vcmd A) : always (idle_step ctxName) p -> traces (scan_trace ctxName) p.
Proof.
  intros Hp. eapply wp_mono; [exact Hp|]. intros t a HF. split.
  - eapply Forall_impl; [exact HF|]. by intros o [].
  - intros kind name out Hin. rewrite Forall_forall in HF. by destruct (HF _ Hin).
Qed.

Section Scan.
Context `{MapRange} `{Decoders} `{ResourceDecoders} `{Styles}.
Context (h : Host) (decode_contexts : string -> res (gmap string unit)) (decode : string -> res Config).
Context `{Schedule} `{TextInput}.
Context (ctxName : string).

Lemma session_idle {A} (p : cmd A) : always quiet p -> always (idle_step ctxName) (v_session p).
Proof. intros Hp. apply (always_embed _ _ quiet); [exact Hp|]. intros e r Hq. split; [exact Hq|done]. Qed.

Lemma docker_idle {A} (p : cli A) :
  always (fun o => idle_step ctxName (on_docker ctxName o)) p -> always (idle_step ctxName) (v_docker ctxName p).
Proof. apply always_v_docker. Qed.

Ltac idle_docker := apply docker_idle; unfold docker_run;
  repeat (always_tree_step; try (split; [split; [done|simpl; auto]|done])).

Lemma ServerVersion_idle : always (idle_step ctxName) (v_docker ctxName ServerVersion).
Proof. unfold ServerVersion. idle_docker. Qed.
Lemma ContextHost_idle c : always (idle_step ctxName) (v_docker ctxName (ContextHost c)).
Proof. unfold ContextHost. cbv zeta. idle_docker. Qed.
Lemma ComposeVersion_idle : always (idle_step ctxName) (v_docker ctxName ComposeVersion).
Proof. unfold ComposeVersion. idle_docker. Qed.
Lemma ImageExists_idle ref : always (idle_step ctxName) (v_docker ctxName (ImageExists ref)).
Proof. unfold ImageExists. idle_docker. Qed.
Hint Resolve ServerVersion_idle ContextHost_idle ComposeVersion_idle ImageExists_idle : dockform.
Lemma CombinedOutput_idle name args : name ∈ ["sops"; "gpg"; "gpgconf"] ->
  always (idle_step ctxName) (CombinedOutput name args).
Proof. intros Hn. unfold CombinedOutput, v_host. repeat (always_tree_step; try done). Qed.

Lemma check_idle :
  always (idle_step ctxName) (checkEngine ctxName) /\ always (idle_step ctxName) (checkCompose ctxName)
  /\ always (idle_step ctxName) checkSops /\ always (idle_step ctxName) checkGpg
  /\ always (idle_step ctxName) (checkHelperImage ctxName).
Proof.
  unfold checkEngine, checkCompose, checkSops, checkGpg, checkHelperImage, gpg_socket, v_host. cbv zeta.
  split_and!; repeat (first [apply CombinedOutput_idle; set_solver | apply session_idle; quiet_auto
    | always_tree_step]; try done).
Qed.

Lemma Probe_quiet cfg : always quiet (ProbeContextsReachability cfg).
Proof. unfold ProbeContextsReachability, probeContext. quiet_auto. Qed.

Lemma load_quiet flag : always quiet (loadManifestQuietly h decode_contexts decode flag).
Proof.
  unfold loadManifestQuietly. apply always_bind; [apply ResolveManifestPath_quiet|]. intros r.
  apply always_try. intros file _. apply always_ret.
Qed.

Lemma single_idle c note : always (idle_step ctxName) (checkSingleContextReachable c ctxName note).
Proof. unfold checkSingleContextReachable. cbv zeta. repeat (always_tree_step; try done). Qed.
Hint Resolve single_idle : dockform.

Lemma contexts_idle flag ctxOverride c :
  always (idle_step ctxName) (checkContextsReachable h decode_contexts decode flag ctxOverride ctxName c).
Proof.
  unfold checkContextsReachable. cbv zeta.
  repeat (first [apply session_idle; first [apply Probe_quiet|apply load_quiet] | always_tree_step]; try done).
Qed.

Lemma label_flags_doctor site : label_flags site "--label" doctor_labels = ["--label"; "io.dockform.doctor=1"].
Proof.
  unfold label_flags. assert (map_range site doctor_labels = [("io.dockform.doctor", "1")]) as ->; [|done].
  apply Permutation_singleton_r. rewrite map_range_perm. unfold doctor_labels. by rewrite map_to_list_singleton.
Qed.

(** A run of a docker command by its error alone. *)
Lemma run_unit_spec args :
  wp (v_docker ctxName (run_unit args)) (fun t r => exists out, t = [ran ctxName args out]
    /\ r = match out with Ok _ => Ok tt | Err e => Err e end).
Proof.
  apply wp_v_docker. unfold run_unit, docker_run. apply wp_bind. wp_doop. intros out. apply wp_ret.
  exists out. by destruct out.
Qed.

(** Creating and removing: what was created is asked to be removed, and passing means
    both succeeded. *)
Definition made_and_removed (kind name : string) (t : list (obs command_effect)) : Prop :=
  exists o1 o2, ran ctxName (create_line kind name) (Ok o1) ∈ t /\ ran ctxName (rm_line kind name) (Ok o2) ∈ t.

Lemma tidy_created kind name out out' (x : obs command_effect) :
  (forall k n o, ran ctxName (create_line k n) o <> x) ->
  tidy ctxName [x; ran ctxName (create_line kind name) out; ran ctxName (rm_line kind name) out'].
Proof.
  intros Hx k n o. rewrite !elem_of_cons, elem_of_nil. intros [Heq|[Heq|[Heq|[]]]]; [by destruct (Hx k n (Ok o))| |].
  - pose proof (f_equal op_of Heq) as Hop. injection Hop as -> ->. exists out'. set_solver.
  - pose proof (f_equal op_of Heq) as Hop. discriminate Hop.
Qed.

Lemma tidy_failed kind name e (x : obs command_effect) :
  (forall k n o, ran ctxName (create_line k n) o <> x) ->
  tidy ctxName [x; ran ctxName (create_line kind name) (Err e)].
Proof.
  intros Hx k n o. rewrite !elem_of_cons, elem_of_nil. intros [Heq|[Heq|[]]]; [by destruct (Hx k n (Ok o))|].
  exfalso. pose proof (f_equal (fun z : obs command_effect => match z with
    | Obs (VDocker _ (Exec (Run _))) (Ok _) => true | _ => false end) Heq) as Hz. discriminate Hz.
Qed.

Definition perms_post (kind : string) (name : Z -> string) (t : list (obs command_effect)) (r : checkResult) : Prop :=
  scan_trace ctxName t /\ (ck_status r = StatusPass -> exists now, made_and_removed kind (name now) t).

(** Both checks have this shape. *)
Lemma create_remove_spec kind name (fails : error -> checkResult) (left_over ok : Z -> checkResult) :
  (forall now, doctor_line (create_line kind (name now)) /\ doctor_line (rm_line kind (name now))) ->
  (forall e, ck_status (fails e) = StatusFail) -> (forall now, ck_status (left_over now) = StatusWarn) ->
  wp (now ← v_host UnixNano;
      r ← v_docker ctxName (run_unit (create_line kind (name now)));
      match (r : res unit) with
      | Err e => mret (fails e)
      | Ok _ => r ← v_docker ctxName (run_unit (rm_line kind (name now)));
                mret (match (r : res unit) with Err _ => left_over now | Ok _ => ok now end)
      end) (perms_post kind name).
Proof.
  intros Hl Hf Hw. apply wp_bind. unfold v_host. wp_doop. intros now.
  assert (forall k n o, ran ctxName (create_line k n) o <> on_host UnixNano now) as Hx
    by (intros k n o Heq%(f_equal op_of); discriminate Heq).
  destruct (Hl now) as [Hc Hr].
  apply wp_bind. eapply wp_mono; [apply run_unit_spec|]. intros t1 r1 (o1 & -> & ->). destruct o1 as [o1|e].
  - apply wp_bind. eapply wp_mono; [apply run_unit_spec|]. intros t2 r2 (o2 & -> & ->). apply wp_ret.
    split; [split; [by repeat constructor|by apply tidy_created]|].
    destruct o2 as [o2|e2]; [|by rewrite Hw]. intros _. exists now, o1, o2. set_solver.
  - apply wp_ret. split; [split; [by repeat constructor|by apply tidy_failed]|]. by rewrite Hf.
Qed.

Lemma network_spec : wp (checkNetworkPerms ctxName) (perms_post "network" net_name).
Proof.
  unfold checkNetworkPerms, cli_CreateNetwork, cli_RemoveNetwork. rewrite label_flags_doctor. cbv zeta.
  apply (create_remove_spec "network" net_name
    (fun e => failed "net-perms" "Network create/remove" "Cannot create network" (Error e)
       "Remedy: Ensure your user can access the Docker daemon (docker group).")
    (fun now => warned "net-perms" "Network create/remove" "Created but failed to remove"
       ("Tip: Manually remove network: docker network rm " +:+ net_name now))
    (fun _ => passed "net-perms" "Network create/remove" "ok" [])); auto.
Qed.

Lemma volume_spec : wp (checkVolumePerms ctxName) (perms_post "volume" vol_name).
Proof.
  unfold checkVolumePerms, cli_CreateVolume, cli_RemoveVolume. rewrite label_flags_doctor. cbv zeta.
  apply (create_remove_spec "volume" vol_name
    (fun e => failed "vol-perms" "Volume create/remove" "Cannot create volume" (Error e)
       "Remedy: Ensure daemon is running and you have access to volumes.")
    (fun now => warned "vol-perms" "Volume create/remove" "Created but failed to remove"
       ("Tip: Manually remove volume: docker volume rm " +:+ vol_name now))
    (fun _ => passed "vol-perms" "Volume create/remove" "ok" [])); auto.
Qed.

(** *** The report *)

Lemma exit_code_pass results : exit_code results = 0 <-> Forall (fun r => ck_status r = StatusPass) results.
Proof.
  unfold exit_code, count_status.
  assert (forall s, (0 <? length (filter (fun r => ck_status r = s) results)) = false <->
    Forall (fun r => ck_status r <> s) results) as Hs.
  { intros s. rewrite Nat.ltb_ge. split.
    - intros Hlen. apply Forall_forall. intros r Hin Heq.
      assert (r ∈ filter (fun r => ck_status r = s) results) as Hin' by (by apply list_elem_of_filter).
      destruct (filter _ results); [by apply elem_of_nil in Hin'|simpl in Hlen; lia].
    - intros HF. destruct (filter _ results) as [|r l] eqn:Hl; [done|].
      assert (r ∈ filter (fun r => ck_status r = s) results) as [Heq Hin]%list_elem_of_filter by (rewrite Hl; left).
      rewrite Forall_forall in HF. by destruct (HF r Hin). }
  split.
  - destruct (0 <? _) eqn:H1'; [done|]. destruct (0 <? _) eqn:H2' in |- *; [done|]. intros _.
    apply Hs in H1'. apply Hs in H2'. rewrite Forall_forall in *. intros r Hr.
    specialize (H1' r Hr). specialize (H2' r Hr). by destruct (ck_status r).
  - intros HF. rewrite (proj2 (Hs StatusFail)), (proj2 (Hs StatusWarn)); [done|..];
      (eapply Forall_impl; [exact HF|]; by intros r ->).
Qed.

Lemma v_print_idle line : always (idle_step ctxName) (v_print line).
Proof. unfold v_print. by always_tree_step. Qed.
Hint Resolve v_print_idle : dockform.

Lemma PrintIndented_idle text : always (idle_step ctxName) (PrintIndentedLines text).
Proof. unfold PrintIndentedLines. repeat always_tree_step. Qed.
Hint Resolve PrintIndented_idle : dockform.

Lemma print_check_idle bluetext yellowtext u r : always (idle_step ctxName) (print_check bluetext yellowtext u r).
Proof. unfold print_check. repeat always_tree_step. Qed.
Hint Resolve print_check_idle : dockform.

Lemma report_spec bluetext yellowtext version host results :
  wp (report bluetext yellowtext version ctxName host results) (fun t r => scan_trace ctxName t
    /\ (r = Ok tt <-> Forall (fun r => ck_status r = StatusPass) results)).
Proof.
  apply wp_and.
  - apply idle_scan. unfold report, v_host. cbv zeta. repeat (always_tree_step; try done).
  - eapply (wp_mono _ (fun _ r => r = Ok tt <-> exit_code results = 0)).
    + unfold report. cbv zeta. do 7 (apply wp_bind, wp_true; intros ? ?). apply wp_ret.
      by case_bool_decide as Hc; [split|split; [|intros Hz; destruct (Hc Hz)]].
    + intros t r ->. apply exit_code_pass.
Qed.

(** What the daemon showed when every check passed. *)
Definition healthy_scan (t : list (obs command_effect)) : Prop :=
  Obs (E := command_effect) (VSession (CheckDaemonOn ctxName)) (Ok tt) ∈ t
  /\ (exists now, made_and_removed "network" (net_name now) t)
  /\ (exists now, made_and_removed "volume" (vol_name now) t).

Lemma engine_spec : wp (checkEngine ctxName) (fun t r => scan_trace ctxName t
  /\ (ck_status r = StatusPass -> Obs (E := command_effect) (VSession (CheckDaemonOn ctxName)) (Ok tt) ∈ t)).
Proof.
  apply wp_and; [by apply idle_scan, check_idle|].
  unfold checkEngine. apply wp_bind. unfold v_session at 1. cbn [embed do_op]. apply wp_vis. intros [[]|e]; apply wp_ret.
  - apply wp_bind, wp_true. intros t ver. apply wp_ret. intros _. left.
  - apply wp_bind, wp_true. intros t b. apply wp_bind, wp_true. intros t' b'. by apply wp_ret.
Qed.

Lemma made_mono kind name t t' : t ⊆ t' -> made_and_removed kind name t -> made_and_removed kind name t'.
Proof. intros Hsub (o1 & o2 & H1' & H2'). exists o1, o2. split; by apply Hsub. Qed.

Lemma doctor_checks_spec flag ctxOverride c :
  wp (doctor_checks h decode_contexts decode flag ctxOverride ctxName c) (fun t rs => scan_trace ctxName t
    /\ (Forall (fun r => ck_status r = StatusPass) rs -> healthy_scan t)).
Proof.
  destruct check_idle as (_ & Hcompose & Hsops & Hgpg & Himage).
  apply idle_scan in Hcompose, Hsops, Hgpg, Himage. pose proof (idle_scan _ _ (contexts_idle flag ctxOverride c)) as Hctx.
  destruct (scan_monoidal ctxName) as [_ Happ].
  unfold doctor_checks. apply wp_bind. eapply wp_mono; [apply engine_spec|]. intros t1 engine [T1 He].
  apply wp_bind. eapply wp_mono; [exact Hctx|]. intros t2 contexts T2.
  apply wp_bind. eapply wp_mono; [exact Hcompose|]. intros t3 compose T3.
  apply wp_bind. eapply wp_mono; [exact Hsops|]. intros t4 sops T4.
  apply wp_bind. eapply wp_mono; [exact Hgpg|]. intros t5 gpg T5.
  apply wp_bind. eapply wp_mono; [exact Himage|]. intros t6 helper T6.
  apply wp_bind. eapply wp_mono; [apply network_spec|]. intros t7 net [T7 Hnet].
  apply wp_bind. eapply wp_mono; [apply volume_spec|]. intros t8 vol [T8 Hvol]. apply wp_ret.
  rewrite app_nil_r. split; [by repeat apply Happ|].
  rewrite !Forall_app, !Forall_cons. intros ([Hep _] & _ & _ & _ & _ & _ & Hnp & Hvp & _). split_and!.
  - specialize (He Hep). set_solver.
  - destruct (Hnet Hnp) as (now & Hm). exists now. eapply made_mono; [|exact Hm]. set_solver.
  - destruct (Hvol Hvp) as (now & Hm). exists now. eapply made_mono; [|exact Hm]. set_solver.
Qed.
End Scan.

(** C29: The health scan is honest and leaves nothing behind.  Whatever the daemon
    answers, its docker commands look, or create and remove a network and a volume
    of the scan's own name and label, on the scanned context only; what was
    created is asked to be removed; and the command succeeds only when the daemon
    answered and both could be created and removed. *)
Theorem doctor_tidy `{MapRange} `{Decoders} `{ResourceDecoders} `{Styles} `{Schedule} `{TextInput}
    h decode_contexts decode bluetext yellowtext version flag contextName :
  let ctxName := if bool_decide (TrimSpace contextName = "") then "default" else TrimSpace contextName in
  wp (doctor_command h decode_contexts decode bluetext yellowtext version flag contextName) (fun t r =>
    Forall (doctor_step ctxName) t /\ tidy ctxName t /\ (r = Ok tt -> healthy_scan ctxName t)).
Proof.
  intros ctxName. unfold doctor_command. cbv zeta. fold ctxName.
  destruct (scan_monoidal ctxName) as [_ Happ].
  apply wp_bind. eapply wp_mono; [apply idle_scan, ContextHost_idle|]. intros t1 hr T1.
  apply wp_bind. eapply wp_mono; [apply doctor_checks_spec|]. intros t2 rs [T2 Hh].
  eapply wp_mono; [apply report_spec|]. intros t3 r [T3 Hr].
  destruct (Happ t1 (t2 ++ t3)) as [HF Ht]; [done|by apply Happ|]. split; [done|]. split; [done|].
  intros Hok. destruct (Hh (proj1 Hr Hok)) as (Hd & (n1 & Hm1) & (n2 & Hm2)). split; [set_solver|].
  split; [exists n1|exists n2]; (eapply made_mono; [|eassumption]; set_solver).
Qed.
