(* ===== verification/RenderCmd.v ===== *)
(** * Rendering and small commands ([internal/cli/composecmd], [manifestcmd],
    [initcmd], [validatecmd], [internal/cli/common/common.go])

    [dockform compose render] shows the resolved configuration of a stack with values
    masked by the names they stand under; [manifest render], [init] and [validate] are short.  The pager
    is the terminal library's: only what it is given is modelled. *)

From S2P Require Import Prelude GoStrings GoPath Apperr Util Manifest Discovery Validation Targets Filesets Effects Docker DockerExec Lru Client Compose ServiceState Resource Plan Validator Prompt Session Commands HostOps CommandOps GoRegexp.
From Stdlib Require Import Ascii.

(** ** Masking *)

Fixpoint repeat_string (n : nat) (s : string) : string :=
  match n with 0 => "" | S n => s +:+ repeat_string n s end.
Definition stars (n : nat) : string := repeat_string n "*".

Definition mask (strategy s : string) : string :=
  let l := String.length s in
  if bool_decide (strategy = "partial") then
    if l <=? 4 then "****"
    else String.substring 0 2 s +:+ stars (l - 4) +:+ String.substring (l - 2) 2 s
  else if bool_decide (strategy = "preserve-length") then stars l
  else "********".

(** A value, inside its quotes if it has some. *)
Definition mask_value (strategy val : string) : string :=
  if HasPrefix val dq && HasSuffix val dq && (2 <=? String.length val)
  then dq +:+ mask strategy (String.substring 1 (String.length val - 2) val) +:+ dq
  else mask strategy val.

(** *** The regular expression

    For each pattern: the word in either case, blanks, a colon and blanks (the first
    group), then the longest non-empty text without newline or number sign (the
    second group). *)

(** The blanks of Go's expressions. *)
Definition re_space (c : ascii) : bool :=
  (code c =? 9) || (code c =? 10) || (code c =? 12) || (code c =? 13) || (code c =? 32).
Definition value_char (c : ascii) : bool := negb (Ascii.eqb c newline) && negb (Ascii.eqb c "#").

(** One letter in either case; folding also equates [k] with the Kelvin sign and [s]
    with the long s. *)
Definition ci_letter (c : ascii) (s : string) : option string :=
  match s with
  | "" => None
  | String d s' =>
      if Ascii.eqb (lower_byte d) c then Some s'
      else if Ascii.eqb c "k" then strip_prefix (String "226" (String "132" (String "170" ""))) s
      else if Ascii.eqb c "s" then strip_prefix (String "197" (String "191" "")) s
      else None
  end.
Fixpoint ci_word (kp s : string) : option string :=
  match kp with
  | "" => Some s
  | String c kp => s' ← ci_letter c s; ci_word kp s'
  end.

Definition string_drop_right (s rest : string) : string :=
  String.substring 0 (String.length s - String.length rest) s.

(** A match at the start of [s]: the two groups and the rest.  When the blanks after
    the colon are followed by no value, the last of them that is no newline is
    given back and is the value. *)
Definition match_here (kp s : string) : option (string * string * string) :=
  r1 ← ci_word kp s;
  let '(_, r2) := span re_space r1 in
  match r2 with
  | String ":" r3 =>
      let '(blanks, r4) := span re_space r3 in
      let '(value, rest) := span value_char r4 in
      if bool_decide (value <> "") then Some (string_drop_right s r4, value, rest)
      else
        (* the blanks end with newlines; the one before them is the value *)
        let back := string_rev (snd (span (Ascii.eqb newline) (string_rev blanks))) in
        if bool_decide (back = "") then None
        else
          let tail := String.substring (String.length back) (String.length blanks - String.length back) blanks
                      +:+ r4 in
          let last := String.substring (String.length back - 1) 1 back in
          Some (string_drop_right s (last +:+ tail), last, tail)
  | _ => None
  end.

(** [FindStringSubmatch]: the leftmost match. *)
Fixpoint find_match (fuel : nat) (kp s : string) : option (string * string) :=
  match fuel with
  | 0 => None
  | S fuel =>
      match match_here kp s with
      | Some (prefix, value, _) => Some (prefix, value)
      | None => match s with "" => None | String _ s => find_match fuel kp s end
      end
  end.

(** What a match is replaced by. *)
Definition replacement (kp strategy m : string) : string :=
  match find_match (S (String.length m)) kp m with
  | None => m
  | Some (prefix, value) => prefix +:+ mask_value strategy (TrimSpace value)
  end.

(** [ReplaceAllStringFunc] *)
Fixpoint mask_pattern (fuel : nat) (kp strategy s : string) : string :=
  match fuel with
  | 0 => s
  | S fuel =>
      match match_here kp s with
      | Some (_, _, rest) => replacement kp strategy (string_drop_right s rest) +:+ mask_pattern fuel kp strategy rest
      | None => match s with "" => "" | String c s => String c (mask_pattern fuel kp strategy s) end
      end
  end.

Definition keyPatterns : list string :=
  ["password"; "secret"; "token"; "key"; "apikey"; "api_key"; "access_key"; "private_key"].

Definition MaskSecretsSimple (yamlStr : string) (stack : Stack) (strategy : string) : string :=
  foldl (fun y kp => mask_pattern (S (String.length y)) kp strategy y) yamlStr keyPatterns.

(** ** dockform compose render *)

Section Render.
Context `{MapRange} `{Schedule} `{Styles} `{TextInput}.
Context (h : Host) (decode_contexts : string -> res (gmap string unit)) (decode : string -> res Config).

Definition render_op : string := "cli.compose.render".

(** The stack meant: a key, or the end of exactly one. *)
Definition resolve_stack (allStacks : gmap string Stack) (stackInput : string) : res (string * Stack) :=
  match allStacks !! stackInput with
  | Some stack => Ok (stackInput, stack)
  | None =>
      let unknown := Err (New render_op InvalidInput "unknown stack %q" [stackInput]) in
      if Contains stackInput "/" then unknown else
      match filter (fun e : string * Stack => HasSuffix e.1 ("/" +:+ stackInput) = true)
              (map_range "render stacks" allStacks) with
      | [] => unknown
      | [e] => Ok e
      | _ => Err (New render_op InvalidInput "stack %q is ambiguous; use context/stack format" [stackInput])
      end
  end.

Definition render_context (cfg : Config) (stackKey : string) (stack : Stack) : string :=
  if bool_decide (st_Context stack <> "") then st_Context stack else
  let named := match SplitN stackKey slash 2 with
               | [c; _] => if bool_decide (is_Some (cfg_Contexts cfg !! c)) then c else ""
               | _ => ""
               end in
  if bool_decide (named <> "") then named else
  match map_range "render context" (cfg_Contexts cfg) with [] => "" | (name, _) :: _ => name end.

Definition with_Contexts (cs : gmap string ContextConfig) (c : Config) : Config :=
  mkConfig (cfg_Identifier c) (cfg_Sops c) (cfg_Discovery c) cs (cfg_Deployments c) (cfg_Stacks c)
    (cfg_BaseDir c) (cfg_Targeted c) (cfg_DiscoveredStacks c) (cfg_DiscoveredFilesets c).

(** Only the stack's own context has to answer. *)
Definition ensure_reachable (cfg : Config) (contextName : string) : cmd (res unit) :=
  match cfg_Contexts cfg !! contextName with
  | Some cc => EnsureContextsReachable (with_Contexts {[contextName := cc]} cfg)
  | None => mret (Ok tt)
  end.

(** The first compose file, relative to the working directory if possible. *)
Definition render_title (stack : Stack) : string :=
  match st_Files stack with
  | [] => "compose.yaml"
  | first :: more =>
      let abs := if IsAbs first then first else PathJoin [st_Root stack; first] in
      let title := match os_Getwd h with
                   | Ok cwd => default (Clean abs) (Rel cwd abs)
                   | Err _ => Clean abs
                   end in
      match more with [] => title | _ => title +:+ " (+" +:+ Itoa_nat (length more) +:+ ")" end
  end.

Definition print_missing (missing : list string) : cmd unit :=
  for_each (fun _ name => do_op (Warn ("environment variable " +:+ name
    +:+ " is not set; replacing with empty string"))) tt missing.

(** The text to show and its title. *)
Definition render_stack (flag stackInput : string) (showSecrets : bool) (maskStr : string)
  : vcmd (res (string * string)) :=
  file ← v_session (ResolveManifestPath h decode_contexts flag "." 3);
  try file id (fun file =>
  match LoadWithWarnings decode h file with
  | (Err e, _) => mret (Err e)
  | (Ok cfg, missing) =>
      _ ← v_session (print_missing missing);
      match resolve_stack (GetAllStacks cfg) stackInput with
      | Err e => mret (Err e)
      | Ok (stackKey, stack) =>
          inline ← v_session (planned (BuildInlineEnv (NewServiceStateDetector None) stack (cfg_Sops cfg)));
          try inline id (fun inline =>
          let contextName := render_context cfg stackKey stack in
          reach ← v_session (ensure_reachable cfg contextName);
          try reach id (fun _ =>
          raw ← v_docker contextName (ComposeConfigRaw (mkComposeArgs (st_Root stack) (st_Files stack)
                  (st_Profiles stack) (st_EnvFile stack) inline));
          try raw id (fun raw =>
          mret (Ok (if showSecrets then raw else MaskSecretsSimple raw stack maskStr, render_title stack)))))
      end
  end).

(** [RenderYAMLInPagerTTY]: printed with one newline at its end, or in the pager. *)
Definition RenderYAMLInPagerTTY (yaml : string) : cmd (res unit) :=
  i ← do_op (IsTerminal Stdin);
  o ← do_op (IsTerminal Stdout);
  if (i : bool) && (o : bool) then
    r ← do_op RunTea; mret (match r with Ok _ => Ok tt | Err e => Err e end)
  else _ ← do_op (Print (TrimSuffix yaml nl)); mret (Ok tt).

Definition compose_render (flag stackInput : string) (showSecrets : bool) (maskStr : string)
  : vcmd (res unit) :=
  r ← render_stack flag stackInput showSecrets maskStr;
  try r id (fun '(text, _) => v_session (RenderYAMLInPagerTTY text)).

(** ** dockform manifest render, init, validate *)

Definition manifest_render (flag : string) : cmd (res unit) :=
  file ← ResolveManifestPath h decode_contexts flag "." 3;
  try file id (fun file =>
  match RenderWithWarningsAndPath h file with
  | Err e => mret (Err e)
  | Ok (out, _, missing) => _ ← print_missing missing; RenderYAMLInPagerTTY out
  end).

(** The template is a file of the repository. *)
Context (dockformTemplate : string).

(** The path as it is reported: relative to the working directory when shorter. *)
Definition created_path (configPath : string) : string :=
  match Abs h configPath, os_Getwd h with
  | Ok abs, Ok cwd => match Rel cwd abs with
                      | Some rel => if String.length rel <? String.length abs then rel else configPath
                      | None => configPath
                      end
  | _, _ => configPath
  end.

Definition write_template (configPath : string) : vcmd (res unit) :=
  w ← v_host (WriteFile configPath dockformTemplate);
  try (w : res unit) (fun e => wrap "cli.init" Internal e "write dockform.yml" []) (fun _ =>
  _ ← v_print ("Created dockform.yml: " +:+ created_path configPath);
  mret (Ok tt)).

Definition init_file (targetDir : string) : vcmd (res unit) :=
  let configPath := PathJoin [targetDir; "dockform.yml"] in
  st ← v_host (Stat configPath);
  match (st : StatResult) with
  | StatOk _ => mret (Err (New "cli.init" InvalidInput "dockform.yml already exists in %s" [targetDir]))
  | _ => write_template configPath
  end.

Definition init_command (args : list string) : vcmd (res unit) :=
  let targetDir := match args with [] => "." | d :: _ => d end in
  if bool_decide (targetDir = ".") then init_file targetDir else
  st ← v_host (Stat targetDir);
  match (st : StatResult) with
  | StatNotExist => mret (Err (New "cli.init" NotFound "directory %s does not exist" [targetDir]))
  | StatErr e => mret (Err (wrap "cli.init" Internal e "check directory %s" [targetDir]))
  | StatOk _ => init_file targetDir
  end.

Context (labelStyle : string -> string).

Definition validate_command (fl : Flags) : cmd (res unit) :=
  s ← setup h decode_contexts decode labelStyle fl;
  try s id (fun _ => _ ← do_op (Print "validation successful"); mret (Ok tt)).
End Render.

(** The short name of a stack is accepted exactly when one key ends in it, whatever
    the order of the map; a full key always is. *)
Lemma resolve_stack_exact `{MapRange} allStacks stackInput key stack :
  resolve_stack allStacks stackInput = Ok (key, stack) <->
  allStacks !! key = Some stack /\
  (key = stackInput \/
   allStacks !! stackInput = None /\ Contains stackInput "/" = false /\ HasSuffix key ("/" +:+ stackInput) = true
   /\ forall k, is_Some (allStacks !! k) -> HasSuffix k ("/" +:+ stackInput) = true -> k = key).
Proof.
  unfold resolve_stack. destruct (allStacks !! stackInput) as [st|] eqn:Hk.
  { split; [intros [= <- <-]; eauto|]. intros [Hl [->|[? _]]]; [|congruence]. congruence. }
  destruct (Contains stackInput "/") eqn:Hc; [split; [done|]; intros [Hl [->|(_ & ? & _)]]; congruence|].
  set (fl := filter _ _).
  assert (Hin : forall k st, (k, st) ∈ fl <-> HasSuffix k ("/" +:+ stackInput) = true /\ allStacks !! k = Some st)
    by (intros k st; unfold fl; by rewrite list_elem_of_filter, elem_of_map_range).
  assert (Hnd : NoDup fl) by (apply NoDup_filter; eapply NoDup_fmap_1, NoDup_map_range).
  destruct fl as [|[k1 s1] [|[k2 s2] more]].
  - split; [done|]. intros [Hl [->|(_ & _ & Hs & _)]]; [congruence|]. set_solver.
  - split.
    + intros [= <- <-]. destruct (proj1 (Hin k1 s1)) as [Hs Hl]; [set_solver|]. split; [done|]. right.
      split_and!; try done. intros k [st Hst] Hsk.
      pose proof (proj2 (Hin k st) (conj Hsk Hst)) as He%list_elem_of_singleton. congruence.
    + intros [Hl [->|(_ & _ & Hs & _)]]; [congruence|].
      pose proof (proj2 (Hin key stack) (conj Hs Hl)) as He%list_elem_of_singleton. congruence.
  - split; [done|]. intros [Hl [->|(_ & _ & Hs & Hu)]]; [congruence|].
    destruct (proj1 (Hin k1 s1)) as [Hs1 Hl1]; [set_solver|]. destruct (proj1 (Hin k2 s2)) as [Hs2 Hl2]; [set_solver|].
    assert (k1 = key) as -> by (apply Hu; eauto). assert (k2 = key) as -> by (apply Hu; eauto).
    apply NoDup_cons in Hnd as [Hni _]. replace s2 with s1 in * by congruence. set_solver.
Qed.

(** [init] writes one file, the manifest, after it was seen not to be there. *)
Definition fresh_writes (template : string) (t : list (obs command_effect)) : Prop :=
  forall path content w, on_host (WriteFile path content) w ∈ t ->
    content = template /\ exists st, on_host (Stat path) st ∈ t /\ forall d, st <> StatOk d.

Lemma init_file_fresh h template targetDir :
  wp (init_file h template targetDir) (fun t _ => fresh_writes template t).
Proof.
  unfold init_file. cbv zeta. set (path := PathJoin _). apply wp_bind. unfold v_host. wp_doop.
  assert (Hw : wp (write_template h template path) (fun t _ =>
    forall p c w, on_host (WriteFile p c) w ∈ t -> p = path /\ c = template)).
  { unfold write_template. apply wp_bind. unfold v_host. wp_doop. intros [[]|e]; apply wp_try.
    - apply wp_bind. unfold v_print. wp_doop. intros []. apply wp_ret.
      intros p c w [Heq|[Heq|[]%elem_of_nil]%elem_of_cons]%elem_of_cons; by apply (f_equal op_of) in Heq as [=].
    - intros p c w [Heq|[]%elem_of_nil]%elem_of_cons. by apply (f_equal op_of) in Heq as [=]. }
  assert (Hfresh : forall st, (forall d, st <> StatOk d) ->
    wp (write_template h template path) (fun t _ => fresh_writes template ([on_host (Stat path) st] ++ t))).
  { intros st Hst. eapply wp_mono; [exact Hw|]. intros t r Ht p c w [Heq|Hin]%elem_of_cons; [discriminate Heq|].
    apply Ht in Hin as [-> ->]. split; [done|]. exists st. split; [left|done]. }
  intros [d| |e]; [apply wp_ret; by intros p c w [Heq|[]%elem_of_nil]%elem_of_cons| |]; by apply Hfresh.
Qed.

Lemma init_keeps_manifest h template args :
  wp (init_command h template args) (fun t _ => fresh_writes template t).
Proof.
  unfold init_command. case_bool_decide; [apply init_file_fresh|].
  apply wp_bind. unfold v_host. wp_doop. intros [d| |e].
  - eapply wp_mono; [apply init_file_fresh|]. intros t r Ht p c w [Heq|Hin]%elem_of_cons; [discriminate Heq|].
    destruct (Ht p c w Hin) as (-> & st & ? & ?). split; [done|]. exists st. split; [by right|done].
  - apply wp_ret. by intros p c w [Heq|[]%elem_of_nil]%elem_of_cons.
  - apply wp_ret. by intros p c w [Heq|[]%elem_of_nil]%elem_of_cons.
Qed.

(** ** Examples *)

Example mask_strategies :
  let line := "      API_KEY: " +:+ dq +:+ "abcdefgh" +:+ dq +:+ nl in
  MaskSecretsSimple line empty_stack "full" = "      API_KEY: " +:+ dq +:+ "********" +:+ dq +:+ nl
  /\ MaskSecretsSimple line empty_stack "partial" = "      API_KEY: " +:+ dq +:+ "ab****gh" +:+ dq +:+ nl
  /\ MaskSecretsSimple "token: abc # note" empty_stack "preserve-length" = "token: ***# note".
Proof. by vm_compute. Qed.

(** The values of the stack are not looked at: a secret under another name is shown. *)
Example mask_by_name_only : MaskSecretsSimple ("DB_PASS: hunter2" +:+ nl)
    (mkStack "" [] [] [] None None None ∅ "" ["DB_PASS=hunter2"] ["secrets.env"] "") "full"
  = "DB_PASS: hunter2" +:+ nl.
Proof. by vm_compute. Qed.

(** The blanks after the colon include newlines: the line below a mapping is taken
    for its value. *)
Example mask_crosses_lines : MaskSecretsSimple ("key:" +:+ nl +:+ "  file: a" +:+ nl) empty_stack "full"
  = "key:" +:+ nl +:+ "  ********" +:+ nl.
Proof. by vm_compute. Qed.

(** ** Masking, line by line *)

(** Printable ASCII without blanks, colons and number signs. *)
Definition plain_char (c : ascii) : Prop := 33 <= code c <= 126 /\ c <> ":"%char /\ c <> "#"%char.
Definition plain (s : string) : Prop := Forall plain_char (chars s).

(** A line of a rendered file: a name and a value, indented. *)
Record yaml_line := mkYaml { yl_indent : nat; yl_name : string; yl_value : string }.
Definition simple_line (l : yaml_line) : Prop :=
  yl_name l <> "" /\ plain (yl_name l) /\ yl_value l <> "" /\ plain (yl_value l).

Definition line_text (l : yaml_line) : string :=
  repeat_string (yl_indent l) " " +:+ yl_name l +:+ ": " +:+ yl_value l +:+ nl.
Fixpoint yaml_text (ls : list yaml_line) : string :=
  match ls with [] => "" | l :: ls => line_text l +:+ yaml_text ls end.

Fixpoint lower_ascii (s : string) : string :=
  match s with "" => "" | String c s => String (lower_byte c) (lower_ascii s) end.

Definition named (kp : string) (l : yaml_line) : bool := HasSuffix (lower_ascii (yl_name l)) kp.
Definition with_masked (strategy : string) (l : yaml_line) : yaml_line :=
  mkYaml (yl_indent l) (yl_name l) (mask_value strategy (yl_value l)).

(** The values of the lines whose name ends with one of the patterns, masked. *)
Definition mask_line (strategy : string) (l : yaml_line) : yaml_line :=
  if existsb (fun kp => named kp l) keyPatterns then with_masked strategy l else l.

Lemma plain_app s t : plain (s +:+ t) <-> plain s /\ plain t.
Proof. unfold plain. rewrite chars_app. apply Forall_app. Qed.
Lemma plain_cons c s : plain (String c s) <-> plain_char c /\ plain s.
Proof. unfold plain. simpl. apply Forall_cons. Qed.

(** *** Pieces of strings *)

Lemma substring_prefix p x : String.substring 0 (String.length p) (p +:+ x) = p.
Proof. induction p as [|c p IH]; [by destruct x|]. rewrite string_app_cons. simpl. by rewrite IH. Qed.

Lemma substring_mid p x q : String.substring (String.length p) (String.length x) (p +:+ x +:+ q) = x.
Proof. induction p as [|c p IH]; [apply (substring_prefix x q)|by rewrite string_app_cons]. Qed.

Lemma substring_suffix p q : String.substring (String.length p) (String.length q) (p +:+ q) = q.
Proof. pose proof (substring_mid p q "") as Hq. by rewrite string_app_nil_r in Hq. Qed.

Lemma drop_right_app a rest : string_drop_right (a +:+ rest) rest = a.
Proof.
  unfold string_drop_right. rewrite string_length_app.
  replace (String.length a + String.length rest - String.length rest) with (String.length a) by lia.
  apply substring_prefix.
Qed.

Lemma plain_facts c : plain_char c ->
  re_space c = false /\ value_char c = true /\ code c < 128 /\ c <> newline /\ c <> " "%char.
Proof.
  intros [Hc [_ Hn]]. unfold re_space, value_char. split_and!.
  - rewrite !orb_false_iff, !Nat.eqb_neq. lia.
  - rewrite andb_true_iff, !negb_true_iff, !Ascii.eqb_neq. split; [|done].
    intros ->. vm_compute in Hc. lia.
  - lia.
  - intros ->. vm_compute in Hc. lia.
  - intros ->. vm_compute in Hc. lia.
Qed.

Lemma no_lead_plain sp1 sp2 sp3 s : (forall c, plain_char c -> sp1 c = false) ->
  (forall c d, plain_char c -> sp2 c d = false) -> (forall c d e, plain_char c -> sp3 c d e = false) ->
  plain s -> no_lead sp1 sp2 sp3 s = true.
Proof.
  intros H1 H2 H3 Hs. destruct s as [|a [|b [|c s]]]; [done|..]; apply plain_cons in Hs as [Ha _]; simpl;
    rewrite ?H1, ?H2, ?H3 by done; done.
Qed.

Lemma plain_rev s : plain s -> plain (string_rev s).
Proof. unfold plain. rewrite chars_rev. apply Forall_reverse. Qed.

Lemma low_eqb c n : code c < 128 -> 128 <= n -> (code c =? n) = false.
Proof. intros. apply Nat.eqb_neq. lia. Qed.

(** The encodings of wide blanks have no ASCII bytes. *)
Lemma space2_low a b : code a < 128 \/ code b < 128 -> space2 a b = false.
Proof.
  intros [Hl|Hl]; unfold space2.
  - by rewrite (low_eqb a) by (done || vm_compute; lia).
  - rewrite !(low_eqb b) by (done || vm_compute; lia). apply andb_false_r.
Qed.
Lemma space3_low a b c : code a < 128 \/ code c < 128 -> space3 a b c = false.
Proof.
  intros [Hl|Hl]; unfold space3.
  - by rewrite !(low_eqb a) by (done || vm_compute; lia).
  - assert (byte_in 0x80 0x8A c = false) as ->.
    { unfold byte_in. rewrite (proj2 (Nat.leb_gt _ _)); [done|]. vm_compute in Hl |- *. lia. }
    rewrite !(low_eqb c) by (done || vm_compute; lia). by rewrite !andb_false_r.
Qed.

Lemma TrimSpace_plain s : plain s -> TrimSpace s = s.
Proof.
  intros Hs. assert (forall c, plain_char c -> space1 c = false) as H1.
  { intros c [Hc _]. unfold space1, byte_in. rewrite orb_false_iff, andb_false_iff, !Nat.leb_gt, Nat.eqb_neq. lia. }
  assert (forall c, plain_char c -> code c < 128) as Hl by (intros c Hc; by apply plain_facts).
  unfold TrimSpace, trim_right. rewrite trim_left_id.
  - rewrite trim_with_id; [apply string_rev_involutive|].
    apply no_lead_plain; [done|intros; apply space2_low; auto|intros; apply space3_low; auto|by apply plain_rev].
  - apply no_lead_plain; [done|intros; apply space2_low; auto|intros; apply space3_low; auto|done].
Qed.

(** *** Where a pattern matches *)

(** The patterns are words of letters and underscores. *)
Definition word_char (c : ascii) : Prop := is_lower_letter c = true \/ c = "_"%char.

Lemma lower_word c d : word_char c -> lower_byte d = c -> plain_char d.
Proof.
  intros Hw Hd. unfold lower_byte in Hd. destruct (is_upper_letter d) eqn:Hu.
  - unfold is_upper_letter, byte_in in Hu. rewrite andb_true_iff, !Nat.leb_le in Hu.
    split; [lia|]. split; intros ->; vm_compute in Hu; lia.
  - subst d. destruct Hw as [Hl| ->].
    + unfold is_lower_letter, byte_in in Hl. rewrite andb_true_iff, !Nat.leb_le in Hl.
      split; [lia|]. split; intros ->; vm_compute in Hl; lia.
    + split; [vm_compute; lia|done].
Qed.

Definition ascii_text (s : string) : Prop := Forall (fun c => code c < 128) (chars s).

Lemma strip_high p x d s : code p >= 128 -> code d < 128 -> strip_prefix (String p x) (String d s) = None.
Proof.
  intros Hp Hd. simpl. destruct (Ascii.eqb p d) eqn:He; [|done]. apply Ascii.eqb_eq in He as ->. lia.
Qed.

Lemma ci_letter_ascii c s r : ascii_text s -> ci_letter c s = Some r ->
  exists d, s = String d r /\ lower_byte d = c.
Proof.
  intros Ha. destruct s as [|d s]; [done|]. apply Forall_cons in Ha as [Hd _]. unfold ci_letter.
  destruct (Ascii.eqb (lower_byte d) c) eqn:Hc.
  - intros [= ->]. exists d. split; [done|]. by apply Ascii.eqb_eq.
  - rewrite !strip_high by (done || vm_compute; lia). by destruct (Ascii.eqb c "k"), (Ascii.eqb c "s").
Qed.

(** In ASCII text a pattern matches its own letters. *)
Lemma ci_word_ascii kp s r : ascii_text s -> ci_word kp s = Some r ->
  exists w, s = w +:+ r /\ lower_ascii w = kp.
Proof.
  revert s. induction kp as [|c kp IH]; intros s Ha; simpl.
  - intros [= ->]. by exists "".
  - destruct (ci_letter c s) as [s'|] eqn:Hc; [|done]. simpl. intros Hw.
    destruct (ci_letter_ascii _ _ _ Ha Hc) as (d & -> & Hd). apply Forall_cons in Ha as [_ Ha].
    destruct (IH s' Ha Hw) as (w & -> & Hl). exists (String d w). simpl. by rewrite Hd, Hl.
Qed.

Lemma ci_word_app kp w r : lower_ascii w = kp -> ci_word kp (w +:+ r) = Some r.
Proof.
  revert kp. induction w as [|d w IH]; intros kp <-; [done|]. rewrite string_app_cons. simpl.
  rewrite (proj2 (Ascii.eqb_eq _ _) eq_refl). simpl. by apply IH.
Qed.

Section Pattern.
Context (kp : string) (Hkp : kp <> "") (Hword : Forall word_char (chars kp)).

Lemma matched_plain w : lower_ascii w = kp -> plain w.
Proof.
  clear Hkp. revert kp Hword. induction w as [|d w IH]; intros kp' Hw <-; [constructor|].
  simpl in Hw. apply Forall_cons in Hw as [Hc Hw]. apply plain_cons. split; [by eapply lower_word|by eapply IH].
Qed.

(** No match where the text after the word has no colon. *)
Lemma match_here_none s : ascii_text s ->
  (forall w r, lower_ascii w = kp -> s = w +:+ r -> match (span re_space r).2 with String ":" _ => False | _ => True end) ->
  match_here kp s = None.
Proof.
  intros Ha Hn. unfold match_here. destruct (ci_word kp s) as [r|] eqn:Hw; [|done]. simpl.
  destruct (ci_word_ascii _ _ _ Ha Hw) as (w & Hs & Hl). specialize (Hn w r Hl Hs).
  destruct (span re_space r) as [b r2]. simpl in Hn. destruct r2 as [|c r2]; [done|].
  destruct c as [[] [] [] [] [] [] [] []]; done.
Qed.

(** A match of a simple line. *)
Lemma match_here_line w v rest : lower_ascii w = kp -> plain v -> v <> "" ->
  (match rest with "" => True | String c _ => value_char c = false end) ->
  match_here kp (w +:+ ": " +:+ v +:+ rest) = Some (w +:+ ": ", v, rest).
Proof.
  intros Hw Hv Hne Hrest. unfold match_here. rewrite ci_word_app by done. cbn [mbind option_bind].
  assert (span re_space (v +:+ rest) = ("", v +:+ rest)) as Hs.
  { destruct v as [|c v]; [done|]. apply plain_cons in Hv as [Hc _]. rewrite string_app_cons. simpl.
    by rewrite (proj1 (plain_facts _ Hc)). }
  change (": " +:+ v +:+ rest) with (String ":" (String " " (v +:+ rest))).
  assert (forall x, span re_space (String ":" x) = ("", String ":" x)) as -> by done.
  assert (span re_space (String " " (v +:+ rest)) = (" ", v +:+ rest)) as ->.
  { cbn [span]. change (re_space " ") with true. cbv iota. by rewrite Hs. }
  rewrite span_all; [|eapply Forall_impl; [exact Hv|]; intros c Hc; by apply plain_facts|done].
  rewrite bool_decide_true by done. do 3 f_equal.
  change (String ":" (String " " (v +:+ rest))) with (": " +:+ (v +:+ rest)).
  rewrite <- string_app_assoc. by rewrite drop_right_app.
Qed.

Lemma plain_prefix w r y z : w +:+ r = y +:+ z -> plain w ->
  (match z with "" => True | String c _ => ~ plain_char c end) -> exists y', y = w +:+ y' /\ r = y' +:+ z.
Proof.
  revert y. induction w as [|c w IH]; intros y Heq Hw Hz; [by exists y|].
  apply plain_cons in Hw as [Hc Hw]. rewrite string_app_cons in Heq. destruct y as [|d y].
  - rewrite string_app_nil_l in Heq. subst z. by destruct Hz.
  - rewrite string_app_cons in Heq. injection Heq as -> Heq. destruct (IH y Heq Hw Hz) as (y' & -> & ->).
    by exists y'.
Qed.

Definition not_colon (s : string) : Prop := match s with String ":" _ => False | _ => True end.

Lemma plain_next c s : plain_char c -> not_colon (span re_space (String c s)).2.
Proof.
  intros Hc. cbn [span]. rewrite (proj1 (plain_facts _ Hc)). simpl. destruct Hc as [_ [Hc _]].
  destruct c as [[] [] [] [] [] [] [] []]; done.
Qed.

Lemma text_next ls : Forall simple_line ls -> not_colon (span re_space (yaml_text ls)).2.
Proof.
  intros HF. destruct ls as [|l ls]; [done|]. apply Forall_cons in HF as [(Hne & Hp & _) _]. cbn [yaml_text].
  unfold line_text. rewrite !string_app_assoc. destruct (yl_name l) as [|c n]; [done|].
  apply plain_cons in Hp as [Hc _]. induction (yl_indent l) as [|k IH]; [by apply plain_next|].
  cbn [repeat_string]. rewrite string_app_assoc. change (" " +:+ ?x) with (String " " x). cbn [span].
  change (re_space " ") with true. cbv iota. destruct (span re_space _); exact IH.
Qed.

Context (strategy : string).

Lemma mask_skip fuel x z : String.length x <= fuel ->
  (forall p y, x = p +:+ y -> y <> "" -> match_here kp (y +:+ z) = None) ->
  mask_pattern fuel kp strategy (x +:+ z) = x +:+ mask_pattern (fuel - String.length x) kp strategy z.
Proof.
  revert fuel. induction x as [|c x IH]; intros fuel Hf Hn.
  - by rewrite !string_app_nil_l, Nat.sub_0_r.
  - destruct fuel as [|fuel]; [simpl in Hf; lia|]. cbn [mask_pattern].
    rewrite (Hn "" (String c x)) by done. rewrite !string_app_cons. f_equal. apply IH; [simpl in Hf; lia|].
    intros p y -> Hy. by apply (Hn (String c p) y).
Qed.

Lemma lower_split s a b : lower_ascii s = a +:+ b ->
  exists s1 s2, s = s1 +:+ s2 /\ lower_ascii s1 = a /\ lower_ascii s2 = b.
Proof.
  revert s. induction a as [|c a IH]; intros s Hs; [by exists "", s|].
  rewrite string_app_cons in Hs. destruct s as [|d s]; [done|]. simpl in Hs. injection Hs as Hd Hs.
  destruct (IH s Hs) as (s1 & s2 & -> & <- & <-). exists (String d s1), s2. by rewrite <- Hd.
Qed.
Lemma lower_app s t : lower_ascii (s +:+ t) = lower_ascii s +:+ lower_ascii t.
Proof. induction s as [|c s IH]; [done|]. rewrite string_app_cons. simpl. by rewrite IH. Qed.
Lemma lower_length s : String.length (lower_ascii s) = String.length s.
Proof. induction s as [|c s IH]; [done|]. simpl. by rewrite IH. Qed.

Lemma ascii_app s t : ascii_text (s +:+ t) <-> ascii_text s /\ ascii_text t.
Proof. unfold ascii_text. rewrite chars_app. apply Forall_app. Qed.
Lemma plain_ascii s : plain s -> ascii_text s.
Proof. intros Hs. eapply Forall_impl; [exact Hs|]. intros c Hc. by apply plain_facts. Qed.

(** No match starts at a byte that is not plain. *)
Lemma match_here_first c s : ~ plain_char c -> ascii_text (String c s) -> match_here kp (String c s) = None.
Proof.
  intros Hc Ha. apply match_here_none; [done|]. intros w r Hw Heq. exfalso.
  pose proof (matched_plain w Hw) as Hp. destruct w as [|d w]; [by subst kp|].
  rewrite string_app_cons in Heq. injection Heq as -> _. by apply plain_cons in Hp as [Hp _].
Qed.

Lemma skip_blank fuel x z : String.length x <= fuel -> Forall (fun c => ~ plain_char c) (chars x) ->
  ascii_text (x +:+ z) ->
  mask_pattern fuel kp strategy (x +:+ z) = x +:+ mask_pattern (fuel - String.length x) kp strategy z.
Proof.
  intros Hf Hx Ha. apply mask_skip; [done|]. intros p y -> Hy.
  destruct y as [|c y]; [done|]. rewrite string_app_assoc in Ha. apply ascii_app in Ha as [_ Ha].
  apply match_here_first; [|done]. rewrite chars_app in Hx. apply Forall_app in Hx as [_ Hx].
  by apply Forall_cons in Hx as [Hx _].
Qed.

(** Nor at a plain text that the word does not end at. *)
Lemma match_here_inside y z : plain y -> ascii_text (y +:+ z) ->
  (match z with "" => True | String c _ => ~ plain_char c end) ->
  (lower_ascii y = kp -> not_colon (span re_space z).2) -> match_here kp (y +:+ z) = None.
Proof.
  intros Hy Ha Hz Hk. apply match_here_none; [done|]. intros w r Hw Heq. symmetry in Heq.
  destruct (plain_prefix w r y z Heq (matched_plain w Hw) Hz) as (y' & -> & ->).
  change (not_colon (span re_space (y' +:+ z)).2). destruct y' as [|c y'].
  - rewrite string_app_nil_l. apply Hk. by rewrite string_app_nil_r.
  - rewrite string_app_cons. apply plain_app in Hy as [_ Hy]. apply plain_cons in Hy as [Hc _].
    by apply plain_next.
Qed.

Lemma skip_plain fuel x z : String.length x <= fuel -> plain x -> ascii_text (x +:+ z) ->
  (match z with "" => True | String c _ => ~ plain_char c end) ->
  (forall p y, x = p +:+ y -> lower_ascii y = kp -> not_colon (span re_space z).2) ->
  mask_pattern fuel kp strategy (x +:+ z) = x +:+ mask_pattern (fuel - String.length x) kp strategy z.
Proof.
  intros Hf Hx Ha Hz Hk. apply mask_skip; [done|]. intros p y Heq Hy. subst x.
  rewrite string_app_assoc in Ha. apply ascii_app in Ha as [_ Ha]. apply plain_app in Hx as [_ Hx].
  apply match_here_inside; [done|done|done|by apply (Hk p)].
Qed.

Definition mask_named (l : yaml_line) : yaml_line := if named kp l then with_masked strategy l else l.

Lemma spaces_blank n : Forall (fun c => ~ plain_char c) (chars (repeat_string n " ")).
Proof.
  induction n as [|n IH]; [constructor|]. cbn [repeat_string]. rewrite chars_app. apply Forall_app. split; [|done].
  apply Forall_singleton. intros [Hc _]. vm_compute in Hc. lia.
Qed.

Lemma blank_literals : Forall (fun c => ~ plain_char c) (chars ": ") /\ Forall (fun c => ~ plain_char c) (chars nl).
Proof.
  split; repeat constructor; intros [Hc Hn]; try (vm_compute in Hc; lia); by destruct Hn.
Qed.

Lemma blank_ascii s : s = ": " \/ s = nl \/ (exists n, s = repeat_string n " ") -> ascii_text s.
Proof.
  intros [->|[->|(n & ->)]]; [by repeat constructor; vm_compute; lia..|].
  unfold ascii_text. induction n as [|n IH]; [constructor|]. cbn [repeat_string]. rewrite chars_app.
  apply Forall_app. split; [|done]. apply Forall_singleton. vm_compute. lia.
Qed.

Lemma text_ascii ls : Forall simple_line ls -> ascii_text (yaml_text ls).
Proof.
  induction 1 as [|l ls (_ & Hn & _ & Hv) _ IH]; [constructor|]. cbn [yaml_text]. unfold line_text.
  rewrite !ascii_app. split_and!; [|by apply plain_ascii| |by apply plain_ascii| |done];
    (apply blank_ascii; eauto).
Qed.

(** The value of a line and its end, when no match began before. *)
Lemma mask_value_part fuel v ls : plain v -> Forall simple_line ls ->
  String.length (v +:+ nl +:+ yaml_text ls) < fuel ->
  exists fuel', String.length (yaml_text ls) < fuel' /\
    mask_pattern fuel kp strategy (v +:+ nl +:+ yaml_text ls)
    = v +:+ nl +:+ mask_pattern fuel' kp strategy (yaml_text ls).
Proof.
  intros Hv Hls Hf. destruct blank_literals as [_ Hnl]. pose proof (text_ascii ls Hls) as Ha.
  assert (ascii_text (nl +:+ yaml_text ls)) as Ha'.
  { apply ascii_app. split; [apply blank_ascii; auto|done]. }
  rewrite !string_length_app in Hf.
  rewrite skip_plain; [|lia|done|by apply ascii_app; split; [apply plain_ascii|]| |].
  - rewrite skip_blank; [|lia|done|done]. eexists. split; [|done]. change (String.length nl) with 1 in *. lia.
  - change (nl +:+ yaml_text ls) with (String newline (yaml_text ls)). by apply Forall_cons in Hnl as [Hc _].
  - intros p y _ _. change (nl +:+ yaml_text ls) with (String newline (yaml_text ls)). cbn [span].
    change (re_space newline) with true. cbv iota. pose proof (text_next ls Hls) as Hn.
    destruct (span re_space (yaml_text ls)); exact Hn.
Qed.

(** The match itself is replaced. *)
Lemma replacement_line w v : lower_ascii w = kp -> plain v -> v <> "" ->
  replacement kp strategy (w +:+ ": " +:+ v) = w +:+ ": " +:+ mask_value strategy v.
Proof.
  intros Hw Hv Hne. unfold replacement. cbn [find_match].
  pose proof (match_here_line w v "" Hw Hv Hne I) as Hm. rewrite string_app_nil_r in Hm. rewrite Hm.
  rewrite TrimSpace_plain by done. by rewrite string_app_assoc.
Qed.

Lemma named_split l : named kp l = true -> exists p w, yl_name l = p +:+ w /\ lower_ascii w = kp.
Proof.
  unfold named. rewrite HasSuffix_true. intros (r & Hr). destruct (lower_split _ _ _ Hr) as (p & w & Hn & _ & Hw).
  by exists p, w.
Qed.
Lemma named_end l p w : yl_name l = p +:+ w -> lower_ascii w = kp -> named kp l = true.
Proof.
  intros Hn Hw. unfold named. apply HasSuffix_true. exists (lower_ascii p). by rewrite Hn, lower_app, Hw.
Qed.

(** From the name of a line on. *)
Lemma mask_name_part fuel l ls : simple_line l -> Forall simple_line ls ->
  String.length (yl_name l +:+ ": " +:+ yl_value l +:+ nl +:+ yaml_text ls) < fuel ->
  exists fuel', String.length (yaml_text ls) < fuel' /\
    mask_pattern fuel kp strategy (yl_name l +:+ ": " +:+ yl_value l +:+ nl +:+ yaml_text ls)
    = yl_name l +:+ ": " +:+ yl_value (mask_named l) +:+ nl +:+ mask_pattern fuel' kp strategy (yaml_text ls).
Proof.
  intros (Hne & Hn & Hve & Hv) Hls Hf. destruct blank_literals as [Hcol Hnl].
  assert (ascii_text (yl_value l +:+ nl +:+ yaml_text ls)) as Ha.
  { rewrite !ascii_app. split_and!; [by apply plain_ascii|apply blank_ascii; eauto|by apply text_ascii]. }
  assert (ascii_text (": " +:+ yl_value l +:+ nl +:+ yaml_text ls)) as Ha'.
  { apply ascii_app. split; [apply blank_ascii; eauto|done]. }
  assert (~ plain_char ":"%char) as Hc by by apply Forall_cons in Hcol as [Hc _].
  unfold mask_named. destruct (named kp l) eqn:Hk.
  - destruct (named_split l Hk) as (p & w & Heq & Hw). rewrite Heq in *. rewrite !string_app_assoc in *.
    rewrite string_length_app in Hf. apply plain_app in Hn as [Hp Hpw].
    rewrite mask_skip; [|lia|].
    2:{ intros q y -> Hy. apply plain_app in Hp as [_ Hp]. rewrite <- string_app_assoc.
        apply match_here_inside; [by apply plain_app| |done|].
        - rewrite ascii_app. split; [apply plain_ascii; by apply plain_app|done].
        - intros Hl%(f_equal String.length). rewrite <- Hw in Hl.
          rewrite !lower_length, string_length_app in Hl. destruct y; [done|simpl in Hl; lia]. }
    destruct (fuel - String.length p) as [|fuel1] eqn:Hf1; [lia|]. cbn [mask_pattern].
    rewrite match_here_line by done.
    rewrite <- (string_app_assoc ": "), <- (string_app_assoc w), drop_right_app, replacement_line by done.
    rewrite !string_length_app in Hf.
    assert (String.length w <> 0) by (destruct w; [by subst kp|simpl; lia]).
    rewrite <- (string_app_nil_l (nl +:+ yaml_text ls)).
    destruct (mask_value_part fuel1 "" ls) as (fuel' & Hf' & Hm); [constructor|done| |].
    { rewrite string_app_nil_l, string_length_app. change (String.length ": ") with 2 in Hf. lia. }
    exists fuel'. split; [done|]. rewrite Hm, string_app_nil_l. by rewrite !string_app_assoc.
  - rewrite !string_length_app in Hf. change (String.length ": ") with 2 in Hf.
    rewrite skip_plain; [|lia|done|apply ascii_app; split; [by apply plain_ascii|done]|done|].
    2:{ intros p y Heq Hl. by rewrite (named_end l p y Heq Hl) in Hk. }
    rewrite skip_blank; [|change (String.length ": ") with 2; lia|done|done].
    destruct (mask_value_part (fuel - String.length (yl_name l) - String.length ": ") (yl_value l) ls)
      as (fuel' & Hf' & Hm); [done|done| |].
    { rewrite !string_length_app. change (String.length ": ") with 2. lia. }
    exists fuel'. split; [done|]. by rewrite Hm.
Qed.

Lemma mask_text fuel ls : Forall simple_line ls -> String.length (yaml_text ls) < fuel ->
  mask_pattern fuel kp strategy (yaml_text ls) = yaml_text (mask_named <$> ls).
Proof.
  intros HF. revert fuel. induction HF as [|l ls Hl HF IH]; intros fuel Hf.
  - destruct fuel as [|fuel]; [done|]. cbn [yaml_text fmap list_fmap mask_pattern].
    by destruct (match_here kp "") as [[[? ?] ?]|] eqn:Hm; [destruct kp; done|].
  - cbn [yaml_text fmap list_fmap]. unfold line_text at 1. rewrite !string_app_assoc.
    assert (ascii_text (yaml_text (l :: ls))) as Ha by (apply text_ascii; by constructor).
    cbn [yaml_text] in Ha, Hf. unfold line_text in Ha, Hf. rewrite !string_app_assoc in Ha, Hf.
    rewrite skip_blank; [|rewrite !string_length_app in Hf; lia|apply spaces_blank|done].
    rewrite string_length_app in Hf.
    destruct (mask_name_part (fuel - String.length (repeat_string (yl_indent l) " ")) l ls Hl HF) as (fuel' & Hf' & Hm);
      [lia|]. rewrite Hm, (IH fuel' Hf'). unfold line_text.
    assert (yl_indent (mask_named l) = yl_indent l /\ yl_name (mask_named l) = yl_name l) as [-> ->]
      by (unfold mask_named; by destruct (named kp l)).
    by rewrite !string_app_assoc.
Qed.
End Pattern.

(** *** Masking twice *)

Lemma stars_length n : String.length (stars n) = n.
Proof. induction n as [|n IH]; [done|]. unfold stars in *. cbn [repeat_string]. rewrite string_length_app. simpl. lia. Qed.
Lemma stars_plain n : plain (stars n).
Proof.
  induction n as [|n IH]; [constructor|]. unfold stars in *. cbn [repeat_string]. apply plain_app. split; [|done].
  apply plain_cons. split; [|constructor]. split; [vm_compute; lia|done].
Qed.

(** A text of more than four bytes: its ends and its middle. *)
Lemma ends_of s : 4 < String.length s -> exists a m b, s = a +:+ m +:+ b
  /\ String.length a = 2 /\ String.length b = 2.
Proof.
  intros Hl. destruct s as [|c [|d s]]; [simpl in Hl; lia..|].
  assert (exists m b, s = m +:+ b /\ String.length b = 2) as (m & b & -> & Hb).
  { simpl in Hl. assert (2 <= String.length s) as Hs by lia. clear -Hs. induction s as [|e s IH]; [simpl in Hs; lia|].
    destruct (decide (String.length s = 1)) as [Hone|Hne].
    - exists "", (String e s). simpl. split; [done|lia].
    - simpl in Hs. destruct IH as (m & b & -> & Hb); [lia|]. exists (String e m), b. by rewrite string_app_cons. }
  exists (String c (String d "")), m, b. by rewrite !string_app_cons.
Qed.

Lemma mask_partial a m b : String.length a = 2 -> String.length b = 2 -> m <> "" ->
  mask "partial" (a +:+ m +:+ b) = a +:+ stars (String.length m) +:+ b.
Proof.
  intros Ha Hb Hm. unfold mask. rewrite bool_decide_true by done. rewrite !string_length_app, Ha, Hb.
  assert (String.length m <> 0) by (by destruct m).
  rewrite (proj2 (Nat.leb_gt _ _)) by lia.
  replace (2 + (String.length m + 2) - 4) with (String.length m) by lia.
  rewrite <- Ha at 1. rewrite substring_prefix. do 2 f_equal.
  replace (2 + (String.length m + 2) - 2) with (String.length (a +:+ m)) by (rewrite string_length_app; lia).
  rewrite <- string_app_assoc. rewrite <- Hb. apply substring_suffix.
Qed.

(** How the strategies mask: a short text and, by default, any text as stars; the
    length kept; or the ends kept. *)
Inductive masked (strategy s : string) : string -> Prop :=
| masked_short : strategy = "partial" -> String.length s <= 4 -> masked strategy s "****"
| masked_ends a m b : strategy = "partial" -> s = a +:+ m +:+ b -> String.length a = 2 -> String.length b = 2 ->
    m <> "" -> masked strategy s (a +:+ stars (String.length m) +:+ b)
| masked_length : strategy = "preserve-length" -> masked strategy s (stars (String.length s))
| masked_full : strategy <> "partial" -> strategy <> "preserve-length" -> masked strategy s "********".

Lemma mask_masked strategy s : masked strategy s (mask strategy s).
Proof.
  destruct (decide (strategy = "partial")) as [->|Hp].
  - destruct (decide (String.length s <= 4)) as [Hl|Hl].
    + assert (mask "partial" s = "****") as ->; [|by constructor]. unfold mask.
      rewrite bool_decide_true by done. by rewrite (proj2 (Nat.leb_le _ _)).
    + destruct (ends_of s) as (a & m & b & -> & Ha & Hb); [lia|].
      assert (m <> "") as Hm by (intros ->; rewrite !string_length_app, Ha, Hb in Hl; simpl in Hl; lia).
      rewrite mask_partial by done. by econstructor.
  - unfold mask. rewrite (bool_decide_false (strategy = "partial")) by done.
    case_bool_decide; by constructor.
Qed.

Lemma mask_idemp strategy s : mask strategy (mask strategy s) = mask strategy s.
Proof.
  destruct (mask_masked strategy s) as [-> Hl|a m b -> -> Ha Hb Hm| ->|Hp Hl]; [done| | |].
  - rewrite mask_partial; [by rewrite stars_length|done|done|by destruct m].
  - assert (forall x, mask "preserve-length" x = stars (String.length x)) as -> by done. by rewrite stars_length.
  - unfold mask. by rewrite !bool_decide_false.
Qed.

Lemma mask_plain strategy s : plain s -> plain (mask strategy s).
Proof.
  intros Hs. destruct (mask_masked strategy s) as [|a m b _ -> _ _ _| |]; [apply (stars_plain 4)| |apply stars_plain|apply (stars_plain 8)].
  rewrite !plain_app in *. destruct Hs as (? & _ & ?). split_and!; [done|apply stars_plain|done].
Qed.

Lemma mask_ne strategy s : s <> "" -> mask strategy s <> "".
Proof.
  intros Hs. destruct (mask_masked strategy s) as [|a m b _ -> Ha _ _| |]; [done| | |done].
  - by destruct a.
  - by destruct s.
Qed.

(** *** Values with and without quotes *)

Definition quoted (v : string) : bool := HasPrefix v dq && HasSuffix v dq && (2 <=? String.length v).

Lemma quoted_iff v : quoted v = true <-> exists x, v = dq +:+ x +:+ dq.
Proof.
  unfold quoted. rewrite !andb_true_iff, HasSuffix_true, Nat.leb_le. split.
  - intros [[Hp (r & Hr)] Hl]. unfold HasPrefix in Hp. apply bool_decide_eq_true in Hp as [x Hx].
    apply strip_prefix_Some in Hx. destruct r as [|c r].
    + rewrite Hr in Hl. simpl in Hl. lia.
    + rewrite Hx in Hr. injection Hr as <- Hr. exists r. rewrite Hx. unfold dq. rewrite !string_app_cons.
      f_equal. exact Hr.
  - intros (x & ->). split; [split|].
    + unfold HasPrefix. apply bool_decide_eq_true. rewrite strip_prefix_app. eauto.
    + exists (dq +:+ x). by rewrite string_app_assoc.
    + rewrite !string_length_app. simpl. lia.
Qed.

Lemma mask_value_quoted strategy x : mask_value strategy (dq +:+ x +:+ dq) = dq +:+ mask strategy x +:+ dq.
Proof.
  assert (quoted (dq +:+ x +:+ dq) = true) as Hq by (apply quoted_iff; eauto).
  unfold mask_value. unfold quoted in Hq. rewrite Hq. do 2 f_equal. rewrite !string_length_app.
  change (String.length dq) with 1. replace (1 + (String.length x + 1) - 2) with (String.length x) by lia.
  f_equal. apply (substring_mid dq).
Qed.
Lemma mask_value_bare strategy v : quoted v = false -> mask_value strategy v = mask strategy v.
Proof. intros Hq. unfold mask_value. unfold quoted in Hq. by rewrite Hq. Qed.

Lemma mask_value_simple strategy v : plain v -> v <> "" ->
  plain (mask_value strategy v) /\ mask_value strategy v <> "".
Proof.
  intros Hv Hne. destruct (quoted v) eqn:Hq.
  - apply quoted_iff in Hq as (x & ->). rewrite mask_value_quoted. rewrite !plain_app in *.
    destruct Hv as (Hd & Hx & _). split; [split_and!; [done|by apply mask_plain|done]|done].
  - rewrite mask_value_bare by done. split; [by apply mask_plain|by apply mask_ne].
Qed.

Lemma mask_value_idemp strategy v : v <> "" -> mask_value strategy (mask_value strategy v) = mask_value strategy v.
Proof.
  intros Hne. destruct (quoted v) eqn:Hq.
  - apply quoted_iff in Hq as (x & ->). by rewrite !mask_value_quoted, mask_idemp.
  - rewrite (mask_value_bare _ v) by done. rewrite mask_value_bare, mask_idemp; [done|].
    destruct (mask_masked strategy v) as [|a m b _ -> Ha Hb Hm| |]; [done| |by destruct v|done].
    destruct (quoted (a +:+ stars (String.length m) +:+ b)) eqn:Hq'; [|done].
    apply quoted_iff in Hq' as (x & Hx). exfalso. apply not_true_iff_false in Hq. apply Hq.
    destruct a as [|a1 [|a2 [|]]]; [done..| |done]. destruct b as [|b1 [|b2 [|]]]; [done..| |done].
    rewrite !string_app_cons in Hx. injection Hx as -> Hx. rewrite !string_app_nil_l in Hx.
    apply (f_equal string_rev) in Hx.
    change (String b1 (String b2 "")) with (String b1 "" +:+ String b2 "") in Hx.
    replace (String a2 (stars (String.length m) +:+ String b1 "" +:+ String b2 ""))
      with ((String a2 (stars (String.length m) +:+ String b1 "")) +:+ String b2 "") in Hx
      by (by rewrite string_app_cons, string_app_assoc).
    rewrite !string_rev_app in Hx. injection Hx as -> _.
    apply quoted_iff. exists (String a2 (m +:+ String b1 "")). by rewrite !string_app_cons, string_app_assoc.
Qed.

(** *** All the patterns *)

Lemma with_masked_simple strategy l : simple_line l -> simple_line (with_masked strategy l).
Proof.
  intros (Hn & Hp & Hv & Hpv). destruct (mask_value_simple strategy _ Hpv Hv). by split_and!.
Qed.

Lemma mask_named_simple kp strategy l : simple_line l -> simple_line (mask_named kp strategy l).
Proof. intros Hl. unfold mask_named. destruct (named kp l); [by apply with_masked_simple|done]. Qed.

(** One pattern after the other, a line is masked once. *)
Lemma mask_named_all strategy kps l : simple_line l ->
  foldl (fun l kp => mask_named kp strategy l) l kps
  = if existsb (fun kp => named kp l) kps then with_masked strategy l else l.
Proof.
  assert (forall kps l, simple_line l ->
    foldl (fun l kp => mask_named kp strategy l) (with_masked strategy l) kps = with_masked strategy l) as Hdone.
  { clear. intros kps. induction kps as [|kp kps IH]; intros l Hl; [done|]. simpl.
    unfold mask_named at 2. destruct (named kp (with_masked strategy l)); [|by apply IH].
    assert (with_masked strategy (with_masked strategy l) = with_masked strategy l) as ->; [|by apply IH].
    unfold with_masked. simpl. by rewrite mask_value_idemp by apply Hl. }
  induction kps as [|kp kps IH] in l |- *; intros Hl; [done|]. simpl. unfold mask_named at 2.
  destruct (named kp l); simpl; [by apply Hdone|by apply IH].
Qed.

Lemma patterns_words : Forall (fun kp => kp <> "" /\ Forall word_char (chars kp)) keyPatterns.
Proof. repeat (constructor; [split; [done|repeat (constructor; [by (left + right)|]); constructor]|]). constructor. Qed.

Lemma mask_patterns strategy kps ls : Forall (fun kp => kp <> "" /\ Forall word_char (chars kp)) kps ->
  Forall simple_line ls ->
  foldl (fun y kp => mask_pattern (S (String.length y)) kp strategy y) (yaml_text ls) kps
  = yaml_text ((fun l => foldl (fun l kp => mask_named kp strategy l) l kps) <$> ls).
Proof.
  intros Hk. revert ls. induction Hk as [|kp kps [Hne Hw] _ IH]; intros ls Hls; [by rewrite list_fmap_id|].
  cbn [foldl]. rewrite mask_text by (done || lia). rewrite IH.
  - by rewrite <- list_fmap_compose.
  - apply Forall_fmap. eapply Forall_impl; [exact Hls|]. intros l. apply mask_named_simple.
Qed.

(** *** What is hidden *)

(** The name ends, in either case, with a word for a secret. *)
Definition sensitive_name (name : string) : bool :=
  HasSuffix (lower_ascii name) "password" || HasSuffix (lower_ascii name) "secret"
  || HasSuffix (lower_ascii name) "token" || HasSuffix (lower_ascii name) "key".

(** A value is masked whole or, in double quotes, between them. *)
Definition hidden_value (strategy v v' : string) : Prop :=
  (exists s s', v = dq +:+ s +:+ dq /\ v' = dq +:+ s' +:+ dq /\ masked strategy s s')
  \/ ((forall s, v <> dq +:+ s +:+ dq) /\ masked strategy v v').

Definition shown (strategy : string) (l l' : yaml_line) : Prop :=
  yl_indent l' = yl_indent l /\ yl_name l' = yl_name l
  /\ if sensitive_name (yl_name l) then hidden_value strategy (yl_value l) (yl_value l') else yl_value l' = yl_value l.

Lemma mask_value_hidden strategy v : hidden_value strategy v (mask_value strategy v).
Proof.
  unfold hidden_value, mask_value. destruct (_ && _) eqn:Hq.
  - left. apply andb_true_iff in Hq as [[Hp Hs]%andb_true_iff Hl%Nat.leb_le].
    apply HasPrefix_true in Hp as [r ->]. apply HasSuffix_true in Hs as [r' Hr].
    assert (exists s, r = s +:+ dq) as [s ->].
    { destruct r' as [|c r']; [|exists r'; by injection Hr].
      exfalso. rewrite Hr in Hl. vm_compute in Hl. lia. }
    exists s, (mask strategy s). split_and!; [done| |apply mask_masked].
    rewrite (string_length_app dq), string_length_app. change (String.length dq) with 1.
    replace (1 + (String.length s + 1) - 2) with (String.length s) by lia.
    change 1 with (String.length dq). by rewrite substring_mid.
  - right. split; [|apply mask_masked]. intros s ->.
    rewrite HasPrefix_app in Hq. assert (HasSuffix (dq +:+ s +:+ dq) dq = true) as Hsuf
      by (apply HasSuffix_true; exists (dq +:+ s); by rewrite string_app_assoc).
    rewrite Hsuf, !string_length_app in Hq. cbn in Hq. by rewrite Nat.add_comm in Hq.
Qed.

Lemma HasSuffix_longer s p q : HasSuffix s (p +:+ q) = true -> HasSuffix s q = true.
Proof. rewrite !HasSuffix_true. intros [r ->]. exists (r +:+ p). by rewrite string_app_assoc. Qed.

Lemma named_sensitive l : existsb (fun kp => named kp l) keyPatterns = sensitive_name (yl_name l).
Proof.
  unfold named, keyPatterns, sensitive_name. cbn [existsb].
  set (n := lower_ascii (yl_name l)).
  assert (forall p, HasSuffix n (p +:+ "key") = true -> HasSuffix n "key" = true) as Hk by (intros p; apply HasSuffix_longer).
  destruct (HasSuffix n "key") eqn:Hkey.
  - repeat match goal with |- context [HasSuffix n ?p] => destruct (HasSuffix n p) end; reflexivity.
  - assert (forall p, HasSuffix n (p +:+ "key") = false) as Hf by (intros p; apply not_true_iff_false; by intros ?%Hk).
    pose proof (Hf "api") as H1. pose proof (Hf "api_") as H2. pose proof (Hf "access_") as H3. pose proof (Hf "private_") as H4.
    change ("api" +:+ "key") with "apikey" in H1. change ("api_" +:+ "key") with "api_key" in H2.
    change ("access_" +:+ "key") with "access_key" in H3. change ("private_" +:+ "key") with "private_key" in H4.
    rewrite H1, H2, H3, H4.
    repeat match goal with |- context [HasSuffix n ?p] => destruct (HasSuffix n p) end; reflexivity.
Qed.

Lemma mask_line_shown strategy l : shown strategy l (mask_line strategy l).
Proof.
  unfold mask_line, shown. rewrite named_sensitive. destruct (sensitive_name (yl_name l)); [|done].
  split_and!; [done|done|]. apply mask_value_hidden.
Qed.


Definition example_lines : list yaml_line :=
  [mkYaml 0 "image" "nginx"; mkYaml 2 "DB_PASSWORD" "hunter2"; mkYaml 2 "DB_PASS" "hunter2"; mkYaml 2 "keys" "3"].

#[global] Instance plain_char_dec c : Decision (plain_char c).
Proof. unfold plain_char. apply _. Defined.
#[global] Instance simple_line_dec l : Decision (simple_line l).
Proof. unfold simple_line, plain. apply _. Defined.

(** A stack whose inline environment sets the variable that is shown. *)
Definition example_stack : Stack := mkStack "" [] [] [] None None None ∅ "" ["DB_PASS=hunter2"] [] "".

