(* ===== verification/SshMux.v ===== *)
(** * Ssh multiplexing ([internal/sshmux])

    For a run with remote contexts dockform puts itself on the search path under the
    name [ssh]: docker then starts dockform, which executes the real ssh with options
    that share one connection per host.  [Setup] and [Teardown] change the environment
    and the file system of the process; [Run] is dockform started as [ssh]. *)

From S2P Require Import Prelude GoStrings GoPath Apperr Manifest.
From Stdlib Require Import Ascii.

Definition ControlEnvVar : string := "DOCKFORM_SSH_CONTROL_DIR".

(** ** Installing ([manager.go]) *)

Inductive entry := Directory | Symlink (target : string).

(** What the manager changes: the environment, and the files. *)
Record machine := mkMachine { env : gmap string string; files : gmap string entry }.

(** A text for the operating system: it has no null character. *)
Definition nul : ascii := "000".

Definition Getenv (w : machine) (name : string) : string := default "" (env w !! name).
(** [os.Setenv] refuses a value with a null character and changes nothing then; the
    callers here ignore its error. *)
Definition Setenv (name value : string) (w : machine) : machine :=
  if decide (free nul value) then mkMachine (<[name := value]> (env w)) (files w) else w.
Definition Unsetenv (name : string) (w : machine) : machine :=
  mkMachine (delete name (env w)) (files w).
Definition create (path : string) (e : entry) (w : machine) : machine :=
  mkMachine (env w) (<[path := e]> (files w)).

Definition under (dir p : string) : Prop := p = dir \/ HasPrefix p (dir +:+ "/") = true.
#[global] Instance under_dec dir p : Decision (under dir p).
Proof. unfold under. apply _. Defined.
(** [os.RemoveAll] removes what it can: [stuck] are the files it cannot remove, in which
    case it returns an error, which the callers here ignore. *)
Definition RemoveAll (stuck : string -> bool) (dir : string) (w : machine) : machine :=
  mkMachine (env w) (filter (fun e => ~ under dir e.1 \/ stuck e.1 = true) (files w)).

Record Manager := mkManager {
  mg_dir : string; mg_oldPath : string; mg_prevCtrl : string; mg_hadCtrl : bool; mg_active : bool }.

(** [mkdir] and [symlink] are the answers of [os.MkdirTemp] and [os.Symlink]. *)
Definition Setup (mkdir : res string) (symlink : res unit) (stuck : string -> bool) (selfExe : string) (w : machine)
  : machine * res Manager :=
  match mkdir with
  | Err e => (w, Err e)
  | Ok dir =>
      let w := create dir Directory w in
      match symlink with
      | Err e => (RemoveAll stuck dir w, Err e)
      | Ok _ =>
          let w := create (PathJoin [dir; "ssh"]) (Symlink selfExe) w in
          let oldPath := Getenv w "PATH" in
          let prevCtrl := default "" (env w !! ControlEnvVar) in
          let hadCtrl := bool_decide (is_Some (env w !! ControlEnvVar)) in
          let w := Setenv "PATH" (dir +:+ ":" +:+ oldPath) w in
          let w := Setenv ControlEnvVar dir w in
          (w, Ok (mkManager dir oldPath prevCtrl hadCtrl true))
      end
  end.

(** A nil manager is [None]. *)
Definition Teardown (stuck : string -> bool) (m : option Manager) (w : machine) : option Manager * machine :=
  match m with
  | None => (None, w)
  | Some m =>
      if negb (mg_active m) then (Some m, w) else
      let w := Setenv "PATH" (mg_oldPath m) w in
      let w := if mg_hadCtrl m then Setenv ControlEnvVar (mg_prevCtrl m) w else Unsetenv ControlEnvVar w in
      let w := RemoveAll stuck (mg_dir m) w in
      (Some (mkManager (mg_dir m) (mg_oldPath m) (mg_prevCtrl m) (mg_hadCtrl m) false), w)
  end.

(** ** Running as ssh ([shim.go]) *)

Definition InjectedOptions (controlDir : string) : list string :=
  ["-o"; "ControlMaster=auto"; "-o"; "ControlPath=" +:+ PathJoin [controlDir; "%C"];
   "-o"; "ControlPersist=60"; "-o"; "ServerAliveInterval=15"; "-o"; "ServerAliveCountMax=3"].

Definition ShimArgs (realSSH controlDir : string) (incoming : list string) : list string :=
  [realSSH] ++ InjectedOptions controlDir ++ incoming.

Definition ShouldRunAsShim (arg0 : string) : bool := bool_decide (Base arg0 = "ssh").

(** [filepath.SplitList] *)
Definition SplitList (path : string) : list string :=
  if bool_decide (path = "") then [] else Split path ":"%char.

Section Shim.
Context (h : Host).
(** The mode bits of a file that exists. *)
Context (os_Mode : string -> Z).

Definition sameDir (a b : string) : bool :=
  match Abs h a, Abs h b with
  | Ok ra, Ok rb => bool_decide (ra = rb)
  | _, _ => bool_decide (a = b)
  end.

Definition isExecutable (p : string) : bool :=
  match os_Stat h p with
  | StatOk false => negb (Z.land (os_Mode p) 73 =? 0)%Z   (* 0o111 *)
  | _ => false
  end.

(** The loop over the directories of the path. *)
Fixpoint first_ssh (shimDir : string) (dirs : list string) : option string :=
  match dirs with
  | [] => None
  | dir :: dirs =>
      if bool_decide (dir = "") || sameDir dir shimDir then first_ssh shimDir dirs else
      let cand := PathJoin [dir; "ssh"] in
      if isExecutable cand then Some cand else first_ssh shimDir dirs
  end.

Definition FindRealSSH (shimDir pathEnv : string) : res string :=
  match first_ssh shimDir (SplitList pathEnv) with
  | Some cand => Ok cand
  | None => Err (Plain ("sshmux: real ssh not found on PATH (excluding " +:+ shimDir +:+ ")"))
  end.

(** What the process is replaced by: the executable and its arguments. *)
Definition Run (arg0 : string) (incoming : list string) : res (string * list string) :=
  let lookup name := default "" (os_LookupEnv h name) in
  match FindRealSSH (Dir arg0) (lookup "PATH") with
  | Err e => Err e
  | Ok realSSH =>
      let controlDir := lookup ControlEnvVar in
      Ok (realSSH, if bool_decide (controlDir <> "") then ShimArgs realSSH controlDir incoming
                   else realSSH :: incoming)
  end.

(** Replacing the process until it is another program than dockform: [self] tells
    which files are (links to) it. *)
Fixpoint launch (fuel : nat) (self : string -> bool) (arg0 : string) (incoming : list string)
  : option (res (string * list string)) :=
  match fuel with
  | 0 => None
  | S fuel =>
      match Run arg0 incoming with
      | Ok (p, argv) => if self p then launch fuel self p (tail argv) else Some (Ok (p, argv))
      | Err e => Some (Err e)
      end
  end.
End Shim.

(** ** Properties *)

Lemma RemoveAll_lookup stuck dir w p :
  files (RemoveAll stuck dir w) !! p = if decide (under dir p) then (if stuck p then files w !! p else None) else files w !! p.
Proof.
  unfold RemoveAll. cbn [files].
  destruct (files w !! p) as [x|] eqn:Hp.
  - destruct (decide (under dir p)) as [Hu|Hu]; [destruct (stuck p) eqn:Hs|].
    + apply map_lookup_filter_Some. split; [done|by right].
    + apply map_lookup_filter_None. right. cbn. intros y _ [?|?]; [done|congruence].
    + apply map_lookup_filter_Some. split; [done|by left].
  - transitivity (None (A := entry)); [apply map_lookup_filter_None; by left|].
    by destruct (decide _), (stuck p).
Qed.

(** A failed installation leaves everything as it was, if the new directory can be
    removed. *)
Lemma Setup_failed mkdir symlink stuck selfExe w w' e :
  (forall dir, mkdir = Ok dir -> stuck dir = false /\ forall p, under dir p -> files w !! p = None) ->
  Setup mkdir symlink stuck selfExe w = (w', Err e) -> env w' = env w /\ forall p, files w' !! p = files w !! p.
Proof.
  intros Hfresh. unfold Setup. destruct mkdir as [dir|]; [|by intros [= <- <-]].
  destruct (Hfresh dir eq_refl) as [Hs Hnone]. destruct symlink; [done|]. intros [= <- <-].
  split; [done|]. intros p. rewrite RemoveAll_lookup. cbn [files create]. destruct (decide (p = dir)) as [->|Hne].
  - rewrite decide_True by (by left). rewrite Hs. symmetry. apply Hnone. by left.
  - rewrite lookup_insert_ne by done. case_decide as Hu; [|done]. rewrite (Hnone p Hu). by destruct (stuck p).
Qed.

(** The environment a manager gives back. *)
Definition restored (m : Manager) (en : gmap string string) : gmap string string :=
  let en := <["PATH" := mg_oldPath m]> en in
  if mg_hadCtrl m then <[ControlEnvVar := mg_prevCtrl m]> en else delete ControlEnvVar en.

Lemma Setenv_env name value w : free nul value -> env (Setenv name value w) = <[name := value]> (env w).
Proof. intros Hf. unfold Setenv. by rewrite decide_True. Qed.
Lemma Setenv_files name value w : files (Setenv name value w) = files w.
Proof. unfold Setenv. by case_decide. Qed.

Lemma Teardown_env stuck m w : mg_active m = true -> free nul (mg_oldPath m) -> free nul (mg_prevCtrl m) ->
  env (Teardown stuck (Some m) w).2 = restored m (env w).
Proof.
  intros Ha Hp Hc. cbn [Teardown]. rewrite Ha. cbn. unfold restored.
  destruct (mg_hadCtrl m); cbn; by rewrite ?Setenv_env.
Qed.

Lemma Teardown_files stuck m w : mg_active m = true ->
  forall p, files (Teardown stuck (Some m) w).2 !! p
    = if decide (under (mg_dir m) p) then (if stuck p then files w !! p else None) else files w !! p.
Proof.
  intros Ha p. cbn [Teardown]. rewrite Ha. cbn [negb snd]. rewrite RemoveAll_lookup.
  destruct (mg_hadCtrl m); cbn; by rewrite ?Setenv_files.
Qed.

(** A variable that was not set is set to the empty text. *)
Definition with_path (en : gmap string string) : gmap string string :=
  <["PATH" := default "" (en !! "PATH")]> en.
Lemma with_path_set en : is_Some (en !! "PATH") -> with_path en = en.
Proof. intros [p Hp]. unfold with_path. rewrite Hp. by apply insert_id. Qed.

Lemma restored_setup dir en :
  restored (mkManager dir (default "" (en !! "PATH")) (default "" (en !! ControlEnvVar))
              (bool_decide (is_Some (en !! ControlEnvVar))) true)
    (<[ControlEnvVar := dir]> (<["PATH" := dir +:+ ":" +:+ default "" (en !! "PATH")]> en)) = with_path en.
Proof.
  unfold restored, with_path. cbn [mg_oldPath mg_prevCtrl mg_hadCtrl].
  rewrite (insert_insert_ne _ "PATH" ControlEnvVar), insert_insert_eq by done.
  destruct (en !! ControlEnvVar) as [c|] eqn:Hc.
  - rewrite bool_decide_true by (by eexists). rewrite !insert_insert_eq. apply insert_id. by rewrite lookup_insert_ne.
  - rewrite bool_decide_false by (by intros []). rewrite delete_insert_eq.
    rewrite ?insert_insert_eq. apply delete_id. by rewrite lookup_insert_ne.
Qed.

(** The directory of a run: [os.MkdirTemp("/tmp", "dfssh-")] answers with a new one. *)
Definition run_dir (w : machine) (dir : string) : Prop :=
  (exists name, path_comps [name] /\ dir = abs_path ["tmp"; name]) /\ free nul dir
  /\ forall p, under dir p -> files w !! p = None.
(** The values of an environment are texts of the operating system. *)
Definition env_ok (en : gmap string string) : Prop := map_Forall (fun _ v => free nul v) en.

Lemma env_ok_default en name : env_ok en -> free nul (default "" (en !! name)).
Proof. intros He. destruct (en !! name) as [v|] eqn:Hv; [exact (He name v Hv)|apply free_nil]. Qed.

Lemma run_dir_ssh w dir : run_dir w dir -> PathJoin [dir; "ssh"] = dir +:+ "/ssh".
Proof.
  intros [(name & Hn & ->) _]. assert (path_comps ["tmp"; name]) as Hp.
  { apply Forall_cons. split; [|done]. split; [done|]. unfold free. vm_compute. set_solver. }
  rewrite PathJoin_abs1; [|done|]; [|apply Forall_singleton; split; [done|]; unfold free; vm_compute; set_solver].
  unfold abs_path. simpl. by rewrite !string_app_assoc.
Qed.

(** What an installation leaves. *)
Lemma Setup_world dir stuck selfExe w : run_dir w dir -> env_ok (env w) ->
  let '(w1, r) := Setup (Ok dir) (Ok tt) stuck selfExe w in
  r = Ok (mkManager dir (Getenv w "PATH") (default "" (env w !! ControlEnvVar))
            (bool_decide (is_Some (env w !! ControlEnvVar))) true)
  /\ env w1 = <[ControlEnvVar := dir]> (<["PATH" := dir +:+ ":" +:+ Getenv w "PATH"]> (env w))
  /\ files w1 = <[dir +:+ "/ssh" := Symlink selfExe]> (<[dir := Directory]> (files w)).
Proof.
  intros Hdir He. pose proof (run_dir_ssh _ _ Hdir) as Hssh. destruct Hdir as (_ & Hnul & _).
  cbn [Setup]. rewrite Hssh. split_and!; [done| |by rewrite !Setenv_files].
  rewrite !Setenv_env; [done| |done]. apply free_app. split; [done|]. apply free_cons. split; [done|]. by apply env_ok_default.
Qed.

(** C23: Multiplexing is taken away again.  The installation puts the run's directory
    first on the search path and a link to dockform named ssh in it.  Whatever files the
    run made, and provided it left the environment alone, the removal gives back every
    variable as it was, except that a [PATH] that was not set is set to the empty text;
    it leaves every file outside the directory alone, and of the directory only what the
    system would not let it remove, which it does not report; and it may be called
    again.  (The directory is new, as [os.MkdirTemp] promises, and the values of the
    environment have no null character, which no process could have.) *)
Theorem mux_restored dir selfExe stuck stuck' w :
  run_dir w dir -> env_ok (env w) ->
  exists m, let w1 := (Setup (Ok dir) (Ok tt) stuck selfExe w).1 in
    (Setup (Ok dir) (Ok tt) stuck selfExe w).2 = Ok m
    /\ Getenv w1 "PATH" = dir +:+ ":" +:+ Getenv w "PATH"
    /\ env w1 !! ControlEnvVar = Some dir
    /\ files w1 !! (dir +:+ "/ssh") = Some (Symlink selfExe)
    /\ (forall p, ~ under dir p -> files w1 !! p = files w !! p)
    /\ forall w2, env w2 = env w1 ->
         let '(m', w3) := Teardown stuck' (Some m) w2 in
         (forall name, name <> "PATH" -> env w3 !! name = env w !! name)
         /\ env w3 !! "PATH" = Some (default "" (env w !! "PATH"))
         /\ (forall p, ~ under dir p -> files w3 !! p = files w2 !! p)
         /\ (forall p, under dir p -> files w3 !! p = None \/ (stuck' p = true /\ files w3 !! p = files w2 !! p))
         /\ Teardown stuck' m' w3 = (m', w3).
Proof.
  intros Hdir He. pose proof (Setup_world dir stuck selfExe w Hdir He) as Hset.
  destruct (Setup (Ok dir) (Ok tt) stuck selfExe w) as [w1 r]. destruct Hset as (-> & Henv & Hfiles).
  eexists. cbv zeta. cbn [fst snd]. split; [reflexivity|]. split_and!.
  - unfold Getenv at 1. rewrite Henv, lookup_insert_ne, lookup_insert_eq by done. done.
  - rewrite Henv. apply lookup_insert_eq.
  - rewrite Hfiles. apply lookup_insert_eq.
  - intros p Hp. rewrite Hfiles, !lookup_insert_ne; [done|..]; intros <-; apply Hp; [by left|right].
    apply HasPrefix_true. exists "ssh". by rewrite string_app_assoc.
  - intros w2 Hw2. set (m := mkManager _ _ _ _ _).
    pose proof (Teardown_env stuck' m w2 eq_refl (env_ok_default _ "PATH" He) (env_ok_default _ ControlEnvVar He)) as H1.
    pose proof (Teardown_files stuck' m w2 eq_refl) as H2.
    assert (forall m' w3, Teardown stuck' (Some m) w2 = (m', w3) -> Teardown stuck' m' w3 = (m', w3)) as H3
      by (by intros m' w3 [= <- <-]).
    destruct (Teardown stuck' (Some m) w2) as [m' w3]. cbn [snd] in H1, H2.
    assert (env w3 = with_path (env w)) as Hw3.
    { rewrite H1, Hw2, Henv. unfold m, Getenv. apply restored_setup. }
    rewrite Hw3. unfold with_path. split_and!.
    + intros name Hn. by rewrite lookup_insert_ne.
    + apply lookup_insert_eq.
    + intros p Hp. rewrite H2, decide_False by done. done.
    + intros p Hp. rewrite H2, decide_True by done. destruct (stuck' p); auto.
    + by apply H3.
Qed.

(** ** The wrapper runs the real ssh *)

Lemma abs_path_app1 cs d : cs <> [] -> abs_path (cs ++ [d]) = abs_path cs +:+ String slash d.
Proof.
  intros Hne. unfold abs_path. rewrite string_app_assoc. f_equal.
  induction cs as [|c [|c' cs] IH]; [done|done|].
  change ((c :: c' :: cs) ++ [d]) with (c :: (c' :: cs) ++ [d]).
  rewrite Join_cons by done. rewrite (Join_cons c (c' :: cs)) by done.
  rewrite IH by done. by rewrite !string_app_assoc.
Qed.

Lemma Dir_abs_path cs d : cs <> [] -> path_comps cs -> path_comps [d] -> Dir (abs_path (cs ++ [d])) = abs_path cs.
Proof.
  intros Hne Hc [[_ Hf] _]%Forall_cons. unfold Dir, dir_part. rewrite abs_path_app1, CutLast_app by done.
  pose proof (PathJoin_abs cs [] Hc (Forall_nil_2 _)) as Hj. rewrite app_nil_r in Hj.
  rewrite <- Hj at 2. cbn [PathJoin Join]. by rewrite bool_decide_false, string_app_nil_r by done.
Qed.

Section Wrapper.
Context (h : Host) (os_Mode : string -> Z) (self : string -> bool).
Context (cs : list string) (old : string).
Notation dir := (abs_path cs).
Notation link := (abs_path (cs ++ ["ssh"])).

(** The process docker starts during a run: the environment of [Setup], and the link
    is an executable file, dockform itself. *)
Record wrapped : Prop := {
  wr_dir : cs <> [] /\ path_comps cs /\ free ":"%char dir;
  wr_path : os_LookupEnv h "PATH" = Some (dir +:+ ":" +:+ old);
  wr_ctrl : os_LookupEnv h ControlEnvVar = Some dir;
  wr_link : isExecutable h os_Mode link = true /\ self link = true }.
Context (Hw : wrapped).

Lemma ssh_comp : path_comps ["ssh"].
Proof. apply Forall_singleton. split; [done|]. unfold free. vm_compute. set_solver. Qed.

Lemma sameDir_abs : sameDir h dir dir = true.
Proof. unfold sameDir, Abs. by rewrite IsAbs_abs_path, bool_decide_true. Qed.

Lemma first_ssh_blank shimDir s : first_ssh h os_Mode shimDir (Split s ":"%char) = first_ssh h os_Mode shimDir (SplitList s).
Proof. unfold SplitList. by case_bool_decide as He; [rewrite He|]. Qed.

(** The wrapper's own directory is passed over. *)
Lemma FindRealSSH_skips : FindRealSSH h os_Mode dir (dir +:+ ":" +:+ old) = FindRealSSH h os_Mode dir old.
Proof.
  destruct Hw as [(_ & _ & Hf) _ _ _]. unfold FindRealSSH.
  rewrite <- (first_ssh_blank dir (dir +:+ _)). change (":" +:+ old) with (String ":" old).
  rewrite Split_app by done. cbn [first_ssh].
  by rewrite sameDir_abs, orb_true_r, first_ssh_blank.
Qed.

(** Started by the path of the link, the wrapper executes the ssh it hides. *)
Lemma Run_link incoming : Run h os_Mode link incoming =
  match FindRealSSH h os_Mode dir old with
  | Ok p => Ok (p, ShimArgs p dir incoming)
  | Err e => Err e
  end.
Proof.
  destruct (wr_dir Hw) as (Hne & Hc & _). unfold Run.
  rewrite (Dir_abs_path cs "ssh" Hne Hc ssh_comp), (wr_path Hw), (wr_ctrl Hw). simpl default.
  rewrite FindRealSSH_skips. by destruct (FindRealSSH _ _ _ old).
Qed.

(** Started by its bare name, it looks from the working directory and finds itself. *)
Lemma Run_bare cwd incoming : os_Getwd h = Ok cwd -> PathJoin [cwd; "."] <> dir ->
  Run h os_Mode "ssh" incoming = Ok (link, ShimArgs link dir incoming).
Proof.
  intros Hcwd Hne. destruct (wr_dir Hw) as (Hcs & Hc & Hf). unfold Run.
  rewrite (wr_path Hw), (wr_ctrl Hw). simpl default. change (Dir "ssh") with ".".
  unfold FindRealSSH. rewrite <- first_ssh_blank. change (":" +:+ old) with (String ":" old).
  rewrite Split_app by done. cbn [first_ssh].
  assert (sameDir h dir "." = false) as ->.
  { unfold sameDir, Abs. rewrite IsAbs_abs_path, Hcwd, Clean_abs_path by done. simpl. by apply bool_decide_false. }
  rewrite bool_decide_false by done. simpl orb. cbv zeta iota.
  rewrite PathJoin_abs1 by (done || apply ssh_comp). rewrite (proj1 (wr_link Hw)).
  by rewrite bool_decide_true.
Qed.
End Wrapper.

(** ** The ssh of the user *)

Section UserSsh.
Context (h : Host) (os_Mode : string -> Z).

(** A file that someone may execute: it exists, is not a directory, and one of the
    three permission bits for execution is set. *)
Definition runnable (p : string) : Prop :=
  os_Stat h p = StatOk false /\ (Z.testbit (os_Mode p) 0 || Z.testbit (os_Mode p) 3 || Z.testbit (os_Mode p) 6 = true).

Lemma execute_bits m : negb (Z.land m 73 =? 0)%Z = Z.testbit m 0 || Z.testbit m 3 || Z.testbit m 6.
Proof.
  destruct (Z.eqb_spec (Z.land m 73) 0) as [He|Hne]; cbn [negb].
  - assert (forall n, Z.testbit 73 n = true -> Z.testbit m n = false) as Hbit.
    { intros n Hn. pose proof (f_equal (fun z => Z.testbit z n) He) as Hz. cbn beta in Hz.
      by rewrite Z.land_spec, Z.bits_0, Hn, andb_true_r in Hz. }
    by rewrite (Hbit 0%Z), (Hbit 3%Z), (Hbit 6%Z).
  - symmetry. apply not_false_iff_true. intros Hf. apply orb_false_iff in Hf as [[H0 H3]%orb_false_iff H6].
    apply Hne. apply Z.bits_inj'. intros n Hn. rewrite Z.land_spec, Z.bits_0.
    destruct (decide (n = 0 \/ n = 3 \/ n = 6)%Z) as [[->|[->| ->]]|Hno]; [by rewrite ?H0, ?H3, ?H6..|].
    replace (Z.testbit 73 n) with false; [by rewrite andb_false_r|]. symmetry.
    destruct (decide (n < 7)%Z) as [Hlt|Hge].
    + assert (n = 1 \/ n = 2 \/ n = 4 \/ n = 5)%Z as [->|[->|[->| ->]]] by lia; reflexivity.
    + apply Z.bits_above_log2; [lia|]. change (Z.log2 73) with 6%Z. lia.
Qed.

Lemma isExecutable_runnable p : isExecutable h os_Mode p = true <-> runnable p.
Proof.
  unfold isExecutable, runnable. rewrite execute_bits. destruct (os_Stat h p) as [[|]| |]; naive_solver.
Qed.

(** The first ssh on a path: in the first directory that has one. Empty entries and the
    directory [shimDir] do not count. *)
Definition counts (shimDir dir : string) : Prop := dir <> "" /\ sameDir h dir shimDir = false.
Definition first_on_path (shimDir path : string) (ssh : string) : Prop :=
  exists before dir after, SplitList path = before ++ dir :: after
    /\ counts shimDir dir /\ ssh = PathJoin [dir; "ssh"] /\ runnable ssh
    /\ forall d, d ∈ before -> counts shimDir d -> ~ runnable (PathJoin [d; "ssh"]).
Definition none_on_path (shimDir path : string) : Prop :=
  forall d, d ∈ SplitList path -> counts shimDir d -> ~ runnable (PathJoin [d; "ssh"]).

Lemma first_ssh_spec shimDir dirs : match first_ssh h os_Mode shimDir dirs with
  | Some ssh => exists before dir after, dirs = before ++ dir :: after
      /\ counts shimDir dir /\ ssh = PathJoin [dir; "ssh"] /\ runnable ssh
      /\ forall d, d ∈ before -> counts shimDir d -> ~ runnable (PathJoin [d; "ssh"])
  | None => forall d, d ∈ dirs -> counts shimDir d -> ~ runnable (PathJoin [d; "ssh"])
  end.
Proof.
  induction dirs as [|dir dirs IH]; cbn [first_ssh]; [by intros d ?%elem_of_nil|].
  assert (forall skip : counts shimDir dir -> ~ runnable (PathJoin [dir; "ssh"]), match first_ssh h os_Mode shimDir dirs with
    | Some ssh => exists before d after, dir :: dirs = before ++ d :: after
        /\ counts shimDir d /\ ssh = PathJoin [d; "ssh"] /\ runnable ssh
        /\ forall d, d ∈ before -> counts shimDir d -> ~ runnable (PathJoin [d; "ssh"])
    | None => forall d, d ∈ dir :: dirs -> counts shimDir d -> ~ runnable (PathJoin [d; "ssh"])
    end) as Hskip.
  { intros skip. destruct (first_ssh _ _ _ _) as [ssh|].
    - destruct IH as (before & d & after & -> & Hc & Hs & Hr & Hb). exists (dir :: before), d, after.
      split_and!; [done..|]. intros x [->|Hx]%elem_of_cons; auto.
    - intros x [->|Hx]%elem_of_cons; auto. }
  destruct (bool_decide (dir = "") || sameDir h dir shimDir) eqn:Hd.
  - apply Hskip. intros [Hne Hs]. rewrite Hs, bool_decide_false in Hd; done.
  - apply orb_false_iff in Hd as [Hne%bool_decide_eq_false Hs]. cbv zeta.
    destruct (isExecutable h os_Mode (PathJoin [dir; "ssh"])) eqn:Hx.
    + exists [], dir, dirs. split_and!; [done|done|done|by apply isExecutable_runnable|by intros d ?%elem_of_nil].
    + apply Hskip. intros _ Hr%isExecutable_runnable. congruence.
Qed.

Lemma FindRealSSH_spec shimDir path : match FindRealSSH h os_Mode shimDir path with
  | Ok ssh => first_on_path shimDir path ssh
  | Err _ => none_on_path shimDir path
  end.
Proof.
  unfold FindRealSSH. pose proof (first_ssh_spec shimDir (SplitList path)) as Hs. by destruct (first_ssh _ _ _ _).
Qed.
End UserSsh.

(** The options that make ssh share a connection, with its sockets in [dir]. *)
Definition sharing_options (dir : string) : list string :=
  ["-o"; "ControlMaster=auto"; "-o"; "ControlPath=" +:+ dir +:+ "/%C"; "-o"; "ControlPersist=60";
   "-o"; "ServerAliveInterval=15"; "-o"; "ServerAliveCountMax=3"].

Lemma InjectedOptions_sharing cs : cs <> [] -> path_comps cs -> InjectedOptions (abs_path cs) = sharing_options (abs_path cs).
Proof.
  intros Hne Hc. unfold InjectedOptions, sharing_options. rewrite PathJoin_abs1; [|done|].
  - by rewrite abs_path_app1.
  - apply Forall_singleton. split; [done|]. unfold free. vm_compute. set_solver.
Qed.

(** C24: The wrapper hands over to the ssh of the user.  Docker starts ssh during a run by
    the path of the link or by its name; provided that the first other ssh of the user's
    path is not dockform again, and that the working directory is not the run's own, the
    chain of processes ends in that ssh: the first executable file named ssh on the path
    the user had, in whatever directory but the run's; or in an error when there is
    none.  It gets the user's arguments untouched behind the options that share a
    connection; started by the path these are given once, started by the bare name the
    wrapper takes itself for the real one first, contrary to its comment, and they are
    given twice. *)
Theorem shim_runs_ssh h os_Mode self cs old arg0 cwd incoming :
  wrapped h os_Mode self cs old ->
  os_Getwd h = Ok cwd -> PathJoin [cwd; "."] <> abs_path cs ->
  (forall p, first_on_path h os_Mode (abs_path cs) old p -> self p = false) ->
  arg0 = abs_path (cs ++ ["ssh"]) \/ arg0 = "ssh" ->
  match launch h os_Mode 2 self arg0 incoming with
  | Some (Ok (p, argv)) => first_on_path h os_Mode (abs_path cs) old p
      /\ argv = [p] ++ (if bool_decide (arg0 = "ssh") then sharing_options (abs_path cs) else [])
                    ++ sharing_options (abs_path cs) ++ incoming
  | Some (Err _) => none_on_path h os_Mode (abs_path cs) old
  | None => False
  end.
Proof.
  intros Hw Hcwd Hne Hself Harg. destruct (wr_dir _ _ _ _ _ Hw) as (Hcs & Hc & _).
  pose proof (FindRealSSH_spec h os_Mode (abs_path cs) old) as Hfind.
  destruct Harg as [-> | ->]; cbn [launch].
  - rewrite (Run_link _ _ _ _ _ Hw). destruct (FindRealSSH _ _ _ old) as [p|e]; [|done]. rewrite Hself by done.
    split; [done|]. rewrite bool_decide_false; [by rewrite <- (InjectedOptions_sharing cs Hcs Hc)|].
    by destruct cs.
  - rewrite (Run_bare _ _ _ _ _ Hw _ _ Hcwd Hne), (proj2 (wr_link _ _ _ _ _ Hw)), (Run_link _ _ _ _ _ Hw).
    destruct (FindRealSSH _ _ _ old) as [p|e]; [|done]. rewrite Hself by done. split; [done|].
    rewrite bool_decide_true by done. rewrite <- (InjectedOptions_sharing cs Hcs Hc). unfold ShimArgs. cbn [tail app].
    done.
Qed.

(** *** Examples *)

(** A machine with ssh in [/usr/bin], in a run. *)
Definition run_host : Host := mkHost
  (fun p => if bool_decide (p ∈ ["/tmp/dfssh-1/ssh"; "/usr/bin/ssh"]) then StatOk false else StatNotExist)
  (fun _ => Ok []) (fun _ => Ok "") (Ok "/home/me")
  (fun n => if bool_decide (n = "PATH") then Some "/tmp/dfssh-1:/usr/bin" else
            if bool_decide (n = ControlEnvVar) then Some "/tmp/dfssh-1" else None).
Definition is_dockform (p : string) : bool := bool_decide (p = "/tmp/dfssh-1/ssh").

Lemma run_wrapped : wrapped run_host (fun _ => 493%Z) is_dockform ["tmp"; "dfssh-1"] "/usr/bin".
Proof.
  split; [|done..]. split_and!; [done| |unfold free; vm_compute; set_solver].
  repeat constructor; try done; unfold free; vm_compute; set_solver.
Qed.

(** By its name the wrapper starts itself once more, and the options are there twice. *)
Example bare_name_twice : launch run_host (fun _ => 493%Z) 2 is_dockform "ssh" ["host"]
  = Some (Ok ("/usr/bin/ssh", "/usr/bin/ssh" ::
      InjectedOptions "/tmp/dfssh-1" ++ InjectedOptions "/tmp/dfssh-1" ++ ["host"])).
Proof. by vm_compute. Qed.

Lemma shim_runs_ssh_witness : exists p argv,
  launch run_host (fun _ => 493%Z) 2 is_dockform "ssh" ["host"] = Some (Ok (p, argv))
  /\ first_on_path run_host (fun _ => 493%Z) "/tmp/dfssh-1" "/usr/bin" p
  /\ argv = [p] ++ sharing_options "/tmp/dfssh-1" ++ sharing_options "/tmp/dfssh-1" ++ ["host"].
Proof.
  assert (forall p, first_on_path run_host (fun _ => 493%Z) (abs_path ["tmp"; "dfssh-1"]) "/usr/bin" p ->
    is_dockform p = false) as Hself.
  { intros p (before & dir & after & Hd & _ & -> & _). destruct before as [|x [|]]; [|done|done].
    injection Hd as <- _. reflexivity. }
  pose proof (shim_runs_ssh run_host (fun _ => 493%Z) is_dockform ["tmp"; "dfssh-1"] "/usr/bin" "ssh" "/home/me" ["host"]
    run_wrapped eq_refl ltac:(by vm_compute) Hself (or_intror eq_refl)) as Hl.
  eexists _, _. split; [vm_compute; reflexivity|]. exact Hl.
Defined.

(** Two runs inside each other: each wrapper takes the other for the real ssh, and the
    chain of processes never ends. *)
Definition nested_host : Host := mkHost
  (fun p => if bool_decide (p ∈ ["/tmp/dfssh-1/ssh"; "/tmp/dfssh-2/ssh"; "/usr/bin/ssh"]) then StatOk false else StatNotExist)
  (fun _ => Ok []) (fun _ => Ok "") (Ok "/home/me")
  (fun n => if bool_decide (n = "PATH") then Some "/tmp/dfssh-2:/tmp/dfssh-1:/usr/bin" else
            if bool_decide (n = ControlEnvVar) then Some "/tmp/dfssh-2" else None).
Definition is_nested (p : string) : bool := bool_decide (p ∈ ["/tmp/dfssh-1/ssh"; "/tmp/dfssh-2/ssh"]).

Theorem nested_wrappers_loop fuel incoming :
  launch nested_host (fun _ => 493%Z) fuel is_nested "/tmp/dfssh-2/ssh" incoming = None
  /\ launch nested_host (fun _ => 493%Z) fuel is_nested "/tmp/dfssh-1/ssh" incoming = None.
Proof.
  revert incoming. induction fuel as [|fuel IH]; intros incoming; [done|]. cbn [launch].
  unfold Run. change (os_LookupEnv nested_host "PATH") with (Some "/tmp/dfssh-2:/tmp/dfssh-1:/usr/bin").
  change (os_LookupEnv nested_host ControlEnvVar) with (Some "/tmp/dfssh-2"). cbn [default from_option id].
  assert (FindRealSSH nested_host (fun _ => 493%Z) (Dir "/tmp/dfssh-2/ssh") "/tmp/dfssh-2:/tmp/dfssh-1:/usr/bin"
    = Ok "/tmp/dfssh-1/ssh") as -> by (vm_compute; reflexivity).
  assert (FindRealSSH nested_host (fun _ => 493%Z) (Dir "/tmp/dfssh-1/ssh") "/tmp/dfssh-2:/tmp/dfssh-1:/usr/bin"
    = Ok "/tmp/dfssh-2/ssh") as -> by (vm_compute; reflexivity).
  cbv zeta. rewrite bool_decide_true by done. split; apply IH.
Qed.

(** A run whose path was not set ends with an empty one. *)
Example unset_path_set :
  env (Teardown (fun _ => false) (match (Setup (Ok "/tmp/d") (Ok tt) (fun _ => false) "/bin/dockform" (mkMachine ∅ ∅)).2 with
    Ok m => Some m | Err _ => None end) (Setup (Ok "/tmp/d") (Ok tt) (fun _ => false) "/bin/dockform" (mkMachine ∅ ∅)).1).2
  = {["PATH" := ""]}.
Proof. by vm_compute. Qed.

Definition user_machine : machine := mkMachine {["PATH" := "/usr/bin"; "HOME" := "/home/me"]} {["/tmp" := Directory]}.
(** What a run starts with. *)
Definition run_machine : machine := (Setup (Ok "/tmp/dfssh-1") (Ok tt) (fun _ => false) "/bin/dockform" user_machine).1.

(** A run made a socket in its directory, and it is removed. *)
Lemma mux_restored_witness :
  let ran := create "/tmp/dfssh-1/sock" Directory run_machine in
  exists m m' w3, (Setup (Ok "/tmp/dfssh-1") (Ok tt) (fun _ => false) "/bin/dockform" user_machine).2 = Ok m
    /\ Teardown (fun _ => false) (Some m) ran = (m', w3)
    /\ env w3 !! "HOME" = Some "/home/me" /\ env w3 !! "PATH" = Some "/usr/bin"
    /\ files w3 !! "/tmp/dfssh-1/sock" = None /\ files w3 !! "/tmp" = Some Directory.
Proof.
  intros ran.
  destruct (mux_restored "/tmp/dfssh-1" "/bin/dockform" (fun _ => false) (fun _ => false) user_machine)
    as (m & Hm & _ & _ & _ & _ & Hdown).
  - split; [|split].
    + exists "dfssh-1". split; [|done]. apply Forall_singleton. split; [done|]. unfold free. vm_compute. set_solver.
    + unfold free. vm_compute. set_solver.
    + intros p Hp. apply lookup_singleton_None. intros <-. destruct Hp as [Hp|Hp]; [done|vm_compute in Hp; done].
  - apply (bool_decide_unpack _). vm_compute. exact I.
  - specialize (Hdown ran eq_refl). destruct (Teardown (fun _ => false) (Some m) ran) as [m' w3] eqn:Ht.
    destruct Hdown as (Hvars & Hpath & Hout & Hin & _). exists m, m', w3. split_and!.
    + exact Hm.
    + exact Ht.
    + rewrite Hvars by done. reflexivity.
    + rewrite Hpath. reflexivity.
    + destruct (Hin "/tmp/dfssh-1/sock") as [?|[? _]]; [right; reflexivity|done|done].
    + rewrite Hout; [reflexivity|]. intros [?|Hp]; [done|vm_compute in Hp; done].
Defined.
