(* ===== verification/Logger.v ===== *)
(** * Logging ([internal/logger])

    A small facade over a logging library: values behind sensitive keys are redacted
    before the library sees them, and one logger may fan out to several.  A logger is
    known by the records it hands to its sinks; what the library prints of a record,
    and at which level, is its own. *)

From S2P Require Import Prelude GoStrings Apperr GoRegexp.
From Stdlib Require Import Ascii.

(** ** Redaction *)

(** A key or value of a record: a string, or something else and how it prints. *)
Inductive value := Str (s : string) | Other (printed : string).

#[global] Instance value_eq_dec : EqDecision value.
Proof. solve_decision. Defined.

Definition isSensitiveKey (k : string) : bool :=
  let lower := ToLower k in
  Contains lower "password" || Contains lower "token" || Contains lower "secret"
  || Contains lower "apikey" || Contains lower "api_key" || Contains lower "private"
  || (Contains lower "key" && negb (Contains lower "keyboard")).

(** [(?i)(token|secret|password|apikey|api_key|bearer)\s*[:=]\s*([A-Za-z0-9\-\._]+)] *)
Definition secret_word : re :=
  alts (fold_lit "token") [fold_lit "secret"; fold_lit "password"; fold_lit "apikey";
                           fold_lit "api_key"; fold_lit "bearer"].
Definition secret_char : re :=
  alts (Chr (fun c => is_lower_letter c || is_upper_letter c || is_digit c
                      || Ascii.eqb c "-" || Ascii.eqb c "." || Ascii.eqb c "_"))
    [lit kelvin; lit long_s].
Definition separator : re := Chr (fun c => Ascii.eqb c ":" || Ascii.eqb c "=").
Definition secretLike : re :=
  Cat (Cap 1 secret_word) (Cat (Star (Chr is_space)) (Cat separator
    (Cat (Star (Chr is_space)) (Cap 2 (Plus secret_char))))).

(** The template [$1=[REDACTED]]. *)
Definition redactText (s : string) : string :=
  ReplaceAllString secretLike (fun cs => group cs 1 +:+ "=[REDACTED]") s.

Definition redactError (err : option error) : string :=
  match err with None => "" | Some e => redactText (Error e) end.

Definition redacted_value (key : string) (v : value) : value :=
  if isSensitiveKey key then Str "[REDACTED]" else
  match v with Str s => Str (redactText s) | Other _ => v end.

(** Keys are at the even places; one that is no string is passed over. *)
Fixpoint redactPairs (kv : list value) : list value :=
  match kv with
  | k :: v :: rest =>
      k :: (match k with Str key => redacted_value key v | Other _ => v end) :: redactPairs rest
  | _ => kv
  end.

(** ** Loggers *)

Inductive Level := DebugLevel | InfoLevel | WarnLevel | ErrorLevel.
Inductive Formatter := TextFormatter | JSONFormatter.

#[global] Instance Level_eq_dec : EqDecision Level.
Proof. solve_decision. Defined.

(** A logger of the library: where it writes, its settings, the fields it was given by
    each call of [With]. *)
Inductive destination := ToStderr | ToDiscard | ToFile (path : string).
Record clog := mkClog {
  cl_out : destination; cl_level : Level; cl_formatter : Formatter; cl_timestamp : bool;
  cl_fields : list (list value) }.

(** [charmLogger], [multiLogger], [nopLogger], and the display of a run
    ([internal/ui/rollinglog.go]) with its own fields. *)
Inductive Logger :=
| charmLogger (l : clog)
| multiLogger (sinks : list Logger)
| nopLogger
| displayLogger (base : list value).

(** A record handed to a sink. *)
Inductive event :=
| ToLibrary (l : clog) (lvl : Level) (msg : string) (keyvals : list value)
| ToDisplay (lvl : Level) (msg : string) (keyvals : list value).

(** [Debug], [Info], [Warn] and [Error].  The display ignores debug records and does
    not redact. *)
Fixpoint emit (l : Logger) (lvl : Level) (msg : string) (keyvals : list value) : list event :=
  match l with
  | charmLogger c => [ToLibrary c lvl msg (redactPairs keyvals)]
  | multiLogger sinks => (fix each (ss : list Logger) : list event :=
      match ss with [] => [] | s :: ss => emit s lvl msg keyvals ++ each ss end) sinks
  | nopLogger => []
  | displayLogger base => if bool_decide (lvl = DebugLevel) then [] else [ToDisplay lvl msg (base ++ keyvals)]
  end.

Fixpoint With (l : Logger) (keyvals : list value) : Logger :=
  match l with
  | charmLogger c => charmLogger (mkClog (cl_out c) (cl_level c) (cl_formatter c) (cl_timestamp c)
                                    (cl_fields c ++ [redactPairs keyvals]))
  | multiLogger sinks => multiLogger (List.map (fun s => With s keyvals) sinks)
  | nopLogger => nopLogger
  | displayLogger base => displayLogger (base ++ keyvals)
  end.

Definition flat_sinks (s : Logger) : list Logger :=
  match s with multiLogger sinks => sinks | _ => [s] end.
Definition Fanout (sinks : list Logger) : Logger :=
  match sinks with
  | [] => nopLogger
  | [s] => s
  | _ => multiLogger (sinks ≫= flat_sinks)
  end.

(** ** Construction *)

Definition parseLevel (s : string) : Level :=
  let s := ToLower (TrimSpace s) in
  if bool_decide (s = "debug") then DebugLevel
  else if bool_decide (s ∈ ["warn"; "warning"]) then WarnLevel
  else if bool_decide (s = "error") then ErrorLevel else InfoLevel.

(** [tty]: the writer is a file that is a terminal. *)
Definition chooseFormatter (tty : bool) (format : string) : Formatter :=
  let format := ToLower (TrimSpace format) in
  if bool_decide (format = "json") then JSONFormatter
  else if bool_decide (format ∈ ["pretty"; "text"]) then TextFormatter
  else if tty then TextFormatter else JSONFormatter.

Record Options := mkOptions {
  op_Out : destination; op_Level : string; op_Format : string; op_NoColor : bool;
  op_LogFile : string; op_ReportTimestamp : option bool }.

(** [is_tty] tells terminals; [openFile] is the answer of [os.OpenFile]. *)
Definition NewLogger (is_tty : destination -> bool) (openFile : string -> res unit) (opts : Options)
  : res (Logger * option string) :=
  let lvl := parseLevel (op_Level opts) in
  let primary := charmLogger (mkClog (op_Out opts) lvl (chooseFormatter (is_tty (op_Out opts)) (op_Format opts))
                                (default true (op_ReportTimestamp opts)) []) in
  if bool_decide (TrimSpace (op_LogFile opts) = "") then Ok (primary, None) else
  match openFile (op_LogFile opts) with
  | Err e => Err e
  | Ok _ =>
      let out := ToFile (op_LogFile opts) in
      let fl := charmLogger (mkClog out lvl (chooseFormatter (is_tty out) (op_Format opts))
                  (bool_decide (op_Format opts = "pretty") || bool_decide (op_Format opts = "text")) []) in
      Ok (multiLogger [primary; fl], Some (op_LogFile opts))
  end.

(** ** Steps *)

Record Step := mkStep { sp_logger : Logger; sp_action : string; sp_resource : string; sp_base : list value }.

Definition step_fields (status : string) (action resource : string) : list value :=
  [Str "status"; Str status; Str "action"; Str action; Str "resource"; Str resource].

Definition StartStep (l : Logger) (action resource : string) (extra : list value) : Step * list event :=
  let base := redactPairs extra in
  (mkStep l action resource base, emit l InfoLevel action (step_fields "started" action resource ++ base)).

(** [dur]: the milliseconds since the start, as printed. *)
Definition outcome_fields (changed : bool) (dur : string) : list value :=
  [Str "changed"; Other (if changed then "true" else "false"); Str "duration_ms"; Other dur].

Definition step_OK (s : Step) (dur : string) (changed : bool) (extra : list value) : list event :=
  emit (sp_logger s) InfoLevel (sp_action s)
    (step_fields "ok" (sp_action s) (sp_resource s) ++ outcome_fields changed dur ++ redactPairs extra).

Definition step_Fail (s : Step) (dur : string) (err : option error) (extra : list value)
  : option error * list event :=
  let msg := redactError err in
  let fields := step_fields "failed" (sp_action s) (sp_resource s) ++ outcome_fields false dur ++ redactPairs extra in
  (err, emit (sp_logger s) ErrorLevel (sp_action s)
          (if bool_decide (msg <> "") then fields ++ [Str "error"; Str msg] else fields)).

(** ** Properties *)

(** *** Redacted text *)

(** The bytes of the sensitive words, in either case and folded. *)
Definition word_byte (c : ascii) : bool :=
  is_lower_letter c || is_upper_letter c || Ascii.eqb c "_" || (128 <=? code c).
Abbreviation worded s := (Forall (fun c => word_byte c = true) (chars s)).

(** A folded word of letters. *)
Lemma lang_fold k s : Forall (fun c => is_lower_letter c || Ascii.eqb c "_" = true) (chars k) ->
  lang (fold_lit k) s -> worded s /\ String.length k <= String.length s.
Proof.
  revert s. induction k as [|c k IH]; intros s Hk; simpl; intros Hl;
    inversion Hl as [| |? ? a b Ha Hb| | | | |]; subst; [split; [constructor|lia]|].
  simpl in Hk. apply Forall_cons in Hk as [Hc Hk]. apply IH in Hb as [Hw Hb]; [|done].
  assert (worded a /\ 1 <= String.length a) as [Hwa Hla].
  { assert (Hboth : forall x, lang (Chr (fun d => Ascii.eqb (lower_byte d) c)) x -> worded x /\ 1 <= String.length x).
    { intros x Hx. inversion Hx as [|? d Hd| | | | | |]; subst. apply Ascii.eqb_eq in Hd. split; [|done].
      apply Forall_singleton. unfold lower_byte in Hd. unfold word_byte.
      destruct (is_upper_letter d) eqn:Hu; [by rewrite orb_true_r|]. subst d.
      apply orb_true_iff in Hc as [-> | ->]; by rewrite ?orb_true_r. }
    unfold fold_letter in Ha. destruct (Ascii.eqb c "k"); [|destruct (Ascii.eqb c "s"); [|by apply Hboth]];
      inversion Ha as [| | |? ? ? Hx|? ? ? Hx| | |]; subst; try (by apply Hboth);
      (apply (lang_lit kelvin) in Hx as -> || apply (lang_lit long_s) in Hx as ->);
      (split; [repeat constructor|simpl; lia]). }
  rewrite chars_app, string_length_app. split; [by apply Forall_app|lia].
Qed.

Lemma lang_alts a l s : lang (alts a l) s -> exists b, b ∈ a :: l /\ lang b s.
Proof.
  revert a. induction l as [|b l IH]; intros a; simpl; [intros Hl; exists a; split; [left|done]|].
  intros Hl. inversion Hl as [| | |? ? ? Ha|? ? ? Hb| | |]; subst; [exists a; split; [left|done]|].
  destruct (IH b Hb) as (x & Hx & Hs). exists x. split; [by right|done].
Qed.

Lemma lang_secret_word w : lang secret_word w -> worded w /\ 5 <= String.length w.
Proof.
  intros (b & Hb & Hw)%lang_alts.
  assert (Hfold : exists k, b = fold_lit k /\ 5 <= String.length k
    /\ Forall (fun c => is_lower_letter c || Ascii.eqb c "_" = true) (chars k)).
  { rewrite !elem_of_cons, elem_of_nil in Hb.
    destruct Hb as [->|[->|[->|[->|[->|[->|[]]]]]]]; eexists; (split; [reflexivity|]);
      (split; [simpl; lia|repeat constructor]). }
  destruct Hfold as (k & -> & Hk & Hc). destruct (lang_fold k w Hc Hw) as [Hww Hl]. split; [done|lia].
Qed.

(** The end of a match from inside it: after the word, and after the separator. *)
Definition blanks (b : string) : Prop := Forall (fun c => is_space c = true) (chars b).
Definition value_next (s : string) : Prop :=
  exists b c r, s = b +:+ c +:+ r /\ blanks b /\ lang secret_char c.
Definition assigned (s : string) : Prop :=
  exists b d r, s = b +:+ String d r /\ blanks b /\ (d = ":"%char \/ d = "="%char) /\ value_next r.
Definition secret_at (s : string) : Prop :=
  exists w r, s = w +:+ r /\ lang secret_word w /\ assigned r.

Lemma lang_blanks b : lang (Star (Chr is_space)) b -> blanks b.
Proof.
  remember (Star (Chr is_space)) as r eqn:Hr. induction 1 as [| | | | | |? s t _ Hs _ _ IH|]; try discriminate Hr;
    [constructor|]. injection Hr as ->. inversion Hs; subst. unfold blanks. rewrite chars_app.
  apply Forall_app. split; [by apply Forall_singleton|by apply IH].
Qed.

Lemma blanks_lang b : blanks b -> lang (Star (Chr is_space)) b.
Proof.
  induction b as [|c b IH]; intros Hb; [constructor|]. apply Forall_cons in Hb as [Hc Hb].
  apply (lang_more _ (String c "") b); [done|by constructor|by apply IH].
Qed.

(** Where the expression matches. *)
Lemma secret_at_match s : secret_at s <-> match_at secretLike s <> None.
Proof.
  split.
  - intros (w & r & -> & Hw & (b & d & r' & -> & Hb & Hd & (b' & c & r'' & -> & Hb' & Hc))) Hn.
    rewrite match_at_None in Hn. apply (Hn (w +:+ b +:+ String d "" +:+ b' +:+ c) r'').
    { rewrite !string_app_assoc. done. }
    repeat (apply lang_cat); [by constructor|by apply blanks_lang| |by apply blanks_lang|].
    + constructor. by destruct Hd as [-> | ->].
    + constructor. rewrite <- (string_app_nil_r c). apply lang_cat; [done|constructor].
  - destruct (match_at secretLike s) as [[rest cs]|] eqn:Hm; [intros _|done].
    apply match_at_Some in Hm as (m & -> & Hm).
    inversion Hm as [| |? ? w t Hw Ht| | | | |]; subst. inversion Hw; subst.
    inversion Ht as [| |? ? b t' Hb Ht'| | | | |]; subst. inversion Ht' as [| |? ? x t'' Hx Ht''| | | | |]; subst.
    inversion Hx as [|? d Hd| | | | | |]; subst. inversion Ht'' as [| |? ? b' v Hb' Hv| | | | |]; subst.
    inversion Hv as [| | | | | | |? ? ? Hv']; subst. inversion Hv' as [| |? ? c vs Hc _| | | | |]; subst.
    exists w, (b +:+ String d (b' +:+ c +:+ vs +:+ rest)). rewrite !string_app_assoc. split; [done|]. split; [done|].
    exists b, d, (b' +:+ c +:+ vs +:+ rest). split; [done|]. split; [by apply lang_blanks|]. split.
    { apply orb_true_iff in Hd as [Hd|Hd]; apply Ascii.eqb_eq in Hd; auto. }
    exists b', c, (vs +:+ rest). split; [done|]. split; [by apply lang_blanks|done].
Qed.

(** *** Nothing that looks like a secret is left *)

Definition redaction (w : string) : string := w +:+ "=[REDACTED]".

Lemma not_word_next b d r : blanks b -> d = ":"%char \/ d = "="%char ->
  match b +:+ String d r with "" => True | String c _ => word_byte c = false end.
Proof.
  intros Hb Hd. destruct b as [|c b]; [by destruct Hd as [-> | ->]|]. apply Forall_cons in Hb as [Hc _].
  rewrite string_app_cons. clear -Hc. revert Hc. by destruct c as [[] [] [] [] [] [] [] []].
Qed.

(** The word of an assignment is all there is before the separator. *)
Lemma assigned_span u r : worded u -> assigned r -> span word_byte (u +:+ r) = (u, r).
Proof. intros Hu (b & d & r' & -> & Hb & Hd & _). apply span_all; [done|by apply not_word_next]. Qed.

(** No assignment follows a redacted word. *)
Lemma redaction_closed u u' r t : worded u -> worded u' -> assigned r -> u +:+ r <> redaction u' +:+ t.
Proof.
  intros Hu Hu' Hr Heq. pose proof (assigned_span u r Hu Hr) as Hs.
  unfold redaction in Heq. rewrite string_app_assoc in Heq. rewrite Heq in Hs.
  rewrite span_all in Hs; [|done|done]. injection Hs as <- <-.
  destruct Hr as (b & d & r' & Hb & Hbl & Hd & (b' & c & r'' & -> & Hb' & Hc)).
  destruct b as [|x b]; [|by injection Hb as <- _; apply Forall_cons in Hbl as [? _]].
  rewrite string_app_nil_l in Hb. injection Hb as <- Hb.
  destruct b' as [|x b']; [|by injection Hb as <- _; apply Forall_cons in Hb' as [? _]].
  rewrite string_app_nil_l in Hb. destruct c as [|x c].
  - apply lang_alts in Hc as (a & Ha & Hc). rewrite !elem_of_cons, elem_of_nil in Ha.
    destruct Ha as [->|[->|[->|[]]]]; [inversion Hc|by apply lang_lit in Hc..].
  - injection Hb as <- _. apply lang_alts in Hc as (a & Ha & Hc). rewrite !elem_of_cons, elem_of_nil in Ha.
    destruct Ha as [->|[->|[->|[]]]]; [inversion Hc as [|? ? Hf| | | | | |]; subst; done|by apply lang_lit in Hc..].
Qed.

(** What a match is replaced by. *)
Lemma secret_match s rest cs : match_at secretLike s = Some (rest, cs) ->
  exists t m, s = group cs 1 +:+ t /\ lang secret_word (group cs 1) /\ t = m +:+ rest.
Proof.
  intros (t & m & Hs & Hw & Ht & _)%match_at_first; [eauto|]. apply (bool_decide_unpack _). by vm_compute.
Qed.

Abbreviation cleaned := (replaced secretLike (fun cs => redaction (group cs 1))).

(** A word does not start inside the encoding of a letter. *)
Definition inner_byte (c : ascii) : bool := byte_in 128 191 c.

Lemma lang_fold_first k s : Forall (fun c => is_lower_letter c || Ascii.eqb c "_" = true) (chars k) -> k <> "" ->
  lang (fold_lit k) s -> exists c r, s = String c r /\ inner_byte c = false.
Proof.
  destruct k as [|c k]; [done|]. intros [Hc _]%Forall_cons _ Hl.
  inversion Hl as [| |? ? a b Ha Hb| | | | |]; subst.
  assert (Hboth : lang (Chr (fun d => Ascii.eqb (lower_byte d) c)) a -> exists d, a = String d "" /\ inner_byte d = false).
  { intros Hx. inversion Hx as [|? d Hd| | | | | |]; subst. exists d. split; [done|]. apply Ascii.eqb_eq in Hd as <-.
    revert Hc. by destruct d as [[] [] [] [] [] [] [] []]. }
  unfold fold_letter in Ha. destruct (Ascii.eqb c "k"); [|destruct (Ascii.eqb c "s"); [|apply Hboth in Ha as (d & -> & ?); eauto]];
    inversion Ha as [| | |? ? ? Hx|? ? ? Hx| | |]; subst; try (apply Hboth in Hx as (d & -> & ?); by eauto);
    (apply (lang_lit kelvin) in Hx as -> || apply (lang_lit long_s) in Hx as ->); eexists _, _; done.
Qed.

Lemma secret_word_first w : lang secret_word w -> exists c r, w = String c r /\ inner_byte c = false.
Proof.
  intros (b & Hb & Hw)%lang_alts. rewrite !elem_of_cons, elem_of_nil in Hb.
  destruct Hb as [->|[->|[->|[->|[->|[->|[]]]]]]]; (eapply lang_fold_first in Hw; [exact Hw|repeat constructor|done]).
Qed.

(** Such bytes were there before. *)
Lemma cleaned_inner p s r : Forall (fun c => inner_byte c = true) (chars p) -> cleaned s (p +:+ r) ->
  exists s', s = p +:+ s'.
Proof.
  revert s. induction p as [|c p IH]; intros s Hp Hs; [by exists s|]. simpl in Hp. apply Forall_cons in Hp as [Hc Hp].
  rewrite string_app_cons in Hs. inversion Hs as [|x s0 t _ Hs0|s0 rest cs t Hm _ Hs0 Heq]; subst.
  - destruct (IH s0 Hp Hs0) as (s' & ->). by exists s'.
  - apply secret_match in Hm as (t' & m & _ & Hw & _). apply secret_word_first in Hw as (d & w & Hw & Hd).
    rewrite Hw in Heq. exfalso. injection Heq as -> _. congruence.
Qed.

Lemma app_prefix (a b c d : string) : a +:+ b = c +:+ d -> String.length a <= String.length c -> exists e, c = a +:+ e.
Proof.
  revert c. induction a as [|x a IH]; intros c Heq Hl; [by exists c|].
  destruct c as [|y c]; [simpl in Hl; lia|]. rewrite !string_app_cons in Heq. injection Heq as -> Heq.
  destruct (IH c Heq) as (e & ->); [simpl in Hl; lia|]. by exists e.
Qed.

Lemma secret_char_cases c : lang secret_char c ->
  (exists x, c = String x "" /\ is_space x = false) \/ c = kelvin \/ c = long_s.
Proof.
  intros (a & Ha & Hc)%lang_alts. rewrite !elem_of_cons, elem_of_nil in Ha.
  destruct Ha as [->|[->|[->|[]]]]; [|right; left; by apply lang_lit|right; right; by apply lang_lit].
  inversion Hc as [|? x Hx| | | | | |]; subst. left. exists x. split; [done|].
  revert Hx. by destruct x as [[] [] [] [] [] [] [] []].
Qed.

(** What the redacted text goes on with, the original did too: the value, *)
Lemma cleaned_value s t : cleaned s t -> value_next t -> value_next s.
Proof.
  induction 1 as [|x s t _ Hs IH|s rest cs t Hm _ _]; intros (b & c & r & Heq & Hb & Hc).
  - by exists b, c, r.
  - destruct b as [|y b].
    + rewrite string_app_nil_l in Heq. assert (exists c', c = String x c' /\ exists s', s = c' +:+ s') as (c' & -> & s' & ->).
      { destruct (secret_char_cases c Hc) as [(z & -> & _)|[-> | ->]]; injection Heq as -> ->; eexists; (split; [done|]);
          (eapply cleaned_inner; [|eassumption || exact Hs]); repeat constructor. }
      exists "", (String x c'), s'. split; [done|]. by split; [constructor|].
    + rewrite string_app_cons in Heq. injection Heq as -> ->.
      apply Forall_cons in Hb as [Hy Hb].
      destruct IH as (b' & c' & r' & -> & Hb' & Hc'); [by exists b, c, r|].
      exists (String y b'), c', r'. split; [done|]. split; [|done]. by apply Forall_cons.
  - apply secret_match in Hm as (t' & m & -> & Hw & _). pose proof (lang_secret_word _ Hw) as [Hww Hl].
    destruct b as [|y b].
    + rewrite string_app_nil_l in Heq. unfold redaction in Heq. rewrite string_app_assoc in Heq. symmetry in Heq.
      apply app_prefix in Heq as (e & He).
      * rewrite He. exists "", c, (e +:+ t'). rewrite string_app_assoc. split; [done|]. by split; [constructor|].
      * destruct (secret_char_cases c Hc) as [(z & -> & _)|[-> | ->]]; simpl; lia.
    + exfalso. destruct (group cs 1) as [|z w]; [simpl in Hl; lia|].
      rewrite string_app_cons in Heq. injection Heq as -> _. apply Forall_cons in Hb as [Hy _], Hww as [Hz _].
      revert Hy Hz. by destruct y as [[] [] [] [] [] [] [] []].
Qed.

(** the assignment, *)
Lemma cleaned_assigned s t : cleaned s t -> assigned t -> assigned s.
Proof.
  induction 1 as [|x s t _ Hs IH|s rest cs t Hm _ _]; intros (b & d & r & Heq & Hb & Hd & Hv).
  - by exists b, d, r.
  - destruct b as [|y b].
    + rewrite string_app_nil_l in Heq. injection Heq as -> ->. exists "", d, s. split_and!; [done|constructor|done|].
      by eapply cleaned_value.
    + rewrite string_app_cons in Heq. injection Heq as -> ->. apply Forall_cons in Hb as [Hy Hb].
      destruct IH as (b' & d' & r' & -> & Hb' & Hd' & Hv'); [by exists b, d, r|].
      exists (String y b'), d', r'. split_and!; [done|by apply Forall_cons|done|done].
  - exfalso. apply secret_match in Hm as (t' & m & _ & Hw & _). apply lang_secret_word in Hw as [Hw Hl].
    pose proof (not_word_next b d r Hb Hd) as Hn. rewrite <- Heq in Hn. unfold redaction in Hn.
    destruct (group cs 1) as [|z w]; [simpl in Hl; lia|]. apply Forall_cons in Hw as [Hz _].
    rewrite !string_app_cons in Hn. congruence.
Qed.

(** and the word before it. *)
Lemma cleaned_word s u r : worded u -> assigned r -> cleaned s (u +:+ r) -> exists r', s = u +:+ r' /\ assigned r'.
Proof.
  intros Hu Hr. revert s. induction u as [|y u IH]; intros s Hs.
  { exists s. split; [done|]. by eapply cleaned_assigned. }
  rewrite string_app_cons in Hs. inversion Hs as [|x s0 t _ Hs0|s0 rest cs t Hm _ Hs0 Heq]; subst.
  - apply Forall_cons in Hu as [_ Hu]. destruct (IH Hu s0 Hs0) as (r' & -> & Hr'). by exists r'.
  - exfalso. apply secret_match in Hm as (t' & m & _ & Hw & _). apply lang_secret_word in Hw as [Hw _].
    by apply (redaction_closed (String y u) (group cs 1) r t Hu Hw Hr).
Qed.

(** Inside the mark there is no word with an assignment. *)
Lemma mark_tail p e : "=[REDACTED]" = p +:+ e -> p <> "" -> e <> "" ->
  exists l c rest, e = l +:+ String c rest /\ worded l /\ (c = "]"%char \/ c = "["%char).
Proof.
  intros Heq Hp He. destruct p as [|? p]; [done|].
  rewrite string_app_cons in Heq. injection Heq as _ Heq.
  destruct p as [|? p]; [rewrite string_app_nil_l in Heq; subst e; exists "", "["%char, "REDACTED]"; split_and!; [done|constructor|by right]|].
  rewrite string_app_cons in Heq. injection Heq as _ Heq.
  do 8 (destruct p as [|? p];
    [rewrite string_app_nil_l in Heq; subst e;
     match goal with |- exists l c rest, ?x = _ /\ _ =>
       exists (before x "]"), "]"%char, ""; split_and!; [done|repeat constructor|by left] end
    |rewrite string_app_cons in Heq; injection Heq as _ Heq]).
  destruct p as [|? p]; [rewrite string_app_nil_l in Heq; subst e; exists "", "]"%char, ""; split_and!; [done|constructor|by left]|].
  exfalso. rewrite string_app_cons in Heq. injection Heq as _ Heq. destruct p, e; done.
Qed.

Lemma mark_closed p e t w r : "=[REDACTED]" = p +:+ e -> p <> "" -> e <> "" -> worded w -> assigned r ->
  e +:+ t <> w +:+ r.
Proof.
  intros Hm Hp He Hw Hr Heq. destruct (mark_tail p e Hm Hp He) as (l & c & rest & -> & Hl & Hc).
  pose proof (assigned_span w r Hw Hr) as Hs. rewrite <- Heq, string_app_assoc, string_app_cons in Hs.
  rewrite span_all in Hs; [|done|by destruct Hc as [-> | ->]]. injection Hs as <- <-.
  destruct Hr as (b & d & r' & Hb & Hbl & Hd & _). destruct b as [|x b].
  - rewrite string_app_nil_l in Hb. injection Hb as -> _. by destruct Hc as [-> | ->], Hd.
  - rewrite string_app_cons in Hb. injection Hb as -> _. apply Forall_cons in Hbl as [Hx _].
    by destruct Hc as [-> | ->].
Qed.

Lemma app_split (a b c d : string) : a +:+ b = c +:+ d ->
  (exists e, c = a +:+ e /\ b = e +:+ d) \/ (exists e, a = c +:+ e /\ d = e +:+ b).
Proof.
  revert c. induction a as [|x a IH]; intros c Heq; [left; by exists c|].
  destruct c as [|y c]; [right; by exists (String x a)|]. rewrite !string_app_cons in Heq. injection Heq as -> Heq.
  destruct (IH c Heq) as [(e & -> & ->)|(e & -> & ->)]; [left|right]; by exists e.
Qed.

(** After redaction the expression matches nowhere. *)
Lemma cleaned_no_secret s t p q : cleaned s t -> t = p +:+ q -> ~ secret_at q.
Proof.
  intros Hc. revert p. induction Hc as [|x s t Hno Hs IH|s rest cs t Hm _ IH]; intros p Heq (w & r & -> & Hw & Hr);
    pose proof (lang_secret_word w Hw) as [Hww Hl].
  - destruct p, w; simpl in *; try done; lia.
  - destruct p as [|y p]; [|rewrite string_app_cons in Heq; injection Heq as -> Heq; apply (IH p Heq); by exists w, r].
    rewrite string_app_nil_l in Heq. destruct w as [|z w]; [simpl in Hl; lia|].
    rewrite string_app_cons in Heq. injection Heq as -> ->. apply Forall_cons in Hww as [_ Hww].
    destruct (cleaned_word s w r Hww Hr Hs) as (r' & -> & Hr').
    assert (secret_at (String z (w +:+ r'))) as Hat%secret_at_match by (by exists (String z w), r'). done.
  - apply secret_match in Hm as (t' & m & _ & Hw' & _). apply lang_secret_word in Hw' as [Hw' _].
    unfold redaction in Heq. rewrite string_app_assoc in Heq.
    destruct (app_split _ _ _ _ Heq) as [(e & -> & He)|(e & He & Hq)].
    + destruct (app_split _ _ _ _ He) as [(e' & -> & Ht)|(e' & He' & Hq)].
      * apply (IH e' Ht). by exists w, r.
      * destruct e as [|y e]; [rewrite string_app_nil_l in He'; subst e'; by apply (redaction_closed w "" r t)|].
        destruct e' as [|z e']; [rewrite string_app_nil_l in Hq; apply (IH ""); [done|by exists w, r]|].
        by apply (mark_closed (String y e) (String z e') t w r).
    + rewrite He, chars_app in Hw'. apply Forall_app in Hw' as [_ Hwe].
      apply (redaction_closed w e r t Hww Hwe Hr). unfold redaction. by rewrite string_app_assoc.
Qed.

Lemma secretLike_nonempty : ~ lang secretLike "".
Proof.
  intros Hl. assert (match_at secretLike "" = None) as Hn by (by vm_compute).
  rewrite match_at_None in Hn. by apply (Hn "" "").
Qed.

Lemma redactText_quiet s : MatchString secretLike (redactText s) = false.
Proof.
  pose proof (ReplaceAllString_spec secretLike (fun cs => redaction (group cs 1)) s secretLike_nonempty) as Hc.
  destruct (MatchString secretLike (redactText s)) eqn:Hm; [|done].
  apply MatchString_true in Hm as (p & m & q & Heq & Hm). exfalso.
  eapply (cleaned_no_secret _ _ p (m +:+ q) Hc Heq). apply secret_at_match.
  destruct (match_at secretLike (m +:+ q)) eqn:Hn; [done|]. rewrite match_at_None in Hn. by destruct (Hn m q).
Qed.

(** Redacting again changes nothing. *)
Lemma redactText_idemp s : redactText (redactText s) = redactText s.
Proof.
  pose proof (redactText_quiet s) as Hq. generalize dependent (redactText s). intros t Hq. unfold redactText.
  pose proof (ReplaceAllString_spec secretLike (fun cs => group cs 1 +:+ "=[REDACTED]") t secretLike_nonempty) as Hc.
  generalize dependent (ReplaceAllString secretLike (fun cs => group cs 1 +:+ "=[REDACTED]") t). intros u Hc.
  assert (Hno : forall p q, t = p +:+ q -> match_at secretLike q = None).
  { intros p q Heq. destruct (match_at secretLike q) as [[rest cs]|] eqn:Hm; [|done].
    apply match_at_Some in Hm as (m & -> & Hm). exfalso.
    assert (MatchString secretLike t = true) by (apply MatchString_true; by exists p, m, rest). congruence. }
  clear Hq. induction Hc as [|c s' t' _ _ IH|s' rest cs t' Hm _ _]; [done| |].
  - f_equal. apply IH. intros p q ->. by apply (Hno (String c p) q).
  - rewrite (Hno "" s') in Hm by done. done.
Qed.

(** *** Records *)

(** No value behind a sensitive key, and no text that looks like a secret. *)
Definition clean_value (key : string) (v : value) : Prop :=
  if isSensitiveKey key then v = Str "[REDACTED]"
  else match v with Str s => MatchString secretLike s = false | Other _ => True end.
Fixpoint clean (kv : list value) : Prop :=
  match kv with
  | Str key :: v :: rest => clean_value key v /\ clean rest
  | Other _ :: _ :: rest => clean rest
  | _ => True
  end.

(** Induction over pairs. *)
Lemma pairs_ind (P : list value -> Prop) : P [] -> (forall k, P [k]) ->
  (forall k v rest, P rest -> P (k :: v :: rest)) -> forall kv, P kv.
Proof.
  intros H0 H1 H2. fix IH 1. intros [|k [|v rest]]; [exact H0|apply H1|apply H2, IH].
Qed.

Lemma redact_clean kv : clean (redactPairs kv) /\ length (redactPairs kv) = length kv.
Proof.
  induction kv as [|k|k v rest [Hc Hl]] using pairs_ind; [done|by destruct k|].
  simpl. split; [|by rewrite Hl]. destruct k as [key|]; [|done]. split; [|done].
  unfold clean_value, redacted_value. destruct (isSensitiveKey key); [done|].
  destruct v; [apply redactText_quiet|done].
Qed.

(** The loggers the program can have. *)
Inductive built : Logger -> Prop :=
| built_new is_tty openFile opts l f : NewLogger is_tty openFile opts = Ok (l, f) -> built l
| built_nop : built nopLogger
| built_display : built (displayLogger [])
| built_with l keyvals : built l -> built (With l keyvals)
| built_fanout ls : Forall built ls -> built (Fanout ls).

(** Induction over the sinks of a logger. *)
Lemma Logger_tree_ind (P : Logger -> Prop) :
  (forall c, P (charmLogger c)) -> (forall ls, Forall P ls -> P (multiLogger ls)) -> P nopLogger ->
  (forall b, P (displayLogger b)) -> forall l, P l.
Proof.
  intros Hc Hm Hn Hd. fix IH 1. intros [c|ls| |b]; [apply Hc| |apply Hn|apply Hd].
  apply Hm. induction ls as [|l ls IHls]; [constructor|]. constructor; [apply IH|exact IHls].
Qed.

Lemma emit_multi ls lvl msg kv : emit (multiLogger ls) lvl msg kv = ls ≫= fun s => emit s lvl msg kv.
Proof. simpl. induction ls as [|l ls IH]; [done|]. simpl. by rewrite IH. Qed.

(** A logger that fans out gives each record to each of its sinks, once. *)
Lemma emit_Fanout ls lvl msg kv : emit (Fanout ls) lvl msg kv = ls ≫= fun s => emit s lvl msg kv.
Proof.
  assert (Hflat : forall s, flat_sinks s ≫= (fun s => emit s lvl msg kv) = emit s lvl msg kv).
  { intros [c|ss| |b]; try apply app_nil_r. symmetry. apply emit_multi. }
  destruct ls as [|l [|l' ls]]; [done|symmetry; apply app_nil_r|]. unfold Fanout. rewrite emit_multi.
  generalize (l :: l' :: ls) as ss. intros ss. induction ss as [|s ss IH]; [done|].
  by rewrite !bind_cons, bind_app, Hflat, IH.
Qed.

(** All that reaches the library through a logger. *)
Definition tidy_event (kv : list value) (e : event) : Prop :=
  match e with
  | ToLibrary c _ _ kv' => clean kv' /\ Forall clean (cl_fields c) /\ length kv' = length kv
  | ToDisplay _ _ _ => True
  end.
Definition tidy_logger (l : Logger) : Prop := forall lvl msg kv, Forall (tidy_event kv) (emit l lvl msg kv).

Lemma tidy_fresh c : cl_fields c = [] -> tidy_logger (charmLogger c).
Proof. intros Hc lvl msg kv. apply Forall_singleton. simpl. rewrite Hc. destruct (redact_clean kv). by split_and!. Qed.

Lemma tidy_multi ls : tidy_logger (multiLogger ls) <-> Forall tidy_logger ls.
Proof.
  rewrite Forall_forall. unfold tidy_logger. split.
  - intros Hm l Hl lvl msg kv. specialize (Hm lvl msg kv). rewrite emit_multi, Forall_bind, Forall_forall in Hm. by apply Hm.
  - intros Hl lvl msg kv. rewrite emit_multi, Forall_bind, Forall_forall. intros l Hin. by apply Hl.
Qed.

Lemma tidy_with l keyvals : tidy_logger l -> tidy_logger (With l keyvals).
Proof.
  induction l as [c|ls IH| |b] using Logger_tree_ind; [| |done|].
  - intros Ht lvl msg kv. specialize (Ht lvl msg kv). simpl in *. apply Forall_singleton in Ht as (Hc & Hf & Hl).
    apply Forall_singleton. simpl. split_and!; [done| |done]. apply Forall_app. split; [done|].
    apply Forall_singleton, redact_clean.
  - simpl. change (List.map (fun s => With s keyvals) ls) with ((fun s => With s keyvals) <$> ls).
    rewrite !tidy_multi, Forall_fmap. intros Ht. clear -IH Ht. induction IH; [constructor|].
    apply Forall_cons in Ht as [? ?]. constructor; auto.
  - intros _ lvl msg kv. simpl. case_bool_decide; [constructor|]. by apply Forall_singleton.
Qed.

(** C22: Logs keep secrets.  For every logger the program can build, by construction, by
    adding fields and by fanning out, and every record: the library is given as many
    keys and values as were logged, no value behind a sensitive key, and, behind the
    others, no text in which the pattern of secrets still matches anywhere; the same
    holds for the fields added before. *)
Theorem log_records_clean l lvl msg kv :
  built l -> Forall (tidy_event kv) (emit l lvl msg kv).
Proof.
  intros Hb. revert lvl msg kv. change (tidy_logger l). revert l Hb. fix IH 2.
  intros l [is_tty openFile opts l' f Hn| | |l' keyvals Hl|ls Hls].
  - unfold NewLogger in Hn. case_bool_decide; [injection Hn as <- _; by apply tidy_fresh|].
    destruct (openFile (op_LogFile opts)); [|done]. injection Hn as <- _. apply tidy_multi.
    apply Forall_cons; split; [by apply tidy_fresh|]. apply Forall_singleton. by apply tidy_fresh.
  - intros lvl msg kv. constructor.
  - intros lvl msg kv. simpl. case_bool_decide; [constructor|by apply Forall_singleton].
  - apply tidy_with, IH, Hl.
  - intros lvl msg kv. rewrite emit_Fanout. induction Hls as [|s ss Hs _ IHs]; [constructor|].
    simpl. apply Forall_app. split; [by apply IH|exact IHs].
Qed.

(** *** Examples *)

Definition plain_options : Options := mkOptions ToDiscard "info" "auto" false "" None.

Lemma log_records_clean_witness :
  Forall (tidy_event [Str "db_password"; Str "x"; Str "note"; Str "token: abc"])
    (emit (With (charmLogger (mkClog ToDiscard InfoLevel JSONFormatter true [])) [Str "run_id"; Str "1"])
       InfoLevel "m" [Str "db_password"; Str "x"; Str "note"; Str "token: abc"]).
Proof.
  apply log_records_clean. apply built_with.
  apply (built_new (fun _ => false) (fun _ => Ok tt) plain_options _ None). by vm_compute.
Defined.

(** The display of a run gets the record as it is. *)
Example display_shows_secrets : emit (Fanout [charmLogger (mkClog ToDiscard InfoLevel JSONFormatter true []); displayLogger []])
    InfoLevel "m" [Str "password"; Str "hunter2"]
  = [ToLibrary (mkClog ToDiscard InfoLevel JSONFormatter true []) InfoLevel "m" [Str "password"; Str "[REDACTED]"];
     ToDisplay InfoLevel "m" [Str "password"; Str "hunter2"]].
Proof. by vm_compute. Qed.

(** Only letters, digits, dots, dashes and underscores of a value are taken. *)
Example redaction_is_partial :
  redactText "password: hunter!2, Authorization: Bearer abc, secret:token=abc"
  = "password=[REDACTED]!2, Authorization: Bearer abc, secret=[REDACTED]=abc".
Proof. by vm_compute. Qed.
