(* ===== verification/Root.v ===== *)
(** * The program ([cmd/dockform], [internal/cli/root.go], [versioncmd], [buildinfo])

    What happens around a command: started as [ssh] dockform is the wrapper of
    [SshMux]; otherwise the command runs with a logger made from the flags, its error
    is explained to the user, and the exit status tells the kind of failure. *)

From S2P Require Import Prelude GoStrings GoPath Apperr Util Manifest Effects Docker Orchestrate GoRegexp SshMux Logger.
From Stdlib Require Import Ascii.

(** ** Looking into errors *)

Definition as_E (e : error) : option (Kind * option error * string) :=
  match e with E _ k cause msg => Some (k, cause, msg) | _ => None end.
Definition as_Multi (e : error) : option (list error) :=
  match e with MultiError es => Some es | _ => None end.
Definition as_Context (e : error) : option string :=
  match e with ContextError name _ => Some name | _ => None end.

(** ** Hints *)

(** [(?i)manifest for (\S+) not found] *)
Definition imageRefPattern : re :=
  Cat (fold_lit "manifest for ") (Cat (Cap 1 (Plus (Chr (fun c => negb (is_space c))))) (fold_lit " not found")).

Definition composeStderrHint (msg : string) : string :=
  let lower := ToLower msg in
  if Contains lower "denied" || Contains lower "unauthorized" then
    "Registry authentication problem. Check your credentials (docker login) and image access permissions."
  else if Contains lower "manifest unknown" || Contains lower "repository does not exist"
          || MatchString imageRefPattern msg then
    match FindStringSubmatch imageRefPattern msg with
    | Some cs => Sprintf "Image %q does not exist in the registry (or the tag is wrong). Check the image name and tag."
                   [group cs 1]
    | None => "The referenced image or tag does not exist in the registry. Check the image name and tag."
    end
  else if Contains lower "no space left" then
    "The Docker host is out of disk space. Free up space on the daemon host and try again."
  else "".

(** The lines on the standard error. *)
Definition provideExternalErrorHints (err : error) : list string :=
  let msg := Error err in
  let deepest := DeepestMessage (Some err) in
  if Contains msg "invalid compose file" || Contains deepest "invalid compose file" then
    [nl +:+ "Hint: Check your Docker Compose file syntax";
     "      Try: docker compose config --quiet"; "      Try: docker compose -f <file> config"]
  else
    let hint := composeStderrHint deepest in
    if bool_decide (hint <> "") then [nl +:+ "Hint: " +:+ hint]
    else if Contains msg "compose" then
      [nl +:+ "Hint: Docker Compose operation failed";
       "      Check your compose files and Docker daemon status"]
    else [].

Definition provideDockerTroubleshootingHints (err : error) : list string :=
  let msg := Error err in
  [nl +:+ "Hint: Is the Docker daemon running and reachable from the selected context?"]
  ++ (if Contains msg "context=" && negb (Contains msg "context=default")
      then ["      Try: docker context ls"; "      Try: docker --context <name> ps"]
      else ["      Try: docker ps"])
  ++ (if Contains msg "unix:///var/run/docker.sock" then
        ["      On macOS/Linux: Check if Docker Desktop is running";
         "      On Linux: Try 'sudo systemctl start docker'"]
      else if Contains msg "npipe" || Contains msg "windows" then
        ["      On Windows: Check if Docker Desktop is running"]
      else []).

(** ** Explaining an error *)

Definition failure_hint (detail : string) : list string :=
  let hint := composeStderrHint detail in
  if bool_decide (hint <> "") then ["  Hint: " +:+ hint]
  else ["  Hint: Docker Compose operation failed";
        "        Check your compose files and Docker daemon status"].

Definition child_lines (child : error) : list string :=
  let contextName := default "" (errors_As as_Context child) in
  if IsAborted (Some child) then
    [if bool_decide (contextName <> "")
     then Sprintf "context %s: aborted: another context failed" [contextName]
     else "aborted: another context failed"]
  else
    let detail := DeepestMessage (Some child) in
    (if bool_decide (contextName <> "") then Sprintf "context %s: %s" [contextName; detail] else detail)
    :: failure_hint detail.

Definition printMultiErrorDetail (multi : list error) : list string := multi ≫= child_lines.

Definition printUserFriendly (verbose : bool) (err : error) : list string :=
  match errors_As as_E err with
  | None => ["Error: " +:+ Error err]
  | Some (_, cause, msg) =>
      let external := IsKind (Some err) External in
      let multi := cause ≫= errors_As as_Multi in
      (if external then
         (if bool_decide (msg <> "") then ["Error: " +:+ msg] else [])
         ++ match multi, cause with
            | Some es, _ => printMultiErrorDetail es
            | None, Some c => [DeepestMessage (Some c)]
            | None, None => []
            end
       else [if bool_decide (msg <> "") then "Error: " +:+ msg else "Error: " +:+ Error err])
      ++ (if verbose then ["Detail: " +:+ Error err] else [])
      ++ (if IsKind (Some err) Unavailable then provideDockerTroubleshootingHints err
          else if external then
            match multi with None => provideExternalErrorHints err | Some _ => [] end
          else [])
  end.

(** ** Execute *)

(** The command that the arguments name; the closing of its log; the removal of the ssh
    wrapper; whether the run was interrupted; a line on the standard error. *)
Inductive root_op : Type := RunCommand | CloseLog | TeardownMux | Interrupted | Eprint (line : string).
Canonical Structure root_effect : Effect := mkEffect root_op (fun o => match o with
  | RunCommand => option error
  | Interrupted => bool
  | _ => unit
  end).

Section Execute.
(** The errors that are [context.Canceled] itself. *)
Context (is_Canceled : error -> bool).

(** [errors.Is(err, context.Canceled)] *)
Definition canceled (err : error) : bool :=
  bool_decide (is_Some (errors_As (fun e => if is_Canceled e then Some tt else None) err)).

Definition exit_code (err : error) : nat :=
  if IsKind (Some err) InvalidInput then 2
  else if IsKind (Some err) Unavailable || IsKind (Some err) Timeout then 69
  else if IsKind (Some err) External then 70 else 1.

Definition Execute (verbose : bool) : tree root_effect nat :=
  err ← do_op RunCommand;
  _ ← do_op CloseLog;
  _ ← do_op TeardownMux;
  match (err : option error) with
  | Some err =>
      if canceled err then mret 130 else
      _ ← for_each (fun _ line => do_op (Eprint line)) tt (printUserFriendly verbose err);
      mret (exit_code err)
  | None =>
      interrupted ← do_op Interrupted;
      mret (if (interrupted : bool) then 130 else 0)
  end.
End Execute.

(** ** The start of a command, and of the program *)

(** The flags of the root command. *)
Record RootFlags := mkRootFlags {
  rf_verbose : bool; rf_level : string; rf_format : string; rf_logFile : string; rf_noColor : bool }.

(** The logger of a run; the second part is the file to close. *)
Definition PersistentPreRunE (is_tty : destination -> bool) (openFile : string -> res unit)
    (fl : RootFlags) (runID commandPath : string) : res (Logger * option string) :=
  let primaryOut := if rf_verbose fl then ToStderr else ToDiscard in
  match NewLogger is_tty openFile (mkOptions primaryOut (rf_level fl) (rf_format fl) (rf_noColor fl) (rf_logFile fl) None) with
  | Err e => Err e
  | Ok (l, closer) =>
      let l := With l [Str "run_id"; Str runID] in
      let l := With l [Str "command"; Str commandPath] in
      Ok (l, closer)
  end.

(** What the process does: it becomes another program, or runs and exits. *)
Inductive outcome := Became (path : string) (argv : list string) | Failed (line : string) (code : nat)
| Exits (run : tree root_effect nat).

Definition main (h : Host) (os_Mode : string -> Z) (is_Canceled : error -> bool) (verbose : bool)
    (arg0 : string) (args : list string) : outcome :=
  if ShouldRunAsShim arg0 then
    match SshMux.Run h os_Mode arg0 args with
    | Ok (path, argv) => Became path argv
    | Err e => Failed (Error e) 255
    end
  else Exits (Execute is_Canceled verbose).

(** ** Version ([buildinfo], [versioncmd]) *)

(** Set when the program is built. *)
Record BuildInfo := mkBuild {
  bi_version : string; bi_commit : string; bi_date : string; bi_builtBy : string; bi_goVersion : string }.

Definition VersionSimple (b : BuildInfo) : string :=
  if bool_decide (bi_commit b = "") then bi_version b else
  bi_version b +:+ " (" +:+ (if 7 <=? String.length (bi_commit b) then String.substring 0 7 (bi_commit b) else bi_commit b)
  +:+ ")".

Definition VersionDetailed (b : BuildInfo) : string :=
  if bool_decide (bi_commit b = "") then bi_version b else
  bi_version b +:+ " (" +:+ bi_commit b
  +:+ (if bool_decide (bi_date b <> "") then ", " +:+ bi_date b else "")
  +:+ (if bool_decide (bi_builtBy b <> "") then ", " +:+ bi_builtBy b else "") +:+ ")".

(** [runtimeVersion], [os], [arch]: those of the running program. *)
Definition version_lines (b : BuildInfo) (runtimeVersion os arch : string) : list string :=
  let tab := String "009" "" in
  let goVer := if bool_decide (bi_goVersion b = "") then runtimeVersion else bi_goVersion b in
  let commit := if bool_decide (bi_commit b = "") then "<unknown>" else bi_commit b in
  let built := if bool_decide (bi_date b = "") then "<unknown>" else bi_date b in
  let built := if bool_decide (bi_builtBy b <> "") && bool_decide (built <> "<unknown>")
               then built +:+ " (" +:+ bi_builtBy b +:+ ")" else built in
  ["Dockform"; " Version:" +:+ tab +:+ bi_version b; " Go version:" +:+ tab +:+ goVer;
   " Git commit:" +:+ tab +:+ commit; " Built:" +:+ tab +:+ tab +:+ built;
   " OS/Arch:" +:+ tab +:+ os +:+ "/" +:+ arch].

(** ** Properties *)

Definition printed (lines : list string) : list (obs root_effect) := (fun l => Obs (E := root_effect) (Eprint l) tt) <$> lines.

Lemma print_lines lines :
  wp (for_each (fun _ line => do_op (E := root_effect) (Eprint line)) tt lines) (fun t _ => t = printed lines).
Proof.
  induction lines as [|l lines IH]; [by apply wp_ret|]. apply wp_bind. wp_doop. intros [].
  eapply wp_mono; [exact IH|]. by intros t [] ->.
Qed.

(** The answer of the first operation, when it asked for an interruption. *)
Definition interrupted_in (t : list (obs root_effect)) : bool :=
  match t with
  | Obs e r :: _ => match e as e return answer (e : root_effect) -> bool with Interrupted => id | _ => fun _ => false end r
  | [] => false
  end.

(** *** What an error says *)

Definition is_E (e : error) : Prop := match e with E _ _ _ _ => True | _ => False end.
Definition is_Multi (e : error) : Prop := match e with MultiError _ => True | _ => False end.
Definition is_Aborted (e : error) : Prop := match e with AbortedError _ _ => True | _ => False end.
(** Somewhere in what an error wraps. *)
Definition carries (P : error -> Prop) (e : error) : Prop := exists d, in_chain e d /\ P d.

(** The messages along the causes, the outermost first. *)
Inductive messages : error -> list string -> Prop :=
| messages_none e : ~ carries is_E e -> messages e []
| messages_last e op k m : first is_E e (E op k None m) -> messages e [m]
| messages_more e op k c m ms : first is_E e (E op k (Some c) m) -> messages c ms -> messages e (m :: ms).
(** The innermost message that is not empty; the whole text when there is none. *)
Definition tells (e : error) (d : string) : Prop :=
  exists ms, messages e ms /\ d = default (Error e) (last (filter (fun m => m <> "") ms)).

(** What is printed about an error.  One that is not the program's own is shown as it
    is.  Of the others the first line is the outermost message (the whole text when
    there is none), and after it come: when an outside program failed, the innermost
    message of the cause, or, when several contexts failed, a line for each that ends
    with its innermost message or says that it was aborted; the whole text when verbose;
    a hint when the daemon was not reached.  A failure of an outside program without
    any message begins with its cause. *)
Definition explains (verbose : bool) (e : error) (lines : list string) : Prop :=
  (~ carries is_E e -> lines = ["Error: " +:+ Error e])
  /\ forall op k cause m, first is_E e (E op k cause m) ->
     (m <> "" -> head lines = Some ("Error: " +:+ m))
     /\ (m = "" -> k <> External -> head lines = Some ("Error: " +:+ Error e))
     /\ (forall c, k = External -> cause = Some c -> ~ carries is_Multi c -> exists d, tells c d /\ d ∈ lines)
     /\ (forall c es child, k = External -> cause = Some c -> first is_Multi c (MultiError es) -> child ∈ es ->
          exists line, line ∈ lines
            /\ (carries is_Aborted child -> exists pre, line = pre +:+ "aborted: another context failed")
            /\ (~ carries is_Aborted child -> exists pre d, tells child d /\ line = pre +:+ d))
     /\ (verbose = true -> "Detail: " +:+ Error e ∈ lines)
     /\ (k = Unavailable ->
          nl +:+ "Hint: Is the Docker daemon running and reachable from the selected context?" ∈ lines).

(** The status a failure exits with. *)
Definition status_of (e : error) (code : nat) : Prop :=
  (~ carries is_E e -> code = 1)
  /\ forall op k cause m, first is_E e (E op k cause m) ->
     code = match k with InvalidInput => 2 | Unavailable | Timeout => 69 | External => 70 | _ => 1 end.

Lemma first_carries P e d : first P e d -> in_chain e d /\ P d.
Proof.
  induction 1 as [e He|e es1 c es2 d _ Hu _ _ [Hc Hp]]; [by split; [constructor|]|].
  split; [|done]. eapply chain_below; [|exact Hc]. rewrite Hu. set_solver.
Qed.

Lemma first_iff (P Q : error -> Prop) e d : (forall d, P d <-> Q d) -> first P e d -> first Q e d.
Proof.
  intros HPQ. induction 1 as [e He|e es1 c es2 d He Hu Hn _ IH]; [constructor; by apply HPQ|].
  eapply first_below; [by rewrite <- HPQ|exact Hu| |exact IH].
  eapply Forall_impl; [exact Hn|]. intros c' Hc d' Hd'. rewrite <- HPQ. by apply Hc.
Qed.

Lemma carries_As {T} (P : error -> Prop) (f : error -> option T) e : (forall d, is_Some (f d) <-> P d) ->
  carries P e <-> is_Some (errors_As f e).
Proof. intros Hf. rewrite errors_As_is_Some. unfold carries. by setoid_rewrite Hf. Qed.

Lemma as_E_is d : is_Some (as_E d) <-> is_E d.
Proof. destruct d; cbn; rewrite is_Some_alt; naive_solver. Qed.
Lemma match_E_is d : is_Some (match_E d) <-> is_E d.
Proof. destruct d; cbn; rewrite is_Some_alt; naive_solver. Qed.
Lemma as_Multi_is d : is_Some (as_Multi d) <-> is_Multi d.
Proof. destruct d; cbn; rewrite is_Some_alt; naive_solver. Qed.
Lemma match_Aborted_is d : is_Some (match_Aborted d) <-> is_Aborted d.
Proof. destruct d; cbn; rewrite is_Some_alt; naive_solver. Qed.

Lemma no_E e : errors_As as_E e = None -> ~ carries is_E e.
Proof. intros He. rewrite (carries_As _ _ _ as_E_is), He. by intros [? [=]]. Qed.

(** The kind asked for is that of the first of the program's own errors. *)
Lemma IsKind_first e op k cause m k' : first is_E e (E op k cause m) -> IsKind (Some e) k' = bool_decide (k = k').
Proof.
  intros Hd. unfold IsKind. destruct (errors_As match_E e) as [[k1 m1]|] eqn:He.
  - apply errors_As_first in He as (d & Hd' & Hm). apply (first_iff _ _ _ _ match_E_is) in Hd'.
    rewrite (first_unique _ _ _ _ Hd' Hd) in Hm. by injection Hm as -> ->.
  - exfalso. assert (carries is_E e) as Hc by (eexists; by apply first_carries).
    rewrite (carries_As _ _ _ match_E_is), He in Hc. by destruct Hc.
Qed.

Lemma exit_code_status e : status_of e (exit_code e).
Proof.
  split.
  - intros Hn. unfold exit_code, IsKind. destruct (errors_As match_E e) eqn:He; [|done].
    destruct Hn. by rewrite (carries_As _ _ _ match_E_is), He.
  - intros op k cause m Hd. unfold exit_code. rewrite !(IsKind_first _ _ _ _ _ _ Hd). by destruct k.
Qed.

(** The messages of the first cause that has any are those of the error. *)
Lemma messages_below e es1 c es2 ms : ~ is_E e -> Unwrap e = es1 ++ c :: es2 -> Forall (fun c => ~ carries is_E c) es1 ->
  carries is_E c -> messages c ms -> messages e ms.
Proof.
  intros He Hu Hes Hc Hm.
  assert (forall d, first is_E c d -> first is_E e d) as Hlift.
  { intros d Hd. eapply first_below; [done|exact Hu| |done]. eapply Forall_impl; [exact Hes|].
    intros c' Hc' d' ? ?. apply Hc'. by exists d'. }
  destruct Hm; [done|eapply messages_last, Hlift; done|eapply messages_more; [by apply Hlift|done]].
Qed.
Lemma carries_below P e : ~ P e -> (forall c, c ∈ Unwrap e -> ~ carries P c) -> ~ carries P e.
Proof.
  intros He Hn (x & Hx & HP). inversion Hx as [|? c ? Hc Hcx]; subst; [done|]. apply (Hn c Hc). by exists x.
Qed.
Lemma messages_silent e ms : ~ carries is_E e -> messages e ms -> ms = [].
Proof.
  intros He Hm. inversion Hm as [|? ? ? ? Hd|? ? ? ? ? ? Hd]; subst; [done|..];
    apply first_carries in Hd; destruct He; eexists; exact Hd.
Qed.
Lemma messages_wrapped e c ms : ~ is_E e -> Unwrap e = [c] -> messages c ms -> messages e ms.
Proof.
  intros He Hu Hm. destruct (errors_As as_E c) as [x|] eqn:Hc.
  - eapply (messages_below e []); [done|exact Hu|constructor| |done].
    apply (carries_As _ _ _ as_E_is). by rewrite Hc.
  - apply no_E in Hc. rewrite (messages_silent _ _ Hc Hm). apply messages_none, carries_below; [done|].
    rewrite Hu. by intros c' ->%list_elem_of_singleton.
Qed.

Lemma deepest_messages e :
  exists ms, messages e ms /\ forall l, deepest_from l e = default l (last (filter (fun m => m <> "") ms)).
Proof.
  induction e as [e IH] using error_tree_ind.
  destruct e as [op k [c|] m|n [c|]|n [c|]|es|t|t c];
    try (destruct (IH c) as (ms & Hm & Hl); [left|]; exists ms; split; [by eapply messages_wrapped; [intros []|done|exact Hm]|exact Hl]);
    try (exists []; split; [apply messages_none, carries_below; [intros []|by intros c ?%elem_of_nil]|done]).
  - destruct (IH c) as (ms & Hm & Hl); [left|]. exists (m :: ms). split; [by eapply messages_more; [constructor|]|].
    intros l. simpl deepest_from. rewrite Hl, filter_cons. destruct (decide (m <> "")) as [Hne|Heq].
    + rewrite bool_decide_true by done. by rewrite last_cons; destruct (last _).
    + by rewrite bool_decide_false by done.
  - exists [m]. split; [by eapply messages_last; constructor|]. intros l. simpl. rewrite filter_cons.
    by destruct (decide (m <> "")); [rewrite bool_decide_true by done|rewrite bool_decide_false by done].
  - assert (forall es1 es2, es = es1 ++ es2 -> Forall (fun c => ~ carries is_E c) es1 -> exists ms,
      messages (MultiError es) ms /\ forall l, (fix first (l' : list error) : string := match l' with
         | [] => l | c :: l' => if bool_decide (is_Some (errors_As match_E c)) then deepest_from l c else first l' end) es2
      = default l (last (filter (fun m => m <> "") ms))) as Hes; [|by apply (Hes [] es)].
    intros es1 es2. revert es1. induction es2 as [|c es2 IH2]; intros es1 -> Hn.
    + exists []. split; [|done]. apply messages_none, carries_below; [intros []|]. cbn. rewrite app_nil_r.
      intros c Hc. rewrite Forall_forall in Hn. by apply Hn.
    + destruct (errors_As match_E c) as [x|] eqn:Hc.
      * destruct (IH c) as (ms & Hm & Hl); [cbn; set_solver|]. exists ms. split; [|intros l; by rewrite bool_decide_true].
        eapply messages_below; [..|exact Hm]; [intros []|done|done|]. apply (carries_As _ _ _ match_E_is). by rewrite Hc.
      * destruct (IH2 (es1 ++ [c])) as (ms & Hm & Hl); [by rewrite <- app_assoc|..].
        -- apply Forall_app. split; [done|]. constructor; [|constructor].
           rewrite (carries_As _ _ _ match_E_is), Hc. by intros [? [=]].
        -- exists ms. split; [done|]. intros l. rewrite bool_decide_false by (by intros [? [=]]). apply Hl.
Qed.

Lemma DeepestMessage_tells e : tells e (DeepestMessage (Some e)).
Proof.
  destruct (deepest_messages e) as (ms & Hm & Hl). exists ms. split; [done|]. unfold DeepestMessage. rewrite Hl.
  destruct (last _) as [d|] eqn:Hd; cbn; [|rewrite bool_decide_false; [done|intros Hx; by apply Hx]].
  apply last_Some_elem_of, list_elem_of_filter in Hd as [Hne _]. by rewrite bool_decide_true.
Qed.

Lemma child_explained child : exists line, line ∈ child_lines child
  /\ (carries is_Aborted child -> exists pre, line = pre +:+ "aborted: another context failed")
  /\ (~ carries is_Aborted child -> exists pre d, tells child d /\ line = pre +:+ d).
Proof.
  unfold child_lines, IsAborted. set (n := default "" _). case_bool_decide as Ha.
  - rewrite <- (carries_As _ _ _ match_Aborted_is) in Ha. eexists. split; [apply list_elem_of_here|]. split; [intros _|by intros []].
    case_bool_decide; [|by exists ""]. exists ("context " +:+ n +:+ ": ").
    change (Sprintf _ _) with ("context " +:+ n +:+ ": aborted: another context failed").
    by rewrite !string_app_assoc.
  - rewrite <- (carries_As _ _ _ match_Aborted_is) in Ha. eexists. split; [apply list_elem_of_here|]. split; [intros Hx; by destruct (Ha Hx)|intros _].
    destruct (bool_decide (n <> "")); eexists _, (DeepestMessage (Some child)); (split; [apply DeepestMessage_tells|]).
    + instantiate (1 := "context " +:+ n +:+ ": "). 
      change (Sprintf _ _) with ("context " +:+ n +:+ ": " +:+ DeepestMessage (Some child) +:+ "").
      by rewrite string_app_nil_r, !string_app_assoc.
    + by instantiate (1 := "").
Qed.

Lemma printUserFriendly_explains verbose e : explains verbose e (printUserFriendly verbose e).
Proof.
  unfold printUserFriendly. destruct (errors_As as_E e) as [[[k cause] m]|] eqn:He.
  2: { apply no_E in He. split; [done|]. intros op k cause m Hd%first_carries. destruct He. eexists; exact Hd. }
  apply errors_As_first in He as (d & Hd & Hm). apply (first_iff _ _ _ _ as_E_is) in Hd.
  destruct d as [op k' cause' m'| | | | |]; [injection Hm as -> -> ->|done..]. rewrite !(IsKind_first _ _ _ _ _ _ Hd).
  split; [intros []; apply first_carries in Hd; eexists; exact Hd|].
  intros op2 k2 cause2 m2 Hd2. pose proof (first_unique _ _ _ _ Hd Hd2) as [= <- <- <- <-]. clear Hd2.
  split_and!.
  - intros Hne. rewrite (bool_decide_true (m <> "")) by done. by destruct (bool_decide (k = External)).
  - intros -> Hk. by rewrite (bool_decide_false (k = External)).
  - intros c -> -> Hn. rewrite (bool_decide_true (External = External)) by done. exists (DeepestMessage (Some c)).
    split; [apply DeepestMessage_tells|]. cbn [mbind option_bind]. destruct (errors_As as_Multi c) eqn:Hc.
    + destruct Hn. apply (carries_As _ _ _ as_Multi_is). by rewrite Hc.
    + set_solver.
  - intros c es child -> -> Hes Hchild. rewrite (bool_decide_true (External = External)) by done. cbn [mbind option_bind].
    destruct (errors_As as_Multi c) as [es'|] eqn:Hc.
    + apply errors_As_first in Hc as (d & Hd' & Hes'). apply (first_iff _ _ _ _ as_Multi_is) in Hd'.
      rewrite (first_unique _ _ _ _ Hd' Hes) in Hes'. injection Hes' as ->.
      destruct (child_explained child) as (line & Hl & Hx). exists line. split; [|exact Hx].
      apply elem_of_app. left. apply elem_of_app. right. apply list_elem_of_bind. by exists child.
    + exfalso. assert (carries is_Multi c) as Hm' by (eexists; by apply first_carries).
      rewrite (carries_As _ _ _ as_Multi_is), Hc in Hm'. by destruct Hm'.
  - intros ->. set_solver.
  - intros ->. rewrite (bool_decide_true (Unavailable = Unavailable)) by done. set_solver.
Qed.

Lemma canceled_iff is_Canceled e : canceled is_Canceled e = true <-> carries (fun d => is_Canceled d = true) e.
Proof.
  unfold canceled. rewrite bool_decide_eq_true. symmetry. apply carries_As. intros d. cbn.
  destruct (is_Canceled d); rewrite is_Some_alt; naive_solver.
Qed.

(** C31: How a run ends.  Whatever the command did, its log is closed and the ssh wrapper
    removed before the program exits.  The exit status is zero exactly when the
    command succeeded and was not interrupted.  It is 130, and nothing is explained,
    when a successful run was interrupted and when the error wraps a cancellation
    anywhere: a failure of a fail-fast run that aborted other contexts wraps theirs, and
    ends this way too (root.go:48).  Every other failure is explained: by the outermost
    message, or the whole text when that is empty (but for an outside program's failure,
    which is then told by its cause alone); then, for an outside program's failure, by
    the innermost message of the cause, or by a line for each failed context; by the
    whole text when verbose, and a hint when the daemon was not reached.  The status is
    2, 69, 70 or 1 by the kind of the first of the program's own errors it wraps (not
    of any in the chain, as the comment at apperr.go:63 says). *)
Theorem Execute_exits is_Canceled verbose :
  wp (Execute is_Canceled verbose) (fun t code => exists err rest,
    t = [Obs (E := root_effect) RunCommand err; Obs (E := root_effect) CloseLog tt;
         Obs (E := root_effect) TeardownMux tt] ++ rest
    /\ (code = 0 <-> err = None /\ rest = [Obs (E := root_effect) Interrupted false])
    /\ (code = 130 <-> err = None /\ rest = [Obs (E := root_effect) Interrupted true]
                       \/ exists e, err = Some e /\ carries (fun d => is_Canceled d = true) e /\ rest = [])
    /\ forall e, err = Some e -> ~ carries (fun d => is_Canceled d = true) e ->
         exists lines, rest = printed lines /\ explains verbose e lines /\ status_of e code).
Proof.
  unfold Execute. apply wp_bind. wp_doop. intros err. apply wp_bind. wp_doop. intros []. apply wp_bind. wp_doop. intros [].
  destruct err as [e|].
  - destruct (canceled is_Canceled e) eqn:Hc.
    + apply canceled_iff in Hc. apply wp_ret. exists (Some e), []. split_and!; [done|..].
      * split; [done|]. by intros [? _].
      * split; [intros _; right; by exists e|done].
      * by intros e' [= <-] [].
    + apply not_true_iff_false in Hc. rewrite canceled_iff in Hc.
      apply wp_bind. eapply wp_mono; [apply print_lines|]. intros t [] ->. apply wp_ret.
      exists (Some e), (printed (printUserFriendly verbose e)). rewrite app_nil_r. split_and!; [done|..].
      * split; [by unfold exit_code; repeat case_match|]. by intros [? _].
      * split; [by unfold exit_code; repeat case_match|]. by intros [[? _]|(e' & [= <-] & ? & _)].
      * intros e' [= <-] _. eexists. split_and!; [done|apply printUserFriendly_explains|apply exit_code_status].
  - apply wp_bind. wp_doop. intros i. apply wp_ret. eexists None, [_]. split_and!; [done| | |done].
    + split; [by destruct i|]. intros [_ Hi]. apply (f_equal interrupted_in) in Hi. simpl in Hi. by subst i.
    + split; [destruct i; [by left|done]|]. intros [[_ Hi]|(e & ? & _)]; [|done].
      apply (f_equal interrupted_in) in Hi. simpl in Hi. by subst i.
Qed.

(** ** The report of a run across contexts *)

(** The lines on the failure of a context: its own message and a hint. *)
Definition failure_lines (r : ContextResult) : list string :=
  let detail := DeepestMessage (Some (ContextError (cr_ContextName r) (Some (cr_Err r)))) in
  Sprintf "context %s: %s" [cr_ContextName r; detail] :: failure_hint detail.
Definition aborted_line (r : ContextResult) : string :=
  Sprintf "context %s: aborted: another context failed" [cr_ContextName r].

Lemma child_failed r : cr_ContextName r <> "" -> IsAborted (Some (cr_Err r)) = false ->
  child_lines (ContextError (cr_ContextName r) (Some (cr_Err r))) = failure_lines r.
Proof.
  intros Hn Ha. unfold child_lines, failure_lines. simpl errors_As. simpl default.
  change (IsAborted (Some (ContextError (cr_ContextName r) (Some (cr_Err r))))) with (IsAborted (Some (cr_Err r))).
  by rewrite Ha, bool_decide_true.
Qed.

Lemma child_aborted r : cr_ContextName r <> "" ->
  child_lines (ContextError (cr_ContextName r) (Some (AbortedError (cr_ContextName r) (Some (cr_Err r))))) = [aborted_line r].
Proof. intros Hn. unfold child_lines. simpl. by rewrite bool_decide_true. Qed.

(** An external error with several causes is its message and theirs. *)
Lemma print_multi verbose op es msg : msg <> "" ->
  printUserFriendly verbose (E op External (Some (MultiError es)) msg)
  = (["Error: " +:+ msg] ++ (es ≫= child_lines))
    ++ (if verbose then ["Detail: " +:+ Error (E op External (Some (MultiError es)) msg)] else []).
Proof.
  intros Hm. unfold printUserFriendly. simpl errors_As. cbv iota beta.
  rewrite (bool_decide_true (msg <> "")) by done.
  change (IsKind (Some (E op External (Some (MultiError es)) msg)) External) with true.
  change (IsKind (Some (E op External (Some (MultiError es)) msg)) Unavailable) with false.
  simpl. by rewrite app_nil_r.
Qed.

(** A failed run across contexts is explained context by context.  When a fail-fast run
    ends with several errors, the report names the contexts in order: the one that
    failed first with its own innermost message and a hint that goes with it, every
    other as aborted, without a hint; nothing is left out and nothing else blamed. *)
Theorem failfast_report first rest verbose :
  rest <> [] -> NoDup (cr_ContextName <$> first :: rest) ->
  IsAborted (Some (cr_Err first)) = false ->
  Forall (fun r => cr_ContextName r <> "") (first :: rest) ->
  exists e msg, conclude FailFast true (first :: rest) = Some e
    /\ printUserFriendly verbose e
       = (["Error: " +:+ msg]
          ++ (sort_results (first :: rest) ≫= fun r =>
                if bool_decide (cr_ContextName r = cr_ContextName first) then failure_lines r else [aborted_line r]))
         ++ (if verbose then ["Detail: " +:+ Error e] else []).
Proof.
  intros Hne Hnd Ha Hnames. destruct (conclude_failfast_shape first rest Hne Hnd Ha) as (msg & -> & Hpre).
  eexists _, msg. split; [done|]. rewrite print_multi.
  2: { intros ->. vm_compute in Hpre. done. }
  f_equal. f_equal.
  assert (Hrs : forall r, r ∈ sort_results (first :: rest) -> cr_ContextName r <> ""
    /\ (cr_ContextName r = cr_ContextName first -> IsAborted (Some (cr_Err r)) = false)).
  { intros r Hr. rewrite sort_results_perm in Hr. rewrite Forall_forall in Hnames. split; [by apply Hnames|].
    intros Heq. apply elem_of_cons in Hr as [->|Hr]; [done|]. rewrite fmap_cons in Hnd. apply NoDup_cons in Hnd as [Hni _].
    destruct Hni. rewrite <- Heq. by apply list_elem_of_fmap_2. }
  revert Hrs. generalize (sort_results (first :: rest)) as rs. clear.
  intros rs. induction rs as [|r rs IH]; intros Hrs; [done|]. rewrite fmap_cons, !bind_cons.
  rewrite IH by (intros x Hx; apply Hrs; by right). f_equal. destruct (Hrs r) as [Hn Ha]; [left|].
  unfold classified. case_bool_decide as Heq; [by apply child_failed, Ha|by apply child_aborted].
Qed.

(** *** Examples *)

(** A context that never answered, and one that failed. *)
Definition refused : ContextResult := mkCtxResult "web" (New "docker.exec" External "pull access denied for app" []).
Definition cut_short : ContextResult := mkCtxResult "db" (Plain "context canceled").

Lemma failfast_report_witness :
  exists e msg, conclude FailFast true [refused; cut_short] = Some e
    /\ printUserFriendly false e = ["Error: " +:+ msg; "context db: aborted: another context failed";
         "context web: pull access denied for app";
         "  Hint: Registry authentication problem. Check your credentials (docker login) and image access permissions."].
Proof.
  destruct (failfast_report refused [cut_short] false) as (e & msg & He & Hp).
  - done.
  - by apply (bool_decide_unpack _).
  - done.
  - by repeat constructor.
  - exists e, msg. split; [exact He|]. rewrite Hp. by vm_compute.
Defined.

(** An aborted context keeps the cancellation that ended it inside its error, so the
    report above is not shown: the whole run counts as interrupted by the user. *)
Definition sentinel (e : error) : bool := match e with Plain t => bool_decide (t = "context canceled") | _ => false end.
Example failure_taken_for_interrupt : exists e, conclude FailFast true [refused; cut_short] = Some e
  /\ canceled sentinel e = true /\ IsKind (Some e) External = true.
Proof. eexists. split; [reflexivity|]. by vm_compute. Qed.

(** The wrong image is named; a missing network is no missing image. *)
Example hints_specific :
  composeStderrHint "manifest for app:1.x not found" =
    "Image " +:+ dq +:+ "app:1.x" +:+ dq +:+ " does not exist in the registry (or the tag is wrong). Check the image name and tag."
  /\ composeStderrHint "network foo not found" = ""
  /\ composeStderrHint "pull access denied for app, repository does not exist" =
       "Registry authentication problem. Check your credentials (docker login) and image access permissions.".
Proof. by vm_compute. Qed.
