(* ===== verification/RunContext.v ===== *)
(** * What a run carries in its contexts ([internal/logger]: [WithContext],
    [FromContext]; [internal/cli]: [closeLogCloser], [TeardownSSHMux])

    The logger, the log file to close and the ssh wrapper to remove travel as values
    of Go contexts: the first in the context of the command, the others in that of the
    root command, where [Execute] looks for them when the command has returned. *)

From S2P Require Import Prelude GoStrings GoPath Apperr Util Manifest Sha256 Filesets Effects Docker SshMux Logger Root.

(** ** Contexts with values *)

Inductive ctx_key := ctxKey | logCloserKey | sshMuxKey.
#[global] Instance ctx_key_eq_dec : EqDecision ctx_key.
Proof. solve_decision. Defined.
Inductive ctx_value := ALogger (l : Logger) | ACloser (file : string) | AManager.

(** The context of the process, and one with a value more. *)
Inductive value_context := BaseContext | WithValue (parent : value_context) (key : ctx_key) (v : ctx_value).
Fixpoint Value (c : value_context) (key : ctx_key) : option ctx_value :=
  match c with
  | BaseContext => None
  | WithValue parent k v => if bool_decide (k = key) then Some v else Value parent key
  end.

Definition WithContext (c : value_context) (l : Logger) : value_context := WithValue c ctxKey (ALogger l).
Definition Nop : Logger := nopLogger.
(** [None] is a nil context. *)
Definition FromContext (c : option value_context) : Logger :=
  match c with
  | None => Nop
  | Some c => match Value c ctxKey with Some (ALogger l) => l | _ => Nop end
  end.

(** [rand]: six random bytes, unless the system has none. *)
Definition NewRunID (rand : res (list Z)) : string :=
  match rand with Err _ => "run-000000" | Ok b => hex b end.

(** ** The commands of cobra *)

(** The contexts of the root command and of the one that runs, which starts with the
    root's. *)
Record run_contexts := mkRun { rc_root : value_context; rc_cmd : value_context }.
Definition ExecuteContext (c : value_context) : run_contexts := mkRun c c.

(** [PersistentPreRunE] stores what it made. *)
Definition pre_run (is_tty : destination -> bool) (openFile : string -> res unit) (fl : RootFlags)
    (runID commandPath : string) (st : run_contexts) : res run_contexts :=
  match PersistentPreRunE is_tty openFile fl runID commandPath with
  | Err e => Err e
  | Ok (l, closer) =>
      let root := match closer with Some f => WithValue (rc_root st) logCloserKey (ACloser f) | None => rc_root st end in
      Ok (mkRun root (WithContext (rc_cmd st) l))
  end.

(** [ActivateSSHMux], when the wrapper was set up. *)
Definition keep_manager (st : run_contexts) : run_contexts :=
  mkRun (WithValue (rc_root st) sshMuxKey AManager) (rc_cmd st).

(** The file that is closed. *)
Definition closeLogCloser (st : run_contexts) : option string :=
  match Value (rc_root st) logCloserKey with Some (ACloser f) => Some f | _ => None end.
(** Whether a wrapper is removed. *)
Definition TeardownSSHMux (st : run_contexts) : bool :=
  match Value (rc_root st) sshMuxKey with Some AManager => true | _ => false end.

(** The context of the work under a display: its records go to the log as before, and
    to the display. *)
Definition display_values (c : value_context) : value_context :=
  WithContext c (Fanout [FromContext (Some c); displayLogger []]).

(** ** Properties *)

(** Everything that was opened is found again.  However often the ssh wrapper is set up
    after the logger, the file that is closed in the end is the one the logger writes
    to, if any, the wrapper is removed exactly if there is one, and the work logs with
    the identity of the run; when the logger cannot be made nothing is left open. *)
Theorem run_released is_tty openFile fl runID path n :
  match pre_run is_tty openFile fl runID path (ExecuteContext BaseContext) with
  | Err e => PersistentPreRunE is_tty openFile fl runID path = Err e
             /\ closeLogCloser (ExecuteContext BaseContext) = None /\ TeardownSSHMux (ExecuteContext BaseContext) = false
  | Ok st =>
      let st := Nat.iter n keep_manager st in
      exists l closer, PersistentPreRunE is_tty openFile fl runID path = Ok (l, closer)
        /\ closeLogCloser st = closer /\ TeardownSSHMux st = (0 <? n)
        /\ FromContext (Some (rc_cmd st)) = l
        /\ (closer = None \/ closer = Some (rf_logFile fl))
  end.
Proof.
  unfold pre_run. destruct (PersistentPreRunE _ _ _ _ _) as [[l closer]|e] eqn:Hp; [|done]. cbv zeta.
  assert (closer = None \/ closer = Some (rf_logFile fl)) as Hcl.
  { unfold PersistentPreRunE, NewLogger in Hp. cbn in Hp. repeat case_match; simplify_eq; auto. }
  exists l, closer. split; [done|]. induction n as [|n IH]; cbn [Nat.iter].
  - destruct closer; split_and!; done.
  - destruct IH as (IH1 & _ & IH3 & _). split_and!; done.
Qed.

(** What is logged under a display is logged as without it, and shown. *)
Lemma display_logs c lvl msg kv :
  emit (FromContext (Some (display_values c))) lvl msg kv
  = emit (FromContext (Some c)) lvl msg kv ++ emit (displayLogger []) lvl msg kv.
Proof.
  change (FromContext (Some (display_values c))) with (Fanout [FromContext (Some c); displayLogger []]).
  rewrite emit_Fanout, !bind_cons. f_equal. apply app_nil_r.
Qed.

(** Twelve digits, or the fixed name. *)
Lemma NewRunID_shape rand : (forall b, rand = Ok b -> length b = 6) ->
  NewRunID rand = "run-000000" \/ String.length (NewRunID rand) = 12.
Proof.
  intros Hb. destruct rand as [b|e]; [|by left]. right. specialize (Hb b eq_refl). cbn [NewRunID].
  do 6 (destruct b as [|? b]; [done|]). by destruct b.
Qed.

(** ** Signals ([cmd/dockform/main.go]) *)

(** The channel of the signals holds one; a goroutine waits for the first and cancels
    the context of the run.  The library drops a signal the channel has no room for. *)
Record signal_state := mkSignals { sg_buffered : bool; sg_waiting : bool; sg_cancelled : bool }.
Inductive signal_event := Arrives | GoroutineRuns.
Definition signal_step (st : signal_state) (e : signal_event) : signal_state :=
  match e with
  | Arrives => mkSignals true (sg_waiting st) (sg_cancelled st)
  | GoroutineRuns => if sg_waiting st && sg_buffered st then mkSignals false false true else st
  end.
Definition run_signals : list signal_event -> signal_state := foldl signal_step (mkSignals false true false).

Lemma cancelled_stays es b w : sg_cancelled (foldl signal_step (mkSignals b w true) es) = true.
Proof.
  revert b w. induction es as [|[] es IH]; intros b w; cbn; [done|apply IH|]. destruct (w && b); apply IH.
Qed.
Lemma signal_pending es : sg_cancelled (foldl signal_step (mkSignals true true false) es) = true <-> GoroutineRuns ∈ es.
Proof.
  induction es as [|[] es IH]; cbn; [split; [done|by intros ?%elem_of_nil]| |].
  - rewrite IH, elem_of_cons. naive_solver.
  - rewrite cancelled_stays. split; [left|done].
Qed.

(** The run is cancelled exactly when the goroutine runs after a signal has arrived.  A
    second signal changes nothing: it does not end the program either. *)
Lemma signals_cancel es : sg_cancelled (run_signals es) = true
  <-> exists es1 es2, es = es1 ++ es2 /\ Arrives ∈ es1 /\ GoroutineRuns ∈ es2.
Proof.
  unfold run_signals. induction es as [|[] es IH]; cbn.
  - split; [done|]. intros ([|? ?] & es2 & Heq & Ha & _); [by apply elem_of_nil in Ha|done].
  - rewrite signal_pending. split; [intros Hg; exists [Arrives], es; split_and!; [done|left|done]|].
    intros ([|e es1] & es2 & Heq & Ha & Hg); [by apply elem_of_nil in Ha|]. injection Heq as _ ->. set_solver.
  - rewrite IH. split; intros (es1 & es2 & Heq & Ha & Hg).
    + exists (GoroutineRuns :: es1), es2. subst es. split_and!; [done|by right|done].
    + destruct es1 as [|e es1]; [by apply elem_of_nil in Ha|]. injection Heq as <- ->. exists es1, es2.
      split_and!; [done|by apply elem_of_cons in Ha as [[=]|]|done].
Qed.
