(* ===== verification/Terminal.v ===== *)
(** * The terminal during a run ([internal/ui/rollinglog.go], [spinner.go], [progress.go])

    The block of the last log lines shown while a run works, as the machine its Update
    and View functions define; the lines the records of the logger become; and the
    protocol of the spinner.  The terminal library's truncation and styles are
    parameters; of the truncation it is assumed that it keeps to the width it is
    given. *)

From S2P Require Import Prelude GoStrings Util Logger.
From Stdlib Require Import Ascii.

(** ** A record as a line *)

(** Control characters would break the one-line display.  (The text is valid UTF-8, in
    which they are bytes of their own.) *)
Fixpoint sanitizeSingleLine (s : string) : string :=
  match s with
  | "" => ""
  | String c s =>
      (if (code c =? 10) || (code c =? 13) then "↵"
       else if code c <? 32 then " " else String c "") +:+ sanitizeSingleLine s
  end.

Definition displayNoiseKeys : list string := ["run_id"; "command"].
Definition Sprint (v : value) : string := match v with Str s => s | Other s => s end.

Section Display.
Context (levelStyle : Level -> string -> string) (keyStyle : string -> string).

Definition level_name (l : Level) : string :=
  match l with DebugLevel => "DEBUG" | InfoLevel => "INFO" | WarnLevel => "WARN" | ErrorLevel => "ERROR" end.

(** The loop over the pairs; [pendingStatus] waits for its action. *)
Fixpoint display_pairs (pendingStatus : string) (all : list value) : string :=
  match all with
  | k :: v :: rest =>
      match k with
      | Other _ => display_pairs pendingStatus rest
      | Str key =>
          let val := sanitizeSingleLine (Sprint v) in
          if bool_decide (key ∈ displayNoiseKeys) then display_pairs pendingStatus rest
          else if bool_decide (key = "status") then display_pairs val rest
          else if bool_decide (key = "action") then
            if bool_decide (pendingStatus <> "")
            then " " +:+ val +:+ "(" +:+ pendingStatus +:+ ")" +:+ display_pairs "" rest
            else display_pairs pendingStatus rest
          else
            let val := if existsb (fun c => (code c =? 32) || (code c =? 9)) (chars val) then dq +:+ val +:+ dq else val in
            " " +:+ keyStyle (key +:+ "=") +:+ val +:+ display_pairs pendingStatus rest
      end
  | _ => ""
  end.

(** [ts]: the time of day. *)
Definition display_line (ts : string) (lvl : Level) (msg : string) (keyvals : list value) : string :=
  ts +:+ " " +:+ levelStyle lvl (level_name lvl) +:+ " " +:+ sanitizeSingleLine msg +:+ display_pairs "" keyvals.
End Display.

(** ** The rolling block *)

Definition maxLogLines : nat := 5.

Inductive rl_state := stateRunning | stateFinal.

Record rl_model := mkRl {
  rl_st : rl_state; rl_width : Z; rl_logLines : list string; rl_finalReport : string;
  rl_statusLabel : string; rl_statusFrame : nat }.

Inductive rl_msg :=
| CtrlC | OtherKey | WindowSize (w : Z) | AppendLog (line : string) | StatusUpdate (label : string)
| StatusTick | Done (report : string) | InterruptedMsg | OtherMsg.

(** What an update asks for: a tick, the end, an attempt to signal the cancellation. *)
Inductive rl_cmd := TickCmd | QuitCmd | SignalCancel.

Definition interrupted_report : string := nl +:+ "│ Interrupted by user (Ctrl+C)" +:+ nl.

(** The last [n] of a list. *)
Definition last_n {A} (n : nat) (l : list A) : list A := drop (length l - n) l.

Definition rl_Update (m : rl_model) (msg : rl_msg) : rl_model * list rl_cmd :=
  let '(mkRl st width logLines report label frame) := m in
  match msg with
  | CtrlC => (m, [SignalCancel])
  | WindowSize w => (mkRl st w logLines report label frame, [])
  | AppendLog line =>
      let logLines := logLines ++ [line] in
      let logLines := if maxLogLines <? length logLines then last_n maxLogLines logLines else logLines in
      (mkRl st width logLines report label frame, [])
  | StatusUpdate l => (mkRl st width logLines report l frame, [])
  | StatusTick => match st with
                  | stateRunning => (mkRl st width logLines report label (S frame), [TickCmd])
                  | stateFinal => (m, [])
                  end
  | Done r => (mkRl stateFinal width logLines r label frame, [QuitCmd])
  | InterruptedMsg => (mkRl stateFinal width logLines interrupted_report label frame, [QuitCmd])
  | OtherKey | OtherMsg => (m, [])
  end.

Definition statusSpinnerFrames : list string := ["⠋"; "⠙"; "⠹"; "⠸"; "⠼"; "⠴"; "⠦"; "⠧"; "⠇"; "⠏"].
Definition borderPrefix : string := "│ ".

Section View.
Context (Truncate : string -> Z -> string) (spinnerStyle : string -> string).

Definition fit (m : rl_model) (line : string) : string :=
  if (1 <? rl_width m)%Z then Truncate line (rl_width m - 1) else line.

Definition rl_View (m : rl_model) : string :=
  match rl_st m with
  | stateRunning =>
      (if bool_decide (rl_statusLabel m <> "") then
         let frame := default "" (statusSpinnerFrames !! (rl_statusFrame m mod length statusSpinnerFrames)) in
         fit m (borderPrefix +:+ spinnerStyle frame +:+ " " +:+ rl_statusLabel m) +:+ nl +:+ nl
       else "")
      +:+ foldr (fun l out => fit m (borderPrefix +:+ l) +:+ nl +:+ out) nl (rl_logLines m)
  | stateFinal =>
      (if bool_decide (rl_finalReport m <> "") then rl_finalReport m +:+ nl else "") +:+ String "027" "[0J"
  end.
End View.

(** The program of a run: messages until the update asks to quit. *)
Fixpoint rl_run (m : rl_model) (msgs : list rl_msg) : rl_model :=
  match msgs with
  | [] => m
  | msg :: msgs =>
      let '(m', cmds) := rl_Update m msg in
      if existsb (fun c => match c with QuitCmd => true | _ => false end) cmds then m' else rl_run m' msgs
  end.

Definition rl_initial (width : Z) : rl_model := mkRl stateRunning width [] "" "" 0.

(** ** The spinner *)

(** [sp_workers]: goroutines that draw on the current channels; [sp_done]: the channel
    that tells the end is closed. *)
Record Spinner := mkSpinner { sp_enabled : bool; sp_label : string; sp_workers : nat; sp_done : bool }.

(** The messages to the program that owns the terminal, if one does. *)
Definition to_program (active : bool) (label : string) : list rl_msg := if active then [StatusUpdate label] else [].

Definition NewSpinner (tty hidden tui : bool) (label : string) : Spinner :=
  mkSpinner (tty && negb hidden && negb tui) label 0 false.

Definition spinner_Start (active : bool) (s : Spinner) : Spinner * list rl_msg :=
  if negb (sp_enabled s) then (s, to_program active (sp_label s)) else
  if sp_done s then (mkSpinner true (sp_label s) 1 false, [])
  else (mkSpinner true (sp_label s) (S (sp_workers s)) false, []).

Definition spinner_SetLabel (active : bool) (label : string) (s : Spinner) : Spinner * list rl_msg :=
  (mkSpinner (sp_enabled s) label (sp_workers s) (sp_done s), to_program active label).

(** Closing the channel ends every worker, and each closes the other channel: with none
    the call waits for ever, with two it is closed twice. *)
Inductive stopped := Returns (s : Spinner) (msgs : list rl_msg) | Waits | Panics.

Definition spinner_Stop (active : bool) (s : Spinner) : stopped :=
  if negb (sp_enabled s) then Returns s (to_program active "") else
  if sp_done s then Returns s [] else
  match sp_workers s with
  | 0 => Waits
  | 1 => Returns (mkSpinner true (sp_label s) 0 true) []
  | _ => Panics
  end.

(** [SpinnerOperation] and [DynamicSpinnerOperation]: the labels the operation sets, and
    its result. *)
Definition relabel (active : bool) (st : Spinner * list rl_msg) (label : string) : Spinner * list rl_msg :=
  let '(s, m) := spinner_SetLabel active label st.1 in (s, st.2 ++ m).

Definition SpinnerOperation {A} (tty hidden tui active : bool) (message : string) (labels : list string) (result : A)
  : option (A * list rl_msg) :=
  let '(s, m1) := spinner_Start active (NewSpinner tty hidden tui message) in
  let '(s, m2) := foldl (relabel active) (s, []) labels in
  match spinner_Stop active s with
  | Returns _ m3 => Some (result, m1 ++ m2 ++ m3)
  | _ => None
  end.

(** [spinnerAdapter.SetAction] *)
Definition action_label (prefix action : string) : string :=
  if bool_decide (prefix <> "") then prefix +:+ " -> " +:+ action else action.

(** ** The progress bar *)

Record Progress := mkProgress { pg_total : Z; pg_current : Z; pg_action : string }.

Definition progress_Start (total : Z) (p : Progress) : Progress := mkProgress total 0 (pg_action p).
Definition Increment (p : Progress) : Progress :=
  if (pg_total p <=? 0)%Z then p else
  mkProgress (pg_total p) (if (pg_current p <? pg_total p)%Z then pg_current p + 1 else pg_current p) (pg_action p).
Definition AdjustTotal (delta : Z) (p : Progress) : Progress :=
  let total := (pg_total p + delta)%Z in
  mkProgress (if (total <? pg_current p)%Z then pg_current p else total) (pg_current p) (pg_action p).
Definition SetAction (text : string) (p : Progress) : Progress := mkProgress (pg_total p) (pg_current p) text.

(** The text drawn; [viewAs] draws the bar for a fraction, which is kept between 0 and
    1. *)
Definition progress_render (viewAs : Z -> Z -> string) (p : Progress) : string :=
  if (pg_total p <=? 0)%Z then "" else
  String "013" (String "027" "[3C") +:+ viewAs (Z.max 0 (Z.min (pg_current p) (pg_total p))) (pg_total p) +:+ " " +:+ FormatInt (pg_current p) +:+ "/"
  +:+ FormatInt (pg_total p) +:+ nl +:+ String "027" "[2K" +:+ "   " +:+ pg_action p +:+ String "027" "[1A".

(** ** Properties *)

Abbreviation one_line s := (free newline s).
Lemma one_line_app s t : one_line s -> one_line t -> one_line (s +:+ t).
Proof. intros. by apply free_app. Qed.
#[local] Hint Resolve one_line_app free_nil : one_line.
Ltac one_lines := repeat apply one_line_app; auto with one_line; try (apply (bool_decide_unpack _); vm_compute; exact I).

(** *** Lines *)

Lemma sanitize_one_line s : one_line (sanitizeSingleLine s).
Proof.
  induction s as [|c s IH]; [apply free_nil|]. simpl. apply one_line_app; [|done].
  destruct (_ || _) eqn:Hc; [apply (bool_decide_unpack _); by vm_compute|].
  destruct (code c <? 32); [apply (bool_decide_unpack _); by vm_compute|].
  apply free_cons. split; [|apply free_nil]. intros <-. by vm_compute in Hc.
Qed.
#[local] Hint Resolve sanitize_one_line : one_line.

(** The keys of the records are one line each, as are what the styles make of one. *)
Definition one_line_style (f : string -> string) : Prop := forall s, one_line s -> one_line (f s).
Fixpoint one_line_keys (kv : list value) : Prop :=
  match kv with
  | Str k :: _ :: rest => one_line k /\ one_line_keys rest
  | Other _ :: _ :: rest => one_line_keys rest
  | _ => True
  end.

Lemma display_pairs_one_line keyStyle status kv : one_line_style keyStyle -> one_line status -> one_line_keys kv ->
  one_line (display_pairs keyStyle status kv).
Proof.
  intros Hk. revert status. induction kv as [|k|k v rest IH] using pairs_ind; intros status Hs Hkeys;
    [apply free_nil|destruct k; apply free_nil|].
  destruct k as [key|]; [|by apply IH]. destruct Hkeys as [Hkey Hkeys]. simpl.
  repeat case_bool_decide; one_lines; [apply Hk; one_lines|destruct (existsb _ _); one_lines].
Qed.

Lemma display_line_one_line levelStyle keyStyle ts lvl msg kv :
  one_line_style keyStyle -> (forall l, one_line_style (levelStyle l)) -> one_line ts -> one_line_keys kv ->
  one_line (display_line levelStyle keyStyle ts lvl msg kv).
Proof.
  intros Hk Hl Hts Hkv. unfold display_line. one_lines.
  - apply Hl. destruct lvl; one_lines.
  - apply display_pairs_one_line; [done|apply free_nil|done].
Qed.

(** *** The block *)

Definition ends (msg : rl_msg) : bool := match msg with Done _ | InterruptedMsg => true | _ => false end.
Definition appended (msgs : list rl_msg) : list string :=
  omap (fun msg => match msg with AppendLog l => Some l | _ => None end) msgs.
Definition labels (msgs : list rl_msg) : list string :=
  omap (fun msg => match msg with StatusUpdate l => Some l | _ => None end) msgs.

Lemma last_n_all {A} n (l : list A) : length l <= n -> last_n n l = l.
Proof. intros Hl. unfold last_n. by replace (length l - n) with 0 by lia. Qed.

Lemma last_n_snoc {A} n (l : list A) x : 0 < n -> last_n n (last_n n l ++ [x]) = last_n n (l ++ [x]).
Proof.
  intros Hn.
  unfold last_n. rewrite !length_app, length_drop. simpl.
  destruct (decide (length l <= n)) as [Hl|Hl]; [by replace (length l - n) with 0 by lia; rewrite drop_0, Nat.sub_0_r|].
  rewrite drop_app_le by (rewrite length_drop; lia). rewrite drop_drop, drop_app_le by lia.
  do 2 f_equal. lia.
Qed.

Lemma last_n_length {A} n (l : list A) : length (last_n n l) <= n.
Proof. unfold last_n. rewrite length_drop. lia. Qed.

(** The state while a run goes on: the last lines, and the last label. *)
Record rolling (lines : list string) (label : string) (m : rl_model) : Prop := {
  ro_running : rl_st m = stateRunning;
  ro_lines : rl_logLines m = last_n maxLogLines lines;
  ro_label : rl_statusLabel m = label }.

Lemma rolling_step lines label m msg : rolling lines label m -> ends msg = false ->
  rolling (lines ++ appended [msg]) (default label (last (labels [msg]))) (rl_Update m msg).1
  /\ QuitCmd ∉ (rl_Update m msg).2.
Proof.
  intros [Hr Hl Hlab] He. destruct m as [st width logLines report lab frame]. simpl in *. subst st logLines lab.
  destruct msg; try discriminate He; simpl; rewrite ?app_nil_r; (split; [split; try done|]);
    try (rewrite list_elem_of_In; simpl; intuition discriminate). simpl.
  rewrite <- (last_n_snoc maxLogLines lines) by (unfold maxLogLines; lia). destruct (_ <? _) eqn:Hlt; [done|].
  apply Nat.ltb_ge in Hlt. symmetry. by apply last_n_all.
Qed.

Lemma rolling_run lines label m msgs : rolling lines label m -> Forall (fun msg => ends msg = false) msgs ->
  rolling (lines ++ appended msgs) (default label (last (labels msgs))) (rl_run m msgs).
Proof.
  intros Hm Hms. revert lines label m Hm. induction Hms as [|msg msgs Hmsg _ IH]; intros lines label m Hm.
  { simpl. by rewrite app_nil_r. }
  destruct (rolling_step _ _ _ _ Hm Hmsg) as [Hm' Hq]. cbn [rl_run].
  destruct (rl_Update m msg) as [m' cmds]. cbn [fst snd] in *.
  destruct (existsb _ cmds) eqn:Hex.
  { apply existsb_exists in Hex as (c & Hc%list_elem_of_In & Hd). by destruct c. }
  specialize (IH _ _ _ Hm'). rewrite <- app_assoc in IH.
  replace (appended (msg :: msgs)) with (appended [msg] ++ appended msgs) by (by destruct msg).
  replace (labels (msg :: msgs)) with (labels [msg] ++ labels msgs) by (by destruct msg).
  rewrite last_app. by destruct (last (labels msgs)).
Qed.

(** Lines as they are written. *)
Definition unlines (ls : list string) : string := foldr (fun l out => l +:+ nl +:+ out) "" ls.

Lemma unlines_app ls ls' : unlines (ls ++ ls') = unlines ls +:+ unlines ls'.
Proof. induction ls as [|l ls IH]; [done|]. simpl. by rewrite IH, !string_app_assoc. Qed.

(** *** What the library's truncation promises

    [columns] is the number of columns a text takes on the screen. *)
Record truncates (columns : string -> nat) (Truncate : string -> Z -> string) : Prop := {
  tr_width : forall s w, (0 <= w)%Z -> (Z.of_nat (columns (Truncate s w)) <= w)%Z;
  tr_line : forall s w, one_line s -> one_line (Truncate s w);
  tr_empty : columns "" = 0 }.

(** The rows that lines take on a terminal [w] columns wide: a line that reaches the
    last column goes on in the next row. *)
Definition screen_rows (columns : string -> nat) (w : Z) (ls : list string) : nat :=
  sum_list_with (fun l => S (columns l / Z.to_nat w)) ls.

Lemma screen_rows_narrow columns w ls :
  Forall (fun l => (Z.of_nat (columns l) < w)%Z) ls -> screen_rows columns w ls = length ls.
Proof.
  induction 1 as [|l ls Hl _ IH]; [done|]. unfold screen_rows in *. simpl. rewrite IH.
  by rewrite Nat.div_small by lia.
Qed.

Section Rows.
Context (columns : string -> nat) (Truncate : string -> Z -> string) (spinnerStyle : string -> string).
Context (HT : truncates columns Truncate) (Hsp : one_line_style spinnerStyle).

Lemma frame_one_line n : one_line (default "" (statusSpinnerFrames !! n)).
Proof.
  assert (Forall (fun f => one_line f) statusSpinnerFrames) as Hf by (apply (bool_decide_unpack _); by vm_compute).
  destruct (statusSpinnerFrames !! n) as [f|] eqn:Hn; [|apply free_nil].
  rewrite Forall_forall in Hf. apply Hf. by eapply list_elem_of_lookup_2.
Qed.

(** The line of the label, before it is cut. *)
Definition status_line (m : rl_model) : string :=
  borderPrefix +:+ spinnerStyle (default "" (statusSpinnerFrames !! (rl_statusFrame m mod length statusSpinnerFrames)))
  +:+ " " +:+ rl_statusLabel m.
Definition view_lines (m : rl_model) : list string :=
  (if bool_decide (rl_statusLabel m <> "") then [fit Truncate m (status_line m); ""] else [])
  ++ ((fun l => fit Truncate m (borderPrefix +:+ l)) <$> rl_logLines m) ++ [""].

Lemma View_lines m : rl_st m = stateRunning -> rl_View Truncate spinnerStyle m = unlines (view_lines m).
Proof.
  intros Hr. unfold rl_View, view_lines. rewrite Hr, unlines_app. f_equal; [by case_bool_decide|].
  rewrite unlines_app. induction (rl_logLines m) as [|l ls IH]; [done|]. simpl. by rewrite IH, !string_app_assoc.
Qed.

Lemma fit_line m s : one_line s -> one_line (fit Truncate m s).
Proof. intros Hs. unfold fit. destruct (_ <? _)%Z; [by apply (tr_line _ _ HT)|done]. Qed.

Lemma view_one_line m : Forall (fun l => one_line l) (rl_logLines m) -> one_line (rl_statusLabel m) ->
  Forall (fun l => one_line l) (view_lines m).
Proof.
  intros Hl Hlab. unfold view_lines. apply Forall_app. split; [|apply Forall_app; split].
  - case_bool_decide; [|constructor]. repeat constructor; [|apply free_nil]. apply fit_line. unfold status_line.
    pose proof (frame_one_line (rl_statusFrame m mod length statusSpinnerFrames)).
    repeat apply one_line_app; auto; apply (bool_decide_unpack _); by vm_compute.
  - apply Forall_fmap. eapply Forall_impl; [exact Hl|]. intros l Hl1. apply fit_line, one_line_app; [|done].
    apply (bool_decide_unpack _). by vm_compute.
  - repeat constructor. apply free_nil.
Qed.

Lemma fit_narrow m s : (1 < rl_width m)%Z -> (Z.of_nat (columns (fit Truncate m s)) < rl_width m)%Z.
Proof.
  intros Hw. unfold fit. rewrite (proj2 (Z.ltb_lt _ _)) by done.
  pose proof (tr_width _ _ HT s (rl_width m - 1)). lia.
Qed.

Lemma view_narrow m : (1 < rl_width m)%Z -> Forall (fun l => (Z.of_nat (columns l) < rl_width m)%Z) (view_lines m).
Proof.
  intros Hw. assert (Z.of_nat (columns "") < rl_width m)%Z by (rewrite (tr_empty _ _ HT); lia).
  unfold view_lines. apply Forall_app. split; [|apply Forall_app; split].
  - case_bool_decide; repeat constructor; [by apply fit_narrow|done].
  - apply Forall_fmap, Forall_forall. intros l _. by apply fit_narrow.
  - by repeat constructor.
Qed.
End Rows.

(** The width the program was told last. *)
Definition sizes (msgs : list rl_msg) : list Z :=
  omap (fun msg => match msg with WindowSize w => Some w | _ => None end) msgs.

Lemma rl_run_width m msgs : Forall (fun msg => ends msg = false) msgs ->
  rl_width (rl_run m msgs) = default (rl_width m) (last (sizes msgs)).
Proof.
  intros Hms. revert m. induction Hms as [|msg msgs Hmsg _ IH]; intros m; [done|]. cbn [rl_run].
  destruct (rl_Update m msg) as [m' cmds] eqn:Hu.
  assert (existsb (fun c => match c with QuitCmd => true | _ => false end) cmds = false
          /\ rl_width m' = match msg with WindowSize w => w | _ => rl_width m end) as [-> Hw].
  { destruct m as [[] ? ? ? ? ?], msg; simpl in Hu; try discriminate Hmsg; by simplify_eq. }
  rewrite IH, Hw. destruct msg; try done. change (sizes (WindowSize w :: msgs)) with (w :: sizes msgs).
  rewrite last_cons. by destruct (last (sizes msgs)).
Qed.

(** The messages of a run: lines of records of the logger, labels, ticks, keys. *)
Definition from_records levelStyle keyStyle (msg : rl_msg) : Prop :=
  match msg with
  | AppendLog l => exists ts lvl m kv, l = display_line levelStyle keyStyle ts lvl m kv /\ one_line ts /\ one_line_keys kv
  | StatusUpdate l => one_line l
  | _ => ends msg = false
  end.

Lemma from_records_lines levelStyle keyStyle msgs : one_line_style keyStyle -> (forall l, one_line_style (levelStyle l)) ->
  Forall (from_records levelStyle keyStyle) msgs ->
  Forall (fun msg => ends msg = false) msgs /\ Forall (fun l => one_line l) (appended msgs) /\ Forall (fun l => one_line l) (labels msgs).
Proof.
  intros Hk Hl Hms. induction Hms as [|msg msgs Hmsg _ (IH1 & IH2 & IH3)]; [by split_and!; constructor|].
  destruct msg as [| | |l|l| | | |]; split_and!; try done; try (by constructor).
  apply Forall_cons. split; [|done]. destruct Hmsg as (ts & lvl & m & kv & -> & Hts & Hkv). by apply display_line_one_line.
Qed.


(** A truncation that cuts, for texts of one column a byte. *)
Definition cut (s : string) (w : Z) : string := String.substring 0 (Z.to_nat w) s.
Lemma cut_truncates : truncates String.length cut.
Proof.
  split; [| |done]; unfold cut.
  - intros s w Hw. enough (forall n, String.length (String.substring 0 n s) <= n) as Hn by (specialize (Hn (Z.to_nat w)); lia).
    clear. induction s as [|c s IH]; intros [|n]; simpl; try lia. specialize (IH n). lia.
  - intros s w. generalize (Z.to_nat w) as n. induction s as [|c s IH]; intros [|n] Hs; simpl; try apply free_nil.
    apply free_cons in Hs as [Hc Hs]. apply free_cons. auto.
Qed.

Definition long_run : list rl_msg :=
  [StatusUpdate "Applying to the context of the production hosts"; WindowSize 20;
   AppendLog (display_line (fun _ s => s) id "12:00:00" InfoLevel ("two" +:+ nl +:+ "lines") [Str "k"; Str nl])].


(** The first end decides what is left on the screen. *)
Lemma rl_run_ends lines label m msgs msg rest : rolling lines label m -> Forall (fun msg => ends msg = false) msgs ->
  ends msg = true ->
  rl_st (rl_run m (msgs ++ msg :: rest)) = stateFinal
  /\ rl_finalReport (rl_run m (msgs ++ msg :: rest)) = match msg with Done r => r | _ => interrupted_report end.
Proof.
  intros Hm Hms Hmsg. revert lines label m Hm. induction Hms as [|x msgs Hx _ IH]; intros lines label m Hm.
  - simpl. destruct m, msg; by try discriminate Hmsg.
  - destruct (rolling_step _ _ _ _ Hm Hx) as [Hm' Hq]. cbn [rl_run app].
    destruct (rl_Update m x) as [m' cmds]. cbn [fst snd] in *. destruct (existsb _ cmds) eqn:Hex; [|by eapply IH].
    apply existsb_exists in Hex as (c & Hc%list_elem_of_In & Hd). by destruct c.
Qed.

(** *** The spinner *)

(** An operation under a spinner always comes back with its result; the program that
    owns the terminal is told every label and then none. *)
Lemma SpinnerOperation_returns {A} tty hidden tui active message ls (result : A) :
  exists msgs, SpinnerOperation tty hidden tui active message ls result = Some (result, msgs).
Proof.
  assert (Hfold : forall s ms, exists l ms', foldl (relabel active) (s, ms) ls
    = (mkSpinner (sp_enabled s) l (sp_workers s) (sp_done s), ms')).
  { induction ls as [|l ls IH]; intros s ms; [exists (sp_label s), ms; by destruct s|].
    apply (IH (mkSpinner (sp_enabled s) l (sp_workers s) (sp_done s))). }
  unfold SpinnerOperation, NewSpinner, spinner_Start. simpl.
  destruct (tty && negb hidden && negb tui); simpl;
    [destruct (Hfold (mkSpinner true message 1 false) []) as (l & ms' & ->)
    |destruct (Hfold (mkSpinner false message 0 false) []) as (l & ms' & ->)]; by eexists.
Qed.

(** A second start is not ignored: the end of both drawing routines closes the same
    channel twice. *)
Example second_start_panics : let s := NewSpinner true false false "x" in
  spinner_Stop false (spinner_Start false (spinner_Start false s).1).1 = Panics
  /\ spinner_Stop false s = Waits.
Proof. by vm_compute. Qed.

(** *** The progress bar *)

(** Never more than all is done. *)
Definition in_range (p : Progress) : Prop := (0 <= pg_current p <= pg_total p)%Z.
Lemma progress_in_range p : in_range p ->
  in_range (Increment p) /\ (forall d, in_range (AdjustTotal d p)) /\ (forall t, in_range (SetAction t p)).
Proof.
  intros Hp. unfold in_range, Increment, AdjustTotal, SetAction in *. split; [|split; [|done]].
  - destruct (_ <=? _)%Z; [done|]. simpl. destruct (_ <? _)%Z eqn:Hl; [apply Z.ltb_lt in Hl|apply Z.ltb_ge in Hl]; lia.
  - intros d. simpl. destruct (_ <? _)%Z eqn:Hl; [apply Z.ltb_lt in Hl|apply Z.ltb_ge in Hl]; lia.
Qed.
