(* ===== verification/DashboardData.v ===== *)
(** * What the dashboard shows ([internal/cli/dashboardcmd/data], [model.go], [command.go])

    The stacks with their services, read from the compose files; the state of the
    containers, read from docker; the items of the list and the networks and volumes
    of a container; and how the path of the manifest is found. *)

From S2P Require Import Prelude GoStrings GoPath Apperr Util Manifest Effects Docker DockerExec Lru Client ClientResources Compose ClientHandler Images.
From Stdlib Require Import Ascii.

(** ** The client ([common.go], [context.go]) *)

Definition GetFirstDaemon (cfg : Config) : string * option ContextConfig :=
  match sorted_keys (cfg_Contexts cfg) with
  | [] => ("", None)
  | name :: _ => (name, cfg_Contexts cfg !! name)
  end.

Definition GetDefaultClient (clients : gmap string Client) (cfg : Config) : gmap string Client * Client :=
  GetClient clients (GetFirstDaemon cfg).1 (cfg_Identifier cfg).

Definition dockerContextName (cfg : Config) : string := TrimSpace (GetFirstDaemon cfg).1.

(** ** Stacks ([loader.go]) *)

Record ServiceSummary := mkServiceSummary {
  ss_Service : string; ss_ContainerName : string; ss_Image : string;
  ss_Networks : list string; ss_Volumes : list string }.
Record StackSummary := mkStackSummary { sk_Name : string; sk_Services : list ServiceSummary }.

Definition normalizePaths (base : string) (rels : list string) : list string :=
  (fun rel => if IsAbs rel then rel else PathJoin [base; rel]) <$> filter (fun rel => rel <> "") rels.

Definition service_summary (serviceName : string) (svc : ComposeService) : ServiceSummary :=
  let image := TrimSpace (cs_Image svc) in
  mkServiceSummary serviceName (TrimSpace (cs_ContainerName svc))
    (if bool_decide (image = "") then "(no image)" else image)
    (filter (fun n => n <> "") (TrimSpace <$> cs_Networks svc))
    (filter (fun s => s <> "")
       ((fun v => TrimSpace (csv_Source v)) <$> filter (fun v => TrimSpace (csv_Type v) = "volume") (cs_Volumes svc))).

Section Loader.
Context `{MapRange} `{Decoders} `{SortSlice}.

Definition stack_dir (cfg : Config) (stack : Stack) : string :=
  if bool_decide (st_Root stack = "") then cfg_BaseDir cfg
  else if IsAbs (st_Root stack) then st_Root stack else PathJoin [cfg_BaseDir cfg; st_Root stack].

Definition service_less (a b : ServiceSummary) : bool :=
  negb (bool_decide (String.le (ss_Service b) (ss_Service a))).

Definition loadServices (cfg : Config) (cache : compose_cache) (stackName : string) (stack : Stack)
  : cli (compose_cache * res (list ServiceSummary)) :=
  let workingDir := stack_dir cfg stack in
  r ← cli_ComposeConfigFull cache (mkComposeArgs workingDir (normalizePaths workingDir (st_Files stack))
        (st_Profiles stack) (normalizePaths workingDir (st_EnvFile stack)) (st_EnvInline stack));
  mret (r.1, match (r.2 : res ComposeConfigDoc) with
             | Err e => Err (wrap "dashboard.data.loadContainers" Internal e "failed for stack: %s" [stackName])
             | Ok doc => Ok (sort_slice service_less
                          ((fun e => service_summary e.1 e.2) <$> map_range "dashboard services" doc))
             end).

(** Stacks by name; the first that cannot be loaded ends it. *)
Definition StackSummaries (cfg : Config) (cache : compose_cache) : cli (res (compose_cache * list StackSummary)) :=
  let allStacks := GetAllStacks cfg in
  for_each_res (fun (st : compose_cache * list StackSummary) name =>
    r ← loadServices cfg st.1 name (default empty_stack (allStacks !! name));
    mret (match r.2 with
          | Ok services => Ok (r.1, st.2 ++ [mkStackSummary name services])
          | Err e => Err e
          end)) (cache, []) (sort_strings (map_range "dashboard stacks" allStacks).*1).
End Loader.

(** ** The state of the containers ([status.go]) *)

Record Key := mkKey { k_Stack : string; k_Service : string }.
#[global] Instance Key_eq_dec : EqDecision Key.
Proof. solve_decision. Defined.
#[global] Instance Key_countable : Countable Key.
Proof.
  refine (inj_countable' (fun k => (k_Stack k, k_Service k)) (fun p => mkKey p.1 p.2) _). by intros [].
Defined.

Record Status := mkStatus { sta_ContainerName : string; sta_State : string; sta_StatusText : string }.

Section Provider.
Context `{Decoders} `{ResourceDecoders} `{SortSlice}.
(** The identifier, trimmed by [NewStatusProvider]. *)
Context (identifier : string).

Definition identifier_filters : list string :=
  if bool_decide (identifier <> "") then ["label=io.dockform.identifier=" +:+ identifier] else [].

Definition ResolveContainerName (svc : ServiceSummary) : cli (res string) :=
  let name := TrimSpace (ss_ContainerName svc) in
  if bool_decide (name <> "") then mret (Ok name) else
  rows ← PsJSON true (identifier_filters
           ++ (if bool_decide (TrimSpace (ss_Service svc) <> "")
               then ["label=com.docker.compose.service=" +:+ ss_Service svc] else []));
  mret (match (rows : res (list PsJSONRow)) with
        | Err e => Err e
        | Ok rows => Ok (default "" (psr_Names <$> head (sort_slice (fun a b =>
                          negb (bool_decide (String.le (psr_Names b) (psr_Names a)))) rows)))
        end).

(** The rows by name, and by compose service; a later row replaces an earlier one. *)
Definition row_name (r : PsJSONRow) : string := TrimSpace (psr_Names r).
Definition row_service (r : PsJSONRow) : string := TrimSpace (LabelValue r "com.docker.compose.service").
Definition index_by (f : PsJSONRow -> string) (rows : list PsJSONRow) : gmap string PsJSONRow :=
  foldl (fun m r => if bool_decide (f r <> "") then <[f r := r]> m else m) ∅ rows.

Definition candidate (rows : list PsJSONRow) (svc : ServiceSummary) : option PsJSONRow :=
  let cname := TrimSpace (ss_ContainerName svc) in
  if bool_decide (cname <> "") then index_by row_name rows !! cname
  else index_by row_service rows !! TrimSpace (ss_Service svc).

Definition row_status (r : PsJSONRow) : Status :=
  mkStatus (psr_Names r) (TrimSpace (psr_State r)) (TrimSpace (psr_Status r)).

Definition record_status (rows : list PsJSONRow) (stack : string) (out : gmap Key Status) (svc : ServiceSummary)
  : gmap Key Status :=
  match candidate rows svc with
  | Some r => if bool_decide (TrimSpace (psr_Names r) = "") then out
              else <[mkKey stack (ss_Service svc) := row_status r]> out
  | None => out
  end.

Definition statuses (rows : list PsJSONRow) (stacks : list StackSummary) : gmap Key Status :=
  foldl (fun out st => foldl (record_status rows (sk_Name st)) out (sk_Services st)) ∅ stacks.

Definition FetchAll (stacks : list StackSummary) : cli (res (gmap Key Status)) :=
  rows ← PsJSON true identifier_filters;
  mret (match (rows : res (list PsJSONRow)) with
        | Err e => Err e
        | Ok rows => Ok (statuses rows stacks)
        end).
End Provider.

(** The colour and the text of a status. *)
Definition FormatStatusLine (state statusText : string) : string * string :=
  let st := ToLower (TrimSpace state) in
  let sel :=
    if bool_decide (st = "running") then
      let low := ToLower statusText in
      if Contains low "(healthy)" || (negb (Contains low "(unhealthy)") && negb (Contains low "(starting)")) then "success"
      else if Contains low "(starting)" then "warning" else "error"
    else if bool_decide (st ∈ ["restarting"; "created"]) then "warning" else "error" in
  (sel, TrimSpace statusText).

(** ** The items of the list ([model.go]) *)

Record StackItem := mkItem {
  it_TitleText : string; it_Service : string; it_ContainerName : string; it_Containers : list string;
  it_Status : string; it_StatusKind : string; it_FilterText : string }.

Definition buildFilterValue (stackName : string) (svc : ServiceSummary) : string :=
  Join (filter (fun p => p <> "") (TrimSpace <$> [stackName; ss_Service svc; ss_ContainerName svc; ss_Image svc])) " ".

Definition stackItemsFromSummaries (summaries : list StackSummary) : list StackItem :=
  summaries ≫= fun summary =>
    match sk_Services summary with
    | [] => [mkItem (sk_Name summary) "" "" ["(no services)"] "○ no services" "" (sk_Name summary)]
    | svcs => (fun svc => mkItem (sk_Name summary) (ss_Service svc) (ss_ContainerName svc) [ss_Service svc; ss_Image svc]
                            "○ status unknown" "" (buildFilterValue (sk_Name summary) svc)) <$> svcs
    end.

Definition uniqueSortedStrings (vals : list string) : list string :=
  sort_strings (dedup (filter (fun v => v <> "") (TrimSpace <$> vals))).
Definition mergeStringValues (existing incoming : list string) : list string := uniqueSortedStrings (existing ++ incoming).

Definition serviceKeys (svc : ServiceSummary) : list string :=
  filter (fun k => k <> "") [TrimSpace (ss_ContainerName svc); TrimSpace (ss_Service svc)].

Definition attach (m : gmap string (list string)) (key : string) (vals : list string) : gmap string (list string) :=
  match vals with
  | [] => m
  | _ => <[key := mergeStringValues (default [] (m !! key)) vals]> m
  end.

(** The networks and the volumes by container and by service. *)
Abbreviation attachments := (gmap string (list string) * gmap string (list string))%type.
Definition attach_service (nv : attachments) (svc : ServiceSummary) : attachments :=
  foldl (fun (nv : attachments) key => (attach nv.1 key (uniqueSortedStrings (ss_Networks svc)),
                                        attach nv.2 key (uniqueSortedStrings (ss_Volumes svc))))
    nv (serviceKeys svc).
Definition buildAttachmentMaps (stacks : list StackSummary) : attachments :=
  foldl attach_service (∅, ∅) (stacks ≫= sk_Services).

(** The names under the first key that has some. *)
Definition selected_names (m : gmap string (list string)) (primary secondary : string) : list string :=
  match default [] (m !! TrimSpace primary) with
  | [] => if bool_decide (secondary <> "") && bool_decide (secondary <> primary)
          then default [] (m !! secondary) else []
  | vals => vals
  end.

(** ** The path of the manifest ([command.go]) *)

Section Path.
Context (h : Manifest.Host) (userHome : res string).

Definition manifestFilenames : list string := ["dockform.yml"; "dockform.yaml"; "Dockform.yml"; "Dockform.yaml"].

Definition absPath (path : string) : string := match Abs h path with Ok abs => abs | Err _ => Clean path end.

Definition expandUser (path : string) : string :=
  if HasPrefix path "~" then
    match userHome with Ok home => PathJoin [home; TrimPrefix path "~"] | Err _ => path end
  else path.

Definition dedupePaths (paths : list string) : list string := dedup (Clean <$> filter (fun p => p <> "") paths).

Definition candidatePaths (input baseDir : string) : list string :=
  let clean := Clean (expandUser input) in
  if IsAbs clean then dedupePaths [clean] else
  dedupePaths ([clean] ++ match Abs h clean with Ok abs => [abs] | Err _ => [] end
    ++ (if bool_decide (baseDir <> "") then [PathJoin [baseDir; clean]] else [])
    ++ match os_Getwd h with Ok cwd => [PathJoin [cwd; clean]] | Err _ => [] end).

Definition is_file (candidate : string) : bool :=
  match os_Stat h candidate with StatOk false => true | _ => false end.
Definition findManifestInDir (dir : string) : string :=
  default "" (absPath <$> head (filter (fun c => is_file c = true)
                                  ((fun name => PathJoin [dir; name]) <$> manifestFilenames))).

Fixpoint first_manifest (candidates : list string) : string :=
  match candidates with
  | [] => ""
  | candidate :: rest =>
      match os_Stat h candidate with
      | StatOk true => let path := findManifestInDir candidate in
                       if bool_decide (path <> "") then path else first_manifest rest
      | StatOk false => absPath candidate
      | _ => first_manifest rest
      end
  end.

Definition manifestPathFromInput (input baseDir : string) : string :=
  let input := TrimSpace input in
  if bool_decide (input = "") then "" else first_manifest (candidatePaths input baseDir).

Definition dashboard_manifestPath (flagVal baseDir : string) : string :=
  let path := manifestPathFromInput (TrimSpace flagVal) baseDir in
  if bool_decide (path <> "") then path else
  let path := manifestPathFromInput baseDir baseDir in
  if bool_decide (path <> "") then path else
  if bool_decide (baseDir <> "") then Clean baseDir else "".
End Path.

(** ** The rows of a service *)

(** A later row of the same name replaces an earlier one. *)
Lemma index_by_last f rows k : k <> "" ->
  index_by f rows !! k = last (filter (fun r => f r = k) rows).
Proof.
  intros Hk. unfold index_by. induction rows as [|r rows IH] using rev_ind; [done|].
  rewrite foldl_app, filter_app. cbn [foldl]. case_bool_decide as Hr.
  - destruct (decide (f r = k)) as [<-|Hne].
    + rewrite lookup_insert_eq, filter_cons_True, filter_nil by done. by rewrite last_snoc.
    + rewrite lookup_insert_ne, IH, filter_cons_False, filter_nil by done. by rewrite app_nil_r.
  - rewrite IH, filter_cons_False, filter_nil by congruence. by rewrite app_nil_r.
Qed.

Lemma index_by_blank f rows : index_by f rows !! "" = None.
Proof.
  unfold index_by. induction rows as [|r rows IH] using rev_ind; [done|].
  rewrite foldl_app. cbn [foldl]. case_bool_decide; [|done]. by rewrite lookup_insert_ne.
Qed.

(** The rows that are the service's: those of its container when it names one, and
    those of its compose service otherwise. *)
Definition is_row_of (svc : ServiceSummary) (r : PsJSONRow) : bool :=
  let cname := TrimSpace (ss_ContainerName svc) in
  let service := TrimSpace (ss_Service svc) in
  if bool_decide (cname <> "") then bool_decide (row_name r = cname)
  else bool_decide (service <> "") && bool_decide (row_service r = service).

Lemma candidate_last rows svc : candidate rows svc = last (filter (fun r => is_row_of svc r = true) rows).
Proof.
  unfold candidate, is_row_of. case_bool_decide as Hc.
  - rewrite index_by_last by done. f_equal. apply list_filter_iff. intros r. by rewrite bool_decide_eq_true.
  - destruct (decide (TrimSpace (ss_Service svc) = "")) as [->|Hs].
    + rewrite index_by_blank. induction rows as [|r rows IH]; [done|]. by rewrite filter_cons_False.
    + rewrite index_by_last by done. f_equal. apply list_filter_iff. intros r.
      rewrite (bool_decide_true (_ <> "")) by done. cbn [andb]. by rewrite bool_decide_eq_true.
Qed.

(** What the dashboard shows for a service: the state of the last of its rows. *)
Definition status_of (rows : list PsJSONRow) (svc : ServiceSummary) : option Status :=
  r ← last (filter (fun r => is_row_of svc r = true) rows);
  if bool_decide (TrimSpace (psr_Names r) = "") then None else Some (row_status r).

Lemma record_status_lookup rows stack out svc k :
  record_status rows stack out svc !! k
  = if bool_decide (k = mkKey stack (ss_Service svc))
    then match status_of rows svc with Some s => Some s | None => out !! k end
    else out !! k.
Proof.
  unfold record_status, status_of. rewrite candidate_last.
  destruct (last _) as [r|]; cbn [mbind option_bind]; [|by case_bool_decide].
  destruct (decide (TrimSpace (psr_Names r) = "")) as [Hn|Hn];
    [rewrite !(bool_decide_true (TrimSpace _ = "")) by done; by case_bool_decide|].
  rewrite !(bool_decide_false (TrimSpace _ = "")) by done. case_bool_decide as Hk.
  - subst k. apply lookup_insert_eq.
  - by apply lookup_insert_ne.
Qed.

(** The services with the name of their stack, in the order of the walk. *)
Definition walk (stacks : list StackSummary) : list (string * ServiceSummary) :=
  stacks ≫= fun st => pair (sk_Name st) <$> sk_Services st.
Definition walk_key (e : string * ServiceSummary) : Key := mkKey e.1 (ss_Service e.2).

Lemma statuses_walk rows stacks :
  statuses rows stacks = foldl (fun out e => record_status rows e.1 out e.2) ∅ (walk stacks).
Proof.
  unfold statuses, walk. generalize (∅ : gmap Key Status). induction stacks as [|st stacks IH]; intros out; [done|].
  cbn [foldl mbind list_bind]. rewrite IH, foldl_app. f_equal. clear IH. revert out.
  induction (sk_Services st) as [|svc l IHl]; intros out; [done|]. cbn. apply IHl.
Qed.

Lemma walk_other rows l out k : k ∉ walk_key <$> l ->
  foldl (fun out e => record_status rows e.1 out e.2) out l !! k = out !! k.
Proof.
  revert out. induction l as [|e l IH]; intros out Hk; [done|]. cbn [foldl].
  rewrite IH by set_solver. rewrite record_status_lookup. rewrite bool_decide_false; [done|].
  intros ->. apply Hk. by left.
Qed.

Lemma statuses_lookup rows stacks e : e ∈ walk stacks -> NoDup (walk_key <$> walk stacks) ->
  statuses rows stacks !! walk_key e = status_of rows e.2.
Proof.
  rewrite statuses_walk. intros He Hnd. apply list_elem_of_split in He as (l1 & l2 & Heq).
  rewrite Heq in Hnd |- *. rewrite fmap_app in Hnd. cbn in Hnd.
  apply NoDup_app in Hnd as (_ & Hd & [H2 _]%NoDup_cons).
  rewrite foldl_app. cbn [foldl]. rewrite walk_other by done. rewrite record_status_lookup.
  rewrite bool_decide_true by done. rewrite walk_other, lookup_empty; [by destruct (status_of _ _)|].
  intros H1. apply (Hd _ H1). left.
Qed.

Lemma statuses_only rows stacks k s : statuses rows stacks !! k = Some s ->
  exists e, e ∈ walk stacks /\ walk_key e = k.
Proof.
  rewrite statuses_walk. intros Hs. destruct (decide (k ∈ walk_key <$> walk stacks)) as [Hk|Hk].
  - apply list_elem_of_fmap in Hk as (e & -> & He). eauto.
  - by rewrite walk_other in Hs.
Qed.

(** The rows of the output of [docker ps]: the lines that decode. *)
Definition listed `{ResourceDecoders} (out : string) : list PsJSONRow :=
  omap (fun line => match json_ps_row line with Ok r => Some r | Err _ => None end)
    (filter (fun l => l <> "") (TrimSpace <$> scan_lines (Split out newline))).

(** What the map of states says of the stacks. *)
Definition states_of (rows : list PsJSONRow) (stacks : list StackSummary) (m : gmap Key Status) : Prop :=
  (forall st svc, st ∈ stacks -> svc ∈ sk_Services st ->
     m !! mkKey (sk_Name st) (ss_Service svc) = status_of rows svc)
  /\ (forall k s, m !! k = Some s -> exists st svc, st ∈ stacks /\ svc ∈ sk_Services st
        /\ k = mkKey (sk_Name st) (ss_Service svc)).

Lemma statuses_states rows stacks : NoDup (walk_key <$> walk stacks) ->
  states_of rows stacks (statuses rows stacks).
Proof.
  intros Hnd. split.
  - intros st svc Hst Hsvc. apply (statuses_lookup _ _ (sk_Name st, svc)); [|done].
    apply list_elem_of_bind. exists st. split; [|done]. by apply list_elem_of_fmap_2.
  - intros k s ([n svc] & He & <-)%statuses_only.
    apply list_elem_of_bind in He as (st & (? & [= -> ->] & Hsvc)%list_elem_of_fmap & Hst). eauto 10.
Qed.

(** One listing answers for every service.  [FetchAll] asks docker once, for all
    containers under the identifier; the state it gives a service of a stack is that
    of the last listed row of the service's container, or of its compose service when
    it names no container; a service without a row has none, and neither has anything
    that is not a service of the stacks.  An error of the command is its error. *)
Theorem FetchAll_exact `{Decoders} `{ResourceDecoders} identifier stacks :
  NoDup (walk_key <$> walk stacks) ->
  wp (FetchAll identifier stacks) (fun t r =>
    exists out, t = [Obs (E := client_effect) (Exec (Run (["ps"; "--format"; "{{json .}}"; "-a"]
                 ++ concat ((fun f => ["--filter"; f]) <$> filter (fun f => f <> "")
                              (TrimSpace <$> identifier_filters identifier))))) out]
    /\ match out, r with
       | Ok out, Ok m => states_of (listed out) stacks m
       | Err e, Err e' => e = e'
       | _, _ => False
       end).
Proof.
  intros Hnd. unfold FetchAll, PsJSON, docker_run. cbn [app].
  apply wp_bind, wp_bind. wp_doop. intros [out|e]; cbn [try]; apply wp_ret, wp_ret; eexists; split; try done.
  by apply statuses_states.
Qed.

(** Rows as "name service state" for examples. *)
Definition example_rows : ResourceDecoders := {|
  json_volume _ := Err (Plain "json"); json_volumes _ := Err (Plain "json");
  json_network _ := Err (Plain "json");
  json_ps_row line := match Split line " " with
                      | [name; project; service; state] =>
                          Ok (mkPsRow "" name "" ("Up " +:+ state) state
                                ("com.docker.compose.project=" +:+ project +:+ ",com.docker.compose.service=" +:+ service))
                      | _ => Err (Plain "json")
                      end |}.
Definition unnamed (service : string) : ServiceSummary := mkServiceSummary service "" "nginx" [] [].
Definition two_stacks : list StackSummary :=
  [mkStackSummary "blog" [unnamed "db"; unnamed "web"]; mkStackSummary "shop" [unnamed "web"]].
Definition two_webs : string := "blog-web blog web running" +:+ nl +:+ "shop-web shop web exited" +:+ nl.

Lemma FetchAll_exact_witness :
  wp (@FetchAll example_rows "demo" two_stacks) (fun t r => length t = 1 /\ match r with
    | Ok m => forall s, m !! mkKey "nobody" "web" <> Some s
    | Err _ => True
    end).
Proof.
  eapply wp_mono.
  - apply (@FetchAll_exact example_decoders example_rows "demo" two_stacks).
    apply (bool_decide_eq_true _). vm_compute. reflexivity.
  - intros t r (out & -> & H). split; [done|]. destruct out, r; try done.
    intros s Hs. destruct H as [_ H]. apply H in Hs as (st & svc & Hst & _ & [= Hn _]).
    unfold two_stacks in Hst. set_unfold in Hst. by destruct Hst as [-> | [-> | []]].
Defined.

(** Rows are found by the compose service alone, not by its project: of two stacks
    with a service of the same name both show the container listed last. *)
Example services_share_state :
  match (run_tree (prints two_webs) (@FetchAll example_rows "demo" two_stacks)).2 with
  | Ok m => m !! mkKey "blog" "web" = Some (mkStatus "shop-web" "exited" "Up exited")
            /\ m !! mkKey "shop" "web" = Some (mkStatus "shop-web" "exited" "Up exited")
            /\ m !! mkKey "blog" "db" = None
  | Err _ => False
  end.
Proof. by vm_compute. Qed.

(** ** The networks and volumes of a container *)

Lemma uniqueSortedStrings_sorted vals : StronglySorted String.le (uniqueSortedStrings vals).
Proof. apply sort_strings_sorted. Qed.

Lemma NoDup_uniqueSortedStrings vals : NoDup (uniqueSortedStrings vals).
Proof. unfold uniqueSortedStrings. rewrite sort_strings_perm. apply NoDup_dedup. Qed.

Lemma elem_of_uniqueSortedStrings vals x :
  x ∈ uniqueSortedStrings vals <-> x <> "" /\ exists v, v ∈ vals /\ x = TrimSpace v.
Proof.
  unfold uniqueSortedStrings. autorewrite with dockform.
  rewrite list_elem_of_filter, list_elem_of_fmap. naive_solver.
Qed.

Lemma uniqueSortedStrings_trimmed vals x : x ∈ uniqueSortedStrings vals -> x <> "" /\ TrimSpace x = x.
Proof. intros (Hx & v & _ & ->)%elem_of_uniqueSortedStrings. split; [done|]. apply TrimSpace_idemp. Qed.

(** The names under a key; no entry counts as none. *)
Definition names_at (m : gmap string (list string)) (k : string) : list string := default [] (m !! k).

(** The names of an entry: sorted, without duplicates, trimmed and not empty. *)
Definition tidy_names (l : list string) : Prop :=
  StronglySorted String.le l /\ NoDup l /\ Forall (fun x => x <> "" /\ TrimSpace x = x) l.
Definition tidy_map (m : gmap string (list string)) : Prop := forall k l, m !! k = Some l -> l <> [] /\ tidy_names l.

Lemma uniqueSortedStrings_tidy vals : tidy_names (uniqueSortedStrings vals).
Proof.
  split; [apply uniqueSortedStrings_sorted|]. split; [apply NoDup_uniqueSortedStrings|].
  apply Forall_forall. intros x. apply uniqueSortedStrings_trimmed.
Qed.

Lemma names_at_tidy m k x : tidy_map m -> x ∈ names_at m k -> x <> "" /\ TrimSpace x = x.
Proof.
  unfold names_at. intros Hm. destruct (m !! k) as [l|] eqn:Hk; [|by inversion 1].
  destruct (Hm k l Hk) as (_ & _ & _ & Hl). rewrite Forall_forall in Hl. apply Hl.
Qed.

(** Merging adds names, and forgets none. *)
Lemma elem_of_merge existing incoming x :
  Forall (fun x => x <> "" /\ TrimSpace x = x) existing -> Forall (fun x => x <> "" /\ TrimSpace x = x) incoming ->
  x ∈ mergeStringValues existing incoming <-> x ∈ existing \/ x ∈ incoming.
Proof.
  intros He Hi. unfold mergeStringValues. rewrite elem_of_uniqueSortedStrings. split.
  - intros (_ & v & [Hv|Hv]%elem_of_app & ->); [left|right].
    + rewrite Forall_forall in He. by destruct (He v Hv) as [_ ->].
    + rewrite Forall_forall in Hi. by destruct (Hi v Hv) as [_ ->].
  - rewrite !Forall_forall in He, Hi. intros [Hx|Hx].
    + destruct (He x Hx) as [Hne Htrim]. split; [done|]. exists x. rewrite elem_of_app. auto.
    + destruct (Hi x Hx) as [Hne Htrim]. split; [done|]. exists x. rewrite elem_of_app. auto.
Qed.

Lemma attach_spec m key vals : tidy_map m -> tidy_names vals ->
  tidy_map (attach m key vals)
  /\ forall k x, x ∈ names_at (attach m key vals) k <-> x ∈ names_at m k \/ k = key /\ x ∈ vals.
Proof.
  intros Hm (_ & _ & Hv). destruct vals as [|v vals]; [cbn; split; [done|set_solver]|].
  assert (Forall (fun x => x <> "" /\ TrimSpace x = x) (names_at m key)) as He
    by (apply Forall_forall; intros x; by apply names_at_tidy).
  unfold attach. fold (names_at m key). split.
  - intros k l [[<- <-]|[_ Hl]]%lookup_insert_Some; [|by apply (Hm k)].
    split; [|apply uniqueSortedStrings_tidy]. intros Hnil.
    assert (v ∈ mergeStringValues (names_at m key) (v :: vals)) as Hin
      by (apply elem_of_merge; [done..|right; left]).
    rewrite Hnil in Hin. inversion Hin.
  - intros k x. unfold names_at at 1. destruct (decide (k = key)) as [->|Hk].
    + rewrite lookup_insert_eq. change (default [] (Some ?l)) with l. rewrite elem_of_merge by done. naive_solver.
    + rewrite lookup_insert_ne by done. fold (names_at m k). naive_solver.
Qed.

(** What a walk over the services attaches, of their networks or of their volumes. *)
Definition attach_all (vals : ServiceSummary -> list string) (m : gmap string (list string)) (svc : ServiceSummary)
  : gmap string (list string) :=
  foldl (fun m key => attach m key (uniqueSortedStrings (vals svc))) m (serviceKeys svc).

Lemma buildAttachmentMaps_split stacks :
  buildAttachmentMaps stacks = (foldl (attach_all ss_Networks) ∅ (stacks ≫= sk_Services),
                                foldl (attach_all ss_Volumes) ∅ (stacks ≫= sk_Services)).
Proof.
  unfold buildAttachmentMaps. generalize (∅ : gmap string (list string)) at 1 3.
  generalize (∅ : gmap string (list string)). induction (stacks ≫= sk_Services) as [|svc l IH]; intros v n; [done|].
  cbn [foldl]. rewrite <- IH. f_equal. unfold attach_service, attach_all.
  revert v n. induction (serviceKeys svc) as [|k ks IHk]; intros v n; [done|]. cbn. apply IHk.
Qed.

Lemma attach_all_spec vals m svc : tidy_map m ->
  tidy_map (attach_all vals m svc)
  /\ forall k x, x ∈ names_at (attach_all vals m svc) k
       <-> x ∈ names_at m k \/ k ∈ serviceKeys svc /\ x ∈ uniqueSortedStrings (vals svc).
Proof.
  unfold attach_all. revert m. induction (serviceKeys svc) as [|key keys IH]; intros m Hm;
    [cbn; split; [done|set_solver]|].
  destruct (attach_spec m key _ Hm (uniqueSortedStrings_tidy (vals svc))) as [Hm' Hin]. cbn [foldl].
  destruct (IH _ Hm') as [Ht Hk]. split; [done|]. intros k x. rewrite Hk, Hin, elem_of_cons. naive_solver.
Qed.

Lemma attached_spec vals svcs :
  tidy_map (foldl (attach_all vals) ∅ svcs)
  /\ forall k x, x ∈ names_at (foldl (attach_all vals) ∅ svcs) k
       <-> exists svc, svc ∈ svcs /\ k ∈ serviceKeys svc /\ x ∈ uniqueSortedStrings (vals svc).
Proof.
  induction svcs as [|svc svcs [Hm IH]] using rev_ind.
  - split; [by intros k l|]. intros k x. change (names_at _ k) with (@nil string). set_solver.
  - rewrite foldl_app. cbn [foldl]. destruct (attach_all_spec vals _ svc Hm) as [Ht Hk].
    split; [done|]. intros k x. rewrite Hk, IH. set_solver.
Qed.

(** What is attached to a container.  Under a name the dashboard lists exactly the
    networks, and exactly the volumes, of the services that have that name as their
    container's or their own, each once, in order, trimmed. *)
Theorem attachments_exact stacks k x :
  let nv := buildAttachmentMaps stacks in
  let of_services vals := exists st svc, st ∈ stacks /\ svc ∈ sk_Services st
    /\ k ∈ serviceKeys svc /\ x <> "" /\ exists v, v ∈ vals svc /\ x = TrimSpace v in
  (x ∈ names_at nv.1 k <-> of_services ss_Networks) /\ tidy_names (names_at nv.1 k)
  /\ (x ∈ names_at nv.2 k <-> of_services ss_Volumes) /\ tidy_names (names_at nv.2 k).
Proof.
  rewrite buildAttachmentMaps_split. cbn [fst snd].
  assert (forall vals, (x ∈ names_at (foldl (attach_all vals) ∅ (stacks ≫= sk_Services)) k
    <-> exists st svc, st ∈ stacks /\ svc ∈ sk_Services st /\ k ∈ serviceKeys svc
          /\ x <> "" /\ exists v, v ∈ vals svc /\ x = TrimSpace v)
    /\ tidy_names (names_at (foldl (attach_all vals) ∅ (stacks ≫= sk_Services)) k)) as H.
  { intros vals. destruct (attached_spec vals (stacks ≫= sk_Services)) as [Ht Hin]. split.
    - rewrite Hin. setoid_rewrite list_elem_of_bind. setoid_rewrite elem_of_uniqueSortedStrings. naive_solver.
    - unfold names_at. destruct (_ !! k) as [l|] eqn:Hk; [by apply (Ht k)|]. repeat constructor. }
  cbv zeta. pose proof (H ss_Networks) as []. pose proof (H ss_Volumes) as []. auto.
Qed.

(** ** The order of the stacks and of their services *)

Section Order.
Context `{MapRange} `{Decoders} `{SortSlice}.

Lemma service_less_order (l : list ServiceSummary) :
  StronglySorted String.le (ss_Service <$> sort_slice service_less l).
Proof.
  assert (forall a b, service_less a b = false <-> String.le (ss_Service b) (ss_Service a)) as Hle.
  { intros a b. unfold service_less. by rewrite negb_false_iff, bool_decide_eq_true. }
  assert (StronglySorted (fun x y => service_less y x = false) (sort_slice service_less l)) as Hs.
  { apply sort_slice_sorted.
    - intros x. by apply Hle.
    - intros x y z Hxy Hyz. unfold service_less in *. boolify. apply negb_true_iff, bool_decide_eq_false.
      intros Hzx. destruct (total String.le (ss_Service y) (ss_Service z)) as [|Hzy]; [|done].
      apply Hxy. by transitivity (ss_Service z).
    - intros x y z Hxy%Hle Hyz%Hle. apply Hle. by transitivity (ss_Service y). }
  induction Hs as [|x xs Hs IH Hall]; [constructor|]. cbn. constructor; [done|].
  apply Forall_fmap. eapply Forall_impl; [exact Hall|]. intros y Hy. by apply Hle in Hy.
Qed.

#[local] Instance ComposeService_inhabited : Inhabited ComposeService := populate (mkService "" "" [] [] [] ∅).

(** However the map of services is walked, they come by name. *)
Lemma services_by_name (doc : ComposeConfigDoc) :
  sort_slice service_less ((fun e => service_summary e.1 e.2) <$> map_range "dashboard services" doc)
  = (fun n => service_summary n (doc !!! n)) <$> sorted_keys doc.
Proof.
  set (l := sort_slice _ _).
  assert (forall x, x ∈ l -> x = service_summary (ss_Service x) (doc !!! ss_Service x)) as Hl.
  { intros x Hx. unfold l in Hx. rewrite sort_slice_perm in Hx.
    apply list_elem_of_fmap in Hx as ([n svc] & -> & Hn%elem_of_map_range). cbn.
    by rewrite (lookup_total_correct doc n svc). }
  assert (ss_Service <$> l = sorted_keys doc) as <-.
  { apply (StronglySorted_unique String.le); [apply service_less_order | apply sort_strings_sorted|].
    unfold l, sorted_keys, keys. rewrite sort_slice_perm, sort_strings_perm, <- (map_range_perm "dashboard services").
    by rewrite <- list_fmap_compose. }
  rewrite <- list_fmap_compose. clear -Hl. induction l as [|x l IH]; [done|]. cbn. f_equal.
  - apply Hl. left.
  - apply IH. intros y Hy. apply Hl. by right.
Qed.

(** The services shown for a compose file. *)
Definition shown_services (doc : ComposeConfigDoc) : list ServiceSummary :=
  (fun n => service_summary n (doc !!! n)) <$> sorted_keys doc.

Lemma loadServices_exec cfg cache name stack t r :
  exec (loadServices cfg cache name stack) t r ->
  match r.2 with
  | Ok services => exists doc, services = shown_services doc
  | Err e => exists c, e = wrap "dashboard.data.loadContainers" Internal c "failed for stack: %s" [name]
  end.
Proof.
  unfold loadServices. intros (t1 & t2 & [cache' [doc|e]] & -> & _ & [-> ->])%exec_bind; cbn; [|by eexists].
  exists doc. apply services_by_name.
Qed.

(** What a listing of the stacks gives. *)
Definition in_order (cfg : Config) (r : res (compose_cache * list StackSummary)) : Prop :=
  match r with
  | Ok (_, l) => sk_Name <$> l = sorted_keys (GetAllStacks cfg)
                 /\ Forall (fun st => exists doc, sk_Services st = shown_services doc) l
  | Err e => exists name c, is_Some (GetAllStacks cfg !! name)
               /\ e = wrap "dashboard.data.loadContainers" Internal c "failed for stack: %s" [name]
  end.

(** The stacks and their services by name.  However the maps of stacks and of
    services are walked, and however [sort.Slice] breaks ties, the summaries are
    those of the stacks of the manifest, in the order of their names, and each lists
    the services of a compose file in the order of theirs; or the first stack whose
    compose file cannot be read is named in the error. *)
Lemma summaries_in_order cfg cache : wp (StackSummaries cfg cache) (fun _ r => in_order cfg r).
Proof.
  unfold StackSummaries. cbv zeta. rewrite sorted_keys_range.
  set (ok := fun done (st : compose_cache * list StackSummary) => sk_Name <$> st.2 = done
    /\ Forall (fun s => exists doc, sk_Services s = shown_services doc) st.2).
  assert (forall l done st, ok done st -> (forall n, n ∈ l -> is_Some (GetAllStacks cfg !! n)) ->
    wp (for_each_res (fun (st : compose_cache * list StackSummary) name =>
          r ← loadServices cfg st.1 name (default empty_stack (GetAllStacks cfg !! name));
          mret (match r.2 with
                | Ok services => Ok (r.1, st.2 ++ [mkStackSummary name services])
                | Err e => Err e
                end)) st l)
      (fun _ r => match r with
       | Ok st => ok (done ++ l) st
       | Err e => exists name c, is_Some (GetAllStacks cfg !! name)
                    /\ e = wrap "dashboard.data.loadContainers" Internal c "failed for stack: %s" [name]
       end)) as Hgen.
  { induction l as [|n l IH]; intros done st Hst Hin; cbn [for_each_res].
    - apply wp_ret. by rewrite app_nil_r.
    - apply wp_bind, wp_bind. intros t r Hr%loadServices_exec. apply wp_ret. destruct (r.2) as [services|e].
      + destruct Hst as [Hn Hall]. destruct Hr as [doc ->].
        eapply wp_mono; [apply (IH (done ++ [n]))|].
        * split; cbn; [by rewrite fmap_app, Hn|]. apply Forall_app. split; [done|]. repeat constructor. by exists doc.
        * intros m Hm. apply Hin. by right.
        * intros t' r'. by rewrite <- (assoc_L (++)).
      + apply wp_ret. destruct Hr as [c ->]. exists n, c. split; [|done]. apply Hin. left. }
  eapply wp_mono; [apply (Hgen (sorted_keys (GetAllStacks cfg)) [] (cache, []))|].
  - split; [done|constructor].
  - intros n. apply elem_of_sorted_keys.
  - intros t [[c l]|e]; [|done]. done.
Qed.
End Order.
