(* ===== verification/DashboardView.v ===== *)
(** * The layout of the dashboard ([internal/cli/dashboardcmd]: [view.go],
    [view_formatters.go], [view_widgets.go], [command_palette.go], [components])

    How the width of the terminal is shared, how texts are shortened, and what the
    parts of the screen consist of.  Colours and the measuring of text are
    lipgloss's. *)

From S2P Require Import Prelude GoStrings GoUtf8 Util Apperr Filesets Effects Docker DockerExec Client ClientResources DashboardData.
From Stdlib Require Import Ascii.

(** ** Widths *)

Definition leftMinWidth : Z := 30.
Definition leftMaxWidth : Z := 40.
Definition rightMinWidth : Z := 20.
Definition rightMaxWidth : Z := 30.
Definition centerMinWidth : Z := 40.
Definition paddingHorizontal : Z := 1.
Definition totalHorizontalPadding : Z := paddingHorizontal * 2.
Definition leftOverhead : Z := 2.
Definition centerOverhead : Z := 4.
Definition rightOverhead : Z := 2.

Definition squeeze (left center right usable : Z) : Z * Z * Z :=
  let deficit := (left + right + center - usable)%Z in
  if (0 <? deficit)%Z then
    let squeezeLeft := Z.min (Z.quot deficit 2 + Z.rem deficit 2) (left - 1) in
    let deficit := (deficit - squeezeLeft)%Z in
    let squeezeRight := Z.min deficit (right - 1) in
    (left - squeezeLeft, center, right - squeezeRight)%Z
  else (left, center, right).

Definition computeColumnWidths (total : Z) : Z * Z * Z :=
  if (total <=? 0)%Z then (1, 1, 1)%Z else
  let usable := (total - (leftOverhead + centerOverhead + rightOverhead))%Z in
  if (usable <? 3)%Z then (1, 1, 1)%Z else
  let left := leftMinWidth in
  let right := rightMinWidth in
  let center := (usable - left - right)%Z in
  if (center <? 1)%Z then squeeze left 1 right usable else
  let extra := (usable - (leftMinWidth + rightMinWidth + centerMinWidth))%Z in
  if (extra <=? 0)%Z then (left, Z.max 1 center, right) else
  let expandLeft := Z.min (Z.quot extra 2) (leftMaxWidth - leftMinWidth) in
  let expandRight := Z.min (extra - expandLeft) (rightMaxWidth - rightMinWidth) in
  let left := (leftMinWidth + expandLeft)%Z in
  let right := (rightMinWidth + expandRight)%Z in
  let center := (usable - left - right)%Z in
  (left, if (center <? 1)%Z then 1%Z else center, right).

Definition commandPaletteMinWidth : Z := 34.
Definition commandPaletteMaxWidth : Z := 64.
Definition contentPaddingLeft : Z := 2.
Definition contentPaddingRight : Z := 2.

Definition commandPaletteWidth (total : Z) : Z :=
  if (total <=? 0)%Z then commandPaletteMinWidth else
  let width := (total - 6)%Z in
  let width := if (width <? commandPaletteMinWidth)%Z then (total - 2)%Z else width in
  let width := if (width <? 1)%Z then 1%Z else width in
  let width := if (commandPaletteMaxWidth <? width)%Z then commandPaletteMaxWidth else width in
  let width := if (total <? width)%Z then total else width in
  let minContent := (contentPaddingLeft + contentPaddingRight + 1)%Z in
  if (width <? minContent)%Z then
    let width := Z.min total minContent in if (width <? 1)%Z then 1%Z else width
  else width.

Definition commandListContentWidth (paletteWidth : Z) : Z :=
  let width := (Z.max 1 (paletteWidth - 2) - (contentPaddingLeft + contentPaddingRight))%Z in
  if (width <? 1)%Z then 1%Z else width.

(** *** The widths fit *)

(** The three columns share the terminal exactly, from twenty columns up; the
    outer ones stay within their bounds from fifty-nine up. *)
Theorem columns_fill total : (20 <= total)%Z ->
  let '(l, c, r) := computeColumnWidths total in
  (l + c + r + leftOverhead + centerOverhead + rightOverhead = total)%Z
  /\ (1 <= l <= leftMaxWidth)%Z /\ (1 <= c)%Z /\ (1 <= r <= rightMaxWidth)%Z
  /\ ((59 <= total)%Z -> (leftMinWidth <= l)%Z /\ (rightMinWidth <= r)%Z)
  /\ ((98 <= total)%Z -> (centerMinWidth <= c)%Z).
Proof.
  intros Ht. unfold computeColumnWidths, squeeze, leftOverhead, centerOverhead, rightOverhead, leftMinWidth,
    leftMaxWidth, rightMinWidth, rightMaxWidth, centerMinWidth.
  repeat match goal with |- context [(?a <=? ?b)%Z] => destruct (Z.leb_spec a b) end; try lia;
  repeat match goal with |- context [(?a <? ?b)%Z] => destruct (Z.ltb_spec a b) end; try lia;
  Z.to_euclidean_division_equations; lia.
Qed.

Lemma columns_fill_witness :
  computeColumnWidths 20 = (10, 1, 1)%Z /\ computeColumnWidths 120 = (40, 42, 30)%Z
  /\ let '(l, c, r) := computeColumnWidths 20 in (l + c + r + 8 = 20)%Z.
Proof.
  split; [reflexivity|]. split; [reflexivity|].
  pose proof (columns_fill 20 ltac:(lia)) as H. vm_compute in H |- *. apply H.
Defined.

(** Below twenty they do not fit: half of what is missing is asked of the right
    column, which can give nineteen at most, and the left is not asked for the rest. *)
Example columns_overflow :
  Forall (fun total => let '(l, c, r) := computeColumnWidths total in (total < l + c + r + 8)%Z)
    [11; 12; 13; 14; 15; 16; 17; 18; 19]%Z.
Proof. repeat constructor. Qed.

(** The palette fits the terminal, and its list the palette. *)
Lemma palette_fits total : (1 <= total)%Z ->
  (1 <= commandPaletteWidth total <= total)%Z /\ (commandPaletteWidth total <= commandPaletteMaxWidth)%Z
  /\ (1 <= commandListContentWidth (commandPaletteWidth total))%Z
  /\ ((9 <= total)%Z -> (commandListContentWidth (commandPaletteWidth total) + 6 <= commandPaletteWidth total)%Z).
Proof.
  intros Ht. unfold commandListContentWidth, commandPaletteWidth, commandPaletteMinWidth, commandPaletteMaxWidth,
    contentPaddingLeft, contentPaddingRight.
  destruct (Z.leb_spec total 0); [lia|]. cbv zeta.
  repeat match goal with |- context [(?a <? ?b)%Z] =>
    lazymatch a with context [if _ then _ else _] => fail | _ =>
    lazymatch b with context [if _ then _ else _] => fail | _ => destruct (Z.ltb_spec a b) end end end; lia.
Qed.

(** ** Shortening *)

Section Shorten.
(** [lipgloss.Width]: the columns a text takes. *)
Context (Width : string -> Z).

Definition ellipsis : string := "...".

(** The runes that fit into [target] columns, from the front. *)
Fixpoint fitting (target current : Z) (l : list string) : list string :=
  match l with
  | [] => []
  | r :: l => if (target <? current + Width r)%Z then [] else r :: fitting target (current + Width r) l
  end.

Definition truncateRight (value : string) (width : Z) : string :=
  if (width <=? 0)%Z then "" else
  if (Width value <=? width)%Z then value else
  if (width <=? Width ellipsis)%Z
  then String.substring 0 (Z.to_nat (Z.min width (Z.of_nat (String.length ellipsis)))) ellipsis else
  rune_text (fitting (width - Width ellipsis) 0 (runes value)) +:+ ellipsis.

(** [start] of the loop from the end: it stops before a rune that does not fit, but
    the rune it stops at is already counted out of the prefix. *)
Fixpoint back_from (target current : Z) (rev_runes kept : list string) : list string :=
  match rev_runes with
  | [] => kept
  | r :: l => if (current <? target)%Z
              then if (target <? current + Width r)%Z then r :: kept
                   else back_from target (current + Width r) l (r :: kept)
              else kept
  end.

Definition truncateLeft (value : string) (width : Z) : string :=
  if (width <=? 0)%Z then "" else
  if (Width value <=? width)%Z then value else
  if (width <=? Width ellipsis)%Z
  then String.substring 0 (Z.to_nat (Z.min width (Z.of_nat (String.length ellipsis)))) ellipsis else
  ellipsis +:+ rune_text (back_from (width - Width ellipsis) 0 (reverse (runes value)) []).

Definition availableValueWidth (totalWidth : Z) (key : string) : Z :=
  Z.max 0 (totalWidth - Width (key +:+ ": ")).
End Shorten.

Section Shortened.
Context (Width : string -> Z).
Context (Width_empty : Width "" = 0%Z).
(** Runes side by side take no more columns than one by one, and dots one each. *)
Context (Width_app : forall s t, (Width (s +:+ t) <= Width s + Width t)%Z).
Context (Width_dots : Width "." = 1%Z /\ Width ".." = 2%Z /\ Width ellipsis = 3%Z).

Definition columns (l : list string) : Z := foldr Z.add 0%Z (Width <$> l).

Lemma columns_cons r l : columns (r :: l) = (Width r + columns l)%Z.
Proof. done. Qed.

Lemma Width_rune_text l : (Width (rune_text l) <= columns l)%Z.
Proof using Width_empty Width_app.
  clear Width_dots. induction l as [|r l IH]; [cbn; lia|]. rewrite columns_cons. cbn [rune_text foldr].
  fold (rune_text l). pose proof (Width_app r (rune_text l)). lia.
Qed.

Lemma fitting_fits target current l : (current <= target)%Z -> (current + columns (fitting Width target current l) <= target)%Z.
Proof.
  revert current. induction l as [|r l IH]; intros current Hc; cbn [fitting]; [cbn; lia|].
  destruct (Z.ltb_spec target (current + Width r)); [cbn; lia|]. rewrite columns_cons.
  pose proof (IH (current + Width r)%Z). lia.
Qed.

Lemma fitting_prefix target current l : fitting Width target current l `prefix_of` l.
Proof.
  revert current. induction l as [|r l IH]; intros current; cbn; [done|].
  case_match; [apply prefix_nil|]. by apply prefix_cons.
Qed.

Lemma dots_fit width : (0 < width <= 3)%Z ->
  (Width (String.substring 0 (Z.to_nat (Z.min width (Z.of_nat (String.length ellipsis)))) ellipsis) <= width)%Z.
Proof using Width_dots.
  intros Hw. assert (width = 1 \/ width = 2 \/ width = 3)%Z as [->|[->| ->]] by lia; vm_compute Z.to_nat; cbn; unfold ellipsis in *; lia.
Qed.

(** A text shortened on the right fits. *)
Lemma truncateRight_fits value width : (0 <= width)%Z -> (Width (truncateRight Width value width) <= width)%Z.
Proof using Width_empty Width_app Width_dots.
  intros Hw. unfold truncateRight. destruct (Z.leb_spec width 0); [lia|].
  destruct (Z.leb_spec (Width value) width); [done|]. destruct Width_dots as (_ & _ & H3). rewrite H3.
  destruct (Z.leb_spec width 3); [by apply dots_fit|].
  pose proof (Width_app (rune_text (fitting Width (width - 3) 0 (runes value))) ellipsis).
  pose proof (Width_rune_text (fitting Width (width - 3) 0 (runes value))).
  pose proof (fitting_fits (width - 3) 0 (runes value)). lia.
Qed.

Lemma back_from_fits k target current l kept : Forall (fun r => (Width r <= k)%Z) l -> (1 <= k)%Z ->
  (current = columns kept)%Z -> (current <= target)%Z ->
  (columns (back_from Width target current l kept) <= target + k - 1)%Z.
Proof.
  intros Hl Hk. revert current kept. induction Hl as [|r l Hr _ IH]; intros current kept Hc Ht; cbn [back_from]; [lia|].
  destruct (Z.ltb_spec current target); [|lia].
  destruct (Z.ltb_spec target (current + Width r)); [|apply IH]; rewrite ?columns_cons; lia.
Qed.

(** Shortened on the left it fits when no rune is wider than a column; a rune of
    [k] columns may stand out by [k - 1]. *)
Lemma truncateLeft_fits k value width : (1 <= k)%Z -> Forall (fun r => (Width r <= k)%Z) (runes value) ->
  (0 <= width)%Z -> (Width (truncateLeft Width value width) <= width + k - 1)%Z.
Proof using Width_empty Width_app Width_dots.
  intros Hk Hr Hw. unfold truncateLeft. destruct (Z.leb_spec width 0); [lia|].
  destruct (Z.leb_spec (Width value) width); [lia|]. destruct Width_dots as (_ & _ & H3). rewrite H3.
  destruct (Z.leb_spec width 3); [pose proof (dots_fit width); lia|].
  set (l := back_from Width (width - 3) 0 (reverse (runes value)) []).
  pose proof (Width_app ellipsis (rune_text l)). pose proof (Width_rune_text l).
  assert (columns l <= width - 3 + k - 1)%Z; [|lia].
  apply back_from_fits; [by apply Forall_reverse | done | done | lia].
Qed.
End Shortened.

(** One column for a byte, two for the other runes: "日本" shortened to six columns
    takes seven. *)
Definition wide_runes (s : string) : Z :=
  foldr (fun r n => ((if (String.length r =? 1)%nat then 1 else 2) + n)%Z) 0%Z (runes s).
Example truncateLeft_stands_out :
  truncateLeft wide_runes "/srv/日本" 6 = "...日本" /\ wide_runes "...日本" = 7%Z
  /\ truncateRight wide_runes "日本/srv" 6 = "日...".
Proof. by vm_compute. Qed.

(** ** Parts of the screen *)

(** Styles, by what the code sets of them. *)
Record style := mkStyle {
  sy_Foreground : string; sy_Bold : bool; sy_Italic : bool; sy_Width : option Z; sy_MaxWidth : option Z }.
Definition coloured (colour : string) : style := mkStyle colour false false None None.
Definition Bold (s : style) : style := mkStyle (sy_Foreground s) true (sy_Italic s) (sy_Width s) (sy_MaxWidth s).
Definition Italic (s : style) : style := mkStyle (sy_Foreground s) (sy_Bold s) true (sy_Width s) (sy_MaxWidth s).
(** [.Width(w).MaxWidth(w)] *)
Definition clamped (w : Z) (s : style) : style := mkStyle (sy_Foreground s) (sy_Bold s) (sy_Italic s) (Some w) (Some w).
Definition plain : style := mkStyle "" false false None None.

Definition FgBase : string := "#C8D3F5".
Definition FgHalfMuted : string := "#828BB8".
Definition FgMuted : string := "#444A73".
Definition FgSubtle : string := "#313657".
Definition Success : string := "#12C78F".
Definition Error_colour : string := "#EB4268".
Definition Warning : string := "#E8FE96".
Definition Primary : string := "#5EC6F6".

(** Lipgloss, and the gradient, which is computed with floating point numbers. *)
Class Lipgloss := {
  Width : string -> Z;
  Height : string -> Z;
  Render : style -> string -> string;
  RenderThemeGradient : string -> string;
  (** A style of a width renders no wider than it. *)
  Width_clamped : forall w s t, (0 < w)%Z -> (Width (Render (clamped w s) t) <= w)%Z;
}.

Fixpoint Repeat (s : string) (n : nat) : string :=
  match n with 0 => "" | S n => s +:+ Repeat s n end.

Section Parts.
Context `{Lipgloss}.

(** *** Headers ([header.go]) *)

Definition patternChar (pattern : string) : string :=
  if String.eqb pattern "slash" then "╱" else if String.eqb pattern "dash" then "━" else pattern.

(** Cut off what is too wide. *)
Definition at_most (w : Z) (text : string) : string :=
  if (w <? Width text)%Z then Render (clamped w plain) text else text.

Definition RenderHeader (title : string) (containerWidth padding : Z) (pattern : string) : string :=
  let pc := patternChar pattern in
  let contentWidth := (containerWidth - padding)%Z in
  if (contentWidth <=? 0)%Z then "" else
  if bool_decide (TrimSpace title = "") then
    at_most contentWidth (Render (coloured FgSubtle) (Repeat pc (Z.to_nat contentWidth))) else
  let base := "◇ " +:+ title +:+ " " in
  let slashCount := (contentWidth - Width base)%Z in
  if (slashCount <? 0)%Z then Render (clamped contentWidth plain) (Render (coloured FgHalfMuted) base) else
  at_most contentWidth (Render (coloured FgHalfMuted) base
                        +:+ Render (coloured FgSubtle) (Repeat pc (Z.to_nat slashCount))).

Definition first_runes (contentWidth : Z) (base : string) : string :=
  if (contentWidth <? Z.of_nat (length (runes base)))%Z
  then rune_text (take (Z.to_nat contentWidth) (runes base)) else base.

Definition RenderHeaderActive (title : string) (containerWidth padding : Z) (pattern : string) : string :=
  let pc := patternChar pattern in
  let contentWidth := (containerWidth - padding)%Z in
  if (contentWidth <=? 0)%Z then "" else
  if bool_decide (TrimSpace title = "") then
    at_most contentWidth (RenderThemeGradient (Repeat pc (Z.to_nat contentWidth))) else
  let base := "◇ " +:+ title +:+ " " in
  let slashCount := (contentWidth - Width base)%Z in
  if (slashCount <? 0)%Z then
    Render (clamped contentWidth plain) (RenderThemeGradient (first_runes contentWidth base)) else
  at_most contentWidth (RenderThemeGradient (base +:+ Repeat pc (Z.to_nat slashCount))).

(** The headers of the right column, kept by title and width. *)
Definition grad_header (title : string) (contentWidth : Z) : string :=
  let base := "◇ " +:+ title +:+ " " in
  let slashCount := (contentWidth - Width base)%Z in
  let raw := if (slashCount <? 0)%Z then first_runes contentWidth base
             else base +:+ Repeat "╱" (Z.to_nat slashCount) in
  Render (clamped contentWidth plain) (RenderThemeGradient raw).

Definition buildGradHeader (cache : gmap string string) (title : string) (contentWidth : Z)
  : gmap string string * string :=
  let cacheKey := "hdr:" +:+ title +:+ ":" +:+ FormatInt contentWidth in
  match cache !! cacheKey with
  | Some s => (cache, s)
  | None => let rendered := grad_header title contentWidth in (<[cacheKey := rendered]> cache, rendered)
  end.

(** *** Entries ([simple.go], [network.go], [volume.go]) *)

Definition RenderSimple (key value : string) : string :=
  Render (coloured FgHalfMuted) (key +:+ ": ") +:+ Render (Italic (coloured FgMuted)) value.

Definition RenderNetwork (name driver : string) : string :=
  Render (coloured FgHalfMuted) name +:+ Render (coloured FgHalfMuted) " - " +:+ Render (Italic (coloured FgMuted)) driver.

Definition treeStyle : style := coloured FgBase.
Definition textStyle : style := coloured FgHalfMuted.
Definition titleStyle : style := Bold (coloured FgBase).

Definition RenderVolume (name mountPath detail : string) : string :=
  Join [Render treeStyle "" +:+ Render titleStyle name; Render treeStyle "├ " +:+ Render textStyle mountPath;
        Render treeStyle "└ " +:+ Render (Italic textStyle) detail] nl.

(** *** Texts of the right column ([view_formatters.go]) *)

Definition or_else (value placeholder : string) : string :=
  let v := TrimSpace value in if bool_decide (v = "") then placeholder else v.

Definition displayVersion (buildVersion version : string) : string := or_else version buildVersion.
Definition displayIdentifier (identifier : string) : string := or_else identifier "(unset)".
Definition displayContextName (name : string) : string := or_else name "default".
Definition displayDockerHost (host : string) : string := or_else host "(unknown)".
Definition displayEngineVersion (version : string) : string := or_else version "(unknown)".
Definition displayManifestPath (path : string) : string := or_else path "(unknown)".
Definition displayVolumeMount (mount : string) : string := or_else mount "(no mountpoint)".
Definition displayVolumeDriver (driver : string) : string := or_else driver "(driver unknown)".
Definition displayNetworkDriver (driver : string) : string := or_else driver "(driver unknown)".

Definition renderSimpleWithWidth (key value : string) (totalWidth : Z) : string :=
  RenderSimple key (truncateRight Width value (availableValueWidth Width totalWidth key)).

Definition renderFilterPlaceholder (width : Z) : string :=
  let style := Italic (coloured FgSubtle) in
  Render (if (0 <? width)%Z then clamped width style else style) "Press / to filter stacks".

(** *** Items of the lists ([stacks.go], [command_palette.go]) *)

Definition clampLine (line : string) (width : Z) : string :=
  if (width <=? 0)%Z then line else Render (clamped width plain) line.

Definition fitLinesToHeight (body : list string) (statusLine : string) (h : nat) (width : Z) : list string :=
  if (h <=? 1)%nat then [clampLine statusLine width] else
  let show := h - 1 in
  let result := if (show <=? length body)%nat then take show body
                else body ++ replicate (show - length body) "" in
  (fun line => clampLine line width) <$> (result ++ [statusLine]).

(** The line of the container, or of the service when no container is known. *)
Definition item_first (i : StackItem) (container : string) : string :=
  if bool_decide (TrimSpace (it_ContainerName i) <> "") then it_ContainerName i
  else if bool_decide (TrimSpace (it_Service i) <> "") then it_Service i else container.

Definition item_body (tree text title : style) (i : StackItem) : list string :=
  (Render tree "" +:+ Render title (it_TitleText i))
  :: imap (fun idx container =>
       let display := if (idx =? 0)%nat then item_first i container else container in
       Render tree "├ " +:+ Render (if (idx mod 2 =? 1)%nat then Italic text else text) display) (it_Containers i).

Definition bullet (i : StackItem) : string :=
  let kind := TrimSpace (it_StatusKind i) in
  if String.eqb kind "success" then Render (coloured Success) "●"
  else if String.eqb kind "warning" then Render (coloured Warning) "●"
  else if String.eqb kind "error" then Render (coloured Error_colour) "●" else "".

Definition item_status (tree italic : style) (i : StackItem) : string :=
  let text := Render italic (TrimSpace (it_Status i)) in
  Render tree "└ " +:+ (if bool_decide (bullet i <> "") then bullet i +:+ " " +:+ text else text).

Definition StacksDelegate_Height : nat := 4.
Definition StacksDelegate_Render (width : Z) (selected : bool) (i : StackItem) : string :=
  if selected then
    let text := coloured FgBase in
    Render (Bold plain) (Join (fitLinesToHeight (item_body text text (Bold (coloured Primary)) i)
                                 (item_status text (Italic text) i) StacksDelegate_Height width) nl)
  else Join (fitLinesToHeight (item_body treeStyle textStyle titleStyle i)
               (item_status treeStyle (Italic textStyle) i) StacksDelegate_Height width) nl.

Definition commandDelegate_Render (width : Z) (selected : bool) (title : string) : string :=
  let line := if selected then Render (coloured Primary) "> " +:+ Render (Bold (coloured FgBase)) title
              else Render (coloured FgHalfMuted) "* " +:+ Render (coloured FgHalfMuted) title in
  if (0 <? width)%Z then Render (clamped width plain) line else line.

(** *** The volumes and networks of the selected container ([view.go]) *)

Definition muted (text : string) : string := Render (Italic (coloured FgHalfMuted)) text.

(** Of the volumes docker has, those attached. *)
Definition attached_volumes (active : list string) (volumes : list VolumeSummary) : list VolumeSummary :=
  filter (fun v => TrimSpace (vs_Name v) ∈ active) volumes.
Definition renderVolumesSection (active : list string) (volumes : list VolumeSummary) (contentWidth : Z) : string :=
  let lineWidth := Z.max 1 (contentWidth - 2) in
  match (fun v => RenderVolume (vs_Name v) (truncateRight Width (displayVolumeMount (vs_Mountpoint v)) lineWidth)
                    (truncateRight Width (displayVolumeDriver (vs_Driver v)) lineWidth))
        <$> attached_volumes active volumes with
  | [] => muted "(no volumes attached)"
  | blocks => Join blocks (nl +:+ nl)
  end.

Definition attached_networks (active : list string) (networks : list NetworkSummary) : list NetworkSummary :=
  filter (fun n => TrimSpace (ns_Name n) ∈ active) networks.
Definition renderNetworksSection (active : list string) (networks : list NetworkSummary) (contentWidth : Z) : string :=
  match (fun n => let name := truncateRight Width (ns_Name n) contentWidth in
                  RenderNetwork name (truncateRight Width (displayNetworkDriver (ns_Driver n))
                                        (contentWidth - Width name - 3)))
        <$> attached_networks active networks with
  | [] => muted "(no networks attached)"
  | lines => Join lines nl
  end.
End Parts.

(** ** What the parts promise *)

Section PartsLaws.
Context `{Lipgloss}.

Lemma at_most_fits w text : (0 < w)%Z -> (Width (at_most w text) <= w)%Z.
Proof.
  intros Hw. unfold at_most. destruct (Z.ltb_spec w (Width text)); [by apply Width_clamped|done].
Qed.

(** A header is never wider than what its container leaves it. *)
Lemma headers_fit title containerWidth padding pattern : (padding < containerWidth)%Z ->
  (Width (RenderHeader title containerWidth padding pattern) <= containerWidth - padding)%Z
  /\ (Width (RenderHeaderActive title containerWidth padding pattern) <= containerWidth - padding)%Z.
Proof.
  intros Hw. unfold RenderHeader, RenderHeaderActive. cbv zeta.
  destruct (Z.leb_spec (containerWidth - padding) 0); [lia|].
  case_bool_decide; [split; apply at_most_fits; lia|].
  case_match; split; (apply at_most_fits || apply Width_clamped); lia.
Qed.

(** The cache of headers holds what would be rendered. *)
Definition right_titles : list string := ["Docker"; "Volumes"; "Networks"].
Definition header_cache_ok (cache : gmap string string) : Prop :=
  forall title w s, title ∈ right_titles -> cache !! ("hdr:" +:+ title +:+ ":" +:+ FormatInt w) = Some s ->
    s = grad_header title w.

Lemma header_key_inj t1 t2 w1 w2 : t1 ∈ right_titles -> t2 ∈ right_titles ->
  "hdr:" +:+ t1 +:+ ":" +:+ FormatInt w1 = "hdr:" +:+ t2 +:+ ":" +:+ FormatInt w2 -> t1 = t2 /\ w1 = w2.
Proof.
  unfold right_titles. set_unfold. intros H1 H2 Heq.
  destruct H1 as [->|[->|[->|[]]]], H2 as [->|[->|[->|[]]]]; cbn in Heq; try discriminate Heq;
    (split; [done|]); apply FormatInt_inj; by injection Heq.
Qed.

Lemma buildGradHeader_cached cache title w : header_cache_ok cache -> title ∈ right_titles ->
  (buildGradHeader cache title w).2 = grad_header title w /\ header_cache_ok (buildGradHeader cache title w).1.
Proof.
  intros Hc Ht. unfold buildGradHeader. cbv zeta. destruct (cache !! _) as [s|] eqn:Hs; cbn [fst snd].
  - split; [by apply Hc | done].
  - split; [done|]. intros t' w' s' Ht' [[Hk <-]|[_ Hl]]%lookup_insert_Some; [|by apply Hc].
    by apply header_key_inj in Hk as [-> ->].
Qed.

(** An item has as many lines as the list gives it: the first of its body, blank
    ones if there are too few, and the status, which is always the last. *)
Lemma fitLinesToHeight_shape body status h width : 2 <= h ->
  length (fitLinesToHeight body status h width) = h
  /\ last (fitLinesToHeight body status h width) = Some (clampLine status width)
  /\ (forall i line, body !! i = Some line -> i < h - 1 ->
        fitLinesToHeight body status h width !! i = Some (clampLine line width)).
Proof.
  intros Hh. unfold fitLinesToHeight. destruct (Nat.leb_spec h 1); [lia|]. cbv zeta.
  match goal with |- context [?r ++ [status]] => set (result := r) end.
  assert (length result = h - 1) as Hlen.
  { unfold result. destruct (Nat.leb_spec (h - 1) (length body)); [rewrite length_take; lia|].
    rewrite length_app, length_replicate. lia. }
  rewrite length_fmap, length_app. split; [cbn; lia|]. rewrite fmap_app. split; [apply last_snoc|].
  intros i line Hi Hlt. rewrite lookup_app_l by (rewrite length_fmap; lia). rewrite list_lookup_fmap.
  assert (result !! i = Some line) as ->; [|done]. unfold result. case_match.
  - by rewrite lookup_take_lt.
  - apply lookup_app_l_Some. done.
Qed.
End PartsLaws.
