(* ===== verification/Dashboard.v ===== *)
(** * The dashboard ([internal/cli/dashboardcmd]: [update.go], [logs.go],
    [command_actions.go], [model.go], [keys.go], [components/pager.go])

    The state of the dashboard and what each message does to it.  The list, the
    viewport and the help of the terminal library are parameters; a command handed to
    the library is data, and [perform] is what running it does to docker.  Log
    streams and the channel they write to are kept in a store of their own, which the
    dashboard and its goroutines share. *)

From S2P Require Import Prelude GoStrings Util Apperr Manifest Effects Docker DockerExec Lru Client ClientResources Images Terminal DashboardData DashboardView.

(** ** The terminal library *)

(** Messages and commands of its own. *)
Class Messages := { ui_msg : Type; ui_cmd : Type }.

(** The name of an action of the palette. *)
Notation commandAction := string (only parsing).
Definition actionPause : commandAction := "pause".
Definition actionRestart : commandAction := "restart".
Definition actionStop : commandAction := "stop".
Definition actionDelete : commandAction := "delete".

Record commandItem := mkCommand { ci_id : string; ci_title : string }.

Inductive msg `{Messages} :=
| statusesMsg (statuses : gmap Key Status)
| statusTickMsg
| logsTickMsg
| dockerInfoMsg (host version : string)
| volumesMsg (volumes : list VolumeSummary)
| networksMsg (networks : list NetworkSummary)
| startLogsFor (name : string)
| logStreamStartedMsg (cancel : nat)
| KeyMsg (key : string)
| commandActionResultMsg (action : commandAction) (container : string) (err : option error)
| WindowSizeMsg (w h : Z)
| UiMsg (m : ui_msg).

(** Commands; [CNil] is a nil command. *)
Inductive cmd `{Messages} :=
| CNil
| CBatch (l : list cmd)
| CSequence (l : list cmd)
| CQuit
| CSetBackground (colour : string)
| CTick (ms : Z) (m : msg)
| CSleep (ms : Z) (m : msg)
| CMsg (m : msg)
| CFetchStatuses (identifier : string) (stacks : list StackSummary)
| CFetchDockerInfo
| CFetchVolumes
| CFetchNetworks
| CExecute (action : commandAction) (container : string)
| CUi (c : ui_cmd).

(** The list of the library: setting an item changes that one, and nothing else
    changes the items.  The viewport and the help are shown, not asked. *)
Class Bubbles `{Messages} := {
  list_model : Type -> Type;
  list_New : forall {A}, list A -> list_model A;
  Items : forall {A}, list_model A -> list A;
  Index : forall {A}, list_model A -> Z;
  SelectedItem : forall {A}, list_model A -> option A;
  SetItem : forall {A}, list_model A -> nat -> A -> list_model A * option ui_cmd;
  Select : forall {A}, list_model A -> Z -> list_model A;
  SetSize : forall {A}, list_model A -> Z -> Z -> list_model A;
  DisableQuitKeybindings : forall {A}, list_model A -> list_model A;
  list_Update : forall {A}, list_model A -> msg -> list_model A * option ui_cmd;
  viewport : Type;
  viewport_New : viewport;
  SetWidth : viewport -> Z -> viewport;
  SetHeight : viewport -> Z -> viewport;
  vp_SetContent : viewport -> string -> viewport;
  GotoBottom : viewport -> viewport;
  vp_Update : viewport -> msg -> viewport * option ui_cmd;
  vp_View : viewport -> string;
  (** The help for the keys, short or in full. *)
  help_View : bool -> string;
  Items_New : forall A (l : list A), Items (list_New l) = l;
  Items_SetItem : forall A (l : list_model A) i x, Items (SetItem l i x).1 = <[i := x]> (Items l);
  Items_Select : forall A (l : list_model A) i, Items (Select l i) = Items l;
  Items_SetSize : forall A (l : list_model A) w h, Items (SetSize l w h) = Items l;
  Items_DisableQuit : forall A (l : list_model A), Items (DisableQuitKeybindings l) = Items l;
  Items_Update : forall A (l : list_model A) m, Items (list_Update l m).1 = Items l;
}.

(** ** The keys ([keys.go]) *)

Definition Quit_keys : list string := ["q"; "ctrl+c"].
Definition Command_keys : list string := ["ctrl+p"].
Definition CyclePane_keys : list string := ["tab"].
Definition Select_keys : list string := ["enter"].
Definition ToggleHelp_keys : list string := ["?"].
Definition Matches (key : string) (binding : list string) : bool := bool_decide (key ∈ binding).

Section Dashboard.
Context `{Bubbles} `{Lipgloss}.

(** ** The pager of the logs ([pager.go]) *)

Record LogsPager := mkPager { lp_vp : viewport; lp_ready : bool }.
Definition NewLogsPager : LogsPager := mkPager viewport_New false.
Definition pager_SetSize (width height : Z) (p : LogsPager) : LogsPager :=
  mkPager (SetHeight (SetWidth (lp_vp p) width) height) true.
Definition pager_SetContent (content : string) (p : LogsPager) : LogsPager :=
  mkPager (GotoBottom (vp_SetContent (lp_vp p) content)) (lp_ready p).
Definition pager_Update (p : LogsPager) (m : msg) : LogsPager * option ui_cmd :=
  let '(vp, c) := vp_Update (lp_vp p) m in (mkPager vp (lp_ready p), c).
Definition pager_View (p : LogsPager) : string := if lp_ready p then vp_View (lp_vp p) else "".

(** ** The state ([model.go]) *)

(** What [newModel] sets and nothing changes: whether there is a client and a
    provider of states is part of it. *)
Record fixed := mkFixed {
  f_version : string; f_identifier : string; f_contextName : string; f_manifestPath : string;
  f_dockerClient : bool; f_statusProvider : option string; f_stacks : list StackSummary;
  f_containerNetworks : gmap string (list string); f_containerVolumes : gmap string (list string) }.

(** A stream of logs is named by the number it was started under; [m_logCancel] holds
    the stream that would be cancelled and [m_logLines] the channel that is read. *)
Record model := mkModel {
  m_fixed : fixed;
  m_width : Z;
  m_height : Z;
  m_dockerHost : string;
  m_engineVersion : string;
  m_volumes : list VolumeSummary;
  m_networks : list NetworkSummary;
  m_showAll : bool;
  m_list : list_model StackItem;
  m_logsPager : LogsPager;
  m_statusByKey : gmap Key Status;
  m_logCancel : option nat;
  m_selectedName : string;
  m_logsBuf : list string;
  m_logLines : option nat;
  m_pendingSelName : string;
  m_quitting : bool;
  m_activePane : Z;
  m_commandPaletteOpen : bool;
  m_commandList : list_model commandItem }.

(** Assignments to the fields. *)
Definition set_width (v : Z) (m : model) : model :=
  mkModel (m_fixed m) v (m_height m) (m_dockerHost m) (m_engineVersion m) (m_volumes m) (m_networks m)
    (m_showAll m) (m_list m) (m_logsPager m) (m_statusByKey m) (m_logCancel m) (m_selectedName m) (m_logsBuf m)
    (m_logLines m) (m_pendingSelName m) (m_quitting m) (m_activePane m) (m_commandPaletteOpen m) (m_commandList m).
Definition set_height (v : Z) (m : model) : model :=
  mkModel (m_fixed m) (m_width m) v (m_dockerHost m) (m_engineVersion m) (m_volumes m) (m_networks m) (m_showAll m)
    (m_list m) (m_logsPager m) (m_statusByKey m) (m_logCancel m) (m_selectedName m) (m_logsBuf m) (m_logLines m)
    (m_pendingSelName m) (m_quitting m) (m_activePane m) (m_commandPaletteOpen m) (m_commandList m).
Definition set_dockerHost (v : string) (m : model) : model :=
  mkModel (m_fixed m) (m_width m) (m_height m) v (m_engineVersion m) (m_volumes m) (m_networks m) (m_showAll m)
    (m_list m) (m_logsPager m) (m_statusByKey m) (m_logCancel m) (m_selectedName m) (m_logsBuf m) (m_logLines m)
    (m_pendingSelName m) (m_quitting m) (m_activePane m) (m_commandPaletteOpen m) (m_commandList m).
Definition set_engineVersion (v : string) (m : model) : model :=
  mkModel (m_fixed m) (m_width m) (m_height m) (m_dockerHost m) v (m_volumes m) (m_networks m) (m_showAll m)
    (m_list m) (m_logsPager m) (m_statusByKey m) (m_logCancel m) (m_selectedName m) (m_logsBuf m) (m_logLines m)
    (m_pendingSelName m) (m_quitting m) (m_activePane m) (m_commandPaletteOpen m) (m_commandList m).
Definition set_volumes (v : list VolumeSummary) (m : model) : model :=
  mkModel (m_fixed m) (m_width m) (m_height m) (m_dockerHost m) (m_engineVersion m) v (m_networks m) (m_showAll m)
    (m_list m) (m_logsPager m) (m_statusByKey m) (m_logCancel m) (m_selectedName m) (m_logsBuf m) (m_logLines m)
    (m_pendingSelName m) (m_quitting m) (m_activePane m) (m_commandPaletteOpen m) (m_commandList m).
Definition set_networks (v : list NetworkSummary) (m : model) : model :=
  mkModel (m_fixed m) (m_width m) (m_height m) (m_dockerHost m) (m_engineVersion m) (m_volumes m) v (m_showAll m)
    (m_list m) (m_logsPager m) (m_statusByKey m) (m_logCancel m) (m_selectedName m) (m_logsBuf m) (m_logLines m)
    (m_pendingSelName m) (m_quitting m) (m_activePane m) (m_commandPaletteOpen m) (m_commandList m).
Definition set_showAll (v : bool) (m : model) : model :=
  mkModel (m_fixed m) (m_width m) (m_height m) (m_dockerHost m) (m_engineVersion m) (m_volumes m) (m_networks m) v
    (m_list m) (m_logsPager m) (m_statusByKey m) (m_logCancel m) (m_selectedName m) (m_logsBuf m) (m_logLines m)
    (m_pendingSelName m) (m_quitting m) (m_activePane m) (m_commandPaletteOpen m) (m_commandList m).
Definition set_list (v : list_model StackItem) (m : model) : model :=
  mkModel (m_fixed m) (m_width m) (m_height m) (m_dockerHost m) (m_engineVersion m) (m_volumes m) (m_networks m)
    (m_showAll m) v (m_logsPager m) (m_statusByKey m) (m_logCancel m) (m_selectedName m) (m_logsBuf m)
    (m_logLines m) (m_pendingSelName m) (m_quitting m) (m_activePane m) (m_commandPaletteOpen m) (m_commandList m).
Definition set_logsPager (v : LogsPager) (m : model) : model :=
  mkModel (m_fixed m) (m_width m) (m_height m) (m_dockerHost m) (m_engineVersion m) (m_volumes m) (m_networks m)
    (m_showAll m) (m_list m) v (m_statusByKey m) (m_logCancel m) (m_selectedName m) (m_logsBuf m) (m_logLines m)
    (m_pendingSelName m) (m_quitting m) (m_activePane m) (m_commandPaletteOpen m) (m_commandList m).
Definition set_statusByKey (v : gmap Key Status) (m : model) : model :=
  mkModel (m_fixed m) (m_width m) (m_height m) (m_dockerHost m) (m_engineVersion m) (m_volumes m) (m_networks m)
    (m_showAll m) (m_list m) (m_logsPager m) v (m_logCancel m) (m_selectedName m) (m_logsBuf m) (m_logLines m)
    (m_pendingSelName m) (m_quitting m) (m_activePane m) (m_commandPaletteOpen m) (m_commandList m).
Definition set_logCancel (v : option nat) (m : model) : model :=
  mkModel (m_fixed m) (m_width m) (m_height m) (m_dockerHost m) (m_engineVersion m) (m_volumes m) (m_networks m)
    (m_showAll m) (m_list m) (m_logsPager m) (m_statusByKey m) v (m_selectedName m) (m_logsBuf m) (m_logLines m)
    (m_pendingSelName m) (m_quitting m) (m_activePane m) (m_commandPaletteOpen m) (m_commandList m).
Definition set_selectedName (v : string) (m : model) : model :=
  mkModel (m_fixed m) (m_width m) (m_height m) (m_dockerHost m) (m_engineVersion m) (m_volumes m) (m_networks m)
    (m_showAll m) (m_list m) (m_logsPager m) (m_statusByKey m) (m_logCancel m) v (m_logsBuf m) (m_logLines m)
    (m_pendingSelName m) (m_quitting m) (m_activePane m) (m_commandPaletteOpen m) (m_commandList m).
Definition set_logsBuf (v : list string) (m : model) : model :=
  mkModel (m_fixed m) (m_width m) (m_height m) (m_dockerHost m) (m_engineVersion m) (m_volumes m) (m_networks m)
    (m_showAll m) (m_list m) (m_logsPager m) (m_statusByKey m) (m_logCancel m) (m_selectedName m) v (m_logLines m)
    (m_pendingSelName m) (m_quitting m) (m_activePane m) (m_commandPaletteOpen m) (m_commandList m).
Definition set_logLines (v : option nat) (m : model) : model :=
  mkModel (m_fixed m) (m_width m) (m_height m) (m_dockerHost m) (m_engineVersion m) (m_volumes m) (m_networks m)
    (m_showAll m) (m_list m) (m_logsPager m) (m_statusByKey m) (m_logCancel m) (m_selectedName m) (m_logsBuf m) v
    (m_pendingSelName m) (m_quitting m) (m_activePane m) (m_commandPaletteOpen m) (m_commandList m).
Definition set_pendingSelName (v : string) (m : model) : model :=
  mkModel (m_fixed m) (m_width m) (m_height m) (m_dockerHost m) (m_engineVersion m) (m_volumes m) (m_networks m)
    (m_showAll m) (m_list m) (m_logsPager m) (m_statusByKey m) (m_logCancel m) (m_selectedName m) (m_logsBuf m)
    (m_logLines m) v (m_quitting m) (m_activePane m) (m_commandPaletteOpen m) (m_commandList m).
Definition set_quitting (v : bool) (m : model) : model :=
  mkModel (m_fixed m) (m_width m) (m_height m) (m_dockerHost m) (m_engineVersion m) (m_volumes m) (m_networks m)
    (m_showAll m) (m_list m) (m_logsPager m) (m_statusByKey m) (m_logCancel m) (m_selectedName m) (m_logsBuf m)
    (m_logLines m) (m_pendingSelName m) v (m_activePane m) (m_commandPaletteOpen m) (m_commandList m).
Definition set_activePane (v : Z) (m : model) : model :=
  mkModel (m_fixed m) (m_width m) (m_height m) (m_dockerHost m) (m_engineVersion m) (m_volumes m) (m_networks m)
    (m_showAll m) (m_list m) (m_logsPager m) (m_statusByKey m) (m_logCancel m) (m_selectedName m) (m_logsBuf m)
    (m_logLines m) (m_pendingSelName m) (m_quitting m) v (m_commandPaletteOpen m) (m_commandList m).
Definition set_commandPaletteOpen (v : bool) (m : model) : model :=
  mkModel (m_fixed m) (m_width m) (m_height m) (m_dockerHost m) (m_engineVersion m) (m_volumes m) (m_networks m)
    (m_showAll m) (m_list m) (m_logsPager m) (m_statusByKey m) (m_logCancel m) (m_selectedName m) (m_logsBuf m)
    (m_logLines m) (m_pendingSelName m) (m_quitting m) (m_activePane m) v (m_commandList m).
Definition set_commandList (v : list_model commandItem) (m : model) : model :=
  mkModel (m_fixed m) (m_width m) (m_height m) (m_dockerHost m) (m_engineVersion m) (m_volumes m) (m_networks m)
    (m_showAll m) (m_list m) (m_logsPager m) (m_statusByKey m) (m_logCancel m) (m_selectedName m) (m_logsBuf m)
    (m_logLines m) (m_pendingSelName m) (m_quitting m) (m_activePane m) (m_commandPaletteOpen m) v.

Definition newCommandPalette : list_model commandItem :=
  let items := [mkCommand "pause" "Pause"; mkCommand "restart" "Restart"; mkCommand "stop" "Stop";
                mkCommand "delete" "Delete"] in
  SetSize (DisableQuitKeybindings (list_New items)) (commandListContentWidth commandPaletteMinWidth)
    (Z.of_nat (length items)).

(** With the provider of the states that the command sets afterwards. *)
Definition newModel (docker : bool) (provider : option string) (stacks : list StackSummary)
    (version identifier manifestPath contextName dockerHost engineVersion : string) : model :=
  let '(networks, volumes) := buildAttachmentMaps stacks in
  mkModel (mkFixed (TrimSpace version) (TrimSpace identifier) (TrimSpace contextName) (TrimSpace manifestPath)
             docker provider stacks networks volumes)
    0 0 (TrimSpace dockerHost) (TrimSpace engineVersion) [] [] false (list_New (stackItemsFromSummaries stacks))
    NewLogsPager ∅ None "" [] None "" false 0 false newCommandPalette.

Definition selectedKeys (m : model) : string * string :=
  match SelectedItem (m_list m) with
  | None => ("", "")
  | Some item => (TrimSpace (it_ContainerName item), TrimSpace (it_Service item))
  end.
Definition selectedContainerName (m : model) : string :=
  let '(primary, secondary) := selectedKeys m in if bool_decide (primary <> "") then primary else secondary.
Definition selectedVolumeNames (m : model) : list string :=
  let '(primary, secondary) := selectedKeys m in selected_names (f_containerVolumes (m_fixed m)) primary secondary.
Definition selectedNetworkNames (m : model) : list string :=
  let '(primary, secondary) := selectedKeys m in selected_names (f_containerNetworks (m_fixed m)) primary secondary.

(** ** Streams of logs ([logs.go]) *)

(** The streams that were started, with what they follow, whether they were cancelled
    and the channel they write to; and the channels, with the lines waiting in them. *)
Record stream := mkStream { s_name : string; s_channel : nat; s_cancelled : bool }.
Record store := mkStore { w_streams : list stream; w_channels : list (list string) }.

Definition cancel (i : nat) (w : store) : store :=
  mkStore (alter (fun s => mkStream (s_name s) (s_channel s) true) i (w_streams w)) (w_channels w).
Definition cancel_log (m : model) (w : store) : store :=
  match m_logCancel m with Some i => cancel i w | None => w end.

(** A line read from a stream enters its channel when there is room, and waits
    otherwise. *)
Definition logLines_capacity : nat := 256.
Definition emit_line (i : nat) (line : string) (w : store) : option store :=
  s ← w_streams w !! i;
  q ← w_channels w !! s_channel s;
  if (length q <? logLines_capacity)%nat
  then Some (mkStore (w_streams w) (<[s_channel s := q ++ [line]]> (w_channels w))) else None.

(** [streamLogsCmd] starts the stream itself; its command only reports how to cancel
    it.  The channel is made when there is none. *)
Definition streamLogsCmd (name : string) (m : model) (w : store) : store * model * cmd :=
  match f_statusProvider (m_fixed m) with
  | None => (w, m, CNil)
  | Some _ =>
      let i := length (w_streams w) in
      let '(w, ch) := match m_logLines m with
                      | Some ch => (w, ch)
                      | None => (mkStore (w_streams w) (w_channels w ++ [[]]), length (w_channels w))
                      end in
      (mkStore (w_streams w ++ [mkStream name ch false]) (w_channels w), set_logLines (Some ch) m,
       CMsg (logStreamStartedMsg i))
  end.

Definition maxLogsBuf : nat := 1000.
Definition push_line (buf : list string) (ln : string) : list string := last_n maxLogsBuf (buf ++ [ln]).

Definition withFlushedLogs (m : model) (w : store) : store * model :=
  match m_logLines m with
  | None => (w, m)
  | Some ch =>
      match default [] (w_channels w !! ch) with
      | [] => (w, m)
      | lines =>
          let buf := foldl push_line (m_logsBuf m) lines in
          (mkStore (w_streams w) (<[ch := []]> (w_channels w)),
           set_logsPager (pager_SetContent (Join buf nl) (m_logsPager m)) (set_logsBuf buf m))
      end
  end.

(** ** Commands *)

Definition tickStatuses : cmd := CTick 2000 statusTickMsg.
Definition tickLogs : cmd := CTick 200 logsTickMsg.

Definition startInitialLogsCmd (m : model) : cmd :=
  match SelectedItem (m_list m) with
  | None => CNil
  | Some it => let name := TrimSpace (it_ContainerName it) in
               if bool_decide (name = "") then CNil else CSleep 150 (startLogsFor name)
  end.

Definition refreshStatusesCmd (m : model) : cmd :=
  match f_statusProvider (m_fixed m) with
  | None => tickStatuses
  | Some identifier => CSequence [CFetchStatuses identifier (f_stacks (m_fixed m)); tickStatuses]
  end.

Definition if_docker (m : model) (c : cmd) : cmd := if f_dockerClient (m_fixed m) then c else CNil.
Definition fetchDockerInfoCmd (m : model) : cmd := if_docker m CFetchDockerInfo.
Definition fetchVolumesCmd (m : model) : cmd := if_docker m CFetchVolumes.
Definition fetchNetworksCmd (m : model) : cmd := if_docker m CFetchNetworks.

Definition BgBase : string := "#222436".
Definition Init (m : model) : cmd :=
  CBatch [CSetBackground BgBase; tickStatuses; tickLogs; startInitialLogsCmd m; fetchDockerInfoCmd m;
          fetchVolumesCmd m; fetchNetworksCmd m].

Definition executeCommand (action : commandAction) (container : string) (m : model) : cmd :=
  let container := TrimSpace container in
  if bool_decide (container = "")
  then CMsg (commandActionResultMsg action container
               (Some (New "dashboard.command" InvalidInput "no container selected" [])))
  else if f_dockerClient (m_fixed m) then CExecute action container
  else CMsg (commandActionResultMsg action container (Some (Plain "docker client not available"))).

(** ** Messages ([update.go]) *)

(** The item with the state known for its service. *)
Definition item_key (si : StackItem) : Key :=
  mkKey (it_TitleText si) (if bool_decide (it_Service si <> "") then it_Service si else default "" (head (it_Containers si))).

Definition refresh_item (known : gmap Key Status) (si : StackItem) : StackItem :=
  match known !! item_key si with
  | None => si
  | Some st =>
      let '(colorKey, text) := FormatStatusLine (sta_State st) (sta_StatusText st) in
      let name := TrimSpace (sta_ContainerName st) in
      mkItem (it_TitleText si) (it_Service si) (if bool_decide (name <> "") then name else it_ContainerName si)
        (it_Containers si) text colorKey (it_FilterText si)
  end.

#[global] Instance StackItem_eq_dec : EqDecision StackItem.
Proof. solve_decision. Defined.

(** Only an item that changed is set. *)
Definition refresh_step (known : gmap Key Status) (st : list_model StackItem * list cmd) (e : nat * StackItem)
  : list_model StackItem * list cmd :=
  let si := refresh_item known e.2 in
  if bool_decide (si = e.2) then st else
  let '(l, c) := SetItem st.1 e.1 si in (l, st.2 ++ match c with Some c => [CUi c] | None => [] end).

Definition on_statuses (statuses : gmap Key Status) (m : model) : model * cmd :=
  let known := statuses ∪ m_statusByKey m in
  let '(l, cmds) := foldl (refresh_step known) (m_list m, []) (imap pair (Items (m_list m))) in
  (set_list l (set_statusByKey known m), CBatch cmds).

(** Go does not say whether [m] in [return m, m.streamLogsCmd(name)] is read before
    the call or after it. *)
Inductive operand_order := call_first | variable_first.
Context (order : operand_order).

Definition on_startLogsFor (name : string) (m : model) (w : store) : store * model * cmd :=
  if bool_decide (TrimSpace name = "") then (w, m, CNil) else
  if bool_decide (m_pendingSelName m <> "") && bool_decide (name <> m_pendingSelName m) then (w, m, CNil) else
  let w := cancel_log m w in
  let m := set_logsPager (pager_SetContent "" (m_logsPager m))
             (set_logsBuf [] (set_selectedName name (set_logCancel None m))) in
  let '(w, m', c) := streamLogsCmd name m w in
  (w, match order with call_first => m' | variable_first => m end, c).

(** The sizes of the list and the pager for a height of the body. *)
Definition resize (bodyHeight pagerLoss : Z) (m : model) : model :=
  let '(leftW, centerW, _) := computeColumnWidths (m_width m) in
  let listWidth := Z.max 1 (leftW - totalHorizontalPadding) in
  let listHeight := Z.max 1 (bodyHeight - 2) in
  set_logsPager (pager_SetSize (centerW - (paddingHorizontal + 1) * 2) (Z.max 1 (bodyHeight - pagerLoss)) (m_logsPager m))
    (set_list (SetSize (m_list m) listWidth listHeight) m).

Definition toggle_help (m : model) : model :=
  let m := set_showAll (negb (m_showAll m)) m in
  let help := help_View (m_showAll m) in
  let helpHeight := if bool_decide (help <> "") then Height help else 0%Z in
  resize (Z.max 1 (m_height m - helpHeight - 1)) 2 m.

Definition renderHelp (m : model) : string :=
  let base := help_View (m_showAll m) in
  if (m_width m <=? 0)%Z then base else Render (mkStyle "" false false (Some (m_width m)) None) base.

Definition on_size (width height : Z) (m : model) : model :=
  let m := set_height height (set_width width m) in
  let reserved := Height (renderHelp m) in
  let reserved := if (reserved =? 0)%Z then 1%Z else reserved in
  let m := resize (Z.max 1 (m_height m - reserved - 1)) 3 m in
  set_commandList (SetSize (m_commandList m) (commandListContentWidth (commandPaletteWidth (m_width m)))
                     (Z.of_nat (length (Items (m_commandList m))))) m.

(** What is left of a message goes to the pane that has the focus. *)
Definition of_ui (c : option ui_cmd) : cmd := match c with Some c => CUi c | None => CNil end.
Definition to_pane (x : msg) (m : model) : model * cmd :=
  if (m_activePane m =? 0)%Z then
    let l := DisableQuitKeybindings (m_list m) in
    let oldIndex := Index l in
    let '(l, c) := list_Update l x in
    let m := set_list l m in
    if (Index l =? oldIndex)%Z then (m, CBatch [of_ui c; CNil]) else
    let name := TrimSpace (default "" (it_ContainerName <$> SelectedItem l)) in
    (set_pendingSelName name m, CSleep 200 (startLogsFor name))
  else if (m_activePane m =? 1)%Z then
    let '(p, c) := pager_Update (m_logsPager m) x in (set_logsPager p m, CBatch [CNil; of_ui c])
  else (m, CBatch [CNil; CNil]).

Definition on_quit (m : model) (w : store) : store * model * cmd :=
  (cancel_log m w, set_logCancel None (set_quitting true m), CQuit).

(** A key while the palette is open. *)
Definition palette_key (key : string) (m : model) : model * cmd :=
  let closed := set_commandPaletteOpen false m in
  if String.eqb key "esc" then (closed, CNil) else
  if String.eqb key "enter" then
    match SelectedItem (m_commandList m) with
    | None => (closed, CNil)
    | Some ci => let container := TrimSpace (selectedContainerName m) in
                 if bool_decide (container = "") then (closed, CNil)
                 else (closed, executeCommand (ci_id ci) container closed)
    end
  else let '(l, c) := list_Update (m_commandList m) (KeyMsg key) in (set_commandList l m, of_ui c).

Definition on_select (m : model) : model * cmd :=
  if (m_activePane m =? 0)%Z then
    let name := TrimSpace (selectedContainerName m) in
    let current := TrimSpace (m_selectedName m) in
    let m := set_activePane 1 m in
    if bool_decide (name <> "") && bool_decide (name <> current)
    then (m, CBatch [CMsg (startLogsFor name)]) else (m, CNil)
  else (m, CNil).

Definition on_key (key : string) (m : model) (w : store) : store * model * cmd :=
  if Matches key Quit_keys then on_quit m w else
  if Matches key Command_keys then
    (w, if m_commandPaletteOpen m then set_commandPaletteOpen false m
        else set_commandPaletteOpen true
               (if (Index (m_commandList m) <? 0)%Z then set_commandList (Select (m_commandList m) 0) m else m), CNil) else
  if m_commandPaletteOpen m then let '(m, c) := palette_key key m in (w, m, c) else
  if Matches key CyclePane_keys then (w, set_activePane (Z.rem (m_activePane m + 1) 2) m, CNil) else
  if Matches key Select_keys then let '(m, c) := on_select m in (w, m, c) else
  if Matches key ToggleHelp_keys then (w, toggle_help m, CNil) else
  let '(m, c) := to_pane (KeyMsg key) m in (w, m, c).

Definition Update (x : msg) (m : model) (w : store) : store * model * cmd :=
  match x with
  | statusesMsg statuses => let '(m, c) := on_statuses statuses m in (w, m, c)
  | statusTickMsg => (w, m, refreshStatusesCmd m)
  | logsTickMsg => let '(w, m) := withFlushedLogs m w in (w, m, tickLogs)
  | dockerInfoMsg host version =>
      let m := if bool_decide (TrimSpace host <> "") then set_dockerHost (TrimSpace host) m else m in
      let m := if bool_decide (TrimSpace version <> "") then set_engineVersion (TrimSpace version) m else m in
      (w, m, CNil)
  (** A nil slice is how none comes back. *)
  | volumesMsg volumes => (w, match volumes with [] => m | _ => set_volumes volumes m end, CNil)
  | networksMsg networks => (w, match networks with [] => m | _ => set_networks networks m end, CNil)
  | startLogsFor name => on_startLogsFor name m w
  | logStreamStartedMsg cancel => (w, set_logCancel (Some cancel) m, CNil)
  | KeyMsg key => on_key key m w
  | commandActionResultMsg _ _ _ => (w, m, CNil)
  | WindowSizeMsg width height => (w, on_size width height m, CNil)
  | UiMsg _ => let '(m, c) := to_pane x m in (w, m, c)
  end.

(** ** Running commands *)

Section Perform.
Context `{Decoders} `{ResourceDecoders} (cl : Client).

Definition ok_or_empty (r : res string) : string := match r with Ok s => s | Err _ => "" end.
Definition error_of (r : res unit) : option error := match r with Ok _ => None | Err e => Some e end.

Definition run_action (action : commandAction) (container : string) : cli (res unit) :=
  if String.eqb action actionPause then PauseContainer container
  else if String.eqb action actionRestart then cli_RestartContainer container
  else if String.eqb action actionStop then cli_StopContainers [container]
  else if String.eqb action actionDelete then cli_RemoveContainer container true
  else mret (Err (Plain (Sprintf "unknown command action %q" [action]))).

(** The message a command ends with; a batch and the library's own are the library's
    to run. *)
Definition perform (c : cmd) : cli (option msg) :=
  match c with
  | CTick _ m | CSleep _ m | CMsg m => mret (Some m)
  | CFetchStatuses identifier stacks =>
      r ← FetchAll identifier stacks;
      mret (match r with Ok statuses => Some (statusesMsg statuses) | Err _ => None end)
  | CFetchDockerInfo =>
      host ← ContextHost cl;
      version ← ServerVersion;
      mret (Some (dockerInfoMsg (TrimSpace (ok_or_empty host)) (TrimSpace (ok_or_empty version))))
  | CFetchVolumes => r ← VolumeSummaries cl; mret (match r with Ok l => Some (volumesMsg l) | Err _ => None end)
  | CFetchNetworks => r ← NetworkSummaries cl; mret (match r with Ok l => Some (networksMsg l) | Err _ => None end)
  | CExecute action container =>
      r ← run_action action container;
      mret (Some (commandActionResultMsg action container (error_of r)))
  | _ => mret None
  end.

(** What the goroutine of a stream runs. *)
Definition run_stream (s : stream) : cli (res unit) := StreamContainerLogs (s_name s) 300 "".
End Perform.

Fixpoint leaves (c : cmd) : list cmd :=
  match c with
  | CBatch l | CSequence l => concat (map leaves l)
  | CNil => []
  | c => [c]
  end.
End Dashboard.

(** ** What the dashboard does to docker *)

(** Command lines that change nothing. *)
Inductive watching : list string -> Prop :=
| watching_ps rest : watching ("ps" :: rest)
| watching_volumes rest : watching ("volume" :: "ls" :: rest)
| watching_volume rest : watching ("volume" :: "inspect" :: rest)
| watching_networks rest : watching ("network" :: "ls" :: rest)
| watching_version rest : watching ("version" :: rest)
| watching_context rest : watching ("context" :: "inspect" :: rest)
| watching_logs rest : watching ("logs" :: "--follow" :: rest).
#[export] Hint Constructors watching : dockform.

Definition watches (o : obs client_effect) : Prop :=
  match o with Obs (Exec x) _ => watching (exec_args x) | Obs _ _ => True end.

(** The command line of an action. *)
Definition action_line (action : commandAction) (container : string) : option (list string) :=
  if String.eqb action "pause" then Some ["container"; "pause"; container]
  else if String.eqb action "restart" then Some ["container"; "restart"; container]
  else if String.eqb action "stop" then Some ["container"; "stop"; container]
  else if String.eqb action "delete" then Some ["container"; "rm"; "-f"; container]
  else None.

Section Docker.
Context `{Bubbles} `{Lipgloss} `{Decoders} `{ResourceDecoders}.
Context (cl : Client).

Lemma run_action_line action container : TrimSpace container <> "" ->
  wp (run_action action container) (fun t _ =>
    match action_line action container with
    | Some args => exists out, t = [Obs (E := client_effect) (Exec (Run args)) out]
    | None => t = []
    end).
Proof.
  intros Hc. unfold run_action, action_line, actionPause, actionRestart, actionStop, actionDelete.
  repeat (case_match; [|]); try by apply wp_ret.
  - unfold PauseContainer, requireNonEmpty. rewrite bool_decide_false by done. cbn [guard].
    unfold run_unit, docker_run. apply wp_bind. wp_doop. intros r. apply wp_ret. by eexists.
  - unfold cli_RestartContainer, requireNonEmpty. rewrite bool_decide_false by done. cbn [guard].
    unfold run_unit, docker_run. apply wp_bind. wp_doop. intros r. apply wp_ret. by eexists.
  - unfold cli_StopContainers, each_container. cbn [for_each_res]. rewrite bool_decide_false by done.
    apply wp_bind. unfold run_unit, docker_run. apply wp_bind. wp_doop. intros [r|r]; cbn; apply wp_ret, wp_ret; by eexists.
  - unfold cli_RemoveContainer. unfold run_unit, docker_run. apply wp_bind. wp_doop. intros r. apply wp_ret. by eexists.
Qed.

Definition is_execute (c : cmd) : bool := match c with CExecute _ _ => true | _ => false end.

Lemma perform_watches c : is_execute c = false -> always watches (perform cl c).
Proof.
  intros Hc. destruct c; try discriminate Hc; cbn [perform]; try apply always_ret;
    unfold FetchAll, PsJSON, ContextHost, ServerVersion, VolumeSummaries, NetworkSummaries, docker_run;
    cbv zeta; repeat always_tree_step; constructor.
Qed.

(** No command of the palette among them. *)
Definition idle_cmd (c : cmd) : Prop := Forall (fun d => is_execute d = false) (leaves c).

Lemma idle_batch l : Forall idle_cmd l -> idle_cmd (CBatch l).
Proof.
  unfold idle_cmd. cbn [leaves]. induction 1 as [|c l Hc _ IH]; [constructor|]. cbn [map concat].
  by apply Forall_app.
Qed.

Lemma idle_of_ui c : idle_cmd (of_ui c).
Proof. destruct c; repeat constructor. Qed.

Lemma refresh_idle known l st : Forall idle_cmd st.2 -> Forall idle_cmd (foldl (refresh_step known) st l).2.
Proof.
  revert st. induction l as [|e l IH]; intros st Hst; [done|]. cbn [foldl]. apply IH.
  unfold refresh_step. case_bool_decide; [done|]. destruct (SetItem _ _ _) as [l' [c|]]; cbn;
    (apply Forall_app; split; [done|]); repeat constructor.
Qed.

Lemma to_pane_idle x m : idle_cmd (to_pane x m).2.
Proof.
  unfold to_pane. case_match.
  - destruct (list_Update _ _) as [l c]. case_match; [|repeat constructor].
    apply idle_batch. constructor; [apply idle_of_ui|repeat constructor].
  - case_match; [|repeat constructor]. destruct (pager_Update _ _) as [p c].
    apply idle_batch. repeat constructor. apply idle_of_ui.
Qed.

Lemma Init_idle m : idle_cmd (Init m).
Proof.
  apply idle_batch. unfold startInitialLogsCmd, fetchDockerInfoCmd, fetchVolumesCmd, fetchNetworksCmd, if_docker.
  repeat constructor; repeat case_match; repeat constructor.
Qed.

Lemma on_key_idle key m w :
  idle_cmd (on_key key m w).2
  \/ (key = "enter" /\ m_commandPaletteOpen m = true
      /\ exists ci, SelectedItem (m_commandList m) = Some ci
         /\ TrimSpace (selectedContainerName m) <> ""
         /\ on_key key m w = (w, set_commandPaletteOpen false m,
              executeCommand (ci_id ci) (TrimSpace (selectedContainerName m)) (set_commandPaletteOpen false m))).
Proof.
  unfold on_key. case_match; [left; repeat constructor|]. case_match; [left; repeat constructor|].
  destruct (m_commandPaletteOpen m) eqn:Hopen.
  - unfold palette_key. destruct (String.eqb_spec key "esc") as [->|]; [left; repeat constructor|].
    destruct (String.eqb_spec key "enter") as [->|].
    + destruct (SelectedItem _) as [ci|]; [|left; repeat constructor].
      case_bool_decide; [left; repeat constructor|]. right. split; [done|]. split; [done|]. by exists ci.
    + destruct (list_Update _ _) as [l c]. left. apply idle_of_ui.
  - left. case_match; [repeat constructor|]. case_match.
    { unfold on_select. repeat case_match; simplify_eq; repeat constructor. }
    case_match; [repeat constructor|]. pose proof (to_pane_idle (KeyMsg key) m) as Hp.
    by destruct (to_pane _ _) as [m' c].
Qed.

Lemma Update_idle order x m w : (forall key, x <> KeyMsg key) -> idle_cmd (Update order x m w).2.
Proof.
  intros Hx. destruct x; cbn [Update]; try (by repeat constructor).
  - unfold on_statuses. pose proof (refresh_idle (statuses ∪ m_statusByKey m)
      (imap pair (Items (m_list m))) (m_list m, [])) as Hr.
    destruct (foldl _ _ _) as [l cmds]. apply idle_batch, Hr. constructor.
  - unfold refreshStatusesCmd. case_match; repeat constructor.
  - destruct (withFlushedLogs m w) as [w' m']. repeat constructor.
  - unfold on_startLogsFor. case_bool_decide; [repeat constructor|]. case_match; [repeat constructor|].
    unfold streamLogsCmd. repeat case_match; simplify_eq; repeat constructor.
  - by destruct (Hx key).
  - pose proof (to_pane_idle (UiMsg m0) m) as Hp. by destruct (to_pane _ _) as [m' c].
Qed.

Lemma run_stream_watches s : always watches (run_stream s).
Proof.
  unfold run_stream, StreamContainerLogs, docker_stream. cbv zeta. repeat always_tree_step. constructor.
Qed.

Lemma idle_watches c : idle_cmd c -> Forall (fun d => always watches (perform cl d)) (leaves c).
Proof. intros Hc. eapply Forall_impl; [exact Hc|]. intros d. apply perform_watches. Qed.

(** What a command of the palette may do. *)
Definition acts_on (action : commandAction) (container : string) (d : cmd) : Prop :=
  wp (perform cl d) (fun t _ => t = []
    \/ exists args out, action_line action container = Some args
         /\ t = [Obs (E := client_effect) (Exec (Run args)) out]).

Lemma executeCommand_acts action container m : TrimSpace container <> "" ->
  Forall (acts_on action (TrimSpace container)) (leaves (executeCommand action container m)).
Proof.
  intros Hc. unfold executeCommand. rewrite bool_decide_false by done. unfold acts_on.
  case_match; cbn [leaves]; (apply Forall_cons; split; [|constructor]); cbn [perform]; [|by apply wp_ret; left].
  apply wp_bind. eapply wp_mono; [apply run_action_line; by rewrite TrimSpace_idemp|].
  intros t r Ht. apply wp_ret. rewrite app_nil_r. destruct (action_line _ _) as [args|]; [|by left].
  destruct Ht as [out ->]. right. by exists args, out.
Qed.

(** C25: Docker is changed from the palette only.  Whatever message the dashboard handles,
    in whatever state, the commands it starts and the streams it follows only look at
    docker, except for the action chosen in the open palette with Enter, which runs at
    most the one command line of that action on the selected container, and closes the
    palette.  Starting the dashboard only looks. *)
Theorem docker_changed_from_palette_only order x m w :
  (let '(w', m', c) := Update order x m w in
   (Forall (fun d => always watches (perform cl d)) (leaves c)
    \/ exists ci, x = KeyMsg "enter" /\ m_commandPaletteOpen m = true /\ m' = set_commandPaletteOpen false m /\ w' = w
         /\ SelectedItem (m_commandList m) = Some ci /\ TrimSpace (selectedContainerName m) <> ""
         /\ Forall (acts_on (ci_id ci) (TrimSpace (selectedContainerName m))) (leaves c))
   /\ Forall (fun s => always watches (run_stream s)) (w_streams w'))
  /\ Forall (fun d => always watches (perform cl d)) (leaves (Init m)).
Proof.
  split; [|apply idle_watches, Init_idle]. destruct (Update order x m w) as [[w' m'] c] eqn:Hu.
  split; [|apply Forall_forall; intros s _; apply run_stream_watches].
  assert ((exists key, x = KeyMsg key) \/ forall key, x <> KeyMsg key) as [[key ->]|Hx]
    by (destruct x; eauto; by right).
  - cbn [Update] in Hu. destruct (on_key_idle key m w) as [Hi|(-> & Hopen & ci & Hci & Hn & Heq)].
    + left. rewrite Hu in Hi. by apply idle_watches.
    + right. rewrite Heq in Hu. injection Hu as <- <- <-. exists ci. do 6 (split; [done|]).
      rewrite <- (TrimSpace_idemp (selectedContainerName m)) at 1. apply executeCommand_acts.
      by rewrite TrimSpace_idemp.
  - left. apply idle_watches. pose proof (Update_idle order x m w Hx) as Hi. by rewrite Hu in Hi.
Qed.
End Docker.

(** ** The state over time *)

Section Runs.
Context `{Bubbles} `{Lipgloss}.
Context (order : operand_order).

(** Messages come in any order, and streams write meanwhile. *)
Inductive dash_step : model * store -> model * store -> Prop :=
| step_message x m w w' m' c : Update order x m w = (w', m', c) -> dash_step (m, w) (m', w')
| step_line i line m w w' : emit_line i line w = Some w' -> dash_step (m, w) (m, w').

(** What an item is, as opposed to what is known of it. *)
Definition identity (i : StackItem) : string * string * list string * string :=
  (it_TitleText i, it_Service i, it_Containers i, it_FilterText i).

Lemma refresh_identity known si : identity (refresh_item known si) = identity si.
Proof. unfold refresh_item. case_match; [|done]. by destruct (FormatStatusLine _ _). Qed.

(** A refresh sets every item to what is known of it. *)
Lemma refresh_items known l0 cmds seen rest : Items l0 = seen ++ rest ->
  Items (foldl (refresh_step known) (l0, cmds) (imap (fun i x => (length seen + i, x)) rest)).1
  = seen ++ (refresh_item known <$> rest).
Proof.
  revert l0 cmds seen. induction rest as [|x rest IH]; intros l0 cmds seen HI; [done|]. cbn.
  set (st := refresh_step known (l0, cmds) (length seen + 0, x)).
  assert (Items st.1 = (seen ++ [refresh_item known x]) ++ rest) as HI'.
  { unfold st, refresh_step. cbn [fst snd]. rewrite Nat.add_0_r, <- (assoc_L (++)). case_bool_decide as Heq.
    - by rewrite Heq.
    - pose proof (Items_SetItem _ l0 (length seen) (refresh_item known x)) as Hs.
      destruct (SetItem _ _ _). cbn in *. rewrite Hs, HI. by rewrite insert_app_r_alt, Nat.sub_diag by done. }
  rewrite (surjective_pairing st). pose proof (IH st.1 st.2 _ HI') as IH'.
  rewrite <- (assoc_L (++)) in IH'. etrans; [|exact IH']. do 3 f_equal. apply imap_ext. intros i y _. cbn.
  f_equal. rewrite length_app. cbn. lia.
Qed.

Lemma on_statuses_items statuses m :
  Items (m_list (on_statuses statuses m).1) = refresh_item (statuses ∪ m_statusByKey m) <$> Items (m_list m).
Proof.
  unfold on_statuses. pose proof (refresh_items (statuses ∪ m_statusByKey m) (m_list m) [] [] _ eq_refl) as Hr.
  cbn [length Nat.add app] in Hr.
  replace (imap pair (Items (m_list m))) with (imap (fun i x => (i, x)) (Items (m_list m))) by done.
  destruct (foldl _ _ _) as [l cmds]. exact Hr.
Qed.

(** The lines of a flush. *)
Lemma push_lines buf lines : length buf <= maxLogsBuf ->
  foldl push_line buf lines = last_n maxLogsBuf (buf ++ lines).
Proof.
  clear order. intros Hb. induction lines as [|x lines IH] using rev_ind; [by rewrite app_nil_r, last_n_all|].
  rewrite foldl_app. cbn [foldl]. rewrite IH. unfold push_line.
  rewrite last_n_snoc by (unfold maxLogsBuf; lia). by rewrite <- (assoc_L (++)).
Qed.

(** What every state has. *)
Record dash_ok (items : list StackItem) (st : model * store) : Prop := {
  do_pane : (m_activePane st.1 = 0 \/ m_activePane st.1 = 1)%Z;
  do_buffer : length (m_logsBuf st.1) <= maxLogsBuf;
  do_channels : Forall (fun q => length q <= logLines_capacity) (w_channels st.2);
  do_streams : Forall (fun s => s_channel s < length (w_channels st.2)) (w_streams st.2);
  do_lines : forall ch, m_logLines st.1 = Some ch -> ch < length (w_channels st.2);
  do_items : identity <$> Items (m_list st.1) = identity <$> items;
  do_commands : Items (m_commandList st.1) = Items newCommandPalette;
}.

Ltac same_state Hok := destruct Hok; split; cbn in *; auto.

Lemma to_pane_ok items x m w : dash_ok items (m, w) -> dash_ok items ((to_pane x m).1, w).
Proof.
  intros Hok. unfold to_pane. case_match.
  - pose proof (Items_Update _ (DisableQuitKeybindings (m_list m)) x) as Hi. rewrite Items_DisableQuit in Hi.
    destruct (list_Update _ _) as [l c]. cbn in Hi. case_match; same_state Hok; by rewrite Hi.
  - case_match; [|done]. destruct (pager_Update _ _) as [p c]. same_state Hok.
Qed.

Lemma resize_ok items bodyHeight loss m w : dash_ok items (m, w) -> dash_ok items (resize bodyHeight loss m, w).
Proof.
  intros Hok. unfold resize. destruct (computeColumnWidths _) as [[l c] r]. same_state Hok. by rewrite Items_SetSize.
Qed.

Lemma cancel_ok items m m' w : dash_ok items (m, w) -> dash_ok items (m, cancel_log m' w).
Proof.
  intros Hok. unfold cancel_log, cancel. case_match; [|done]. same_state Hok.
  apply Forall_alter; [done|]. intros s _ Hs. exact Hs.
Qed.

Lemma start_ok items name m w : dash_ok items (m, w) ->
  let '(w', m', _) := on_startLogsFor order name m w in dash_ok items (m', w').
Proof.
  intros Hok. unfold on_startLogsFor. destruct (bool_decide (TrimSpace name = "")); [done|]. destruct (_ && _); [done|]. cbv zeta.
  apply (cancel_ok _ _ m) in Hok. unfold streamLogsCmd. cbn [m_fixed set_logsPager set_logsBuf set_selectedName set_logCancel m_logLines].
  destruct (f_statusProvider _); [|destruct order; same_state Hok; unfold maxLogsBuf; lia].
  destruct (m_logLines m) as [ch|] eqn:Hl; destruct order; same_state Hok; try (unfold maxLogsBuf; lia).
  all: first
    [ intros ch' [= <-]; rewrite ?length_app; cbn; (lia || by apply do_lines0)
    | by intros ch'; rewrite Hl
    | apply Forall_app; split;
      [ eapply Forall_impl; [eassumption|]; cbn; intros; rewrite ?length_app; lia
      | repeat constructor; cbn; rewrite ?length_app; cbn; (unfold logLines_capacity; lia) || by apply do_lines0 ] ].
Qed.

Lemma flush_ok items m w : dash_ok items (m, w) ->
  dash_ok items ((withFlushedLogs m w).2, (withFlushedLogs m w).1).
Proof.
  intros Hok. unfold withFlushedLogs. destruct (m_logLines m) as [ch|] eqn:Hl; [|done].
  destruct (default [] _) as [|x lines]; [done|]. same_state Hok.
  - fold (foldl push_line (push_line (m_logsBuf m) x) lines).
    change (foldl push_line (push_line (m_logsBuf m) x) lines) with (foldl push_line (m_logsBuf m) (x :: lines)).
    rewrite push_lines by done. apply last_n_length.
  - apply Forall_insert; [done|]. cbn. lia.
  - by rewrite length_insert.
  - intros ch'. rewrite length_insert. auto.
Qed.

Lemma key_ok items key m w : dash_ok items (m, w) ->
  let '(w', m', _) := on_key key m w in dash_ok items (m', w').
Proof.
  intros Hok. unfold on_key, on_quit.
  destruct (Matches key Quit_keys); [apply (cancel_ok _ _ m) in Hok; same_state Hok|].
  destruct (Matches key Command_keys).
  { destruct (m_commandPaletteOpen m); [same_state Hok|].
    destruct (Index (m_commandList m) <? 0)%Z; same_state Hok. by rewrite Items_Select. }
  destruct (m_commandPaletteOpen m).
  { unfold palette_key. destruct (String.eqb key "esc"); [same_state Hok|]. destruct (String.eqb key "enter").
    - destruct (SelectedItem _); [|same_state Hok]. destruct (bool_decide _); same_state Hok.
    - pose proof (Items_Update _ (m_commandList m) (KeyMsg key)) as Hi. destruct (list_Update _ _) as [l c].
      same_state Hok. by rewrite Hi. }
  destruct (Matches key CyclePane_keys).
  { same_state Hok. destruct do_pane0 as [-> | ->]; cbn; auto. }
  destruct (Matches key Select_keys).
  { unfold on_select. destruct (m_activePane m =? 0)%Z; [|done]. cbv zeta. destruct (_ && _); same_state Hok. }
  destruct (Matches key ToggleHelp_keys); [by apply resize_ok; same_state Hok|].
  pose proof (to_pane_ok items (KeyMsg key) m w Hok). by destruct (to_pane _ _).
Qed.

Lemma Update_ok items x m w : dash_ok items (m, w) ->
  let '(w', m', _) := Update order x m w in dash_ok items (m', w').
Proof.
  intros Hok. destruct x; cbn [Update].
  - pose proof (on_statuses_items statuses m) as Hi. unfold on_statuses in *.
    destruct (foldl _ _ _) as [l cmds]. cbn in Hi. same_state Hok. rewrite Hi, <- do_items0, <- list_fmap_compose.
    apply list_fmap_ext. intros i si _. apply refresh_identity.
  - done.
  - pose proof (flush_ok items m w Hok). by destruct (withFlushedLogs m w).
  - destruct (bool_decide _), (bool_decide _); same_state Hok.
  - destruct volumes; [done|same_state Hok].
  - destruct networks; [done|same_state Hok].
  - by apply start_ok.
  - same_state Hok.
  - by apply key_ok.
  - done.
  - unfold on_size. cbv zeta. set (m1 := resize _ _ _). assert (dash_ok items (m1, w)) as Hm1
      by (apply resize_ok; same_state Hok). clearbody m1. same_state Hm1. by rewrite Items_SetSize.
  - pose proof (to_pane_ok items (UiMsg m0) m w Hok). by destruct (to_pane _ _).
Qed.

Lemma emit_ok items i line m w w' : emit_line i line w = Some w' -> dash_ok items (m, w) -> dash_ok items (m, w').
Proof.
  unfold emit_line. intros (s & Hs & (q & Hq & He)%bind_Some)%bind_Some Hok.
  destruct (Nat.ltb_spec (length q) logLines_capacity) as [Hlt|]; [|done]. injection He as <-.
  same_state Hok; rewrite ?length_insert; auto. apply Forall_insert; [done|]. rewrite length_app. cbn. lia.
Qed.

Lemma newModel_ok docker provider stacks version identifier manifestPath contextName dockerHost engineVersion :
  dash_ok (stackItemsFromSummaries stacks)
    (newModel docker provider stacks version identifier manifestPath contextName dockerHost engineVersion, mkStore [] []).
Proof.
  unfold newModel. destruct (buildAttachmentMaps stacks) as [n v].
  split; cbn; auto; try done; [unfold maxLogsBuf; lia | by rewrite Items_New].
Qed.

(** C26: The panes, the buffer and the channels keep their bounds.  However messages and
    lines arrive: the focus is on one of the two panes, at most a thousand lines are
    shown and 256 wait in a channel, streams and the dashboard use channels that
    exist, the list has the items it was made with, whatever becomes known of them,
    and the palette its four commands. *)
Theorem dashboard_invariant docker provider stacks version identifier manifestPath contextName dockerHost
    engineVersion st :
  rtc dash_step (newModel docker provider stacks version identifier manifestPath contextName dockerHost
                   engineVersion, mkStore [] []) st ->
  dash_ok (stackItemsFromSummaries stacks) st.
Proof.
  intros Hr. eapply (rtc_ind_r (dash_ok (stackItemsFromSummaries stacks))); [apply newModel_ok| |exact Hr].
  intros [m w] [m' w'] _ Hstep Hok. inversion Hstep; subst.
  - pose proof (Update_ok _ x m w Hok) as Hu.
    match goal with Heq : Update _ _ _ _ = _ |- _ => by rewrite Heq in Hu end.
  - by eapply emit_ok.
Qed.

(** *** One stream at a time *)

(** The report that a stream was started handled right after the message that
    started it. *)
Definition prompt (st : model * store) (x : msg) : model * store :=
  let '(w1, m1, c) := Update order x st.1 st.2 in
  match c with
  | CMsg (logStreamStartedMsg i) => let '(w2, m2, _) := Update order (logStreamStartedMsg i) m1 w1 in (m2, w2)
  | _ => (m1, w1)
  end.

Definition is_started (x : msg) : bool := match x with logStreamStartedMsg _ => true | _ => false end.

(** The only stream that goes on is the one that would be cancelled, and it follows
    the container that is shown. *)
Definition one_stream (st : model * store) : Prop :=
  (forall i, m_logCancel st.1 = Some i -> is_Some (w_streams st.2 !! i))
  /\ forall i s, w_streams st.2 !! i = Some s -> s_cancelled s = false ->
       m_logCancel st.1 = Some i /\ s_name s = m_selectedName st.1.

(** Nothing of the streams changes. *)
Definition keeps (m : model) (w : store) (r : store * model * cmd) : Prop :=
  m_logCancel r.1.2 = m_logCancel m /\ m_selectedName r.1.2 = m_selectedName m /\ w_streams r.1.1 = w_streams w
  /\ forall i, r.2 <> CMsg (logStreamStartedMsg i).

Lemma to_pane_keeps x m w : keeps m w (w, (to_pane x m).1, (to_pane x m).2).
Proof.
  unfold to_pane. destruct (m_activePane m =? 0)%Z.
  - destruct (list_Update _ _) as [l c]. destruct (Index l =? _)%Z; by repeat split.
  - destruct (m_activePane m =? 1)%Z; [|by repeat split]. destruct (pager_Update _ _) as [p c]. by repeat split.
Qed.

Lemma resize_keeps bodyHeight loss m : m_logCancel (resize bodyHeight loss m) = m_logCancel m
  /\ m_selectedName (resize bodyHeight loss m) = m_selectedName m.
Proof. unfold resize. by destruct (computeColumnWidths _) as [[l c] r]. Qed.

Lemma key_keeps key m w : Matches key Quit_keys = false -> keeps m w (on_key key m w).
Proof.
  intros Hq. unfold on_key. rewrite Hq. destruct (Matches key Command_keys).
  { destruct (m_commandPaletteOpen m); [by repeat split|]. by destruct (Index (m_commandList m) <? 0)%Z. }
  destruct (m_commandPaletteOpen m).
  { unfold palette_key, executeCommand. destruct (String.eqb key "esc"); [by repeat split|].
    destruct (String.eqb key "enter"); [|destruct (list_Update _ _) as [l [c|]]; by repeat split].
    destruct (SelectedItem _); [|by repeat split]. destruct (bool_decide _); [by repeat split|]. cbv zeta.
    destruct (bool_decide _); [by repeat split|]. destruct (f_dockerClient _); by repeat split. }
  destruct (Matches key CyclePane_keys); [by repeat split|]. destruct (Matches key Select_keys).
  { unfold on_select. destruct (m_activePane m =? 0)%Z; [|by repeat split]. cbv zeta.
    destruct (_ && _); by repeat split. }
  destruct (Matches key ToggleHelp_keys).
  { destruct (resize_keeps (Z.max 1 (m_height m - (if bool_decide (help_View (negb (m_showAll m)) <> "")
      then Height (help_View (negb (m_showAll m))) else 0) - 1)) 2 (set_showAll (negb (m_showAll m)) m)). by repeat split. }
  pose proof (to_pane_keeps (KeyMsg key) m w). by destruct (to_pane _ _).
Qed.

Lemma Update_keeps x m w :
  match x with
  | startLogsFor _ | logStreamStartedMsg _ => True
  | KeyMsg key => Matches key Quit_keys = false -> keeps m w (Update order x m w)
  | _ => keeps m w (Update order x m w)
  end.
Proof.
  destruct x; try done; cbn [Update]; try (by repeat split).
  - unfold on_statuses. destruct (foldl _ _ _) as [l cmds]. by repeat split.
  - unfold refreshStatusesCmd. destruct (f_statusProvider _); by repeat split.
  - unfold withFlushedLogs. destruct (m_logLines m); [|by repeat split].
    destruct (default [] _); by repeat split.
  - destruct (bool_decide _), (bool_decide _); by repeat split.
  - destruct volumes; by repeat split.
  - destruct networks; by repeat split.
  - apply key_keeps.
  - unfold on_size. cbv zeta. match goal with |- context [resize ?a ?b ?c] => pose proof (resize_keeps a b c) as [] end.
    by repeat split.
  - pose proof (to_pane_keeps (UiMsg m0) m w). by destruct (to_pane _ _).
Qed.

Lemma one_stream_keeps m w r : one_stream (m, w) -> keeps m w r -> one_stream (r.1.2, r.1.1).
Proof. intros [Ha Hb] (Hc & Hn & Hs & _). unfold one_stream. cbn in *. by rewrite Hc, Hn, Hs. Qed.

(** After a cancellation nothing goes on. *)
Lemma cancel_log_quiet m w : one_stream (m, w) ->
  Forall (fun s => s_cancelled s = true) (w_streams (cancel_log m w)).
Proof.
  intros [_ Hb]. cbn in Hb. apply Forall_lookup. intros i s. unfold cancel_log.
  destruct (m_logCancel m) as [j|] eqn:Hj; cbn.
  - destruct (decide (i = j)) as [->|Hne].
    + rewrite list_lookup_alter_eq. by intros (s' & _ & ->)%fmap_Some.
    + rewrite list_lookup_alter_ne by done. intros Hs. destruct (s_cancelled s) eqn:Hc; [done|].
      destruct (Hb i s Hs Hc) as [[= ->] _]. done.
  - intros Hs. destruct (s_cancelled s) eqn:Hc; [done|]. by destruct (Hb i s Hs Hc).
Qed.

Lemma quiet_one_stream m w : m_logCancel m = None -> Forall (fun s => s_cancelled s = true) (w_streams w) ->
  one_stream (m, w).
Proof.
  intros Hm Hw. split; cbn; [by rewrite Hm|]. intros i s Hs Hc. rewrite Forall_lookup in Hw.
  by rewrite (Hw i s Hs) in Hc.
Qed.

Lemma prompt_start name st : one_stream st -> one_stream (prompt st (startLogsFor name)).
Proof.
  destruct st as [m w]. intros Hst. unfold prompt. cbn [fst snd Update]. unfold on_startLogsFor.
  destruct (bool_decide (TrimSpace name = "")); [done|]. destruct (_ && _); [done|]. cbv zeta.
  unfold streamLogsCmd. cbn [m_fixed set_logsPager set_logsBuf set_selectedName set_logCancel m_logLines].
  pose proof (cancel_log_quiet m w Hst) as Hq.
  destruct (f_statusProvider _) as [prov|]; [|destruct order; by apply quiet_one_stream].
  assert (forall ch chans m', m_selectedName m' = name -> m_logCancel m' = Some (length (w_streams (cancel_log m w))) ->
    one_stream (m', mkStore (w_streams (cancel_log m w) ++ [mkStream name ch false]) chans)) as Hnew.
  { intros ch chans m' Hn Hc. split; cbn; rewrite Hc.
    - intros i [= <-]. by rewrite lookup_app_r, Nat.sub_diag by done.
    - intros i s [Hs|[Hi Hs]]%lookup_app_Some Hlive.
      + rewrite Forall_lookup in Hq. by rewrite (Hq i s Hs) in Hlive.
      + apply list_lookup_singleton_Some in Hs as [Hi' <-]. split; [|done]. do 2 f_equal. lia. }
  destruct (m_logLines m); destruct order; by apply Hnew.
Qed.

Lemma prompt_kept m w x : one_stream (m, w) -> keeps m w (Update order x m w) -> one_stream (prompt (m, w) x).
Proof.
  intros Hst Hk. pose proof (one_stream_keeps m w _ Hst Hk) as Ho. destruct Hk as (_ & _ & _ & Hk).
  unfold prompt. cbn [fst snd]. destruct (Update order x m w) as [[w1 m1] c]. cbn in Hk, Ho.
  destruct c; try done. case_match; try done. by edestruct Hk.
Qed.

Lemma quit_quiet key m w : Matches key Quit_keys = true -> one_stream (m, w) ->
  prompt (m, w) (KeyMsg key) = (set_logCancel None (set_quitting true m), cancel_log m w)
  /\ one_stream (prompt (m, w) (KeyMsg key)).
Proof.
  intros Hq Hst. unfold prompt. cbn [fst snd Update]. unfold on_key, on_quit. rewrite Hq. split; [done|].
  apply quiet_one_stream; [done|]. by apply cancel_log_quiet.
Qed.

Lemma prompt_one_stream x st : is_started x = false -> one_stream st -> one_stream (prompt st x).
Proof.
  intros Hx Hst. destruct st as [m w]. pose proof (Update_keeps x m w) as Hk.
  destruct x; try discriminate Hx; try (by apply prompt_kept); [by apply prompt_start|].
  destruct (Matches key Quit_keys) eqn:Hq; [by apply quit_quiet | by apply prompt_kept; auto].
Qed.

(** One stream of logs at a time.  When the report of a started stream is handled
    before the next message, then after any messages at most one stream goes on: the
    one the dashboard holds, of the container it shows.  Quitting then ends it. *)
Theorem one_stream_at_a_time docker provider stacks version identifier manifestPath contextName dockerHost
    engineVersion xs :
  Forall (fun x => is_started x = false) xs ->
  let st := foldl prompt (newModel docker provider stacks version identifier manifestPath contextName dockerHost
                            engineVersion, mkStore [] []) xs in
  one_stream st
  /\ forall key, Matches key Quit_keys = true ->
       Forall (fun s => s_cancelled s = true) (w_streams (prompt st (KeyMsg key)).2)
       /\ m_quitting (prompt st (KeyMsg key)).1 = true.
Proof.
  intros Hxs. cbv zeta. set (st := foldl _ _ _).
  assert (one_stream st) as Hst.
  { unfold st. induction xs as [|x xs IH] using rev_ind.
    - apply quiet_one_stream; [|constructor]. unfold newModel. by destruct (buildAttachmentMaps stacks).
    - apply Forall_app in Hxs as [Hxs [Hx _]%Forall_cons]. rewrite foldl_app. cbn [foldl].
      apply prompt_one_stream; [done|]. by apply IH. }
  split; [done|]. intros key Hq. destruct st as [m w].
  destruct (quit_quiet key m w Hq Hst) as [-> _]. cbn. split; [|done]. by apply cancel_log_quiet.
Qed.
End Runs.

(** ** On a plain list *)

Record plain_list (A : Type) := mkPlain { pl_items : list A; pl_index : Z }.
Arguments mkPlain {A} _ _.
Arguments pl_items {A} _.
Arguments pl_index {A} _.

#[local] Instance no_messages : Messages := {| ui_msg := unit; ui_cmd := unit |}.
#[local] Program Instance plain_bubbles : Bubbles := {|
  list_model := plain_list;
  list_New A l := mkPlain l 0;
  Items A l := pl_items l;
  Index A l := pl_index l;
  SelectedItem A l := pl_items l !! Z.to_nat (pl_index l);
  SetItem A l i x := (mkPlain (<[i := x]> (pl_items l)) (pl_index l), None);
  Select A l i := mkPlain (pl_items l) i;
  SetSize A l w h := l;
  DisableQuitKeybindings A l := l;
  list_Update A l x := match x with
    | KeyMsg key => (if String.eqb key "down" then mkPlain (pl_items l) (pl_index l + 1) else l, None)
    | _ => (l, None)
    end;
  viewport := string;
  viewport_New := "";
  SetWidth v _ := v;
  SetHeight v _ := v;
  vp_SetContent _ content := content;
  GotoBottom v := v;
  vp_Update v _ := (v, None);
  vp_View v := v;
  help_View full := if full then "tab next pane" else "? toggle help";
|}.
Solve Obligations with done.
Next Obligation. intros A l []; try done. cbn. by destruct (String.eqb key "down"). Qed.

Lemma substring_length n s : String.length (String.substring 0 n s) <= n.
Proof. revert s. induction n as [|n IH]; intros [|c s]; cbn; try lia. specialize (IH s). lia. Qed.

#[local] Program Instance plain_lipgloss : Lipgloss := {|
  Width s := Z.of_nat (String.length s);
  Height _ := 1%Z;
  Render sty s := match sy_MaxWidth sty with Some w => String.substring 0 (Z.to_nat w) s | None => s end;
  RenderThemeGradient s := s;
|}.
Next Obligation.
  intros w sty t Hw. cbn. pose proof (substring_length (Z.to_nat w) t). lia.
Qed.

Definition named (service : string) : ServiceSummary := mkServiceSummary service service "nginx" [] [].
Definition opened : model * store :=
  (newModel true (Some "demo") [mkStackSummary "shop" [named "web"; named "db"]] "1.0" "demo" "/m.yml" "default" "" "",
   mkStore [] []).

(** Messages and lines, in order. *)
Inductive dash_event := Deliver (x : msg) | Line (i : nat) (line : string).
Definition play (order : operand_order) : model * store -> list dash_event -> model * store :=
  foldl (fun st e => match e with
    | Deliver x => let '(w, m, _) := Update order x st.1 st.2 in (m, w)
    | Line i line => (st.1, default st.2 (emit_line i line st.2))
    end).

Lemma play_steps order st es : rtc (dash_step order) st (play order st es).
Proof.
  unfold play. revert st. induction es as [|e es IH]; intros [m w]; [done|]. cbn [foldl fst snd].
  etrans; [|apply IH]. destruct e as [x|i line].
  - destruct (Update order x m w) as [[w' m'] c] eqn:Hu. apply rtc_once. by eapply step_message.
  - destruct (emit_line i line w) as [w'|] eqn:He; [|done]. apply rtc_once. by eapply step_line.
Qed.

Definition follow (i : nat) (name : string) : list dash_event :=
  [Deliver (startLogsFor name); Deliver (logStreamStartedMsg i)].

(** The lines of a stream are shown, if the call comes before the operand; otherwise
    the channel it made is forgotten, and they never are. *)
Example lines_shown :
  let es := follow 0 "web" ++ [Line 0 "ready"; Deliver logsTickMsg] in
  m_logsBuf (play call_first opened es).1 = ["ready"] /\ m_logsBuf (play variable_first opened es).1 = [].
Proof. by vm_compute. Qed.

(** Lines of a stream that was cancelled are still waiting in the channel, and shown
    as the next container's. *)
Example stale_lines :
  let st := play call_first opened (follow 0 "web" ++ [Line 0 "web started"] ++ follow 1 "db" ++ [Deliver logsTickMsg]) in
  m_selectedName st.1 = "db" /\ m_logsBuf st.1 = ["web started"].
Proof. by vm_compute. Qed.

(** Two streams started before either is reported: the first is never cancelled. *)
Example lost_stream :
  let st := play call_first opened [Deliver (startLogsFor "web"); Deliver (startLogsFor "db");
              Deliver (logStreamStartedMsg 0); Deliver (logStreamStartedMsg 1); Deliver (KeyMsg "q")] in
  m_quitting st.1 = true /\ s_cancelled <$> w_streams st.2 = [false; true].
Proof. by vm_compute. Qed.

(** The keys of the dashboard are taken before the list sees them, so a "q" typed
    into the filter quits. *)
Lemma q_always_quits `{Bubbles} `{Lipgloss} order (m : model) (w : store) : (Update order (KeyMsg "q") m w).2 = CQuit.
Proof. done. Qed.

(** Deleting the second container from the palette. *)
Definition delete_second : list dash_event :=
  Deliver <$> [KeyMsg "down"; KeyMsg "ctrl+p"; KeyMsg "down"; KeyMsg "down"; KeyMsg "down"].
Example palette_deletes :
  let st := play call_first opened delete_second in
  let '(_, m, c) := Update call_first (KeyMsg "enter") st.1 st.2 in
  c = CExecute "delete" "db" /\ m_commandPaletteOpen m = false
  /\ (run_tree (prints "") (@perform _ example_rows (NewClient "default") c)).1
     = [Obs (E := client_effect) (Exec (Run ["container"; "rm"; "-f"; "db"])) (Ok "")].
Proof. by vm_compute. Qed.

Lemma dashboard_invariant_witness :
  let st := play call_first opened (follow 0 "web" ++ [Line 0 "ready"; Deliver (KeyMsg "tab"); Deliver logsTickMsg]) in
  m_activePane st.1 = 1%Z /\ dash_ok (stackItemsFromSummaries [mkStackSummary "shop" [named "web"; named "db"]]) st.
Proof.
  split; [reflexivity|].
  apply (dashboard_invariant call_first true (Some "demo") [mkStackSummary "shop" [named "web"; named "db"]] "1.0" "demo"
           "/m.yml" "default" "" "").
  apply play_steps.
Defined.

Lemma one_stream_at_a_time_witness :
  let st := foldl (prompt call_first) opened [startLogsFor "web"; startLogsFor "db"; statusTickMsg] in
  s_cancelled <$> w_streams st.2 = [true; false] /\ one_stream st.
Proof.
  split; [reflexivity|].
  apply (one_stream_at_a_time call_first true (Some "demo") [mkStackSummary "shop" [named "web"; named "db"]] "1.0" "demo"
           "/m.yml" "default" "" "" [startLogsFor "web"; startLogsFor "db"; statusTickMsg]).
  repeat constructor.
Defined.
