(* ===== verification/DashboardFrame.v ===== *)
(** * The screen of the dashboard ([internal/cli/dashboardcmd]: [view.go],
    [view_widgets.go], [keys.go])

    How the parts of [DashboardView] are put together: the three columns, the help
    below them, and the palette over both.  What is proved is that drawing is a
    function of the state although the headers are kept in a map that all copies of
    the state share, that a screen has the size of the terminal, and that the palette
    lies within it. *)

From S2P Require Import Prelude GoStrings GoUtf8 Util Apperr Manifest Effects Docker DockerExec Client ClientResources Images Terminal DashboardData DashboardView Dashboard.
From Stdlib Require Import Ascii.

(** ** Keys ([keys.go]) *)

Record Binding := mkBinding { bd_keys : list string; bd_help : string * string }.
Record keyMap := mkKeyMap {
  ToggleHelp : Binding; Quit : Binding; Filter : Binding; MoveUp : Binding; MoveDown : Binding; NextPage : Binding;
  PrevPage : Binding; CyclePane : Binding; Select_binding : Binding; Command : Binding }.

Definition newKeyMap : keyMap := {|
  ToggleHelp := mkBinding ["?"] ("?", "toggle help");
  Filter := mkBinding ["/"] ("/", "filter stacks");
  MoveUp := mkBinding ["up"; "k"] ("↑/k", "up");
  MoveDown := mkBinding ["down"; "j"] ("↓/j", "down");
  NextPage := mkBinding ["right"; "l"; "pgdn"] ("→/l/pgdn", "next page");
  PrevPage := mkBinding ["left"; "h"; "pgup"] ("←/h/pgup", "prev page");
  CyclePane := mkBinding ["tab"] ("tab", "next pane");
  Select_binding := mkBinding ["enter"] ("enter", "focus logs");
  Command := mkBinding ["ctrl+p"] ("ctrl+p", "commands");
  Quit := mkBinding ["q"; "ctrl+c"] ("q", "quit") |}.

Definition ShortHelp (k : keyMap) : list Binding := [ToggleHelp k; Quit k].
Definition FullHelp (k : keyMap) : list (list Binding) :=
  [[MoveUp k; MoveDown k; NextPage k; PrevPage k]; [Filter k; Select_binding k; CyclePane k; Command k]; [Quit k]].

(** No key is bound twice, and the keys [Update] tells apart are those of the map. *)
Example keys_distinct :
  let k := newKeyMap in
  NoDup (([ToggleHelp k] ++ concat (FullHelp k)) ≫= bd_keys)
  /\ bd_keys (Quit k) = Quit_keys /\ bd_keys (Command k) = Command_keys /\ bd_keys (CyclePane k) = CyclePane_keys
  /\ bd_keys (Select_binding k) = Select_keys /\ bd_keys (ToggleHelp k) = ToggleHelp_keys.
Proof. split_and!; [apply (bool_decide_unpack _); by vm_compute|done..]. Qed.

(** Once all the keys are shown, the one that hides them again is not. *)
Example full_help_without_toggle : ToggleHelp newKeyMap ∉ concat (FullHelp newKeyMap).
Proof. cbn. set_unfold. intros Hin. by destruct_or!. Qed.

(** ** Boxes *)

(** Styles that lay out: padding above, right, below and left, the sizes, the
    background and the colour of a rounded border. *)
Record box := mkBox {
  bx_Padding : Z * Z * Z * Z; bx_Width : option Z; bx_Height : option Z; bx_MaxHeight : option Z;
  bx_Background : option string; bx_Border : option string }.
Definition no_padding : Z * Z * Z * Z := (0, 0, 0, 0)%Z.
Definition side_padding (b : box) : Z := let '(_, r, _, l) := bx_Padding b in (r + l)%Z.
Definition BgBase : string := "#222436".

Inductive filter_state := Unfiltered | Filtering | FilterApplied.

(** Lipgloss's layout and the views of the lists.  A box of a width is as wide if two
    columns are left beside its padding, and one whose height is limited to its height
    is as high; boxes side by side take the sum of their widths and the greatest of
    their heights, boxes above one another the sum of their heights. *)
Class Layout `{Bubbles} `{Lipgloss} := {
  Frame : box -> string -> string;
  JoinVertical : list string -> string;
  JoinHorizontal : list string -> string;
  (** A base and, at a position, what lies over it. *)
  Compose : string -> Z * Z -> string -> string;
  list_View : forall {A}, list_model A -> string;
  FilterState : forall {A}, list_model A -> filter_state;
  Width_Frame : forall b t w, bx_Width b = Some w -> bx_Border b = None -> (0 < w)%Z -> (side_padding b + 2 <= w)%Z ->
    Width (Frame b t) = w;
  Height_Frame : forall b t n, bx_Height b = Some n -> bx_MaxHeight b = Some n -> (0 < n)%Z -> Height (Frame b t) = n;
  Width_JoinHorizontal : forall l, Width (JoinHorizontal l) = foldr Z.add 0%Z (Width <$> l);
  Height_JoinHorizontal : forall l n, l <> [] -> Forall (fun t => Height t = n) l -> Height (JoinHorizontal l) = n;
  Height_JoinVertical : forall l, l <> [] -> Height (JoinVertical l) = foldr Z.add 0%Z (Height <$> l);
  Height_empty : Height "" = 1%Z;
  Height_pos : forall t, (1 <= Height t)%Z;
}.

Section Screen.
Context `{Layout} (buildVersion : string).

(** *** The selection ([model.go]) *)

(** The names attached to the selected container, as a set. *)
Definition selectedVolumeSet (m : model) : gset string := list_to_set (selectedVolumeNames m).
Definition selectedNetworkSet (m : model) : gset string := list_to_set (selectedNetworkNames m).

(** *** The columns ([view.go]) *)

Definition header (active : bool) (title : string) (width padding : Z) : string :=
  if active then RenderHeaderActive title width padding "dash" else RenderHeader title width padding "dash".

(** Room for what is typed into the filter, or for the hint that there is one. *)
Definition stacks_view (leftW : Z) (l : list_model StackItem) : string :=
  let listView := list_View l in
  match FilterState l with
  | Filtering => match Cut listView newline with
                 | Some (first, rest) => first +:+ nl +:+ nl +:+ rest
                 | None => listView +:+ nl
                 end
  | Unfiltered =>
      let placeholder := renderFilterPlaceholder (leftW - totalHorizontalPadding) in
      if bool_decide (placeholder <> "") then placeholder +:+ nl +:+ listView else listView
  | FilterApplied => listView
  end.

Definition column (padding width innerHeight : Z) : box :=
  mkBox (0, padding, 0, padding)%Z (Some width) (Some innerHeight) (Some innerHeight) None None.

Definition leftView (m : model) (innerHeight : Z) : string :=
  let '(leftW, _, _) := computeColumnWidths (m_width m) in
  Frame (column paddingHorizontal leftW innerHeight)
    (header (m_activePane m =? 0)%Z "Stacks" leftW totalHorizontalPadding +:+ nl +:+ stacks_view leftW (m_list m)).

(** The pager is given its size here, in the copy of the state that is drawn. *)
Definition centerView (m : model) (innerHeight : Z) : string :=
  let '(_, centerW, _) := computeColumnWidths (m_width m) in
  let centerPadding := ((paddingHorizontal + 1) * 2)%Z in
  let pager := pager_SetSize (centerW - (paddingHorizontal + 1) * 2) (Z.max 1 (innerHeight - 3)) (m_logsPager m) in
  Frame (column (paddingHorizontal + 1) centerW innerHeight)
    (header (m_activePane m =? 1)%Z "Logs" centerW centerPadding +:+ nl +:+ nl +:+ pager_View pager).

(** What the first two columns leave for the third, and for what is in it. *)
Definition remainingContent (m : model) (innerHeight : Z) : Z :=
  let used := Width (JoinHorizontal [leftView m innerHeight; centerView m innerHeight]) in
  Z.max 1 (m_width m - used - rightOverhead + 2).
Definition contentWidth (m : model) (innerHeight : Z) : Z :=
  Z.max 1 (remainingContent m innerHeight - totalHorizontalPadding).

(** The right column, with the headers it is given. *)
Definition rightRows (docker volumes networks : string) (m : model) (contentWidth : Z) : string :=
  let fx := m_fixed m in
  let simple key value := renderSimpleWithWidth key value contentWidth in
  let rightRow0 := RenderThemeGradient ("DOCKFORM " +:+ displayVersion buildVersion (f_version fx)) +:+ nl +:+ nl
    +:+ simple "Identifier" (displayIdentifier (f_identifier fx)) +:+ nl
    +:+ RenderSimple "Manifest" (truncateLeft Width (displayManifestPath (f_manifestPath fx))
                                   (availableValueWidth Width contentWidth "Manifest")) +:+ nl in
  let rightRow1 := docker +:+ nl +:+ nl
    +:+ simple "Context" (displayContextName (f_contextName fx)) +:+ nl
    +:+ simple "Host" (displayDockerHost (m_dockerHost m)) +:+ nl
    +:+ simple "Version" (displayEngineVersion (m_engineVersion m)) +:+ nl in
  let rightRow2 := volumes +:+ nl +:+ nl
    +:+ renderVolumesSection (elements (selectedVolumeSet m)) (m_volumes m) contentWidth +:+ nl in
  let rightRow3 := networks +:+ nl +:+ nl
    +:+ renderNetworksSection (elements (selectedNetworkSet m)) (m_networks m) contentWidth +:+ nl in
  JoinVertical [rightRow0; rightRow1; rightRow2; rightRow3].

Definition columns_with (docker volumes networks : string) (m : model) (innerHeight : Z) : string :=
  JoinHorizontal [leftView m innerHeight; centerView m innerHeight;
    Frame (column paddingHorizontal (remainingContent m innerHeight) innerHeight)
      (rightRows docker volumes networks m (contentWidth m innerHeight))].

(** [headerCache] is a map, which every copy of the state shares. *)
Definition renderColumns (cache : gmap string string) (m : model) (bodyHeight : Z) : gmap string string * string :=
  let innerHeight := Z.max 0 bodyHeight in
  let w := contentWidth m innerHeight in
  let '(cache, r1Header) := buildGradHeader cache "Docker" w in
  let '(cache, r2Header) := buildGradHeader cache "Volumes" w in
  let '(cache, r3Header) := buildGradHeader cache "Networks" w in
  (cache, columns_with r1Header r2Header r3Header m innerHeight).

(** *** The palette ([view_widgets.go]) *)

Definition paletteWidth (m : model) : Z := Z.min (commandPaletteWidth (m_width m)) (Z.max 1 (m_width m)).

Definition contentPaddingTop : Z := 1.
Definition contentPaddingBottom : Z := 1.

Definition renderCommandPaletteWindow (m : model) : string :=
  let width := paletteWidth m in
  let innerWidth := Z.max 1 (width - 2) in
  let contentWidth := commandListContentWidth width in
  let containerName := or_else (selectedContainerName m) "(no container selected)" in
  let containerLine := Render (clamped contentWidth plain)
    (Render (coloured FgHalfMuted) "Container: " +:+ Render (Bold (coloured FgBase)) containerName) in
  let listView := Render (clamped contentWidth plain) (list_View (m_commandList m)) in
  let contentStyled := Frame (mkBox (contentPaddingTop, contentPaddingRight, contentPaddingBottom, contentPaddingLeft)
                                (Some innerWidth) None None None None)
                         (JoinVertical [containerLine; ""; listView]) in
  Frame (mkBox no_padding (Some width) None None (Some BgBase) (Some Primary))
    (JoinVertical [RenderHeaderActive "Commands" innerWidth 0 "slash"; contentStyled]).

(** *** The screen ([view.go]) *)

Definition helpHeight (m : model) : Z :=
  if bool_decide (renderHelp m <> "") then Height (renderHelp m) else 0%Z.
Definition bodyHeight (m : model) : Z := Z.max 1 (m_height m - helpHeight m - 1).

Definition screen_content (columns : string) (m : model) : string :=
  let helpBar := if bool_decide (renderHelp m <> "") then renderHelp m
                 else Frame (mkBox no_padding (Some (m_width m)) None None None None) "" in
  JoinVertical [""; columns; helpBar].

(** Where the palette goes: in the middle, at the edge if it is too large. *)
Definition palette_at (m : model) (palette : string) : Z * Z :=
  let pWidth := Z.min (Width palette) (m_width m) in
  let pHeight := Z.min (Height palette) (m_height m) in
  (Z.max 0 (Z.quot (m_width m - pWidth) 2), Z.max 0 (Z.quot (m_height m - pHeight) 2)).

Definition screen_with (columns : string) (m : model) : string :=
  let base := Frame (mkBox no_padding (Some (m_width m)) (Some (m_height m)) None (Some BgBase) None)
                (screen_content columns m) in
  if m_commandPaletteOpen m then
    let palette := renderCommandPaletteWindow m in Compose base (palette_at m palette) palette
  else base.

Definition View (cache : gmap string string) (m : model) : gmap string string * string :=
  if m_quitting m then (cache, "") else
  let '(cache, columns) := renderColumns cache m (bodyHeight m) in
  (cache, screen_with columns m).

(** The frames of a run: the state is drawn whenever the library wants to. *)
Definition frames : gmap string string -> list model -> gmap string string * list string :=
  fun cache ms => foldl (fun '(cache, out) m => let '(cache, s) := View cache m in (cache, out ++ [s])) (cache, []) ms.

(** ** What is drawn, without a cache *)

Definition columns_of (m : model) (innerHeight : Z) : string :=
  let w := contentWidth m innerHeight in
  columns_with (grad_header "Docker" w) (grad_header "Volumes" w) (grad_header "Networks" w) m innerHeight.
Definition screen (m : model) : string :=
  if m_quitting m then "" else screen_with (columns_of m (bodyHeight m)) m.

Lemma renderColumns_cached cache m n : header_cache_ok cache -> (0 <= n)%Z ->
  (renderColumns cache m n).2 = columns_of m n /\ header_cache_ok (renderColumns cache m n).1.
Proof.
  intros Hc Hn. unfold renderColumns, columns_of. rewrite Z.max_r by done. set (w := contentWidth m n).
  assert (forall t c, t ∈ right_titles -> header_cache_ok c -> exists c', buildGradHeader c t w = (c', grad_header t w)
            /\ header_cache_ok c') as Hb.
  { intros t c Ht Hc'. destruct (buildGradHeader_cached c t w Hc' Ht) as [<- Hc'']. destruct (buildGradHeader c t w). eauto. }
  destruct (Hb "Docker" cache) as (c1 & -> & Hc1); [by left|done|].
  destruct (Hb "Volumes" c1) as (c2 & -> & Hc2); [by right; left|done|].
  destruct (Hb "Networks" c2) as (c3 & -> & Hc3); [by right; right; left|done|]. done.
Qed.

Lemma View_cached cache m : header_cache_ok cache ->
  (View cache m).2 = screen m /\ header_cache_ok (View cache m).1.
Proof.
  intros Hc. unfold View, screen. destruct (m_quitting m); [done|].
  destruct (renderColumns_cached cache m (bodyHeight m) Hc) as [Heq Hok]; [unfold bodyHeight; lia|].
  destruct (renderColumns cache m (bodyHeight m)) as [c' s]. cbn in *. by rewrite Heq.
Qed.

Lemma frames_cached cache ms out : header_cache_ok cache ->
  (foldl (fun '(cache, out) m => let '(cache, s) := View cache m in (cache, out ++ [s])) (cache, out) ms).2
  = out ++ (screen <$> ms).
Proof.
  revert cache out. induction ms as [|m ms IH]; intros cache out Hc; cbn [foldl]; [by rewrite app_nil_r|].
  destruct (View_cached cache m Hc) as [Hs Hok]. destruct (View cache m) as [c' s]. cbn in Hs, Hok. subst s.
  rewrite IH by done. by rewrite <- (assoc_L (++)).
Qed.

(** ** Sizes *)

Lemma wide_columns total : (64 <= total)%Z ->
  let '(l, c, _) := computeColumnWidths total in (30 <= l)%Z /\ (6 <= c)%Z /\ (l + c + 28 <= total)%Z.
Proof.
  intros Ht. unfold computeColumnWidths, squeeze, leftOverhead, centerOverhead, rightOverhead, leftMinWidth,
    leftMaxWidth, rightMinWidth, rightMaxWidth, centerMinWidth.
  repeat match goal with |- context [(?a <=? ?b)%Z] => destruct (Z.leb_spec a b) end; try lia;
  repeat match goal with |- context [(?a <? ?b)%Z] => destruct (Z.ltb_spec a b) end; try lia;
  Z.to_euclidean_division_equations; lia.
Qed.

Lemma column_size padding width n t : (0 <= padding)%Z -> (2 * padding + 2 <= width)%Z ->
  Width (Frame (column padding width n) t) = width.
Proof. intros Hp Hw. apply Width_Frame; [done|done|lia|]. cbn. lia. Qed.
Lemma column_height padding width n t : (0 < n)%Z -> Height (Frame (column padding width n) t) = n.
Proof. intros Hn. by apply Height_Frame. Qed.

(** From 64 columns up the third column takes exactly what the others leave. *)
Lemma columns_width docker volumes networks m n : (64 <= m_width m)%Z ->
  Width (columns_with docker volumes networks m n) = m_width m.
Proof.
  intros Hw. pose proof (wide_columns _ Hw) as Hc.
  assert (exists l c, Width (leftView m n) = l /\ Width (centerView m n) = c /\ (l + c + 28 <= m_width m)%Z)
    as (l & c & Hl & Hc' & Hlc).
  { unfold leftView, centerView. destruct (computeColumnWidths _) as [[l c] r]. destruct Hc as (Hl & Hc & Hlc).
    exists l, c. split_and!; [apply column_size; unfold paddingHorizontal; lia..|done]. }
  assert (remainingContent m n = (m_width m - l - c)%Z) as Hr.
  { unfold remainingContent. rewrite Width_JoinHorizontal. cbn [fmap list_fmap foldr]. rewrite Hl, Hc'.
    unfold rightOverhead. lia. }
  unfold columns_with. rewrite Width_JoinHorizontal. cbn [fmap list_fmap foldr]. rewrite Hl, Hc'.
  rewrite column_size by (rewrite ?Hr; unfold paddingHorizontal; lia). lia.
Qed.

Lemma columns_height docker volumes networks m n : (0 < n)%Z -> Height (columns_with docker volumes networks m n) = n.
Proof.
  intros Hn. apply Height_JoinHorizontal; [done|]. unfold leftView, centerView.
  destruct (computeColumnWidths _) as [[l c] r]. repeat constructor; by apply column_height.
Qed.

(** The lines of a screen are those of the terminal if the help leaves two. *)
Lemma content_height columns m : renderHelp m <> "" -> (Height (renderHelp m) + 2 <= m_height m)%Z ->
  Height columns = bodyHeight m -> Height (screen_content columns m) = m_height m.
Proof.
  intros Hne Hh Hc. unfold screen_content. rewrite Height_JoinVertical by done. cbn [fmap list_fmap foldr].
  rewrite Height_empty, Hc. unfold bodyHeight, helpHeight. rewrite bool_decide_true by done. lia.
Qed.

(** The palette, or as much of it as there is room for, lies within the terminal and
    in its middle. *)
Lemma palette_placed m palette : (0 <= m_width m)%Z -> (0 <= m_height m)%Z ->
  let '(x, y) := palette_at m palette in
  let w := Z.min (Width palette) (m_width m) in
  let n := Z.min (Height palette) (m_height m) in
  (0 <= x)%Z /\ (0 <= m_width m - (x + w) - x <= 1)%Z /\ (0 <= y)%Z /\ (0 <= m_height m - (y + n) - y <= 1)%Z.
Proof. intros Hw Hn. unfold palette_at. cbv zeta. Z.to_euclidean_division_equations; lia. Qed.

(** What the dashboard draws depends on the state only.  Whatever states are drawn, in
    whatever order, each frame is the screen of its state, although the headers come
    from a map that all copies of the state share.  In a terminal of 64 columns or
    more in which the help leaves two lines the columns are as wide as the terminal
    and the screen has as many lines; and the palette, cut to the terminal if it is
    larger, lies in the middle of it. *)
Theorem frames_drawn ms :
  (frames ∅ ms).2 = screen <$> ms
  /\ forall m, (64 <= m_width m)%Z -> renderHelp m <> "" -> (Height (renderHelp m) + 2 <= m_height m)%Z ->
       let columns := columns_of m (bodyHeight m) in
       Width columns = m_width m /\ Height (screen_content columns m) = m_height m
       /\ forall palette,
            let '(x, y) := palette_at m palette in
            let w := Z.min (Width palette) (m_width m) in
            let n := Z.min (Height palette) (m_height m) in
            (0 <= x)%Z /\ (0 <= m_width m - (x + w) - x <= 1)%Z /\ (0 <= y)%Z /\ (0 <= m_height m - (y + n) - y <= 1)%Z.
Proof.
  split; [unfold frames; rewrite frames_cached; [done|intros t w s _ Hs; by rewrite lookup_empty in Hs]|].
  intros m Hw Hne Hh. assert (0 < bodyHeight m)%Z as Hb by (unfold bodyHeight; lia). split; [by apply columns_width|].
  assert (0 <= m_height m)%Z by (pose proof (Height_pos (renderHelp m)); lia).
  split; [apply content_height; [done..|by apply columns_height]|]. intros palette. apply palette_placed; lia.
Qed.
End Screen.

(** ** On a grid of bytes *)

(** Texts as lines; a box cuts and fills them. *)
Definition grid_lines (s : string) : list string := Split s newline.
Definition grid_text (ls : list string) : string := Join ls nl.
Definition grid_width (s : string) : nat := foldr Nat.max 0 (String.length <$> grid_lines s).
Definition fit_line (w : nat) (line : string) : string :=
  let s := String.substring 0 w line in s +:+ Repeat " " (w - String.length s).
Definition fit_lines (n : Z) (ls : list string) : list string :=
  if (0 <? n)%Z then take (Z.to_nat n) (ls ++ replicate (Z.to_nat n) "") else ls.
Definition grid_frame (b : box) (t : string) : string :=
  let ls := match bx_MaxHeight b with Some n => fit_lines n (grid_lines t) | None => grid_lines t end in
  grid_text (match bx_Width b with Some w => fit_line (Z.to_nat w) <$> ls | None => ls end).
Definition beside (a b : string) : string :=
  let n := length (grid_lines a) `max` length (grid_lines b) in
  grid_text ((fun i => fit_line (grid_width a) (default "" (grid_lines a !! i))
                       +:+ fit_line (grid_width b) (default "" (grid_lines b !! i))) <$> seq 0 n).

Lemma blanks_length n : String.length (Repeat " " n) = n.
Proof. induction n as [|n IH]; [done|]. exact (f_equal S IH). Qed.
Lemma blanks_free n : free newline (Repeat " " n).
Proof. induction n as [|n IH]; [apply free_nil|]. apply free_cons. by split. Qed.

Lemma fit_line_length w line : String.length (fit_line w line) = w.
Proof.
  unfold fit_line. rewrite string_length_app, blanks_length. pose proof (substring_length w line). lia.
Qed.
Lemma substring_free c n s : free c s -> free c (String.substring 0 n s).
Proof.
  revert s. induction n as [|n IH]; intros [|d s]; cbn; try done; try (intros; apply free_nil).
  rewrite !free_cons. intros [Hd Hs]. split; [done|by apply IH].
Qed.
Lemma fit_line_free w line : free newline line -> free newline (fit_line w line).
Proof. intros Hl. apply free_app. split; [by apply substring_free|apply blanks_free]. Qed.

Lemma grid_lines_free s : Forall (free newline) (grid_lines s).
Proof. apply Forall_forall. intros x. apply Split_free. Qed.
Lemma grid_lines_text ls : ls <> [] -> Forall (free newline) ls -> grid_lines (grid_text ls) = ls.
Proof. intros Hne Hf. by apply (Split_Join ls newline). Qed.

Lemma fit_lines_free n ls : Forall (free newline) ls -> Forall (free newline) (fit_lines n ls).
Proof.
  intros Hl. unfold fit_lines. case_match; [|done]. apply Forall_take, Forall_app. split; [done|].
  apply Forall_replicate, free_nil.
Qed.
Lemma fit_lines_length n ls : (0 < n)%Z -> length (fit_lines n ls) = Z.to_nat n.
Proof.
  intros Hn. unfold fit_lines. destruct (Z.ltb_spec 0 n); [|lia]. rewrite length_take, length_app, length_replicate. lia.
Qed.
Lemma fit_lines_not_nil n ls : ls <> [] -> fit_lines n ls <> [].
Proof.
  intros Hne. unfold fit_lines. destruct (Z.ltb_spec 0 n); [|done]. destruct ls; [done|].
  destruct (Z.to_nat n) eqn:Hz; [lia|done].
Qed.

Lemma widest ls w : ls <> [] -> Forall (fun l => String.length l = w) ls -> foldr Nat.max 0 (String.length <$> ls) = w.
Proof.
  intros Hne Hw. induction Hw as [|l ls Hl Hw IH]; [done|]. cbn. destruct ls as [|l' ls]; [cbn; lia|].
  rewrite IH by done. lia.
Qed.

(** The lines a box shows, before they are cut to its width. *)
Lemma grid_frame_lines b t : exists ls, ls <> [] /\ Forall (free newline) ls
  /\ (forall n, bx_MaxHeight b = Some n -> (0 < n)%Z -> length ls = Z.to_nat n)
  /\ grid_lines (grid_frame b t) = match bx_Width b with Some w => fit_line (Z.to_nat w) <$> ls | None => ls end.
Proof.
  unfold grid_frame.
  set (ls := match bx_MaxHeight b with Some n => fit_lines n (grid_lines t) | None => grid_lines t end). exists ls.
  assert (ls <> [] /\ Forall (free newline) ls) as [Hne Hf].
  { unfold ls. case_match; [split; [apply fit_lines_not_nil, Split_not_nil|apply fit_lines_free, grid_lines_free]|].
    split; [apply Split_not_nil|apply grid_lines_free]. }
  split_and!; [done..| |].
  - intros n Hn Hpos. unfold ls. rewrite Hn. by apply fit_lines_length.
  - destruct (bx_Width b); [|by apply grid_lines_text]. apply grid_lines_text; [by destruct ls|].
    apply Forall_fmap. eapply Forall_impl; [exact Hf|]. intros l. apply fit_line_free.
Qed.

Lemma beside_lines a b : exists ls, grid_lines (beside a b) = ls
  /\ length ls = length (grid_lines a) `max` length (grid_lines b)
  /\ Forall (fun l => String.length l = grid_width a + grid_width b) ls /\ ls <> [].
Proof.
  eexists. split; [reflexivity|]. unfold beside. set (n := length _ `max` length _).
  assert (0 < n) as Hn. { pose proof (Split_not_nil a newline) as Ha. unfold n, grid_lines. destruct (Split a newline); [done|cbn; lia]. }
  assert (forall s i, free newline (default "" (grid_lines s !! i))) as Hfree.
  { intros s i. destruct (grid_lines s !! i) as [l|] eqn:Hl; [|apply free_nil]. cbn.
    eapply Split_free, list_elem_of_lookup_2, Hl. }
  clearbody n. rewrite grid_lines_text; [rewrite length_fmap, length_seq; split; [done|]; split| |].
  - apply Forall_fmap, Forall_true. intros i. cbn. by rewrite string_length_app, !fit_line_length.
  - destruct n; [lia|done].
  - destruct n; [lia|done].
  - apply Forall_fmap, Forall_true. intros i. cbn. apply free_app. split; apply fit_line_free, Hfree.
Qed.

Lemma fitted_width w ls : ls <> [] -> Forall (free newline) ls -> grid_width (grid_text (fit_line w <$> ls)) = w.
Proof.
  intros Hne Hf. assert (fit_line w <$> ls <> []) as Hne' by (by destruct ls). unfold grid_width.
  rewrite grid_lines_text; [|done|apply Forall_fmap; eapply Forall_impl; [exact Hf|]; intros l; apply fit_line_free].
  apply widest; [done|]. apply Forall_fmap, Forall_true. intros l. apply fit_line_length.
Qed.

#[local] Instance grid_messages : Messages := {| ui_msg := unit; ui_cmd := unit |}.
#[local] Existing Instance plain_bubbles.

#[local] Program Instance grid_lipgloss : Lipgloss := {|
  Width s := Z.of_nat (grid_width s);
  Height s := Z.of_nat (length (grid_lines s));
  Render sty s := match sy_MaxWidth sty with
                  | Some w => grid_text (fit_line (Z.to_nat w) <$> grid_lines s)
                  | None => s
                  end;
  RenderThemeGradient s := s;
|}.
Next Obligation.
  intros w sty t Hw. change (Z.of_nat (grid_width (grid_text (fit_line (Z.to_nat w) <$> grid_lines t))) <= w)%Z.
  rewrite fitted_width; [lia|apply Split_not_nil|apply grid_lines_free].
Qed.

Lemma grid_lines_app s t : grid_lines (s +:+ nl +:+ t) = grid_lines s ++ grid_lines t.
Proof.
  rewrite <- (Join_Split s newline) at 1. pose proof (grid_lines_free s) as Hf. unfold grid_lines in *.
  pose proof (Split_not_nil s newline) as Hne. induction Hf as [|l ls Hl Hf IH]; [done|].
  destruct ls as [|l' ls]; [by apply (Split_app l t newline)|].
  rewrite Join_cons by done. change (String newline "") with nl in *. rewrite !string_app_assoc.
  change (nl +:+ ?x) with (String newline x). rewrite Split_app by done. by rewrite IH.
Qed.

Lemma grid_lines_pos s : 1 <= length (grid_lines s).
Proof. pose proof (Split_not_nil s newline). unfold grid_lines. destruct (Split s newline); [done|cbn; lia]. Qed.

Lemma all_beside n l : (1 <= n)%Z -> Forall (fun t => Z.of_nat (length (grid_lines t)) = n) l ->
  (Z.of_nat (length (grid_lines (foldr beside "" l))) <= n)%Z.
Proof.
  intros Hn Hl. induction Hl as [|a l Ha Hl IH]; cbn [foldr]; [cbn; lia|].
  destruct (beside_lines a (foldr beside "" l)) as (ls & Heq & Hlen & _). rewrite Heq, Hlen. lia.
Qed.

#[local] Program Instance grid_layout : Layout := {|
  Frame := grid_frame;
  JoinVertical l := grid_text l;
  JoinHorizontal l := foldr beside "" l;
  Compose base _ over := over +:+ base;
  list_View A l := "";
  FilterState A l := Unfiltered;
|}.
Next Obligation.
  intros b t w Hw _ Hpos _. destruct (grid_frame_lines b t) as (ls & Hne & Hf & _ & Heq).
  change (Z.of_nat (grid_width (grid_frame b t)) = w). unfold grid_width. rewrite Heq, Hw.
  rewrite (widest _ (Z.to_nat w)); [lia|by destruct ls|]. apply Forall_fmap, Forall_true. intros l. apply fit_line_length.
Qed.
Next Obligation.
  intros b t n _ Hn Hpos. destruct (grid_frame_lines b t) as (ls & _ & _ & Hlen & Heq).
  change (Z.of_nat (length (grid_lines (grid_frame b t))) = n). rewrite Heq. specialize (Hlen n Hn Hpos).
  destruct (bx_Width b); rewrite ?length_fmap; lia.
Qed.
Next Obligation.
  intros l. change (Z.of_nat (grid_width (foldr beside "" l)) = foldr Z.add 0%Z ((fun s => Z.of_nat (grid_width s)) <$> l)).
  induction l as [|a l IH]; [done|]. cbn [foldr fmap list_fmap]. rewrite <- IH.
  destruct (beside_lines a (foldr beside "" l)) as (ls & Heq & _ & Hw & Hne). unfold grid_width at 1. rewrite Heq.
  rewrite (widest _ _ Hne Hw). lia.
Qed.
Next Obligation.
  intros l n Hne Hn. change (Z.of_nat (length (grid_lines (foldr beside "" l))) = n).
  change (Forall (fun t => Z.of_nat (length (grid_lines t)) = n) l) in Hn.
  destruct l as [|a l]; [done|]. apply Forall_cons in Hn as [Ha Hn]. pose proof (grid_lines_pos a) as Hpos.
  destruct (beside_lines a (foldr beside "" l)) as (ls & Heq & Hlen & _). cbn [foldr]. rewrite Heq, Hlen.
  pose proof (all_beside n l ltac:(lia) Hn). lia.
Qed.
Next Obligation.
  intros l Hne. change (Z.of_nat (length (grid_lines (grid_text l)))
    = foldr Z.add 0%Z ((fun s => Z.of_nat (length (grid_lines s))) <$> l)).
  destruct l as [|a l]; [done|]. clear Hne. revert a. induction l as [|b l IH]; intros a.
  { cbn [fmap list_fmap foldr]. change (grid_text [a]) with a. lia. }
  unfold grid_text. rewrite Join_cons by done. rewrite grid_lines_app, length_app.
  change (Join (b :: l) nl) with (grid_text (b :: l)). rewrite Nat2Z.inj_add, IH. done.
Qed.
Next Obligation. done. Qed.
Next Obligation. intros t. pose proof (grid_lines_pos t). cbn. lia. Qed.

(** The dashboard opened on two services, in a terminal of 100 columns and 30 lines,
    then with its palette open. *)
Definition sized : model := on_size 100 30 opened.1.
Definition with_palette : model := set_commandPaletteOpen true sized.

Lemma frames_drawn_witness :
  (frames "dev" ∅ [sized; with_palette; sized]).2 = [screen "dev" sized; screen "dev" with_palette; screen "dev" sized]
  /\ Width (columns_of "dev" with_palette (bodyHeight with_palette)) = 100%Z
  /\ Height (screen_content (columns_of "dev" with_palette (bodyHeight with_palette)) with_palette) = 30%Z
  /\ palette_at with_palette (renderCommandPaletteWindow with_palette) = (18, 13)%Z.
Proof.
  destruct (frames_drawn "dev" [sized; with_palette; sized]) as [Hf Hs]. split; [exact Hf|].
  destruct (Hs with_palette) as (Hw & Hh & _); [vm_compute; congruence|by vm_compute|vm_compute; congruence|].
  split; [exact Hw|]. split; [exact Hh|]. vm_compute. reflexivity.
Defined.
