(* ===== verification/DashboardCmd.v ===== *)
(** * dockform dashboard ([internal/cli/dashboardcmd/command.go])

    The command from its flags to the state the dashboard opens with.  Getting there
    only reads; from there on the messages of the terminal decide. *)

From S2P Require Import Prelude GoStrings GoPath Apperr Util Manifest Effects Docker DockerExec Lru Client ClientResources Compose ClientHandler ServiceState Resource Plan Validator Prompt Session Images HostOps CommandOps Commands DashboardData DashboardView Dashboard.

(** A factory that was asked for the first context before, as the setup does for
    every context, gives the client of that context, with its host. *)
Lemma GetDefaultClient_right clients cfg :
  factory_of cfg clients -> is_Some (clients !! cacheKey (GetFirstDaemon cfg).1 (cfg_Identifier cfg)) ->
  (GetDefaultClient clients cfg).2 = client_of cfg (GetFirstDaemon cfg).1.
Proof.
  intros Hf [c Hc]. unfold GetDefaultClient, GetClient, factory_get. rewrite Hc. by apply Hf.
Qed.

(** Asked for first, it would be the docker context of that name, and not the host. *)
Example default_client_unasked :
  daemon_variable (GetDefaultClient ∅ two_contexts).2 = ["DOCKER_CONTEXT=far"]
  /\ daemon_variable (client_of two_contexts "far") = ["DOCKER_HOST=ssh://far"].
Proof. by vm_compute. Qed.

Section Command.
Context (h : Manifest.Host) (decode_contexts : string -> res (gmap string unit)) (decode : string -> res Config).
Context (labelStyle : string -> string) (userHome : res string) (buildVersion : string).
Context `{MapRange} `{Decoders} `{SortSlice} `{Schedule} `{Styles} `{TextInput} `{Bubbles}.

Definition open_dashboard (fl : Flags) (cfg : Config) (stacks : list StackSummary) : model :=
  let identifier := cfg_Identifier cfg in
  newModel true (Some (TrimSpace identifier)) stacks buildVersion identifier
    (dashboard_manifestPath h userHome (TrimSpace (fl_manifest fl)) (cfg_BaseDir cfg)) (dockerContextName cfg) "" "".

Definition dashboard_command (fl : Flags) : vcmd (res model) :=
  s ← v_session (setup h decode_contexts decode labelStyle fl);
  try s id (fun '(cfg, _) =>
  r ← v_docker (GetFirstDaemon cfg).1 (StackSummaries cfg new_cache);
  mret (match r with Ok (_, stacks) => Ok (open_dashboard fl cfg stacks) | Err e => Err e end)).

(** Only the client of the first context, and only reading. *)
Definition dashboard_reads (o : obs command_effect) : Prop :=
  match o with
  | Obs (VSession o) r => session_reads (Obs (E := session) o r)
  | Obs (VDocker _ o) _ => reading_op o
  | Obs (VHost _) _ => False
  end.

Lemma loadServices_reads cfg cache name stack :
  always (fun o => let '(Obs e _) := o in reading_op e) (loadServices cfg cache name stack).
Proof.
  unfold loadServices. cbv zeta. apply always_bind; [|intros; apply always_ret].
  match goal with |- always _ (cli_ComposeConfigFull _ ?a) =>
    by apply (client_call_reads (NewClient "") cache (ComposeConfigFull a)) end.
Qed.

Lemma StackSummaries_reads cfg cache :
  always (fun o => let '(Obs e _) := o in reading_op e) (StackSummaries cfg cache).
Proof.
  unfold StackSummaries. cbv zeta. apply always_for_each_res. intros st name _.
  apply always_bind; [apply loadServices_reads|]. intros r. apply always_ret.
Qed.

Lemma dashboard_command_reads fl : always dashboard_reads (dashboard_command fl).
Proof.
  unfold dashboard_command. apply always_bind.
  - apply (always_embed _ _ session_reads); [apply setup_reads|]. by intros e r.
  - intros s. apply always_try. intros [cfg p] _. apply always_bind; [|intros; apply always_ret].
    apply always_v_docker. eapply always_mono; [apply StackSummaries_reads|]. by intros [e r].
Qed.

(** The dashboard opens on what is there.  Opening it changes nothing, on the daemons
    or on the machine; the state it opens with shows the services of the stacks of the
    manifest in order, no service with a state yet, the first pane in focus, nothing
    followed, and it satisfies the invariant of the dashboard. *)
Theorem dashboard_opens fl :
  always dashboard_reads (dashboard_command fl)
  /\ wp (dashboard_command fl) (fun _ r => forall m, r = Ok m ->
       exists cfg stacks, sk_Name <$> stacks = sorted_keys (GetAllStacks cfg)
         /\ Forall (fun st => exists doc, sk_Services st = shown_services doc) stacks
         /\ Items (m_list m) = stackItemsFromSummaries stacks
         /\ m_statusByKey m = ∅ /\ m_activePane m = 0%Z /\ m_logCancel m = None /\ m_commandPaletteOpen m = false
         /\ dash_ok (stackItemsFromSummaries stacks) (m, mkStore [] [])).
Proof.
  split; [apply dashboard_command_reads|]. unfold dashboard_command. apply wp_bind, wp_true. intros t s.
  destruct s as [[cfg p]|e]; cbn [try]; [|by apply wp_ret]. apply wp_bind, wp_v_docker.
  eapply wp_mono; [apply summaries_in_order|]. intros u r Hr. apply wp_ret. intros m Hm.
  destruct r as [[c stacks]|e]; [|done]. injection Hm as <-. destruct Hr as [Hn Hall].
  exists cfg, stacks. split; [done|]. split; [done|]. unfold open_dashboard.
  split; [|split; [|split; [|split; [|split; [|apply newModel_ok]]]]]; unfold newModel;
    destruct (buildAttachmentMaps stacks) as [n v]; try done. cbn. by rewrite Items_New.
Qed.
End Command.
