(* ===== verification/Ui.v ===== *)
(** * Printing ([internal/ui]: [ui.go], [pager.go])

    Lists of sections, escape sequences, the printer of messages and the pager.  The
    viewport of the pager and the colouring of YAML are libraries. *)

From S2P Require Import Prelude GoStrings GoUtf8 GoRegexp Apperr Util Resource Session.
From Stdlib Require Import Ascii.

(** ** Sections ([RenderSectionedList]) *)

Section Lists.
Context `{Styles}.

Record Section_ := mkListSection { sec_Title : string; sec_Items : list DiffLine }.

(** Lines of information have no icon. *)
Definition section_item (item : DiffLine) : string :=
  "  " +:+ match dl_Type item with Info => "" | t => getIconForChangeType t +:+ " " end +:+ dl_Message item +:+ nl.

Definition list_section (s : Section_) : string :=
  render (if bool_decide (sec_Title s = "Using") then styleUsingTitle else styleSectionTitle) (sec_Title s) +:+ nl
  +:+ Join (section_item <$> sec_Items s) "".

Definition RenderSectionedList (sections : list Section_) : string :=
  Join (list_section <$> filter (fun s => sec_Items s <> []) sections) nl.
End Lists.

(** ** Escape sequences ([StripANSI]) *)

Definition escape : ascii := "027".
Definition is_param (c : ascii) : bool := is_digit c || Ascii.eqb c ";".
Definition is_letter (c : ascii) : bool := is_lower_letter c || is_upper_letter c.
Definition ansiRegexp : re :=
  Cat (Chr (Ascii.eqb escape)) (Cat (Chr (Ascii.eqb "[")) (Cat (Star (Chr is_param)) (Chr is_letter))).
Definition StripANSI (s : string) : string := ReplaceAllString ansiRegexp (fun _ => "") s.

(** Text without an escape is left alone. *)
Lemma ansi_begins m : lang ansiRegexp m -> exists rest, m = String escape rest.
Proof.
  intros Hm. inversion Hm as [| |? ? s t Hs Ht| | | | |]; subst. inversion Hs as [|f c Hc| | | | | |]; subst.
  apply Ascii.eqb_eq in Hc as <-. by exists t.
Qed.

Lemma StripANSI_plain s : escape ∉ chars s -> StripANSI s = s.
Proof.
  intros Hs. unfold StripANSI, ReplaceAllString. generalize (S (String.length s)) as fuel. intros fuel. revert s Hs.
  induction fuel as [|fuel IH]; intros s Hs; [done|]. cbn [replace_all].
  destruct (match_at ansiRegexp s) as [[rest cs]|] eqn:Hm.
  - apply match_at_Some in Hm as (m & -> & (rest' & ->)%ansi_begins). destruct Hs. rewrite chars_app. left.
  - destruct s as [|c s]; [done|]. f_equal. apply IH. intros Hin. apply Hs. by right.
Qed.

(** What is left may read as a sequence again. *)
Example strip_once :
  let s := String escape (String escape "[0m[1mbold") in
  StripANSI s = String escape "[1mbold" /\ StripANSI (StripANSI s) = "bold".
Proof. by vm_compute. Qed.

(** ** The printer ([StdPrinter]) *)

(** Where a text goes: a stream that may be missing or a terminal. *)
Record writer := mkWriter { wr_present : bool; wr_tty : bool }.
Record StdPrinter := mkPrinter { pr_Out : writer; pr_Err : writer }.
Inductive output := ToOut (text : string) | ToErr (text : string).
Definition text_of (o : output) : string := match o with ToOut t | ToErr t => t end.

(** [DOCKFORM_TUI_ACTIVE] is set while the rolling display owns the terminal. *)
Definition tui_active (value : option string) : bool :=
  match value with
  | Some v => bool_decide (v <> "") && match ParseBool v with Some b => b | None => false end
  | None => false
  end.

Section Printer.
Context (prefixStyle : string -> string) (tui : option string).

Definition clearCurrentLineIfTTY (w : writer) (to : string -> output) : list output :=
  if wr_tty w then [to (String "013" (String escape "[2K"))] else [].

Definition printed_line (w : writer) (to : string -> output) (prefix : option string) (msg : string) : list output :=
  if tui_active tui || negb (wr_present w) then [] else
  match prefix with
  | None => [to (msg +:+ nl)]
  | Some p => clearCurrentLineIfTTY w to ++ [to (prefixStyle p +:+ " " +:+ msg +:+ nl)]
  end.

Definition printer_Plain (p : StdPrinter) (msg : string) := printed_line (pr_Out p) ToOut None msg.
Definition printer_Info (p : StdPrinter) (msg : string) := printed_line (pr_Out p) ToOut (Some "[info]") msg.
Definition printer_Warn (p : StdPrinter) (msg : string) := printed_line (pr_Err p) ToErr (Some "[warn]") msg.
Definition printer_Error (p : StdPrinter) (msg : string) := printed_line (pr_Err p) ToErr (Some "[error]") msg.
End Printer.

(** Warnings and errors never reach the standard output, and nothing is printed while
    the display is active. *)
Lemma printer_routes prefixStyle tui p msg :
  (forall t, ToOut t ∉ printer_Warn prefixStyle tui p msg ++ printer_Error prefixStyle tui p msg)
  /\ (forall t, ToErr t ∉ printer_Plain prefixStyle tui p msg ++ printer_Info prefixStyle tui p msg)
  /\ (tui_active tui = true -> printer_Plain prefixStyle tui p msg = [] /\ printer_Warn prefixStyle tui p msg = []).
Proof.
  unfold printer_Plain, printer_Info, printer_Warn, printer_Error, printed_line, clearCurrentLineIfTTY.
  destruct (tui_active tui); [set_solver|]. cbn [orb].
  destruct (wr_present (pr_Out p)), (wr_present (pr_Err p)), (wr_tty (pr_Out p)), (wr_tty (pr_Err p)); cbn; set_solver.
Qed.

(** ** The pager *)

Section Pager.
(** The viewport: its content and size, and what it does with a key. *)
Context {viewport : Type} (viewport_New : viewport) (SetContent : string -> viewport -> viewport)
  (SetWidth SetHeight : Z -> viewport -> viewport) (Width : viewport -> Z)
  (viewport_Update : string -> viewport -> viewport) (viewport_View : viewport -> string).
(** Colouring YAML, styles, and the measuring and joining of lines. *)
Context (colorizeYAML : string -> string) (separatorStyle : string -> string) (Height : string -> Z).

Definition lines_of (content : string) : nat := length (Split content newline).
Definition lineNumWidth (content : string) : nat := Nat.max 4 (String.length (FormatInt (Z.of_nat (lines_of content)))).

Definition formatContentWithLineNumbers (content : string) : string :=
  let w := lineNumWidth content in
  Join (imap (fun i line => separatorStyle (pad_left w (FormatInt (Z.of_nat (i + 1)))) +:+ separatorStyle " │ " +:+ line)
          (Split (colorizeYAML content) newline)) nl.

Record pagerModel := mkPagerModel {
  pm_title : string; pm_content : string; pm_original : string; pm_viewport : viewport; pm_ready : bool }.

Definition newPagerModel (title content : string) : pagerModel :=
  let formatted := formatContentWithLineNumbers content in
  mkPagerModel title formatted content (SetContent formatted viewport_New) false.

(** [strings.Repeat], which panics on a negative count. *)
Definition repeat_rule (n : Z) : string := Join (replicate (Z.to_nat n) "─") "".

Definition top_line (w : nat) (width : Z) : string :=
  repeat_rule (Z.of_nat w + 1) +:+ "┬" +:+ repeat_rule (width - Z.of_nat w - 2).
Definition middle_line (w : nat) (width : Z) : string :=
  repeat_rule (Z.of_nat w + 1) +:+ "┼" +:+ repeat_rule (width - Z.of_nat w - 1).

Definition headerView (m : pagerModel) : string :=
  let width := Width (pm_viewport m) in
  if (width <? 10)%Z then "" else
  let w := lineNumWidth (pm_original m) in
  separatorStyle (top_line w width) +:+ nl
  +:+ spaces w +:+ separatorStyle " │ " +:+ "File: " +:+ pm_title m +:+ nl
  +:+ separatorStyle (middle_line w width).

Definition footerView (m : pagerModel) : string :=
  let width := Width (pm_viewport m) in
  if (width <? 10)%Z then "" else separatorStyle (repeat_rule width).

Inductive pager_msg := PagerKey (key : string) | PagerSize (width height : Z) | PagerOther.

(** The second part says whether the pager ends. *)
Definition pager_Update (msg : pager_msg) (m : pagerModel) : pagerModel * bool :=
  match msg with
  | PagerKey key =>
      if bool_decide (key ∈ ["ctrl+c"; "esc"; "q"]) then (m, true)
      else (mkPagerModel (pm_title m) (pm_content m) (pm_original m) (viewport_Update key (pm_viewport m)) (pm_ready m), false)
  | PagerSize width height =>
      let m := mkPagerModel (pm_title m) (pm_content m) (pm_original m) (SetWidth width (pm_viewport m)) (pm_ready m) in
      let h := Z.max 1 (height - Height (headerView m) - Height (footerView m)) in
      (mkPagerModel (pm_title m) (pm_content m) (pm_original m)
         (SetContent (pm_content m) (SetHeight h (pm_viewport m))) true, false)
  | PagerOther => (m, false)
  end.

Definition pager_View (m : pagerModel) : string :=
  if pm_ready m then Join [headerView m; viewport_View (pm_viewport m); footerView m] nl else "".

(** Nothing but the keys that end it ends the pager, and its text never changes. *)
Lemma pager_keeps msg m :
  pm_content (pager_Update msg m).1 = pm_content m /\ pm_original (pager_Update msg m).1 = pm_original m
  /\ ((pager_Update msg m).2 = true <-> exists key, msg = PagerKey key /\ key ∈ ["ctrl+c"; "esc"; "q"]).
Proof.
  destruct msg as [key|w h|]; cbn [pager_Update].
  - case_bool_decide as Hk; split_and!; try done; split; try done; [eauto|]. by intros (k & [= <-] & Hin).
  - split_and!; try done. split; [done|]. by intros (k & ? & _).
  - split_and!; try done. split; [done|]. by intros (k & ? & _).
Qed.
End Pager.

(** The rule above the file name is as wide as the pager, the one below it one column
    wider. *)
Example middle_line_too_wide :
  Forall (fun width => Z.of_nat (rune_count (top_line 4 width)) = width
                       /\ Z.of_nat (rune_count (middle_line 4 width)) = (width + 1)%Z) [10; 80; 120]%Z.
Proof. repeat constructor. Qed.

(** The content is coloured before it is given to the pager, and again by it. *)
Example coloured_twice :
  let bold s := "<b>" +:+ s +:+ "</b>" in
  formatContentWithLineNumbers bold (fun s => s) (bold "a: 1") = "   1 │ <b><b>a: 1</b></b>".
Proof. by vm_compute. Qed.
